(* ===== verification/_CoqProject ===== *)
-Q . S2P
Prelude.v
Strconv.v
IoBuffer.v
Serialize.v
BoltTypes.v
BoltCodec.v
BoltProps.v
Protocols.v
ProtocolsProps.v
Stream.v
StreamProps.v
GoStrings.v
GoTime.v
Router.v
RouterProps.v
Cluster.v
ClusterProps.v
Subset.v
SubsetProps.v
StateGo.v
ProxyState.v
Proxy.v
ProxyProps.v
ProxyLife.v
ProxyFlow.v
ProxyFilters.v
ProxyRuns.v
ClusterHosts.v
ClusterHostsProps.v
ClusterManager.v
ClusterManagerProps.v
HealthCheck.v
HealthCheckProps.v
AccessLog.v
AccessLogProps.v
Logger.v
LoggerProps.v
Connection.v
ConnectionProps.v
Pools.v
PoolsProps.v
Handler.v
HandlerProps.v
Transfer.v
TransferProps.v
TcpProxy.v
TcpProxyProps.v
FaultInject.v
FaultInjectProps.v
StreamFilters.v
StreamFiltersProps.v
BasicRouter.v
XStream.v
XStreamProps.v
Http2Stream.v
Http2StreamProps.v
Http1Stream.v
Http1StreamProps.v
GoNet.v
ConfigTypes.v
Config.v
ConfigStore.v
ConfigProps.v
Startup.v
StartupProps.v
Tls.v
TlsProps.v
Xds.v
XdsProps.v
XdsClient.v
XdsClientProps.v
Keeper.v
KeeperProps.v
