(* ===== verification/Prelude.v ===== *)
(** * MOSN in Rocq

    A model of the core of this repository's proxy and the theorems that make
    it correct, or show where it is not.  MOSN accepts RPC traffic on a
    connection, decodes frames, gives each request a stream, routes it by its
    headers to a cluster, picks a host of the cluster, and relays the answer.

    ** Parts of the program and files of this development

    - [Prelude] (this file): Go's outcomes (a value or a panic), machine
      integers, bytes, slices with their spare capacity, shared lemmas, tactics
      and hint databases.
    - [Strconv], [GoStrings], [GoTime], [GoNet]: the functions of Go's strconv,
      strings, sort, time and net packages that the sources use.
    - [IoBuffer]: pkg/network/buffer/iobuffer.go.  [IoBuffer] has the fields of
      the struct; [wf] is its invariant, [contents] its unread bytes.
    - [Serialize]: pkg/protocol/serialize/simple.go, the encoding of header maps.
    - [BoltTypes], [BoltCodec]: pkg/protocol/sofarpc (types.go, adapter.go) and
      codec/ (boltv1codec.go, boltv2codec.go, boltprotocol.go): commands, header
      properties, encoders and decoders.  [BoltProps] has their theorems.
    - [Protocols]: pkg/protocol/sofarpc/handler (from commands to header maps)
      and protocols.go (the registry and the decode loop).  The stream layer is
      the class [DecodeFilter] there; theorems in [ProtocolsProps].
    - [Stream]: pkg/stream/sofarpc (stream.go, streamhelper.go), an instance of
      [DecodeFilter]: the streams of a connection; theorems in [StreamProps].
    - [Router]: pkg/router (configutility.go, routematcher.go, routeruleimpl.go,
      virtualhostimpl.go, types.go, routersmanager.go): the route table;
      theorems in [RouterProps].
    - [Cluster]: pkg/upstream/cluster (host.go, the priority sets of cluster.go,
      loadbalancer.go, resourcemanager.go); theorems in [ClusterProps].
    - [Subset]: pkg/upstream/cluster/subsetlbimpl.go, balancing over hosts
      grouped by metadata; theorems in [SubsetProps].
    - [ClusterHosts]: the host lists of cluster.go, concreteclusters.go and
      host.go, with hosts as shared objects and slices over shared arrays;
      theorems in [ClusterHostsProps].
    - [ClusterManager]: clustermanager.go and clusteradapter.go, over any load
      balancer that meets the class [Balancer]; theorems in
      [ClusterManagerProps].
    - [HealthCheck]: pkg/upstream/healthcheck, sessions, timers and thresholds;
      theorems in [HealthCheckProps].
    - [StateGo]: the monad [SG] of Go code that changes state.
    - [ProxyState], [Proxy]: pkg/proxy (downstream.go, upstream.go,
      retrystate.go, streamfilters.go, event.go), the life of one request.
      [ProxyProps] has the invariant of cleaning up, [ProxyLife] the one answer
      of a request, [ProxyFlow] requests that are relayed, retried or refused,
      [ProxyFilters] filter chains, [ProxyRuns] concrete runs.
    - [Connection]: pkg/network (connection.go, filtermanager.go); theorems in
      [ConnectionProps].
    - [Pools]: pkg/stream/codecclient.go and the four connpool.go; theorems in
      [PoolsProps].
    - [Handler]: pkg/server (handler.go, server.go, configuration.go, stats.go),
      pkg/network/listener.go and the filter of original destinations:
      listeners and the connections they accept; theorems in [HandlerProps].
    - [Transfer]: pkg/network/transfer.go, handing connections over to a new
      process; theorems in [TransferProps].
    - [TcpProxy]: pkg/filter/network/tcpproxy/proxy.go, on top of [Connection];
      theorems in [TcpProxyProps].
    - [FaultInject]: pkg/filter/network/faultinject, a read filter of
      [Connection]; theorems in [FaultInjectProps].
    - [StreamFilters]: pkg/filter/stream (healthcheck/sofarpc, faultinject),
      instances of the interface [StreamReceiverFilter] of [ProxyState];
      theorems in [StreamFiltersProps].
    - [AccessLog]: pkg/log/accesslog.go; theorems in [AccessLogProps].
    - [Logger]: pkg/log (logger.go, roller.go); theorems in [LoggerProps].
    - [BasicRouter]: pkg/router/basic/router.go, with its theorems.
    - [XStream]: pkg/stream/xprotocol/stream.go; theorems in [XStreamProps].
    - [Http2Stream]: pkg/stream/http2/stream.go; theorems in [Http2StreamProps].
    - [Http1Stream]: pkg/stream/http (stream.go, codecclient.go); theorems in
      [Http1StreamProps].
    - [ConfigTypes], [Config], [ConfigStore]: pkg/config (config.go, parser.go,
      configmanager.go) and pkg/api/v2/types.go: the structs of a configuration,
      its parser, and the stored configuration that changes while the proxy runs;
      theorems in [ConfigProps].
    - [Startup]: cmd/mosn/starter.go, from a configuration to cluster managers,
      servers and listeners; theorems in [StartupProps].
    - [Tls]: pkg/tls/tls.go, contexts and the choice of one for a client; theorems
      in [TlsProps].
    - [Keeper]: pkg/server (serverkeeper.go, server.go), signals, shutdown and
      restarts; theorems in [KeeperProps].
    - [Xds]: pkg/config (convertxds.go, callback.go), updates from a control
      plane; theorems in [XdsProps].
    - [XdsClient]: pkg/xds, the configuration and the threads of the client of a
      control plane; theorems in [XdsClientProps].

    Every operation of the code is a definition of the same name where Rocq
    allows it; a method of one of several types carries the type's name or a
    short prefix ([v1_Decode], [rr_ChooseHost]).  State is passed explicitly.

    ** Modelling choices

    A Go function is a function into [Go A]: [Ret] for a return, [Panic] for a
    run-time panic; an error value is part of what is returned.  Integers are
    [Z] in the range of their type, with the conversions written out.  A slice
    carries its spare capacity, because some of the code reads or writes it.
    Maps are [gmap]s; code that ranges over a map takes the order as a
    parameter ([range_order], [range_meta], [range_hosts], or a boolean for the
    two-entry map of [ProcessSubsets]), and theorems either hold for every order
    or assume only that the order lists the map.  Where two values share memory
    and it matters, the sharing is modelled: the senders of [Stream] are a heap
    apart from the copies in the map of streams, a header map that a callee
    changes is returned changed, and removing from a slice while ranging over it
    ([remove_loop] of [Subset]) works on the array.

    Parameters stand for what is outside the sources: the buffer pool
    ([pool]; [pool_ok] says that it hands out empty buffers), the clock, random
    numbers, regular expressions ([Compile]), readers and writers, the receivers
    of streams.  Logging is left out, except where evaluating its arguments
    panics.  Locks are left out; operations of a component are sequential, and
    the one race that matters for a stated bound, that of checking and counting a
    resource, is a step relation ([res_step]).  [ToLower], [EqualFold] and
    [TrimSpace] are those of ASCII strings.

    Loops without a structural bound take fuel, with [Panic OutOfFuel] when it
    runs out: [decodeMap_loop] (the length of the input is enough:
    [decodeMap_terminates]), [protocols_Decode] (one more than the bytes of the
    buffer is enough for version 1: [dispatch_v1_terminates]; no fuel is enough
    for a version 2 response: [dispatch_v2_response_diverges]), and the read and
    write loops of [IoBuffer], whose theorems give a bound, and, for the
    filter chains of a proxy, three times the filters and four more
    ([chains_terminate]).  The write loop of a connection takes fuel for every
    entry of the script of its socket and four more.  The parser of durations
    takes fuel for every byte of the text.

    The decoder of JSON ([decode_proxy]), the resolver of addresses, files of
    certificates, crypto/x509 and the messages of a control plane are parameters of
    [Config], [Tls] and [Xds]; log.Fatal, which ends the process, is [Panic Exit].
    Numbers of a JSON value are binary floating-point numbers ([spec_float]).

    The proxy, the health checks, the connections and the pools are programs of
    [SG]: a function from a state to an outcome and the state after it.  A step
    (an event, a callback, an iteration of a loop) is atomic, and theorems are
    about every sequence of steps.  A timer that was stopped does not fire.  The
    proxy takes the route table, the cluster manager, the pools and the worker
    pool as parameters; a connection takes its filters and listeners as
    programs that may call the connection back; a socket is a script of what
    reads deliver and writes accept.  A goroutine that takes a lock it holds ends
    in [Panic Deadlock].  Closing from within the callbacks of a close is followed
    two levels deep in [Pools], which is as deep as the code can get, and four
    levels deep in [TcpProxy], where each of two connections closes the other.

    Where there are several connections, an operation of [Connection] works on one
    of them, taken out of the state and put back ([Handler]), or on the nearer one
    of two ([TcpProxy]).  What may happen to a connection between two steps of its
    set-up, its loops having been started, is an argument of that step.  A stream
    between two processes arrives in arbitrary pieces ([Transfer]).

    ** What is proved

    - Buffers: any sequence of operations behaves as on a queue of bytes; reads
      from and writes to connections terminate and lose nothing, with the
      exceptions stated; marks do not survive a move of the bytes.
    - Header maps: decoding inverts encoding for every order of the entries and
      accepts exactly the encodings; it terminates, and panics on lengths that
      overrun the input.
    - Codecs: round trips of requests and responses, and decoding of a stream of
      frames that arrives in pieces; version 2 responses and header maps do not
      work.
    - Dispatch: a request keeps its fields through the header map; the decode
      loop terminates on version 1 traffic and never on a version 2 response.
    - Streams: an invariant of the map of streams under all operations; the
      client's request id comes back with the answer; responses reach the
      receivers of their requests in any order of arrival; frames of unknown
      type, header-only responses and colliding heartbeats.
    - Routing: the table selects hosts by the precedence exact, longest wildcard,
      default, and rejects exactly the duplicates; the first matching route is
      taken; what configured routes match; metadata criteria are sorted.
    - Balancing: round robin is fair; limits hold up to races; a host chosen for
      metadata has it, in every reachable state; a new subset balancer groups the
      hosts exactly and serves them; when choosing panics.
    - Hosts: what an update of a cluster does to lists, members and health
      checker; removing hosts works in place on a shared array; a host that
      recovers makes its cluster panic.
    - Cluster manager: the manager with its adapter is a map from names to sets
      of hosts; pools belong to healthy hosts.
    - Health checks: a session follows the thresholds of its configuration; a
      host that cannot be reached stops being checked.
    - Proxy: a request is relayed unchanged, answered once and cleaned up once;
      retries are bounded; filter chains terminate; refused requests with a body
      stay active.
    - Connections: filters open once and in order, bytes are sent in order, a
      connection closes once; bytes that arrive with the end may be lost.
    - Pools: the counter of requests is exact, and a pool reconnects; closing an
      HTTP/2 or x-protocol pool deadlocks.
    - Listeners: the numbers of connections are exact, unless a connection ends
      while it is set up; how connections are handed to other listeners.
    - Transfer: a connection goes over to a new process with the bytes read and
      not used, and with those still to be written.
    - TCP proxy: the bytes of each side reach the other once and in order; which
      ends of one connection end the other.
    - Filters: a fault injector only delays; heartbeats are answered by the
      proxy, and their streams stay.
    - Access logs: which formats are accepted and what a line is.
    - Loggers: lines go to the writers of their loggers' outputs; a logger that did
      not start is handed out all the same.
    - Basic router: the first route of a service is taken; names stay distinct.
    - x-protocol: a server answers every request at most once; requests of a
      client that overlap get each other's answers.
    - HTTP/2: headers survive their encoding; a request and its answer pass a
      server's stream whole; a client's receiver gets a response at most once.
    - HTTP/1: a client's requests are accounted for, and a receiver gets at most
      one response for each; an error of one resets all; an exchange passes a
      server's stream whole.
    - Configuration: which clusters and listeners are accepted and what becomes of
      them; durations are read back as they were written; the stored
      configuration is a map of clusters and one of services.
    - Start-up: a valid configuration starts, with exactly its clusters, hosts and
      listeners; which configurations panic.
    - Restarts: the new process gets every listener of the old one, which drains;
      exit codes depend on the events only.
    - TLS: a client gets the settings of the first filter chain that covers it;
      looking at the first byte of a connection loses nothing.
    - Control plane: updates of clusters and endpoints are those of a registry;
      names of ciphers, curves and protocols arrive as they were sent; listeners
      end the process.  A stop of the client ends, unless a thread left before.

    ** What is not modelled

    The gRPC streams to a control plane and the decoding of the bootstrap
    configuration, and statistics, which are input and output, generated code or
    counters of a package outside the sources; the command line; the transports of HTTP/1 and HTTP/2, which are such packages too. *)

From Stdlib Require Export ZArith Lia.
From Stdlib Require Strings.Byte Strings.String.
From stdpp Require Export base tactics option list numbers strings gmap.

Open Scope Z_scope.

(** ** Outcomes of Go code

    A Go call either returns or panics.  The panics the modelled code can
    raise are the run-time ones and the explicit [panic] calls. *)

Inductive panic_kind :=
  | SliceBounds        (* slice expression, index or make out of range *)
  | NilDeref           (* method call or field access through nil *)
  | TypeAssertion      (* failed [x.(T)] without the comma-ok form *)
  | NilMapWrite        (* assignment to an entry of a nil map *)
  | IntDivide          (* integer division by zero *)
  | UserPanic (msg : string)   (* explicit panic(err) *)
  | Deadlock           (* not a panic: the goroutine waits for a lock it holds *)
  | Exit               (* not a panic: log.Fatal ended the process *)
  | OutOfFuel.         (* not a Go panic: the bound on the iterations of a loop
                          of the model was reached *)

Inductive Go (A : Type) :=
  | Ret (a : A)
  | Panic (k : panic_kind).
Arguments Ret {_} _.
Arguments Panic {_} _.

#[export] Instance Go_ret : MRet Go := @Ret.
#[export] Instance Go_bind : MBind Go := λ A B f m,
  match m with Ret a => f a | Panic k => Panic k end.
#[export] Instance Go_fmap : FMap Go := λ A B f m,
  match m with Ret a => Ret (f a) | Panic k => Panic k end.

#[export] Instance panic_kind_eq_dec : EqDecision panic_kind.
Proof. solve_decision. Defined.

(** [go_assert c k]: continue when [c] holds, panic with [k] otherwise. *)
Definition go_assert (c : bool) (k : panic_kind) : Go unit :=
  if c then Ret tt else Panic k.

Lemma bind_Ret_inv {A B} (m : Go A) (f : A → Go B) b :
  (m ≫= f) = Ret b → ∃ a, m = Ret a ∧ f a = Ret b.
Proof. destruct m; [eauto|discriminate]. Qed.

Lemma bind_Ret {A B} (a : A) (f : A → Go B) : (Ret a ≫= f) = f a.
Proof. reflexivity. Qed.

(** A computation avoids the panic [k] when its parts do. *)
Lemma bind_no_panic {A B} (m : Go A) (f : A → Go B) k :
  m ≠ Panic k → (∀ a, m = Ret a → f a ≠ Panic k) → (m ≫= f) ≠ Panic k.
Proof. destruct m as [a|k']; intros Hm Hf; [by apply Hf|]. simpl. congruence. Qed.

(** ** Machine integers

    A Go integer is a [Z] in the range of its type; conversions wrap. *)

Definition uwrap (w : Z) (z : Z) : Z := z mod 2 ^ w.
Definition swrap (w : Z) (z : Z) : Z := (z + 2 ^ (w - 1)) mod 2 ^ w - 2 ^ (w - 1).

Definition to_uint8 := uwrap 8.
Definition to_uint16 := uwrap 16.
Definition to_uint32 := uwrap 32.
Definition to_uint64 := uwrap 64.
Definition to_int8 := swrap 8.
Definition to_int16 := swrap 16.
Definition to_int32 := swrap 32.
Definition to_int64 := swrap 64.

Definition in_u (w z : Z) : Prop := 0 ≤ z < 2 ^ w.
Definition in_s (w z : Z) : Prop := - 2 ^ (w - 1) ≤ z < 2 ^ (w - 1).

Lemma uwrap_range w z : 0 ≤ w → in_u w (uwrap w z).
Proof. intros. apply Z.mod_pos_bound, Z.pow_pos_nonneg; lia. Qed.

Lemma uwrap_id w z : in_u w z → uwrap w z = z.
Proof. intros. by apply Z.mod_small. Qed.

Lemma pow_half w : 0 < w → 2 ^ w = 2 * 2 ^ (w - 1).
Proof. intros. rewrite <- Z.pow_succ_r by lia. f_equal; lia. Qed.

Lemma swrap_range w z : 0 < w → in_s w (swrap w z).
Proof.
  intros Hw. unfold in_s, swrap. pose proof (pow_half w Hw).
  assert (0 < 2 ^ w) by (apply Z.pow_pos_nonneg; lia).
  pose proof (Z.mod_pos_bound (z + 2 ^ (w - 1)) (2 ^ w)). lia.
Qed.

Lemma swrap_id w z : 0 < w → in_s w z → swrap w z = z.
Proof.
  intros Hw [? ?]. unfold swrap. pose proof (pow_half w Hw).
  rewrite Z.mod_small; lia.
Qed.

(** Converting to the unsigned type of the same width and back is the
    identity on values of the signed type. *)
Lemma swrap_uwrap w z : 0 < w → in_s w z → swrap w (uwrap w z) = z.
Proof.
  intros Hw Hz. rewrite <- (swrap_id w z) at 2 by done.
  unfold swrap, uwrap. by rewrite Zplus_mod_idemp_l.
Qed.

(** ** Bytes and big-endian integers *)

Abbreviation byte := Init.Byte.byte.
Abbreviation bytes := (list byte).

Definition byte_to_Z (b : byte) : Z := Z.of_N (Strings.Byte.to_N b).
Definition byte_of_Z (z : Z) : byte :=
  default Init.Byte.x00 (Strings.Byte.of_N (Z.to_N (z mod 256))).

#[export] Instance byte_eq_dec : EqDecision byte := Strings.Byte.byte_eq_dec.

Lemma byte_to_Z_range b : 0 ≤ byte_to_Z b < 256.
Proof. unfold byte_to_Z. pose proof (Strings.Byte.to_N_bounded b). lia. Qed.

Lemma byte_of_to_Z b : byte_of_Z (byte_to_Z b) = b.
Proof.
  unfold byte_of_Z. rewrite Z.mod_small by apply byte_to_Z_range.
  unfold byte_to_Z. by rewrite N2Z.id, Strings.Byte.of_to_N.
Qed.

Lemma byte_to_of_Z z : byte_to_Z (byte_of_Z z) = z mod 256.
Proof.
  unfold byte_of_Z, byte_to_Z. pose proof (Z.mod_pos_bound z 256 ltac:(lia)).
  destruct (Strings.Byte.of_N (Z.to_N (z mod 256))) as [b|] eqn:E; simpl.
  - apply Strings.Byte.to_of_N in E. rewrite E. lia.
  - apply Strings.Byte.of_N_None_iff in E. lia.
Qed.

(** [be_put n z] are the low [n] bytes of [z], most significant first
    ([binary.BigEndian.PutUintN]); [be_get] reads them back
    ([binary.BigEndian.UintN]). *)
Fixpoint be_put (n : nat) (z : Z) : bytes :=
  match n with
  | O => []
  | S n' => be_put n' (z / 256) ++ [byte_of_Z z]
  end.

Definition be_get (l : bytes) : Z :=
  fold_left (λ acc b, acc * 256 + byte_to_Z b) l 0.

Lemma be_get_snoc l b : be_get (l ++ [b]) = be_get l * 256 + byte_to_Z b.
Proof. unfold be_get. by rewrite fold_left_app. Qed.

Lemma length_be_put n z : length (be_put n z) = n.
Proof. revert z; induction n; intros; simpl; rewrite ?length_app, ?IHn; simpl; lia. Qed.

Lemma be_get_put n z : be_get (be_put n z) = z mod 256 ^ Z.of_nat n.
Proof.
  revert z; induction n as [|n IH]; intros z.
  - change (0 = z mod 1). by rewrite Z.mod_1_r.
  - simpl be_put. rewrite be_get_snoc, IH, byte_to_of_Z.
    rewrite Nat2Z.inj_succ, Z.pow_succ_r by lia.
    rewrite Z.rem_mul_r by lia. lia.
Qed.

Lemma be_get_range l : 0 ≤ be_get l < 256 ^ Z.of_nat (length l).
Proof.
  induction l as [|b l IH] using rev_ind; [done|].
  rewrite be_get_snoc, length_app, Nat2Z.inj_add, Z.pow_add_r by lia.
  change (256 ^ Z.of_nat (length [b])) with 256.
  pose proof (byte_to_Z_range b). nia.
Qed.

Lemma be_put_get l : be_put (length l) (be_get l) = l.
Proof.
  induction l as [|b l IH] using rev_ind; [done|].
  rewrite length_app, Nat.add_comm, be_get_snoc. simpl.
  pose proof (byte_to_Z_range b).
  rewrite Z.div_add_l by lia. rewrite (Z.div_small (byte_to_Z b)), Z.add_0_r by lia.
  rewrite IH. f_equal. f_equal. rewrite <- (byte_of_to_Z b) at 2.
  unfold byte_of_Z. do 3 f_equal. by rewrite Z.add_comm, Z_mod_plus_full.
Qed.

#[global] Arguments be_put : simpl never.
#[global] Arguments be_get : simpl never.

(** ** Byte slices

    A slice is what its header shows: the bytes up to its length and the
    bytes of the underlying array between its length and its capacity, which
    a slice expression can bring back into view. *)

Record gslice := mk_slice { s_data : bytes; s_extra : bytes }.

Definition s_len (s : gslice) : Z := Z.of_nat (length (s_data s)).
Definition s_cap (s : gslice) : Z := s_len s + Z.of_nat (length (s_extra s)).
Definition s_all (s : gslice) : bytes := s_data s ++ s_extra s.

(** A slice with no spare capacity, as [make([]byte, n)] or [[]byte(s)]. *)
Definition slice_of (l : bytes) : gslice := mk_slice l [].

Definition zeros (n : Z) : bytes := replicate (Z.to_nat n) Init.Byte.x00.

(** [sub l lo hi]: the elements of [l] at positions [lo .. hi-1]. *)
Definition sub {A} (l : list A) (lo hi : Z) : list A :=
  take (Z.to_nat (hi - lo)) (drop (Z.to_nat lo) l).

(** The slice expression [s[lo:hi]]. *)
Definition reslice (s : gslice) (lo hi : Z) : Go gslice :=
  if bool_decide (0 ≤ lo ≤ hi) && bool_decide (hi ≤ s_cap s) then
    Ret (mk_slice (sub (s_all s) lo hi) (drop (Z.to_nat hi) (s_all s)))
  else Panic SliceBounds.

(** The index expression [s[i]]. *)
Definition s_index (s : gslice) (i : Z) : Go byte :=
  if bool_decide (0 ≤ i) then
    match s_data s !! Z.to_nat i with Some b => Ret b | None => Panic SliceBounds end
  else Panic SliceBounds.

(** [copy(dst[at:], src)]: overwrites the bytes of [dst] from [at] on with as
    many bytes of [src] as fit. *)
Definition overwrite (dst : bytes) (at_ : nat) (src : bytes) : bytes :=
  take at_ dst ++ take (length dst - at_) src ++ drop (at_ + length src) dst.

(** Go strings are byte sequences. *)
Definition str_bytes (s : string) : bytes := String.list_byte_of_string s.
Definition bytes_str (l : bytes) : string := String.string_of_list_byte l.

(** ** Shared lemmas *)

Lemma bytes_str_bytes l : str_bytes (bytes_str l) = l.
Proof. apply String.list_byte_of_string_of_list_byte. Qed.

Lemma str_bytes_str s : bytes_str (str_bytes s) = s.
Proof. apply String.string_of_list_byte_of_string. Qed.

Lemma sub_0 {A} (l : list A) hi : sub l 0 hi = take (Z.to_nat hi) l.
Proof. unfold sub. by rewrite Z.sub_0_r. Qed.

Lemma length_sub {A} (l : list A) lo hi :
  0 ≤ lo ≤ hi → hi ≤ Z.of_nat (length l) → Z.of_nat (length (sub l lo hi)) = hi - lo.
Proof. intros. unfold sub. rewrite length_take, length_drop. lia. Qed.

Lemma sub_app_l {A} (l k : list A) lo hi :
  0 ≤ lo ≤ hi → hi ≤ Z.of_nat (length l) → sub (l ++ k) lo hi = sub l lo hi.
Proof.
  intros. unfold sub. rewrite drop_app_le by lia.
  by rewrite take_app_le by (rewrite length_drop; lia).
Qed.

Lemma sub_full {A} (l : list A) lo :
  0 ≤ lo → sub l lo (Z.of_nat (length l)) = drop (Z.to_nat lo) l.
Proof. intros. unfold sub. apply take_ge. rewrite length_drop. lia. Qed.

Lemma sub_app_mid {A} (pre mid post : list A) lo hi :
  lo = Z.of_nat (length pre) → hi = lo + Z.of_nat (length mid) →
  sub (pre ++ mid ++ post) lo hi = mid.
Proof.
  intros -> ->. unfold sub. rewrite Nat2Z.id, drop_app_length.
  replace (Z.to_nat _) with (length mid) by lia. apply take_app_length.
Qed.

Lemma s_cap_all s : s_cap s = Z.of_nat (length (s_all s)).
Proof. unfold s_cap, s_len, s_all. rewrite length_app. lia. Qed.

Lemma reslice_ok s lo hi :
  0 ≤ lo ≤ hi → hi ≤ s_cap s →
  reslice s lo hi = Ret (mk_slice (sub (s_all s) lo hi) (drop (Z.to_nat hi) (s_all s))).
Proof. intros. unfold reslice. by rewrite !bool_decide_true. Qed.

Lemma reslice_over s lo hi : s_cap s < hi → reslice s lo hi = Panic SliceBounds.
Proof. intros. unfold reslice. by rewrite (bool_decide_false (hi ≤ _)), andb_false_r by lia. Qed.

Lemma reslice_no_fuel s lo hi : reslice s lo hi ≠ Panic OutOfFuel.
Proof. unfold reslice. destruct (_ && _); discriminate. Qed.

(** Inside the length, a slice expression shows bytes of the slice. *)
Lemma reslice_in s lo hi :
  0 ≤ lo ≤ hi → hi ≤ s_len s →
  ∃ ex, reslice s lo hi = Ret (mk_slice (sub (s_data s) lo hi) ex).
Proof.
  intros. rewrite reslice_ok by (unfold s_cap; lia).
  unfold s_all. rewrite sub_app_l by (unfold s_len in *; lia). eauto.
Qed.

Lemma length_overwrite dst at_ src : (at_ ≤ length dst)%nat → length (overwrite dst at_ src) = length dst.
Proof. intros. unfold overwrite. rewrite !length_app, !length_take, length_drop. lia. Qed.

Lemma overwrite_fits dst at_ src :
  (at_ + length src ≤ length dst)%nat →
  overwrite dst at_ src = take at_ dst ++ src ++ drop (at_ + length src) dst.
Proof. intros. unfold overwrite. by rewrite (take_ge src) by lia. Qed.

Lemma length_zeros n : 0 ≤ n → Z.of_nat (length (zeros n)) = n.
Proof. intros. unfold zeros. rewrite length_replicate. lia. Qed.

(** Reslicing from the start keeps a known prefix of the array. *)
Lemma reslice_prefix s c r k :
  s_all s = c ++ r → Z.of_nat (length c) ≤ k ≤ s_cap s →
  ∃ junk ex, reslice s 0 k = Ret (mk_slice (c ++ junk) ex) ∧
    Z.of_nat (length junk) = k - Z.of_nat (length c) ∧
    Z.of_nat (length ex) = s_cap s - k.
Proof.
  intros Hall Hk. pose proof (s_cap_all s) as Hc. rewrite reslice_ok by lia.
  rewrite Hall in Hc |- *. rewrite length_app in Hc. rewrite sub_0, take_app_ge by lia.
  eexists _, _; split_and!; [done| |].
  - rewrite length_take. lia.
  - rewrite length_drop, length_app. lia.
Qed.

Lemma filter_ext_elem {A} (P Q : A → Prop) `{!∀ x, Decision (P x), !∀ x, Decision (Q x)} (l : list A) :
  (∀ x, x ∈ l → P x ↔ Q x) → filter P l = filter Q l.
Proof.
  induction l as [|x l IH]; intros Hl; [done|]. rewrite !filter_cons, IH by (intros; apply Hl; by right).
  pose proof (Hl x (list_elem_of_here _ _)). repeat case_decide; tauto || done.
Qed.

(** ** Automation

    [mosn] collects the lemmas that close the routine side conditions. *)
Create HintDb mosn.
#[export] Hint Resolve byte_to_Z_range be_get_range reslice_no_fuel : mosn.
Create Rewrite HintDb lens.
#[export] Hint Rewrite @length_app @length_take @length_drop @length_replicate length_be_put
  : lens.

(** Run a Go computation that is known not to panic. *)
Ltac go_step :=
  match goal with
  | |- context [Ret ?a ≫= ?f] => change (Ret a ≫= f) with (f a); cbv beta iota
  end.
Ltac go_inv :=
  repeat match goal with
  | H : (_ ≫= _) = Ret _ |- _ => apply bind_Ret_inv in H as (? & ? & H)
  | H : Ret _ = Ret _ |- _ => injection H as H
  | H : Panic _ = Ret _ |- _ => discriminate H
  | H : context [if ?c then _ else _] |- _ => destruct c eqn:?
  end; simplify_eq.

(** Case on every test of the goal. *)
Ltac case_tests :=
  repeat match goal with
  | |- context [bool_decide ?P] => case_bool_decide
  | |- context [if ?b then _ else _] => destruct b eqn:?
  end.

Ltac len_solve := autorewrite with lens; simpl; try lia.
