(* ===== verification/Strconv.v ===== *)
(** * The functions of Go's strconv the source uses

    [ParseUint], [ParseInt], [Atoi] and [FormatUint], in base 10, as the
    language's documentation defines them: a malformed string gives 0, a number
    out of range gives the nearest representable value, and the callers drop
    the error. *)

From S2P Require Import Prelude.

Definition is_digit (b : byte) : bool :=
  bool_decide (48 ≤ byte_to_Z b ≤ 57).
Definition digit_val (b : byte) : Z := byte_to_Z b - 48.
Definition digit_char (d : Z) : byte := byte_of_Z (48 + d).

(** The state of the scan: the number so far, or the reason it stopped. *)
Inductive scan := ScanNum (n : Z) | ScanSyntax | ScanRange.

Definition scan_step (maxv : Z) (s : scan) (b : byte) : scan :=
  match s with
  | ScanNum n =>
    if is_digit b then
      let n' := n * 10 + digit_val b in
      if bool_decide (n' ≤ maxv) then ScanNum n' else ScanRange
    else ScanSyntax
  | s => s
  end.

Definition scan_digits (maxv : Z) (l : bytes) : scan :=
  match l with
  | [] => ScanSyntax
  | _ => fold_left (scan_step maxv) l (ScanNum 0)
  end.

(** The value of [strconv.ParseUint(s, 10, bits)]. *)
Definition ParseUint (s : string) (bits : Z) : Z :=
  match scan_digits (2 ^ bits - 1) (str_bytes s) with
  | ScanNum n => n
  | ScanSyntax => 0
  | ScanRange => 2 ^ bits - 1
  end.

(** The sign and the digits of a signed numeral. *)
Definition split_sign (l : bytes) : bool * bytes :=
  match l with
  | b :: l' =>
    if bool_decide (byte_to_Z b = 45) then (true, l')
    else if bool_decide (byte_to_Z b = 43) then (false, l') else (false, l)
  | [] => (false, [])
  end.

(** The value of [strconv.ParseInt(s, 10, bits)]. *)
Definition ParseInt (s : string) (bits : Z) : Z :=
  let '(neg, ds) := split_sign (str_bytes s) in
  let cutoff := 2 ^ (bits - 1) in
  match scan_digits (2 ^ bits - 1) ds with
  | ScanSyntax => 0
  | r =>
    let un := match r with ScanNum n => n | _ => 2 ^ bits - 1 end in
    if neg then (if bool_decide (cutoff < un) then - cutoff else - un)
    else (if bool_decide (cutoff ≤ un) then cutoff - 1 else un)
  end.

(** [strconv.Atoi] on a 64-bit platform. *)
Definition Atoi (s : string) : Z := ParseInt s 64.

(** The decimal digits of a natural number, most significant first. *)
Fixpoint fmt_digits (fuel : nat) (n : Z) : bytes :=
  match fuel with
  | O => []
  | S fuel =>
    if bool_decide (n < 10) then [digit_char n]
    else fmt_digits fuel (n / 10) ++ [digit_char (n mod 10)]
  end.

(** [strconv.FormatUint(n, 10)] of a uint64: at most 20 digits. *)
Definition FormatUint (n : Z) : string := bytes_str (fmt_digits 20 n).

(** ** Round trips *)

Lemma digit_char_val d : 0 ≤ d < 10 → byte_to_Z (digit_char d) = 48 + d.
Proof. intros. unfold digit_char. rewrite byte_to_of_Z. apply Z.mod_small. lia. Qed.

Lemma scan_step_digit maxv n d :
  0 ≤ d < 10 → n * 10 + d ≤ maxv →
  scan_step maxv (ScanNum n) (digit_char d) = ScanNum (n * 10 + d).
Proof.
  intros Hd Hm. unfold scan_step, is_digit, digit_val. rewrite digit_char_val by done.
  rewrite bool_decide_true by lia. rewrite bool_decide_true by lia. f_equal. lia.
Qed.

Lemma fold_scan_fmt maxv fuel n :
  0 ≤ n < 10 ^ Z.of_nat fuel → n ≤ maxv →
  fold_left (scan_step maxv) (fmt_digits fuel n) (ScanNum 0) = ScanNum n.
Proof.
  revert n. induction fuel as [|fuel IH]; intros n Hn Hm; [simpl in *; f_equal; lia|].
  cbn [fmt_digits]. case_bool_decide.
  - cbn [fold_left]. by rewrite scan_step_digit by lia.
  - pose proof (Z.div_mod n 10 ltac:(lia)). pose proof (Z.mod_pos_bound n 10 ltac:(lia)).
    rewrite fold_left_app, IH.
    + cbn [fold_left]. rewrite scan_step_digit by lia. f_equal. lia.
    + rewrite Nat2Z.inj_succ, Z.pow_succ_r in Hn by lia.
      split; [apply Z.div_pos; lia|]. apply Z.div_lt_upper_bound; lia.
    + pose proof (Z.div_pos n 10 ltac:(lia) ltac:(lia)). lia.
Qed.

Lemma fmt_digits_cons fuel n : (0 < fuel)%nat → 0 ≤ n →
  ∃ d l, fmt_digits fuel n = digit_char d :: l ∧ 0 ≤ d < 10.
Proof.
  revert n. induction fuel as [|fuel IH]; intros n Hf Hn; [lia|]. cbn [fmt_digits].
  case_bool_decide; [eauto|]. destruct fuel as [|fuel].
  - pose proof (Z.mod_pos_bound n 10 ltac:(lia)). simpl. eauto.
  - destruct (IH (n / 10)) as (d & l & -> & ?); [lia|apply Z.div_pos; lia|]. simpl. eauto.
Qed.

Lemma scan_fmt maxv n :
  0 ≤ n < 2 ^ 64 → n ≤ maxv → scan_digits maxv (fmt_digits 20 n) = ScanNum n.
Proof.
  intros Hn Hm. pose proof (fold_scan_fmt maxv 20 n) as H.
  destruct (fmt_digits_cons 20 n) as (d & l & E & _); [lia..|].
  unfold scan_digits. rewrite E in *. apply H; [|done]. change (Z.of_nat 20) with 20. lia.
Qed.

(** A uint64 printed in decimal parses back, when it fits the width. *)
Lemma ParseUint_FormatUint n bits :
  0 ≤ n < 2 ^ 64 → n < 2 ^ bits → ParseUint (FormatUint n) bits = n.
Proof.
  intros. unfold ParseUint, FormatUint. rewrite bytes_str_bytes, scan_fmt by lia. done.
Qed.

Lemma split_sign_fmt n : 0 ≤ n → split_sign (fmt_digits 20 n) = (false, fmt_digits 20 n).
Proof.
  intros. destruct (fmt_digits_cons 20 n) as (d & l & -> & ?); [lia..|]. simpl.
  rewrite digit_char_val by done. rewrite !bool_decide_false by lia. done.
Qed.

Lemma ParseInt_FormatUint n bits :
  1 ≤ bits → 0 ≤ n < 2 ^ 64 → n < 2 ^ (bits - 1) → ParseInt (FormatUint n) bits = n.
Proof.
  intros Hb Hn Hlt. unfold ParseInt, FormatUint. rewrite bytes_str_bytes, split_sign_fmt by lia.
  pose proof (pow_half bits ltac:(lia)).
  rewrite scan_fmt by lia. by rewrite bool_decide_false by lia.
Qed.

(** A number too large for the width saturates. *)
Lemma fold_scan_stuck maxv l : fold_left (scan_step maxv) l ScanRange = ScanRange.
Proof. by induction l. Qed.

Lemma ParseUint_range s bits : 0 ≤ bits → 0 ≤ ParseUint s bits < 2 ^ bits.
Proof.
  intros Hb. assert (0 < 2 ^ bits) by (apply Z.pow_pos_nonneg; lia).
  unfold ParseUint, scan_digits.
  assert (∀ l r, (∀ n, r = ScanNum n → 0 ≤ n < 2 ^ bits) →
    ∀ n, fold_left (scan_step (2 ^ bits - 1)) l r = ScanNum n → 0 ≤ n < 2 ^ bits) as Hfold.
  { induction l as [|b l IH]; intros r Hr n; simpl; [apply Hr|]. apply IH. clear n. intros n.
    destruct r as [m| |]; simpl; [|discriminate..]. unfold is_digit, digit_val.
    case_bool_decide; [|discriminate]. case_bool_decide; [|discriminate].
    intros [= <-]. specialize (Hr m eq_refl). lia. }
  destruct (str_bytes s) as [|b l] eqn:E; [lia|].
  destruct (fold_left _ _ _) eqn:E2; [|lia..].
  eapply Hfold; [|done]. intros n' [= <-]. lia.
Qed.

Example strconv_ex :
  (ParseUint "300" 8, ParseUint "12x" 8, ParseInt "-5" 16, ParseInt "4294967295" 32, Atoi "77",
   FormatUint 18446744073709551615) = (255, 0, -5, 2147483647, 77, "18446744073709551615"%string).
Proof. reflexivity. Qed.
