(* ===== verification/IoBuffer.v ===== *)
(** * The growable I/O buffer of pkg/network/buffer/iobuffer.go

    [IoBuffer] keeps a byte slice [buf] and a read offset [off]; what it holds
    is [buf[off:]].  Every method of the Go type is a definition below; the
    loops over an [io.Reader] or [io.Writer] take the reader or writer as a
    parameter.  The theorems show that the buffer behaves as a byte queue
    whatever its capacity management does. *)

From S2P Require Import Prelude.

Definition MinRead : Z := 1024.
Definition MaxRead : Z := 131072.
Definition ResetOffMark : Z := -1.
Definition bootstrap_len : Z := 64.

(** The struct.  [buf_nil] says whether [buf] is the nil slice, which
    [grow] tests.  The [bootstrap] array is used at most once, while [buf] is
    nil, hence while it still holds zeros: it needs no field of its own. *)
Record IoBuffer := mk_iobuf {
  buf : gslice;
  buf_nil : bool;
  off : Z;
  offMark : Z;
}.

(** Errors a reader or a writer returns; [RTimeout] stands for a [net.Error]
    whose [Timeout()] is true. *)
Inductive io_error := EOF | RTimeout | IoOther (code : nat).
#[export] Instance io_error_eq_dec : EqDecision io_error.
Proof. solve_decision. Defined.

Definition makeSlice (n : Z) : gslice := slice_of (zeros n).

Definition set_buf (b : IoBuffer) (s : gslice) : IoBuffer :=
  mk_iobuf s (buf_nil b) (off b) (offMark b).
Definition set_off (b : IoBuffer) (o : Z) : IoBuffer :=
  mk_iobuf (buf b) (buf_nil b) o (offMark b).

(** [copy(dst, src)] on a slice. *)
Definition copy_into (dst : gslice) (src : bytes) : gslice :=
  mk_slice (overwrite (s_data dst) 0 src) (s_extra dst).

(** [b.buf[lo:]], the bytes it shows. *)
Definition buf_from (b : IoBuffer) (lo : Z) : Go bytes :=
  s_data <$> reslice (buf b) lo (s_len (buf b)).

Definition Len (b : IoBuffer) : Z := s_len (buf b) - off b.
Definition Cap (b : IoBuffer) : Z := s_cap (buf b).
Definition available (b : IoBuffer) : Z := s_len (buf b) - off b.
Definition Bytes (b : IoBuffer) : Go bytes := buf_from b (off b).
Definition IoString (b : IoBuffer) : Go string := bytes_str <$> buf_from b (off b).

(** [Bytes()] as the slice it returns: what lies beyond the length of the
    buffer is within the capacity of the result. *)
Definition BytesSlice (b : IoBuffer) : Go gslice := reslice (buf b) (off b) (s_len (buf b)).

Definition Reset (b : IoBuffer) : Go IoBuffer :=
  s ← reslice (buf b) 0 0;
  Ret (mk_iobuf s (buf_nil b) 0 ResetOffMark).

(** [Read(p)] for a [p] of length [plen]: the bytes copied to [p] (their
    number is [n]) and the error. *)
Definition Read (b : IoBuffer) (plen : nat) : Go (IoBuffer * bytes * option io_error) :=
  if bool_decide (s_len (buf b) ≤ off b) then
    b' ← Reset b;
    Ret (b', [], if bool_decide (plen = 0%nat) then None else Some EOF)
  else
    r ← buf_from b (off b);
    let data := take plen r in
    Ret (set_off b (off b + Z.of_nat (length data)), data, None).

Definition tryGrowByReslice (b : IoBuffer) (n : Z) : Go (IoBuffer * Z * bool) :=
  let l := s_len (buf b) in
  if bool_decide (l + n ≤ s_cap (buf b)) then
    s ← reslice (buf b) 0 (l + n);
    Ret (set_buf b s, l, true)
  else Ret (b, 0, false).

Definition grow (b : IoBuffer) (n : Z) : Go (IoBuffer * Z) :=
  let m := Len b in
  b ← (if bool_decide (m = 0) && negb (bool_decide (off b = 0)) then Reset b else Ret b);
  '(b, i, ok) ← tryGrowByReslice b n;
  if (ok : bool) then Ret (b, i)
  else if buf_nil b && bool_decide (n ≤ bootstrap_len) then
    s ← reslice (makeSlice bootstrap_len) 0 n;
    Ret (mk_iobuf s false (off b) (offMark b), 0)
  else
    rest ← buf_from b (off b);
    let s := if bool_decide (m + n ≤ s_cap (buf b) / 2)
             then copy_into (buf b) rest
             else copy_into (makeSlice (2 * s_cap (buf b) + n)) rest in
    let is_nil := buf_nil b && bool_decide (m + n ≤ s_cap (buf b) / 2) in
    s ← reslice s 0 (m + n);
    Ret (mk_iobuf s is_nil 0 (offMark b), m).

(** [Write(p)]: the number of bytes written is the second component. *)
Definition Write (b : IoBuffer) (p : bytes) : Go (IoBuffer * Z) :=
  let n := Z.of_nat (length p) in
  '(b, m, ok) ← tryGrowByReslice b n;
  '(b, m) ← (if (ok : bool) then Ret (b, m) else grow b n);
  if bool_decide (0 ≤ m ≤ s_len (buf b)) then
    let s := buf b in
    let written := Z.min (s_len s - m) n in
    Ret (set_buf b (mk_slice (overwrite (s_data s) (Z.to_nat m) p) (s_extra s)), written)
  else Panic SliceBounds.

(** The step [ReadOnce], [ReadFrom] and [Append] share: make room for [need]
    bytes after the length. *)
Definition make_room (b : IoBuffer) (need : Z) : Go IoBuffer :=
  let free := s_cap (buf b) - s_len (buf b) in
  if bool_decide (free < need) then
    let fresh := bool_decide (off b + free < need) in
    let newBuf := if fresh then makeSlice (2 * s_cap (buf b) + need) else buf b in
    rest ← buf_from b (off b);
    s ← reslice (copy_into newBuf rest) 0 (s_len (buf b) - off b);
    Ret (mk_iobuf s (buf_nil b && negb fresh) 0 (offMark b))
  else Ret b.

Definition reset_if_drained (b : IoBuffer) : Go IoBuffer :=
  if bool_decide (s_len (buf b) ≤ off b) then Reset b else Ret b.

Definition Append (b : IoBuffer) (data : bytes) : Go IoBuffer :=
  b ← reset_if_drained b;
  let dataLen := Z.of_nat (length data) in
  b ← make_room b dataLen;
  let s := buf b in
  dst ← reslice s (s_len s) (s_len s + dataLen);
  let m := Z.min (s_len dst) dataLen in
  let s' := mk_slice (s_data s) (overwrite (s_extra s) 0 data) in
  s' ← reslice s' 0 (s_len s' + m);
  Ret (set_buf b s').

(** [AppendByte] appends a freshly made one-byte slice. *)
Definition AppendByte (b : IoBuffer) (data : byte) : Go IoBuffer :=
  let datas := makeSlice 1 in
  Append b (s_data datas).

Definition Peek (b : IoBuffer) (n : Z) : Go (option bytes) :=
  if bool_decide (s_len (buf b) - off b < n) then Ret None
  else (Some ∘ s_data) <$> reslice (buf b) (off b) (off b + n).

Definition Mark (b : IoBuffer) : IoBuffer :=
  mk_iobuf (buf b) (buf_nil b) (off b) (off b).

Definition Restore (b : IoBuffer) : IoBuffer :=
  if bool_decide (offMark b = ResetOffMark) then b
  else mk_iobuf (buf b) (buf_nil b) (offMark b) ResetOffMark.

Definition Cut (b : IoBuffer) (offset : Z) : Go (IoBuffer * option IoBuffer) :=
  if bool_decide (s_len (buf b) < off b + offset) then Ret (b, None)
  else
    _ ← go_assert (bool_decide (0 ≤ offset)) SliceBounds;
    s ← reslice (buf b) (off b) (off b + offset);
    Ret (mk_iobuf (buf b) (buf_nil b) (off b + offset) ResetOffMark,
         Some (mk_iobuf (slice_of (s_data s)) false 0 0)).

Definition Drain (b : IoBuffer) (offset : Z) : IoBuffer :=
  if bool_decide (s_len (buf b) < off b + offset) then b
  else mk_iobuf (buf b) (buf_nil b) (off b + offset) ResetOffMark.

(** The buffer over a fresh array of [capacity] bytes. *)
Definition fresh_iobuf (capacity : Z) : IoBuffer :=
  mk_iobuf (mk_slice [] (zeros capacity)) false 0 ResetOffMark.

(** [make] panics on a negative capacity. *)
Definition NewIoBuffer (capacity : Z) : Go IoBuffer :=
  _ ← go_assert (bool_decide (0 ≤ capacity)) SliceBounds;
  Ret (fresh_iobuf capacity).
Definition NewIoBufferString (s : string) : IoBuffer :=
  mk_iobuf (slice_of (str_bytes s)) false 0 ResetOffMark.
Definition NewIoBufferBytes (s : gslice) (is_nil : bool) : IoBuffer :=
  mk_iobuf s is_nil 0 ResetOffMark.

(** [Clone] copies the contents to a slice it does not use and returns a new
    buffer of that capacity. *)
Definition Clone (b : IoBuffer) : Go IoBuffer :=
  _ ← go_assert (bool_decide (0 ≤ Len b)) SliceBounds;
  _ ← Bytes b;
  NewIoBuffer (Len b).

(** ** Loops over a reader or a writer

    [rd st n] is what [r.Read(p)] does for a [p] of length [n]: the reader's
    next state, the bytes it stored in [p], and its error. *)

(** The bytes stored beyond the length of [buf], within its capacity. *)
Definition fill (b : IoBuffer) (data : bytes) : IoBuffer :=
  let s := buf b in set_buf b (mk_slice (s_data s) (overwrite (s_extra s) 0 data)).

(** [b.buf = b.buf[0 : len(b.buf)+m]] *)
Definition extend (b : IoBuffer) (m : Z) : Go IoBuffer :=
  s ← reslice (buf b) 0 (s_len (buf b) + m);
  Ret (set_buf b s).

(** In [ReadOnce], a buffer with a short unread part is first slid to the
    front. *)
Definition slide_short (b : IoBuffer) : Go IoBuffer :=
  if bool_decide (0 < off b) && bool_decide (s_len (buf b) - off b < 4 * MinRead) then
    rest ← buf_from b (off b);
    s ← reslice (copy_into (buf b) rest) 0 (s_len (buf b) - off b);
    Ret (mk_iobuf s (buf_nil b) 0 (offMark b))
  else Ret b.

Section reader.
  Context {St : Type} (rd : St → Z → St * bytes * option io_error).

(** The body of the loop of [ReadOnce]; [is_conn] says whether the reader is
    a [net.Conn]: when it is not, [conn] is nil and [SetReadDeadline] panics. *)
Fixpoint readOnce_loop (fuel : nat) (st : St) (b : IoBuffer) (n : Z) (is_conn : bool)
  : Go (St * IoBuffer * Z * option io_error) :=
  match fuel with
  | O => Panic OutOfFuel
  | S fuel =>
    b ← make_room b MinRead;
    let l := s_cap (buf b) - s_len (buf b) in
    _ ← go_assert is_conn NilDeref;
    let '(st, data, e) := rd st l in
    let m := Z.of_nat (length data) in
    let b := fill b data in
    match e with
    | Some RTimeout => Ret (st, b, n, None)
    | Some e => Ret (st, b, n, Some e)
    | None =>
      b ← extend b m;
      let n := n + m in
      let loop := is_conn && bool_decide (l = m) && negb (bool_decide (MaxRead < n)) in
      if loop then readOnce_loop fuel st b n is_conn else Ret (st, b, n, None)
    end
  end.

Definition ReadOnce (fuel : nat) (st : St) (b : IoBuffer) (is_conn : bool)
  : Go (St * IoBuffer * Z * option io_error) :=
  b ← reset_if_drained b;
  b ← slide_short b;
  readOnce_loop fuel st b 0 is_conn.

Fixpoint readFrom_loop (fuel : nat) (st : St) (b : IoBuffer) (n : Z)
  : Go (St * IoBuffer * Z * option io_error) :=
  match fuel with
  | O => Panic OutOfFuel
  | S fuel =>
    b ← make_room b MinRead;
    let '(st, data, e) := rd st (s_cap (buf b) - s_len (buf b)) in
    let m := Z.of_nat (length data) in
    b ← extend (fill b data) m;
    let n := n + m in
    if bool_decide (e = Some EOF) then Ret (st, b, n, None)
    else if bool_decide (m = 0) then Ret (st, b, n, None)
    else match e with
         | Some e => Ret (st, b, n, Some e)
         | None => readFrom_loop fuel st b n
         end
  end.

Definition ReadFrom (fuel : nat) (st : St) (b : IoBuffer)
  : Go (St * IoBuffer * Z * option io_error) :=
  b ← reset_if_drained b;
  readFrom_loop fuel st b 0.
End reader.

(** [wr st p] is what [w.Write(p)] does: the writer's next state, the count
    it reports and its error. *)
Section writer.
  Context {St : Type} (wr : St → bytes → St * Z * option io_error).

Fixpoint writeTo_loop (fuel : nat) (st : St) (b : IoBuffer) (n : Z)
  : Go (St * IoBuffer * Z * option io_error) :=
  match fuel with
  | O => Panic OutOfFuel
  | S fuel =>
    if bool_decide (off b < s_len (buf b)) then
      let nBytes := Len b in
      p ← buf_from b (off b);
      let '(st, m, e) := wr st p in
      _ ← go_assert (bool_decide (m ≤ nBytes)) (UserPanic "io buffer: invalid write count");
      let b := set_off b (off b + m) in
      let n := n + m in
      match e with
      | Some e => Ret (st, b, n, Some e)
      | None =>
        if bool_decide (m = 0) || bool_decide (m = nBytes) then Ret (st, b, n, None)
        else writeTo_loop fuel st b n
      end
    else Ret (st, b, n, None)
  end.

(** [WriteTo]: the unread length bounds the iterations. *)
Definition WriteTo (st : St) (b : IoBuffer) : Go (St * IoBuffer * Z * option io_error) :=
  writeTo_loop (S (Z.to_nat (Len b))) st b 0.
End writer.

(** ** Well-formedness and contents *)

Definition wf (b : IoBuffer) : Prop :=
  0 ≤ off b ≤ s_len (buf b) ∧ (buf_nil b = true → s_cap (buf b) = 0).

(** What the buffer holds. *)
Definition contents (b : IoBuffer) : bytes := drop (Z.to_nat (off b)) (s_data (buf b)).

Lemma length_contents b : wf b → Z.of_nat (length (contents b)) = Len b.
Proof. unfold wf, contents, Len, s_len. intros. rewrite length_drop. lia. Qed.

Lemma wf_split b : wf b →
  s_data (buf b) = take (Z.to_nat (off b)) (s_data (buf b)) ++ contents b.
Proof. intros. unfold contents. by rewrite take_drop. Qed.

Lemma buf_from_ok b : wf b → buf_from b (off b) = Ret (contents b).
Proof.
  intros [? ?]. unfold buf_from.
  destruct (reslice_in (buf b) (off b) (s_len (buf b))) as [ex ->]; [lia..|].
  simpl. unfold s_len at 1. by rewrite sub_full by lia.
Qed.

Lemma Reset_ok b : wf b →
  ∃ b', Reset b = Ret b' ∧ wf b' ∧ contents b' = [] ∧ off b' = 0 ∧ s_cap (buf b') = s_cap (buf b).
Proof.
  intros [Hb Hnil]. unfold Reset.
  destruct (reslice_prefix (buf b) [] (s_all (buf b)) 0) as (j & ex & -> & Hj & Hex).
  - done.
  - unfold s_cap, s_len. simpl. lia.
  - destruct j; [|simpl in *; lia]. eexists; split_and!; [done|..]; try done.
    + split; [done|]. intros Hn. specialize (Hnil Hn). unfold s_cap, s_len in *. simpl in *. lia.
    + unfold s_cap, s_len in *. simpl in *. lia.
Qed.

(** [b'] is [b] with room for [n] more bytes at position [m]. *)
Definition has_room (b b' : IoBuffer) (m n : Z) : Prop :=
  ∃ pre junk, s_data (buf b') = pre ++ contents b ++ junk ∧
    off b' = Z.of_nat (length pre) ∧
    m = Z.of_nat (length pre) + Z.of_nat (length (contents b)) ∧
    Z.of_nat (length junk) = n ∧
    (buf_nil b' = true → s_cap (buf b') = 0).

Lemma tryGrow_ok b n :
  wf b → 0 ≤ n → s_len (buf b) + n ≤ s_cap (buf b) →
  ∃ b', tryGrowByReslice b n = Ret (b', s_len (buf b), true) ∧ has_room b b' (s_len (buf b)) n.
Proof.
  intros Hwf Hn Hfit. unfold tryGrowByReslice. rewrite bool_decide_true by done.
  destruct (reslice_prefix (buf b) (s_data (buf b)) (s_extra (buf b)) (s_len (buf b) + n))
    as (j & ex & -> & Hj & Hex); [done|unfold s_cap, s_len in *; lia|].
  eexists; split; [done|]. exists (take (Z.to_nat (off b)) (s_data (buf b))), j. simpl.
  rewrite app_assoc, <- wf_split by done.
  pose proof (length_contents b Hwf). destruct Hwf as [? Hnil].
  split_and!; [done|unfold Len, s_len in *; len_solve..|].
  intros Hb. specialize (Hnil Hb). unfold s_cap, s_len in *. revert Hj Hex. simpl. len_solve.
Qed.

Lemma tryGrow_no b n :
  ¬ s_len (buf b) + n ≤ s_cap (buf b) → tryGrowByReslice b n = Ret (b, 0, false).
Proof. intros. unfold tryGrowByReslice. by rewrite bool_decide_false. Qed.

Lemma makeSlice_cap n : 0 ≤ n → s_cap (makeSlice n) = n.
Proof. intros. unfold s_cap, s_len. simpl. rewrite length_zeros; lia. Qed.

Lemma copy_into_all dst src :
  (length src ≤ length (s_data dst))%nat →
  s_all (copy_into dst src) =
    src ++ drop (length src) (s_data dst) ++ s_extra dst ∧
  s_cap (copy_into dst src) = s_cap dst.
Proof.
  intros H. unfold s_cap, s_len, s_all, copy_into. simpl.
  rewrite length_overwrite by lia. split; [|done].
  rewrite overwrite_fits by lia. simpl. by rewrite <- app_assoc.
Qed.

(** Sliding or moving the unread bytes to the front of [dst]. *)
Lemma move_front b dst k :
  wf b → (length (contents b) ≤ length (s_data dst))%nat →
  Len b ≤ k ≤ s_cap dst →
  ∃ junk ex, reslice (copy_into dst (contents b)) 0 k = Ret (mk_slice (contents b ++ junk) ex) ∧
    Z.of_nat (length junk) = k - Len b ∧ Z.of_nat (length ex) = s_cap dst - k.
Proof.
  intros Hwf Hle Hk. destruct (copy_into_all dst (contents b) Hle) as [Hall Hcap].
  pose proof (length_contents b Hwf).
  destruct (reslice_prefix _ _ _ k Hall) as (j & ex & E & ? & ?); [lia|].
  exists j, ex. split; [done|]. lia.
Qed.

Lemma contents_le b : (length (contents b) ≤ length (s_data (buf b)))%nat.
Proof. unfold contents. rewrite length_drop. lia. Qed.

Lemma s_len_nonneg s : 0 ≤ s_len s.
Proof. unfold s_len. lia. Qed.

Lemma s_len_cap s : s_len s ≤ s_cap s.
Proof. unfold s_cap. lia. Qed.

#[export] Hint Resolve s_len_nonneg s_len_cap contents_le : mosn.

Lemma len0_contents b : wf b → Len b = 0 → contents b = [].
Proof.
  intros Hwf H0. pose proof (length_contents b Hwf). destruct (contents b); [done|simpl in *; lia].
Qed.

(** The first step of [grow]: an empty buffer is reset. *)
Definition grow_reset (b : IoBuffer) : Go IoBuffer :=
  if bool_decide (Len b = 0) && negb (bool_decide (off b = 0)) then Reset b else Ret b.

Lemma grow_reset_ok b : wf b → ∃ b0, grow_reset b = Ret b0 ∧ wf b0 ∧ contents b0 = contents b.
Proof.
  intros Hwf. unfold grow_reset. destruct (_ && _) eqn:E; [|eauto].
  apply andb_true_iff in E as [?%bool_decide_eq_true _].
  destruct (Reset_ok b Hwf) as (b' & -> & ? & Hc & _). exists b'.
  by rewrite Hc, len0_contents.
Qed.

Lemma has_room_front b s n nl mk :
  (∃ junk ex, s = mk_slice (contents b ++ junk) ex ∧ Z.of_nat (length junk) = n) →
  (nl = true → s_cap s = 0) → wf b →
  has_room b (mk_iobuf s nl 0 mk) (Len b) n.
Proof.
  intros (j & ex & -> & Hj) Hnil Hwf. exists [], j. pose proof (length_contents b Hwf).
  split_and!; simpl; [done|done|lia|done|done].
Qed.

Lemma grow_ok b n :
  wf b → 0 ≤ n → ∃ b' m, grow b n = Ret (b', m) ∧ has_room b b' m n.
Proof.
  intros Hwf Hn. unfold grow. fold (grow_reset b).
  destruct (grow_reset_ok b Hwf) as (b0 & -> & Hwf0 & Hc). rewrite bind_Ret.
  assert (Len b = Len b0) as HL by (rewrite <- !length_contents, Hc by done; done).
  assert (∀ b' m, has_room b0 b' m n → has_room b b' m n) as Hroom
    by (unfold has_room; by rewrite Hc).
  pose proof (length_contents b0 Hwf0) as Hl0. pose proof (s_len_cap (buf b0)).
  destruct (decide (s_len (buf b0) + n ≤ s_cap (buf b0))) as [Hfit|Hfit].
  { destruct (tryGrow_ok b0 n Hwf0 Hn Hfit) as (b' & -> & Hr). rewrite bind_Ret. eauto. }
  rewrite tryGrow_no, bind_Ret, HL by done.
  destruct (buf_nil b0 && bool_decide (n ≤ bootstrap_len)) eqn:Hboot.
  - (* the bootstrap array: the buffer was nil, hence empty *)
    apply andb_true_iff in Hboot as [Hnil ?%bool_decide_eq_true].
    destruct Hwf0 as [Hb0 Hn0]. specialize (Hn0 Hnil).
    assert (contents b0 = []) as Hc0.
    { apply len0_contents; [done|]. unfold Len, wf, s_len, s_cap in *. lia. }
    destruct (reslice_prefix (makeSlice bootstrap_len) [] (s_all (makeSlice bootstrap_len)) n)
      as (j & ex & -> & Hj & Hex); [done|rewrite makeSlice_cap; unfold bootstrap_len in *; simpl; lia|].
    rewrite bind_Ret. eexists _, _; split; [done|]. apply Hroom. exists [], j. rewrite Hc0. simpl.
    split_and!; [done| |done|simpl in *; lia|done]. unfold s_cap in *. lia.
  - rewrite buf_from_ok, bind_Ret by done.
    clear Hboot. case_bool_decide as Hhalf.
    + destruct (move_front b0 (buf b0) (Len b0 + n)) as (j & ex & E & Hj & Hex);
        [done|auto with mosn| |].
      { pose proof (Z.mul_div_le (s_cap (buf b0)) 2 ltac:(lia)). lia. }
      rewrite E, bind_Ret. eexists _, _; split; [done|]. apply Hroom, has_room_front; [| |done].
      * eexists _, _; split; [done|lia].
      * intros [Hnil _]%andb_true_iff. destruct Hwf0 as [? Hn0]. specialize (Hn0 Hnil).
        unfold s_cap, s_len in *. simpl in *. len_solve.
    + set (dst := makeSlice _).
      assert (s_cap dst = 2 * s_cap (buf b0) + n) as Hcd by (apply makeSlice_cap; unfold s_cap, s_len; lia).
      assert (length (s_data dst) = Z.to_nat (s_cap dst)) as Hld.
      { rewrite s_cap_all. unfold s_all, dst, makeSlice, slice_of. simpl. rewrite app_nil_r. lia. }
      destruct Hwf0 as [? Hn0]. unfold Len, s_len in *.
      destruct (move_front b0 dst (Len b0 + n)) as (j & ex & E & Hj & Hex);
        [done|unfold s_cap, s_len in *; lia|unfold Len, s_cap, s_len in *; lia|].
      fold (s_len (buf b0)). fold (Len b0).
      rewrite E, bind_Ret. eexists _, _; split; [done|]. apply Hroom, has_room_front; [| |done].
      * eexists _, _; split; [done|lia].
      * rewrite andb_false_r. done.
Qed.

Lemma has_room_wf b b' m n : has_room b b' m n → 0 ≤ n → wf b'.
Proof.
  intros (pre & j & Hd & Ho & Hm & Hj & Hnil) Hn. split; [|done].
  unfold s_len. rewrite Hd. len_solve.
Qed.

(** Storing [p] in the room made for it appends it. *)
Lemma store_room b b' m p :
  has_room b b' m (Z.of_nat (length p)) →
  0 ≤ m ≤ s_len (buf b') ∧ Z.min (s_len (buf b') - m) (Z.of_nat (length p)) = Z.of_nat (length p) ∧
  let b2 := set_buf b' (mk_slice (overwrite (s_data (buf b')) (Z.to_nat m) p) (s_extra (buf b'))) in
  wf b2 ∧ contents b2 = contents b ++ p.
Proof.
  intros Hr. pose proof (has_room_wf _ _ _ _ Hr ltac:(lia)) as Hwf'.
  destruct Hr as (pre & j & Hd & Ho & Hm & Hj & Hnil).
  assert (s_len (buf b') = m + Z.of_nat (length p)) as HL.
  { unfold s_len. rewrite Hd. len_solve. }
  assert (overwrite (s_data (buf b')) (Z.to_nat m) p = pre ++ contents b ++ p) as How.
  { rewrite overwrite_fits by (unfold s_len in HL; lia). rewrite Hd, (app_assoc pre _ j).
    rewrite take_app_length' by len_solve. rewrite drop_ge by len_solve.
    by rewrite app_nil_r, <- app_assoc. }
  split_and!; [lia..|]. intros b2. split.
  - split; simpl.
    + unfold s_len. simpl. rewrite How, Ho. len_solve.
    + intros Hb. specialize (Hnil Hb). unfold s_cap, s_len in *. simpl. rewrite How, Hd in *.
      autorewrite with lens in *. lia.
  - unfold contents at 1. simpl. rewrite How, Ho, Nat2Z.id. apply drop_app_length.
Qed.

Lemma fresh_iobuf_ok n : wf (fresh_iobuf n) ∧ contents (fresh_iobuf n) = [].
Proof. split; [|done]. split; [|discriminate]. unfold s_len. simpl. lia. Qed.

Lemma Write_ok b p :
  wf b → ∃ b', Write b p = Ret (b', Z.of_nat (length p)) ∧ wf b' ∧ contents b' = contents b ++ p.
Proof.
  intros Hwf. unfold Write.
  set (n := Z.of_nat (length p)).
  assert (∃ b1 m, ('(b, m, ok) ← tryGrowByReslice b n;
            if (ok : bool) then Ret (b, m) else grow b n) = Ret (b1, m) ∧ has_room b b1 m n)
    as (b1 & m & E & Hr).
  { destruct (decide (s_len (buf b) + n ≤ s_cap (buf b))) as [Hf|Hf].
    - destruct (tryGrow_ok b n Hwf ltac:(lia) Hf) as (b' & -> & ?). eauto.
    - rewrite tryGrow_no by done. apply grow_ok; [done|lia]. }
  destruct (store_room b b1 m p Hr) as (H1 & H2 & H3 & H4).
  destruct (tryGrowByReslice b n) as [[[bg mg] ok]|]; [|discriminate E].
  rewrite bind_Ret in E |- *. rewrite E, bind_Ret.
  rewrite bool_decide_true by done. subst n. cbv zeta. rewrite H2. eauto.
Qed.

Lemma make_room_ok b need :
  wf b → 0 ≤ need →
  ∃ b', make_room b need = Ret b' ∧ wf b' ∧ contents b' = contents b ∧
        need ≤ s_cap (buf b') - s_len (buf b').
Proof.
  intros Hwf Hn. unfold make_room. case_bool_decide as Hfree; [|exists b; split_and!; auto; lia].
  rewrite buf_from_ok, bind_Ret by done. fold (Len b). pose proof (length_contents b Hwf) as HLc.
  set (fresh := bool_decide _). set (dst := if fresh then _ else _).
  assert (need ≤ s_cap dst - Len b ∧ (length (contents b) ≤ length (s_data dst))%nat ∧
    (buf_nil b && negb fresh = true → s_cap dst = 0)) as (Hd1 & Hd2 & Hd3).
  { subst dst. subst fresh. destruct Hwf as [? Hnil]. case_bool_decide as Hfr.
    - rewrite makeSlice_cap by (unfold s_cap, s_len; lia). rewrite andb_false_r.
      pose proof (length_zeros (2 * s_cap (buf b) + need) ltac:(unfold s_cap, s_len; lia)).
      unfold makeSlice, slice_of. simpl. unfold Len, s_cap, s_len in *. split_and!; [lia..|done].
    - rewrite andb_true_r. unfold Len in *. split_and!; [lia|auto with mosn|done]. }
  destruct (move_front b dst (Len b)) as (j & ex & -> & Hj & Hex); [done|done|lia|].
  rewrite bind_Ret. destruct j; [|simpl in *; lia]. rewrite app_nil_r.
  eexists; split_and!; [done| |done|].
  - split; [unfold s_len; simpl; lia|]. simpl. intros Hb. specialize (Hd3 Hb).
    unfold s_cap, s_len. simpl. lia.
  - unfold s_cap, s_len. simpl. lia.
Qed.

Lemma reset_if_drained_ok b :
  wf b → ∃ b', reset_if_drained b = Ret b' ∧ wf b' ∧ contents b' = contents b.
Proof.
  intros Hwf. unfold reset_if_drained. case_bool_decide; [|eauto].
  destruct (Reset_ok b Hwf) as (b' & -> & ? & Hc & _). exists b'.
  rewrite Hc, len0_contents; [done..|]. destruct Hwf. unfold Len. lia.
Qed.

(** Bytes stored beyond the length and then brought into view are appended. *)
Lemma extend_fill b data :
  wf b → Z.of_nat (length data) ≤ s_cap (buf b) - s_len (buf b) →
  ∃ b', extend (fill b data) (Z.of_nat (length data)) = Ret b' ∧ wf b' ∧
        contents b' = contents b ++ data.
Proof.
  intros [Hb Hnil] Hle. unfold extend, fill. simpl.
  assert (length data ≤ length (s_extra (buf b)))%nat by (unfold s_cap in *; lia).
  set (s := mk_slice _ _).
  assert (s_all s = (s_data (buf b) ++ data) ++ drop (length data) (s_extra (buf b))) as Hall.
  { unfold s, s_all. simpl. rewrite overwrite_fits by lia. simpl. by rewrite app_assoc. }
  assert (s_cap s = s_cap (buf b)) as Hcap.
  { unfold s, s_cap, s_len. simpl. rewrite length_overwrite by lia. done. }
  destruct (reslice_prefix s _ _ (s_len s + Z.of_nat (length data)) Hall) as (j & ex & -> & Hj & Hex).
  { rewrite Hcap. unfold s_len. simpl. len_solve. unfold s_cap, s_len in *. lia. }
  destruct j; [|revert Hj; unfold s_len; simpl; len_solve].
  rewrite app_nil_r. eexists; split_and!; [done|split|]; simpl.
  - unfold s_len in *. simpl. len_solve.
  - intros Hb'. specialize (Hnil Hb'). unfold s_cap, s_len in *. simpl. autorewrite with lens. simpl in *. lia.
  - unfold contents. simpl. rewrite drop_app_le; [done|]. unfold s_len in *. lia.
Qed.

Lemma Append_ok b data :
  wf b → ∃ b', Append b data = Ret b' ∧ wf b' ∧ contents b' = contents b ++ data.
Proof.
  intros Hwf. unfold Append.
  destruct (reset_if_drained_ok b Hwf) as (b1 & -> & Hw1 & <-). rewrite bind_Ret.
  destruct (make_room_ok b1 (Z.of_nat (length data)) Hw1) as (b2 & -> & Hw2 & <- & Hroom); [lia|].
  rewrite bind_Ret. destruct (extend_fill b2 data Hw2 Hroom) as (b3 & E & ? & ?).
  rewrite reslice_ok, bind_Ret by (destruct Hw2; lia).
  unfold extend, fill in E. simpl in E.
  assert (Z.min (s_len (mk_slice (sub (s_all (buf b2)) (s_len (buf b2))
    (s_len (buf b2) + Z.of_nat (length data))) (drop (Z.to_nat (s_len (buf b2) +
    Z.of_nat (length data))) (s_all (buf b2))))) (Z.of_nat (length data)) = Z.of_nat (length data)) as Hm.
  { unfold s_len at 1. simpl. rewrite length_sub; rewrite <- ?s_cap_all; pose proof (s_len_nonneg (buf b2)); lia. }
  rewrite Hm. unfold set_buf in E |- *. simpl in E.
  destruct (reslice _ _ _); simpl in *; [|discriminate]. injection E as <-. eauto.
Qed.

(** ** The byte queue the buffer implements *)

Inductive buf_op :=
  | OpWrite (p : bytes) | OpAppend (p : bytes) | OpRead (plen : nat) | OpDrain (n : nat)
  | OpCut (n : nat) | OpPeek (n : nat) | OpBytes | OpReset.

Inductive buf_obs :=
  | ObsNone | ObsCount (n : Z) | ObsRead (data : bytes) (e : option io_error)
  | ObsBytes (data : option bytes).

(** The specification: a queue of bytes. *)
Definition queue_step (q : bytes) (op : buf_op) : bytes * buf_obs :=
  match op with
  | OpWrite p => (q ++ p, ObsCount (Z.of_nat (length p)))
  | OpAppend p => (q ++ p, ObsNone)
  | OpRead k =>
    match q with
    | [] => ([], ObsRead [] (if bool_decide (k = 0%nat) then None else Some EOF))
    | _ => (drop k q, ObsRead (take k q) None)
    end
  | OpDrain n => (if bool_decide (length q < n)%nat then q else drop n q, ObsNone)
  | OpCut n =>
    if bool_decide (length q < n)%nat then (q, ObsBytes None)
    else (drop n q, ObsBytes (Some (take n q)))
  | OpPeek n =>
    (q, ObsBytes (if bool_decide (length q < n)%nat then None else Some (take n q)))
  | OpBytes => (q, ObsBytes (Some q))
  | OpReset => ([], ObsNone)
  end.

(** The same operations on the buffer. *)
Definition buf_step (b : IoBuffer) (op : buf_op) : Go (IoBuffer * buf_obs) :=
  match op with
  | OpWrite p => '(b, n) ← Write b p; Ret (b, ObsCount n)
  | OpAppend p => b ← Append b p; Ret (b, ObsNone)
  | OpRead k => '(b, d, e) ← Read b k; Ret (b, ObsRead d e)
  | OpDrain n => Ret (Drain b (Z.of_nat n), ObsNone)
  | OpCut n =>
    '(b, c) ← Cut b (Z.of_nat n);
    match c with
    | None => Ret (b, ObsBytes None)
    | Some c => d ← Bytes c; Ret (b, ObsBytes (Some d))
    end
  | OpPeek n => o ← Peek b (Z.of_nat n); Ret (b, ObsBytes o)
  | OpBytes => d ← Bytes b; Ret (b, ObsBytes (Some d))
  | OpReset => b ← Reset b; Ret (b, ObsNone)
  end.

Fixpoint buf_run (b : IoBuffer) (ops : list buf_op) : Go (IoBuffer * list buf_obs) :=
  match ops with
  | [] => Ret (b, [])
  | op :: ops => '(b, o) ← buf_step b op; '(b, os) ← buf_run b ops; Ret (b, o :: os)
  end.

Fixpoint queue_run (q : bytes) (ops : list buf_op) : bytes * list buf_obs :=
  match ops with
  | [] => (q, [])
  | op :: ops => let '(q, o) := queue_step q op in
                 let '(q, os) := queue_run q ops in (q, o :: os)
  end.

(** Advancing the offset drops bytes from the front. *)
Lemma advance b n mk :
  wf b → (n ≤ length (contents b))%nat →
  let b' := mk_iobuf (buf b) (buf_nil b) (off b + Z.of_nat n) mk in
  wf b' ∧ contents b' = drop n (contents b).
Proof.
  intros Hwf Hn b'. pose proof (length_contents b Hwf). destruct Hwf as [? ?]. unfold Len in *.
  split; [split; simpl; [lia|done]|].
  unfold contents, b'. simpl. rewrite drop_drop. f_equal. lia.
Qed.

Lemma reslice_front b n :
  wf b → (n ≤ length (contents b))%nat →
  s_data <$> reslice (buf b) (off b) (off b + Z.of_nat n) = Ret (take n (contents b)).
Proof.
  intros Hwf Hn. pose proof (length_contents b Hwf). destruct Hwf as [? ?]. unfold Len in *.
  destruct (reslice_in (buf b) (off b) (off b + Z.of_nat n)) as [ex ->]; [lia..|]. simpl.
  unfold sub, contents. do 2 f_equal. lia.
Qed.

(** The tests the code makes on lengths, as tests on the contents. *)
Lemma too_short b n :
  wf b → bool_decide (s_len (buf b) < off b + Z.of_nat n) = bool_decide (length (contents b) < n)%nat ∧
         bool_decide (s_len (buf b) - off b < Z.of_nat n) = bool_decide (length (contents b) < n)%nat.
Proof.
  intros Hwf. pose proof (length_contents b Hwf). unfold Len in *.
  split; apply bool_decide_ext; lia.
Qed.

Lemma Read_refines b k :
  wf b → ∃ b' d e, Read b k = Ret (b', d, e) ∧ wf b' ∧
    queue_step (contents b) (OpRead k) = (contents b', ObsRead d e).
Proof.
  intros Hwf. unfold Read. pose proof (length_contents b Hwf). case_bool_decide as Hle.
  - destruct (Reset_ok b Hwf) as (b' & -> & ? & Hc & _). eexists _, _, _; split_and!; [done..|].
    rewrite len0_contents by (unfold Len; destruct Hwf; lia || done). simpl. by rewrite Hc.
  - rewrite buf_from_ok, bind_Ret by done. simpl.
    destruct (contents b) as [|x q] eqn:Ec; [unfold Len in *; simpl in *; lia|]. rewrite <- Ec in *.
    destruct (advance b (length (take k (contents b))) (offMark b) Hwf) as [? Hc]; [len_solve|].
    eexists _, _, _; split_and!; [done..|]. unfold set_off. rewrite Hc. rewrite Ec at 1. rewrite <- Ec.
    f_equal. rewrite length_take. destruct (Nat.le_ge_cases k (length (contents b))).
    + by rewrite Nat.min_l.
    + by rewrite Nat.min_r, !drop_ge by lia.
Qed.

Lemma Cut_refines b n :
  wf b → ∃ b' o, buf_step b (OpCut n) = Ret (b', o) ∧ wf b' ∧
    queue_step (contents b) (OpCut n) = (contents b', o).
Proof.
  intros Hwf. unfold buf_step, Cut. rewrite (proj1 (too_short b n Hwf)). simpl.
  case_bool_decide as Hs; [eexists _, _; split_and!; [done..|]; done|].
  rewrite bool_decide_true by lia. simpl.
  pose proof (reslice_front b n Hwf ltac:(lia)) as Hr.
  destruct (reslice _ _ _) as [s|]; [|discriminate]. simpl in Hr. injection Hr as Hr. simpl. rewrite Hr.
  destruct (advance b n ResetOffMark Hwf ltac:(lia)) as [? Hc].
  unfold Bytes. rewrite buf_from_ok by (split; [unfold s_len; simpl; lia|done]). simpl.
  eexists _, _; split_and!; [done..|]. by rewrite Hc.
Qed.

Lemma Peek_refines b n :
  wf b → Peek b (Z.of_nat n) =
    Ret (if bool_decide (length (contents b) < n)%nat then None else Some (take n (contents b))).
Proof.
  intros Hwf. unfold Peek. rewrite (proj2 (too_short b n Hwf)). case_bool_decide; [done|].
  pose proof (reslice_front b n Hwf ltac:(lia)) as Hr.
  destruct (reslice _ _ _); simpl in *; congruence.
Qed.

Lemma buf_step_refines b op :
  wf b → ∃ b' o, buf_step b op = Ret (b', o) ∧ wf b' ∧
    queue_step (contents b) op = (contents b', o).
Proof.
  intros Hwf. destruct op as [p|p|k|n|n|n| |]; unfold buf_step.
  - destruct (Write_ok b p Hwf) as (b' & -> & ? & Hc). simpl. rewrite <- Hc. eauto.
  - destruct (Append_ok b p Hwf) as (b' & -> & ? & Hc). simpl. rewrite <- Hc. eauto.
  - destruct (Read_refines b k Hwf) as (b' & d & e & -> & ? & ?). simpl. eauto.
  - unfold Drain. rewrite (proj1 (too_short b n Hwf)). simpl.
    case_bool_decide; [eauto|].
    destruct (advance b n ResetOffMark Hwf ltac:(lia)) as [? Hc].
    eexists _, _; split_and!; [done..|]. by rewrite Hc.
  - by apply Cut_refines.
  - rewrite Peek_refines by done. simpl. eauto.
  - unfold Bytes. rewrite buf_from_ok by done. simpl. eauto.
  - destruct (Reset_ok b Hwf) as (b' & -> & ? & Hc & _). simpl. rewrite <- Hc. eauto.
Qed.

(** C3. The buffer refines a byte queue: any sequence of writes, appends,
    reads, drains, cuts, peeks and resets on a well-formed buffer runs without
    a panic, keeps the buffer well formed, and returns what a plain queue of
    bytes returns, whatever the capacity and the offset are. *)
Theorem iobuffer_refines_queue b ops :
  wf b → ∃ b' os, buf_run b ops = Ret (b', os) ∧ wf b' ∧
    queue_run (contents b) ops = (contents b', os).
Proof.
  revert b. induction ops as [|op ops IH]; intros b Hwf; [eexists _, _; eauto|].
  destruct (buf_step_refines b op Hwf) as (b1 & o & E1 & Hw1 & Q1).
  destruct (IH b1 Hw1) as (b2 & os & E2 & Hw2 & Q2).
  exists b2, (o :: os). simpl. rewrite E1. simpl. rewrite E2, Q1, Q2. done.
Qed.

Lemma iobuffer_refines_queue_witness :
  wf (fresh_iobuf 4) ∧
  ∃ b' os, buf_run (fresh_iobuf 4)
      [OpWrite (str_bytes "hello"); OpRead 2; OpWrite (str_bytes "world!"); OpCut 3; OpBytes] = Ret (b', os) ∧
    wf b' ∧
    queue_run (contents (fresh_iobuf 4))
      [OpWrite (str_bytes "hello"); OpRead 2; OpWrite (str_bytes "world!"); OpCut 3; OpBytes] = (contents b', os).
Proof.
  assert (wf (fresh_iobuf 4)) as Hwf by (split; [vm_compute; split; discriminate|discriminate]).
  split; [exact Hwf|]. exact (iobuffer_refines_queue _ _ Hwf).
Defined.

(** ** Reading from a connection *)

Lemma fill_ok b data : wf b → Z.of_nat (length data) ≤ s_cap (buf b) - s_len (buf b) →
  wf (fill b data) ∧ contents (fill b data) = contents b.
Proof.
  intros [? Hnil] Hle. split; [|done]. split; [done|].
  intros Hb. specialize (Hnil Hb). unfold fill, s_cap, s_len in *. simpl.
  rewrite length_overwrite by lia. lia.
Qed.

Lemma slide_short_ok b : wf b → ∃ b', slide_short b = Ret b' ∧ wf b' ∧ contents b' = contents b.
Proof.
  intros Hwf. unfold slide_short. destruct (_ && _); [|eauto].
  rewrite buf_from_ok, bind_Ret by done. fold (Len b).
  pose proof (length_contents b Hwf). pose proof (s_len_cap (buf b)).
  destruct (move_front b (buf b) (Len b)) as (j & ex & -> & Hj & Hex);
    [done|auto with mosn|destruct Hwf; unfold Len in *; lia|].
  rewrite bind_Ret. destruct j; [|simpl in *; lia]. rewrite app_nil_r.
  eexists; split_and!; [done| |done]. destruct Hwf as [? Hnil].
  split; [unfold s_len; simpl; lia|]. simpl. intros Hb. specialize (Hnil Hb).
  unfold s_cap, s_len in *. simpl in *. lia.
Qed.

Section reader_props.
  Context {St : Type} (rd : St → Z → St * bytes * option io_error).

(** The contract of [io.Reader]: no more bytes than the slice holds. *)
Definition reader_ok : Prop := ∀ st n, 0 ≤ n → Z.of_nat (length (rd st n).1.2) ≤ n.

(** [rd_run st data st']: successive error-free reads from [st] deliver
    [data] and leave the reader in [st']. *)
Inductive rd_run : St → bytes → St → Prop :=
  | rd_done st : rd_run st [] st
  | rd_more st n st1 d data st2 :
      rd st n = (st1, d, None) → rd_run st1 data st2 → rd_run st (d ++ data) st2.

(** [rd_ends st st' e]: [e] is reported in [st'] after nothing more, or after
    one more read that failed. *)
Definition rd_ends (st st' : St) (e : option io_error) : Prop :=
  (st' = st ∧ e = None) ∨
  ∃ n d e', rd st n = (st', d, Some e') ∧ e = (if bool_decide (e' = RTimeout) then None else Some e').

Lemma readOnce_loop_ok : reader_ok → ∀ fuel st b n,
  wf b → 0 ≤ n ≤ MaxRead → MaxRead - n < Z.of_nat fuel * MinRead →
  ∃ st' b' e data st1,
    readOnce_loop rd fuel st b n true = Ret (st', b', n + Z.of_nat (length data), e) ∧
    wf b' ∧ contents b' = contents b ++ data ∧ rd_run st data st1 ∧ rd_ends st1 st' e.
Proof.
  intros Hrd. unfold MaxRead, MinRead. induction fuel as [|fuel IH]; intros st b n Hwf Hn Hf; [lia|].
  cbn [readOnce_loop].
  destruct (make_room_ok b MinRead Hwf) as (b1 & -> & Hw1 & Hc1 & Hroom); [unfold MinRead; lia|].
  rewrite bind_Ret. unfold MinRead in Hroom. simpl go_assert. rewrite bind_Ret.
  pose proof (Hrd st (s_cap (buf b1) - s_len (buf b1)) ltac:(lia)) as Hl.
  destruct (rd st (s_cap (buf b1) - s_len (buf b1))) as [[st1 d] [e|]] eqn:Er; cbn in Hl.
  - destruct (fill_ok b1 d Hw1 Hl) as [Hwf1 Hcf].
    assert (rd_ends st st1 (if bool_decide (e = RTimeout) then None else Some e)) by (right; eauto 10).
    destruct e; exists st1, (fill b1 d); eexists _, [], st; cbn [length]; rewrite Z.add_0_r, app_nil_r, Hcf;
      (split_and!; [done..|constructor|done]).
  - destruct (extend_fill b1 d Hw1 Hl) as (b2 & -> & Hw2 & Hc2). rewrite bind_Ret. rewrite Hc1 in Hc2.
    rewrite andb_true_l. destruct (_ && _) eqn:Hloop.
    + apply andb_true_iff in Hloop as [Hlm%bool_decide_eq_true Hmx].
      apply negb_true_iff, bool_decide_eq_false in Hmx. unfold MaxRead in Hmx.
      destruct (IH st1 b2 (n + Z.of_nat (length d))) as (st' & b' & e & data & st2 & -> & ? & Hc & Hr & He);
        [done|lia|lia|].
      exists st', b', e, (d ++ data), st2. rewrite Hc, Hc2, <- app_assoc, length_app.
      split_and!; try done; [do 3 f_equal; lia|by econstructor].
    + exists st1, b2, None, d, st1. rewrite Hc2. split_and!; try done; [|by left].
      rewrite <- (app_nil_r d) at 1. econstructor; [done|constructor].
Qed.

Lemma ReadOnce_ok st b : reader_ok → wf b →
  ∃ st' b' e data st1,
    ReadOnce rd 129 st b true = Ret (st', b', Z.of_nat (length data), e) ∧
    wf b' ∧ contents b' = contents b ++ data ∧ rd_run st data st1 ∧ rd_ends st1 st' e.
Proof.
  intros Hrd Hwf. unfold ReadOnce.
  destruct (reset_if_drained_ok b Hwf) as (b1 & -> & Hw1 & <-). rewrite bind_Ret.
  destruct (slide_short_ok b1 Hw1) as (b2 & -> & Hw2 & <-). rewrite bind_Ret.
  apply (readOnce_loop_ok Hrd 129 st b2 0 Hw2); [by unfold MaxRead; lia|done].
Qed.

End reader_props.

(** Reading from a connection whose reader keeps to the [io.Reader]
    contract terminates (129 iterations always suffice, because the loop stops
    once more than [MaxRead] bytes came in and every further iteration brings
    at least [MinRead]), does not panic, keeps the buffer well formed, and
    appends to its contents exactly the bytes delivered without an error; the
    count returned is their number, and a timeout is no error. *)
Theorem ReadOnce_correct {St} (rd : St → Z → St * bytes * option io_error) st b :
  reader_ok rd → wf b →
  ∃ st' b' e data st1,
    ReadOnce rd 129 st b true = Ret (st', b', Z.of_nat (length data), e) ∧
    wf b' ∧ contents b' = contents b ++ data ∧ rd_run rd st data st1 ∧ rd_ends rd st1 st' e.
Proof. apply ReadOnce_ok. Qed.

(** A reader over a list of chunks: every read delivers at most the first
    chunk, and end of file comes after the last. *)
Definition chunk_reader (st : list bytes) (n : Z) : list bytes * bytes * option io_error :=
  match st with
  | [] => ([], [], Some EOF)
  | c :: cs =>
    if bool_decide (Z.of_nat (length c) ≤ n) then (cs, c, None)
    else (drop (Z.to_nat n) c :: cs, take (Z.to_nat n) c, None)
  end.

Lemma chunk_reader_ok : reader_ok chunk_reader.
Proof.
  intros [|c cs] n Hn; simpl; [lia|]. case_bool_decide; simpl; [lia|]. rewrite length_take. lia.
Qed.

Lemma ReadOnce_correct_witness :
  reader_ok chunk_reader ∧ wf (fresh_iobuf 0) ∧
  ∃ st' b' e data st1,
    ReadOnce chunk_reader 129 [str_bytes "abc"; str_bytes "de"] (fresh_iobuf 0) true
      = Ret (st', b', Z.of_nat (length data), e) ∧
    wf b' ∧ contents b' = contents (fresh_iobuf 0) ++ data ∧
    rd_run chunk_reader [str_bytes "abc"; str_bytes "de"] data st1 ∧ rd_ends chunk_reader st1 st' e.
Proof.
  assert (wf (fresh_iobuf 0)) as Hwf by (split; [vm_compute; split; discriminate|discriminate]).
  split; [exact chunk_reader_ok|]. split; [exact Hwf|].
  exact (ReadOnce_correct chunk_reader _ _ chunk_reader_ok Hwf).
Defined.

(** ** Reading to the end of a stream *)

Section readFrom_props.
  Context {St : Type} (rd : St → Z → St * bytes * option io_error) (left : St → nat).

(** A finite source: [left] bounds the reads that still bring bytes. *)
Definition finite_source : Prop := ∀ st n st' d,
  rd st n = (st', d, None) → d ≠ [] → (left st' < left st)%nat.

(** How [ReadFrom] reports the read that ends it. *)
Definition readFrom_end (st st' : St) (last : bytes) (e : option io_error) : Prop :=
  ∃ n e', 0 < n ∧ rd st n = (st', last, e') ∧
    ((e' = Some EOF ∧ e = None) ∨ (last = [] ∧ e = None) ∨ (e' ≠ Some EOF ∧ last ≠ [] ∧ e = e' ∧ e ≠ None)).

Lemma readFrom_loop_ok : reader_ok rd → finite_source → ∀ fuel st b n,
  wf b → (left st < fuel)%nat →
  ∃ st' b' e data last st1,
    readFrom_loop rd fuel st b n = Ret (st', b', n + Z.of_nat (length (data ++ last)), e) ∧
    wf b' ∧ contents b' = contents b ++ data ++ last ∧ rd_run rd st data st1 ∧
    readFrom_end st1 st' last e.
Proof.
  intros Hrd Hfin. induction fuel as [|fuel IH]; intros st b n Hwf Hf; [lia|].
  cbn [readFrom_loop].
  destruct (make_room_ok b MinRead Hwf) as (b1 & -> & Hw1 & Hc1 & Hroom); [unfold MinRead; lia|].
  rewrite bind_Ret. unfold MinRead in Hroom. set (l := s_cap (buf b1) - s_len (buf b1)) in *.
  pose proof (Hrd st l ltac:(lia)) as Hl.
  destruct (rd st l) as [[st1 d] e] eqn:Er. cbn in Hl.
  destruct (extend_fill b1 d Hw1 Hl) as (b2 & -> & Hw2 & Hc2). rewrite bind_Ret. rewrite Hc1 in Hc2.
  assert (∀ e0, (e = Some EOF ∧ e0 = None) ∨ (d = [] ∧ e0 = None) ∨ (e ≠ Some EOF ∧ d ≠ [] ∧ e0 = e ∧ e0 ≠ None) →
    ∃ st' b' e1 data last st2, Ret (st1, b2, n + Z.of_nat (length d), e0) =
       Ret (st', b', n + Z.of_nat (length (data ++ last)), e1) ∧
     wf b' ∧ contents b' = contents b ++ data ++ last ∧ rd_run rd st data st2 ∧ readFrom_end st2 st' last e1)
    as Hstop.
  { intros e0 He0. exists st1, b2, e0, [], d, st. split_and!; [done..|constructor|]. exists l, e. split; [lia|]. eauto. }
  case_bool_decide; [apply Hstop; auto|].
  case_bool_decide as Hd0; [apply Hstop; destruct d; [auto|simpl in *; lia]|].
  assert (d ≠ []) as Hd by (intros ->; done).
  destruct e as [e|]; [apply Hstop; right; right; done|].
  specialize (Hfin _ _ _ _ Er Hd).
  destruct (IH st1 b2 (n + Z.of_nat (length d)) Hw2 ltac:(lia))
    as (st' & b' & e & data & last & st2 & -> & ? & Hc & Hr & He).
  exists st', b', e, (d ++ data), last, st2. rewrite Hc, Hc2, <- !app_assoc, (length_app d).
  split_and!; try done; [do 3 f_equal; lia|by econstructor].
Qed.

(** [ReadFrom] drains a finite source: it terminates without a panic,
    appends to the contents all the bytes the reader delivered, those that come
    with the error of the last read included, and returns their number; the
    error it returns is the last read's, except that end of file, and any error
    of a read that brought no bytes, are not reported. *)
Theorem ReadFrom_correct st b :
  reader_ok rd → finite_source → wf b →
  ∃ st' b' e data last st1,
    ReadFrom rd (S (left st)) st b = Ret (st', b', Z.of_nat (length (data ++ last)), e) ∧
    wf b' ∧ contents b' = contents b ++ data ++ last ∧ rd_run rd st data st1 ∧
    readFrom_end st1 st' last e.
Proof.
  intros Hrd Hfin Hwf. unfold ReadFrom.
  destruct (reset_if_drained_ok b Hwf) as (b1 & -> & Hw1 & <-). rewrite bind_Ret.
  apply (readFrom_loop_ok Hrd Hfin (S (left st)) st b1 0 Hw1). lia.
Qed.
End readFrom_props.

Definition chunks_left (st : list bytes) : nat := sum_list_with (λ c, S (length c)) st.

Lemma chunk_reader_finite : finite_source chunk_reader chunks_left.
Proof.
  intros [|c cs] n st' d; simpl; [discriminate|].
  case_bool_decide; intros [= <- <-] Hd; simpl.
  - unfold chunks_left. simpl. lia.
  - unfold chunks_left. simpl. destruct (Z.to_nat n) eqn:E; [done|]. rewrite length_drop.
    destruct c; [simpl in *; lia|simpl; lia].
Qed.

Lemma ReadFrom_correct_witness :
  ∃ st' b' e data last st1,
    ReadFrom chunk_reader (S (chunks_left [str_bytes "abc"; str_bytes "de"]))
      [str_bytes "abc"; str_bytes "de"] (fresh_iobuf 0)
      = Ret (st', b', Z.of_nat (length (data ++ last)), e) ∧
    wf b' ∧ contents b' = contents (fresh_iobuf 0) ++ data ++ last ∧
    rd_run chunk_reader [str_bytes "abc"; str_bytes "de"] data st1 ∧
    readFrom_end chunk_reader st1 st' last e.
Proof.
  apply (ReadFrom_correct chunk_reader chunks_left).
  - exact chunk_reader_ok.
  - exact chunk_reader_finite.
  - split; [vm_compute; split; discriminate|discriminate].
Defined.

(** ** Writing to a connection *)

Section writer_props.
  Context {St : Type} (wr : St → bytes → St * Z * option io_error).

(** The contract of [io.Writer]: the count is between zero and the length. *)
Definition writer_ok : Prop := ∀ st p, 0 ≤ (wr st p).1.2 ≤ Z.of_nat (length p).

(** The bytes of [q] were handed to the writer, all but a remainder, and the
    remainder is empty unless the writer failed or accepted nothing. *)
Inductive wr_run : St → bytes → St → bytes → option io_error → Prop :=
  | wr_empty st : wr_run st [] st [] None
  | wr_fail st q st' m e :
      q ≠ [] → wr st q = (st', m, Some e) → wr_run st q st' (drop (Z.to_nat m) q) (Some e)
  | wr_stuck st q st' : q ≠ [] → wr st q = (st', 0, None) → wr_run st q st' q None
  | wr_all st q st' : q ≠ [] → wr st q = (st', Z.of_nat (length q), None) → wr_run st q st' [] None
  | wr_more st q st1 m st' r e :
      q ≠ [] → wr st q = (st1, m, None) → 0 < m < Z.of_nat (length q) →
      wr_run st1 (drop (Z.to_nat m) q) st' r e → wr_run st q st' r e.

Lemma writeTo_loop_ok : writer_ok → ∀ fuel st b n,
  wf b → (length (contents b) < fuel)%nat →
  ∃ st' b' n' e, writeTo_loop wr fuel st b n = Ret (st', b', n', e) ∧ wf b' ∧
    n' = n + (Len b - Len b') ∧ wr_run st (contents b) st' (contents b') e.
Proof.
  intros Hwr. induction fuel as [|fuel IH]; intros st b n Hwf Hf; [lia|]. cbn [writeTo_loop].
  pose proof (length_contents b Hwf) as HL. case_bool_decide as Hlt.
  2:{ eexists _, _, _, _; split_and!; [done..|lia|].
      rewrite len0_contents by (done || destruct Hwf; unfold Len; lia). constructor. }
  rewrite buf_from_ok, bind_Ret by done. pose proof (Hwr st (contents b)) as Hm.
  destruct (wr st (contents b)) as [[st1 m] e] eqn:Ew. cbn [fst snd] in Hm.
  cbv zeta. rewrite (bool_decide_true (m ≤ Len b)) by lia. unfold go_assert. rewrite bind_Ret. cbv zeta.
  assert (contents b ≠ []) as Hne by (intros E; rewrite E in *; unfold Len in *; simpl in *; lia).
  destruct (advance b (Z.to_nat m) (offMark b) Hwf ltac:(lia)) as [Hw1 Hc1].
  rewrite Z2Nat.id in Hw1, Hc1 by lia. fold (set_off b (off b + m)) in Hw1, Hc1.
  assert (Len (set_off b (off b + m)) = Len b - m) as HL1 by (unfold Len; simpl; lia).
  destruct e as [e|].
  { eexists _, _, _, _; split_and!; [done..|lia|]. rewrite Hc1. econstructor; done. }
  destruct (_ || _) eqn:Hstop.
  - eexists _, _, _, _; split_and!; [done..|lia|]. rewrite Hc1.
    apply orb_true_iff in Hstop as [->%bool_decide_eq_true| ->%bool_decide_eq_true].
    + rewrite drop_0. by constructor.
    + rewrite <- HL, drop_ge by lia. constructor; [done|]. by rewrite HL.
  - apply orb_false_iff in Hstop as [?%bool_decide_eq_false ?%bool_decide_eq_false].
    destruct (IH st1 (set_off b (off b + m)) (n + m) Hw1) as (st' & b' & n' & e & -> & ? & Hn & Hr).
    { rewrite Hc1, length_drop. lia. }
    eexists _, _, _, _; split_and!; [done..|lia|]. rewrite Hc1 in Hr. econstructor; [done..|lia|done].
Qed.
End writer_props.

(** [WriteTo] terminates and never panics on a writer that keeps to the
    [io.Writer] contract: the unread bytes go to the writer in order, what it
    accepted is removed from the buffer, the count returned is the number of
    bytes removed, and without an error bytes stay behind only when the writer
    accepted none. *)
Theorem WriteTo_correct {St} (wr : St → bytes → St * Z * option io_error) st b :
  writer_ok wr → wf b →
  ∃ st' b' n e, WriteTo wr st b = Ret (st', b', n, e) ∧ wf b' ∧
    n = Len b - Len b' ∧ wr_run wr st (contents b) st' (contents b') e.
Proof.
  intros Hwr Hwf. unfold WriteTo. pose proof (length_contents b Hwf).
  destruct (writeTo_loop_ok wr Hwr (S (Z.to_nat (Len b))) st b 0 Hwf) as (st' & b' & n & e & -> & ? & -> & ?);
    [lia|]. by eexists _, _, _, _.
Qed.

(** A writer that accepts at most three bytes at a time. *)
Definition slow_writer (st : bytes) (p : bytes) : bytes * Z * option io_error :=
  (st ++ take 3 p, Z.of_nat (length (take 3 p)), None).

Lemma WriteTo_correct_witness :
  writer_ok slow_writer ∧
  ∃ st' b' n e, WriteTo slow_writer [] (NewIoBufferString "abcdefgh") = Ret (st', b', n, e) ∧ wf b' ∧
    n = Len (NewIoBufferString "abcdefgh") - Len b' ∧
    wr_run slow_writer [] (contents (NewIoBufferString "abcdefgh")) st' (contents b') e.
Proof.
  assert (writer_ok slow_writer) as Hw.
  { intros st p. simpl fst. simpl snd. rewrite length_take. lia. }
  split; [exact Hw|]. apply (WriteTo_correct slow_writer); [exact Hw|].
  split; [vm_compute; split; discriminate|discriminate].
Defined.

(** ** Marking *)

(** Reading after [Mark] and then restoring gives the contents back,
    unless the buffer was already empty. *)
Theorem mark_read_restore b k :
  wf b → contents b ≠ [] →
  ∃ b', Read (Mark b) k = Ret (b', take k (contents b), None) ∧
    contents b' = drop (length (take k (contents b))) (contents b) ∧
    contents (Restore b') = contents b.
Proof.
  intros Hwf Hne. pose proof (length_contents b Hwf) as HL.
  assert (0 < Len b) by (destruct (contents b); [done|simpl in *; lia]).
  unfold Read. rewrite bool_decide_false by (unfold Len in *; simpl; lia).
  change (off (Mark b)) with (off b). unfold buf_from. change (buf (Mark b)) with (buf b).
  fold (buf_from b (off b)). rewrite buf_from_ok by done. rewrite bind_Ret.
  eexists; split_and!; [done| |].
  - destruct (advance b (length (take k (contents b))) (off b) Hwf) as [_ <-]; [len_solve|done].
  - unfold Restore. simpl. rewrite bool_decide_false; [done|]. destruct Hwf. unfold ResetOffMark. lia.
Qed.

Lemma mark_read_restore_witness :
  ∃ b', Read (Mark (NewIoBufferString "abcd")) 3 =
          Ret (b', take 3 (contents (NewIoBufferString "abcd")), None) ∧
    contents b' = drop (length (take 3 (contents (NewIoBufferString "abcd"))))
                       (contents (NewIoBufferString "abcd")) ∧
    contents (Restore b') = contents (NewIoBufferString "abcd").
Proof.
  apply (mark_read_restore (NewIoBufferString "abcd") 3).
  - split; [vm_compute; split; discriminate|discriminate].
  - vm_compute. discriminate.
Defined.

(** A mark does not survive the buffer moving its bytes: after a write
    that slid the unread bytes to the front, [Restore] puts the offset behind
    the length, and [Bytes] panics. *)
Theorem restore_after_slide_panics :
  ∃ b0 b1 d b2, Read b0 7 = Ret (b1, d, None) ∧ wf b1 ∧
    Write (Mark b1) (str_bytes "z") = Ret (b2, 1) ∧ wf b2 ∧
    Bytes (Restore b2) = Panic SliceBounds.
Proof.
  set (b0 := mk_iobuf (slice_of (str_bytes "abcdefgh")) false 0 ResetOffMark).
  destruct (Read b0 7) as [[[b1 d] e]|] eqn:E1; [|discriminate E1].
  destruct (Write (Mark b1) (str_bytes "z")) as [[b2 n]|] eqn:E2;
    vm_compute in E1; injection E1 as <- <- <-; vm_compute in E2; [|discriminate E2].
  injection E2 as <- <-. eexists b0, _, _, _.
  split_and!; [reflexivity|split; [vm_compute; split; discriminate|discriminate]|reflexivity
    |split; [vm_compute; split; discriminate|discriminate]|reflexivity].
Qed.

(** [Clone] returns an empty buffer and [AppendByte] appends a zero byte
    whatever byte it is given. *)
Theorem clone_empty_appendbyte_zero b x :
  wf b →
  (∃ c, Clone b = Ret c ∧ contents c = []) ∧
  (∃ b', AppendByte b x = Ret b' ∧ contents b' = contents b ++ [Init.Byte.x00]).
Proof.
  intros Hwf. split.
  - unfold Clone, Bytes. rewrite bool_decide_true by (destruct Hwf; unfold Len; lia).
    unfold go_assert. rewrite bind_Ret, buf_from_ok by done. rewrite bind_Ret.
    unfold NewIoBuffer. rewrite bool_decide_true by (destruct Hwf; unfold Len; lia).
    eexists; split; [done|done].
  - destruct (Append_ok b (s_data (makeSlice 1)) Hwf) as (b' & E & _ & Hc). exists b'. done.
Qed.

Lemma clone_empty_appendbyte_zero_witness :
  (∃ c, Clone (NewIoBufferString "ab") = Ret c ∧ contents c = []) ∧
  (∃ b', AppendByte (NewIoBufferString "ab") Init.Byte.x41 = Ret b' ∧
         contents b' = contents (NewIoBufferString "ab") ++ [Init.Byte.x00]).
Proof.
  apply clone_empty_appendbyte_zero. split; [vm_compute; split; discriminate|discriminate].
Defined.
