(* ===== verification/Serialize.v ===== *)
(** * The simple serializer of pkg/protocol/serialize/simple.go

    Strings are written as they are; a string map is written as a sequence of
    key and value, each preceded by its length in four big-endian bytes.  A Go
    map is ranged over in an unspecified order: [range_order] is any function
    that lists a map's entries, each once. *)

From S2P Require Import Prelude.

Abbreviation header_map := (gmap string string).

(** The dynamic types [Serialize] distinguishes. *)
Inductive value :=
  | VNil
  | VString (s : string)
  | VMap (m : header_map)
  | VBytes (l : bytes)
  | VOther.

(** The targets [DeSerialize] distinguishes: a [*string], a
    [*map[string]string] ([None] is the nil map), anything else. *)
Inductive target :=
  | TString (s : string)
  | TMap (m : option header_map)
  | TOther.

Definition encodeString (v : string) : bytes := str_bytes v.

Definition enc_field (s : string) : bytes :=
  be_put 4 (to_uint32 (Z.of_nat (length (str_bytes s)))) ++ str_bytes s.

(** The loop of [encodeMap] over the entries in the order they come. *)
Fixpoint encodeMap (entries : list (string * string)) : bytes :=
  match entries with
  | [] => []
  | (key, value) :: rest => (enc_field key ++ enc_field value) ++ encodeMap rest
  end.

(** [binary.Write] of the length as an int32, then of the bytes. *)
Definition encodeBytes (v : bytes) : bytes :=
  be_put 4 (to_uint32 (to_int32 (Z.of_nat (length v)))) ++ v.

Definition readInt32 (b : gslice) : Go (Z + string) :=
  if bool_decide (s_len b < 4) then Ret (inr "no enough bytes"%string)
  else h ← reslice b 0 4; Ret (inl (be_get (s_data h))).

Definition decodeString (b : gslice) : string * Z := (bytes_str (s_data b), s_len b).

(** [( *result)[key] = value]: writing to a nil map panics. *)
Definition map_write (m : option header_map) (key value : string) : Go (option header_map) :=
  match m with
  | Some m => Ret (Some (<[key := value]> m))
  | None => Panic NilMapWrite
  end.

Fixpoint decodeMap_loop (fuel : nat) (b : gslice) (index : Z) (result : option header_map)
  : Go (option header_map * option string) :=
  match fuel with
  | O => Panic OutOfFuel
  | S fuel =>
    if bool_decide (index < s_len b) then
      t ← reslice b index (s_len b);
      r ← readInt32 t;
      match r with
      | inr err => Ret (result, Some err)
      | inl length =>
        let index := index + 4 in
        key ← reslice b index (index + length);
        let index := index + length in
        t ← reslice b index (s_len b);
        r ← readInt32 t;
        match r with
        | inr err => Ret (result, Some err)
        | inl length =>
          let index := index + 4 in
          value ← reslice b index (index + length);
          let index := index + length in
          result ← map_write result (bytes_str (s_data key)) (bytes_str (s_data value));
          decodeMap_loop fuel b index result
        end
      end
    else Ret (result, None)
  end.

(** [decodeMap]: every iteration consumes at least eight bytes, so the length
    of the input bounds them. *)
Definition decodeMap (b : gslice) (result : option header_map)
  : Go (option header_map * option string) :=
  decodeMap_loop (S (length (s_data b))) b 0 result.

(** [DeSerialize]: the target's new value, whether it is also what is
    returned ([None]: nil), and the error.  The target is written through a
    pointer, so an error leaves in it the entries decoded before. *)
Definition DeSerialize (b : gslice) (v : target) : Go (target * bool * option string) :=
  if bool_decide (s_len b = 0) then Ret (v, false, None)
  else match v with
       | TString _ => let '(s, _) := decodeString b in Ret (TString s, true, None)
       | TMap m =>
         '(m', err) ← decodeMap b m;
         match err with
         | Some e => Ret (TMap m', false, Some e)
         | None => Ret (TMap m', true, None)
         end
       | TOther => Ret (v, false, None)
       end.

Section serialize.
  Context (range_order : header_map → list (string * string)).

Definition Serialize (v : value) : bytes :=
  match v with
  | VNil => [Init.Byte.x00]
  | VString s => encodeString s
  | VMap m => encodeMap (range_order m)
  | VBytes l => Init.Byte.x03 :: encodeBytes l
  | VOther => []
  end.

(** The nil slice is the empty list. *)
Definition SerializeMulti (v : list value) : bytes + string :=
  match v with
  | [] => inl []
  | [x] => inl (Serialize x)
  | _ => inr "do not support multi value in simpleSerialization"%string
  end.
End serialize.

(** [v] is [None] for the nil slice.  The result is the returned slice
    ([None]: nil) with its one element ([None]: nil). *)
Definition DeSerializeMulti (b : gslice) (v : option (list target))
  : Go (option (list (option target)) * option string) :=
  let one t :=
    '(t', returned, err) ← DeSerialize b t;
    Ret (Some [if (returned : bool) then Some t' else None], err) in
  match v with
  | Some [] => Ret (None, None)
  | Some [t] => one t
  | Some _ => Ret (None, Some "do not support multi value in simpleSerialization"%string)
  | None => one TOther
  end.

(** A listing of a map's entries, each once, in any order. *)
Definition lists_map (entries : list (string * string)) (m : header_map) : Prop :=
  entries ≡ₚ map_to_list m.

(** Lengths that fit the four-byte length field. *)
Definition entry_fits (e : string * string) : Prop :=
  Z.of_nat (length (str_bytes e.1)) < 2 ^ 32 ∧ Z.of_nat (length (str_bytes e.2)) < 2 ^ 32.
Definition map_fits (m : header_map) : Prop := ∀ k v, m !! k = Some v → entry_fits (k, v).

(** ** Reading what was written *)

Lemma reslice_at b pre mid post lo hi :
  s_data b = pre ++ mid ++ post → lo = Z.of_nat (length pre) → hi = lo + Z.of_nat (length mid) →
  ∃ ex, reslice b lo hi = Ret (mk_slice mid ex).
Proof.
  intros Hd -> ->.
  destruct (reslice_in b (Z.of_nat (length pre)) (Z.of_nat (length pre) + Z.of_nat (length mid)))
    as [ex E]; [lia|unfold s_len; rewrite Hd; len_solve|].
  exists ex. rewrite E, Hd. by rewrite (sub_app_mid pre mid post) by done.
Qed.

Lemma readInt32_ok s n rest :
  s_data s = be_put 4 n ++ rest → 0 ≤ n < 2 ^ 32 → readInt32 s = Ret (inl n).
Proof.
  intros Hd Hn. unfold readInt32. rewrite bool_decide_false.
  2:{ unfold s_len. rewrite Hd. len_solve. }
  destruct (reslice_at s [] (be_put 4 n) rest 0 4) as [ex ->];
    [done|done|rewrite length_be_put; done|].
  simpl. do 2 f_equal. rewrite be_get_put. by apply Z.mod_small.
Qed.

(** The field at [pre] is read whole: the length, then the bytes. *)
Lemma read_field b pre s post :
  s_data b = pre ++ enc_field s ++ post → Z.of_nat (length (str_bytes s)) < 2 ^ 32 →
  ∃ t ex, reslice b (Z.of_nat (length pre)) (s_len b) = Ret t ∧
    readInt32 t = Ret (inl (Z.of_nat (length (str_bytes s)))) ∧
    reslice b (Z.of_nat (length pre) + 4) (Z.of_nat (length pre) + 4 + Z.of_nat (length (str_bytes s)))
      = Ret (mk_slice (str_bytes s) ex).
Proof.
  intros Hd Hlt. unfold enc_field in Hd.
  unfold to_uint32 in Hd. rewrite uwrap_id in Hd by (unfold in_u; lia).
  destruct (reslice_at b pre (enc_field s ++ post) [] (Z.of_nat (length pre)) (s_len b)) as [ex1 E1].
  { rewrite app_nil_r, Hd. unfold enc_field, to_uint32. by rewrite uwrap_id by (unfold in_u; lia). }
  { done. }
  { unfold s_len. rewrite Hd. unfold enc_field. len_solve. }
  destruct (reslice_at b (pre ++ be_put 4 (Z.of_nat (length (str_bytes s)))) (str_bytes s) post
    (Z.of_nat (length pre) + 4) (Z.of_nat (length pre) + 4 + Z.of_nat (length (str_bytes s)))) as [ex2 E2].
  { by rewrite Hd, <- !app_assoc. }
  { len_solve. }
  { done. }
  eexists _, ex2. split_and!; [exact E1| |exact E2].
  eapply readInt32_ok; [|lia]. cbn [s_data]. unfold enc_field, to_uint32.
  rewrite uwrap_id by (unfold in_u; lia). by rewrite <- app_assoc.
Qed.

Lemma length_enc_field s : length (enc_field s) = (4 + length (str_bytes s))%nat.
Proof. unfold enc_field. len_solve. Qed.

Lemma decodeMap_loop_enc b : ∀ entries pre fuel m,
  s_data b = pre ++ encodeMap entries → Forall entry_fits entries →
  (length entries < fuel)%nat →
  decodeMap_loop fuel b (Z.of_nat (length pre)) (Some m) =
    Ret (Some (foldl (λ m e, <[e.1 := e.2]> m) m entries), None).
Proof.
  induction entries as [|[k v] entries IH]; intros pre fuel m Hd Hfit Hf;
    (destruct fuel as [|fuel]; [simpl in Hf; lia|]); cbn [decodeMap_loop].
  - rewrite bool_decide_false; [done|]. unfold s_len. rewrite Hd. simpl. len_solve.
  - apply Forall_cons in Hfit as [[Hk Hv] Hfit]. cbn [fst snd] in *.
    cbn [encodeMap] in Hd. rewrite <- app_assoc in Hd.
    rewrite bool_decide_true.
    2:{ unfold s_len. rewrite Hd. autorewrite with lens. rewrite length_enc_field. lia. }
    destruct (read_field b pre k _ Hd Hk) as (t1 & ex1 & -> & E1 & E2). rewrite bind_Ret, E1, bind_Ret.
    cbv zeta. rewrite E2, bind_Ret.
    rewrite app_assoc in Hd.
    destruct (read_field b (pre ++ enc_field k) v _ Hd Hv) as (t2 & ex2 & E3 & E4 & E5).
    rewrite length_app, length_enc_field in E3, E5.
    replace (Z.of_nat (length pre + (4 + length (str_bytes k))))
      with (Z.of_nat (length pre) + 4 + Z.of_nat (length (str_bytes k))) in * by lia.
    rewrite E3, bind_Ret, E4, bind_Ret, E5, bind_Ret. cbn [map_write s_data]. rewrite bind_Ret.
    rewrite !str_bytes_str.
    replace (_ + _ + _) with (Z.of_nat (length ((pre ++ enc_field k) ++ enc_field v))).
    2:{ autorewrite with lens. rewrite !length_enc_field. lia. }
    rewrite IH; [done| |done|simpl in Hf; lia]. by rewrite Hd, <- !app_assoc.
Qed.

Lemma foldl_insert_lookup entries (m : header_map) :
  NoDup entries.*1 → foldl (λ m e, <[e.1 := e.2]> m) m entries = list_to_map entries ∪ m.
Proof.
  revert m. induction entries as [|[k v] entries IH]; intros m Hnd; simpl.
  - by rewrite left_id_L by apply _.
  - apply NoDup_cons in Hnd as [Hk Hnd]. rewrite IH by done.
    rewrite <- insert_union_l. rewrite <- insert_union_r; [done|].
    by apply not_elem_of_list_to_map_1.
Qed.

Lemma length_encodeMap entries : (length entries ≤ length (encodeMap entries))%nat.
Proof.
  induction entries as [|[k v] entries IH]; simpl; [lia|].
  autorewrite with lens. rewrite length_enc_field. lia.
Qed.

Lemma decode_enc_listing entries m m0 b :
  lists_map entries m → map_fits m → s_data b = encodeMap entries →
  decodeMap b (Some m0) = Ret (Some (m ∪ m0), None).
Proof.
  intros Hl Hfit Hd. unfold decodeMap. change 0 with (Z.of_nat (length (@nil byte))).
  rewrite (decodeMap_loop_enc b entries []); [|done| |].
  - rewrite foldl_insert_lookup.
    + do 4 f_equal. rewrite <- (list_to_map_to_list m). apply list_to_map_proper; [|done].
      rewrite Hl. apply NoDup_fst_map_to_list.
    + rewrite Hl. apply NoDup_fst_map_to_list.
  - rewrite Hl. apply Forall_forall. intros [k v] Hin. apply elem_of_map_to_list in Hin.
    by apply Hfit.
  - rewrite Hd. pose proof (length_encodeMap entries). lia.
Qed.

Lemma reslice_inv b lo hi t :
  reslice b lo hi = Ret t → 0 ≤ lo ≤ hi ∧ hi ≤ s_cap b ∧
    t = mk_slice (sub (s_all b) lo hi) (drop (Z.to_nat hi) (s_all b)).
Proof.
  unfold reslice. destruct (_ && _) eqn:E; [|discriminate].
  apply andb_true_iff in E as [?%bool_decide_eq_true ?%bool_decide_eq_true].
  intros [= <-]. done.
Qed.

Lemma readInt32_inv t n :
  readInt32 t = Ret (inl n) → ∃ rest, s_data t = be_put 4 n ++ rest ∧ 0 ≤ n < 2 ^ 32.
Proof.
  unfold readInt32. case_bool_decide as Hl; [discriminate|].
  destruct (reslice_in t 0 4) as [ex ->]; [lia..|]. rewrite bind_Ret. cbn [s_data].
  intros [= <-]. unfold s_len in Hl. rewrite sub_0. change (Z.to_nat 4) with 4%nat.
  assert (length (take 4 (s_data t)) = 4%nat) as H4 by (rewrite length_take; lia).
  exists (drop 4 (s_data t)). pose proof (be_get_range (take 4 (s_data t))) as Hr.
  pose proof (be_put_get (take 4 (s_data t))) as Hp. rewrite H4 in Hr, Hp. rewrite Hp.
  split; [by rewrite take_drop|exact Hr].
Qed.

Lemma readInt32_no_fuel t : readInt32 t ≠ Panic OutOfFuel.
Proof.
  unfold readInt32. case_bool_decide; [discriminate|].
  apply bind_no_panic; [auto with mosn|discriminate].
Qed.

(** The decoder never runs out of iterations: it terminates on every input. *)
Lemma decodeMap_loop_fuel b : ∀ fuel index m,
  0 ≤ index → Z.max 0 (s_len b - index) < Z.of_nat fuel →
  decodeMap_loop fuel b index m ≠ Panic OutOfFuel.
Proof.
  induction fuel as [|fuel IH]; intros index m H0 Hf; cbn [decodeMap_loop]; [lia|].
  case_bool_decide as Hlt; [|discriminate].
  apply bind_no_panic; [auto with mosn|intros t1 _].
  apply bind_no_panic; [apply readInt32_no_fuel|intros [n1|] E1; [|discriminate]].
  apply readInt32_inv in E1 as (r1 & _ & Hn1).
  apply bind_no_panic; [auto with mosn|intros key _].
  apply bind_no_panic; [auto with mosn|intros t2 _].
  apply bind_no_panic; [apply readInt32_no_fuel|intros [n2|] E2; [|discriminate]].
  apply readInt32_inv in E2 as (r2 & _ & Hn2).
  apply bind_no_panic; [auto with mosn|intros v _].
  apply bind_no_panic; [by destruct m|intros m' _]. apply IH; lia.
Qed.

(** A field that was read is the encoding of the bytes read. *)
Lemma read_field_inv b lo t n key :
  s_extra b = [] → reslice b lo (s_len b) = Ret t → readInt32 t = Ret (inl n) →
  reslice b (lo + 4) (lo + 4 + n) = Ret key →
  lo + 4 + n ≤ s_len b ∧ Z.of_nat (length (s_data key)) = n ∧ 0 ≤ n < 2 ^ 32 ∧
  drop (Z.to_nat lo) (s_data b) =
    enc_field (bytes_str (s_data key)) ++ drop (Z.to_nat (lo + 4 + n)) (s_data b).
Proof.
  intros Hx E1 E2 E3. apply reslice_inv in E1 as (Hlo & _ & ->).
  apply reslice_inv in E3 as (Hb & Hcap & ->). cbn [s_data].
  assert (s_all b = s_data b) as Hall by (unfold s_all; by rewrite Hx, app_nil_r).
  assert (s_cap b = s_len b) as Hc by (rewrite s_cap_all, Hall; done). rewrite Hall in *.
  apply readInt32_inv in E2 as (rest & Hrest & Hn). cbn [s_data] in Hrest. unfold s_len in *.
  rewrite sub_full in Hrest by lia.
  assert (Z.of_nat (length (sub (s_data b) (lo + 4) (lo + 4 + n))) = n) as Hlen
    by (rewrite length_sub; lia).
  split_and!; [lia|done|lia|lia|]. unfold enc_field. rewrite bytes_str_bytes, Hlen.
  unfold to_uint32. rewrite uwrap_id by done. rewrite <- app_assoc, Hrest. f_equal.
  assert (rest = drop (Z.to_nat (lo + 4)) (s_data b)) as ->.
  { replace (Z.to_nat (lo + 4)) with (Z.to_nat lo + 4)%nat by lia. rewrite <- drop_drop, Hrest.
    symmetry. by apply drop_app_length'; rewrite length_be_put. }
  unfold sub. replace (Z.to_nat (lo + 4 + n)) with (Z.to_nat (lo + 4) + Z.to_nat n)%nat by lia.
  rewrite <- drop_drop. replace (lo + 4 + n - (lo + 4)) with n by lia. by rewrite take_drop.
Qed.

Lemma entry_fits_read (k v : bytes) :
  Z.of_nat (length k) < 2 ^ 32 → Z.of_nat (length v) < 2 ^ 32 → entry_fits (bytes_str k, bytes_str v).
Proof. intros. unfold entry_fits. cbn [fst snd]. by rewrite !bytes_str_bytes. Qed.

Lemma decodeMap_loop_inv b : s_extra b = [] → ∀ fuel index m r,
  0 ≤ index ≤ s_len b → decodeMap_loop fuel b index (Some m) = Ret (r, None) →
  ∃ entries, drop (Z.to_nat index) (s_data b) = encodeMap entries ∧ Forall entry_fits entries ∧
    r = Some (foldl (λ m e, <[e.1 := e.2]> m) m entries).
Proof.
  intros Hx. induction fuel as [|fuel IH]; intros index m r Hi; cbn [decodeMap_loop]; [discriminate|].
  case_bool_decide as Hlt.
  2:{ intros [= <-]. exists []. split_and!; [|constructor|done]. apply drop_ge. unfold s_len in *. lia. }
  destruct (reslice b index (s_len b)) as [t1|] eqn:E1; [|discriminate]. rewrite bind_Ret.
  destruct (readInt32 t1) as [[n1|]|] eqn:E2; [|discriminate..]. rewrite bind_Ret. cbv zeta.
  destruct (reslice b (index + 4) _) as [key|] eqn:E3; [|discriminate]. rewrite bind_Ret.
  destruct (reslice b (index + 4 + n1) (s_len b)) as [t2|] eqn:E4; [|discriminate]. rewrite bind_Ret.
  destruct (readInt32 t2) as [[n2|]|] eqn:E5; [|discriminate..]. rewrite bind_Ret.
  destruct (reslice b (index + 4 + n1 + 4) _) as [v|] eqn:E6; [|discriminate]. rewrite bind_Ret.
  cbn [map_write]. rewrite bind_Ret. intros Hrec.
  destruct (read_field_inv b _ _ _ _ Hx E1 E2 E3) as (H1 & Hk & Hn1 & D1).
  destruct (read_field_inv b _ _ _ _ Hx E4 E5 E6) as (H2 & Hv & Hn2 & D2).
  apply IH in Hrec as (entries & De & Hf & ->); [|lia].
  exists ((bytes_str (s_data key), bytes_str (s_data v)) :: entries).
  split_and!; [|constructor; [apply entry_fits_read; lia|done]|done].
  cbn [encodeMap]. by rewrite D1, D2, De, <- app_assoc.
Qed.

(** C34. Round trip of the header map: what [Serialize] writes for a map, in
    whichever order its entries come, [DeSerialize] reads back into the target
    map, its own entries taking precedence over those already there; the slice
    may have any spare capacity.  The lengths must fit their four-byte fields. *)
Theorem serialize_map_roundtrip range_order m m0 ex :
  lists_map (range_order m) m → map_fits m →
  DeSerialize (mk_slice (Serialize range_order (VMap m)) ex) (TMap (Some m0)) =
    Ret (TMap (Some (m ∪ m0)), negb (bool_decide (m = ∅)), None).
Proof.
  intros Hl Hfit. unfold DeSerialize. cbn [Serialize].
  pose proof (length_encodeMap (range_order m)) as HL.
  destruct (decide (m = ∅)) as [->|Hne].
  - assert (range_order ∅ = []) as -> by (apply Permutation_nil_r; rewrite Hl; by rewrite map_to_list_empty).
    rewrite (bool_decide_true (s_len _ = 0)), (bool_decide_true (∅ = ∅)) by done. by rewrite left_id_L by apply _.
  - rewrite bool_decide_false.
    2:{ unfold s_len. cbn [s_data]. rewrite (Permutation_length Hl) in HL.
        rewrite length_map_to_list in HL.
        assert (size m ≠ 0%nat) by (by intros ?%map_size_empty_inv). lia. }
    rewrite (decode_enc_listing (range_order m) m m0) by done. simpl.
    by rewrite bool_decide_false.
Qed.

Lemma serialize_map_roundtrip_witness :
  lists_map (map_to_list ({["service" := "echo"]} : header_map)) {["service" := "echo"]} ∧
  DeSerialize (mk_slice (Serialize map_to_list (VMap {["service" := "echo"]})) [Init.Byte.x07]) (TMap (Some ∅)) =
    Ret (TMap (Some ({["service" := "echo"]} ∪ ∅)), negb (bool_decide (({["service" := "echo"]} : header_map) = ∅)), None).
Proof.
  split; [apply Permutation_refl|].
  apply (serialize_map_roundtrip map_to_list {["service" := "echo"]} ∅ [Init.Byte.x07]);
    [apply Permutation_refl|].
  intros k v. rewrite lookup_singleton_Some. intros [<- <-]. split; done.
Defined.

(** The map decoder accepts exactly what the encoder writes: on a slice
    with no spare capacity it returns without an error if and only if the bytes
    are the encoding of a list of entries whose lengths fit, and then it has
    inserted them in order. *)
Theorem decodeMap_accepts b m0 r :
  s_extra b = [] →
  decodeMap b (Some m0) = Ret (r, None) ↔
  ∃ entries, s_data b = encodeMap entries ∧ Forall entry_fits entries ∧
    r = Some (foldl (λ m e, <[e.1 := e.2]> m) m0 entries).
Proof.
  intros Hx. unfold decodeMap. split.
  - intros H. apply decodeMap_loop_inv in H; [exact H|done|]. unfold s_len. lia.
  - intros (entries & Hd & Hf & ->). apply (decodeMap_loop_enc b entries []); [done..|].
    rewrite Hd. pose proof (length_encodeMap entries). lia.
Qed.

Lemma decodeMap_accepts_witness :
  decodeMap (slice_of (encodeMap [("a", "b")])) (Some ∅) = Ret (Some {["a" := "b"]}, None) ↔
  ∃ entries, s_data (slice_of (encodeMap [("a", "b")])) = encodeMap entries ∧ Forall entry_fits entries ∧
    Some {["a" := "b"]} = Some (foldl (λ m e, <[e.1 := e.2]> m) (∅ : header_map) entries).
Proof. apply decodeMap_accepts. reflexivity. Defined.

(** The map decoder terminates on every input, well formed or not. *)
Theorem decodeMap_terminates b m : decodeMap b m ≠ Panic OutOfFuel.
Proof. apply decodeMap_loop_fuel; [lia|]. unfold s_len. lia. Qed.

(** A length field that exceeds the capacity of the input makes the
    decoder panic instead of returning an error. *)
Theorem decodeMap_overrun_panics n rest m :
  0 ≤ n < 2 ^ 32 → Z.of_nat (length rest) < n →
  decodeMap (slice_of (be_put 4 n ++ rest)) m = Panic SliceBounds.
Proof.
  intros Hn Hr. set (b := slice_of _). unfold decodeMap. cbn [decodeMap_loop].
  assert (s_len b = 4 + Z.of_nat (length rest)) as HL by (unfold b, s_len; simpl; len_solve).
  assert (s_cap b = s_len b) as HC by (unfold s_cap; simpl; lia).
  rewrite bool_decide_true by lia.
  destruct (reslice_at b [] (be_put 4 n ++ rest) [] 0 (s_len b)) as [ex ->];
    [by rewrite app_nil_r|done|unfold s_len, b; simpl; len_solve|].
  rewrite bind_Ret, (readInt32_ok _ n rest) by done. rewrite bind_Ret. cbv zeta.
  by rewrite (reslice_over b (0 + 4) (0 + 4 + n)) by lia.
Qed.

Lemma decodeMap_overrun_panics_witness :
  decodeMap (slice_of (be_put 4 200 ++ str_bytes "abc")) (Some ∅) = Panic SliceBounds.
Proof. apply (decodeMap_overrun_panics 200 (str_bytes "abc") (Some ∅)); vm_compute; [split; [discriminate|]|]; reflexivity. Defined.
