(* ===== verification/BoltTypes.v ===== *)
(** * Commands and header properties of the SofaRPC protocols

    pkg/protocol/sofarpc/types.go and adapter.go: the command structs, the
    constants, the conversion of header properties, and the response a failed
    request is answered with. *)

From S2P Require Import Prelude Strconv IoBuffer Serialize.

Local Open Scope string_scope.
Local Open Scope Z_scope.

(** ** Constants *)

Definition HeaderProtocolCode := "protocol".
Definition HeaderCmdType := "cmdtype".
Definition HeaderCmdCode := "cmdcode".
Definition HeaderVersion := "version".
Definition HeaderReqID := "requestid".
Definition HeaderCodec := "codec".
Definition HeaderTimeout := "timeout".
Definition HeaderClassLen := "classlen".
Definition HeaderHeaderLen := "headerlen".
Definition HeaderContentLen := "contentlen".
Definition HeaderClassName := "classname".
Definition HeaderVersion1 := "ver1".
Definition HeaderSwitchCode := "switchcode".
Definition HeaderRespStatus := "respstatus".
Definition HeaderRespTimeMills := "resptimemills".

Definition InvalidCommandType := "Invalid command type for encoding".
Definition NoProCodeInHeader := "Protocol code not found in header when encoding".
Definition InvalidHeaderType := "Invalid header type, neither map nor command".
Definition UnKnownReqtype := "Unknown request type".
Definition UnKnownCmdcode := "Unknown cmd code".
Definition NoReqIDFound := "No request Id found in header".
Definition UnKnownCmd := "Unknown Command".
(* pkg/types/exception.go *)
Definition UnSupportedProCode := "Protocol Code not supported".
Definition CodecException := "Codec exception occurs".

Definition PROTOCOL_CODE_V1 : Z := 1.
Definition PROTOCOL_CODE_V2 : Z := 2.
Definition REQUEST_HEADER_LEN_V1 : Z := 22.
Definition REQUEST_HEADER_LEN_V2 : Z := 24.
Definition RESPONSE_HEADER_LEN_V1 : Z := 20.
Definition RESPONSE_HEADER_LEN_V2 : Z := 22.
Definition LESS_LEN_V1 : Z := RESPONSE_HEADER_LEN_V1.
Definition LESS_LEN_V2 : Z := RESPONSE_HEADER_LEN_V2.
Definition RESPONSE : Z := 0.
Definition REQUEST : Z := 1.
Definition REQUEST_ONEWAY : Z := 2.
Definition HEARTBEAT : Z := 0.
Definition RPC_REQUEST : Z := 1.
Definition RPC_RESPONSE : Z := 2.
Definition RESPONSE_STATUS_SUCCESS : Z := 0.
Definition RESPONSE_STATUS_UNKNOWN : Z := 3.
Definition RESPONSE_STATUS_TIMEOUT : Z := 7.
Definition RESPONSE_STATUS_CLIENT_SEND_ERROR : Z := 8.
Definition RESPONSE_STATUS_CODEC_EXCEPTION : Z := 9.
Definition RESPONSE_STATUS_SERVER_DESERIAL_EXCEPTION : Z := 18.
Definition HESSIAN_SERIALIZE : Z := 1.

(** ** Commands

    Integer fields are [Z] in the range of their Go type; a byte slice field is
    [None] when it is nil.  [InvokeContext] is never read or written and is
    left out. *)

Record BoltRequestCommand := mk_req {
  rq_Protocol : Z; rq_CmdType : Z; rq_CmdCode : Z; rq_Version : Z; rq_ReqID : Z;
  rq_CodecPro : Z; rq_Timeout : Z; rq_ClassLen : Z; rq_HeaderLen : Z; rq_ContentLen : Z;
  rq_ClassName : option gslice; rq_HeaderMap : option gslice; rq_Content : option gslice;
  rq_RequestHeader : option header_map;
}.

Record BoltResponseCommand := mk_resp {
  rs_Protocol : Z; rs_CmdType : Z; rs_CmdCode : Z; rs_Version : Z; rs_ReqID : Z;
  rs_CodecPro : Z; rs_ResponseStatus : Z; rs_ClassLen : Z; rs_HeaderLen : Z; rs_ContentLen : Z;
  rs_ClassName : option gslice; rs_HeaderMap : option gslice; rs_Content : option gslice;
  rs_ResponseTimeMillis : Z;
  rs_ResponseHeader : option header_map;
}.

Record BoltV2RequestCommand := mk_req2 {
  rq2_base : BoltRequestCommand; rq2_Version1 : Z; rq2_SwitchCode : Z;
}.

Record BoltV2ResponseCommand := mk_resp2 {
  rs2_base : BoltResponseCommand; rs2_Version1 : Z; rs2_SwitchCode : Z;
}.

(** What travels as [interface{}] between codec, handler and stream: a
    pointer to a command, a command struct itself, a header map, nil, or
    something else. *)
Inductive msg :=
  | MReq (c : BoltRequestCommand)
  | MResp (c : BoltResponseCommand)
  | MReq2 (c : BoltV2RequestCommand)
  | MResp2 (c : BoltV2ResponseCommand)
  | MReqStruct (c : BoltRequestCommand)
  | MRespStruct (c : BoltResponseCommand)
  | MMap (m : header_map)
  | MNil
  | MOther.

(** [ProtoBasicCmd]: what the four command pointers implement. *)
Definition GetProtocol (m : msg) : option Z :=
  match m with
  | MReq c => Some (rq_Protocol c) | MResp c => Some (rs_Protocol c)
  | MReq2 c => Some (rq_Protocol (rq2_base c)) | MResp2 c => Some (rs_Protocol (rs2_base c))
  | _ => None
  end.
Definition GetCmdCode (m : msg) : option Z :=
  match m with
  | MReq c => Some (rq_CmdCode c) | MResp c => Some (rs_CmdCode c)
  | MReq2 c => Some (rq_CmdCode (rq2_base c)) | MResp2 c => Some (rs_CmdCode (rs2_base c))
  | _ => None
  end.
Definition GetReqID (m : msg) : option Z :=
  match m with
  | MReq c => Some (rq_ReqID c) | MResp c => Some (rs_ReqID c)
  | MReq2 c => Some (rq_ReqID (rq2_base c)) | MResp2 c => Some (rs_ReqID (rs2_base c))
  | _ => None
  end.

(** The bytes of a slice field; nil has none. *)
Definition field_slice (o : option gslice) : gslice := default (slice_of []) o.
Definition field_bytes (o : option gslice) : bytes := s_data (field_slice o).
Definition field_len (o : option gslice) : Z := s_len (field_slice o).

(** ** Header properties (adapter.go) *)

Inductive kind := KInvalid | KUint8 | KUint16 | KUint32 | KUint64 | KInt8 | KInt16 | KInt | KInt64.

(** The dynamic value a property converts to. *)
Inductive prop_value :=
  | PNil | PByte (z : Z) | PUint16 (z : Z) | PUint32 (z : Z) | PUint64 (z : Z)
  | PInt8 (z : Z) | PInt16 (z : Z) | PInt (z : Z) | PInt64 (z : Z) | PString (s : string).
#[export] Instance prop_value_eq_dec : EqDecision prop_value.
Proof. solve_decision. Defined.

Definition SofaPropertyHeader (name : string) : string := name.

Definition ConvertPropertyValue (strValue : string) (k : kind) : prop_value :=
  match k with
  | KUint8 => PByte (to_uint8 (ParseUint strValue 8))
  | KUint16 => PUint16 (to_uint16 (ParseUint strValue 16))
  | KUint32 => PUint32 (to_uint32 (ParseUint strValue 32))
  | KUint64 => PUint64 (to_uint64 (ParseUint strValue 64))
  | KInt8 => PInt8 (to_int8 (ParseInt strValue 8))
  | KInt16 => PInt16 (to_int16 (ParseInt strValue 16))
  | KInt => PInt (to_int64 (ParseInt strValue 32))
  | KInt64 => PInt64 (to_int64 (ParseInt strValue 64))
  | KInvalid => PString strValue
  end.

(** [GetPropertyValue] deletes the property from the map it is given. *)
Definition GetPropertyValue (properHeaders : gmap string kind) (headers : header_map) (name : string)
  : header_map * prop_value :=
  let propertyHeaderName := SofaPropertyHeader name in
  let k := default KInvalid (properHeaders !! name) in
  match headers !! propertyHeaderName with
  | Some value => (delete propertyHeaderName headers, ConvertPropertyValue value k)
  | None =>
    match headers !! name with
    | Some value => (headers, ConvertPropertyValue value k)
    | None => (headers, PNil)
    end
  end.

(** A missing map entry reads as the empty string. *)
Definition IsSofaRequest (headers : header_map) : bool :=
  let get k := default "" (headers !! SofaPropertyHeader k) in
  let procode := ConvertPropertyValue (get HeaderProtocolCode) KUint8 in
  if bool_decide (procode = PByte PROTOCOL_CODE_V1) || bool_decide (procode = PByte PROTOCOL_CODE_V2) then
    bool_decide (ConvertPropertyValue (get HeaderCmdType) KUint8 = PByte REQUEST)
  else false.

(** [GetBuffer]: the context's slab pool, when there is one, may hand out a
    buffer; otherwise a new one is made.  The pool is no part of the sources. *)
Definition GetBuffer (pool : option (Z → option IoBuffer)) (size : Z) : Go IoBuffer :=
  match (match pool with Some take => take size | None => None end) with
  | Some b => Ret b
  | None => NewIoBuffer size
  end.

(** ** The response to a request that failed *)

Definition byte_prop (headers : header_map) (k : string) : Z :=
  match headers !! SofaPropertyHeader k with Some v => to_uint8 (Atoi v) | None => 0 end.

Definition empty_response (pro cmdtype cmdcode version reqID codec status : Z) : BoltResponseCommand :=
  mk_resp pro cmdtype cmdcode version reqID codec status 0 0 0 None None None 0 None.

(** The message to answer with, and the error. *)
Definition BuildSofaRespMsg (headers : header_map) (respStatus : Z) : msg * option string :=
  let pro := byte_prop headers HeaderProtocolCode in
  match headers !! SofaPropertyHeader HeaderReqID with
  | None => (MMap headers, Some NoReqIDFound)
  | Some r =>
    let reqID := to_uint32 (Atoi r) in
    let version := byte_prop headers HeaderVersion in
    let codec := byte_prop headers HeaderCodec in
    let base := empty_response PROTOCOL_CODE_V1 RESPONSE RPC_RESPONSE version reqID codec respStatus in
    if bool_decide (pro = PROTOCOL_CODE_V1) then (MResp base, None)
    else if bool_decide (pro = PROTOCOL_CODE_V2) then
      let ver1 := byte_prop headers "ver1" in
      let switchCode := byte_prop headers "switchcode" in
      (MResp2 (mk_resp2 base ver1 switchCode), None)
    else (MMap headers, Some UnSupportedProCode)
  end.

(** ** Heartbeats (codec/boltprotocol.go) *)

Definition NewBoltHeartbeat (requestID : Z) : BoltRequestCommand :=
  mk_req PROTOCOL_CODE_V1 REQUEST HEARTBEAT 1 requestID HESSIAN_SERIALIZE (-1) 0 0 0
    None None None None.

Definition NewBoltHeartbeatAck (requestID : Z) : BoltResponseCommand :=
  empty_response PROTOCOL_CODE_V1 RESPONSE HEARTBEAT 1 requestID HESSIAN_SERIALIZE
    RESPONSE_STATUS_SUCCESS.

(** ** Ranges of the fields *)

Definition slice_fits (o : option gslice) : Prop := field_len o < 2 ^ 62.

Record req_ranges (c : BoltRequestCommand) : Prop := {
  rr_Protocol : in_u 8 (rq_Protocol c); rr_CmdType : in_u 8 (rq_CmdType c);
  rr_CmdCode : in_s 16 (rq_CmdCode c); rr_Version : in_u 8 (rq_Version c);
  rr_ReqID : in_u 32 (rq_ReqID c); rr_Codec : in_u 8 (rq_CodecPro c);
  rr_Timeout : in_s 64 (rq_Timeout c); rr_ClassLen : in_s 16 (rq_ClassLen c);
  rr_HeaderLen : in_s 16 (rq_HeaderLen c); rr_ContentLen : in_s 64 (rq_ContentLen c);
}.

Record resp_ranges (c : BoltResponseCommand) : Prop := {
  sr_Protocol : in_u 8 (rs_Protocol c); sr_CmdType : in_u 8 (rs_CmdType c);
  sr_CmdCode : in_s 16 (rs_CmdCode c); sr_Version : in_u 8 (rs_Version c);
  sr_ReqID : in_u 32 (rs_ReqID c); sr_Codec : in_u 8 (rs_CodecPro c);
  sr_Status : in_s 16 (rs_ResponseStatus c); sr_ClassLen : in_s 16 (rs_ClassLen c);
  sr_HeaderLen : in_s 16 (rs_HeaderLen c); sr_ContentLen : in_s 64 (rs_ContentLen c);
}.
