(* ===== verification/BoltCodec.v ===== *)
(** * The Bolt codecs: pkg/protocol/sofarpc/codec

    [boltV1Codec] and [boltV2Codec]: a command to bytes, a header map to a
    command, and bytes to a command.  Encoders write to an [IoBuffer], decoders
    read one and drain what they consumed.  [range_order] is the order in which
    a map is ranged over, [pool] the buffer pool of the context, [now] the
    clock in milliseconds. *)

From S2P Require Import Prelude Strconv IoBuffer Serialize BoltTypes.

Local Open Scope Z_scope.

(** The types of the header properties. *)
Definition BoltV1PropertyHeaders : gmap string kind := list_to_map [
  (HeaderProtocolCode, KUint8); (HeaderCmdType, KUint8); (HeaderCmdCode, KInt16);
  (HeaderVersion, KUint8); (HeaderReqID, KUint32); (HeaderCodec, KUint8);
  (HeaderClassLen, KInt16); (HeaderHeaderLen, KInt16); (HeaderContentLen, KInt);
  (HeaderTimeout, KInt); (HeaderRespStatus, KInt16); (HeaderRespTimeMills, KInt64)].

Definition BoltV2PropertyHeaders : gmap string kind := list_to_map [
  (HeaderProtocolCode, KUint8); (HeaderCmdType, KUint8); (HeaderCmdCode, KInt16);
  (HeaderVersion, KUint8); (HeaderReqID, KUint32); (HeaderCodec, KUint8);
  (HeaderClassLen, KInt16); (HeaderHeaderLen, KInt16); (HeaderContentLen, KInt);
  (HeaderTimeout, KInt); (HeaderRespStatus, KInt16); (HeaderRespTimeMills, KInt64);
  (HeaderVersion1, KUint8); (HeaderSwitchCode, KUint8)].

(** ** Encoding *)

(** The calls [buf.Write(chunk)] in order. *)
Fixpoint write_all (b : IoBuffer) (chunks : list bytes) : Go IoBuffer :=
  match chunks with
  | [] => Ret b
  | c :: cs => '(b, _) ← Write b c; write_all b cs
  end.

Definition opt_chunk (c : bool) (p : bytes) : list bytes := if c then [p] else [].

Section encode.
  Context (pool : option (Z → option IoBuffer)).

Definition v1_doEncodeRequestCommand (cmd : BoltRequestCommand) : Go IoBuffer :=
  let size := 22 + rq_ClassLen cmd + field_len (rq_HeaderMap cmd) in
  buf ← GetBuffer pool size;
  write_all buf (
    [ [byte_of_Z (rq_Protocol cmd)]; [byte_of_Z (rq_CmdType cmd)];
      be_put 2 (to_uint16 (rq_CmdCode cmd)); [byte_of_Z (rq_Version cmd)];
      be_put 4 (to_uint32 (rq_ReqID cmd)); [byte_of_Z (rq_CodecPro cmd)];
      be_put 4 (to_uint32 (rq_Timeout cmd)); be_put 2 (to_uint16 (rq_ClassLen cmd));
      be_put 2 (to_uint16 (field_len (rq_HeaderMap cmd)));
      be_put 4 (to_uint32 (rq_ContentLen cmd)) ] ++
    opt_chunk (bool_decide (0 < rq_ClassLen cmd)) (field_bytes (rq_ClassName cmd)) ++
    opt_chunk (bool_decide (0 < field_len (rq_HeaderMap cmd))) (field_bytes (rq_HeaderMap cmd))).

Definition v1_doEncodeResponseCommand (cmd : BoltResponseCommand) : Go IoBuffer :=
  let size := 20 + rs_ClassLen cmd + field_len (rs_HeaderMap cmd) in
  buf ← GetBuffer pool size;
  write_all buf (
    [ [byte_of_Z (rs_Protocol cmd)]; [byte_of_Z (rs_CmdType cmd)];
      be_put 2 (to_uint16 (rs_CmdCode cmd)); [byte_of_Z (rs_Version cmd)];
      be_put 4 (to_uint32 (rs_ReqID cmd)); [byte_of_Z (rs_CodecPro cmd)];
      be_put 2 (to_uint16 (rs_ResponseStatus cmd)); be_put 2 (to_uint16 (rs_ClassLen cmd));
      be_put 2 (to_uint16 (field_len (rs_HeaderMap cmd)));
      be_put 4 (to_uint32 (rs_ContentLen cmd)) ] ++
    opt_chunk (bool_decide (0 < rs_ClassLen cmd)) (field_bytes (rs_ClassName cmd)) ++
    opt_chunk (bool_decide (0 < field_len (rs_HeaderMap cmd))) (field_bytes (rs_HeaderMap cmd))).

Definition v2_doEncodeRequestCommand (c : BoltV2RequestCommand) : Go IoBuffer :=
  let cmd := rq2_base c in
  let size := 22 + rq_ClassLen cmd + field_len (rq_HeaderMap cmd) in
  buf ← GetBuffer pool size;
  write_all buf (
    [ [byte_of_Z (rq_Protocol cmd)]; [byte_of_Z (rq2_Version1 c)]; [byte_of_Z (rq_CmdType cmd)];
      be_put 2 (to_uint16 (rq_CmdCode cmd)); [byte_of_Z (rq_Version cmd)];
      be_put 4 (to_uint32 (rq_ReqID cmd)); [byte_of_Z (rq_CodecPro cmd)];
      [byte_of_Z (rq2_SwitchCode c)];
      be_put 4 (to_uint32 (rq_Timeout cmd)); be_put 2 (to_uint16 (rq_ClassLen cmd));
      be_put 2 (to_uint16 (field_len (rq_HeaderMap cmd)));
      be_put 4 (to_uint32 (rq_ContentLen cmd)) ] ++
    opt_chunk (bool_decide (0 < rq_ClassLen cmd)) (field_bytes (rq_ClassName cmd)) ++
    opt_chunk (bool_decide (0 < field_len (rq_HeaderMap cmd))) (field_bytes (rq_HeaderMap cmd))).

Definition v2_doEncodeResponseCommand (c : BoltV2ResponseCommand) : Go IoBuffer :=
  let cmd := rs2_base c in
  let size := 20 + rs_ClassLen cmd + field_len (rs_HeaderMap cmd) in
  buf ← GetBuffer pool size;
  write_all buf (
    [ [byte_of_Z (rs_Protocol cmd)]; [byte_of_Z (rs2_Version1 c)]; [byte_of_Z (rs_CmdType cmd)];
      be_put 2 (to_uint16 (rs_CmdCode cmd)); [byte_of_Z (rs_Version cmd)];
      be_put 4 (to_uint32 (rs_ReqID cmd)); [byte_of_Z (rs_CodecPro cmd)];
      [byte_of_Z (rs2_SwitchCode c)];
      be_put 2 (to_uint16 (rs_ResponseStatus cmd)); be_put 2 (to_uint16 (rs_ClassLen cmd));
      be_put 2 (to_uint16 (field_len (rs_HeaderMap cmd)));
      be_put 4 (to_uint32 (rs_ContentLen cmd)) ] ++
    opt_chunk (bool_decide (0 < rs_ClassLen cmd)) (field_bytes (rs_ClassName cmd)) ++
    opt_chunk (bool_decide (0 < field_len (rs_HeaderMap cmd))) (field_bytes (rs_HeaderMap cmd))).

(** [encodeHeaders]: the buffer, or the error. *)
Definition v1_encodeHeaders (headers : msg) : Go (IoBuffer + string) :=
  match headers with
  | MReq c => b ← v1_doEncodeRequestCommand c; Ret (inl b)
  | MResp c => b ← v1_doEncodeResponseCommand c; Ret (inl b)
  | _ => Ret (inr InvalidCommandType)
  end.

Definition v2_encodeHeaders (headers : msg) : Go (IoBuffer + string) :=
  match headers with
  | MReq2 c => b ← v2_doEncodeRequestCommand c; Ret (inl b)
  | MResp2 c => b ← v2_doEncodeResponseCommand c; Ret (inl b)
  | _ => Ret (inr InvalidCommandType)
  end.
End encode.

(** ** From a header map to a command *)

(** Type assertions on a property value. *)
Definition as_byte (v : prop_value) : Go Z :=
  match v with PByte z => Ret z | _ => Panic TypeAssertion end.
Definition as_int16 (v : prop_value) : Go Z :=
  match v with PInt16 z => Ret z | _ => Panic TypeAssertion end.
Definition as_uint32 (v : prop_value) : Go Z :=
  match v with PUint32 z => Ret z | _ => Panic TypeAssertion end.
Definition as_int (v : prop_value) : Go Z :=
  match v with PInt z => Ret z | _ => Panic TypeAssertion end.
Definition as_int64 (v : prop_value) : Go Z :=
  match v with PInt64 z => Ret z | _ => Panic TypeAssertion end.

Definition prop_serialize (v : prop_value) : value :=
  match v with PNil => VNil | PString s => VString s | _ => VOther end.

Section mapToCmd.
  Context (range_order : header_map → list (string * string)).

(** [mapToCmd] of version 1: the map left after the properties were taken out
    of it, which is the map the header bytes are made of, and the command. *)
Definition v1_mapToCmd (headers : header_map) : Go (header_map * msg) :=
  if bool_decide (Z.of_nat (size headers) < 10) then Ret (headers, MNil)
  else
  let get := GetPropertyValue BoltV1PropertyHeaders in
  let '(headers, protocolCode) := get headers HeaderProtocolCode in
  let '(headers, cmdType) := get headers HeaderCmdType in
  let '(headers, cmdCode) := get headers HeaderCmdCode in
  let '(headers, version) := get headers HeaderVersion in
  let '(headers, requestID) := get headers HeaderReqID in
  let '(headers, codec) := get headers HeaderCodec in
  let '(headers, classLength) := get headers HeaderClassLen in
  let '(headers, headerLength) := get headers HeaderHeaderLen in
  let '(headers, contentLength) := get headers HeaderContentLen in
  let '(headers, className) := get headers HeaderClassName in
  let class := Serialize range_order (prop_serialize className) in
  if bool_decide (cmdCode = PInt16 RPC_REQUEST) then
    let '(headers, timeout) := get headers HeaderTimeout in
    let header := Serialize range_order (VMap headers) in
    protocolCode ← as_byte protocolCode; cmdType ← as_byte cmdType; cmdCode ← as_int16 cmdCode;
    version ← as_byte version; requestID ← as_uint32 requestID; codec ← as_byte codec;
    timeout ← as_int timeout; classLength ← as_int16 classLength;
    headerLength ← as_int16 headerLength; contentLength ← as_int contentLength;
    Ret (headers, MReq (mk_req protocolCode cmdType cmdCode version requestID codec timeout
      classLength headerLength contentLength (Some (slice_of class)) (Some (slice_of header)) None None))
  else if bool_decide (cmdCode = PInt16 RPC_RESPONSE) || bool_decide (cmdCode = PInt16 HEARTBEAT) then
    let '(headers, responseStatus) := get headers HeaderRespStatus in
    let '(headers, responseTime) := get headers HeaderRespTimeMills in
    let header := Serialize range_order (VMap headers) in
    protocolCode ← as_byte protocolCode; cmdType ← as_byte cmdType; cmdCode ← as_int16 cmdCode;
    version ← as_byte version; requestID ← as_uint32 requestID; codec ← as_byte codec;
    responseStatus ← as_int16 responseStatus; classLength ← as_int16 classLength;
    headerLength ← as_int16 headerLength; contentLength ← as_int contentLength;
    responseTime ← as_int64 responseTime;
    Ret (headers, MResp (mk_resp protocolCode cmdType cmdCode version requestID codec responseStatus
      classLength headerLength contentLength (Some (slice_of class)) (Some (slice_of header)) None
      responseTime None))
  else Ret (headers, MNil).

(** [mapToCmd] of version 2: the type assertions ask for a command struct,
    not for a pointer to one. *)
Definition v2_mapToCmd (headers : header_map) : Go (header_map * msg) :=
  if bool_decide (Z.of_nat (size headers) < 12) then Ret (headers, MNil)
  else
  '(headers, cmdV1) ← v1_mapToCmd headers;
  let '(headers, ver1) := GetPropertyValue BoltV2PropertyHeaders headers "ver1" in
  let '(headers, switchcode) := GetPropertyValue BoltV2PropertyHeaders headers "switchcode" in
  match cmdV1 with
  | MReqStruct cmdV2req =>
    ver1 ← as_byte ver1; switchcode ← as_byte switchcode;
    Ret (headers, MReq2 (mk_req2 cmdV2req ver1 switchcode))
  | MRespStruct cmdV2res =>
    ver1 ← as_byte ver1; switchcode ← as_byte switchcode;
    Ret (headers, MResp2 (mk_resp2 cmdV2res ver1 switchcode))
  | _ => Ret (headers, MNil)
  end.

Context (pool : option (Z → option IoBuffer)).

Definition v1_EncodeHeaders (headers : msg) : Go (IoBuffer + string) :=
  match headers with
  | MMap m => '(_, cmd) ← v1_mapToCmd m; v1_encodeHeaders pool cmd
  | _ => v1_encodeHeaders pool headers
  end.

Definition v2_EncodeHeaders (headers : msg) : Go (IoBuffer + string) :=
  match headers with
  | MMap m => '(_, cmd) ← v2_mapToCmd m; v2_encodeHeaders pool cmd
  | _ => v2_encodeHeaders pool headers
  end.
End mapToCmd.

(** ** Decoding *)

(** [binary.BigEndian.UintN(bytes[lo:hi])] *)
Definition be_at (b : gslice) (lo hi : Z) : Go Z :=
  s ← reslice b lo hi; Ret (be_get (s_data s)).
Definition byte_at (b : gslice) (i : Z) : Go Z := byte_to_Z <$> s_index b i.

(** [bytes[read : read+n]], when [n] is positive, and the position after. *)
Definition take_part (b : gslice) (read n : Z) : Go (option gslice * Z) :=
  if bool_decide (0 < n) then s ← reslice b read (read + n); Ret (Some s, read + n)
  else Ret (None, read).

Definition decode_error (dataType : Z) : string :=
  ("Decode Error, type = " ++ UnKnownReqtype ++ ", value = " ++ FormatUint dataType)%string.

(** The part after the fixed header: nothing when the frame is incomplete. *)
Definition decode_parts (b : gslice) (read readable classLen headerLen contentLen : Z)
  : Go (option (option gslice * option gslice * option gslice * Z)) :=
  if bool_decide (read + classLen + headerLen + contentLen ≤ readable) then
    '(class, read) ← take_part b read classLen;
    '(header, read) ← take_part b read headerLen;
    '(content, read) ← take_part b read contentLen;
    Ret (Some (class, header, content, read))
  else Ret None.

(** [Decode] of version 1: the buffer after draining, the command ([MNil]
    when more data is needed), the error. *)
Definition v1_Decode (now : Z) (data : IoBuffer) : Go (IoBuffer * msg * option string) :=
  let readableBytes := Len data in
  if bool_decide (LESS_LEN_V1 ≤ readableBytes) then
    b ← BytesSlice data;
    dataType ← byte_at b 1;
    if bool_decide (dataType = REQUEST) || bool_decide (dataType = REQUEST_ONEWAY) then
      if bool_decide (REQUEST_HEADER_LEN_V1 ≤ readableBytes) then
        cmdCode ← be_at b 2 4; ver2 ← byte_at b 4; requestID ← be_at b 5 9; codec ← byte_at b 9;
        timeout ← be_at b 10 14; classLen ← be_at b 14 16; headerLen ← be_at b 16 18;
        contentLen ← be_at b 18 22;
        parts ← decode_parts b REQUEST_HEADER_LEN_V1 readableBytes classLen headerLen contentLen;
        match parts with
        | None => Ret (data, MNil, None)
        | Some (class, header, content, read) =>
          Ret (Drain data read,
            MReq (mk_req PROTOCOL_CODE_V1 dataType (to_int16 cmdCode) ver2 requestID codec
              (to_int64 timeout) (to_int16 classLen) (to_int16 headerLen) (to_int64 contentLen)
              class header content None), None)
        end
      else Ret (data, MNil, None)
    else if bool_decide (dataType = RESPONSE) then
      if bool_decide (RESPONSE_HEADER_LEN_V1 ≤ readableBytes) then
        cmdCode ← be_at b 2 4; ver2 ← byte_at b 4; requestID ← be_at b 5 9; codec ← byte_at b 9;
        status ← be_at b 10 12; classLen ← be_at b 12 14; headerLen ← be_at b 14 16;
        contentLen ← be_at b 16 20;
        parts ← decode_parts b RESPONSE_HEADER_LEN_V1 readableBytes classLen headerLen contentLen;
        match parts with
        | None => Ret (data, MNil, None)
        | Some (class, header, content, read) =>
          Ret (Drain data read,
            MResp (mk_resp PROTOCOL_CODE_V1 dataType (to_int16 cmdCode) ver2 requestID codec
              (to_int16 status) (to_int16 classLen) (to_int16 headerLen) (to_int64 contentLen)
              class header content now None), None)
        end
      else Ret (data, MNil, None)
    else Ret (data, MNil, Some (decode_error dataType))
  else Ret (data, MNil, None).

(** [Decode] of version 2; the response branch does not drain the buffer. *)
Definition v2_Decode (now : Z) (data : IoBuffer) : Go (IoBuffer * msg * option string) :=
  let readableBytes := Len data in
  if bool_decide (LESS_LEN_V2 ≤ readableBytes) then
    b ← BytesSlice data;
    ver1 ← byte_at b 1;
    dataType ← byte_at b 2;
    if bool_decide (dataType = REQUEST) || bool_decide (dataType = REQUEST_ONEWAY) then
      if bool_decide (REQUEST_HEADER_LEN_V2 ≤ readableBytes) then
        cmdCode ← be_at b 3 5; ver2 ← byte_at b 5; requestID ← be_at b 6 10; codec ← byte_at b 10;
        switchCode ← byte_at b 11;
        timeout ← be_at b 12 16; classLen ← be_at b 16 18; headerLen ← be_at b 18 20;
        contentLen ← be_at b 20 24;
        parts ← decode_parts b REQUEST_HEADER_LEN_V2 readableBytes classLen headerLen contentLen;
        match parts with
        | None => Ret (data, MNil, None)
        | Some (class, header, content, read) =>
          Ret (Drain data read,
            MReq2 (mk_req2 (mk_req PROTOCOL_CODE_V1 dataType (to_int16 cmdCode) ver2 requestID codec
              (to_int64 timeout) (to_int16 classLen) (to_int16 headerLen) (to_int64 contentLen)
              class header content None) ver1 switchCode), None)
        end
      else Ret (data, MNil, None)
    else if bool_decide (dataType = RESPONSE) then
      if bool_decide (RESPONSE_HEADER_LEN_V2 ≤ readableBytes) then
        cmdCode ← be_at b 3 5; ver2 ← byte_at b 5; requestID ← be_at b 6 10; codec ← byte_at b 10;
        switchCode ← byte_at b 11;
        status ← be_at b 12 14; classLen ← be_at b 14 16; headerLen ← be_at b 16 18;
        contentLen ← be_at b 18 22;
        parts ← decode_parts b RESPONSE_HEADER_LEN_V2 readableBytes classLen headerLen contentLen;
        match parts with
        | None => Ret (data, MNil, None)
        | Some (class, header, content, read) =>
          Ret (data,
            MResp2 (mk_resp2 (mk_resp PROTOCOL_CODE_V1 dataType (to_int16 cmdCode) ver2 requestID codec
              (to_int16 status) (to_int16 classLen) (to_int16 headerLen) (to_int64 contentLen)
              class header content now None) ver1 switchCode), None)
        end
      else Ret (data, MNil, None)
    else Ret (data, MNil, Some (decode_error dataType))
  else Ret (data, MNil, None).
