(* ===== verification/BoltProps.v ===== *)
(** * Correctness of the Bolt codecs

    What the encoders write, the decoders read back; the decoders never panic,
    consume a frame exactly, and leave an incomplete frame alone. *)

From S2P Require Import Prelude Strconv IoBuffer Serialize BoltTypes BoltCodec.

Local Open Scope Z_scope.

(** ** Fields of a byte string *)

(** The big-endian integer at positions [lo .. hi-1]. *)
Definition fld (q : bytes) (lo hi : Z) : Z := be_get (sub q lo hi).

Lemma fld_skip k z l lo hi :
  Z.of_nat k ≤ lo ≤ hi → fld (be_put k z ++ l) lo hi = fld l (lo - Z.of_nat k) (hi - Z.of_nat k).
Proof.
  intros. unfold fld, sub. rewrite drop_app_ge by (rewrite length_be_put; lia).
  rewrite length_be_put. do 3 f_equal; lia.
Qed.

Lemma fld_hit k z l lo hi :
  lo = 0 → hi = Z.of_nat k → fld (be_put k z ++ l) lo hi = z mod 256 ^ Z.of_nat k.
Proof.
  intros -> ->. unfold fld. rewrite sub_0, Nat2Z.id.
  rewrite take_app_length' by (by rewrite length_be_put). apply be_get_put.
Qed.

Ltac fld_solve := repeat rewrite fld_skip by lia; rewrite fld_hit by lia.

Lemma fld_range q lo hi : 0 ≤ lo ≤ hi → 0 ≤ fld q lo hi < 256 ^ (hi - lo).
Proof.
  intros. unfold fld. pose proof (be_get_range (sub q lo hi)) as Hr.
  assert (Z.of_nat (length (sub q lo hi)) ≤ hi - lo) by (unfold sub; rewrite length_take; lia).
  pose proof (Z.pow_le_mono_r 256 (Z.of_nat (length (sub q lo hi))) (hi - lo)). lia.
Qed.

Lemma be_at_fld q ex lo hi :
  0 ≤ lo ≤ hi → hi ≤ Z.of_nat (length q) → be_at (mk_slice q ex) lo hi = Ret (fld q lo hi).
Proof.
  intros. unfold be_at. destruct (reslice_in (mk_slice q ex) lo hi) as [ex' ->]; [lia|done|].
  done.
Qed.

Lemma byte_at_fld q ex i :
  0 ≤ i < Z.of_nat (length q) → byte_at (mk_slice q ex) i = Ret (fld q i (i + 1)).
Proof.
  intros Hi. unfold byte_at, s_index. cbn [s_data]. rewrite bool_decide_true by lia.
  destruct (lookup_lt_is_Some_2 q (Z.to_nat i)) as [x Hx]; [lia|]. rewrite Hx.
  cbn. f_equal. unfold fld, sub. replace (i + 1 - i) with 1 by lia.
  rewrite (drop_S q x (Z.to_nat i)) by done. simpl. unfold be_get. simpl. lia.
Qed.

Lemma BytesSlice_ok b : wf b → ∃ ex, BytesSlice b = Ret (mk_slice (contents b) ex).
Proof.
  intros [? ?]. unfold BytesSlice.
  destruct (reslice_in (buf b) (off b) (s_len (buf b))) as [ex ->]; [lia..|].
  exists ex. unfold s_len. by rewrite sub_full by lia.
Qed.

(** ** The variable part of a frame *)

Lemma take_part_ok q ex read n :
  0 ≤ read → 0 ≤ n → read + n ≤ Z.of_nat (length q) →
  ∃ o, take_part (mk_slice q ex) read n = Ret (o, read + n) ∧
    field_bytes o = sub q read (read + n) ∧ (o = None ↔ n = 0).
Proof.
  intros Hr Hn Hle. unfold take_part. case_bool_decide.
  - destruct (reslice_in (mk_slice q ex) read (read + n)) as [ex' ->]; [lia|done|].
    eexists; split_and!; [done|done|]. split; [discriminate|lia].
  - assert (n = 0) as -> by lia. rewrite Z.add_0_r. eexists; split_and!; [done| |done].
    unfold sub. by rewrite Z.sub_diag.
Qed.

(** [parts_of q p h cl hl tl (class, header, content)]: the three parts as they
    stand in the frame [q], whose fixed header has [h] bytes. *)
Definition parts_of (q : bytes) (h cl hl tl : Z) (class header content : option gslice) : Prop :=
  field_bytes class = sub q h (h + cl) ∧ (class = None ↔ cl = 0) ∧
  field_bytes header = sub q (h + cl) (h + cl + hl) ∧ (header = None ↔ hl = 0) ∧
  field_bytes content = sub q (h + cl + hl) (h + cl + hl + tl) ∧ (content = None ↔ tl = 0).

Lemma decode_parts_ok q ex h cl hl tl :
  0 ≤ h → 0 ≤ cl → 0 ≤ hl → 0 ≤ tl →
  if bool_decide (h + cl + hl + tl ≤ Z.of_nat (length q)) then
    ∃ class header content,
      decode_parts (mk_slice q ex) h (Z.of_nat (length q)) cl hl tl =
        Ret (Some (class, header, content, h + cl + hl + tl)) ∧
      parts_of q h cl hl tl class header content
  else decode_parts (mk_slice q ex) h (Z.of_nat (length q)) cl hl tl = Ret None.
Proof.
  intros Hh Hcl Hhl Htl. unfold decode_parts. case_bool_decide as Hle; [|done].
  destruct (take_part_ok q ex h cl) as (o1 & -> & ? & ?); [lia..|]. rewrite bind_Ret.
  destruct (take_part_ok q ex (h + cl) hl) as (o2 & -> & ? & ?); [lia..|]. rewrite bind_Ret.
  destruct (take_part_ok q ex (h + cl + hl) tl) as (o3 & -> & ? & ?); [lia..|]. rewrite bind_Ret.
  eexists _, _, _; split; [done|]. done.
Qed.

(** Draining a whole frame. *)
Lemma Drain_ok b n :
  wf b → 0 ≤ n ≤ Len b → wf (Drain b n) ∧ contents (Drain b n) = drop (Z.to_nat n) (contents b).
Proof.
  intros Hwf Hn. pose proof (length_contents b Hwf). unfold Drain.
  rewrite bool_decide_false by (unfold Len in *; lia).
  destruct (advance b (Z.to_nat n) ResetOffMark Hwf) as [? ?]; [lia|].
  rewrite Z2Nat.id in * by lia. done.
Qed.

(** ** What the decoders compute *)

(** Run the read of the next field. *)
Ltac decode_field :=
  match goal with
  | |- context [be_at (mk_slice ?q ?ex) ?lo ?hi ≫= ?f] =>
    rewrite (be_at_fld q ex lo hi) by lia; rewrite (bind_Ret (fld q lo hi) f)
  | |- context [byte_at (mk_slice ?q ?ex) ?i ≫= ?f] =>
    let j := eval compute in (i + 1) in
    replace (byte_at (mk_slice q ex) i) with (Ret (fld q i j)) by (symmetry; apply byte_at_fld; lia);
    rewrite (bind_Ret (fld q i j) f)
  end; cbv beta.

(** The command at the front of [q], of version 1. *)
Definition v1_request (q : bytes) (class header content : option gslice) : msg :=
  MReq (mk_req PROTOCOL_CODE_V1 (fld q 1 2) (to_int16 (fld q 2 4)) (fld q 4 5) (fld q 5 9) (fld q 9 10)
    (to_int64 (fld q 10 14)) (to_int16 (fld q 14 16)) (to_int16 (fld q 16 18)) (to_int64 (fld q 18 22))
    class header content None).
Definition v1_response (now : Z) (q : bytes) (class header content : option gslice) : msg :=
  MResp (mk_resp PROTOCOL_CODE_V1 (fld q 1 2) (to_int16 (fld q 2 4)) (fld q 4 5) (fld q 5 9) (fld q 9 10)
    (to_int16 (fld q 10 12)) (to_int16 (fld q 12 14)) (to_int16 (fld q 14 16)) (to_int64 (fld q 16 20))
    class header content now None).
Definition v2_request (q : bytes) (class header content : option gslice) : msg :=
  MReq2 (mk_req2 (mk_req PROTOCOL_CODE_V1 (fld q 2 3) (to_int16 (fld q 3 5)) (fld q 5 6) (fld q 6 10)
    (fld q 10 11) (to_int64 (fld q 12 16)) (to_int16 (fld q 16 18)) (to_int16 (fld q 18 20))
    (to_int64 (fld q 20 24)) class header content None) (fld q 1 2) (fld q 11 12)).
Definition v2_response (now : Z) (q : bytes) (class header content : option gslice) : msg :=
  MResp2 (mk_resp2 (mk_resp PROTOCOL_CODE_V1 (fld q 2 3) (to_int16 (fld q 3 5)) (fld q 5 6) (fld q 6 10)
    (fld q 10 11) (to_int16 (fld q 12 14)) (to_int16 (fld q 14 16)) (to_int16 (fld q 16 18))
    (to_int64 (fld q 18 22)) class header content now None) (fld q 1 2) (fld q 11 12)).

(** The three ways a decoder returns: the frame is complete and [data']
    remains, more data is needed, or the type byte is unknown. *)
Inductive decoded (data : IoBuffer) (h cl hl tl : Z)
    (mk : option gslice → option gslice → option gslice → msg) (data' : IoBuffer)
    : Go (IoBuffer * msg * option string) → Prop :=
  | dec_frame class header content :
      h + cl + hl + tl ≤ Len data →
      parts_of (contents data) h cl hl tl class header content →
      decoded data h cl hl tl mk data' (Ret (data', mk class header content, None))
  | dec_more :
      Len data < h + cl + hl + tl →
      decoded data h cl hl tl mk data' (Ret (data, MNil, None)).

Lemma decoded_parts data ex h cl hl tl mk data' (k : option _ → Go (IoBuffer * msg * option string)) :
  wf data → 0 ≤ h → 0 ≤ cl → 0 ≤ hl → 0 ≤ tl →
  k None = Ret (data, MNil, None) →
  (∀ class header content, k (Some (class, header, content, h + cl + hl + tl)) =
     Ret (data', mk class header content, None)) →
  decoded data h cl hl tl mk data'
    (decode_parts (mk_slice (contents data) ex) h (Len data) cl hl tl ≫= k).
Proof.
  intros Hwf Hh Hcl Hhl Htl Hn Hs. pose proof (length_contents data Hwf) as HL. rewrite <- HL.
  pose proof (decode_parts_ok (contents data) ex h cl hl tl Hh Hcl Hhl Htl) as Hd.
  case_bool_decide.
  - destruct Hd as (c1 & c2 & c3 & -> & ?). rewrite bind_Ret, Hs. constructor; [lia|done].
  - rewrite Hd, bind_Ret, Hn. constructor. lia.
Qed.

(** The outcome of a decoder on a buffer whose type byte is [ty]. *)
Definition v1_outcome (now : Z) (data : IoBuffer) (r : Go (IoBuffer * msg * option string)) : Prop :=
  let q := contents data in let n := Len data in
  (n < 20 ∧ r = Ret (data, MNil, None)) ∨
  (20 ≤ n ∧ (fld q 1 2 = 1 ∨ fld q 1 2 = 2) ∧
    ((n < 22 ∧ r = Ret (data, MNil, None)) ∨
     22 ≤ n ∧ decoded data 22 (fld q 14 16) (fld q 16 18) (fld q 18 22) (v1_request q)
       (Drain data (22 + fld q 14 16 + fld q 16 18 + fld q 18 22)) r)) ∨
  (20 ≤ n ∧ fld q 1 2 = 0 ∧
    decoded data 20 (fld q 12 14) (fld q 14 16) (fld q 16 20) (v1_response now q)
      (Drain data (20 + fld q 12 14 + fld q 14 16 + fld q 16 20)) r) ∨
  (20 ≤ n ∧ 2 < fld q 1 2 ∧ r = Ret (data, MNil, Some (decode_error (fld q 1 2)))).

Lemma v1_Decode_outcome now data : wf data → v1_outcome now data (v1_Decode now data).
Proof.
  intros Hwf. pose proof (length_contents data Hwf) as HL. unfold v1_outcome, v1_Decode.
  unfold LESS_LEN_V1, RESPONSE_HEADER_LEN_V1, REQUEST_HEADER_LEN_V1, REQUEST, REQUEST_ONEWAY, RESPONSE.
  set (q := contents data) in *.
  case_bool_decide; [right|left; split; [lia|done]].
  destruct (BytesSlice_ok data Hwf) as [ex ->]. rewrite bind_Ret. fold q.
  decode_field.
  pose proof (fld_range q 1 2 ltac:(lia)).
  destruct (bool_decide (fld q 1 2 = 1) || bool_decide (fld q 1 2 = 2)) eqn:Hreq.
  - left. apply orb_true_iff in Hreq. rewrite !bool_decide_eq_true in Hreq. split_and!; [lia|done|].
    case_bool_decide; [right|left; split; [lia|done]]. split; [done|].
    repeat decode_field. apply decoded_parts; try done; apply fld_range; lia.
  - right. apply orb_false_iff in Hreq as [?%bool_decide_eq_false ?%bool_decide_eq_false].
    case_bool_decide; [left|right; split_and!; [lia|lia|done]]. split_and!; [done..|].
    repeat decode_field. apply decoded_parts; try done; apply fld_range; lia.
Qed.

Definition v2_outcome (now : Z) (data : IoBuffer) (r : Go (IoBuffer * msg * option string)) : Prop :=
  let q := contents data in let n := Len data in
  (n < 22 ∧ r = Ret (data, MNil, None)) ∨
  (22 ≤ n ∧ (fld q 2 3 = 1 ∨ fld q 2 3 = 2) ∧
    ((n < 24 ∧ r = Ret (data, MNil, None)) ∨
     24 ≤ n ∧ decoded data 24 (fld q 16 18) (fld q 18 20) (fld q 20 24) (v2_request q)
       (Drain data (24 + fld q 16 18 + fld q 18 20 + fld q 20 24)) r)) ∨
  (22 ≤ n ∧ fld q 2 3 = 0 ∧
    decoded data 22 (fld q 14 16) (fld q 16 18) (fld q 18 22) (v2_response now q) data r) ∨
  (22 ≤ n ∧ 2 < fld q 2 3 ∧ r = Ret (data, MNil, Some (decode_error (fld q 2 3)))).

Lemma v2_Decode_outcome now data : wf data → v2_outcome now data (v2_Decode now data).
Proof.
  intros Hwf. pose proof (length_contents data Hwf) as HL. unfold v2_outcome, v2_Decode.
  unfold LESS_LEN_V2, RESPONSE_HEADER_LEN_V2, REQUEST_HEADER_LEN_V2, REQUEST, REQUEST_ONEWAY, RESPONSE.
  set (q := contents data) in *.
  case_bool_decide; [right|left; split; [lia|done]].
  destruct (BytesSlice_ok data Hwf) as [ex ->]. rewrite bind_Ret. fold q.
  do 2 decode_field.
  pose proof (fld_range q 2 3 ltac:(lia)).
  destruct (bool_decide (fld q 2 3 = 1) || bool_decide (fld q 2 3 = 2)) eqn:Hreq.
  - left. apply orb_true_iff in Hreq. rewrite !bool_decide_eq_true in Hreq. split_and!; [lia|done|].
    case_bool_decide; [right|left; split; [lia|done]]. split; [done|].
    repeat decode_field. apply decoded_parts; try done; apply fld_range; lia.
  - right. apply orb_false_iff in Hreq as [?%bool_decide_eq_false ?%bool_decide_eq_false].
    case_bool_decide; [left|right; split_and!; [lia|lia|done]]. split_and!; [done..|].
    repeat decode_field. apply decoded_parts; try done; apply fld_range; lia.
Qed.

(** ** What the encoders write *)

(** The pool of the context hands out empty buffers. *)
Definition pool_ok (pool : option (Z → option IoBuffer)) : Prop :=
  ∀ take n b, pool = Some take → take n = Some b → wf b ∧ contents b = [].

Lemma pool_ok_none : pool_ok None.
Proof. intros ???; discriminate. Qed.
#[export] Hint Resolve pool_ok_none : mosn.

Lemma GetBuffer_ok pool size :
  pool_ok pool → 0 ≤ size → ∃ b, GetBuffer pool size = Ret b ∧ wf b ∧ contents b = [].
Proof.
  intros Hp Hs. unfold GetBuffer. destruct pool as [tk|].
  - destruct (tk size) as [b|] eqn:E.
    + destruct (Hp tk size b eq_refl E). eauto.
    + unfold NewIoBuffer. rewrite bool_decide_true by done. destruct (fresh_iobuf_ok size). eauto.
  - unfold NewIoBuffer. rewrite bool_decide_true by done. destruct (fresh_iobuf_ok size). eauto.
Qed.

Lemma write_all_ok chunks b :
  wf b → ∃ b', write_all b chunks = Ret b' ∧ wf b' ∧ contents b' = contents b ++ concat chunks.
Proof.
  revert b. induction chunks as [|c cs IH]; intros b Hwf; cbn [write_all concat].
  - exists b. by rewrite app_nil_r.
  - destruct (Write_ok b c Hwf) as (b1 & -> & Hw & Hc). rewrite bind_Ret.
    destruct (IH b1 Hw) as (b2 & -> & ? & Hc2). exists b2. by rewrite Hc2, Hc, <- app_assoc.
Qed.

Lemma encode_ok pool size chunks l :
  pool_ok pool → 0 ≤ size → concat chunks = l →
  ∃ b, (buf ← GetBuffer pool size; write_all buf chunks) = Ret b ∧ wf b ∧ contents b = l.
Proof.
  intros Hp Hs <-. destruct (GetBuffer_ok pool size Hp Hs) as (b0 & -> & Hw & Hc). rewrite bind_Ret.
  destruct (write_all_ok chunks b0 Hw) as (b & -> & ? & Hb). exists b. by rewrite Hb, Hc.
Qed.

(** A part is written when it is not empty; either way these are its bytes. *)
Lemma concat_opt_chunk (c : bool) p : (c = false → p = []) → concat (opt_chunk c p) = p.
Proof. destruct c; intros H; [apply app_nil_r|]. by rewrite H. Qed.

Lemma opt_chunk_len n p : n = Z.of_nat (length p) → concat (opt_chunk (bool_decide (0 < n)) p) = p.
Proof.
  intros ->. apply concat_opt_chunk. rewrite bool_decide_eq_false. destruct p; [done|simpl; lia].
Qed.

(** The fixed headers, field by field. *)
Definition v1_req_header (c : BoltRequestCommand) : bytes :=
  be_put 1 (rq_Protocol c) ++ be_put 1 (rq_CmdType c) ++ be_put 2 (to_uint16 (rq_CmdCode c)) ++
  be_put 1 (rq_Version c) ++ be_put 4 (to_uint32 (rq_ReqID c)) ++ be_put 1 (rq_CodecPro c) ++
  be_put 4 (to_uint32 (rq_Timeout c)) ++ be_put 2 (to_uint16 (rq_ClassLen c)) ++
  be_put 2 (to_uint16 (field_len (rq_HeaderMap c))) ++ be_put 4 (to_uint32 (rq_ContentLen c)) ++ [].
Definition v1_resp_header (c : BoltResponseCommand) : bytes :=
  be_put 1 (rs_Protocol c) ++ be_put 1 (rs_CmdType c) ++ be_put 2 (to_uint16 (rs_CmdCode c)) ++
  be_put 1 (rs_Version c) ++ be_put 4 (to_uint32 (rs_ReqID c)) ++ be_put 1 (rs_CodecPro c) ++
  be_put 2 (to_uint16 (rs_ResponseStatus c)) ++ be_put 2 (to_uint16 (rs_ClassLen c)) ++
  be_put 2 (to_uint16 (field_len (rs_HeaderMap c))) ++ be_put 4 (to_uint32 (rs_ContentLen c)) ++ [].
Definition v2_req_header (c2 : BoltV2RequestCommand) : bytes :=
  let c := rq2_base c2 in
  be_put 1 (rq_Protocol c) ++ be_put 1 (rq2_Version1 c2) ++ be_put 1 (rq_CmdType c) ++
  be_put 2 (to_uint16 (rq_CmdCode c)) ++ be_put 1 (rq_Version c) ++ be_put 4 (to_uint32 (rq_ReqID c)) ++
  be_put 1 (rq_CodecPro c) ++ be_put 1 (rq2_SwitchCode c2) ++
  be_put 4 (to_uint32 (rq_Timeout c)) ++ be_put 2 (to_uint16 (rq_ClassLen c)) ++
  be_put 2 (to_uint16 (field_len (rq_HeaderMap c))) ++ be_put 4 (to_uint32 (rq_ContentLen c)) ++ [].

(** A request as a peer sends it: its lengths are those of its parts. *)
Record sendable_req (c : BoltRequestCommand) : Prop := {
  sq_ranges : req_ranges c;
  sq_type : rq_CmdType c = REQUEST ∨ rq_CmdType c = REQUEST_ONEWAY;
  sq_timeout : 0 ≤ rq_Timeout c < 2 ^ 32;
  sq_class : rq_ClassLen c = field_len (rq_ClassName c);
  sq_header : field_len (rq_HeaderMap c) < 2 ^ 16;
  sq_headerlen : rq_HeaderLen c = to_int16 (field_len (rq_HeaderMap c));
  sq_content : rq_ContentLen c = field_len (rq_Content c);
  sq_content_fits : field_len (rq_Content c) < 2 ^ 32;
}.

Record sendable_resp (c : BoltResponseCommand) : Prop := {
  sp_ranges : resp_ranges c;
  sp_type : rs_CmdType c = RESPONSE;
  sp_class : rs_ClassLen c = field_len (rs_ClassName c);
  sp_header : field_len (rs_HeaderMap c) < 2 ^ 16;
  sp_headerlen : rs_HeaderLen c = to_int16 (field_len (rs_HeaderMap c));
  sp_content : rs_ContentLen c = field_len (rs_Content c);
  sp_content_fits : field_len (rs_Content c) < 2 ^ 32;
}.

Lemma field_len_nonneg o : 0 ≤ field_len o.
Proof. unfold field_len, s_len. lia. Qed.

Lemma v1_encode_req_ok pool c :
  pool_ok pool → sendable_req c →
  ∃ b, v1_doEncodeRequestCommand pool c = Ret b ∧ wf b ∧
    contents b = v1_req_header c ++ field_bytes (rq_ClassName c) ++ field_bytes (rq_HeaderMap c).
Proof.
  intros Hp Hc. pose proof (sq_class c Hc) as Hcl.
  pose proof (field_len_nonneg (rq_ClassName c)). pose proof (field_len_nonneg (rq_HeaderMap c)).
  apply encode_ok; [done|lia|]. rewrite !concat_app.
  by rewrite !opt_chunk_len by (unfold field_len, s_len in *; done).
Qed.

Lemma v1_encode_resp_ok pool c :
  pool_ok pool → sendable_resp c →
  ∃ b, v1_doEncodeResponseCommand pool c = Ret b ∧ wf b ∧
    contents b = v1_resp_header c ++ field_bytes (rs_ClassName c) ++ field_bytes (rs_HeaderMap c).
Proof.
  intros Hp Hc. pose proof (sp_class c Hc) as Hcl.
  pose proof (field_len_nonneg (rs_ClassName c)). pose proof (field_len_nonneg (rs_HeaderMap c)).
  apply encode_ok; [done|lia|]. rewrite !concat_app.
  by rewrite !opt_chunk_len by (unfold field_len, s_len in *; done).
Qed.

Lemma v2_encode_req_ok pool c :
  pool_ok pool → sendable_req (rq2_base c) →
  ∃ b, v2_doEncodeRequestCommand pool c = Ret b ∧ wf b ∧
    contents b = v2_req_header c ++ field_bytes (rq_ClassName (rq2_base c)) ++
                 field_bytes (rq_HeaderMap (rq2_base c)).
Proof.
  intros Hp Hc. pose proof (sq_class _ Hc) as Hcl.
  pose proof (field_len_nonneg (rq_ClassName (rq2_base c))).
  pose proof (field_len_nonneg (rq_HeaderMap (rq2_base c))).
  apply encode_ok; [done|lia|]. rewrite !concat_app.
  by rewrite !opt_chunk_len by (unfold field_len, s_len in *; done).
Qed.

(** ** Round trips *)

Lemma u_field (k : nat) z : in_u (8 * Z.of_nat k) z → z mod 256 ^ Z.of_nat k = z.
Proof.
  unfold in_u. intros Hz. replace (256 ^ Z.of_nat k) with (2 ^ (8 * Z.of_nat k)); [by apply Z.mod_small|].
  rewrite Z.pow_mul_r by lia. done.
Qed.

Lemma s16_field z : in_s 16 z → to_int16 (to_uint16 z mod 256 ^ Z.of_nat 2) = z.
Proof.
  intros. rewrite u_field by (apply uwrap_range; lia). by apply swrap_uwrap; [lia|].
Qed.

Lemma u32_field z : in_u 32 z → to_uint32 z mod 256 ^ Z.of_nat 4 = z.
Proof.
  intros. unfold to_uint32. rewrite uwrap_id by done. by apply u_field.
Qed.

Lemma u16_field z : in_u 16 z → to_uint16 z mod 256 ^ Z.of_nat 2 = z.
Proof. intros. unfold to_uint16. rewrite uwrap_id by done. by apply u_field. Qed.

Lemma i64_id z : 0 ≤ z < 2 ^ 32 → to_int64 z = z.
Proof. intros. apply swrap_id; [lia|]. unfold in_s. lia. Qed.

(** The parts of a frame put together from them. *)
Lemma parts_frame hdr class header content rest h cl hl tl c1 c2 c3 :
  parts_of (hdr ++ class ++ header ++ content ++ rest) h cl hl tl c1 c2 c3 →
  h = Z.of_nat (length hdr) → cl = Z.of_nat (length class) → hl = Z.of_nat (length header) →
  tl = Z.of_nat (length content) →
  field_bytes c1 = class ∧ field_bytes c2 = header ∧ field_bytes c3 = content.
Proof.
  intros (-> & _ & -> & _ & -> & _) -> -> -> ->. split_and!.
  - by apply sub_app_mid.
  - rewrite (app_assoc hdr). apply sub_app_mid; len_solve.
  - rewrite (app_assoc hdr), (app_assoc (hdr ++ class)). apply sub_app_mid; len_solve.
Qed.

(** Rebuild a command with the parts as decoded. *)
Definition with_parts (c : BoltRequestCommand) (c1 c2 c3 : option gslice) : BoltRequestCommand :=
  mk_req PROTOCOL_CODE_V1 (rq_CmdType c) (rq_CmdCode c) (rq_Version c) (rq_ReqID c) (rq_CodecPro c)
    (rq_Timeout c) (rq_ClassLen c) (rq_HeaderLen c) (rq_ContentLen c) c1 c2 c3 None.
Definition with_resp_parts (now : Z) (c : BoltResponseCommand) (c1 c2 c3 : option gslice) : BoltResponseCommand :=
  mk_resp PROTOCOL_CODE_V1 (rs_CmdType c) (rs_CmdCode c) (rs_Version c) (rs_ReqID c) (rs_CodecPro c)
    (rs_ResponseStatus c) (rs_ClassLen c) (rs_HeaderLen c) (rs_ContentLen c) c1 c2 c3 now None.

Ltac read_field := fld_solve; rewrite ?s16_field, ?u32_field, ?u16_field, ?i64_id, ?u_field by done.

Lemma v1_req_fields c l :
  sendable_req c →
  let q := v1_req_header c ++ l in
  fld q 1 2 = rq_CmdType c ∧ fld q 14 16 = field_len (rq_ClassName c) ∧
  fld q 16 18 = field_len (rq_HeaderMap c) ∧ fld q 18 22 = field_len (rq_Content c) ∧
  ∀ c1 c2 c3, v1_request q c1 c2 c3 = MReq (with_parts c c1 c2 c3).
Proof.
  intros [R Ht Hto Hcl Hh Hhl Hct Hcf] q. destruct R.
  pose proof (field_len_nonneg (rq_ClassName c)) as N1.
  pose proof (field_len_nonneg (rq_HeaderMap c)) as N2.
  pose proof (field_len_nonneg (rq_Content c)) as N3.
  assert (in_u 16 (rq_ClassLen c)) as U1 by (unfold in_u, in_s in *; lia).
  assert (in_u 16 (field_len (rq_HeaderMap c))) as U2 by (unfold in_u, in_s in *; lia).
  assert (in_u 32 (rq_ContentLen c)) as U3 by (unfold in_u; lia).
  assert (in_u 32 (rq_Timeout c)) as U4 by done.
  assert (0 ≤ rq_ContentLen c < 2 ^ 32) as U5 by lia.
  unfold q, v1_req_header. rewrite <- !app_assoc. unfold v1_request, with_parts.
  split_and!; [by read_field|read_field; lia|read_field; done|read_field; lia|].
  intros. f_equal. f_equal; by read_field.
Qed.

Lemma length_v1_req_header c : length (v1_req_header c) = 22%nat.
Proof. unfold v1_req_header. len_solve. Qed.
Lemma length_v1_resp_header c : length (v1_resp_header c) = 20%nat.
Proof. unfold v1_resp_header. len_solve. Qed.
Lemma length_v2_req_header c : length (v2_req_header c) = 24%nat.
Proof. unfold v2_req_header. len_solve. Qed.

Lemma field_len_bytes o : field_len o = Z.of_nat (length (field_bytes o)).
Proof. done. Qed.

(** A decoder that found the frame complete drained it and returned its parts. *)
Lemma decoded_frame data hdr class header content rest mk h cl hl tl r :
  wf data → contents data = hdr ++ class ++ header ++ content ++ rest →
  h = Z.of_nat (length hdr) → cl = Z.of_nat (length class) → hl = Z.of_nat (length header) →
  tl = Z.of_nat (length content) →
  decoded data h cl hl tl mk (Drain data (h + cl + hl + tl)) r →
  ∃ data' c1 c2 c3, r = Ret (data', mk c1 c2 c3, None) ∧ wf data' ∧ contents data' = rest ∧
    field_bytes c1 = class ∧ field_bytes c2 = header ∧ field_bytes c3 = content ∧
    (c3 = None ↔ content = []).
Proof.
  intros Hwf Hd Hh Hcl Hhl Htl Hdec. pose proof (length_contents data Hwf) as HL.
  assert (h + cl + hl + tl ≤ Len data) as Hle by (rewrite <- HL, Hd; len_solve).
  destruct Hdec as [c1 c2 c3 _ Hp|]; [|lia].
  pose proof Hp as Hp'. rewrite Hd in Hp.
  destruct (parts_frame _ _ _ _ _ _ _ _ _ _ _ _ Hp Hh Hcl Hhl Htl) as (H1 & H2 & H3).
  destruct (Drain_ok data (h + cl + hl + tl) Hwf) as [Hw' Hc']; [lia|].
  eexists _, c1, c2, c3. split_and!; [done|done| |done..|].
  - rewrite Hc', Hd, !app_assoc. apply drop_app_length'. len_solve.
  - destruct Hp' as (_ & _ & _ & _ & _ & ->). rewrite Htl. destruct content; [done|]. simpl.
    split; [lia|discriminate].
Qed.

(** C1. Round trip of a version 1 request: decoding the encoded headers
    followed by the content gives the request back, field for field and byte
    for byte, with nothing of what follows consumed, whatever buffer the bytes
    arrive in. *)
Theorem v1_request_roundtrip pool now c :
  pool_ok pool → sendable_req c →
  ∃ b, v1_encodeHeaders pool (MReq c) = Ret (inl b) ∧
    ∀ data rest, wf data → contents data = contents b ++ field_bytes (rq_Content c) ++ rest →
    ∃ data' c1 c2 c3, v1_Decode now data = Ret (data', MReq (with_parts c c1 c2 c3), None) ∧
      wf data' ∧ contents data' = rest ∧ field_bytes c1 = field_bytes (rq_ClassName c) ∧
      field_bytes c2 = field_bytes (rq_HeaderMap c) ∧ field_bytes c3 = field_bytes (rq_Content c).
Proof.
  intros Hp Hc. destruct (v1_encode_req_ok pool c Hp Hc) as (b & E & Hwb & Hb).
  exists b. split; [cbn; by rewrite E|]. intros data rest Hwf Hd.
  rewrite Hb, <- !app_assoc in Hd.
  destruct (v1_req_fields c (field_bytes (rq_ClassName c) ++ field_bytes (rq_HeaderMap c) ++
    field_bytes (rq_Content c) ++ rest) Hc) as (F1 & F2 & F3 & F4 & Fm). rewrite <- Hd in F1, F2, F3, F4, Fm.
  pose proof (length_contents data Hwf) as HL. rewrite Hd in HL.
  rewrite length_app, length_v1_req_header in HL. rewrite Nat2Z.inj_add in HL.
  pose proof (sq_type c Hc) as Hty. unfold REQUEST, REQUEST_ONEWAY in Hty.
  destruct (v1_Decode_outcome now data Hwf) as [[? _]|[(_ & _ & [[? _]|[_ Hdec]])|[(_ & H0 & _)|(_ & H2 & _)]]];
    try lia.
  rewrite F2, F3, F4 in Hdec.
  destruct (decoded_frame _ _ _ _ _ _ _ _ _ _ _ _ Hwf Hd
    ltac:(by rewrite length_v1_req_header) (field_len_bytes _) (field_len_bytes _) (field_len_bytes _) Hdec)
    as (data' & c1 & c2 & c3 & -> & ? & ? & ? & ? & ? & _).
  exists data', c1, c2, c3. rewrite Fm. done.
Qed.

(** A request with a class, a header map of four bytes and a content. *)
Definition sample_req : BoltRequestCommand :=
  mk_req 1 1 1 1 77 1 3000 3 4 2 (Some (slice_of (str_bytes "cls"))) (Some (slice_of (str_bytes "hdrs")))
    (Some (slice_of (str_bytes "ok"))) None.

Lemma sample_req_sendable : sendable_req sample_req.
Proof. split; [split|..]; (by left) || (vm_compute; intuition discriminate). Qed.

Lemma v1_request_roundtrip_witness :
  ∃ b, v1_encodeHeaders None (MReq sample_req) = Ret (inl b) ∧
    ∀ data rest, wf data → contents data = contents b ++ field_bytes (rq_Content sample_req) ++ rest →
    ∃ data' c1 c2 c3, v1_Decode 0 data = Ret (data', MReq (with_parts sample_req c1 c2 c3), None) ∧
      wf data' ∧ contents data' = rest ∧ field_bytes c1 = field_bytes (rq_ClassName sample_req) ∧
      field_bytes c2 = field_bytes (rq_HeaderMap sample_req) ∧
      field_bytes c3 = field_bytes (rq_Content sample_req).
Proof. apply (v1_request_roundtrip None 0 sample_req pool_ok_none sample_req_sendable). Defined.

Lemma v1_resp_fields now c l :
  sendable_resp c →
  let q := v1_resp_header c ++ l in
  fld q 1 2 = rs_CmdType c ∧ fld q 12 14 = field_len (rs_ClassName c) ∧
  fld q 14 16 = field_len (rs_HeaderMap c) ∧ fld q 16 20 = field_len (rs_Content c) ∧
  ∀ c1 c2 c3, v1_response now q c1 c2 c3 = MResp (with_resp_parts now c c1 c2 c3).
Proof.
  intros [R Ht Hcl Hh Hhl Hct Hcf] q. destruct R.
  pose proof (field_len_nonneg (rs_ClassName c)) as N1.
  pose proof (field_len_nonneg (rs_HeaderMap c)) as N2.
  pose proof (field_len_nonneg (rs_Content c)) as N3.
  assert (in_u 16 (rs_ClassLen c)) as U1 by (unfold in_u, in_s in *; lia).
  assert (in_u 16 (field_len (rs_HeaderMap c))) as U2 by (unfold in_u, in_s in *; lia).
  assert (in_u 32 (rs_ContentLen c)) as U3 by (unfold in_u; lia).
  assert (0 ≤ rs_ContentLen c < 2 ^ 32) as U5 by lia.
  unfold q, v1_resp_header. rewrite <- !app_assoc. unfold v1_response, with_resp_parts.
  split_and!; [by read_field|read_field; lia|read_field; done|read_field; lia|].
  intros. f_equal. f_equal; by read_field.
Qed.

(** Round trip of a version 1 response; the time of arrival is the only
    field the decoder adds. *)
Theorem v1_response_roundtrip pool now c :
  pool_ok pool → sendable_resp c →
  ∃ b, v1_encodeHeaders pool (MResp c) = Ret (inl b) ∧
    ∀ data rest, wf data → contents data = contents b ++ field_bytes (rs_Content c) ++ rest →
    ∃ data' c1 c2 c3, v1_Decode now data = Ret (data', MResp (with_resp_parts now c c1 c2 c3), None) ∧
      wf data' ∧ contents data' = rest ∧ field_bytes c1 = field_bytes (rs_ClassName c) ∧
      field_bytes c2 = field_bytes (rs_HeaderMap c) ∧ field_bytes c3 = field_bytes (rs_Content c).
Proof.
  intros Hp Hc. destruct (v1_encode_resp_ok pool c Hp Hc) as (b & E & Hwb & Hb).
  exists b. split; [cbn; by rewrite E|]. intros data rest Hwf Hd.
  rewrite Hb, <- !app_assoc in Hd.
  destruct (v1_resp_fields now c (field_bytes (rs_ClassName c) ++ field_bytes (rs_HeaderMap c) ++
    field_bytes (rs_Content c) ++ rest) Hc) as (F1 & F2 & F3 & F4 & Fm). rewrite <- Hd in F1, F2, F3, F4, Fm.
  pose proof (length_contents data Hwf) as HL. rewrite Hd in HL.
  rewrite length_app, length_v1_resp_header in HL. rewrite Nat2Z.inj_add in HL.
  pose proof (sp_type c Hc) as Hty. unfold RESPONSE in Hty.
  destruct (v1_Decode_outcome now data Hwf) as [[? _]|[(_ & ? & _)|[(_ & _ & Hdec)|(_ & H2 & _)]]];
    try lia.
  rewrite F2, F3, F4 in Hdec.
  destruct (decoded_frame _ _ _ _ _ _ _ _ _ _ _ _ Hwf Hd
    ltac:(by rewrite length_v1_resp_header) (field_len_bytes _) (field_len_bytes _) (field_len_bytes _) Hdec)
    as (data' & c1 & c2 & c3 & -> & ? & ? & ? & ? & ? & _).
  exists data', c1, c2, c3. rewrite Fm. done.
Qed.

Definition sample_resp : BoltResponseCommand :=
  mk_resp 1 0 2 1 77 1 0 3 0 2 (Some (slice_of (str_bytes "cls"))) None
    (Some (slice_of (str_bytes "ok"))) 0 None.

Lemma sample_resp_sendable : sendable_resp sample_resp.
Proof. split; [split|..]; done || (vm_compute; intuition discriminate). Qed.

Lemma v1_response_roundtrip_witness :
  ∃ b, v1_encodeHeaders None (MResp sample_resp) = Ret (inl b) ∧
    ∀ data rest, wf data → contents data = contents b ++ field_bytes (rs_Content sample_resp) ++ rest →
    ∃ data' c1 c2 c3, v1_Decode 5 data = Ret (data', MResp (with_resp_parts 5 sample_resp c1 c2 c3), None) ∧
      wf data' ∧ contents data' = rest ∧ field_bytes c1 = field_bytes (rs_ClassName sample_resp) ∧
      field_bytes c2 = field_bytes (rs_HeaderMap sample_resp) ∧
      field_bytes c3 = field_bytes (rs_Content sample_resp).
Proof. apply (v1_response_roundtrip None 5 sample_resp pool_ok_none sample_resp_sendable). Defined.

Lemma v2_req_fields c2 l :
  sendable_req (rq2_base c2) → in_u 8 (rq2_Version1 c2) → in_u 8 (rq2_SwitchCode c2) →
  let q := v2_req_header c2 ++ l in let c := rq2_base c2 in
  fld q 2 3 = rq_CmdType c ∧ fld q 16 18 = field_len (rq_ClassName c) ∧
  fld q 18 20 = field_len (rq_HeaderMap c) ∧ fld q 20 24 = field_len (rq_Content c) ∧
  ∀ p1 p2 p3, v2_request q p1 p2 p3 =
    MReq2 (mk_req2 (with_parts c p1 p2 p3) (rq2_Version1 c2) (rq2_SwitchCode c2)).
Proof.
  intros [R Ht Hto Hcl Hh Hhl Hct Hcf] Hv Hs q c. fold c in R, Ht, Hto, Hcl, Hh, Hhl, Hct, Hcf.
  destruct R.
  pose proof (field_len_nonneg (rq_ClassName c)) as N1.
  pose proof (field_len_nonneg (rq_HeaderMap c)) as N2.
  pose proof (field_len_nonneg (rq_Content c)) as N3.
  assert (in_u 16 (rq_ClassLen c)) as U1 by (unfold in_u, in_s in *; lia).
  assert (in_u 16 (field_len (rq_HeaderMap c))) as U2 by (unfold in_u, in_s in *; lia).
  assert (in_u 32 (rq_ContentLen c)) as U3 by (unfold in_u; lia).
  assert (in_u 32 (rq_Timeout c)) as U4 by done.
  assert (0 ≤ rq_ContentLen c < 2 ^ 32) as U5 by lia.
  unfold q, v2_req_header. fold c. rewrite <- !app_assoc. unfold v2_request, with_parts.
  split_and!; [by read_field|read_field; lia|read_field; done|read_field; lia|].
  intros. f_equal. f_equal; [f_equal| |]; by read_field.
Qed.

(** Round trip of a version 2 request, its protocol version and switch
    byte included; the decoder always reports protocol code 1. *)
Theorem v2_request_roundtrip pool now c2 :
  pool_ok pool → sendable_req (rq2_base c2) → in_u 8 (rq2_Version1 c2) → in_u 8 (rq2_SwitchCode c2) →
  ∃ b, v2_encodeHeaders pool (MReq2 c2) = Ret (inl b) ∧
    ∀ data rest, wf data → contents data = contents b ++ field_bytes (rq_Content (rq2_base c2)) ++ rest →
    ∃ data' p1 p2 p3, v2_Decode now data =
        Ret (data', MReq2 (mk_req2 (with_parts (rq2_base c2) p1 p2 p3) (rq2_Version1 c2) (rq2_SwitchCode c2)), None) ∧
      wf data' ∧ contents data' = rest ∧ field_bytes p1 = field_bytes (rq_ClassName (rq2_base c2)) ∧
      field_bytes p2 = field_bytes (rq_HeaderMap (rq2_base c2)) ∧
      field_bytes p3 = field_bytes (rq_Content (rq2_base c2)).
Proof.
  intros Hp Hc Hv Hs. destruct (v2_encode_req_ok pool c2 Hp Hc) as (b & E & Hwb & Hb).
  exists b. split; [cbn; by rewrite E|]. intros data rest Hwf Hd.
  rewrite Hb, <- !app_assoc in Hd.
  destruct (v2_req_fields c2 (field_bytes (rq_ClassName (rq2_base c2)) ++ field_bytes (rq_HeaderMap (rq2_base c2)) ++
    field_bytes (rq_Content (rq2_base c2)) ++ rest) Hc Hv Hs) as (F1 & F2 & F3 & F4 & Fm).
  rewrite <- Hd in F1, F2, F3, F4, Fm.
  pose proof (length_contents data Hwf) as HL. rewrite Hd in HL.
  rewrite length_app, length_v2_req_header in HL. rewrite Nat2Z.inj_add in HL.
  pose proof (sq_type _ Hc) as Hty. unfold REQUEST, REQUEST_ONEWAY in Hty.
  destruct (v2_Decode_outcome now data Hwf) as [[? _]|[(_ & _ & [[? _]|[_ Hdec]])|[(_ & H0 & _)|(_ & H2 & _)]]];
    try lia.
  rewrite F2, F3, F4 in Hdec.
  destruct (decoded_frame _ _ _ _ _ _ _ _ _ _ _ _ Hwf Hd
    ltac:(by rewrite length_v2_req_header) (field_len_bytes _) (field_len_bytes _) (field_len_bytes _) Hdec)
    as (data' & p1 & p2 & p3 & -> & ? & ? & ? & ? & ? & _).
  exists data', p1, p2, p3. rewrite Fm. done.
Qed.

Lemma v2_request_roundtrip_witness :
  ∃ b, v2_encodeHeaders None (MReq2 (mk_req2 sample_req 1 0)) = Ret (inl b) ∧
    ∀ data rest, wf data → contents data = contents b ++ field_bytes (rq_Content sample_req) ++ rest →
    ∃ data' p1 p2 p3, v2_Decode 0 data =
        Ret (data', MReq2 (mk_req2 (with_parts sample_req p1 p2 p3) 1 0), None) ∧
      wf data' ∧ contents data' = rest ∧ field_bytes p1 = field_bytes (rq_ClassName sample_req) ∧
      field_bytes p2 = field_bytes (rq_HeaderMap sample_req) ∧
      field_bytes p3 = field_bytes (rq_Content sample_req).
Proof.
  apply (v2_request_roundtrip None 0 (mk_req2 sample_req 1 0) pool_ok_none sample_req_sendable);
    vm_compute; (split; [discriminate|reflexivity]).
Defined.

(** ** Streaming *)

(** A command up to the spare capacity of its slices. *)
Definition part_view (o : option gslice) : option bytes := s_data <$> o.
Definition cmd_view (m : msg) : msg :=
  let w o := slice_of <$> part_view o in
  match m with
  | MReq c => MReq (mk_req (rq_Protocol c) (rq_CmdType c) (rq_CmdCode c) (rq_Version c) (rq_ReqID c)
      (rq_CodecPro c) (rq_Timeout c) (rq_ClassLen c) (rq_HeaderLen c) (rq_ContentLen c)
      (w (rq_ClassName c)) (w (rq_HeaderMap c)) (w (rq_Content c)) (rq_RequestHeader c))
  | MResp c => MResp (mk_resp (rs_Protocol c) (rs_CmdType c) (rs_CmdCode c) (rs_Version c) (rs_ReqID c)
      (rs_CodecPro c) (rs_ResponseStatus c) (rs_ClassLen c) (rs_HeaderLen c) (rs_ContentLen c)
      (w (rs_ClassName c)) (w (rs_HeaderMap c)) (w (rs_Content c)) (rs_ResponseTimeMillis c) (rs_ResponseHeader c))
  | m => m
  end.

Lemma fld_app q k lo hi : 0 ≤ lo ≤ hi → hi ≤ Z.of_nat (length q) → fld (q ++ k) lo hi = fld q lo hi.
Proof. intros. unfold fld. by rewrite sub_app_l. Qed.

Lemma parts_of_views q q' h cl hl tl c1 c2 c3 d1 d2 d3 :
  parts_of q h cl hl tl c1 c2 c3 → parts_of q' h cl hl tl d1 d2 d3 →
  sub q h (h + cl) = sub q' h (h + cl) → sub q (h + cl) (h + cl + hl) = sub q' (h + cl) (h + cl + hl) →
  sub q (h + cl + hl) (h + cl + hl + tl) = sub q' (h + cl + hl) (h + cl + hl + tl) →
  part_view c1 = part_view d1 ∧ part_view c2 = part_view d2 ∧ part_view c3 = part_view d3.
Proof.
  assert (∀ (c d : option gslice) n, field_bytes c = field_bytes d → (c = None ↔ n = 0) → (d = None ↔ n = 0) →
    part_view c = part_view d) as Hone.
  { intros [c|] [d|] n Hb [Hc1 Hc2] [Hd1 Hd2]; simpl in *; [by f_equal| | |done].
    - discriminate (Hc2 (Hd1 eq_refl)).
    - discriminate (Hd2 (Hc1 eq_refl)). }
  intros (A1 & A2 & A3 & A4 & A5 & A6) (B1 & B2 & B3 & B4 & B5 & B6) E1 E2 E3.
  split_and!; eapply Hone; eauto; congruence.
Qed.

(** What a streaming decoder promises about one buffer. *)
Definition streams (dec : IoBuffer → Go (IoBuffer * msg * option string)) (data : IoBuffer) : Prop :=
  ∃ data' m e, dec data = Ret (data', m, e) ∧ wf data' ∧
    ((m = MNil ∧ data' = data) ∨
     (m ≠ MNil ∧ e = None ∧ ∃ frame, frame ≠ [] ∧ contents data = frame ++ contents data' ∧
       ∀ data2 ext, wf data2 → contents data2 = frame ++ ext →
       ∃ data2' m2, dec data2 = Ret (data2', m2, None) ∧ contents data2' = ext ∧
         cmd_view m = cmd_view m2)).

Lemma streams_wait dec data e : wf data → dec data = Ret (data, MNil, e) → streams dec data.
Proof. intros ? E. unfold streams. rewrite E. eexists _, _, _; split_and!; [done..|by left]. Qed.

(** Two buffers that agree on their first [n] bytes. *)
Definition same_front (n : Z) (q q2 : bytes) : Prop :=
  n ≤ Z.of_nat (length q) ∧ n ≤ Z.of_nat (length q2) ∧ take (Z.to_nat n) q = take (Z.to_nat n) q2.

Lemma same_front_sub n q q2 lo hi :
  same_front n q q2 → 0 ≤ lo ≤ hi → hi ≤ n → sub q lo hi = sub q2 lo hi.
Proof.
  intros (H1 & H2 & Ht) Hl Hh. rewrite <- (take_drop (Z.to_nat n) q), <- (take_drop (Z.to_nat n) q2).
  rewrite !sub_app_l by (rewrite ?length_take; lia). by rewrite Ht.
Qed.

Lemma same_front_fld n q q2 lo hi :
  same_front n q q2 → 0 ≤ lo ≤ hi → hi ≤ n → fld q2 lo hi = fld q lo hi.
Proof. intros. unfold fld. by rewrite (same_front_sub n q q2). Qed.

Lemma same_front_app frame ext q rest :
  q = frame ++ rest → same_front (Z.of_nat (length frame)) q (frame ++ ext).
Proof.
  intros ->. unfold same_front. rewrite !length_app, Nat2Z.id, !take_app_length. split_and!; [lia..|done].
Qed.

Lemma same_front_mono n k q q2 : same_front n q q2 → 0 ≤ k ≤ n → same_front k q q2.
Proof.
  intros (? & ? & Ht) ?. split_and!; [lia..|].
  apply (f_equal (take (Z.to_nat k))) in Ht. rewrite !take_take, !Nat.min_l in Ht by lia. done.
Qed.

Section streaming.
  Context (dec : IoBuffer → Go (IoBuffer * msg * option string)).
  Context (data : IoBuffer) (h cl hl tl : Z) (mk : option gslice → option gslice → option gslice → msg).
Let n := h + cl + hl + tl.
  Context (Hwf : wf data) (Hh : 0 < h) (Hcl : 0 ≤ cl) (Hhl : 0 ≤ hl) (Htl : 0 ≤ tl).
  Context (Hnil : ∀ c1 c2 c3, mk c1 c2 c3 ≠ MNil).
  Context (Hview : ∀ c1 c2 c3 d1 d2 d3, part_view c1 = part_view d1 → part_view c2 = part_view d2 →
     part_view c3 = part_view d3 → cmd_view (mk c1 c2 c3) = cmd_view (mk d1 d2 d3)).
  (** The lengths and the fields come from the fixed header. *)
  Context (Hdec : ∀ data2, wf data2 → same_front h (contents data) (contents data2) →
     decoded data2 h cl hl tl mk (Drain data2 n) (dec data2)).

Lemma streaming_case : h ≤ Len data → streams dec data.
Proof using All.
  intros Hhd. pose proof (length_contents data Hwf) as HL. set (q := contents data) in *.
  assert (same_front h q q) as Hrefl by (split_and!; [lia..|done]).
  pose proof (Hdec data Hwf Hrefl) as Hd. remember (dec data) as r eqn:Er.
  destruct Hd as [c1 c2 c3 Hle Hp|Hlt]; [|by apply (streams_wait _ _ None)]. fold n in Hle. fold q in Hp.
  destruct (Drain_ok data n Hwf) as [Hw' Hc']; [unfold n; lia|]. fold q in Hc'.
  assert (Z.of_nat (length (take (Z.to_nat n) q)) = n) as Hlen by (rewrite length_take; unfold n in *; lia).
  eexists _, _, _; split_and!; [done|done|]. right. split_and!; [done..|].
  exists (take (Z.to_nat n) q). split_and!.
  { intros E. rewrite E in Hlen. unfold n in Hlen. simpl in Hlen. lia. }
  { fold q. by rewrite Hc', take_drop. }
  intros data2 ext Hw2 Hc2. pose proof (length_contents data2 Hw2) as HL2.
  assert (same_front n q (contents data2)) as Hsf.
  { rewrite Hc2, <- Hlen at 1. apply (same_front_app _ _ _ (drop (Z.to_nat n) q)). by rewrite take_drop. }
  assert (n ≤ Len data2) as Hle2 by (rewrite <- HL2, Hc2, length_app; lia).
  pose proof (Hdec data2 Hw2 (same_front_mono _ h _ _ Hsf ltac:(unfold n; lia))) as Hd2.
  remember (dec data2) as r2 eqn:Er2. destruct Hd2 as [d1 d2 d3 _ Hp2|Hlt]; [|fold n in Hlt; lia].
  eexists _, _; split_and!; [done| |].
  - destruct (Drain_ok data2 n Hw2) as [_ ->]; [unfold n in *; lia|]. rewrite Hc2.
    apply drop_app_length'. lia.
  - destruct (parts_of_views _ _ _ _ _ _ _ _ _ _ _ _ Hp Hp2) as (?&?&?);
      try (apply (same_front_sub n); [done|unfold n; lia..]). by apply Hview.
Qed.
End streaming.

(** C33. The version 1 decoder is a streaming decoder: it never panics; when
    it returns no command the buffer is unchanged; when it returns a command it
    has consumed one frame from the front, and the same frame followed by any
    other bytes, in any other buffer, decodes to the same command and leaves
    exactly those bytes. *)
Theorem v1_decode_streaming now data : wf data → streams (v1_Decode now) data.
Proof.
  intros Hwf. pose proof (length_contents data Hwf) as HL. set (q := contents data) in *.
  destruct (v1_Decode_outcome now data Hwf)
    as [[? Hr]|[(H20 & Hty & [[? Hr]|[H22 _]])|[(H20 & Hty & _)|(? & ? & Hr)]]];
    try (by apply (streams_wait _ _ _ Hwf Hr)); fold q in Hty.
  - apply (streaming_case _ data 22 (fld q 14 16) (fld q 16 18) (fld q 18 22) (v1_request q));
      try done; try (apply fld_range; lia).
    { intros * E1 E2 E3. unfold v1_request, cmd_view. cbv zeta. cbn [rq_ClassName rq_HeaderMap rq_Content]. by rewrite E1, E2, E3. }
    intros data2 Hw2 Hsf. pose proof (length_contents data2 Hw2). fold q in Hsf. pose proof Hsf as [_ [? _]].
    assert (∀ lo hi, 0 ≤ lo ≤ hi → hi ≤ 22 → fld (contents data2) lo hi = fld q lo hi) as Hf
      by (intros; by apply (same_front_fld 22)).
    assert (v1_request (contents data2) = v1_request q) as Hm by (unfold v1_request; by rewrite !Hf by lia).
    destruct (v1_Decode_outcome now data2 Hw2) as [[? _]|[(_ & _ & [[? _]|[_ Hd]])|[(_ & Ht & _)|(_ & Ht & _)]]];
      try (rewrite ?Hf in * by lia; lia).
    rewrite Hm, !Hf in Hd by lia. exact Hd.
  - apply (streaming_case _ data 20 (fld q 12 14) (fld q 14 16) (fld q 16 20) (v1_response now q));
      try done; try (apply fld_range; lia).
    { intros * E1 E2 E3. unfold v1_response, cmd_view. cbv zeta. cbn [rs_ClassName rs_HeaderMap rs_Content]. by rewrite E1, E2, E3. }
    intros data2 Hw2 Hsf. pose proof (length_contents data2 Hw2). fold q in Hsf. pose proof Hsf as [_ [? _]].
    assert (∀ lo hi, 0 ≤ lo ≤ hi → hi ≤ 20 → fld (contents data2) lo hi = fld q lo hi) as Hf
      by (intros; by apply (same_front_fld 20)).
    assert (v1_response now (contents data2) = v1_response now q) as Hm by (unfold v1_response; by rewrite !Hf by lia).
    destruct (v1_Decode_outcome now data2 Hw2) as [[? _]|[(_ & Ht & _)|[(_ & _ & Hd)|(_ & Ht & _)]]];
      try (rewrite ?Hf in * by lia; lia).
    rewrite Hm, !Hf in Hd by lia. exact Hd.
Qed.

Lemma v1_decode_streaming_witness :
  wf (NewIoBufferString "abc") ∧ streams (v1_Decode 0) (NewIoBufferString "abc").
Proof.
  assert (wf (NewIoBufferString "abc")) as Hwf by (split; [vm_compute; split; discriminate|discriminate]).
  split; [exact Hwf|]. exact (v1_decode_streaming 0 _ Hwf).
Defined.

(** ** Version 2 responses and header maps *)

(** The version 2 decoder does not consume a response: it returns the command
    and leaves the buffer as it was. *)
Lemma v2_response_not_drained now data data' c e :
  wf data → v2_Decode now data = Ret (data', MResp2 c, e) → data' = data.
Proof.
  intros Hwf Hd. pose proof (v2_Decode_outcome now data Hwf) as Ho. rewrite Hd in Ho.
  destruct Ho as [[? Hr]|[(? & ? & [[? Hr]|[? Hdec]])|[(? & ? & Hdec)|(? & ? & Hr)]]]; try discriminate Hr.
  - inversion Hdec.
  - by inversion Hdec.
Qed.

(** A version 2 response frame without class, header or content. *)
Definition v2_response_frame : bytes :=
  be_put 1 2 ++ be_put 1 1 ++ be_put 1 0 ++ be_put 2 2 ++ be_put 1 1 ++ be_put 4 9 ++ be_put 1 1 ++
  be_put 1 0 ++ be_put 2 0 ++ be_put 2 0 ++ be_put 2 0 ++ be_put 4 0.

Definition v2_response_buffer : IoBuffer := NewIoBufferBytes (slice_of v2_response_frame) false.

Definition v2_response_cmd : BoltV2ResponseCommand :=
  mk_resp2 (mk_resp 1 0 2 1 9 1 0 0 0 0 None None None 0 None) 1 0.

Lemma v1_mapToCmd_pointers range_order headers headers' m :
  v1_mapToCmd range_order headers = Ret (headers', m) →
  (∃ c, m = MReq c) ∨ (∃ c, m = MResp c) ∨ m = MNil.
Proof.
  unfold v1_mapToCmd. case_bool_decide; [intros [= <- <-]; auto|].
  repeat (destruct (GetPropertyValue _ _ _)).
  case_bool_decide; [|destruct (_ || _)]; intros Hr; repeat (destruct (GetPropertyValue _ _ _));
    repeat (apply bind_Ret_inv in Hr as (? & _ & Hr)); injection Hr as <- <-; eauto.
Qed.

(** A header map cannot be encoded as a version 2 command: [mapToCmd]
    asserts for a command struct where version 1 returns a pointer, so whenever
    the map is encoded without a panic the result is the invalid-type error. *)
Theorem v2_map_never_encodes range_order pool m r :
  v2_EncodeHeaders range_order pool (MMap m) = Ret r → r = inr InvalidCommandType.
Proof.
  unfold v2_EncodeHeaders, v2_mapToCmd. intros Hr.
  apply bind_Ret_inv in Hr as ([h cmd] & Hm & Hr).
  assert (cmd = MNil) as ->; [|by injection Hr as <-].
  revert Hm. case_bool_decide; [by intros [= _ <-]|]. intros Hm.
  apply bind_Ret_inv in Hm as ([h1 m1] & Hm1 & Hm).
  apply v1_mapToCmd_pointers in Hm1.
  repeat (destruct (GetPropertyValue _ _ _)).
  destruct Hm1 as [[c ->]|[[c ->]| ->]]; by injection Hm as _ <-.
Qed.

(** The header map of a version 2 request. *)
Definition v2_sample_map : header_map := list_to_map [
  (HeaderProtocolCode, "2"); (HeaderCmdType, "1"); (HeaderCmdCode, "1"); (HeaderVersion, "1");
  (HeaderReqID, "5"); (HeaderCodec, "1"); (HeaderTimeout, "100"); (HeaderClassLen, "0");
  (HeaderHeaderLen, "0"); (HeaderContentLen, "0"); (HeaderClassName, ""); (HeaderVersion1, "1");
  (HeaderSwitchCode, "0")]%string.

Lemma v2_map_never_encodes_witness :
  v2_EncodeHeaders map_to_list None (MMap v2_sample_map) = Ret (inr InvalidCommandType) ∧
  inr InvalidCommandType = (inr InvalidCommandType : IoBuffer + string).
Proof.
  assert (v2_EncodeHeaders map_to_list None (MMap v2_sample_map) = Ret (inr InvalidCommandType)) as E
    by (vm_compute; reflexivity).
  split; [exact E|]. exact (v2_map_never_encodes _ _ _ _ E).
Defined.
