(* ===== verification/Protocols.v ===== *)
(** * Dispatch of decoded commands

    pkg/protocol/sofarpc/handler (the processors that turn a command into a
    header map and hand it to the stream layer) and
    pkg/protocol/sofarpc/protocols.go (the registry of protocols and the decode
    loop over a connection's read buffer).  The stream layer is the interface
    [DecodeFilter]. *)

From S2P Require Import Prelude Strconv IoBuffer Serialize BoltTypes BoltCodec.

Local Open Scope string_scope.
Local Open Scope Z_scope.

Definition HeaderStremEnd := "x-mosn-endstream".

(** ** From a command to its header map *)

Definition fmt_u64 (z : Z) : string := FormatUint (to_uint64 z).

(** The header map decoded from the header bytes: on an error the entries
    decoded before it stay. *)
Definition decoded_headers (header : option gslice) : Go header_map :=
  '(t, _, _) ← DeSerialize (field_slice header) (TMap (Some ∅));
  Ret (match t with TMap (Some m) => m | _ => ∅ end).

Definition decoded_class (class : option gslice) : Go string :=
  '(t, _, _) ← DeSerialize (field_slice class) (TString "");
  Ret (match t with TString s => s | _ => "" end).

(** The properties of the fixed header of a request. *)
Definition request_fields (c : BoltRequestCommand) : header_map := list_to_map [
  (HeaderProtocolCode, fmt_u64 (rq_Protocol c)); (HeaderCmdType, fmt_u64 (rq_CmdType c));
  (HeaderCmdCode, fmt_u64 (rq_CmdCode c)); (HeaderVersion, fmt_u64 (rq_Version c));
  (HeaderReqID, fmt_u64 (rq_ReqID c)); (HeaderCodec, fmt_u64 (rq_CodecPro c));
  (HeaderTimeout, fmt_u64 (rq_Timeout c)); (HeaderClassLen, fmt_u64 (rq_ClassLen c));
  (HeaderHeaderLen, fmt_u64 (rq_HeaderLen c)); (HeaderContentLen, fmt_u64 (rq_ContentLen c))].

Definition response_fields (c : BoltResponseCommand) : header_map := list_to_map [
  (HeaderProtocolCode, fmt_u64 (rs_Protocol c)); (HeaderCmdType, fmt_u64 (rs_CmdType c));
  (HeaderCmdCode, fmt_u64 (rs_CmdCode c)); (HeaderVersion, fmt_u64 (rs_Version c));
  (HeaderReqID, fmt_u64 (rs_ReqID c)); (HeaderCodec, fmt_u64 (rs_CodecPro c));
  (HeaderClassLen, fmt_u64 (rs_ClassLen c)); (HeaderHeaderLen, fmt_u64 (rs_HeaderLen c));
  (HeaderContentLen, fmt_u64 (rs_ContentLen c)); (HeaderRespStatus, fmt_u64 (rs_ResponseStatus c));
  (HeaderRespTimeMills, fmt_u64 (rs_ResponseTimeMillis c))].

(** [deserializeRequestAllFields]: the map stored in [RequestHeader].  The
    decoded headers are copied over the properties of the command, so a header
    with the name of a property replaces it. *)
Definition deserializeRequestAllFields (c : BoltRequestCommand) : Go header_map :=
  headerMap ← decoded_headers (rq_HeaderMap c);
  className ← decoded_class (rq_ClassName c);
  let allField := <[HeaderClassName := className]> (request_fields c) in
  Ret (headerMap ∪ allField).

Definition deserializeResponseAllFields (c : BoltResponseCommand) : Go header_map :=
  headerMap ← decoded_headers (rs_HeaderMap c);
  className ← decoded_class (rs_ClassName c);
  let allField := <[HeaderClassName := className]> (response_fields c) in
  Ret (headerMap ∪ allField).

Definition deserializeRequestAllFieldsV2 (c : BoltV2RequestCommand) : Go header_map :=
  h ← deserializeRequestAllFields (rq2_base c);
  Ret (<[HeaderSwitchCode := fmt_u64 (rq2_SwitchCode c)]> (<[HeaderVersion1 := fmt_u64 (rq2_Version1 c)]> h)).

Definition deserializeResponseAllFieldsV2 (c : BoltV2ResponseCommand) : Go header_map :=
  h ← deserializeResponseAllFields (rs2_base c);
  Ret (<[HeaderSwitchCode := fmt_u64 (rs2_SwitchCode c)]> (<[HeaderVersion1 := fmt_u64 (rs2_Version1 c)]> h)).

(** ** The stream layer as the handlers see it *)

Inductive FilterStatus := Continue | StopIteration.

(** The header map of [OnDecodeError] may be nil. *)
Class DecodeFilter (F : Type) := {
  OnDecodeHeader : F → string → header_map → Go (F * FilterStatus);
  OnDecodeData : F → string → gslice → Go (F * FilterStatus);
  OnDecodeError : F → string → option header_map → Go F;
}.

(** The id generator of pkg/protocol/util.go: a uint32 counter. *)
Definition IDGenerator_Get (counter : Z) : Z * Z :=
  let n := to_uint32 (counter + 1) in (n, n).
Definition StreamIDConv (streamID : Z) : string := fmt_u64 streamID.
Definition GenerateIDString (counter : Z) : Z * string :=
  let '(counter, n) := IDGenerator_Get counter in (counter, fmt_u64 n).

Section handler.
  Context {F : Type} `{!DecodeFilter F}.

(** What the processors share: headers first, marked as the end of the stream
    when there is no content, then the content unless the filter stopped. *)
Definition deliver (f : F) (streamID : string) (headers : header_map) (content : option gslice) : Go F :=
  let headers := match content with None => <[HeaderStremEnd := "yes"]> headers | Some _ => headers end in
  '(f, status) ← OnDecodeHeader f streamID headers;
  match status with
  | StopIteration => Ret f
  | Continue =>
    match content with
    | Some s => '(f, _) ← OnDecodeData f streamID s; Ret f
    | None => Ret f
    end
  end.

(** The state of the handlers: the id counter and the filter. *)
Definition BoltRequestProcessor_Process (st : Z * F) (m : msg) : Go (Z * F) :=
  match m with
  | MReq c =>
    h ← deserializeRequestAllFields c;
    let '(counter, streamID) := GenerateIDString st.1 in
    f ← deliver st.2 streamID h (rq_Content c);
    Ret (counter, f)
  | _ => Ret st
  end.

Definition BoltRequestProcessorV2_Process (st : Z * F) (m : msg) : Go (Z * F) :=
  match m with
  | MReq2 c =>
    h ← deserializeRequestAllFieldsV2 c;
    let '(counter, streamID) := GenerateIDString st.1 in
    f ← deliver st.2 streamID h (rq_Content (rq2_base c));
    Ret (counter, f)
  | _ => Ret st
  end.

Definition BoltResponseProcessor_Process (st : Z * F) (m : msg) : Go (Z * F) :=
  match m with
  | MResp c =>
    h ← deserializeResponseAllFields c;
    f ← deliver st.2 (StreamIDConv (rs_ReqID c)) h (rs_Content c);
    Ret (st.1, f)
  | _ => Ret st
  end.

Definition BoltResponseProcessorV2_Process (st : Z * F) (m : msg) : Go (Z * F) :=
  match m with
  | MResp2 c =>
    h ← deserializeResponseAllFieldsV2 c;
    f ← deliver st.2 (StreamIDConv (rs_ReqID (rs2_base c))) h (rs_Content (rs2_base c));
    Ret (st.1, f)
  | _ => Ret st
  end.

(** A heartbeat has headers only, of version 1 only. *)
Definition boltHbProcessor_Process (st : Z * F) (m : msg) : Go (Z * F) :=
  match m with
  | MReq c =>
    h ← deserializeRequestAllFields c;
    '(f, _) ← OnDecodeHeader st.2 (StreamIDConv (rq_ReqID c)) h;
    Ret (st.1, f)
  | MResp c =>
    h ← deserializeResponseAllFields c;
    '(f, _) ← OnDecodeHeader st.2 (StreamIDConv (rs_ReqID c)) h;
    Ret (st.1, f)
  | _ => Ret st
  end.

(** ** The registry and the decode loop *)

Inductive protocol := BoltV1 | BoltV2.

Definition proto_Decode (p : protocol) (now : Z) (data : IoBuffer) :=
  match p with BoltV1 => v1_Decode now data | BoltV2 => v2_Decode now data end.

(** [HandleCommand]: the processor registered for the command code. *)
Definition HandleCommand (p : protocol) (st : Z * F) (m : msg) : Go ((Z * F) * option string) :=
  match GetCmdCode m with
  | None => Ret (st, Some UnKnownCmd)
  | Some cmdCode =>
    if bool_decide (cmdCode = RPC_REQUEST) then
      st ← (match p with BoltV1 => BoltRequestProcessor_Process st m
                       | BoltV2 => BoltRequestProcessorV2_Process st m end); Ret (st, None)
    else if bool_decide (cmdCode = RPC_RESPONSE) then
      st ← (match p with BoltV1 => BoltResponseProcessor_Process st m
                       | BoltV2 => BoltResponseProcessorV2_Process st m end); Ret (st, None)
    else if bool_decide (cmdCode = HEARTBEAT) then
      st ← boltHbProcessor_Process st m; Ret (st, None)
    else Ret (st, Some UnKnownCmdcode)
  end.

Definition RegisterProtocol (protos : gmap Z protocol) (code : Z) (p : protocol) : gmap Z protocol :=
  match protos !! code with Some _ => protos | None => <[code := p]> protos end.
Definition UnRegisterProtocol (protos : gmap Z protocol) (code : Z) : gmap Z protocol :=
  match protos !! code with Some _ => delete code protos | None => protos end.

(** The registrations of codec/boltprotocol.go. *)
Definition default_protocols : gmap Z protocol :=
  RegisterProtocol (RegisterProtocol ∅ PROTOCOL_CODE_V1 BoltV1) PROTOCOL_CODE_V2 BoltV2.

Context (protos : gmap Z protocol) (now : Z).

(** [Decode]: frames are decoded and handled until the buffer is empty, a
    frame is incomplete, or something is wrong.  The loop has no bound of its
    own: [fuel] counts its iterations. *)
Fixpoint protocols_Decode (fuel : nat) (st : Z * F) (data : IoBuffer) : Go ((Z * F) * IoBuffer) :=
  match fuel with
  | O => Panic OutOfFuel
  | S fuel =>
    if bool_decide (1 < Len data) then
      b ← BytesSlice data;
      protocolCode ← byte_at b 0;
      maybeProtocolVersion ← byte_at b 1;
      match protos !! protocolCode with
      | Some proto =>
        '(data, cmd, error) ← proto_Decode proto now data;
        match cmd, error with
        | MNil, Some e => f ← OnDecodeError st.2 e None; Ret ((st.1, f), data)
        | MNil, None => Ret (st, data)
        | cmd, None =>
          '(st, err) ← HandleCommand proto st cmd;
          match err with
          | Some e => f ← OnDecodeError st.2 e None; Ret ((st.1, f), data)
          | None => protocols_Decode fuel st data
          end
        | _, Some e => f ← OnDecodeError st.2 e None; Ret ((st.1, f), data)
        end
      | None => f ← OnDecodeError st.2 UnSupportedProCode None; Ret ((st.1, f), data)
      end
    else Ret (st, data)
  end.

Context (range_order : header_map → list (string * string)) (pool : option (Z → option IoBuffer)).

(** [EncodeHeaders] of the registry: by the protocol code of the command or
    of the header map. *)
Definition protocols_EncodeHeaders (headers : msg) : Go (IoBuffer + string) :=
  let by_code code :=
    match protos !! code with
    | Some BoltV1 => v1_EncodeHeaders range_order pool headers
    | Some BoltV2 => v2_EncodeHeaders range_order pool headers
    | None => Ret (inr UnSupportedProCode)
    end in
  match GetProtocol headers with
  | Some code => by_code code
  | None =>
    match headers with
    | MMap m =>
      match m !! SofaPropertyHeader HeaderProtocolCode with
      | Some proto => code ← as_byte (ConvertPropertyValue proto KUint8); by_code code
      | None => Ret (inr NoProCodeInHeader)
      end
    | _ => Ret (inr InvalidHeaderType)
    end
  end.
End handler.
