(* ===== verification/ProtocolsProps.v ===== *)
(** * Correctness of the dispatch

    A request that is decoded, turned into a header map and back into a command
    keeps its fields; the decode loop terminates on version 1 traffic and never
    leaves a version 2 response; what the callbacks of a filter preserve, the
    loop preserves. *)

From S2P Require Import Prelude Strconv IoBuffer Serialize BoltTypes BoltCodec BoltProps Protocols.

Local Open Scope Z_scope.

(** ** Through the header map and back *)

(** The names of the properties of a request. *)
Definition request_props : list string :=
  [HeaderProtocolCode; HeaderCmdType; HeaderCmdCode; HeaderVersion; HeaderReqID; HeaderCodec;
   HeaderClassLen; HeaderHeaderLen; HeaderContentLen; HeaderClassName; HeaderTimeout].

(** A header map that uses none of them. *)
Definition no_props (names : list string) (m : header_map) : Prop := Forall (λ k, m !! k = None) names.

Definition delete_all (names : list string) (m : header_map) : header_map :=
  foldl (λ m k, delete k m) m names.

Lemma lookup_delete_all names m k :
  delete_all names m !! k = if bool_decide (k ∈ names) then None else m !! k.
Proof.
  revert m. induction names as [|n names IH]; intros m; simpl; [done|]. rewrite IH.
  destruct (decide (k = n)) as [->|Hne].
  - rewrite lookup_delete_eq. rewrite (bool_decide_true (n ∈ n :: names)) by apply list_elem_of_here.
    by case_bool_decide.
  - rewrite lookup_delete_ne by done.
    rewrite (bool_decide_ext (k ∈ n :: names) (k ∈ names)); [done|]. rewrite elem_of_cons. naive_solver.
Qed.

(** Taking out a property that is there. *)
Lemma get_prop P (h : header_map) name v :
  h !! name = Some v →
  GetPropertyValue P h name = (delete name h, ConvertPropertyValue v (default KInvalid (P !! name))).
Proof. intros E. unfold GetPropertyValue, SofaPropertyHeader. by rewrite E. Qed.

Lemma conv_u8 z : in_u 8 z → ConvertPropertyValue (fmt_u64 z) KUint8 = PByte z.
Proof.
  intros H. unfold in_u in H. unfold fmt_u64, to_uint64. rewrite uwrap_id by (unfold in_u; lia). simpl.
  rewrite ParseUint_FormatUint by lia. f_equal. by apply uwrap_id.
Qed.
Lemma conv_u32 z : in_u 32 z → ConvertPropertyValue (fmt_u64 z) KUint32 = PUint32 z.
Proof.
  intros H. unfold in_u in H. unfold fmt_u64, to_uint64. rewrite uwrap_id by (unfold in_u; lia). simpl.
  rewrite ParseUint_FormatUint by lia. f_equal. by apply uwrap_id.
Qed.
Lemma conv_i16 z : 0 ≤ z < 2 ^ 15 → ConvertPropertyValue (fmt_u64 z) KInt16 = PInt16 z.
Proof.
  intros H. unfold fmt_u64, to_uint64. rewrite uwrap_id by (unfold in_u; lia). simpl.
  rewrite ParseInt_FormatUint by lia. f_equal. apply swrap_id; [lia|]. unfold in_s. lia.
Qed.
Lemma conv_int z : 0 ≤ z < 2 ^ 31 → ConvertPropertyValue (fmt_u64 z) KInt = PInt z.
Proof.
  intros H. unfold fmt_u64, to_uint64. rewrite uwrap_id by (unfold in_u; lia). simpl.
  rewrite ParseInt_FormatUint by lia. f_equal. apply swrap_id; [lia|]. unfold in_s. lia.
Qed.

Lemma decoded_headers_ok o entries m :
  field_bytes o = encodeMap entries → lists_map entries m → map_fits m → decoded_headers o = Ret m.
Proof.
  intros Hb Hl Hf. unfold decoded_headers, DeSerialize. case_bool_decide as H0.
  - simpl. f_equal. pose proof (length_encodeMap entries) as HL. rewrite <- Hb in HL.
    unfold s_len in H0. fold (field_bytes o) in H0.
    assert (entries = []) as -> by (destruct entries; [done|simpl in *; lia]).
    unfold lists_map in Hl. apply Permutation_nil_l in Hl. symmetry. by apply map_to_list_empty_iff.
  - rewrite (decode_enc_listing entries m ∅) by done. simpl. by rewrite right_id_L by apply _.
Qed.

Lemma decoded_class_ok o : decoded_class o = Ret (bytes_str (field_bytes o)).
Proof.
  unfold decoded_class, DeSerialize. case_bool_decide as H0; [|done]. simpl. f_equal.
  unfold s_len in H0. fold (field_bytes o) in H0. by destruct (field_bytes o).
Qed.

(** The command a request becomes on the upstream side. *)
Definition forwarded (range_order : header_map → list (string * string)) (c : BoltRequestCommand) (m : header_map) :=
  mk_req (rq_Protocol c) (rq_CmdType c) (rq_CmdCode c) (rq_Version c) (rq_ReqID c) (rq_CodecPro c)
    (rq_Timeout c) (rq_ClassLen c) (rq_HeaderLen c) (rq_ContentLen c)
    (Some (slice_of (field_bytes (rq_ClassName c)))) (Some (slice_of (encodeMap (range_order m)))) None None.

(** The properties fit the types they are parsed as. *)
Record parses_back (c : BoltRequestCommand) : Prop := {
  pb_ranges : req_ranges c;
  pb_code : rq_CmdCode c = RPC_REQUEST;
  pb_classlen : 0 ≤ rq_ClassLen c; pb_headerlen : 0 ≤ rq_HeaderLen c;
  pb_timeout : 0 ≤ rq_Timeout c < 2 ^ 31; pb_contentlen : 0 ≤ rq_ContentLen c < 2 ^ 31;
}.

Lemma all_fields_size c s : (10 ≤ size (<[HeaderClassName := s]> (request_fields c)))%nat.
Proof.
  unfold request_fields. generalize (fmt_u64 (rq_Protocol c)), (fmt_u64 (rq_CmdType c)), (fmt_u64 (rq_CmdCode c)),
    (fmt_u64 (rq_Version c)), (fmt_u64 (rq_ReqID c)), (fmt_u64 (rq_CodecPro c)), (fmt_u64 (rq_Timeout c)),
    (fmt_u64 (rq_ClassLen c)), (fmt_u64 (rq_HeaderLen c)), (fmt_u64 (rq_ContentLen c)).
  intros. vm_compute. lia.
Qed.

(** What the map of a decoded request holds under the property names. *)
Lemma all_fields_lookup (c : BoltRequestCommand) (cls : string) (m : header_map) (name v : string) :
  no_props request_props m → name ∈ request_props →
  (<[HeaderClassName := cls]> (request_fields c)) !! name = Some v →
  (m ∪ <[HeaderClassName := cls]> (request_fields c)) !! name = Some v.
Proof.
  intros Hno Hin Hl. rewrite lookup_union_r; [done|].
  unfold no_props in Hno. rewrite Forall_forall in Hno. by apply Hno.
Qed.

(** The map holds nothing else. *)
Lemma all_fields_dom c cls k v :
  (<[HeaderClassName := cls]> (request_fields c)) !! k = Some v → k ∈ request_props.
Proof.
  intros Hk. destruct (decide (k = HeaderClassName)) as [->|Hne]; [by apply (bool_decide_eq_true_1 _)|].
  rewrite lookup_insert_ne in Hk by done. apply elem_of_list_to_map_2 in Hk.
  apply (list_elem_of_fmap_2 fst) in Hk. cbn [fmap list_fmap fst] in Hk.
  repeat (apply elem_of_cons in Hk as [->|Hk]; [by apply (bool_decide_eq_true_1 _)|]).
  by apply elem_of_nil in Hk.
Qed.

Lemma delete_props_rest c cls m :
  no_props request_props m →
  delete_all request_props (m ∪ <[HeaderClassName := cls]> (request_fields c)) = m.
Proof.
  intros Hno. apply map_eq. intros k. rewrite lookup_delete_all. case_bool_decide as Hin.
  - unfold no_props in Hno. rewrite Forall_forall in Hno. by rewrite Hno.
  - apply lookup_union_l. apply eq_None_not_Some. intros [v Hv]. apply Hin. by eapply all_fields_dom.
Qed.

Lemma forward_size c cls m :
  no_props request_props m →
  bool_decide (Z.of_nat (size (m ∪ <[HeaderClassName := cls]> (request_fields c))) < 10) = false.
Proof.
  intros Hno. apply bool_decide_eq_false. pose proof (all_fields_size c cls) as Hs.
  assert (size (<[HeaderClassName:=cls]> (request_fields c)) ≤
          size (m ∪ <[HeaderClassName:=cls]> (request_fields c)))%nat; [|lia].
  apply map_subseteq_size, map_union_subseteq_r. apply map_disjoint_spec. intros k v1 v2 H1 H2.
  apply all_fields_dom in H2 as Hin.
  unfold no_props in Hno. rewrite Forall_forall in Hno. specialize (Hno k Hin). congruence.
Qed.

(** A request survives the header map: the properties the handler writes
    into the map are the ones [mapToCmd] takes out again, so the command built
    for the upstream side has the fields of the one received, the same class,
    and as header bytes the encoding of the same header map, from which every
    property has been removed.  The header map must not use a property's name,
    and the numbers must fit the types they are parsed as. *)
Theorem request_survives_header_map range_order c entries m :
  parses_back c → field_bytes (rq_HeaderMap c) = encodeMap entries → lists_map entries m → map_fits m →
  no_props request_props m →
  ∃ h, deserializeRequestAllFields c = Ret h ∧
    v1_mapToCmd range_order h = Ret (m, MReq (forwarded range_order c m)).
Proof.
  intros [R Hcode Hcl Hhl Hto Hct] Hb Hl Hf Hno. destruct R. unfold in_s in *.
  unfold deserializeRequestAllFields.
  rewrite (decoded_headers_ok _ entries m), bind_Ret by done. rewrite decoded_class_ok, bind_Ret.
  set (cls := bytes_str _). eexists. split; [done|].
  unfold v1_mapToCmd. rewrite forward_size by done.
  pose proof (all_fields_lookup c cls m) as Hlk. set (h := m ∪ _) in *.
  assert (∀ name v, name ∈ request_props → (<[HeaderClassName:=cls]> (request_fields c)) !! name = Some v →
            h !! name = Some v) as Hget by (intros; by apply Hlk). clear Hlk.
  repeat (erewrite get_prop by (rewrite ?lookup_delete_ne by done; apply Hget; [by apply (bool_decide_eq_true_1 _)|reflexivity])).
  cbv beta iota zeta. cbn [snd].
  change (default KInvalid (BoltV1PropertyHeaders !! HeaderProtocolCode)) with KUint8.
  change (default KInvalid (BoltV1PropertyHeaders !! HeaderCmdType)) with KUint8.
  change (default KInvalid (BoltV1PropertyHeaders !! HeaderCmdCode)) with KInt16.
  change (default KInvalid (BoltV1PropertyHeaders !! HeaderVersion)) with KUint8.
  change (default KInvalid (BoltV1PropertyHeaders !! HeaderReqID)) with KUint32.
  change (default KInvalid (BoltV1PropertyHeaders !! HeaderCodec)) with KUint8.
  change (default KInvalid (BoltV1PropertyHeaders !! HeaderTimeout)) with KInt.
  change (default KInvalid (BoltV1PropertyHeaders !! HeaderClassLen)) with KInt16.
  change (default KInvalid (BoltV1PropertyHeaders !! HeaderHeaderLen)) with KInt16.
  change (default KInvalid (BoltV1PropertyHeaders !! HeaderContentLen)) with KInt.
  change (default KInvalid (BoltV1PropertyHeaders !! HeaderClassName)) with KInvalid.
  rewrite !conv_u8, conv_u32, !conv_i16, !conv_int by (done || lia || (rewrite Hcode; done)).
  rewrite (bool_decide_true (PInt16 (rq_CmdCode c) = _)) by (by rewrite Hcode). cbn [as_byte as_int16 as_uint32 as_int].
  rewrite !bind_Ret.
  match goal with |- context [delete HeaderTimeout ?x] =>
    change (delete HeaderTimeout x) with (delete_all request_props h) end.
  unfold h. rewrite delete_props_rest by done. unfold forwarded, cls.
  cbn [ConvertPropertyValue prop_serialize Serialize encodeString]. unfold encodeString.
  by rewrite bytes_str_bytes.
Qed.

(** A request with one header. *)
Definition one_header : header_map := {["service" := "echo"]}%string.
Definition header_req : BoltRequestCommand :=
  mk_req 1 1 1 1 77 1 3000 3 19 2 (Some (slice_of (str_bytes "cls")))
    (Some (slice_of (encodeMap [("service", "echo")]%string))) (Some (slice_of (str_bytes "ok"))) None.

Lemma request_survives_header_map_witness :
  ∃ h, deserializeRequestAllFields header_req = Ret h ∧
    v1_mapToCmd map_to_list h = Ret (one_header, MReq (forwarded map_to_list header_req one_header)).
Proof.
  apply (request_survives_header_map map_to_list header_req [("service", "echo")]%string one_header).
  - split; [split|..]; vm_compute; intuition discriminate.
  - reflexivity.
  - apply Permutation_refl.
  - intros k v. unfold one_header. rewrite lookup_singleton_Some. intros [<- <-]. split; reflexivity.
  - unfold no_props, request_props. repeat constructor.
Defined.

(** ** Termination of the decode loop *)

Lemma DeSerialize_no_fuel b t : DeSerialize b t ≠ Panic OutOfFuel.
Proof.
  unfold DeSerialize. case_bool_decide; [discriminate|]. destruct t as [|m|]; [discriminate| |discriminate].
  apply bind_no_panic.
  - unfold decodeMap. apply decodeMap_loop_fuel; [lia|]. unfold s_len. lia.
  - intros [m' [e|]] _; discriminate.
Qed.
#[export] Hint Resolve DeSerialize_no_fuel : mosn.

Section loop.
  Context {F : Type} `{!DecodeFilter F}.

(** The callbacks of the stream layer return. *)
Definition callbacks_return : Prop :=
  (∀ (f : F) s h, OnDecodeHeader f s h ≠ Panic OutOfFuel) ∧
  (∀ (f : F) s d, OnDecodeData f s d ≠ Panic OutOfFuel) ∧
  (∀ (f : F) e h, OnDecodeError f e h ≠ Panic OutOfFuel).

Lemma deliver_no_fuel (f : F) s h content :
  callbacks_return → deliver f s h content ≠ Panic OutOfFuel.
Proof.
  intros (Hh & Hd & _). unfold deliver. apply bind_no_panic; [apply Hh|]. intros [f' [|]] _; [|discriminate].
  destruct content; [|discriminate]. apply bind_no_panic; [apply Hd|]. intros [? ?] _. discriminate.
Qed.

Lemma all_fields_no_fuel (h cl : option gslice) (k : header_map → string → header_map) :
  (headerMap ← decoded_headers h; className ← decoded_class cl; Ret (k headerMap className)) ≠ Panic OutOfFuel.
Proof.
  apply bind_no_panic; [|intros m _; apply bind_no_panic; [|discriminate]].
  - unfold decoded_headers. apply bind_no_panic; [auto with mosn|]. intros [[? ?] ?] _. discriminate.
  - rewrite decoded_class_ok. discriminate.
Qed.

Lemma HandleCommand_no_fuel p (st : Z * F) m :
  callbacks_return → HandleCommand p st m ≠ Panic OutOfFuel.
Proof.
  intros Hc. unfold HandleCommand. destruct (GetCmdCode m) as [code|]; [|discriminate].
  assert (∀ c, deserializeRequestAllFields c ≠ Panic OutOfFuel) as Hq by (intros; apply all_fields_no_fuel).
  assert (∀ c, deserializeResponseAllFields c ≠ Panic OutOfFuel) as Hr by (intros; apply all_fields_no_fuel).
  assert (∀ c, deserializeRequestAllFieldsV2 c ≠ Panic OutOfFuel) as Hq2
    by (intros; apply bind_no_panic; [apply Hq|discriminate]).
  assert (∀ c, deserializeResponseAllFieldsV2 c ≠ Panic OutOfFuel) as Hr2
    by (intros; apply bind_no_panic; [apply Hr|discriminate]).
  assert (∀ (f : F) s h c n, (f ← deliver f s h c; Ret (n : Z, f)) ≠ Panic OutOfFuel) as Hdl
    by (intros; apply bind_no_panic; [by apply deliver_no_fuel|discriminate]).
  assert (∀ (f : F) s h n, ('(f, _) ← OnDecodeHeader f s h; Ret (n : Z, f)) ≠ Panic OutOfFuel) as Hhd
    by (intros; apply bind_no_panic; [by apply Hc|intros [? ?] _; discriminate]).
  repeat case_bool_decide; try discriminate; (apply bind_no_panic; [|discriminate]);
    destruct p, m; try discriminate; (apply bind_no_panic; [done|intros; by apply Hdl || by apply Hhd]).
Qed.

(** ** Invariants of the filter

    What the three callbacks preserve, the decode loop preserves. *)

Definition filter_preserves (I : F → Prop) : Prop :=
  (∀ f s h f' st, I f → OnDecodeHeader f s h = Ret (f', st) → I f') ∧
  (∀ f s d f' st, I f → OnDecodeData f s d = Ret (f', st) → I f') ∧
  (∀ f e h f', I f → OnDecodeError f e h = Ret f' → I f').

Lemma deliver_preserves (I : F → Prop) f s h content f' :
  filter_preserves I → I f → deliver f s h content = Ret f' → I f'.
Proof.
  intros (Hh & Hd & _) Hf Hr. apply bind_Ret_inv in Hr as ([f1 status] & H1 & Hr).
  apply Hh in H1; [|done]. destruct status, content; try (by injection Hr as <-).
  apply bind_Ret_inv in Hr as ([f2 ?] & H2 & [= <-]). by eapply Hd.
Qed.

Lemma HandleCommand_preserves (I : F → Prop) p (st : Z * F) m st' e :
  filter_preserves I → I st.2 → HandleCommand p st m = Ret (st', e) → I st'.2.
Proof.
  intros HI Hst. pose proof HI as [Hh _]. unfold HandleCommand.
  destruct (GetCmdCode m) as [code|]; [|by intros [= <- _]].
  repeat case_bool_decide; try (by intros [= <- _]); intros Hr; apply bind_Ret_inv in Hr as (st1 & Hr & [= <- _]);
    destruct p, m; try (injection Hr as <-; exact Hst); apply bind_Ret_inv in Hr as (h & _ & Hr);
    apply bind_Ret_inv in Hr as (f & Hf & Hr);
    first [injection Hr as <-; by eapply (deliver_preserves I) | destruct f; injection Hr as <-; by eapply Hh].
Qed.

Lemma protocols_Decode_preserves (I : F → Prop) protos now fuel : filter_preserves I →
  ∀ (st : Z * F) data st' data', I st.2 →
  protocols_Decode protos now fuel st data = Ret (st', data') → I st'.2.
Proof.
  intros HI. assert (∀ f e (n : Z) (d : IoBuffer) r, I f →
    (f ← OnDecodeError f e None; Ret ((n, f), d)) = Ret r → I r.1.2) as He.
  { intros f e n d r Hf Hr. apply bind_Ret_inv in Hr as (f' & Hr & [= <-]). by eapply HI. }
  induction fuel as [|fuel IH]; intros st data st' data' Hst; [discriminate|]. cbn [protocols_Decode].
  case_bool_decide; [|by intros [= <- _]]. intros Hr.
  do 3 (apply bind_Ret_inv in Hr as (? & _ & Hr)).
  destruct (protos !! _); [|by apply He in Hr].
  apply bind_Ret_inv in Hr as ([[d1 m] e] & _ & Hr).
  assert (∀ m, ('(st, err) ← HandleCommand p st m;
     match err with
     | Some e => f ← OnDecodeError st.2 e None; Ret ((st.1, f), d1)
     | None => protocols_Decode protos now fuel st d1
     end) = Ret (st', data') → I st'.2) as Hc.
  { intros m' Hr'. apply bind_Ret_inv in Hr' as ([st1 err] & Hh & Hr'). apply HandleCommand_preserves with (I := I) in Hh; [|done..].
    destruct err; [by apply He in Hr'|by eapply IH]. }
  destruct m, e; try (by apply He in Hr); try (by injection Hr as <- _); by eapply Hc.
Qed.

(** A decoder that returns a command shortens the buffer. *)
Lemma v1_Decode_progress now data data' m e :
  wf data → v1_Decode now data = Ret (data', m, e) →
  (m = MNil ∧ data' = data) ∨ (e = None ∧ wf data' ∧ 0 ≤ Len data' < Len data).
Proof.
  intros Hwf Hd. pose proof (v1_Decode_outcome now data Hwf) as Ho. rewrite Hd in Ho.
  pose proof (λ lo hi, fld_range (contents data) lo hi) as Hfr.
  assert (∀ h cl hl tl mk data1, 0 < h → 0 ≤ cl → 0 ≤ hl → 0 ≤ tl → data1 = Drain data (h + cl + hl + tl) →
    decoded data h cl hl tl mk data1 (Ret (data', m, e)) →
    (m = MNil ∧ data' = data) ∨ (e = None ∧ wf data' ∧ 0 ≤ Len data' < Len data)) as Hdr.
  { intros h cl hl tl mk data1 ? ? ? ? -> Hdec.
    inversion Hdec; subst; [right|by left]. split; [done|].
    destruct (Drain_ok data (h + cl + hl + tl) Hwf) as [Hw Hc]; [lia|]. split; [done|].
    pose proof (length_contents data Hwf). rewrite <- (length_contents (Drain _ _) Hw), Hc, length_drop. lia. }
  destruct Ho as [[_ [= -> -> _]]|[(_ & _ & [[_ [= -> -> _]]|[_ Hdec]])|[(_ & _ & Hdec)|(_ & _ & [= -> -> _])]]];
    try (by left); (eapply Hdr; [..|exact Hdec]; done || apply Hfr; lia).
Qed.

Lemma protocols_Decode_fuel protos now : callbacks_return →
  (∀ code p, protos !! code = Some p → p = BoltV1) →
  ∀ fuel (st : Z * F) data, wf data → Len data < Z.of_nat fuel →
  protocols_Decode protos now fuel st data ≠ Panic OutOfFuel.
Proof.
  intros Hc Hv1.
  assert (∀ (f : F) e (n : Z) (d : IoBuffer), (f ← OnDecodeError f e None; Ret ((n, f), d)) ≠ Panic OutOfFuel) as He
    by (intros; apply bind_no_panic; [apply Hc|discriminate]).
  induction fuel as [|fuel IH]; intros st data Hwf Hf.
  { destruct Hwf. unfold Len in *. lia. }
  cbn [protocols_Decode]. case_bool_decide as Hlen; [|discriminate].
  destruct (BytesSlice_ok data Hwf) as [ex ->]. rewrite bind_Ret. pose proof (length_contents data Hwf).
  rewrite !byte_at_fld, !bind_Ret by lia.
  destruct (protos !! _) as [p|] eqn:Hp; [|apply He]. apply Hv1 in Hp as ->. cbn [proto_Decode].
  apply bind_no_panic.
  { destruct (v1_Decode now data) as [|] eqn:E; [discriminate|].
    pose proof (v1_Decode_outcome now data Hwf) as Ho. rewrite E in Ho.
    destruct Ho as [[_ ?]|[(_ & _ & [[_ ?]|[_ Hdec]])|[(_ & _ & Hdec)|(_ & _ & ?)]]];
      try discriminate; inversion Hdec. }
  intros [[data' m] e] Hd.
  destruct (v1_Decode_progress _ _ _ _ _ Hwf Hd) as [[-> ->]|(-> & Hw' & Hl)]; [destruct e; [apply He|discriminate]|].
  destruct m; try discriminate; (apply bind_no_panic; [by apply HandleCommand_no_fuel|]);
    (intros [st' [e'|]] _; [apply He|apply IH; [done|lia]]).
Qed.

(** With only version 1 registered the decode loop terminates on every
    buffer: every iteration that goes on has consumed a frame. *)
Theorem dispatch_v1_terminates protos now (st : Z * F) data :
  callbacks_return → (∀ code p, protos !! code = Some p → p = BoltV1) → wf data →
  protocols_Decode protos now (S (Z.to_nat (Len data))) st data ≠ Panic OutOfFuel.
Proof.
  intros Hc Hv1 Hwf. apply protocols_Decode_fuel; [done..|]. destruct Hwf. unfold Len in *. lia.
Qed.

(** Callbacks that do not panic. *)
Definition callbacks_fine : Prop :=
  (∀ (f : F) s h, ∃ r, OnDecodeHeader f s h = Ret r) ∧ (∀ (f : F) s d, ∃ r, OnDecodeData f s d = Ret r).

Lemma deliver_fine (f : F) s h content : callbacks_fine → ∃ f', deliver f s h content = Ret f'.
Proof.
  intros [Hh Hd]. unfold deliver.
  destruct (Hh f s (match content with None => <[HeaderStremEnd := "yes"%string]> h | Some _ => h end))
    as [[f' status] ->].
  rewrite bind_Ret. destruct status, content as [d|]; eauto.
  destruct (Hd f' s d) as [[f'' ?] ->]. rewrite bind_Ret. eauto.
Qed.

(** A version 2 response is not consumed, so the loop starts over with the
    same buffer. *)
Lemma dispatch_v2_response_step now data c h (st : Z * F) fuel :
  callbacks_fine → wf data → v2_Decode now data = Ret (data, MResp2 c, None) →
  fld (contents data) 0 1 = PROTOCOL_CODE_V2 → rs_CmdCode (rs2_base c) = RPC_RESPONSE →
  deserializeResponseAllFieldsV2 c = Ret h →
  ∃ st', protocols_Decode default_protocols now (S fuel) st data =
         protocols_Decode default_protocols now fuel st' data.
Proof.
  intros Hf Hwf Hdec Hp Hcode Hser. cbn [protocols_Decode].
  pose proof (v2_Decode_outcome now data Hwf) as Ho. rewrite Hdec in Ho.
  assert (22 ≤ Len data) as Hl.
  { destruct Ho as [[? Hr]|[(? & ? & _)|[(? & ? & _)|(? & ? & Hr)]]]; try discriminate; unfold LESS_LEN_V2 in *; lia. }
  rewrite bool_decide_true by lia.
  destruct (BytesSlice_ok data Hwf) as [ex ->]. rewrite bind_Ret. pose proof (length_contents data Hwf).
  rewrite !byte_at_fld, !bind_Ret by lia. change (0 + 1) with 1. rewrite Hp.
  change (default_protocols !! PROTOCOL_CODE_V2) with (Some BoltV2). cbn [proto_Decode]. rewrite Hdec, bind_Ret.
  unfold HandleCommand. cbn [GetCmdCode]. rewrite Hcode. unfold BoltResponseProcessorV2_Process. rewrite Hser, bind_Ret.
  destruct (deliver_fine st.2 (StreamIDConv (rs_ReqID (rs2_base c))) h (rs_Content (rs2_base c)) Hf) as [f' ->].
  exists (st.1, f'). reflexivity.
Qed.

(** The decode loop never leaves a version 2 response: whenever the buffer
    starts with a complete version 2 response whose headers can be read, no
    number of iterations is enough, whatever the stream layer does with the
    response. *)
Theorem dispatch_v2_response_diverges now data data' c h e (st : Z * F) fuel :
  callbacks_fine → wf data → v2_Decode now data = Ret (data', MResp2 c, e) →
  fld (contents data) 0 1 = PROTOCOL_CODE_V2 → rs_CmdCode (rs2_base c) = RPC_RESPONSE →
  deserializeResponseAllFieldsV2 c = Ret h →
  protocols_Decode default_protocols now fuel st data = Panic OutOfFuel.
Proof.
  intros Hf Hwf Hdec Hp Hcode Hser.
  assert (e = None) as ->.
  { pose proof (v2_Decode_outcome now data Hwf) as Ho. rewrite Hdec in Ho.
    destruct Ho as [[? Hr]|[(? & ? & [[? Hr]|[? Hd]])|[(? & ? & Hd)|(? & ? & Hr)]]]; try discriminate Hr;
      by inversion Hd. }
  rewrite (v2_response_not_drained now data data' c None Hwf Hdec) in Hdec.
  revert st. induction fuel as [|fuel IH]; intros st; [done|].
  destruct (dispatch_v2_response_step now data c h st fuel Hf Hwf Hdec Hp Hcode Hser) as [st' ->]. apply IH.
Qed.
End loop.

(** ** A filter that records what it is given *)

Inductive record := RHeader (id : string) (h : header_map) | RData (id : string) (d : bytes) | RError (e : string).

#[export] Instance recorder : DecodeFilter (list record) := {
  OnDecodeHeader f s h := Ret (f ++ [RHeader s h], Continue);
  OnDecodeData f s d := Ret (f ++ [RData s (s_data d)], StopIteration);
  OnDecodeError f e _ := Ret (f ++ [RError e]);
}.

Lemma recorder_returns : callbacks_return (F := list record).
Proof. split_and!; discriminate. Qed.
Lemma recorder_fine : callbacks_fine (F := list record).
Proof. split; intros; eexists; reflexivity. Qed.

(** Only version 1. *)
Definition v1_only : gmap Z protocol := RegisterProtocol ∅ PROTOCOL_CODE_V1 BoltV1.

Lemma dispatch_v1_terminates_witness :
  protocols_Decode v1_only 0 4 (0, [] : list record) (NewIoBufferString "abc") ≠ Panic OutOfFuel.
Proof.
  refine (dispatch_v1_terminates v1_only 0 (0, [] : list record) (NewIoBufferString "abc") recorder_returns _ _).
  - intros code p. unfold v1_only, RegisterProtocol. rewrite lookup_empty, lookup_insert_Some.
    intros [[_ <-]|[_ Hl]]; [done|]. by rewrite lookup_empty in Hl.
  - split; [vm_compute; split; discriminate|discriminate].
Defined.

Lemma dispatch_v2_response_diverges_witness :
  protocols_Decode default_protocols 0 100 (0, [] : list record) v2_response_buffer = Panic OutOfFuel.
Proof.
  eapply (dispatch_v2_response_diverges 0 v2_response_buffer v2_response_buffer v2_response_cmd _ None);
    [exact recorder_fine| |vm_compute; reflexivity..].
  split; [vm_compute; split; discriminate|discriminate].
Defined.
