(* ===== verification/Stream.v ===== *)
(** * The stream layer of SofaRPC: pkg/stream/sofarpc

    [streamConnection] multiplexes streams over one connection: it is the
    [DecodeFilter] of the decode loop, keeps the map of active streams and
    writes what the senders encode.

    Receivers ([types.StreamReceiver], the decoder of a stream), listeners and
    the network connection belong to other layers; what they are told is the
    trace of the connection, and what they do in turn are later operations.
    [Set] stores a copy of the stream struct in the map while [NewStream] hands
    out a pointer to the original, so the map and the heap of senders are kept
    apart, as in the code. *)

From S2P Require Import Prelude Strconv IoBuffer Serialize BoltTypes BoltCodec Protocols.

Local Open Scope string_scope.
Local Open Scope Z_scope.

(* pkg/types/exception.go *)
Definition HeaderStatus := "x-mosn-status".
Definition HeaderStreamID := "x-mosn-streamid".
Definition HeaderGlobalTimeout := "x-mosn-global-timeout".
Definition HeaderTryTimeout := "x-mosn-try-timeout".
Definition CodecExceptionCode : Z := 0.
Definition DeserialExceptionCode : Z := 3.
Definition SuccessCode : Z := 200.
Definition RouterUnavailableCode : Z := 404.
Definition NoHealthUpstreamCode : Z := 500.
Definition UpstreamOverFlowCode : Z := 503.
Definition TimeoutExceptionCode : Z := 504.

Inductive StreamDirection := ClientStream | ServerStream.
#[export] Instance StreamDirection_eq_dec : EqDecision StreamDirection.
Proof. solve_decision. Defined.

Section stream.
  Context {D : Type}.

Record stream := mk_stream {
  st_streamID : string; st_requestID : string; st_direction : StreamDirection;
  st_decoder : option D; st_streamCbs : list nat;
  st_encodedHeaders : option IoBuffer; st_encodedData : option IoBuffer;
}.

(** What the connection tells its surroundings. *)
Inductive event :=
  | ENewStream (streamID : string) (sender : nat)
  | EReceiveHeaders (d : D) (h : header_map) (endStream : bool)
  | EReceiveData (d : D) (data : gslice) (endStream : bool)
  | EDecodeError (d : D) (err : string) (h : header_map)
  | EClose
  | EWrite (buffers : list IoBuffer)
  | EResetStream (cb : nat) (reason : string)
  | ESetReadDisable (disable : bool).

Record streamConnection := mk_conn {
  activeStreams : gmap string stream;
  heap : list stream;
  trace : list event;
}.

Definition newStreamConnection : streamConnection := mk_conn ∅ [] [].

(** ** The map of active streams *)

Definition streamMap_Has (c : streamConnection) (streamID : string) : bool :=
  match activeStreams c !! streamID with Some _ => true | None => false end.
Definition streamMap_Get (c : streamConnection) (streamID : string) : option stream :=
  activeStreams c !! streamID.
Definition streamMap_Set (c : streamConnection) (streamID : string) (s : stream) : streamConnection :=
  mk_conn (<[streamID := s]> (activeStreams c)) (heap c) (trace c).
Definition streamMap_Remove (c : streamConnection) (streamID : string) : streamConnection :=
  mk_conn (delete streamID (activeStreams c)) (heap c) (trace c).

Definition alloc (c : streamConnection) (s : stream) : streamConnection * nat :=
  (mk_conn (activeStreams c) (heap c ++ [s]) (trace c), length (heap c)).
Definition emit (c : streamConnection) (e : event) : streamConnection :=
  mk_conn (activeStreams c) (heap c) (trace c ++ [e]).
Definition store (c : streamConnection) (p : nat) (s : stream) : streamConnection :=
  mk_conn (activeStreams c) (<[p := s]> (heap c)) (trace c).

(** ** Headers between the layers (streamhelper.go) *)

(** The headers a stream passes on, and whether they end it. *)
Definition decodeSterilize (streamID : string) (headers : header_map) : header_map * bool :=
  let headers := <[HeaderStreamID := streamID]> headers in
  let headers := match headers !! SofaPropertyHeader HeaderTimeout with
                 | Some v => <[HeaderTryTimeout := v]> headers
                 | None => headers
                 end in
  let heartbeat := match headers !! SofaPropertyHeader HeaderCmdCode with
                   | Some cmdCodeStr => bool_decide (ConvertPropertyValue cmdCodeStr KInt16 = PInt16 HEARTBEAT)
                   | None => false
                   end in
  if heartbeat then (headers, true)
  else (headers, match headers !! HeaderStremEnd with Some _ => true | None => false end).

Definition status_response (statusCode : Z) : Z :=
  if bool_decide (statusCode = RouterUnavailableCode) || bool_decide (statusCode = NoHealthUpstreamCode) ||
     bool_decide (statusCode = UpstreamOverFlowCode) then RESPONSE_STATUS_CLIENT_SEND_ERROR
  else if bool_decide (statusCode = CodecExceptionCode) then RESPONSE_STATUS_CODEC_EXCEPTION
  else if bool_decide (statusCode = DeserialExceptionCode) then RESPONSE_STATUS_SERVER_DESERIAL_EXCEPTION
  else if bool_decide (statusCode = TimeoutExceptionCode) then RESPONSE_STATUS_TIMEOUT
  else RESPONSE_STATUS_UNKNOWN.

(** What is handed to the codec for the headers of a sender. *)
Definition encodeSterilize (s : stream) (headers : msg) : msg :=
  match headers with
  | MMap headerMaps =>
    let headerMaps := match st_direction s with
                      | ServerStream => <[SofaPropertyHeader HeaderReqID := st_requestID s]> headerMaps
                      | ClientStream => headerMaps
                      end in
    let headerMaps := delete HeaderStremEnd (delete HeaderTryTimeout
                        (delete HeaderGlobalTimeout (delete HeaderStreamID headerMaps))) in
    match headerMaps !! HeaderStatus with
    | Some status =>
      let headerMaps := delete HeaderStatus headerMaps in
      let statusCode := Atoi status in
      if bool_decide (statusCode = SuccessCode) then MMap headerMaps
      else match BuildSofaRespMsg headerMaps (status_response statusCode) with
           | (respHeaders, None) => respHeaders
           | (_, Some _) => MMap headerMaps
           end
    | None => MMap headerMaps
    end
  | _ => headers
  end.

(** ** Decoding: the connection as a filter *)

Definition call_decoder (s : stream) : Go D :=
  match st_decoder s with Some d => Ret d | None => Panic NilDeref end.

(** Client streams go away when the response was read. *)
Definition remove_client (c : streamConnection) (s : stream) : streamConnection :=
  match st_direction s with ClientStream => streamMap_Remove c (st_streamID s) | ServerStream => c end.

(** A stream of the client side: a request to send, a response to wait for. *)
Definition NewStream (c : streamConnection) (streamID : string) (responseDecoder : option D)
  : streamConnection * nat :=
  let s := mk_stream streamID streamID ClientStream responseDecoder [] None None in
  let c := streamMap_Set c streamID s in
  alloc c s.

(** The callbacks of the server side: [NewStream] returns the decoder. *)
Context (serverCallbacks : option (string → nat → option D)).

(** The header map is changed in place. *)
Definition onNewStreamDetected (c : streamConnection) (streamID : string) (headers : header_map)
  : Go (streamConnection * header_map) :=
  if streamMap_Has c streamID then Ret (c, headers)
  else
  let requestID := match headers !! SofaPropertyHeader HeaderReqID with Some v => v | None => streamID end in
  let headers := <[SofaPropertyHeader HeaderReqID := streamID]> headers in
  match serverCallbacks with
  | None => Panic NilDeref
  | Some server_NewStream =>
    let p := length (heap c) in
    let s := mk_stream streamID requestID ServerStream (server_NewStream streamID p) [] None None in
    let '(c, p) := alloc (emit c (ENewStream streamID p)) s in
    Ret (streamMap_Set c streamID s, headers)
  end.

Definition conn_OnDecodeHeader (c : streamConnection) (streamID : string) (headers : header_map)
  : Go (streamConnection * FilterStatus) :=
  '(c, headers) ← (if IsSofaRequest headers then onNewStreamDetected c streamID headers else Ret (c, headers));
  let '(headers, endStream) := decodeSterilize streamID headers in
  match streamMap_Get c streamID with
  | Some s =>
    d ← call_decoder s;
    let c := emit c (EReceiveHeaders d headers endStream) in
    Ret (c, if endStream then StopIteration else Continue)
  | None => Ret (c, Continue)
  end.

Definition conn_OnDecodeData (c : streamConnection) (streamID : string) (data : gslice)
  : Go (streamConnection * FilterStatus) :=
  match streamMap_Get c streamID with
  | Some s =>
    d ← call_decoder s;
    let c := emit c (EReceiveData d data true) in
    Ret (remove_client c s, StopIteration)
  | None => Ret (c, StopIteration)
  end.

(** The error is never nil; a nil header map has no request id. *)
Definition conn_OnDecodeError (c : streamConnection) (err : string) (header : option header_map)
  : Go streamConnection :=
  if bool_decide (err = UnSupportedProCode) || bool_decide (err = UnKnownCmdcode) ||
     bool_decide (err = UnKnownReqtype) then Ret (emit c EClose)
  else if bool_decide (err = CodecException) then
    let header := default ∅ header in
    match header !! SofaPropertyHeader HeaderReqID with
    | Some v =>
      '(c, header) ← onNewStreamDetected c v header;
      match streamMap_Get c v with
      | Some s =>
        d ← call_decoder s;
        Ret (remove_client (emit c (EDecodeError d err header)) s)
      | None => Ret c
      end
    | None => Ret (emit c EClose)
    end
  else Ret c.

#[local] Instance conn_filter : DecodeFilter streamConnection := {
  OnDecodeHeader := conn_OnDecodeHeader;
  OnDecodeData := conn_OnDecodeData;
  OnDecodeError := conn_OnDecodeError;
}.

(** ** Encoding: the senders *)

Context (protos : gmap Z protocol) (now : Z) (range_order : header_map → list (string * string))
        (pool : option (Z → option IoBuffer)).

(** The buffer goes back to the pool afterwards, which only the pool sees. *)
Definition endStream (c : streamConnection) (p : nat) : streamConnection :=
  match heap c !! p with
  | None => c
  | Some s =>
    let c := match st_encodedHeaders s with
             | Some eh =>
               match streamMap_Get c (st_streamID s) with
               | Some _ =>
                 match st_encodedData s with
                 | Some ed => emit c (EWrite [eh; ed])
                 | None => emit c (EWrite [eh])
                 end
               | None => c
               end
             | None => c
             end in
    match st_direction s with
    | ServerStream => streamMap_Remove c (st_streamID s)
    | ClientStream => c
    end
  end.

Definition set_encodedHeaders (s : stream) (b : option IoBuffer) : stream :=
  mk_stream (st_streamID s) (st_requestID s) (st_direction s) (st_decoder s) (st_streamCbs s) b (st_encodedData s).
Definition set_encodedData (s : stream) (b : option IoBuffer) : stream :=
  mk_stream (st_streamID s) (st_requestID s) (st_direction s) (st_decoder s) (st_streamCbs s) (st_encodedHeaders s) b.
Definition set_streamCbs (s : stream) (l : list nat) : stream :=
  mk_stream (st_streamID s) (st_requestID s) (st_direction s) (st_decoder s) l (st_encodedHeaders s) (st_encodedData s).

(** A pointer that no sender has is nil. *)
Definition deref (c : streamConnection) (p : nat) : Go stream :=
  match heap c !! p with Some s => Ret s | None => Panic NilDeref end.

Definition AppendHeaders (c : streamConnection) (p : nat) (headers : msg) (end_stream : bool)
  : Go (streamConnection * option string) :=
  s ← deref c p;
  r ← protocols_EncodeHeaders protos range_order pool (encodeSterilize s headers);
  match r with
  | inr err => Ret (store c p (set_encodedHeaders s None), Some err)
  | inl b =>
    let c := store c p (set_encodedHeaders s (Some b)) in
    Ret (if end_stream then endStream c p else c, None)
  end.

Definition AppendData (c : streamConnection) (p : nat) (data : option IoBuffer) (end_stream : bool)
  : Go streamConnection :=
  s ← deref c p;
  let c := store c p (set_encodedData s data) in
  Ret (if end_stream then endStream c p else c).

Definition AppendTrailers (c : streamConnection) (p : nat) : Go streamConnection :=
  _ ← deref c p; Ret (endStream c p).

(** ** Listeners *)

Definition AddEventListener (c : streamConnection) (p : nat) (cb : nat) : Go streamConnection :=
  s ← deref c p; Ret (store c p (set_streamCbs s (st_streamCbs s ++ [cb]))).

Fixpoint remove_first (cb : nat) (l : list nat) : list nat :=
  match l with
  | [] => []
  | x :: l => if bool_decide (x = cb) then l else x :: remove_first cb l
  end.

Definition RemoveEventListener (c : streamConnection) (p : nat) (cb : nat) : Go streamConnection :=
  s ← deref c p; Ret (store c p (set_streamCbs s (remove_first cb (st_streamCbs s)))).

Definition ResetStream (c : streamConnection) (p : nat) (reason : string) : Go streamConnection :=
  s ← deref c p;
  Ret (foldl (λ c cb, emit c (EResetStream cb reason)) c (st_streamCbs s)).

Definition ReadDisable (c : streamConnection) (disable : bool) : streamConnection :=
  emit c (ESetReadDisable disable).

(** ** The connection as a whole

    Its state and the id counter; the read buffer is drained by [Dispatch]. *)

Definition Dispatch (st : Z * streamConnection) (buffer : IoBuffer) : Go ((Z * streamConnection) * IoBuffer) :=
  protocols_Decode protos now (S (Z.to_nat (Len buffer))) st buffer.

Inductive op :=
  | ODispatch (buffer : IoBuffer)
  | ONewStream (streamID : string) (d : option D)
  | OAppendHeaders (p : nat) (headers : msg) (e : bool)
  | OAppendData (p : nat) (data : option IoBuffer) (e : bool)
  | OAppendTrailers (p : nat)
  | OAddEventListener (p : nat) (cb : nat)
  | ORemoveEventListener (p : nat) (cb : nat)
  | OResetStream (p : nat) (reason : string)
  | OReadDisable (disable : bool).

Definition step (st : Z * streamConnection) (o : op) : Go (Z * streamConnection) :=
  match o with
  | ODispatch b => '(st, _) ← Dispatch st b; Ret st
  | ONewStream id d => Ret (st.1, (NewStream st.2 id d).1)
  | OAppendHeaders p h e => '(c, _) ← AppendHeaders st.2 p h e; Ret (st.1, c)
  | OAppendData p d e => c ← AppendData st.2 p d e; Ret (st.1, c)
  | OAppendTrailers p => c ← AppendTrailers st.2 p; Ret (st.1, c)
  | OAddEventListener p cb => c ← AddEventListener st.2 p cb; Ret (st.1, c)
  | ORemoveEventListener p cb => c ← RemoveEventListener st.2 p cb; Ret (st.1, c)
  | OResetStream p r => c ← ResetStream st.2 p r; Ret (st.1, c)
  | OReadDisable b => Ret (st.1, ReadDisable st.2 b)
  end.

Fixpoint run (st : Z * streamConnection) (ops : list op) : Go (Z * streamConnection) :=
  match ops with
  | [] => Ret st
  | o :: ops => st ← step st o; run st ops
  end.

End stream.

Arguments stream : clear implicits.
Arguments event : clear implicits.
Arguments streamConnection : clear implicits.
Arguments op : clear implicits.
