(* ===== verification/StreamProps.v ===== *)
(** * Correctness of the stream layer

    The map of active streams stays consistent under every sequence of
    operations; requests and responses keep their identity across the proxy:
    the id a client chose comes back to it, and a response from upstream goes
    to the receiver of the request it answers, in whichever order responses
    arrive. *)

From S2P Require Import Prelude Strconv IoBuffer Serialize BoltTypes BoltCodec BoltProps Protocols ProtocolsProps Stream.

Local Open Scope Z_scope.

(** ** The invariant of the active streams *)

Section invariant.
  Context {D : Type}.

(** An entry of the map has the key it is stored under and nothing encoded; a
    server stream has a sender with the same identity, through which it can be
    answered; a client stream waits for its own id. *)
Record entry_ok (hp : list (stream D)) (id : string) (s : stream D) : Prop := {
  eo_id : st_streamID s = id;
  eo_blank : st_encodedHeaders s = None ∧ st_encodedData s = None;
  eo_sender : ∃ p s', hp !! p = Some s' ∧ st_streamID s' = id ∧ st_requestID s' = st_requestID s ∧
                st_direction s' = st_direction s ∧ st_decoder s' = st_decoder s;
  eo_client : st_direction s = ClientStream → st_requestID s = id;
}.

Definition conn_ok (c : streamConnection D) : Prop :=
  map_Forall (entry_ok (heap c)) (activeStreams c).

(** Heaps only grow and senders keep who they are. *)
Definition heap_le (h1 h2 : list (stream D)) : Prop :=
  ∀ p s, h1 !! p = Some s → ∃ s', h2 !! p = Some s' ∧ st_streamID s' = st_streamID s ∧
    st_requestID s' = st_requestID s ∧ st_direction s' = st_direction s ∧ st_decoder s' = st_decoder s.

Lemma heap_le_refl h : heap_le h h.
Proof. intros p s ?. eauto 10. Qed.

Lemma heap_le_app h l : heap_le h (h ++ l).
Proof. intros p s Hp. exists s. split_and!; try done. by apply lookup_app_l_Some. Qed.

Lemma entry_ok_le h1 h2 id s : heap_le h1 h2 → entry_ok h1 id s → entry_ok h2 id s.
Proof.
  intros Hle [H1 H2 (p & s' & Hp & E1 & E2 & E3 & E4) H4]. split; try done.
  destruct (Hle p s' Hp) as (s'' & ? & ? & ? & ? & ?). exists p, s''. split_and!; congruence.
Qed.

Lemma conn_ok_le (c c' : streamConnection D) :
  conn_ok c → heap_le (heap c) (heap c') → activeStreams c' ⊆ activeStreams c → conn_ok c'.
Proof.
  intros Hc Hh Hs id s Hl. apply (entry_ok_le (heap c)); [done|]. apply Hc. by eapply lookup_weaken.
Qed.

Lemma conn_ok_emit (c : streamConnection D) e : conn_ok c → conn_ok (emit c e).
Proof. intros. eapply conn_ok_le; [done|apply heap_le_refl|done]. Qed.

Lemma conn_ok_remove (c : streamConnection D) id : conn_ok c → conn_ok (streamMap_Remove c id).
Proof. intros. eapply conn_ok_le; [done|apply heap_le_refl|apply delete_subseteq]. Qed.

Lemma conn_ok_remove_client (c : streamConnection D) s : conn_ok c → conn_ok (remove_client c s).
Proof. intros. unfold remove_client. destruct (st_direction s); [by apply conn_ok_remove|done]. Qed.

(** A sender may be overwritten by one with the same identity. *)
Lemma heap_le_store (c : streamConnection D) p s s' :
  heap c !! p = Some s → st_streamID s' = st_streamID s → st_requestID s' = st_requestID s →
  st_direction s' = st_direction s → st_decoder s' = st_decoder s → heap_le (heap c) (heap (store c p s')).
Proof.
  intros Hp E1 E2 E3 E4 q t Hq. simpl. destruct (decide (q = p)) as [->|].
  - exists s'. rewrite list_lookup_insert_eq by (by eapply lookup_lt_Some). simplify_eq. done.
  - exists t. by rewrite list_lookup_insert_ne.
Qed.

Lemma conn_ok_store (c : streamConnection D) p s s' :
  conn_ok c → heap c !! p = Some s → st_streamID s' = st_streamID s → st_requestID s' = st_requestID s →
  st_direction s' = st_direction s → st_decoder s' = st_decoder s → conn_ok (store c p s').
Proof.
  intros. eapply conn_ok_le; [done|by eapply heap_le_store|done].
Qed.

(** A new stream: its sender and its entry in the map. *)
Lemma conn_ok_new (c : streamConnection D) evs id reqID dir d :
  conn_ok c → (dir = ClientStream → reqID = id) →
  let s := mk_stream id reqID dir d [] None None in
  conn_ok (mk_conn (<[id := s]> (activeStreams c)) (heap c ++ [s]) evs).
Proof.
  intros Hc Hdir s. unfold conn_ok. cbn [heap activeStreams]. apply map_Forall_insert_2.
  - split; try done. exists (length (heap c)), s. split_and!; try done. by apply list_lookup_middle.
  - eapply map_Forall_impl; [exact Hc|]. intros k t. apply entry_ok_le, heap_le_app.
Qed.

Lemma conn_ok_endStream (c : streamConnection D) p : conn_ok c → conn_ok (endStream c p).
Proof.
  intros Hc. unfold endStream. destruct (heap c !! p) as [s|]; [|done].
  destruct (st_encodedHeaders s), (streamMap_Get c (st_streamID s)), (st_encodedData s), (st_direction s);
    try apply conn_ok_remove; try apply conn_ok_emit; exact Hc.
Qed.

Lemma conn_ok_listeners (c : streamConnection D) l reason :
  conn_ok c → conn_ok (foldl (λ c cb, emit c (EResetStream cb reason)) c l).
Proof. revert c. induction l as [|x l IH]; intros c Hc; [done|]. by apply IH, conn_ok_emit. Qed.

Context (serverCallbacks : option (string → nat → option D)).

Lemma conn_ok_detected (c : streamConnection D) id h c' h' :
  conn_ok c → onNewStreamDetected serverCallbacks c id h = Ret (c', h') → conn_ok c'.
Proof.
  intros Hc. unfold onNewStreamDetected. destruct (streamMap_Has c id); [by intros [= <- _]|].
  destruct serverCallbacks as [new|]; [|discriminate]. cbn. intros [= <- _]. by apply (conn_ok_new c).
Qed.

(** What the callbacks of the connection preserve. *)
Lemma conn_ok_callbacks :
  filter_preserves (DecodeFilter0 := conn_filter serverCallbacks) conn_ok.
Proof.
  split_and!.
  - intros c id h c' st Hc Hr. apply bind_Ret_inv in Hr as ([c1 h1] & H1 & Hr).
    assert (conn_ok c1) by (destruct (IsSofaRequest h); [by eapply conn_ok_detected|by injection H1 as <- _]).
    destruct (decodeSterilize id h1) as [h2 e]. destruct (streamMap_Get c1 id); [|by injection Hr as <- _].
    apply bind_Ret_inv in Hr as (d & _ & [= <- _]). by apply conn_ok_emit.
  - intros c id h c' st Hc. simpl. unfold conn_OnDecodeData. destruct (streamMap_Get c id); [|by intros [= <- _]].
    intros Hr. apply bind_Ret_inv in Hr as (d & _ & [= <- _]). by apply conn_ok_remove_client, conn_ok_emit.
  - intros c e h c' Hc. simpl. unfold conn_OnDecodeError.
    destruct (_ || _); [intros [= <-]; by apply conn_ok_emit|].
    case_bool_decide; [|by intros [= <-]]. cbv zeta.
    destruct (default ∅ h !! _) as [v|]; [|intros [= <-]; by apply conn_ok_emit]. intros Hr.
    apply bind_Ret_inv in Hr as ([c1 h1] & H1 & Hr). apply (conn_ok_detected _ _ _ _ _ Hc) in H1.
    destruct (streamMap_Get c1 _); [|by injection Hr as <-].
    apply bind_Ret_inv in Hr as (d & _ & [= <-]). by apply conn_ok_remove_client, conn_ok_emit.
Qed.

Context (protos : gmap Z protocol) (now : Z) (range_order : header_map → list (string * string))
        (pool : option (Z → option IoBuffer)).

Lemma deref_Ret (c : streamConnection D) p s : deref c p = Ret s → heap c !! p = Some s.
Proof. unfold deref. by destruct (heap c !! p); intros [=->]. Qed.

Lemma conn_ok_step st o st' :
  conn_ok st.2 → step serverCallbacks protos now range_order pool st o = Ret st' → conn_ok st'.2.
Proof.
  intros Hc. destruct o as [b|id d|p h e|p d e|p|p cb|p cb|p r|b]; unfold step; intros Hr.
  - apply bind_Ret_inv in Hr as ([st1 b1] & Hr & [= <-]).
    eapply (protocols_Decode_preserves (DecodeFilter0 := conn_filter serverCallbacks) conn_ok);
      [exact conn_ok_callbacks|exact Hc|exact Hr].
  - injection Hr as <-. by apply (conn_ok_new st.2).
  - apply bind_Ret_inv in Hr as ([c1 err] & Hr & [= <-]). apply bind_Ret_inv in Hr as (s & Hs%deref_Ret & Hr).
    apply bind_Ret_inv in Hr as ([b|er] & _ & Hr); injection Hr as <- _.
    + destruct e; [apply conn_ok_endStream|]; by eapply conn_ok_store.
    + by eapply conn_ok_store.
  - apply bind_Ret_inv in Hr as (c1 & Hr & [= <-]). apply bind_Ret_inv in Hr as (s & Hs%deref_Ret & [= <-]).
    destruct e; [apply conn_ok_endStream|]; by eapply conn_ok_store.
  - apply bind_Ret_inv in Hr as (c1 & Hr & [= <-]). apply bind_Ret_inv in Hr as (s & _ & [= <-]).
    by apply conn_ok_endStream.
  - apply bind_Ret_inv in Hr as (c1 & Hr & [= <-]). apply bind_Ret_inv in Hr as (s & Hs%deref_Ret & [= <-]).
    by eapply conn_ok_store.
  - apply bind_Ret_inv in Hr as (c1 & Hr & [= <-]). apply bind_Ret_inv in Hr as (s & Hs%deref_Ret & [= <-]).
    by eapply conn_ok_store.
  - apply bind_Ret_inv in Hr as (c1 & Hr & [= <-]). apply bind_Ret_inv in Hr as (s & Hs%deref_Ret & [= <-]).
    by apply conn_ok_listeners.
  - injection Hr as <-. by apply conn_ok_emit.
Qed.

(** Senders keep who they are along a run. *)
Lemma heap_le_trans h1 h2 h3 : heap_le h1 h2 → heap_le h2 h3 → heap_le h1 h3.
Proof.
  intros H1 H2 p s Hp. destruct (H1 p s Hp) as (s1 & Hp1 & ? & ? & ? & ?).
  destruct (H2 p s1 Hp1) as (s2 & ? & ? & ? & ? & ?). exists s2. split_and!; congruence.
Qed.

Lemma heap_endStream (c : streamConnection D) p : heap (endStream c p) = heap c.
Proof.
  unfold endStream. destruct (heap c !! p) as [s|]; [|done].
  by destruct (st_encodedHeaders s), (streamMap_Get c (st_streamID s)), (st_encodedData s), (st_direction s).
Qed.

Lemma heap_listeners (c : streamConnection D) l reason :
  heap (foldl (λ c cb, emit c (EResetStream cb reason)) c l) = heap c.
Proof. revert c. induction l as [|x l IH]; intros c; [done|]. exact (IH (emit c _)). Qed.

Lemma heap_remove_client (c : streamConnection D) s : heap (remove_client c s) = heap c.
Proof. unfold remove_client. by destruct (st_direction s). Qed.

Lemma heap_le_detected (c : streamConnection D) id h c' h' :
  onNewStreamDetected serverCallbacks c id h = Ret (c', h') → heap_le (heap c) (heap c').
Proof.
  unfold onNewStreamDetected. destruct (streamMap_Has c id); [intros [= <- _]; apply heap_le_refl|].
  destruct serverCallbacks as [new|]; [|discriminate]. cbn. intros [= <- _]. apply heap_le_app.
Qed.

Lemma heap_le_callbacks h0 :
  filter_preserves (DecodeFilter0 := conn_filter serverCallbacks) (λ c, heap_le h0 (heap c)).
Proof.
  split_and!.
  - intros c id h c' st Hc Hr. apply bind_Ret_inv in Hr as ([c1 h1] & H1 & Hr).
    assert (heap_le h0 (heap c1)).
    { eapply heap_le_trans; [done|]. destruct (IsSofaRequest h); [by eapply heap_le_detected|].
      injection H1 as <- _. apply heap_le_refl. }
    destruct (decodeSterilize id h1) as [h2 e]. destruct (streamMap_Get c1 id); [|by injection Hr as <- _].
    by apply bind_Ret_inv in Hr as (d & _ & [= <- _]).
  - intros c id h c' st Hc. simpl. unfold conn_OnDecodeData. destruct (streamMap_Get c id); [|by intros [= <- _]].
    intros Hr. apply bind_Ret_inv in Hr as (d & _ & [= <- _]). by rewrite heap_remove_client.
  - intros c e h c' Hc. simpl. unfold conn_OnDecodeError. destruct (_ || _); [by intros [= <-]|].
    case_bool_decide; [|by intros [= <-]]. cbv zeta.
    destruct (default ∅ h !! _) as [v|]; [|by intros [= <-]]. intros Hr.
    apply bind_Ret_inv in Hr as ([c1 h1] & H1 & Hr). apply heap_le_detected in H1.
    pose proof (heap_le_trans _ _ _ Hc H1). destruct (streamMap_Get c1 _); [|by injection Hr as <-].
    apply bind_Ret_inv in Hr as (d & _ & [= <-]). by rewrite heap_remove_client.
Qed.

Lemma heap_le_step st o st' :
  step serverCallbacks protos now range_order pool st o = Ret st' → heap_le (heap st.2) (heap st'.2).
Proof.
  destruct o as [b|id d|p h e|p d e|p|p cb|p cb|p r|b]; unfold step; intros Hr.
  - apply bind_Ret_inv in Hr as ([st1 b1] & Hr & [= <-]).
    eapply (protocols_Decode_preserves (DecodeFilter0 := conn_filter serverCallbacks) (λ c, heap_le _ (heap c)));
      [apply heap_le_callbacks|apply heap_le_refl|exact Hr].
  - injection Hr as <-. apply heap_le_app.
  - apply bind_Ret_inv in Hr as ([c1 err] & Hr & [= <-]). apply bind_Ret_inv in Hr as (s & Hs%deref_Ret & Hr).
    apply bind_Ret_inv in Hr as ([b|er] & _ & Hr); injection Hr as <- _.
    + destruct e; cbn [snd]; rewrite ?heap_endStream; by eapply heap_le_store.
    + by eapply heap_le_store.
  - apply bind_Ret_inv in Hr as (c1 & Hr & [= <-]). apply bind_Ret_inv in Hr as (s & Hs%deref_Ret & [= <-]).
    destruct e; cbn [snd]; rewrite ?heap_endStream; by eapply heap_le_store.
  - apply bind_Ret_inv in Hr as (c1 & Hr & [= <-]). apply bind_Ret_inv in Hr as (s & _ & [= <-]).
    cbn [snd]. rewrite heap_endStream. apply heap_le_refl.
  - apply bind_Ret_inv in Hr as (c1 & Hr & [= <-]). apply bind_Ret_inv in Hr as (s & Hs%deref_Ret & [= <-]).
    by eapply heap_le_store.
  - apply bind_Ret_inv in Hr as (c1 & Hr & [= <-]). apply bind_Ret_inv in Hr as (s & Hs%deref_Ret & [= <-]).
    by eapply heap_le_store.
  - apply bind_Ret_inv in Hr as (c1 & Hr & [= <-]). apply bind_Ret_inv in Hr as (s & Hs%deref_Ret & [= <-]).
    cbn [snd]. rewrite heap_listeners. apply heap_le_refl.
  - injection Hr as <-. apply heap_le_refl.
Qed.

Lemma heap_le_run ops : ∀ st st',
  run serverCallbacks protos now range_order pool st ops = Ret st' → heap_le (heap st.2) (heap st'.2).
Proof.
  induction ops as [|o ops IH]; intros st st' Hr.
  - injection Hr as <-. apply heap_le_refl.
  - apply bind_Ret_inv in Hr as (st1 & Hs & Hr). eapply heap_le_trans; [by eapply heap_le_step|by apply IH].
Qed.

(** Whatever sequence of operations a connection goes through (frames
    dispatched, streams opened, headers, data and trailers appended through any
    sender, listeners, resets), the map of active streams stays consistent:
    every stream is stored under its own id, a server stream has a sender that
    answers under the request id it came with, a client stream waits for its
    own id. *)
Theorem stream_map_invariant n ops st :
  run serverCallbacks protos now range_order pool (n, newStreamConnection) ops = Ret st → conn_ok st.2.
Proof.
  assert (conn_ok newStreamConnection) as Hc by apply map_Forall_empty. revert Hc.
  generalize (newStreamConnection (D := D)). intros c Hc.
  change c with (n, c).2 in Hc. revert Hc. generalize (n, c). induction ops as [|o ops IH]; intros st0 Hc Hr.
  - by injection Hr as <-.
  - apply bind_Ret_inv in Hr as (st1 & Hs & Hr). eapply IH; [|exact Hr]. by eapply conn_ok_step.
Qed.
End invariant.

(** ** A request keeps its identity *)

(** The message a sender encodes answers under the request id [r]. *)
Definition answers (r : string) (m : msg) : Prop :=
  match m with
  | MMap h => h !! HeaderReqID = Some r
  | MResp c => rs_ReqID c = to_uint32 (Atoi r)
  | MResp2 c => rs_ReqID (rs2_base c) = to_uint32 (Atoi r)
  | _ => False
  end.

(** No header that is the proxy's own. *)
Definition proxy_headers : list string :=
  [HeaderStreamID; HeaderGlobalTimeout; HeaderTryTimeout; HeaderStremEnd; HeaderStatus].

(** The header map with the request id the stream answers under. *)
Definition own_id {D} (s : stream D) (m : header_map) : header_map :=
  match st_direction s with ClientStream => m | ServerStream => <[HeaderReqID := st_requestID s]> m end.

Lemma encodeSterilize_map {D} (s : stream D) m :
  (∃ m', encodeSterilize s (MMap m) = MMap m' ∧
     (∀ k, k ∈ proxy_headers → m' !! k = None) ∧
     (∀ k, k ∉ proxy_headers → m' !! k = own_id s m !! k)) ∨
  (∃ m' st, encodeSterilize s (MMap m) = (BuildSofaRespMsg m' st).1 ∧ (BuildSofaRespMsg m' st).2 = None ∧
     (∀ k, k ∉ proxy_headers → m' !! k = own_id s m !! k)).
Proof.
  cbn [encodeSterilize]. unfold SofaPropertyHeader. fold (own_id s m). set (m0 := own_id s m).
  set (m1 := delete HeaderStremEnd (delete HeaderTryTimeout (delete HeaderGlobalTimeout (delete HeaderStreamID m0)))).
  assert (delete_all [HeaderStreamID; HeaderGlobalTimeout; HeaderTryTimeout; HeaderStremEnd] m0 = m1) as E by done.
  assert (∀ k, k ∉ proxy_headers → m1 !! k = m0 !! k) as Hk.
  { intros k Hk. rewrite <- E, lookup_delete_all, bool_decide_false; [done|]. unfold proxy_headers in Hk. set_solver. }
  assert (∀ k, k ∈ proxy_headers → k ≠ HeaderStatus → m1 !! k = None) as Hn.
  { intros k Hin Hne. rewrite <- E, lookup_delete_all, bool_decide_true; [done|]. unfold proxy_headers in Hin. set_solver. }
  destruct (m1 !! HeaderStatus) as [status|] eqn:Hs.
  - assert (∀ k, k ∉ proxy_headers → delete HeaderStatus m1 !! k = m0 !! k) as Hk'.
    { intros k Hni. rewrite lookup_delete_ne; [by apply Hk|]. intros <-. apply Hni. unfold proxy_headers. set_solver. }
    assert (∀ k, k ∈ proxy_headers → delete HeaderStatus m1 !! k = None) as Hn'.
    { intros k Hin. destruct (decide (k = HeaderStatus)) as [->|]; [apply lookup_delete_eq|].
      rewrite lookup_delete_ne by done. by apply Hn. }
    case_bool_decide; [left; eauto|].
    destruct (BuildSofaRespMsg _ _) as [resp [err|]] eqn:Hb; [left; eauto|right].
    exists (delete HeaderStatus m1), (status_response (Atoi status)). by rewrite Hb.
  - left. exists m1. split_and!; [done| |done]. intros k Hin.
    destruct (decide (k = HeaderStatus)) as [->|]; [done|by apply Hn].
Qed.

Lemma encodeSterilize_server {D} (s : stream D) m :
  st_direction s = ServerStream → answers (st_requestID s) (encodeSterilize s (MMap m)).
Proof.
  intros Hd. assert (HeaderReqID ∉ proxy_headers) as Hni by (by apply (bool_decide_eq_true_1 _)).
  destruct (encodeSterilize_map s m) as [(m' & -> & _ & Hk)|(m' & st & -> & Hb & Hk)];
    specialize (Hk _ Hni); unfold own_id in Hk; rewrite Hd, lookup_insert_eq in Hk.
  - done.
  - revert Hb. unfold BuildSofaRespMsg, SofaPropertyHeader. rewrite Hk. by repeat case_bool_decide.
Qed.

Section identity.
  Context {D : Type} (new : string → nat → option D).
  Context (protos : gmap Z protocol) (now : Z) (range_order : header_map → list (string * string))
          (pool : option (Z → option IoBuffer)).

(** A request with a new stream id opens a stream: the receiver sees the
    headers with the stream id in place of the request id. *)
Lemma request_detected (c : streamConnection D) streamID h r d :
  activeStreams c !! streamID = None → IsSofaRequest h = true → h !! HeaderReqID = Some r →
  new streamID (length (heap c)) = Some d →
  let s := mk_stream streamID r ServerStream (Some d) [] None None in
  let hd := decodeSterilize streamID (<[HeaderReqID := streamID]> h) in
  conn_OnDecodeHeader (Some new) c streamID h =
    Ret (mk_conn (<[streamID := s]> (activeStreams c)) (heap c ++ [s])
           (trace c ++ [ENewStream streamID (length (heap c))] ++ [EReceiveHeaders d hd.1 hd.2]),
         if hd.2 then StopIteration else Continue).
Proof.
  intros Ha Hq Hr Hd s hd. unfold conn_OnDecodeHeader. rewrite Hq. unfold onNewStreamDetected, streamMap_Has.
  unfold SofaPropertyHeader. rewrite Ha, Hr. cbn. rewrite Hd. fold s. fold hd. destruct hd as [h' e].
  unfold streamMap_Get. cbn. rewrite lookup_insert_eq. cbn. unfold emit. cbn. by rewrite <- app_assoc.
Qed.

Lemma decodeSterilize_lookup streamID h k :
  k ≠ HeaderStreamID → k ≠ HeaderTryTimeout → (decodeSterilize streamID h).1 !! k = h !! k.
Proof.
  intros H1 H2. unfold decodeSterilize. cbv zeta. rewrite !lookup_insert_ne by done.
  destruct (h !! SofaPropertyHeader HeaderTimeout); repeat case_match; cbn [fst];
    by rewrite ?lookup_insert_ne by done.
Qed.

(** When headers end their stream. *)
Lemma decodeSterilize_ends streamID h :
  (decodeSterilize streamID h).2 =
    match h !! HeaderCmdCode with
    | Some v => bool_decide (ConvertPropertyValue v KInt16 = PInt16 HEARTBEAT)
    | None => false
    end || match h !! HeaderStremEnd with Some _ => true | None => false end.
Proof.
  unfold decodeSterilize, SofaPropertyHeader. cbv zeta. rewrite lookup_insert_ne by done.
  destruct (h !! HeaderTimeout); rewrite !lookup_insert_ne by done;
    destruct (match h !! HeaderCmdCode with Some _ => _ | None => _ end); done.
Qed.

(** C5. The id a client gave its request comes back with the answer: a request
    that opens a stream reaches the receiver under the stream's id instead of
    its own, and after any further operations on the connection whatever header
    map is appended through the stream's sender is encoded under the client's
    own id, as headers or as the response that reports a failure. *)
Theorem answer_carries_client_id n c streamID h r d :
  activeStreams c !! streamID = None → IsSofaRequest h = true → h !! HeaderReqID = Some r →
  new streamID (length (heap c)) = Some d →
  ∃ c' status hd e p, conn_OnDecodeHeader (Some new) c streamID h = Ret (c', status) ∧
    trace c' = trace c ++ [ENewStream streamID p; EReceiveHeaders d hd e] ∧
    hd !! HeaderReqID = Some streamID ∧
    ∀ ops st, run (Some new) protos now range_order pool (n, c') ops = Ret st →
    ∃ s, heap st.2 !! p = Some s ∧ ∀ m, answers r (encodeSterilize s (MMap m)).
Proof.
  intros Ha Hq Hr Hd. pose proof (request_detected c streamID h r d Ha Hq Hr Hd) as E.
  do 4 eexists. exists (length (heap c)). split; [exact E|]. split; [done|]. split.
  { rewrite decodeSterilize_lookup by done. apply lookup_insert_eq. }
  intros ops st Hrun. apply heap_le_run in Hrun. cbn [snd heap] in Hrun.
  edestruct Hrun as (s & Hs & _ & E2 & E3 & _); [by apply list_lookup_middle|].
  exists s. split; [done|]. intros m. cbn [st_requestID st_direction] in E2, E3. rewrite <- E2.
  by apply encodeSterilize_server.
Qed.
End identity.

(** A request in header-map form, for a server that takes every stream. *)
Definition plain_request : header_map := list_to_map [
  (HeaderProtocolCode, "1"); (HeaderCmdType, "1"); (HeaderCmdCode, "1"); (HeaderReqID, "77")]%string.

Lemma answer_carries_client_id_witness :
  ∃ c' status hd e p,
    conn_OnDecodeHeader (Some (λ _ p, Some p)) newStreamConnection "1" plain_request = Ret (c', status) ∧
    trace c' = trace newStreamConnection ++ [ENewStream "1" p; EReceiveHeaders 0%nat hd e] ∧
    hd !! HeaderReqID = Some "1"%string ∧
    ∀ ops st, run (Some (λ _ p, Some p)) default_protocols 0 map_to_list None (1, c') ops = Ret st →
    ∃ s, heap st.2 !! p = Some s ∧ ∀ m, answers "77" (encodeSterilize s (MMap m)).
Proof.
  apply (answer_carries_client_id (λ _ p, Some p) default_protocols 0 map_to_list None 1 newStreamConnection
           "1" plain_request "77" 0%nat); vm_compute; reflexivity.
Defined.

Lemma stream_map_invariant_witness :
  ∃ st, run (Some (λ _ p, Some p)) default_protocols 0 map_to_list None (0, newStreamConnection)
    [ONewStream "1" None; OAppendData 0 None true] = Ret st ∧ conn_ok (D := nat) st.2.
Proof.
  eexists. split; [vm_compute; reflexivity|].
  apply (stream_map_invariant (Some (λ _ p, Some p)) default_protocols 0 map_to_list None 0
    [ONewStream "1" None; OAppendData 0 None true]). vm_compute. reflexivity.
Defined.

(** ** Responses find their requests *)

Lemma StreamIDConv_inj a b : in_u 32 a → in_u 32 b → StreamIDConv a = StreamIDConv b → a = b.
Proof.
  unfold in_u. intros Ha Hb. unfold StreamIDConv, fmt_u64, to_uint64. rewrite !uwrap_id by (unfold in_u; lia).
  intros E. apply (f_equal (λ s, ParseUint s 64)) in E. by rewrite !ParseUint_FormatUint in E by lia.
Qed.

Section responses.
  Context {D : Type} (serverCallbacks : option (string → nat → option D)).

#[local] Instance conn_filter_here : DecodeFilter (streamConnection D) := conn_filter serverCallbacks.

(** The receiver [d] waits for the response to request [n]. *)
Definition waits (c : streamConnection D) (n : Z) (d : D) : Prop :=
  ∃ s, activeStreams c !! StreamIDConv n = Some s ∧ st_streamID s = StreamIDConv n ∧
    st_direction s = ClientStream ∧ st_decoder s = Some d.

(** The headers the receiver is given. *)
Definition seen (n : Z) (h : header_map) : header_map := (decodeSterilize (StreamIDConv n) h).1.
Definition ends (n : Z) (h : header_map) : bool := (decodeSterilize (StreamIDConv n) h).2.

Lemma OnDecodeHeader_waiting c n d h :
  waits c n d →
  conn_OnDecodeHeader serverCallbacks c (StreamIDConv n) h =
    Ret (emit c (EReceiveHeaders d (seen n h) (ends n h)), if ends n h then StopIteration else Continue).
Proof.
  intros (s & Hs & Hid & Hdir & Hd). unfold conn_OnDecodeHeader, onNewStreamDetected, streamMap_Has. rewrite Hs.
  assert ((if IsSofaRequest h then Ret (c, h) else Ret (c, h)) = Ret (c, h)) as -> by (by destruct (IsSofaRequest h)).
  rewrite bind_Ret. unfold seen, ends. destruct (decodeSterilize _ h) as [h' e].
  unfold streamMap_Get. rewrite Hs. unfold call_decoder. by rewrite Hd.
Qed.

(** A response, the header map the processor makes of it, and its receiver. *)
Record delivery := mk_delivery { dl_cmd : BoltResponseCommand; dl_map : header_map; dl_data : gslice; dl_to : D }.

Definition delivery_ok (dl : delivery) : Prop :=
  in_u 32 (rs_ReqID (dl_cmd dl)) ∧ deserializeResponseAllFields (dl_cmd dl) = Ret (dl_map dl) ∧
  rs_Content (dl_cmd dl) = Some (dl_data dl) ∧ ends (rs_ReqID (dl_cmd dl)) (dl_map dl) = false.

Definition delivery_events (dl : delivery) : list (event D) :=
  [EReceiveHeaders (dl_to dl) (seen (rs_ReqID (dl_cmd dl)) (dl_map dl)) false;
   EReceiveData (dl_to dl) (dl_data dl) true].

Definition delivery_id (dl : delivery) : string := StreamIDConv (rs_ReqID (dl_cmd dl)).

Lemma response_delivered n c dl :
  delivery_ok dl → waits c (rs_ReqID (dl_cmd dl)) (dl_to dl) →
  BoltResponseProcessor_Process (n, c) (MResp (dl_cmd dl)) =
    Ret (n, mk_conn (delete (delivery_id dl) (activeStreams c)) (heap c) (trace c ++ delivery_events dl)).
Proof.
  intros (_ & Hh & Hc & He) Hw. cbn [BoltResponseProcessor_Process]. rewrite Hh, bind_Ret. unfold deliver.
  rewrite Hc. cbn [OnDecodeHeader conn_filter_here conn_filter snd fst]. rewrite (OnDecodeHeader_waiting c _ (dl_to dl)) by done.
  rewrite He, bind_Ret. destruct Hw as (s & Hs & Hid & Hdir & Hd). cbn [OnDecodeData conn_filter_here conn_filter].
  unfold conn_OnDecodeData, streamMap_Get. cbn [activeStreams emit]. rewrite Hs. unfold call_decoder. rewrite Hd.
  rewrite !bind_Ret. unfold remove_client. rewrite Hdir. unfold streamMap_Remove, emit, delivery_events, delivery_id.
  cbn. by rewrite Hid, <- app_assoc.
Qed.

Fixpoint process_all (st : Z * streamConnection D) (l : list BoltResponseCommand) : Go (Z * streamConnection D) :=
  match l with
  | [] => Ret st
  | r :: l => st ← BoltResponseProcessor_Process st (MResp r); process_all st l
  end.

(** C18. Responses reach the requests they answer: when the receivers of a
    connection wait for the responses that arrive, then in whichever order they
    arrive every receiver gets the headers and the data of its own response and
    nothing else, and the streams that are left are the ones not answered. *)
Theorem responses_reach_their_requests dls : ∀ n c,
  Forall delivery_ok dls → NoDup (rs_ReqID ∘ dl_cmd <$> dls) →
  Forall (λ dl, waits c (rs_ReqID (dl_cmd dl)) (dl_to dl)) dls →
  process_all (n, c) (dl_cmd <$> dls) =
    Ret (n, mk_conn (foldl (λ m id, delete id m) (activeStreams c) (delivery_id <$> dls)) (heap c)
              (trace c ++ concat (delivery_events <$> dls))).
Proof.
  induction dls as [|dl dls IH]; intros n c Hok Hnd Hw.
  { destruct c. simpl. by rewrite app_nil_r. }
  inversion Hok as [|? ? Hok1 Hok2]; subst. inversion Hw as [|? ? Hw1 Hw2]; subst.
  cbn [fmap list_fmap] in Hnd. apply NoDup_cons in Hnd as [Hni Hnd].
  cbn [fmap list_fmap process_all]. rewrite response_delivered by done. rewrite bind_Ret.
  rewrite IH; [cbn; by rewrite <- app_assoc|done|done|].
  apply Forall_forall. intros dl' Hin. rewrite Forall_forall in Hw2, Hok2.
  destruct (Hw2 dl' Hin) as (s & Hs & ?). exists s. split; [|done]. cbn [activeStreams].
  rewrite lookup_delete_ne; [done|]. intros E%StreamIDConv_inj; [|apply Hok1|by apply Hok2].
  apply Hni. apply list_elem_of_fmap. eauto.
Qed.

(** A response without content does not end its stream: the receiver is
    told that the stream is over, and the stream stays in the map. *)
Theorem headers_only_response_keeps_stream n c r h d :
  waits c (rs_ReqID r) d → deserializeResponseAllFields r = Ret h → rs_Content r = None →
  ∃ c' h', BoltResponseProcessor_Process (n, c) (MResp r) = Ret (n, c') ∧
    activeStreams c' = activeStreams c ∧ trace c' = trace c ++ [EReceiveHeaders d h' true].
Proof.
  intros Hw Hh Hc. cbn [BoltResponseProcessor_Process]. rewrite Hh, bind_Ret. unfold deliver. rewrite Hc.
  cbn [OnDecodeHeader conn_filter_here conn_filter snd fst]. rewrite (OnDecodeHeader_waiting c _ d) by done.
  set (h1 := <[HeaderStremEnd := _]> h).
  assert (ends (rs_ReqID r) h1 = true) as ->.
  { unfold ends, h1. rewrite decodeSterilize_ends, lookup_insert_eq. apply orb_true_r. }
  rewrite !bind_Ret. eauto.
Qed.
End responses.

(** Two requests wait, the second is answered first. *)
Definition resp_of (id : Z) : BoltResponseCommand :=
  mk_resp 1 0 2 1 id 1 0 0 0 2 None None (Some (slice_of (str_bytes "ok"))) 0 None.
Definition two_waiting : streamConnection nat :=
  (NewStream (NewStream newStreamConnection "1" (Some 10%nat)).1 "2" (Some 20%nat)).1.
Definition map_of (r : BoltResponseCommand) : header_map :=
  match deserializeResponseAllFields r with Ret h => h | Panic _ => ∅ end.
Definition reversed : list (delivery (D := nat)) :=
  [mk_delivery (resp_of 2) (map_of (resp_of 2)) (slice_of (str_bytes "ok")) 20%nat;
   mk_delivery (resp_of 1) (map_of (resp_of 1)) (slice_of (str_bytes "ok")) 10%nat].

Lemma responses_reach_their_requests_witness :
  process_all None (0, two_waiting) [resp_of 2; resp_of 1] =
    Ret (0, mk_conn (foldl (λ m id, delete id m) (activeStreams two_waiting) (delivery_id <$> reversed))
              (heap two_waiting) (trace two_waiting ++ concat (delivery_events <$> reversed))).
Proof.
  apply (responses_reach_their_requests None reversed 0 two_waiting).
  - repeat constructor; vm_compute; done.
  - by apply (bool_decide_eq_true_1 _).
  - repeat constructor; eexists; vm_compute; repeat split.
Defined.

Lemma headers_only_response_keeps_stream_witness :
  let r := mk_resp 1 0 2 1 2 1 0 0 0 0 None None None 0 None in
  ∃ c' h', BoltResponseProcessor_Process (DecodeFilter0 := conn_filter None) (0, two_waiting) (MResp r) = Ret (0, c') ∧
    activeStreams c' = activeStreams two_waiting ∧
    trace c' = trace two_waiting ++ [EReceiveHeaders 20%nat h' true].
Proof.
  intros r. refine (headers_only_response_keeps_stream None 0 two_waiting r (map_of r) 20%nat _ _ _).
  - eexists. vm_compute. repeat split.
  - vm_compute. reflexivity.
  - reflexivity.
Defined.

(** ** Errors and collisions *)

Lemma decode_error_keeps {D} (srv : option (string → nat → option D)) (c : streamConnection D) t :
  conn_OnDecodeError srv c (decode_error t) None = Ret c.
Proof. unfold decode_error. cbn [String.append]. generalize (UnKnownReqtype +:+ ", value = " +:+ FormatUint t). done. Qed.

(** A frame of unknown type neither closes the connection nor is skipped:
    the error the decoder reports is none of the errors the connection closes
    on, so the frame stays at the front of the buffer and nothing is told to
    anyone. *)
Theorem unknown_type_blocks_connection {D} (srv : option (string → nat → option D)) now (n : Z) c data :
  wf data → 20 ≤ Len data → fld (contents data) 0 1 = PROTOCOL_CODE_V1 → 2 < fld (contents data) 1 2 →
  Dispatch srv default_protocols now (n, c) data = Ret ((n, c), data).
Proof.
  intros Hwf Hl Hp Ht. unfold Dispatch. cbn [protocols_Decode]. rewrite bool_decide_true by lia.
  destruct (BytesSlice_ok data Hwf) as [ex ->]. rewrite bind_Ret. pose proof (length_contents data Hwf).
  rewrite !byte_at_fld, !bind_Ret by lia. change (0 + 1) with 1. rewrite Hp.
  change (default_protocols !! PROTOCOL_CODE_V1) with (Some BoltV1). cbn [proto_Decode].
  destruct (v1_Decode_outcome now data Hwf) as [[? _]|[(_ & ? & _)|[(_ & ? & _)|(_ & _ & ->)]]]; try lia.
  rewrite bind_Ret. cbn [OnDecodeError conn_filter snd fst]. by rewrite decode_error_keeps, bind_Ret.
Qed.

(** Twenty bytes with type 7. *)
Definition unknown_frame : IoBuffer := NewIoBufferBytes (slice_of (map byte_of_Z ([1; 7] ++ replicate 18 0))) false.

Lemma unknown_type_blocks_connection_witness :
  Dispatch None default_protocols 0 (0, two_waiting) unknown_frame = Ret ((0, two_waiting), unknown_frame).
Proof.
  apply (unknown_type_blocks_connection None 0 0 two_waiting unknown_frame);
    [split; vm_compute; [split; discriminate|discriminate]|vm_compute; done..].
Defined.

(** A heartbeat uses its request id as the stream id, in the name space of
    the generated ids: when the ids coincide with those of an active stream, the
    heartbeat is delivered to that stream's receiver as the end of its stream
    and opens none of its own. *)
Theorem heartbeat_hits_active_stream {D} (srv : option (string → nat → option D)) (n : Z) c q h s d :
  rq_CmdCode q = HEARTBEAT → deserializeRequestAllFields q = Ret h →
  h !! HeaderCmdCode = Some (fmt_u64 HEARTBEAT) →
  activeStreams c !! StreamIDConv (rq_ReqID q) = Some s → st_decoder s = Some d →
  ∃ h', HandleCommand (DecodeFilter0 := conn_filter srv) BoltV1 (n, c) (MReq q) =
    Ret ((n, emit c (EReceiveHeaders d h' true)), None).
Proof.
  intros Hq Hh Hcode Hs Hd. unfold HandleCommand. cbn [GetCmdCode]. rewrite Hq.
  change (bool_decide (HEARTBEAT = RPC_REQUEST)) with false. change (bool_decide (HEARTBEAT = RPC_RESPONSE)) with false.
  change (bool_decide (HEARTBEAT = HEARTBEAT)) with true. cbv iota. cbn [boltHbProcessor_Process].
  rewrite Hh, bind_Ret. cbn [OnDecodeHeader conn_filter snd fst].
  unfold conn_OnDecodeHeader, onNewStreamDetected, streamMap_Has. rewrite Hs.
  assert ((if IsSofaRequest h then Ret (c, h) else Ret (c, h)) = Ret (c, h)) as -> by (by destruct (IsSofaRequest h)).
  rewrite bind_Ret. destruct (decodeSterilize _ h) as [h' e] eqn:E. unfold streamMap_Get. rewrite Hs. unfold call_decoder.
  rewrite Hd, !bind_Ret. exists h'. cbn. assert (e = true) as ->; [|done].
  apply (f_equal snd) in E. by rewrite decodeSterilize_ends, Hcode in E.
Qed.

Lemma heartbeat_hits_active_stream_witness :
  let q := NewBoltHeartbeat 2 in
  ∃ h', HandleCommand (DecodeFilter0 := conn_filter None) BoltV1 (0, two_waiting) (MReq q) =
    Ret ((0, emit two_waiting (EReceiveHeaders 20%nat h' true)), None).
Proof.
  intros q. eapply (heartbeat_hits_active_stream None 0 two_waiting q); vm_compute; reflexivity.
Defined.
