(* ===== verification/GoStrings.v ===== *)
(** * The functions of Go's strings and sort packages the sources use

    Strings are byte strings.  [ToLower], [EqualFold] and [TrimSpace] treat the
    ASCII characters as Go does and leave other bytes alone: host names, header
    names and query strings are ASCII.  Go compares strings byte by byte, which
    is the order sorted keys are kept in. *)

From Stdlib Require Import Ascii.
From Stdlib Require String.
From stdpp Require Import sorting.
From S2P Require Import Prelude.

Local Open Scope string_scope.

(** ** Case and white space *)

Definition lower_ascii (c : ascii) : ascii :=
  let n := N_of_ascii c in
  if ((65 <=? n) && (n <=? 90))%N then ascii_of_N (n + 32) else c.

Fixpoint ToLower (s : string) : string :=
  match s with
  | EmptyString => EmptyString
  | String.String c s => String.String (lower_ascii c) (ToLower s)
  end.

Definition EqualFold (s t : string) : bool := bool_decide (ToLower s = ToLower t).

Definition is_space (c : ascii) : bool :=
  let n := N_of_ascii c in (((9 <=? n) && (n <=? 13)) || (n =? 32))%N.

Fixpoint TrimLeft (s : string) : string :=
  match s with
  | String.String c s' => if is_space c then TrimLeft s' else s
  | EmptyString => EmptyString
  end.

Fixpoint TrimRight (s : string) : string :=
  match s with
  | String.String c s' =>
    match TrimRight s' with
    | EmptyString => if is_space c then EmptyString else String.String c EmptyString
    | t => String.String c t
    end
  | EmptyString => EmptyString
  end.

Definition TrimSpace (s : string) : string := TrimRight (TrimLeft s).

(** ** Parts of strings *)

Definition slen (s : string) : nat := String.length s.

Fixpoint str_drop (n : nat) (s : string) : string :=
  match n, s with
  | O, _ => s
  | S n, String.String _ s => str_drop n s
  | S _, EmptyString => EmptyString
  end.

Definition HasPrefix (s prefix : string) : bool := String.prefix prefix s.

(** [strings.Split(s, sep)] for a separator of one character. *)
Fixpoint Split (s : string) (sep : ascii) : list string :=
  match s with
  | EmptyString => [EmptyString]
  | String.String c s =>
    let parts := Split s sep in
    if bool_decide (c = sep) then EmptyString :: parts
    else match parts with
         | p :: ps => String.String c p :: ps
         | [] => [String.String c EmptyString]
         end
  end.

Lemma slen_ToLower s : slen (ToLower s) = slen s.
Proof. induction s as [|c s IH]; simpl; [done|]. by rewrite <- IH. Qed.

Lemma slen_app s t : slen (s +:+ t) = (slen s + slen t)%nat.
Proof. induction s as [|c s IH]; [done|]. exact (f_equal S IH). Qed.

Lemma str_drop_app s t : str_drop (slen s) (s +:+ t) = t.
Proof. induction s as [|c s IH]; [done|]. exact IH. Qed.

Fixpoint str_take (n : nat) (s : string) : string :=
  match n, s with
  | S n, String.String c s => String.String c (str_take n s)
  | _, _ => EmptyString
  end.

Lemma str_take_drop n s : str_take n s +:+ str_drop n s = s.
Proof. revert s. induction n as [|n IH]; intros [|c s]; try done. exact (f_equal (String.String c) (IH s)). Qed.

Lemma slen_str_take n s : (n ≤ slen s)%nat → slen (str_take n s) = n.
Proof.
  revert s. induction n as [|n IH]; intros [|c s] H; unfold slen in *; simpl in *; try lia.
  f_equal. apply IH. lia.
Qed.

(** [w] is a proper suffix of [s]. *)
Definition proper_suffix (w s : string) : Prop := ∃ p, p ≠ EmptyString ∧ s = p +:+ w.

(** Cutting the last [slen w] characters off a longer string gives [w] exactly
    when [w] is a proper suffix. *)
Lemma suffix_cut w s :
  (slen w < slen s)%nat → str_drop (slen s - slen w) s = w ↔ proper_suffix w s.
Proof.
  intros Hl. split.
  - intros E. exists (str_take (slen s - slen w) s). split.
    + intros E0. pose proof (slen_str_take (slen s - slen w) s ltac:(lia)) as Hn. rewrite E0 in Hn.
      unfold slen in *. simpl in Hn. lia.
    + pose proof (str_take_drop (slen s - slen w) s) as Ht. by rewrite E in Ht.
  - intros (p & _ & ->). rewrite slen_app. replace (slen p + slen w - slen w)%nat with (slen p) by lia.
    apply str_drop_app.
Qed.

Lemma proper_suffix_len w s : proper_suffix w s → (slen w < slen s)%nat.
Proof.
  intros (p & Hp & ->). rewrite slen_app. destruct p as [|c p]; [done|]. unfold slen. simpl. lia.
Qed.

(** ** The order of strings *)

(** As lists of numbers, compared lexicographically. *)
Fixpoint str_lt (s t : string) : bool :=
  match s, t with
  | EmptyString, String.String _ _ => true
  | _, EmptyString => false
  | String.String c s, String.String d t =>
    (N_of_ascii c <? N_of_ascii d)%N || ((N_of_ascii c =? N_of_ascii d)%N && str_lt s t)
  end.

Definition str_le (s t : string) : Prop := str_lt t s = false.
#[export] Instance str_le_dec s t : Decision (str_le s t).
Proof. unfold str_le. apply _. Defined.

Lemma str_lt_irrefl s : str_lt s s = false.
Proof. induction s as [|c s IH]; simpl; [done|]. rewrite N.ltb_irrefl, IH, andb_false_r. done. Qed.

Lemma str_lt_trans s t u : str_lt s t = true → str_lt t u = true → str_lt s u = true.
Proof.
  revert t u. induction s as [|c s IH]; intros [|d t] [|e u]; simpl; try done.
  rewrite !orb_true_iff, !andb_true_iff, !N.ltb_lt, !N.eqb_eq.
  intros [?|[? ?]] [?|[? ?]]; [left; lia..|]. right. split; [lia|]. by eapply IH.
Qed.

Lemma str_lt_total s t : str_lt s t = true ∨ s = t ∨ str_lt t s = true.
Proof.
  revert t. induction s as [|c s IH]; intros [|d t]; simpl; [auto..|].
  rewrite !orb_true_iff, !andb_true_iff, !N.ltb_lt, !N.eqb_eq.
  destruct (N.lt_trichotomy (N_of_ascii c) (N_of_ascii d)) as [?|[E|?]]; [auto| |auto].
  assert (c = d) as -> by (rewrite <- (ascii_N_embedding c), <- (ascii_N_embedding d); by f_equal).
  destruct (IH t) as [?|[->|?]]; auto.
Qed.

Lemma str_lt_le s t : str_lt s t = true → str_le s t.
Proof.
  intros H. unfold str_le. destruct (str_lt t s) eqn:E; [|done].
  pose proof (str_lt_trans _ _ _ H E) as F. by rewrite str_lt_irrefl in F.
Qed.

Lemma str_le_cases s t : str_le s t → s = t ∨ str_lt s t = true.
Proof. unfold str_le. intros H. destruct (str_lt_total s t) as [?|[?|?]]; [auto..|congruence]. Qed.

#[export] Instance str_le_total : Total str_le.
Proof.
  intros s t. destruct (str_lt_total s t) as [?|[->|?]]; [left; by apply str_lt_le| |right; by apply str_lt_le].
  left. apply str_lt_irrefl.
Qed.
#[export] Instance str_le_trans : Transitive str_le.
Proof.
  intros s t u [->|H1]%str_le_cases H2; [done|]. apply str_le_cases in H2 as [->|H2]; apply str_lt_le; [done|].
  by eapply str_lt_trans.
Qed.
#[export] Instance str_le_antisymm : AntiSymm (=) str_le.
Proof. intros s t [->|H1]%str_le_cases H2; [done|]. unfold str_le in H2. congruence. Qed.

(** ** Sorting by a key

    [sort.Sort] with distinct keys: which algorithm sorts does not matter. *)

Section sort_by.
  Context {A : Type} (key : A → string).

Definition key_le (x y : A) : Prop := str_le (key x) (key y).
#[export] Instance key_le_dec x y : Decision (key_le x y).
Proof. unfold key_le. apply _. Defined.
#[export] Instance key_le_total : Total key_le.
Proof. intros x y. apply (total str_le). Qed.
#[export] Instance key_le_trans : Transitive key_le.
Proof. intros x y z. apply (transitivity (R := str_le)). Qed.

Definition sort_by (l : list A) : list A := merge_sort key_le l.

Lemma sort_by_Sorted l : StronglySorted key_le (sort_by l).
Proof. apply StronglySorted_merge_sort; apply _. Qed.
Lemma sort_by_perm l : sort_by l ≡ₚ l.
Proof. apply merge_sort_Permutation. Qed.

(** Sorted lists of the same elements with distinct keys are equal. *)
Lemma sorted_unique l1 l2 :
  NoDup (key <$> l1) → l1 ≡ₚ l2 → StronglySorted key_le l1 → StronglySorted key_le l2 → l1 = l2.
Proof.
  revert l2. induction l1 as [|x l1 IH]; intros l2 Hnd Hp H1 H2.
  { by apply Permutation_nil_l in Hp. }
  destruct l2 as [|y l2]; [by apply Permutation_nil_r in Hp|].
  inversion H1 as [|? ? H1' Hx]; subst. inversion H2 as [|? ? H2' Hy]; subst.
  rewrite Forall_forall in Hx, Hy.
  assert (x = y) as ->.
  { assert (x ∈ y :: l2) as [->|Hin]%elem_of_cons by (rewrite <- Hp; apply list_elem_of_here); [done|].
    assert (y ∈ x :: l1) as [->|Hin']%elem_of_cons by (rewrite Hp; apply list_elem_of_here); [done|].
    cbn [fmap list_fmap] in Hnd. apply NoDup_cons in Hnd as [Hni _]. destruct Hni.
    rewrite (anti_symm (R := (=)) str_le (key x) (key y)); [by apply list_elem_of_fmap_2|by apply Hx|by apply Hy]. }
  f_equal. cbn [fmap list_fmap] in Hnd. apply NoDup_cons in Hnd as [_ Hnd].
  apply IH; [done| |done..]. by apply Permutation_cons_inv in Hp.
Qed.

Lemma sort_by_unique l1 l2 : NoDup (key <$> l1) → l1 ≡ₚ l2 → sort_by l1 = sort_by l2.
Proof.
  intros Hnd Hp. apply sorted_unique; [|by rewrite !sort_by_perm|apply sort_by_Sorted..].
  by rewrite (fmap_Permutation key _ _ (sort_by_perm l1)).
Qed.
End sort_by.

(** ** Concatenation *)

Lemma str_app_assoc (s t u : string) : ((s +:+ t) +:+ u = s +:+ (t +:+ u))%string.
Proof. induction s as [|c s IH]; [done|]. exact (f_equal (String.String c) IH). Qed.
Lemma str_app_nil (s : string) : (s +:+ "")%string = s.
Proof. induction s as [|c s IH]; [done|]. exact (f_equal (String.String c) IH). Qed.
