(* ===== verification/GoTime.v ===== *)
(** * Durations of Go's time package

    [Duration.String] and [ParseDuration], as the standard library of Go defines
    them, and that the second reads what the first writes.  A duration is a number
    of nanoseconds. *)

From Stdlib Require Import Ascii.
From S2P Require Import Prelude Strconv.

Local Open Scope Z_scope.

(** ** Printing *)

(** The last [prec] digits of [v] as a fraction without the zeros at its end: the
    fraction, with its point, and the rest of [v]. *)
Fixpoint frac_digits (prec : nat) (v : Z) (print : bool) (s : string) : bool * string * Z :=
  match prec with
  | O => (print, s, v)
  | S prec =>
    let digit := v mod 10 in
    let print := print || bool_decide (digit ≠ 0) in
    frac_digits prec (v / 10) print (if print then FormatUint digit +:+ s else s)
  end.
Definition fmtFrac (prec : nat) (v : Z) : string * Z :=
  let '(print, s, v) := frac_digits prec v false EmptyString in
  ((if print then "." +:+ s else s)%string, v).

(** [time.Duration.String]. *)
Definition micro : string := bytes_str [byte_of_Z 194; byte_of_Z 181].
Definition duration_String (d : Z) : string :=
  let u := Z.abs d in
  let body :=
    if bool_decide (u < 1000000000) then
      if bool_decide (u = 0) then "0s"%string
      else
      let '(prec, unit_) := if bool_decide (u < 1000) then (O, "n"%string) else if bool_decide (u < 1000000) then (3%nat, micro) else (6%nat, "m"%string) in
      let '(frac, v) := fmtFrac prec u in (FormatUint v +:+ frac +:+ unit_ +:+ "s")%string
    else
      let '(frac, v) := fmtFrac 9 u in
      let secs := (FormatUint (v mod 60) +:+ frac +:+ "s")%string in
      let m := v / 60 in
      if bool_decide (0 < m) then
        let mins := (FormatUint (m mod 60) +:+ "m" +:+ secs)%string in
        let h := m / 60 in
        if bool_decide (0 < h) then (FormatUint h +:+ "h" +:+ mins)%string else mins
      else secs in
  if bool_decide (d < 0) then ("-" +:+ body)%string else body.

(** ** Floating point

    [ParseDuration] computes fractions in float64.  A positive float64 is an odd
    number of at most 53 bits times a power of two.  Exponents are not bounded:
    the code multiplies and divides by powers of ten, and where a float64 would
    overflow or be subnormal the fraction is below a nanosecond either way. *)

Fixpoint odd_part (p : positive) (e : Z) : positive * Z :=
  match p with xO p => odd_part p (e + 1) | _ => (p, e) end.
(** [m 2^e] to the nearest, ties to even. *)
Definition round53 (m e : Z) : positive * Z :=
  let excess := Z.log2 m - 52 in
  if bool_decide (excess ≤ 0) then odd_part (Z.to_pos m) e
  else
  let q := Z.shiftr m excess in
  let r := m - Z.shiftl q excess in
  let half := Z.shiftl 1 (excess - 1) in
  let up := bool_decide (half < r) || (bool_decide (r = half) && Z.odd q) in
  odd_part (Z.to_pos (if up then q + 1 else q)) (e + excess).
Definition f_of_Z (n : Z) : positive * Z := round53 n 0.
Definition f_mul (x y : positive * Z) : positive * Z := round53 (Zpos x.1 * Zpos y.1) (x.2 + y.2).
(** The quotient with 64 bits more than the divisor has, and whether it is exact. *)
Definition f_div (x y : positive * Z) : positive * Z :=
  let k := 64 + Z.log2 (Zpos y.1) in
  let n := Z.shiftl (Zpos x.1) k in
  let q := n / Zpos y.1 in
  round53 (2 * q + (if bool_decide (n mod Zpos y.1 = 0) then 0 else 1)) (x.2 - y.2 - k - 1).
(** Truncation to an integer. *)
Definition f_trunc (x : positive * Z) : Z :=
  if bool_decide (0 ≤ x.2) then Zpos x.1 * 2 ^ x.2 else Zpos x.1 / 2 ^ (- x.2).

(** ** Parsing *)

Definition max_int64 : Z := 2 ^ 63 - 1.

Fixpoint leadingInt (x : Z) (s : bytes) : option (Z * bytes) :=
  match s with
  | [] => Some (x, [])
  | c :: r =>
    if negb (is_digit c) then Some (x, s)
    else if bool_decide (max_int64 / 10 < x) then None
    else
    let x := to_int64 (x * 10 + digit_val c) in
    if bool_decide (x < 0) then None else leadingInt x r
  end.

Fixpoint leadingFraction (x : Z) (scale : positive * Z) (overflow : bool) (s : bytes) : Z * (positive * Z) * bytes :=
  match s with
  | [] => (x, scale, [])
  | c :: r =>
    if negb (is_digit c) then (x, scale, s)
    else if overflow then leadingFraction x scale true r
    else if bool_decide (max_int64 / 10 < x) then leadingFraction x scale true r
    else
    let y := to_int64 (x * 10 + digit_val c) in
    if bool_decide (y < 0) then leadingFraction x scale true r
    else leadingFraction y (f_mul scale (f_of_Z 10)) false r
  end.

(** The unit: up to the next digit or point. *)
Definition is_point (c : byte) : bool := bool_decide (byte_to_Z c = 46).
Fixpoint unit_span (s : bytes) : bytes * bytes :=
  match s with
  | [] => ([], [])
  | c :: r => if is_point c || is_digit c then ([], s) else let '(u, rest) := unit_span r in (c :: u, rest)
  end.

Definition greek_mu : string := bytes_str [byte_of_Z 206; byte_of_Z 188].
Definition unitMap (u : string) : option Z :=
  if bool_decide (u = "ns"%string) then Some 1
  else if bool_decide (u = "us"%string ∨ u = (micro +:+ "s")%string ∨ u = (greek_mu +:+ "s")%string) then Some 1000
  else if bool_decide (u = "ms"%string) then Some 1000000
  else if bool_decide (u = "s"%string) then Some 1000000000
  else if bool_decide (u = "m"%string) then Some 60000000000
  else if bool_decide (u = "h"%string) then Some 3600000000000
  else None.

(** One number with its unit: its value and what follows; [None] is an error. *)
Definition parse_part (s : bytes) : option (Z * bytes) :=
  match s with
  | [] => None
  | c :: _ =>
    if negb (is_point c || is_digit c) then None
    else
    '(v, s1) ← leadingInt 0 s;
    let pre := bool_decide (length s1 ≠ length s) in
    let '(f, scale, s2, post) :=
      match s1 with
      | c :: r =>
        if is_point c then
          let '(f, scale, s2) := leadingFraction 0 (f_of_Z 1) false r in (f, scale, s2, bool_decide (length s2 ≠ length r))
        else (0, f_of_Z 1, s1, false)
      | [] => (0, f_of_Z 1, s1, false)
      end in
    if negb pre && negb post then None
    else
    let '(u, s3) := unit_span s2 in
    if bool_decide (u = []) then None
    else
    unit_ ← unitMap (bytes_str u);
    if bool_decide (max_int64 / unit_ < v) then None
    else
    let v := v * unit_ in
    let v := if bool_decide (0 < f) then to_int64 (v + f_trunc (f_mul (f_of_Z f) (f_div (f_of_Z unit_) scale))) else v in
    if bool_decide (v < 0) then None else Some (v, s3)
  end.

(** Every part takes at least one byte. *)
Fixpoint parse_parts (fuel : nat) (d : Z) (s : bytes) : option Z :=
  match s with
  | [] => Some d
  | _ =>
    match fuel with
    | O => None
    | S fuel =>
      '(v, s) ← parse_part s;
      let d := to_int64 (d + v) in
      if bool_decide (d < 0) then None else parse_parts fuel d s
    end
  end.

(** [time.ParseDuration]; [None] is an error. *)
Definition ParseDuration (s : string) : option Z :=
  let '(neg, s) := split_sign (str_bytes s) in
  if bool_decide (s = str_bytes "0") then Some 0
  else if bool_decide (s = []) then None
  else
  d ← parse_parts (length s) 0 s;
  Some (if neg then - d else d).

Example durations_parse :
  (ParseDuration <$> ["300ms"; "1h15m30.918273645s"; "-1.5h"; "1.5us"; "0"; ""; "3"; ".s"; "1d"; "9223372036854775807ns"; "9223372036854775808ns"; "+.5m"; "0.3333333333333333333h"])%string =
  [Some 300000000; Some 4530918273645; Some (-5400000000000); Some 1500; Some 0; None; None; None; None; Some 9223372036854775807; None; Some 30000000000; Some 1200000000000].
Proof. vm_compute. reflexivity. Qed.

(** ** Round trip *)

(** The digits of a fraction. *)
Definition dval (x : Z) (ds : list Z) : Z := fold_left (λ a d, a * 10 + d) ds x.
Definition digits (ds : list Z) : Prop := Forall (λ d, 0 ≤ d < 10) ds.
Definition tens (k : nat) : positive * Z := Nat.iter k (λ s, f_mul s (f_of_Z 10)) (f_of_Z 1).

Lemma FormatUint_digit d : 0 ≤ d < 10 → str_bytes (FormatUint d) = [digit_char d].
Proof. intros. unfold FormatUint. rewrite bytes_str_bytes. cbn. by rewrite bool_decide_true by lia. Qed.

Lemma dval_app x l1 l2 : dval x (l1 ++ l2) = dval (dval x l1) l2.
Proof. apply fold_left_app. Qed.
Lemma dval_bounds x ds : 0 ≤ x → digits ds → x * 10 ^ Z.of_nat (length ds) ≤ dval x ds < (x + 1) * 10 ^ Z.of_nat (length ds).
Proof.
  intros Hx Hds. revert x Hx. induction Hds as [|d ds Hd _ IH]; intros x Hx; [cbn; lia|].
  cbn [length]. rewrite Nat2Z.inj_succ, Z.pow_succ_r by lia. destruct (IH (x * 10 + d)) as [H1 H2]; [lia|].
  assert (0 < 10 ^ Z.of_nat (length ds)) by (apply Z.pow_pos_nonneg; lia). change (dval x (d :: ds)) with (dval (x * 10 + d) ds). nia.
Qed.

Lemma is_digit_char d : 0 ≤ d < 10 → is_digit (digit_char d) = true ∧ digit_val (digit_char d) = d ∧ is_point (digit_char d) = false.
Proof.
  intros Hd. unfold is_digit, digit_val, is_point. rewrite digit_char_val by done.
  split_and!; [by rewrite bool_decide_true by lia|lia|by rewrite bool_decide_false by lia].
Qed.

Lemma max_int64_tenth : max_int64 / 10 = 922337203685477580.
Proof. reflexivity. Qed.
Lemma leadingInt_step x d rest : 0 ≤ d < 10 → 0 ≤ x → x * 10 + d ≤ max_int64 → leadingInt x (digit_char d :: rest) = leadingInt (x * 10 + d) rest.
Proof.
  intros Hd Hx Hm. cbn [leadingInt]. destruct (is_digit_char d Hd) as (-> & -> & _). cbn [negb].
  rewrite max_int64_tenth, bool_decide_false by (unfold max_int64 in *; lia). rewrite (swrap_id 64) by (unfold in_s, max_int64 in *; lia).
  by rewrite bool_decide_false by lia.
Qed.
Lemma leadingInt_fmt fuel n rest : 0 ≤ n < 10 ^ Z.of_nat fuel → n ≤ max_int64 → leadingInt 0 (fmt_digits fuel n ++ rest) = leadingInt n rest.
Proof.
  revert n rest. induction fuel as [|fuel IH]; intros n rest Hn Hm; [change (10 ^ Z.of_nat 0) with 1 in Hn; by replace n with 0 by lia|].
  cbn [fmt_digits]. pose proof (Z.div_mod n 10 ltac:(lia)). pose proof (Z.mod_pos_bound n 10 ltac:(lia)).
  case_bool_decide; [cbn [app]; by rewrite leadingInt_step by lia|].
  pose proof (Z.div_pos n 10 ltac:(lia) ltac:(lia)). rewrite <- app_assoc, IH; [|rewrite Nat2Z.inj_succ, Z.pow_succ_r in Hn by lia; lia|lia].
  cbn [app]. rewrite leadingInt_step by lia. f_equal. lia.
Qed.

(** What follows a number: nothing, or no digit. *)
Definition no_digit (s : bytes) : Prop := match s with [] => True | c :: _ => is_digit c = false end.
Definition starts_digit (s : bytes) : Prop := match s with [] => True | c :: _ => is_digit c = true end.
Lemma leadingInt_stop x s : no_digit s → leadingInt x s = Some (x, s).
Proof. destruct s as [|c s]; [done|]. cbn. by intros ->. Qed.

Lemma leadingFraction_digits x k ds rest : 0 ≤ x → digits ds → dval x ds ≤ max_int64 → no_digit rest →
  leadingFraction x (tens k) false ((digit_char <$> ds) ++ rest) = (dval x ds, tens (length ds + k), rest).
Proof.
  intros Hx Hds. revert x k Hx. induction Hds as [|d ds Hd Hds IH]; intros x k Hx Hm Hrest.
  { destruct rest as [|c rest]; [done|]. cbn in *. by rewrite Hrest. }
  change (dval x (d :: ds)) with (dval (x * 10 + d) ds) in *. pose proof (dval_bounds (x * 10 + d) ds ltac:(lia) Hds) as [Hlow _].
  assert (0 < 10 ^ Z.of_nat (length ds)) by (apply Z.pow_pos_nonneg; lia). assert (x * 10 + d ≤ max_int64) by nia.
  change ((digit_char <$> d :: ds) ++ rest) with (digit_char d :: ((digit_char <$> ds) ++ rest)). cbn [leadingFraction].
  destruct (is_digit_char d Hd) as (-> & -> & _). cbn [negb]. rewrite max_int64_tenth, bool_decide_false by (unfold max_int64 in *; lia).
  rewrite (swrap_id 64) by (unfold in_s, max_int64 in *; lia). rewrite bool_decide_false by lia.
  change (f_mul (tens k) (f_of_Z 10)) with (tens (S k)). rewrite IH by (done || lia). cbn [length]. by rewrite Nat.add_succ_r.
Qed.

(** The printed fraction. *)
Fixpoint fixed (n : nat) (v : Z) : list Z := match n with O => [] | S n => fixed n (v / 10) ++ [v mod 10] end.
Lemma fixed_spec n v : 0 ≤ v → digits (fixed n v) ∧ length (fixed n v) = n ∧ dval 0 (fixed n v) = v mod 10 ^ Z.of_nat n.
Proof.
  revert v. induction n as [|n IH]; intros v Hv; [split_and!; [constructor|done|symmetry; apply Z.mod_1_r]|].
  pose proof (Z.mod_pos_bound v 10 ltac:(lia)). destruct (IH (v / 10)) as (H1 & H2 & H3); [by apply Z.div_pos|]. cbn [fixed]. split_and!.
  - apply Forall_app. split; [done|]. by constructor.
  - rewrite length_app, H2. cbn. lia.
  - rewrite dval_app, H3. cbn [dval fold_left]. assert (0 < 10 ^ Z.of_nat n) by (apply Z.pow_pos_nonneg; lia).
    rewrite Nat2Z.inj_succ, Z.pow_succ_r by lia. rewrite (Z.rem_mul_r v 10) by lia. lia.
Qed.
Lemma frac_digits_print prec v ds : 0 ≤ v →
  frac_digits prec v true (bytes_str (digit_char <$> ds)) = (true, bytes_str (digit_char <$> fixed prec v ++ ds), v / 10 ^ Z.of_nat prec).
Proof.
  revert v ds. induction prec as [|prec IH]; intros v ds Hv; [cbn; by rewrite Z.div_1_r|].
  pose proof (Z.mod_pos_bound v 10 ltac:(lia)). cbn [frac_digits orb].
  replace (FormatUint (v mod 10) +:+ bytes_str (digit_char <$> ds)) with (bytes_str (digit_char <$> v mod 10 :: ds)).
  2:{ unfold FormatUint. cbn [fmt_digits]. by rewrite bool_decide_true by lia. }
  rewrite IH by (by apply Z.div_pos). cbn [fixed]. rewrite <- app_assoc. rewrite Nat2Z.inj_succ, Z.pow_succ_r, Z.div_div by lia. done.
Qed.
Lemma frac_digits_skip prec v : 0 ≤ v →
  (v mod 10 ^ Z.of_nat prec = 0 ∧ frac_digits prec v false "" = (false, ""%string, v / 10 ^ Z.of_nat prec)) ∨
  ∃ ds, frac_digits prec v false "" = (true, bytes_str (digit_char <$> ds), v / 10 ^ Z.of_nat prec) ∧ digits ds ∧ (0 < length ds ≤ prec)%nat ∧
    dval 0 ds * 10 ^ Z.of_nat (prec - length ds) = v mod 10 ^ Z.of_nat prec ∧ 0 < dval 0 ds.
Proof.
  revert v. induction prec as [|prec IH]; intros v Hv; [left; cbn; by rewrite Z.mod_1_r, Z.div_1_r|].
  pose proof (Z.mod_pos_bound v 10 ltac:(lia)). assert (0 ≤ v / 10) by (by apply Z.div_pos).
  cbn [frac_digits]. rewrite Nat2Z.inj_succ, Z.pow_succ_r by lia. rewrite <- Z.div_div, Z.rem_mul_r by lia.
  destruct (decide (v mod 10 = 0)) as [E|E].
  - rewrite bool_decide_false by lia. cbn [orb]. destruct (IH (v / 10)) as [[H1 ->]|(ds & -> & H2 & H3 & H4 & H5)]; [done|left; by rewrite E, H1|].
    right. exists ds. split_and!; [done|done|lia|lia| |done]. rewrite Nat.sub_succ_l by lia. rewrite Nat2Z.inj_succ, Z.pow_succ_r by lia. lia.
  - right. rewrite bool_decide_true by done. cbn [orb]. replace (FormatUint (v mod 10) +:+ "") with (bytes_str (digit_char <$> [v mod 10])).
    2:{ unfold FormatUint. cbn [fmt_digits]. by rewrite bool_decide_true by lia. }
    rewrite frac_digits_print by done. destruct (fixed_spec prec (v / 10)) as (H1 & H2 & H3); [done|].
    pose proof (Z.mod_pos_bound (v / 10) (10 ^ Z.of_nat prec) ltac:(apply Z.pow_pos_nonneg; lia)).
    eexists. split; [reflexivity|]. rewrite length_app, H2, dval_app, H3. cbn [length dval fold_left].
    rewrite Nat.add_comm, Nat.sub_diag, Z.mul_1_r. split_and!; [apply Forall_app; split; [done|by constructor]|lia..].
Qed.

(** Floats: an integer that fits is exact. *)
Lemma odd_part_value p e : ∀ q e', odd_part p e = (q, e') → e ≤ e' ∧ Zpos p = Zpos q * 2 ^ (e' - e).
Proof.
  revert e. induction p as [p IH|p IH|]; intros e q e'; cbn [odd_part]; [intros [= <- <-]|intros E|intros [= <- <-]]; [rewrite Z.sub_diag; lia| |rewrite Z.sub_diag; lia].
  destruct (IH _ _ _ E) as [H1 H2]. split; [lia|]. rewrite Pos2Z.inj_xO, H2. replace (e' - e) with (Z.succ (e' - (e + 1))) by lia. rewrite Z.pow_succ_r by lia. lia.
Qed.
Lemma round53_small m e : 0 < m < 2 ^ 53 → round53 m e = odd_part (Z.to_pos m) e.
Proof.
  intros [H1 H2]. unfold round53. assert (Z.log2 m < 53) by (by apply Z.log2_lt_pow2). by rewrite bool_decide_true by lia.
Qed.
Lemma scaled_exact f j : 0 < f → 0 ≤ j → f * 5 ^ j < 2 ^ 53 → f_trunc (f_mul (f_of_Z f) (Z.to_pos (5 ^ j), j)) = f * 10 ^ j.
Proof.
  intros Hf Hj Hm. assert (0 < 5 ^ j) by (apply Z.pow_pos_nonneg; lia). unfold f_of_Z. rewrite round53_small by nia.
  destruct (odd_part (Z.to_pos f) 0) as [p e] eqn:E. apply odd_part_value in E as [He E]. rewrite Z2Pos.id, Z.sub_0_r in E by done.
  assert (0 < 2 ^ e) by (apply Z.pow_pos_nonneg; lia). unfold f_mul. cbn [fst snd]. rewrite Z2Pos.id by done. rewrite round53_small by nia.
  destruct (odd_part (Z.to_pos (Zpos p * 5 ^ j)) (e + j)) as [q e'] eqn:E'. apply odd_part_value in E' as [He' E']. rewrite Z2Pos.id in E' by lia.
  unfold f_trunc. cbn [fst snd]. rewrite bool_decide_true by lia. replace e' with ((e' - (e + j)) + (e + j)) by lia.
  rewrite Z.pow_add_r, Z.mul_assoc, <- E' by lia. rewrite E, Z.pow_add_r by lia. change 10 with (2 * 5). rewrite Z.pow_mul_l. lia.
Qed.
(** A unit over a power of ten below it. *)
Lemma unit_over_tens u k : (k ≤ u)%nat → u ∈ [0; 3; 6; 9]%nat → f_div (f_of_Z (10 ^ Z.of_nat u)) (tens k) = (Z.to_pos (5 ^ Z.of_nat (u - k)), Z.of_nat (u - k)).
Proof.
  intros Hk Hu. repeat (apply elem_of_cons in Hu as [->|Hu]); [..|by apply elem_of_nil in Hu];
    do 10 (destruct k as [|k]; [first [lia | vm_compute; reflexivity]|]); lia.
Qed.

(** ** One part of a printed duration *)

(** A unit as it is printed: no digits and no points, so it ends where the next
    number begins. *)
Definition plain_unit (t : bytes) : Prop := t ≠ [] ∧ Forall (λ c, is_point c || is_digit c = false) t.
Lemma unit_span_app t rest : plain_unit t → starts_digit rest → unit_span (t ++ rest) = (t, rest).
Proof.
  intros [_ Ht] Hr. induction Ht as [|c t Hc _ IH]; cbn [app unit_span].
  - destruct rest as [|c rest]; [done|]. cbn in *. by rewrite Hr, orb_true_r.
  - by rewrite Hc, IH.
Qed.
Lemma plain_unit_no_digit t rest : plain_unit t → no_digit (t ++ rest).
Proof. intros [Hn Ht]. destruct Ht as [|c t Hc _]; [done|]. cbn. by apply orb_false_iff in Hc as [_ ?]. Qed.

(** The text of a fraction, and its value in units of [10^-u]. *)
Definition frac_text (ds : list Z) : bytes := match ds with [] => [] | _ => byte_of_Z 46 :: (digit_char <$> ds) end.

Lemma parse_part_ok v u ds t mult rest : 0 ≤ v → plain_unit t → unitMap (bytes_str t) = Some mult → starts_digit rest →
  digits ds → (length ds ≤ u)%nat → (ds ≠ [] → 0 < dval 0 ds ∧ mult = 10 ^ Z.of_nat u) → u ∈ [0; 3; 6; 9]%nat → 0 < mult →
  v * mult + dval 0 ds * 10 ^ Z.of_nat (u - length ds) ≤ max_int64 →
  parse_part (fmt_digits 20 v ++ frac_text ds ++ t ++ rest) = Some (v * mult + dval 0 ds * 10 ^ Z.of_nat (u - length ds), rest).
Proof.
  intros Hv Ht Hu Hrest Hds Hlen Hf Hin Hpos Hmax. pose proof (dval_bounds 0 ds ltac:(lia) Hds) as [Hd1 Hd2].
  assert (0 < 10 ^ Z.of_nat (u - length ds)) by (apply Z.pow_pos_nonneg; lia). assert (v ≤ max_int64) by nia.
  destruct (fmt_digits_cons 20 v) as (d & l & E & Hd); [lia..|]. destruct (is_digit_char d Hd) as (Hdig & _ & _).
  unfold parse_part. rewrite E at 1. cbn [app]. rewrite Hdig, orb_true_r. cbn [negb].
  rewrite leadingInt_fmt by (unfold max_int64 in *; change (Z.of_nat 20) with 20; lia).
  assert (no_digit (frac_text ds ++ t ++ rest)) as Hnd by (destruct ds; [exact (plain_unit_no_digit t rest Ht)|reflexivity]).
  rewrite leadingInt_stop by done. cbn [mbind option_bind].
  rewrite (bool_decide_true (length (frac_text ds ++ t ++ rest) ≠ _)) by (rewrite (length_app (fmt_digits 20 v)), E; cbn [length]; lia). cbn [negb andb].
  assert (max_int64 / mult < v → False) as Hover.
  { intros Hlt. pose proof (Z.mul_succ_div_gt max_int64 mult Hpos). nia. }
  destruct ds as [|d0 ds0].
  - cbn [frac_text app length] in *. change (dval 0 []) with 0 in *. destruct Ht as [Hne Ht]. destruct t as [|c t]; [done|]. cbn [app].
    apply Forall_cons in Ht as Ht'. destruct Ht' as [Hc _]. apply orb_false_iff in Hc as Hc'. destruct Hc' as [-> _].
    change (c :: t ++ rest) with ((c :: t) ++ rest). rewrite unit_span_app by done. rewrite bool_decide_false by done. rewrite Hu. cbn [mbind option_bind].
    rewrite bool_decide_false by done. rewrite !(bool_decide_false (0 < 0)) by lia. rewrite bool_decide_false by nia. do 2 f_equal. lia.
  - destruct (Hf ltac:(done)) as [Hf0 ->]. set (ds := d0 :: ds0) in *. assert (frac_text ds = byte_of_Z 46 :: (digit_char <$> ds)) as -> by done. cbn [app].
    change (is_point (byte_of_Z 46)) with true. cbn iota. change (f_of_Z 1) with (tens 0).
    assert (u ≤ 9)%nat by (clear -Hin; repeat (apply elem_of_cons in Hin as [->|Hin]); [lia..|by apply elem_of_nil in Hin]).
    assert (dval 0 ds < 10 ^ 9) as Hd9.
    { eapply Z.lt_le_trans; [exact Hd2|]. rewrite Z.mul_1_l. apply Z.pow_le_mono_r; [lia|]. lia. }
    rewrite leadingFraction_digits; [|done..|unfold max_int64; lia|by apply plain_unit_no_digit]. rewrite Nat.add_0_r.
    rewrite unit_span_app by done. rewrite (bool_decide_false (t = [])) by (by destruct Ht). rewrite Hu. cbn [mbind option_bind].
    rewrite bool_decide_false by done. rewrite !(bool_decide_true (0 < dval 0 ds)) by done. assert (5 ^ Z.of_nat (u - length ds) ≤ 5 ^ 9) by (apply Z.pow_le_mono_r; lia).
    rewrite unit_over_tens, scaled_exact by (done || lia || nia).
    rewrite (swrap_id 64) by (unfold in_s, max_int64 in *; nia). rewrite bool_decide_false by nia. done.
Qed.

Lemma str_bytes_app a b : str_bytes (a +:+ b) = str_bytes a ++ str_bytes b.
Proof. induction a as [|c a IH]; [done|]. exact (f_equal (cons _) IH). Qed.
Lemma str_bytes_Format v : str_bytes (FormatUint v) = fmt_digits 20 v.
Proof. apply bytes_str_bytes. Qed.

(** [fmtFrac]: the digits after the point, and the number before it. *)
Lemma fmtFrac_spec prec v : 0 ≤ v → ∃ ds, fmtFrac prec v = (bytes_str (frac_text ds), v / 10 ^ Z.of_nat prec) ∧ digits ds ∧ (length ds ≤ prec)%nat ∧
  dval 0 ds * 10 ^ Z.of_nat (prec - length ds) = v mod 10 ^ Z.of_nat prec ∧ (ds ≠ [] → 0 < dval 0 ds).
Proof.
  intros Hv. unfold fmtFrac. destruct (frac_digits_skip prec v Hv) as [[H1 ->]|(ds & -> & H2 & H3 & H4 & H5)].
  - exists []. split_and!; [done|constructor|cbn; lia|by rewrite H1|done].
  - exists ds. destruct ds as [|d ds]; [cbn in *; lia|]. split_and!; [done|done|lia|done|done].
Qed.

Lemma parse_parts_step fuel d s v rest : s ≠ [] → parse_part s = Some (v, rest) → 0 ≤ d → 0 ≤ v → d + v ≤ max_int64 →
  parse_parts (S fuel) d s = parse_parts fuel (d + v) rest.
Proof.
  intros Hs E Hd Hv Hm. destruct s as [|c s]; [done|]. cbn [parse_parts]. rewrite E. cbn [mbind option_bind].
  rewrite (swrap_id 64) by (unfold in_s, max_int64 in *; lia). by rewrite bool_decide_false by lia.
Qed.
Lemma parse_parts_nil fuel d : parse_parts fuel d [] = Some d.
Proof. by destruct fuel. Qed.
Lemma fmt_starts v rest : 0 ≤ v → starts_digit (fmt_digits 20 v ++ rest) ∧ fmt_digits 20 v ++ rest ≠ [].
Proof. intros Hv. destruct (fmt_digits_cons 20 v) as (d & l & -> & Hd); [lia..|]. cbn. split; [by apply is_digit_char|done]. Qed.

(** A body that parses, behind a sign. *)
Lemma ParseDuration_body body d (neg : bool) : 0 ≤ d → starts_digit (str_bytes body) → (2 ≤ length (str_bytes body))%nat →
  parse_parts (length (str_bytes body)) 0 (str_bytes body) = Some d →
  ParseDuration (if neg then ("-" +:+ body)%string else body) = Some (if neg then - d else d).
Proof.
  intros Hd Hs Hl E. unfold ParseDuration. assert (split_sign (str_bytes (if neg then ("-" +:+ body)%string else body)) = (neg, str_bytes body)) as ->.
  { destruct neg; [done|]. destruct (str_bytes body) as [|c l]; [done|]. cbn in *. unfold is_digit in Hs. apply bool_decide_eq_true_1 in Hs.
    by rewrite !bool_decide_false by lia. }
  rewrite !bool_decide_false by (intros Eb; rewrite Eb in Hl; cbn in Hl; lia). by rewrite E.
Qed.

(** A body without sign that parses to [u]. *)
Definition printed (body : string) (u : Z) : Prop :=
  starts_digit (str_bytes body) ∧ (2 ≤ length (str_bytes body))%nat ∧ parse_parts (length (str_bytes body)) 0 (str_bytes body) = Some u.

(** Durations below a second have one part. *)
Lemma small_body u prec t : 0 < u < 10 ^ 9 → prec ∈ [0; 3; 6]%nat → plain_unit (str_bytes t) → unitMap t = Some (10 ^ Z.of_nat prec) →
  printed (let '(frac, v) := fmtFrac prec u in FormatUint v +:+ frac +:+ t) u.
Proof.
  intros Hu Hin Ht Hmult. destruct (fmtFrac_spec prec u) as (ds & -> & Hds & Hlen & Hval & Hpos); [lia|].
  pose proof (Z.mod_pos_bound u (10 ^ Z.of_nat prec) ltac:(apply Z.pow_pos_nonneg; lia)).
  assert (0 < 10 ^ Z.of_nat prec) by (apply Z.pow_pos_nonneg; lia). pose proof (Z.div_mod u (10 ^ Z.of_nat prec) ltac:(lia)).
  pose proof (Z.div_pos u (10 ^ Z.of_nat prec) ltac:(lia) ltac:(lia)) as Hv.
  unfold printed. rewrite !str_bytes_app, str_bytes_Format, bytes_str_bytes. destruct (fmt_starts (u / 10 ^ Z.of_nat prec) (frac_text ds ++ str_bytes t) Hv) as [Hs Hne].
  destruct (fmt_digits_cons 20 (u / 10 ^ Z.of_nat prec)) as (d & l & E & Hd); [lia..|].
  assert (2 ≤ length (fmt_digits 20 (u / 10 ^ Z.of_nat prec) ++ frac_text ds ++ str_bytes t))%nat as Hl2.
  { destruct Ht as [Htn _]. rewrite E, !length_app. cbn [length]. destruct (str_bytes t); [done|]. cbn [length]. lia. }
  split_and!; [done|done|]. destruct (length (_ ++ _ ++ _)) as [|n] eqn:El; [lia|].
  rewrite (parse_parts_step _ _ _ u []); [apply parse_parts_nil|done| |lia..|unfold max_int64; lia].
  pose proof (parse_part_ok (u / 10 ^ Z.of_nat prec) prec ds (str_bytes t) (10 ^ Z.of_nat prec) []) as Hp. rewrite app_nil_r in Hp.
  rewrite Hp; [rewrite Hval; do 2 f_equal; lia|done|done|by rewrite str_bytes_str|done|done|done|auto| |done|rewrite Hval; unfold max_int64; lia].
  clear -Hin. set_solver.
Qed.

(** Longer ones have seconds, and then minutes and hours.  The parts are read from
    the left; [rest] is what follows and [d] its value. *)
Definition parses (s : bytes) (d : Z) : Prop := ∀ fuel d0, (length s ≤ fuel)%nat → 0 ≤ d0 → d0 + d ≤ max_int64 → parse_parts fuel d0 s = Some (d0 + d).
Lemma parses_part v u ds t mult rest d : 0 ≤ v → plain_unit t → unitMap (bytes_str t) = Some mult → starts_digit rest →
  digits ds → (length ds ≤ u)%nat → (ds ≠ [] → 0 < dval 0 ds ∧ mult = 10 ^ Z.of_nat u) → u ∈ [0; 3; 6; 9]%nat → 0 < mult → 0 ≤ d → parses rest d →
  parses (fmt_digits 20 v ++ frac_text ds ++ t ++ rest) (v * mult + dval 0 ds * 10 ^ Z.of_nat (u - length ds) + d).
Proof.
  intros Hv Ht Hu Hrest Hds Hlen Hf Hin Hpos Hd Hp fuel d0 Hl Hd0 Hm. pose proof (dval_bounds 0 ds ltac:(lia) Hds) as [Hd1 _].
  assert (0 < 10 ^ Z.of_nat (u - length ds)) by (apply Z.pow_pos_nonneg; lia).
  destruct (fmt_starts v (frac_text ds ++ t ++ rest) Hv) as [_ Hne]. destruct (fmt_digits_cons 20 v) as (c & l & E & _); [lia..|].
  rewrite !length_app, E in Hl. cbn [length] in Hl. destruct fuel as [|fuel]; [lia|].
  erewrite parse_parts_step; [|done|apply parse_part_ok; try done; nia|done|nia|nia]. rewrite Hp by (lia || nia). f_equal. lia.
Qed.
Lemma parses_nil : parses [] 0.
Proof. intros fuel d0 _ _ _. by rewrite parse_parts_nil, Z.add_0_r. Qed.
Lemma unit_plain (t : string) mult : t ∈ ["s"; "m"; "h"]%string → unitMap t = Some mult → plain_unit (str_bytes t) ∧ unitMap (bytes_str (str_bytes t)) = Some mult.
Proof.
  intros Hin Hm. rewrite str_bytes_str. split; [|done]. repeat (apply elem_of_cons in Hin as [->|Hin]); [..|by apply elem_of_nil in Hin];
    (split; [done|repeat constructor]).
Qed.

Lemma parses_printed v rest u body : str_bytes body = fmt_digits 20 v ++ rest → 0 ≤ v → rest ≠ [] → u ≤ max_int64 → parses (str_bytes body) u → printed body u.
Proof.
  intros E Hv Hr Hu Hp. unfold printed. rewrite E in *. destruct (fmt_starts v rest Hv) as [Hs _]. destruct (fmt_digits_cons 20 v) as (c & l & Ef & _); [lia..|].
  split_and!; [done| |by rewrite Hp by lia]. rewrite Ef, length_app. cbn [length]. destruct rest; [done|]. cbn [length]. lia.
Qed.

Lemma small_printed u : 0 ≤ u < 1000000000 → printed
  (if bool_decide (u = 0) then "0s"%string
   else
   let '(prec, unit_) := if bool_decide (u < 1000) then (O, "n"%string) else if bool_decide (u < 1000000) then (3%nat, micro) else (6%nat, "m"%string) in
   let '(frac, v) := fmtFrac prec u in (FormatUint v +:+ frac +:+ unit_ +:+ "s")%string) u.
Proof.
  intros Hu. case_bool_decide as E0; [subst; split_and!; [done|cbn; lia|vm_compute; reflexivity]|].
  assert (∀ prec t, prec ∈ [0; 3; 6]%nat → plain_unit (str_bytes (t +:+ "s")) → unitMap (t +:+ "s") = Some (10 ^ Z.of_nat prec) →
    printed (let '(frac, v) := fmtFrac prec u in FormatUint v +:+ frac +:+ t +:+ "s") u) as H by (intros; apply small_body; done || lia).
  case_bool_decide; [|case_bool_decide]; (apply H; [clear; set_solver|split; [done|repeat constructor]|reflexivity]).
Qed.

Lemma secs_parse u : 1000000000 ≤ u ≤ max_int64 → ∃ ds, fmtFrac 9 u = (bytes_str (frac_text ds), u / 10 ^ 9) ∧
  ∀ v, 0 ≤ v → parses (fmt_digits 20 v ++ frac_text ds ++ str_bytes "s") (v * 10 ^ 9 + u mod 10 ^ 9).
Proof.
  intros Hu. destruct (fmtFrac_spec 9 u) as (ds & E & Hds & Hlen & Hval & Hpos); [lia|]. exists ds. split; [exact E|]. intros v Hv.
  destruct (unit_plain "s" (10 ^ 9)) as [H1 H2]; [clear; set_solver|reflexivity|]. change (10 ^ Z.of_nat 9) with (10 ^ 9) in Hval. rewrite <- Hval.
  pose proof (parses_part v 9 ds (str_bytes "s") (10 ^ 9) [] 0) as Hp. rewrite app_nil_r, Z.add_0_r in Hp. apply Hp; try done.
  - intros Hn. split; [auto|reflexivity].
  - clear. set_solver.
  - apply parses_nil.
Qed.
(** A part without a fraction in front. *)
Lemma parses_whole v (t : string) mult rest d : 0 ≤ v → t ∈ ["s"; "m"; "h"]%string → unitMap t = Some mult → 0 < mult → starts_digit rest → 0 ≤ d → parses rest d →
  parses (fmt_digits 20 v ++ str_bytes t ++ rest) (v * mult + d).
Proof.
  intros Hv Hin Hm Hpos Hs Hd Hp. destruct (unit_plain t mult Hin Hm) as [H1 H2].
  pose proof (parses_part v 0 [] (str_bytes t) mult rest d Hv H1 H2 Hs) as H. cbn in H. rewrite Z.add_0_r in H. apply H; try done; [constructor|clear; set_solver].
Qed.

Lemma long_printed u : 1000000000 ≤ u ≤ max_int64 → printed
  (let '(frac, v) := fmtFrac 9 u in
   let secs := (FormatUint (v mod 60) +:+ frac +:+ "s")%string in
   let m := v / 60 in
   if bool_decide (0 < m) then
     let mins := (FormatUint (m mod 60) +:+ "m" +:+ secs)%string in
     let h := m / 60 in
     if bool_decide (0 < h) then (FormatUint h +:+ "h" +:+ mins)%string else mins
   else secs) u.
Proof.
  intros Hu. destruct (secs_parse u Hu) as (ds & -> & Hsecs). set (v := u / 10 ^ 9).
  pose proof (Z.div_mod u (10 ^ 9) ltac:(lia)) as Hdm. pose proof (Z.mod_pos_bound u (10 ^ 9) ltac:(lia)). fold v in Hdm.
  assert (0 ≤ v) by (apply Z.div_pos; lia). pose proof (Z.mod_pos_bound v 60 ltac:(lia)). pose proof (Z.div_mod v 60 ltac:(lia)). pose proof (Z.div_pos v 60 ltac:(lia) ltac:(lia)).
  pose proof (Z.mod_pos_bound (v / 60) 60 ltac:(lia)). pose proof (Z.div_mod (v / 60) 60 ltac:(lia)). pose proof (Z.div_pos (v / 60) 60 ltac:(lia) ltac:(lia)).
  specialize (Hsecs (v mod 60) ltac:(lia)). set (secs := (FormatUint (v mod 60) +:+ bytes_str (frac_text ds) +:+ "s")%string).
  assert (str_bytes secs = fmt_digits 20 (v mod 60) ++ frac_text ds ++ str_bytes "s") as Es by (unfold secs; by rewrite !str_bytes_app, str_bytes_Format, bytes_str_bytes).
  rewrite <- Es in Hsecs. cbv zeta. case_bool_decide as Hm; cycle 1.
  { eapply (parses_printed (v mod 60)); [exact Es|lia|by destruct ds|lia|]. replace u with (v mod 60 * 10 ^ 9 + u mod 10 ^ 9) at 1; [done|lia]. }
  assert (parses (str_bytes (FormatUint (v / 60 mod 60) +:+ "m" +:+ secs)) (v / 60 mod 60 * 60000000000 + (v mod 60 * 10 ^ 9 + u mod 10 ^ 9))) as Hmins.
  { rewrite !str_bytes_app, str_bytes_Format. apply parses_whole; [lia|clear; set_solver|reflexivity|lia| |lia|done]. rewrite Es. apply fmt_starts; lia. }
  case_bool_decide as Hh; cycle 1.
  { eapply (parses_printed (v / 60 mod 60)); [by rewrite str_bytes_app, str_bytes_Format|lia|done|lia|].
    replace u with (v / 60 mod 60 * 60000000000 + (v mod 60 * 10 ^ 9 + u mod 10 ^ 9)) at 1; [done|lia]. }
  eapply (parses_printed (v / 60 / 60)); [by rewrite str_bytes_app, str_bytes_Format|lia|done|lia|].
  replace u with (v / 60 / 60 * 3600000000000 + (v / 60 mod 60 * 60000000000 + (v mod 60 * 10 ^ 9 + u mod 10 ^ 9))) at 1 by lia.
  rewrite str_bytes_app, str_bytes_Format, str_bytes_app. apply parses_whole; [lia|clear; set_solver|reflexivity|lia| |lia|done].
  rewrite str_bytes_app, str_bytes_Format. apply fmt_starts; lia.
Qed.

(** What [String] prints parses back to the duration, for every duration but the
    smallest, whose absolute value does not fit. *)
Theorem duration_round_trip d : Z.abs d ≤ max_int64 → ParseDuration (duration_String d) = Some d.
Proof.
  intros Hd. unfold duration_String. set (u := Z.abs d) in *.
  match goal with |- ParseDuration (if _ then _ +:+ ?b else _) = _ => set (body := b) end.
  assert (printed body u) as (Hs & Hl & E).
  2:{ pose proof (ParseDuration_body body u (bool_decide (d < 0)) ltac:(lia) Hs Hl E) as H. case_bool_decide; rewrite H; f_equal; lia. }
  subst body. case_bool_decide; [apply small_printed; lia|apply long_printed; lia].
Qed.
