(* ===== verification/Router.v ===== *)
(** * Routing: pkg/router

    A request's headers select a virtual host by domain (exact, then longest
    wildcard, then the default) and in it the first route that matches.
    Regular expressions are a parameter: [Compile] gives the matcher of a
    pattern or fails.  The random value of [Route] is never looked at and is
    left out. *)

From Stdlib Require Import Ascii.
From stdpp Require Import sorting.
From S2P Require Import Prelude Serialize GoStrings.

Local Open Scope string_scope.
Local Open Scope Z_scope.

(* pkg/protocol/types.go, pkg/types/route.go *)
Definition MosnHeaderHostKey := "host".
Definition MosnHeaderPathKey := "path".
Definition MosnHeaderQueryStringKey := "querystring".
Definition SofaRouteMatchKey := "service".
Definition RouterMetadataKey := "filter_metadata".
Definition RouterMetadataKeyLb := "mosn.lb".

(** Descending order of lengths. *)
Definition longer (a b : nat) : Prop := (b ≤ a)%nat.
#[export] Instance longer_dec a b : Decision (longer a b).
Proof. unfold longer. apply _. Defined.
#[export] Instance longer_total : Total longer.
Proof. intros a b. unfold longer. lia. Qed.
#[export] Instance longer_trans : Transitive longer.
Proof. intros a b c. unfold longer. lia. Qed.

(** ** Configuration (pkg/api/v2) *)

(** A value of [v2.Metadata], an [interface{}]: a string, a map, or a value of
    another type. *)
Inductive mval := MStr (s : string) | MTree (m : gmap string mval) | MAny.

Record HeaderMatcher := mk_hm { hm_Name : string; hm_Value : string; hm_Regex : bool }.
Record RouterMatch := mk_match {
  m_Prefix : string; m_Path : string; m_Regex : string; m_CaseSensitive : bool; m_Headers : list HeaderMatcher;
}.
Record RouteAction := mk_action { a_ClusterName : string; a_MetadataMatch : gmap string mval; a_Timeout : Z }.
Record v2_Router := mk_router { r_Match : RouterMatch; r_Route : RouteAction }.
Record v2_VirtualCluster := mk_vc { vc_Pattern : string; vc_Name : string; vc_Method : string }.
Record v2_VirtualHost := mk_vhost {
  v_Name : string; v_Domains : list string; v_Routers : list v2_Router; v_RequireTLS : string;
  v_VirtualClusters : list v2_VirtualCluster;
}.

(** ** Matching headers and query parameters (configutility.go, httputility.go) *)

Record HeaderData := mk_hd { hd_Name : string; hd_Value : string; hd_IsRegex : bool; hd_Pattern : string → bool }.

Definition header_matches (value : string) (c : HeaderData) : bool :=
  if negb (hd_IsRegex c) then bool_decide (hd_Value c = value) else hd_Pattern c value.

Fixpoint MatchHeaders (requestHeaders : header_map) (configHeaders : list HeaderData) : bool :=
  match configHeaders with
  | [] => true
  | c :: cs =>
    match requestHeaders !! hd_Name c with
    | Some value => if header_matches value c then MatchHeaders requestHeaders cs else false
    | None => MatchHeaders requestHeaders cs
    end
  end.

Record queryParameterMatcher := mk_qpm {
  qp_name : string; qp_value : string; qp_isRegex : bool; qp_pattern : string → bool;
}.

Definition Matches (q : queryParameterMatcher) (requestQueryParams : header_map) : bool :=
  match requestQueryParams !! qp_name q with
  | None => false
  | Some requestQueryValue =>
    if qp_isRegex q then qp_pattern q requestQueryValue
    else if bool_decide (qp_value q = "") then true
    else bool_decide (qp_value q = requestQueryValue)
  end.

Fixpoint MatchQueryParams (queryParams : header_map) (config : list queryParameterMatcher) : bool :=
  match config with
  | [] => true
  | c :: cs => if Matches c queryParams then MatchQueryParams queryParams cs else false
  end.

Definition ParseQueryString (query : string) : header_map :=
  if bool_decide (query = "") then ∅
  else foldl (λ params qm,
         match Split qm "="%char with
         | [k; v] => <[TrimSpace k := TrimSpace v]> params
         | _ => params
         end) ∅ (Split query "&"%char).

(** ** Metadata (configutility.go, types.go) *)

(** [GenerateHashedValue] of pkg/types/route.go returns its input. *)
Definition GenerateHashedValue (input : string) : string := input.
Definition EqualHashValue (h1 h2 : string) : bool := bool_decide (h1 = h2).

Record criterion := mk_crit { c_Name : string; c_Value : string }.

Definition lb_metadata (metadata : gmap string mval) : option (gmap string mval) :=
  match metadata !! RouterMetadataKey with
  | Some (MTree value) => match value !! RouterMetadataKeyLb with Some (MTree lb) => Some lb | _ => None end
  | _ => None
  end.

Definition GetMosnLBMetaData (route : v2_Router) : gmap string mval :=
  default ∅ (lb_metadata (a_MetadataMatch (r_Route route))).

Section metadata.
  (** The order in which a map of values is ranged over. *)
  Context (range_meta : gmap string mval → list (string * mval)).

(** A value that is no string ends the process. *)
Fixpoint lb_hashed (l : list (string * mval)) : Go (gmap string string) :=
  match l with
  | [] => Ret ∅
  | (k, MStr vs) :: l => m ← lb_hashed l; Ret (<[k := GenerateHashedValue vs]> m)
  | _ => Panic (UserPanic "Currently,only map[string]string type is supported for metadata")
  end.

Definition GetClusterMosnLBMetaDataMap (metadata : gmap string mval) : Go (gmap string string) :=
  match lb_metadata metadata with Some lb => lb_hashed (range_meta lb) | None => Ret ∅ end.

(** The index of every name of the parent: the last one counts. *)
Fixpoint existing_map (i : nat) (l : list criterion) : gmap string nat :=
  match l with
  | [] => ∅
  | c :: l => existing_map (S i) l ∪ {[c_Name c := i]}
  end.

Definition add_criterion (existing : gmap string nat) (acc : list criterion) (kv : string * mval) : list criterion :=
  match kv.2 with
  | MStr vs =>
    let mmci := mk_crit kv.1 (GenerateHashedValue vs) in
    match existing !! kv.1 with
    | Some index => <[index := mmci]> acc
    | None => acc ++ [mmci]
    end
  | _ => acc
  end.

Definition extractMetadataMatchCriteria (parent : option (list criterion)) (metadataMatches : gmap string mval)
  : list criterion :=
  let from_parent := default [] parent in
  sort_by c_Name (foldl (add_criterion (existing_map 0 from_parent)) from_parent (range_meta metadataMatches)).

Definition NewMetadataMatchCriteriaImpl (metadataMatches : gmap string mval) : list criterion :=
  extractMetadataMatchCriteria None metadataMatches.

(** ** Routes (routeruleimpl.go) *)

Record RouteRuleImplBase := mk_base {
  b_caseSensitive : bool; b_vHost : string;
  b_routerMatch : RouterMatch; b_routerAction : RouteAction;
  b_configHeaders : list HeaderData; b_configQueryParameters : list queryParameterMatcher;
  b_metadataMatchCriteria : option (list criterion); b_metaData : option (gmap string string);
}.

Inductive RouteBase :=
  | SofaRouteRuleImpl (b : RouteRuleImplBase) (matchValue : string)
  | PathRouteRuleImpl (b : RouteRuleImplBase) (path : string)
  | PrefixRouteRuleImpl (b : RouteRuleImplBase) (prefix : string)
  | RegexRouteRuleImpl (b : RouteRuleImplBase) (regexStr : string) (regexPattern : string → bool).

Definition NewRouteRuleImplBase (vHost : string) (route : v2_Router) : Go RouteRuleImplBase :=
  if bool_decide (size (a_MetadataMatch (r_Route route)) = 0%nat) then
    Ret (mk_base false vHost (r_Match route) (r_Route route) [] [] None None)
  else
    let criteria := NewMetadataMatchCriteriaImpl (GetMosnLBMetaData route) in
    metaData ← GetClusterMosnLBMetaDataMap (a_MetadataMatch (r_Route route));
    Ret (mk_base false vHost (r_Match route) (r_Route route) [] [] (Some criteria) (Some metaData)).

Definition route_base (r : RouteBase) : RouteRuleImplBase :=
  match r with
  | SofaRouteRuleImpl b _ | PathRouteRuleImpl b _ | PrefixRouteRuleImpl b _ | RegexRouteRuleImpl b _ _ => b
  end.
Definition ClusterName (r : RouteBase) : string := a_ClusterName (b_routerAction (route_base r)).
Definition GlobalTimeout (r : RouteBase) : Z := a_Timeout (b_routerAction (route_base r)).
Definition Matcher (r : RouteBase) : string :=
  match r with
  | SofaRouteRuleImpl _ v => v | PathRouteRuleImpl _ p => p | PrefixRouteRuleImpl _ p => p
  | RegexRouteRuleImpl _ s _ => s
  end.

Definition matchRoute (b : RouteRuleImplBase) (headers : header_map) : bool :=
  if negb (MatchHeaders headers (b_configHeaders b)) then false
  else
  let queryParams := match headers !! MosnHeaderQueryStringKey with
                     | Some QueryString => ParseQueryString QueryString
                     | None => ∅
                     end in
  if bool_decide (size queryParams = 0%nat) then true
  else MatchQueryParams queryParams (b_configQueryParameters b).

Definition path_value (headers : header_map) : option string := headers !! ToLower MosnHeaderPathKey.

(** [Match] of the four kinds of routes: whether the route itself is returned,
    and not nil. *)
Definition SofaRouteRuleImpl_Match (matchValue : string) (headers : header_map) : bool :=
  match headers !! SofaRouteMatchKey with
  | Some value => bool_decide (value = matchValue) || bool_decide (matchValue = ".*")
  | None => false
  end.

Definition PathRouteRuleImpl_Match (b : RouteRuleImplBase) (path : string) (headers : header_map) : bool :=
  if matchRoute b headers then
    match path_value headers with
    | Some headerPathValue =>
      if b_caseSensitive b then bool_decide (headerPathValue = path) else EqualFold headerPathValue path
    | None => false
    end
  else false.

Definition PrefixRouteRuleImpl_Match (b : RouteRuleImplBase) (prefix : string) (headers : header_map) : bool :=
  if matchRoute b headers then
    match path_value headers with
    | Some headerPathValue => HasPrefix headerPathValue prefix
    | None => false
    end
  else false.

Definition RegexRouteRuleImpl_Match (b : RouteRuleImplBase) (regexPattern : string → bool) (headers : header_map)
  : bool :=
  if matchRoute b headers then
    match path_value headers with
    | Some headerPathValue => regexPattern headerPathValue
    | None => false
    end
  else false.

Definition Match (r : RouteBase) (headers : header_map) : option RouteBase :=
  let ok := match r with
            | SofaRouteRuleImpl _ matchValue => SofaRouteRuleImpl_Match matchValue headers
            | PathRouteRuleImpl b path => PathRouteRuleImpl_Match b path headers
            | PrefixRouteRuleImpl b prefix => PrefixRouteRuleImpl_Match b prefix headers
            | RegexRouteRuleImpl b _ pat => RegexRouteRuleImpl_Match b pat headers
            end in
  if ok then Some r else None.

(** ** Virtual hosts (virtualhostimpl.go) *)

Inductive SslRequirements := NONE | EXTERNALONLY | ALL.

Record VirtualClusterEntry := mk_vce { vce_pattern : string → bool; vce_method : string; vce_name : string }.

Record VirtualHostImpl := mk_vh {
  vh_name : string; vh_routes : list RouteBase; vh_virtualClusters : list VirtualClusterEntry;
  vh_ssl : SslRequirements;
}.

Context (Compile : string → option (string → bool)).

Definition sofa_routes (vHost : string) (route : v2_Router) (b : RouteRuleImplBase) : list RouteBase :=
  (λ h, SofaRouteRuleImpl b (hm_Value h)) <$>
    filter (λ h, hm_Name h = SofaRouteMatchKey) (m_Headers (r_Match route)).

(** The routes a configured router becomes: one, none when its regular
    expression does not compile, or one per service header. *)
Definition make_routes (vHost : string) (route : v2_Router) : Go (list RouteBase) :=
  let m := r_Match route in
  if bool_decide (m_Prefix m ≠ "") then
    b ← NewRouteRuleImplBase vHost route; Ret [PrefixRouteRuleImpl b (m_Prefix m)]
  else if bool_decide (m_Path m ≠ "") then
    b ← NewRouteRuleImplBase vHost route; Ret [PathRouteRuleImpl b (m_Path m)]
  else if bool_decide (m_Regex m ≠ "") then
    match Compile (m_Regex m) with
    | Some pat => b ← NewRouteRuleImplBase vHost route; Ret [RegexRouteRuleImpl b (m_Regex m) pat]
    | None => Ret []
    end
  else if bool_decide (filter (λ h, hm_Name h = SofaRouteMatchKey) (m_Headers m) = []) then Ret []
  else b ← NewRouteRuleImplBase vHost route; Ret (sofa_routes vHost route b).

Fixpoint make_all_routes (vHost : string) (l : list v2_Router) : Go (list RouteBase) :=
  match l with
  | [] => Ret []
  | r :: l => rs ← make_routes vHost r; rest ← make_all_routes vHost l; Ret (rs ++ rest)%list
  end.

Definition make_clusters (l : list v2_VirtualCluster) : list VirtualClusterEntry :=
  omap (λ vc, match Compile (vc_Pattern vc) with
              | Some pat => Some (mk_vce pat (vc_Method vc) (vc_Name vc))
              | None => None
              end) l.

Definition no_routes_error : string := "routes must specify one of prefix/path/regex/header".

Definition NewVirtualHostImpl (vhost : v2_VirtualHost) : Go (VirtualHostImpl + string) :=
  let ssl := if bool_decide (v_RequireTLS vhost = "EXTERNALONLY") then EXTERNALONLY
             else if bool_decide (v_RequireTLS vhost = "ALL") then ALL else NONE in
  routes ← make_all_routes (v_Name vhost) (v_Routers vhost);
  if bool_decide (length routes = 0%nat) then Ret (inr no_routes_error)
  else Ret (inl (mk_vh (v_Name vhost) routes (make_clusters (v_VirtualClusters vhost)) ssl)).

Fixpoint first_match (routes : list RouteBase) (headers : header_map) : option RouteBase :=
  match routes with
  | [] => None
  | r :: rs => match Match r headers with Some e => Some e | None => first_match rs headers end
  end.

Definition GetRouteFromEntries (vh : VirtualHostImpl) (headers : header_map) : option RouteBase :=
  first_match (vh_routes vh) headers.

(** ** The route table (routematcher.go) *)

Record routeMatcher := mk_rm {
  virtualHosts : gmap string VirtualHostImpl;
  defaultVirtualHost : option VirtualHostImpl;
  wildcardVirtualHostSuffixes : gmap nat (gmap string VirtualHostImpl);
  greaterSortedWildcardVirtualHostSuffixes : list nat;
}.

Definition duplicate_error (domain : string) : string :=
  "Only unique values for domains are permitted, get duplicate domain = " +:+ domain.
Definition single_wildcard_error : string := "Only a single wildcard domain permitted".

(** One domain of a virtual host. *)
Definition add_domain (rm : routeMatcher) (vh : VirtualHostImpl) (domain : string) : routeMatcher + string :=
  let domain := ToLower domain in
  if bool_decide (domain = "*") then
    match defaultVirtualHost rm with
    | Some _ => inr single_wildcard_error
    | None => inl (mk_rm (virtualHosts rm) (Some vh) (wildcardVirtualHostSuffixes rm) [])
    end
  else match domain with
  | String.String "*" (String.String _ _ as wildcard) =>
    let len := (slen domain - 1)%nat in
    let m := default ∅ (wildcardVirtualHostSuffixes rm !! len) in
    match m !! wildcard with
    | Some _ => inr (duplicate_error domain)
    | None => inl (mk_rm (virtualHosts rm) (defaultVirtualHost rm)
                    (<[len := <[wildcard := vh]> m]> (wildcardVirtualHostSuffixes rm)) [])
    end
  | _ =>
    match virtualHosts rm !! domain with
    | Some _ => inr (duplicate_error domain)
    | None => inl (mk_rm (<[domain := vh]> (virtualHosts rm)) (defaultVirtualHost rm)
                    (wildcardVirtualHostSuffixes rm) [])
    end
  end.

Fixpoint add_domains (rm : routeMatcher) (vh : VirtualHostImpl) (l : list string) : routeMatcher + string :=
  match l with
  | [] => inl rm
  | d :: l => match add_domain rm vh d with inl rm => add_domains rm vh l | inr e => inr e end
  end.

Fixpoint add_hosts (rm : routeMatcher) (l : list v2_VirtualHost) : Go (routeMatcher + string) :=
  match l with
  | [] => Ret (inl rm)
  | v :: l =>
    vh ← NewVirtualHostImpl v;
    match vh with
    | inr e => Ret (inr e)
    | inl vh =>
      match add_domains rm vh (v_Domains v) with
      | inl rm => add_hosts rm l
      | inr e => Ret (inr e)
      end
    end
  end.

Definition empty_matcher : routeMatcher := mk_rm ∅ None ∅ [].

(** The lengths of the wildcards, longest first. *)
Definition sort_lengths (l : list nat) : list nat := merge_sort longer l.

(** The virtual hosts of a [v2.Proxy]; none of the pointers is nil. *)
Definition NewRouteMatcher (VirtualHosts : list v2_VirtualHost) : Go (routeMatcher + string) :=
  r ← add_hosts empty_matcher VirtualHosts;
  match r with
  | inr e => Ret (inr e)
  | inl rm => Ret (inl (mk_rm (virtualHosts rm) (defaultVirtualHost rm) (wildcardVirtualHostSuffixes rm)
                         (sort_lengths (map_to_list (wildcardVirtualHostSuffixes rm)).*1)))
  end.

(** The order in which the hosts of one length are ranged over. *)
Context (range_hosts : gmap string VirtualHostImpl → list (string * VirtualHostImpl)).

Fixpoint find_suffix (l : list (string * VirtualHostImpl)) (suffix : string) : option VirtualHostImpl :=
  match l with
  | [] => None
  | (domainKey, virtualHost) :: l =>
    if bool_decide (domainKey = suffix) then Some virtualHost else find_suffix l suffix
  end.

Fixpoint find_by_length (rm : routeMatcher) (lengths : list nat) (host : string) : option VirtualHostImpl :=
  match lengths with
  | [] => None
  | wildcardLen :: ls =>
    if bool_decide (slen host ≤ wildcardLen)%nat then find_by_length rm ls host
    else
      let wildcardMap := default ∅ (wildcardVirtualHostSuffixes rm !! wildcardLen) in
      match find_suffix (range_hosts wildcardMap) (str_drop (slen host - wildcardLen) host) with
      | Some vh => Some vh
      | None => find_by_length rm ls host
      end
  end.

Definition findWildcardVirtualHost (rm : routeMatcher) (host : string) : option VirtualHostImpl :=
  find_by_length rm (greaterSortedWildcardVirtualHostSuffixes rm) host.

Definition request_host (headers : header_map) : string :=
  ToLower (default "" (headers !! ToLower MosnHeaderHostKey)).

Definition findVirtualHost (rm : routeMatcher) (headers : header_map) : option VirtualHostImpl :=
  if bool_decide (size (virtualHosts rm) = 0%nat) && bool_decide (is_Some (defaultVirtualHost rm)) then
    defaultVirtualHost rm
  else
  let host := request_host headers in
  match virtualHosts rm !! host with
  | Some virtualHost => Some virtualHost
  | None =>
    match (if bool_decide (0 < size (wildcardVirtualHostSuffixes rm))%nat
           then findWildcardVirtualHost rm host else None) with
    | Some vhost => Some vhost
    | None => defaultVirtualHost rm
    end
  end.

Definition Route (rm : routeMatcher) (headers : header_map) : option RouteBase :=
  match findVirtualHost rm headers with
  | None => None
  | Some virtualHost => GetRouteFromEntries virtualHost headers
  end.
End metadata.

(** ** Names of routers (routersmanager.go)

    The manager keeps the names; [AddRouter] and [DelRouter] of the route table
    do nothing. *)

Record routersManager := mk_mgr { routersSet : list routeMatcher; routerNames : list string }.

Definition AddRoutersSet (rm : routersManager) (routers : routeMatcher) : routersManager :=
  mk_mgr (routersSet rm ++ [routers])%list (routerNames rm).

Fixpoint add_names (known : list string) (names : list string) : list string :=
  match names with
  | [] => known
  | n :: names => add_names (if bool_decide (n ∈ known) then known else (known ++ [n])%list) names
  end.
Definition AddRouterNameInList (rm : routersManager) (names : list string) : routersManager :=
  mk_mgr (routersSet rm) (add_names (routerNames rm) names).

Fixpoint delete_name (n : string) (l : list string) : list string :=
  match l with
  | [] => []
  | x :: l => if bool_decide (n = x) then l else x :: delete_name n l
  end.
Definition DeleteRouterNameInList (rm : routersManager) (rNames : list string) : routersManager :=
  mk_mgr (routersSet rm) (foldl (λ l n, delete_name n l) (routerNames rm) rNames).

Definition RemoveRouterInRouters (rm : routersManager) (names : list string) : routersManager :=
  DeleteRouterNameInList rm names.
Definition AddRouterInRouters (rm : routersManager) (names : list string) : routersManager :=
  AddRouterNameInList rm names.
