(* ===== verification/RouterProps.v ===== *)
(** * Correctness of routing

    The route table selects virtual hosts by the precedence exact domain,
    longest wildcard, default, with one exception; a configuration is rejected exactly when a domain occurs twice, and metadata
    criteria come out sorted whatever the order of the map. *)

From Stdlib Require Import Ascii.
From stdpp Require Import sorting.
From S2P Require Import Prelude Serialize GoStrings Router.

Local Open Scope string_scope.
Local Open Scope list_scope.
Local Open Scope Z_scope.

(** ** The table of domains *)

Definition table := list (string * VirtualHostImpl).

(** A domain that names one host. *)
Definition is_exact (d : string) : bool := match d with String.String "*" _ => false | _ => true end.
Definition wild (w : string) : string := String.String "*" w.

(** What a lookup of [host] must select: the exact domain, else the longest
    wildcard that covers the host, else the default. *)
Inductive selects (t : table) (host : string) : option VirtualHostImpl → Prop :=
  | sel_exact vh : (host, vh) ∈ t → is_exact host = true → selects t host (Some vh)
  | sel_wild w vh :
      (is_exact host = true → host ∉ t.*1) → (wild w, vh) ∈ t → w ≠ "" → proper_suffix w host →
      (∀ w' vh', (wild w', vh') ∈ t → proper_suffix w' host → (slen w' ≤ slen w)%nat) →
      selects t host (Some vh)
  | sel_default vh :
      (is_exact host = true → host ∉ t.*1) → (∀ w vh', (wild w, vh') ∈ t → w ≠ "" → ¬ proper_suffix w host) →
      ("*", vh) ∈ t → selects t host (Some vh)
  | sel_none :
      (is_exact host = true → host ∉ t.*1) → (∀ w vh', (wild w, vh') ∈ t → w ≠ "" → ¬ proper_suffix w host) →
      "*" ∉ t.*1 → selects t host None.

(** ** The route table represents the domains *)

Definition wild_lookup (rm : routeMatcher) (n : nat) (w : string) : option VirtualHostImpl :=
  default ∅ (wildcardVirtualHostSuffixes rm !! n) !! w.

Record repr (rm : routeMatcher) (t : table) : Prop := {
  rp_nodup : NoDup t.*1;
  rp_exact : ∀ d vh, virtualHosts rm !! d = Some vh ↔ (d, vh) ∈ t ∧ is_exact d = true;
  rp_default : ∀ vh, defaultVirtualHost rm = Some vh ↔ ("*", vh) ∈ t;
  rp_wild : ∀ n w vh, wild_lookup rm n w = Some vh ↔ (wild w, vh) ∈ t ∧ w ≠ "" ∧ n = slen w;
}.

Lemma repr_empty : repr empty_matcher [].
Proof.
  split; [constructor|..]; intros; unfold wild_lookup; simpl; rewrite ?lookup_empty; simpl; rewrite ?lookup_empty;
    (split; [discriminate|]); [intros [H _]|intros H|intros [H _]]; by apply elem_of_nil in H.
Qed.

(** The cases of a lower-cased domain. *)
Lemma domain_cases d :
  d = "*" ∨ (∃ w, w ≠ "" ∧ d = wild w) ∨ (d ≠ "*" ∧ is_exact d = true).
Proof.
  destruct d as [|c d]; [auto|]. destruct (decide (c = "*"%char)) as [->|Hc].
  - destruct d as [|c d]; [auto|]. right; left. exists (String.String c d). split; [done|done].
  - right; right. split; [congruence|]. simpl. destruct c as [[] [] [] [] [] [] [] []]; try done.
Qed.

Lemma is_exact_wild w : is_exact (wild w) = false.
Proof. done. Qed.

(** Membership after a domain was added. *)
Lemma elem_snoc (t : table) d vh k v :
  (k, v) ∈ t ++ [(d, vh)] ↔ (k, v) ∈ t ∨ k = d ∧ v = vh.
Proof. rewrite elem_of_app, list_elem_of_singleton. naive_solver. Qed.

Lemma elem_fst (t : table) k v : (k, v) ∈ t → k ∈ t.*1.
Proof. apply (list_elem_of_fmap_2 fst). Qed.

Lemma not_elem_fst (t : table) k : (∀ v, (k, v) ∉ t) → k ∉ t.*1.
Proof. intros H Hin. apply list_elem_of_fmap in Hin as [[k' v] [-> Hin]]. by apply (H v). Qed.

Lemma nodup_snoc (t : table) d vh : NoDup t.*1 → d ∉ t.*1 → NoDup (t ++ [(d, vh)]).*1.
Proof.
  intros H1 H2. rewrite fmap_app. apply NoDup_app. split; [done|]. split; [|apply NoDup_singleton].
  intros x Hx Hx'. apply list_elem_of_singleton in Hx'. simpl in Hx'. by subst.
Qed.

(** The part after the star. *)
Definition wild_part (d : string) : option string := match d with String.String "*" w => Some w | _ => None end.

Lemma wild_part_exact d : is_exact d = true → wild_part d = None.
Proof. destruct d as [|c w]; [done|]. destruct c as [[] [] [] [] [] [] [] []]; done. Qed.

(** The three ways a domain is stored. *)
Definition stored (rm : routeMatcher) (d : string) : option VirtualHostImpl :=
  if bool_decide (d = "*") then defaultVirtualHost rm
  else match wild_part d with
       | Some w => wild_lookup rm (slen w) w
       | None => virtualHosts rm !! d
       end.

Lemma add_domain_eq rm vh d :
  add_domain rm vh d =
    match stored rm (ToLower d) with
    | Some _ => inr (if bool_decide (ToLower d = "*") then single_wildcard_error else duplicate_error (ToLower d))
    | None => inl (
        if bool_decide (ToLower d = "*")
        then mk_rm (virtualHosts rm) (Some vh) (wildcardVirtualHostSuffixes rm) []
        else match wild_part (ToLower d) with
             | Some w => mk_rm (virtualHosts rm) (defaultVirtualHost rm)
                 (<[slen w := <[w := vh]> (default ∅ (wildcardVirtualHostSuffixes rm !! slen w))]>
                    (wildcardVirtualHostSuffixes rm)) []
             | None => mk_rm (<[ToLower d := vh]> (virtualHosts rm)) (defaultVirtualHost rm) (wildcardVirtualHostSuffixes rm) []
             end)
    end.
Proof.
  unfold add_domain, stored. destruct (domain_cases (ToLower d)) as [->|[(w & Hw & ->)|[Hne Hex]]].
  - done.
  - rewrite !bool_decide_false by (unfold wild; congruence). unfold wild. destruct w as [|c w]; [done|].
    replace (slen (String.String "*" (String.String c w)) - 1)%nat with (slen (String.String c w))
      by (unfold slen; simpl; lia). done.
  - rewrite !bool_decide_false by done. destruct (ToLower d) as [|c w]; [done|].
    destruct c as [[] [] [] [] [] [] [] []]; done.
Qed.

Lemma stored_repr rm t d vh : repr rm t → stored rm d = Some vh ↔ (d, vh) ∈ t.
Proof.
  intros [_ He Hd Hw]. unfold stored. destruct (domain_cases d) as [->|[(w & Hw' & ->)|[Hne Hex]]].
  - rewrite bool_decide_true by done. apply Hd.
  - rewrite bool_decide_false by (unfold wild; congruence). cbn. rewrite Hw. naive_solver.
  - rewrite bool_decide_false by done.
    rewrite wild_part_exact by done. rewrite He. naive_solver.
Qed.

(** Adding a domain that is not there. *)
Lemma repr_add rm t vh d : repr rm t → ToLower d ∉ t.*1 →
  ∃ rm', add_domain rm vh d = inl rm' ∧ repr rm' (t ++ [(ToLower d, vh)]).
Proof.
  intros Hr Hni. rewrite add_domain_eq.
  assert (stored rm (ToLower d) = None) as ->.
  { apply eq_None_not_Some. intros [v Hv]. rewrite (stored_repr _ t) in Hv by done. by apply elem_fst in Hv. }
  eexists. split; [done|]. pose proof (nodup_snoc t (ToLower d) vh (rp_nodup _ _ Hr) Hni) as Hnd.
  assert (∀ v, (ToLower d, v) ∉ t) as Hnv by (intros v Hv; by apply elem_fst in Hv).
  destruct Hr as [_ He Hd Hw]. revert Hnd Hnv Hni. generalize (ToLower d). clear d. intros d Hnd Hnv Hni.
  destruct (domain_cases d) as [->|[(w & Hw' & ->)|[Hne Hex]]].
  - rewrite bool_decide_true by done. split; cbn; [done|..].
    + intros k v. rewrite elem_snoc, He. naive_solver.
    + intros v. rewrite elem_snoc. naive_solver.
    + intros n w v. rewrite elem_snoc. unfold wild_lookup in *. cbn. rewrite Hw. unfold wild. naive_solver congruence.
  - rewrite bool_decide_false by (unfold wild; congruence). cbn [wild_part wild]. split; [done|..]; cbn [virtualHosts defaultVirtualHost].
    + intros k v. rewrite elem_snoc, He. naive_solver.
    + intros v. rewrite elem_snoc, Hd. unfold wild. naive_solver congruence.
    + intros n w1 v. rewrite elem_snoc. unfold wild_lookup in *. cbn.
      specialize (Hw n w1 v). destruct (decide (n = slen w)) as [->|Hn].
      * rewrite lookup_insert_eq. cbn. destruct (decide (w1 = w)) as [->|Hne].
        -- rewrite lookup_insert_eq. naive_solver.
        -- rewrite lookup_insert_ne by done. rewrite Hw. unfold wild. naive_solver congruence.
      * rewrite lookup_insert_ne by done. rewrite Hw. unfold wild. naive_solver congruence.
  - rewrite bool_decide_false by done.
    rewrite wild_part_exact by done. split; [done|..]; cbn [virtualHosts defaultVirtualHost].
    + intros k v. rewrite elem_snoc. destruct (decide (k = d)) as [->|Hk].
      * rewrite lookup_insert_eq. naive_solver.
      * rewrite lookup_insert_ne, He by done. naive_solver.
    + intros v. rewrite elem_snoc, Hd. naive_solver.
    + intros n w v. rewrite elem_snoc. unfold wild_lookup in *. cbn. rewrite Hw.
      assert (wild w ≠ d) by (intros <-; done). naive_solver.
Qed.

Lemma repr_dup rm t vh d : repr rm t → ToLower d ∈ t.*1 → ∃ e, add_domain rm vh d = inr e.
Proof.
  intros Hr Hin. rewrite add_domain_eq. apply list_elem_of_fmap in Hin as [[k v] [E Hin]]. simpl in E. subst.
  rewrite <- (stored_repr rm) in Hin by done. rewrite Hin. eauto.
Qed.

Definition host_table (v : v2_VirtualHost) (vh : VirtualHostImpl) : table :=
  (λ d, (ToLower d, vh)) <$> v_Domains v.

Lemma add_domains_ok vh l : ∀ rm t, repr rm t →
  (NoDup (t ++ ((λ d, (ToLower d, vh)) <$> l)).*1 →
     ∃ rm', add_domains rm vh l = inl rm' ∧ repr rm' (t ++ ((λ d, (ToLower d, vh)) <$> l))) ∧
  (¬ NoDup (t ++ ((λ d, (ToLower d, vh)) <$> l)).*1 → ∃ e, add_domains rm vh l = inr e).
Proof.
  induction l as [|d l IH]; intros rm t Hr; cbn [fmap list_fmap add_domains].
  - rewrite app_nil_r. split; [eauto|]. intros []. apply Hr.
  - rewrite cons_middle, app_assoc. destruct (decide (ToLower d ∈ t.*1)) as [Hin|Hni].
    + destruct (repr_dup rm t vh d Hr Hin) as [e ->]. split; [|eauto]. intros Hnd.
      rewrite !fmap_app in Hnd. apply NoDup_app in Hnd as [Hnd _]. apply NoDup_app in Hnd as (_ & Hnd & _).
      destruct (Hnd _ Hin). apply list_elem_of_singleton. done.
    + destruct (repr_add rm t vh d Hr Hni) as (rm' & -> & Hr'). by apply IH.
Qed.

Section config.
  Context (range_meta : gmap string mval → list (string * mval)) (Compile : string → option (string → bool)).

(** The virtual hosts of the configuration could be built. *)
Definition built (l : list v2_VirtualHost) (vhs : list VirtualHostImpl) : Prop :=
  Forall2 (λ v vh, NewVirtualHostImpl range_meta Compile v = Ret (inl vh)) l vhs.

(** All domains, in lower case, with their hosts. *)
Definition config_table (l : list v2_VirtualHost) (vhs : list VirtualHostImpl) : table :=
  concat (zip_with host_table l vhs).

Lemma add_hosts_ok l vhs : built l vhs → ∀ rm t, repr rm t →
  (NoDup (t ++ config_table l vhs).*1 →
     ∃ rm', add_hosts range_meta Compile rm l = Ret (inl rm') ∧ repr rm' (t ++ config_table l vhs)) ∧
  (¬ NoDup (t ++ config_table l vhs).*1 → ∃ e, add_hosts range_meta Compile rm l = Ret (inr e)).
Proof.
  induction 1 as [|v vh l vhs Hv Hb IH]; intros rm t Hr; unfold config_table; cbn [add_hosts zip_with concat].
  - rewrite app_nil_r. split; [eauto|]. intros []. apply Hr.
  - rewrite Hv, bind_Ret, app_assoc. fold (config_table l vhs). unfold host_table at 1 3.
    destruct (add_domains_ok vh (v_Domains v) rm t Hr) as [H1 H2].
    destruct (decide (NoDup (t ++ host_table v vh).*1)) as [Hnd|Hnd].
    + destruct (H1 Hnd) as (rm' & -> & Hr'). by apply IH.
    + destruct (H2 Hnd) as [e ->]. split; [|eauto]. intros Hnd'. destruct Hnd.
      rewrite fmap_app in Hnd'. by apply NoDup_app in Hnd' as [? _].
Qed.

Lemma NewRouteMatcher_ok l vhs rm :
  built l vhs → NewRouteMatcher range_meta Compile l = Ret (inl rm) → repr rm (config_table l vhs) ∧
  greaterSortedWildcardVirtualHostSuffixes rm = sort_lengths (map_to_list (wildcardVirtualHostSuffixes rm)).*1.
Proof.
  intros Hb Hr. apply bind_Ret_inv in Hr as (r & Hr & E).
  destruct (add_hosts_ok l vhs Hb empty_matcher [] repr_empty) as [H1 H2]. cbn [app] in *.
  destruct (decide (NoDup (config_table l vhs).*1)) as [Hnd|Hnd].
  - destruct (H1 Hnd) as (rm' & Hrm & [Hr1 Hr2 Hr3 Hr4]). rewrite Hrm in Hr. injection Hr as <-. injection E as <-. by split.
  - destruct (H2 Hnd) as [e He]. rewrite He in Hr. injection Hr as <-. discriminate.
Qed.

(** A configuration whose virtual hosts have routes is accepted exactly
    when no domain occurs twice, in any letter case, in one or several hosts. *)
Theorem NewRouteMatcher_accepts l vhs :
  built l vhs →
  (∃ rm, NewRouteMatcher range_meta Compile l = Ret (inl rm)) ↔ NoDup (config_table l vhs).*1.
Proof.
  intros Hb. destruct (add_hosts_ok l vhs Hb empty_matcher [] repr_empty) as [H1 H2]. cbn [app] in *. split.
  - intros [rm Hr]. by apply NewRouteMatcher_ok with (vhs := vhs) in Hr as [[Hnd _ _ _] _].
  - intros Hnd. destruct (H1 Hnd) as (rm' & Hrm & _). unfold NewRouteMatcher. rewrite Hrm, bind_Ret. eauto.
Qed.

(** ** Selecting the virtual host *)

Context (range_hosts : gmap string VirtualHostImpl → list (string * VirtualHostImpl))
        (range_hosts_ok : ∀ m, range_hosts m ≡ₚ map_to_list m).

Lemma find_suffix_lookup m k : find_suffix (range_hosts m) k = m !! k.
Proof.
  assert (∀ l, NoDup l.*1 → ∀ v, find_suffix l k = Some v ↔ (k, v) ∈ l) as Hf.
  { induction l as [|[d v] l IH]; cbn [fmap list_fmap find_suffix fst]; intros Hnd v'.
    - rewrite elem_of_nil. naive_solver.
    - apply NoDup_cons in Hnd as [Hni Hnd]. rewrite elem_of_cons. case_bool_decide as E.
      + subst. split; [naive_solver|]. intros [[= ->]|Hin]; [done|]. by apply elem_fst in Hin.
      + rewrite IH by done. naive_solver. }
  apply option_eq. intros v. rewrite Hf, range_hosts_ok; [apply elem_of_map_to_list|].
  rewrite range_hosts_ok. apply NoDup_fst_map_to_list.
Qed.

Definition suffix_of (host : string) (n : nat) : string := str_drop (slen host - n) host.

(** The search by descending length finds the longest wildcard. *)
Lemma find_by_length_spec rm host ls : StronglySorted longer ls →
  match find_by_length range_hosts rm ls host with
  | Some vh => ∃ n, n ∈ ls ∧ (n < slen host)%nat ∧ wild_lookup rm n (suffix_of host n) = Some vh ∧
      ∀ n', n' ∈ ls → (n < n' < slen host)%nat → wild_lookup rm n' (suffix_of host n') = None
  | None => ∀ n, n ∈ ls → (n < slen host)%nat → wild_lookup rm n (suffix_of host n) = None
  end.
Proof.
  induction 1 as [|n ls Hs IH Hn]; cbn [find_by_length]; [intros n Hn; by apply elem_of_nil in Hn|].
  rewrite find_suffix_lookup. rewrite Forall_forall in Hn.
  change (default ∅ (wildcardVirtualHostSuffixes rm !! n) !! str_drop (slen host - n) host)
    with (wild_lookup rm n (suffix_of host n)).
  assert ((slen host ≤ n)%nat ∨ wild_lookup rm n (suffix_of host n) = None →
    match find_by_length range_hosts rm ls host with
    | Some vh => ∃ n0, n0 ∈ n :: ls ∧ (n0 < slen host)%nat ∧ wild_lookup rm n0 (suffix_of host n0) = Some vh ∧
        ∀ n', n' ∈ n :: ls → (n0 < n' < slen host)%nat → wild_lookup rm n' (suffix_of host n') = None
    | None => ∀ n0, n0 ∈ n :: ls → (n0 < slen host)%nat → wild_lookup rm n0 (suffix_of host n0) = None
    end) as Hskip.
  { intros Hsk. destruct (find_by_length range_hosts rm ls host) as [vh|].
    - destruct IH as (n0 & Hin & Hl & Hw & Hmax). exists n0. split_and!; try done; [by right|].
      intros n' [->|Hin']%elem_of_cons Hr; [destruct Hsk; [lia|done]|by apply Hmax].
    - intros n' [->|Hin']%elem_of_cons Hr; [destruct Hsk; [lia|done]|by apply IH]. }
  case_bool_decide; [apply Hskip; by left|].
  destruct (wild_lookup rm n (suffix_of host n)) as [vh|] eqn:Hw; [|apply Hskip; by right].
  exists n. split_and!; [by left|lia|done|]. intros n' [->|Hin]%elem_of_cons Hr; [lia|].
  apply Hn in Hin. unfold longer in Hin. lia.
Qed.

Lemma wild_lookup_covers rm t host n vh : repr rm t → (n < slen host)%nat →
  wild_lookup rm n (suffix_of host n) = Some vh →
  ∃ w, (wild w, vh) ∈ t ∧ w ≠ "" ∧ proper_suffix w host ∧ n = slen w.
Proof.
  intros Hr Hn Hw. apply (rp_wild _ _ Hr) in Hw as (Hin & Hne & Hl). exists (suffix_of host n). split_and!; try done.
  apply suffix_cut; [lia|]. rewrite <- Hl. done.
Qed.

Lemma covers_wild_lookup rm t host w vh : repr rm t → (wild w, vh) ∈ t → w ≠ "" → proper_suffix w host →
  wild_lookup rm (slen w) (suffix_of host (slen w)) = Some vh.
Proof.
  intros Hr Hin Hne Hs. pose proof (proper_suffix_len _ _ Hs) as Hl. unfold suffix_of.
  apply suffix_cut in Hs as ->; [|done]. by apply (rp_wild _ _ Hr).
Qed.

Lemma findWildcard_spec rm t host : repr rm t →
  greaterSortedWildcardVirtualHostSuffixes rm = sort_lengths (map_to_list (wildcardVirtualHostSuffixes rm)).*1 →
  match findWildcardVirtualHost range_hosts rm host with
  | Some vh => ∃ w, (wild w, vh) ∈ t ∧ w ≠ "" ∧ proper_suffix w host ∧
      ∀ w' vh', (wild w', vh') ∈ t → proper_suffix w' host → (slen w' ≤ slen w)%nat
  | None => ∀ w vh', (wild w, vh') ∈ t → w ≠ "" → ¬ proper_suffix w host
  end.
Proof.
  intros Hr Hs. unfold findWildcardVirtualHost. rewrite Hs. unfold sort_lengths.
  set (ls := merge_sort longer _).
  assert (∀ w vh, (wild w, vh) ∈ t → w ≠ "" → slen w ∈ ls) as Hls.
  { intros w vh Hin Hne. unfold ls. rewrite merge_sort_Permutation.
    assert (wild_lookup rm (slen w) w = Some vh) as Hw by (by apply (rp_wild _ _ Hr)).
    unfold wild_lookup in Hw. destruct (wildcardVirtualHostSuffixes rm !! slen w) as [m|] eqn:E;
      [|cbn in Hw; by rewrite lookup_empty in Hw].
    apply (list_elem_of_fmap_2' fst _ (slen w, m)); [by apply elem_of_map_to_list|done]. }
  pose proof (find_by_length_spec rm host ls (StronglySorted_merge_sort longer _)) as Hf.
  destruct (find_by_length range_hosts rm ls host) as [vh|].
  - destruct Hf as (n & Hn & Hlt & Hw & Hmax). destruct (wild_lookup_covers rm t host n vh Hr Hlt Hw) as (w & ? & ? & ? & ->).
    exists w. split_and!; try done. intros w' vh' Hin' Hs'. destruct (decide (slen w' ≤ slen w)%nat); [done|].
    destruct (decide (w' = "")) as [->|Hne']; [unfold slen; cbn; lia|].
    pose proof (proper_suffix_len _ _ Hs'). pose proof (covers_wild_lookup rm t host w' vh' Hr Hin' Hne' Hs') as Hc.
    rewrite Hmax in Hc; [done|by eapply Hls|lia].
  - intros w vh' Hin Hne Hsuf. pose proof (proper_suffix_len _ _ Hsuf).
    pose proof (covers_wild_lookup rm t host w vh' Hr Hin Hne Hsuf) as Hc. rewrite Hf in Hc; [done|by eapply Hls|done].
Qed.

Lemma no_wildcards rm t w vh :
  repr rm t → size (wildcardVirtualHostSuffixes rm) = 0%nat → w ≠ "" → (wild w, vh) ∉ t.
Proof.
  intros Hr Hs Hne Hin. apply map_size_empty_inv in Hs.
  assert (wild_lookup rm (slen w) w = Some vh) as Hw by (by apply (rp_wild _ _ Hr)).
  unfold wild_lookup in Hw. rewrite Hs, lookup_empty in Hw. cbn in Hw. by rewrite lookup_empty in Hw.
Qed.

(** The default host comes before the wildcards when no exact domain is
    configured. *)
Definition default_first (t : table) : bool :=
  forallb (λ e, negb (is_exact e.1)) t && bool_decide ("*" ∈ t.*1).

Lemma no_exact rm t : repr rm t → forallb (λ e, negb (is_exact e.1)) t = bool_decide (size (virtualHosts rm) = 0%nat).
Proof.
  intros Hr. apply eq_iff_eq_true. rewrite forallb_forall, bool_decide_eq_true, map_size_empty_iff, map_empty.
  setoid_rewrite <- list_elem_of_In. setoid_rewrite negb_true_iff. split.
  - intros Hno d. apply eq_None_not_Some. intros [v [Hv Hx]%(rp_exact _ _ Hr)]. apply Hno in Hv. cbn in Hv. congruence.
  - intros He [d v] Hin. destruct (is_exact d) eqn:Hx; [|done]. specialize (He d).
    assert (virtualHosts rm !! d = Some v) as F by (by apply (rp_exact _ _ Hr)). congruence.
Qed.

Lemma has_default rm t : repr rm t → bool_decide ("*" ∈ t.*1) = bool_decide (is_Some (defaultVirtualHost rm)).
Proof.
  intros Hr. apply bool_decide_ext. split.
  - intros [[k v] [E Hin]]%list_elem_of_fmap. simpl in E. subst k. exists v. by apply (rp_default _ _ Hr).
  - intros [v Hv%(rp_default _ _ Hr)]. by apply elem_fst in Hv.
Qed.

(** C16. The virtual host of a request is the one configured for its host name
    if there is one, else the one with the longest wildcard that covers it, else
    the default, in this order; the order in which maps are ranged over plays
    no role. A configuration that has a default and names no exact domain is
    the exception: there the default takes every request, also one that a
    wildcard covers. *)
Theorem findVirtualHost_selects l vhs rm headers :
  built l vhs → NewRouteMatcher range_meta Compile l = Ret (inl rm) →
  if default_first (config_table l vhs)
  then ∃ vh, ("*", vh) ∈ config_table l vhs ∧ findVirtualHost range_hosts rm headers = Some vh
  else selects (config_table l vhs) (request_host headers) (findVirtualHost range_hosts rm headers).
Proof.
  intros Hb Hr. apply NewRouteMatcher_ok with (vhs := vhs) in Hr as [Hr Hs]; [|done].
  set (t := config_table l vhs) in *. unfold findVirtualHost, default_first.
  rewrite (no_exact rm), (has_default rm) by done. destruct (_ && _) eqn:Hc.
  { apply andb_true_iff in Hc as [_ [vh Hd]%bool_decide_eq_true]. exists vh. by rewrite <- (rp_default _ _ Hr). }
  cbv zeta. set (host := request_host headers).
  destruct (virtualHosts rm !! host) as [vh|] eqn:Hx.
  { apply (rp_exact _ _ Hr) in Hx as [? ?]. by apply sel_exact. }
  assert (is_exact host = true → host ∉ t.*1) as Hno.
  { intros Hx' [[k v] [E Hin]]%list_elem_of_fmap. simpl in E. subst k.
    assert (virtualHosts rm !! host = Some v) as F by (by apply (rp_exact _ _ Hr)). congruence. }
  clear Hc. pose proof (findWildcard_spec rm t host Hr Hs) as Hw.
  assert (match (if bool_decide (0 < size (wildcardVirtualHostSuffixes rm))%nat
                 then findWildcardVirtualHost range_hosts rm host else None) with
          | Some vh => ∃ w, (wild w, vh) ∈ t ∧ w ≠ "" ∧ proper_suffix w host ∧
              ∀ w' vh', (wild w', vh') ∈ t → proper_suffix w' host → (slen w' ≤ slen w)%nat
          | None => ∀ w vh', (wild w, vh') ∈ t → w ≠ "" → ¬ proper_suffix w host
          end) as Hw'.
  { case_bool_decide; [done|]. intros w vh' Hin Hne. destruct (no_wildcards rm t w vh' Hr); [lia|done..]. }
  destruct (if bool_decide _ then _ else _) as [vh|].
  - destruct Hw' as (w & ? & ? & ? & ?). by eapply sel_wild.
  - destruct (defaultVirtualHost rm) as [vh|] eqn:Hd; [apply sel_default|apply sel_none]; try done.
    + by apply (rp_default _ _ Hr).
    + apply not_elem_fst. intros v Hv%(rp_default _ _ Hr). congruence.
Qed.

End config.

(** The specification determines the host. *)
Lemma same_length_suffix w1 w2 host :
  proper_suffix w1 host → proper_suffix w2 host → slen w1 = slen w2 → w1 = w2.
Proof.
  intros H1 H2 Hl. pose proof (proper_suffix_len _ _ H1). pose proof (proper_suffix_len _ _ H2).
  apply suffix_cut in H1, H2; [|done..]. congruence.
Qed.

Lemma table_unique (t : table) k v1 v2 : NoDup t.*1 → (k, v1) ∈ t → (k, v2) ∈ t → v1 = v2.
Proof.
  intros Hnd H1 H2. assert (list_to_map (M := gmap string VirtualHostImpl) t !! k = Some v1) as E1 by (by apply elem_of_list_to_map).
  assert (list_to_map (M := gmap string VirtualHostImpl) t !! k = Some v2) as E2 by (by apply elem_of_list_to_map). congruence.
Qed.

Lemma selects_unique t host r1 r2 : NoDup t.*1 → selects t host r1 → selects t host r2 → r1 = r2.
Proof.
  intros Hnd H1 H2.
  assert (∀ vh, (host, vh) ∈ t → is_exact host = true → (is_exact host = true → host ∉ t.*1) → False) as Hx.
  { intros vh Hin Hex Hno. by apply (Hno Hex), elem_fst with vh. }
  inversion H1 as [v1|w1 v1 ? Hi1 Hn1 Hp1 Hm1|v1 ? Hw1 Hi1|? Hw1 Hi1]; subst;
    inversion H2 as [v2|w2 v2 ? Hi2 Hn2 Hp2 Hm2|v2 ? Hw2 Hi2|? Hw2 Hi2]; subst; try (exfalso; by eapply Hx).
  - f_equal. by eapply table_unique.
  - f_equal. assert (w1 = w2) as ->; [|by eapply table_unique].
    apply (same_length_suffix w1 w2 host); [done..|]. apply Hm1 in Hi2; [|done]. apply Hm2 in Hi1; [|done]. lia.
  - by destruct (Hw2 w1 v1).
  - by destruct (Hw2 w1 v1).
  - by destruct (Hw1 w2 v2).
  - f_equal. by eapply table_unique.
  - by apply elem_fst in Hi1.
  - by destruct (Hw1 w2 v2).
  - by apply elem_fst in Hi2.
  - done.
Qed.

(** ** Routes of a virtual host *)

(** Routing in a virtual host takes the first route that matches, in the
    order of the configuration; without one there is no route. *)
Theorem first_matching_route vh headers :
  match GetRouteFromEntries vh headers with
  | Some r => ∃ before after, vh_routes vh = before ++ r :: after ∧ Match r headers = Some r ∧
      Forall (λ r', Match r' headers = None) before
  | None => Forall (λ r', Match r' headers = None) (vh_routes vh)
  end.
Proof.
  assert (∀ r, Match r headers = Some r ∨ Match r headers = None) as Hm.
  { intros r. unfold Match. cbv zeta. destruct (match r with SofaRouteRuleImpl _ _ => _ | _ => _ end); auto. }
  unfold GetRouteFromEntries. induction (vh_routes vh) as [|r rs IH]; cbn [first_match]; [constructor|].
  destruct (Hm r) as [E|E]; rewrite E.
  - by exists [], rs.
  - destruct (first_match rs headers) as [r'|].
    + destruct IH as (b & a & -> & ? & ?). exists (r :: b), a. split_and!; [done..|by constructor].
    + by constructor.
Qed.

(** Header matching only looks at headers that are there: it holds exactly
    when every configured header that the request has matches, so a request
    without any of the configured headers matches. *)
Theorem MatchHeaders_present_only headers cfg :
  MatchHeaders headers cfg = true ↔
  ∀ c v, c ∈ cfg → headers !! hd_Name c = Some v → header_matches v c = true.
Proof.
  induction cfg as [|c cfg IH]; cbn [MatchHeaders].
  - split; [|done]. intros _ c v Hin. by apply elem_of_nil in Hin.
  - assert ((∀ c' v, c' ∈ c :: cfg → headers !! hd_Name c' = Some v → header_matches v c' = true) ↔
      (∀ v, headers !! hd_Name c = Some v → header_matches v c = true) ∧
      (∀ c' v, c' ∈ cfg → headers !! hd_Name c' = Some v → header_matches v c' = true)) as ->.
    { setoid_rewrite elem_of_cons. naive_solver. }
    rewrite <- IH. destruct (headers !! hd_Name c) as [v|] eqn:E.
    + destruct (header_matches v c) eqn:Hv; naive_solver.
    + naive_solver.
Qed.

(** What the routes made from a configured router match. *)
Definition configured_match (m : RouterMatch) (Compile : string → option (string → bool)) (headers : header_map) : bool :=
  if bool_decide (m_Prefix m ≠ "") then
    match path_value headers with Some p => HasPrefix p (m_Prefix m) | None => false end
  else if bool_decide (m_Path m ≠ "") then
    match path_value headers with Some p => EqualFold p (m_Path m) | None => false end
  else if bool_decide (m_Regex m ≠ "") then
    match Compile (m_Regex m), path_value headers with Some pat, Some p => pat p | _, _ => false end
  else
    match headers !! SofaRouteMatchKey with
    | Some v => existsb (λ h, bool_decide (hm_Name h = SofaRouteMatchKey) &&
                  (bool_decide (v = hm_Value h) || bool_decide (hm_Value h = ".*"))) (m_Headers m)
    | None => false
    end.

Lemma NewRouteRuleImplBase_blank range_meta vHost route b :
  NewRouteRuleImplBase range_meta vHost route = Ret b →
  b_configHeaders b = [] ∧ b_configQueryParameters b = [] ∧ b_caseSensitive b = false.
Proof.
  unfold NewRouteRuleImplBase. case_bool_decide; [by intros [= <-]|].
  intros Hr. by apply bind_Ret_inv in Hr as (md & _ & [= <-]).
Qed.

Lemma matchRoute_blank b headers :
  b_configHeaders b = [] → b_configQueryParameters b = [] → matchRoute b headers = true.
Proof. intros H1 H2. unfold matchRoute. rewrite H1, H2. cbn. by case_bool_decide. Qed.

(** Routes by service name. *)
Lemma sofa_first_match b hs headers :
  (∃ r, first_match ((λ h, SofaRouteRuleImpl b (hm_Value h)) <$> filter (λ h, hm_Name h = SofaRouteMatchKey) hs) headers
        = Some r) ↔
  match headers !! SofaRouteMatchKey with
  | Some v => existsb (λ h, bool_decide (hm_Name h = SofaRouteMatchKey) &&
                (bool_decide (v = hm_Value h) || bool_decide (hm_Value h = ".*"))) hs
  | None => false
  end = true.
Proof.
  induction hs as [|h hs IH]; [cbn; case_match; naive_solver|].
  rewrite filter_cons. case_decide as Hk; cbn [existsb].
  - cbn [fmap list_fmap first_match]. unfold Match at 1, SofaRouteRuleImpl_Match.
    destruct (headers !! SofaRouteMatchKey) as [v|]; [|exact IH].
    rewrite (bool_decide_true (hm_Name h = _)) by done. cbn [andb].
    destruct (bool_decide (v = hm_Value h) || bool_decide (hm_Value h = ".*")); [naive_solver|exact IH].
  - rewrite (bool_decide_false (hm_Name h = _)) by done. exact IH.
Qed.

(** What a configured router matches: the path by prefix, by equality up to
    letter case, or by regular expression, else the service by its header; the
    header conditions and the case sensitivity of the configuration have no
    effect on path routes, and no query parameter has. *)
Theorem configured_router_matches range_meta Compile vHost route rs headers :
  make_routes range_meta Compile vHost route = Ret rs →
  (∃ r, first_match rs headers = Some r) ↔ configured_match (r_Match route) Compile headers = true.
Proof.
  assert (∀ r, (∃ r', first_match [r] headers = Some r') ↔ (∃ r', Match r headers = Some r')) as H1.
  { intros r. cbn [first_match]. destruct (Match r headers); naive_solver. }
  assert (∀ (r : RouteBase) (b : bool), (∃ r', (if b then Some r else None) = Some r') ↔ b = true) as Hb.
  { intros r []; naive_solver. }
  unfold make_routes, configured_match. destruct (r_Match route) as [mp mpath mre mcs mh] eqn:Em. cbn [m_Prefix m_Path m_Regex m_Headers].
  repeat case_bool_decide; intros Hr; try (apply bind_Ret_inv in Hr as (b & Hbase & Hr);
    apply NewRouteRuleImplBase_blank in Hbase as (Hc & Hq & Hcs); injection Hr as <-).
  - rewrite H1. unfold Match. rewrite Hb. unfold PrefixRouteRuleImpl_Match. by rewrite matchRoute_blank by done.
  - rewrite H1. unfold Match. rewrite Hb. unfold PathRouteRuleImpl_Match. by rewrite matchRoute_blank, Hcs by done.
  - destruct (Compile mre) as [pat|].
    + apply bind_Ret_inv in Hr as (b & Hbase & Hr); apply NewRouteRuleImplBase_blank in Hbase as (Hc & Hq & Hcs).
      injection Hr as <-. rewrite H1. unfold Match. rewrite Hb. unfold RegexRouteRuleImpl_Match.
      by rewrite matchRoute_blank by done.
    + injection Hr as <-. cbn [first_match]. naive_solver.
  - injection Hr as <-.
    rewrite <- (sofa_first_match (mk_base false vHost (r_Match route) (r_Route route) [] [] None None) mh headers).
    by match goal with H : filter _ mh = [] |- _ => rewrite H end.
  - rewrite <- (sofa_first_match b mh headers). unfold sofa_routes. by rewrite Em.
Qed.

(** ** Metadata criteria *)

Definition string_entry (kv : string * mval) : option criterion :=
  match kv.2 with MStr v => Some (mk_crit kv.1 v) | _ => None end.

Lemma add_criteria acc l : foldl (add_criterion ∅) acc l = acc ++ omap string_entry l.
Proof.
  revert acc. induction l as [|[k v] l IH]; intros acc; [by rewrite app_nil_r|]. cbn [foldl omap list_omap].
  rewrite IH. unfold add_criterion, string_entry. cbn [fst snd]. destruct v; [|done..].
  rewrite lookup_empty. by rewrite <- app_assoc.
Qed.

Lemma string_entry_names l : NoDup l.*1 → NoDup (c_Name <$> omap string_entry l).
Proof.
  induction l as [|[k v] l IH]; cbn [fmap list_fmap omap list_omap fst]; intros Hnd; [constructor|].
  apply NoDup_cons in Hnd as [Hni Hnd]. unfold string_entry at 1. cbn [fst snd].
  destruct v as [v| |]; [|by apply IH..]. cbn [fmap list_fmap]. apply NoDup_cons. split; [|by apply IH].
  intros [c [Hc Hin]]%list_elem_of_fmap. apply list_elem_of_omap in Hin as [[k' v'] [Hin Hs]].
  unfold string_entry in Hs. cbn in Hs. destruct v'; try discriminate. injection Hs as <-. cbn in Hc. subst.
  apply Hni. apply (list_elem_of_fmap_2' fst _ (k', MStr s)); done.
Qed.

(** The criteria a route's metadata becomes are sorted by name, without a
    name twice, and hold exactly the entries whose value is a string, in
    whichever order the map was ranged over. *)
Theorem criteria_sorted range_meta m :
  range_meta m ≡ₚ map_to_list m →
  let l := NewMetadataMatchCriteriaImpl range_meta m in
  StronglySorted (key_le c_Name) l ∧ NoDup (c_Name <$> l) ∧
  (∀ k v, mk_crit k v ∈ l ↔ m !! k = Some (MStr v)) ∧
  l = NewMetadataMatchCriteriaImpl map_to_list m.
Proof.
  intros Hp l. assert (NoDup (range_meta m).*1) as Hnd by (rewrite Hp; apply NoDup_fst_map_to_list).
  unfold l, NewMetadataMatchCriteriaImpl, extractMetadataMatchCriteria. cbn [default existing_map].
  rewrite !add_criteria. cbn [app].
  split_and!.
  - apply sort_by_Sorted.
  - rewrite sort_by_perm. by apply string_entry_names.
  - intros k v. rewrite sort_by_perm, list_elem_of_omap. rewrite <- elem_of_map_to_list, <- Hp. split.
    + intros [[k' v'] [Hin Hs]]. unfold string_entry in Hs. cbn in Hs. destruct v'; try discriminate. by injection Hs as -> ->.
    + intros Hin. by exists (k, MStr v).
  - apply sort_by_unique; [by apply string_entry_names|]. by rewrite Hp.
Qed.

Lemma criteria_sorted_witness :
  let m : gmap string mval := list_to_map [("zone", MStr "a"); ("app", MStr "b"); ("n", MAny)] in
  c_Name <$> NewMetadataMatchCriteriaImpl map_to_list m = ["app"; "zone"] ∧
  StronglySorted (key_le c_Name) (NewMetadataMatchCriteriaImpl map_to_list m).
Proof. intros m. split; [vm_compute; reflexivity|]. apply (criteria_sorted map_to_list m). reflexivity. Defined.

(** ** A sample configuration *)

Definition prefix_router (cluster : string) : v2_Router :=
  mk_router (mk_match "/" "" "" false []) (mk_action cluster ∅ 0).
Definition sample_host (name : string) (domains : list string) : v2_VirtualHost :=
  mk_vhost name domains [prefix_router name] "" [].
Definition sample_hosts : list v2_VirtualHost :=
  [sample_host "exact" ["www.Example.com"]; sample_host "wild" ["*.example.com"; "*-api.example.com"];
   sample_host "all" ["*"]].
Definition wild_hosts : list v2_VirtualHost :=
  [sample_host "wild" ["*.example.com"]; sample_host "all" ["*"]].
Definition no_regex : string → option (string → bool) := λ _, None.
Definition vh_of (v : v2_VirtualHost) : VirtualHostImpl :=
  match NewVirtualHostImpl map_to_list no_regex v with Ret (inl vh) => vh | _ => mk_vh "" [] [] NONE end.
Definition rm_of (l : list v2_VirtualHost) : routeMatcher :=
  match NewRouteMatcher map_to_list no_regex l with Ret (inl rm) => rm | _ => empty_matcher end.

Lemma sample_built : built map_to_list no_regex sample_hosts (vh_of <$> sample_hosts).
Proof. repeat constructor. Qed.
Lemma wild_built : built map_to_list no_regex wild_hosts (vh_of <$> wild_hosts).
Proof. repeat constructor. Qed.

Lemma NewRouteMatcher_accepts_witness :
  (∃ rm, NewRouteMatcher map_to_list no_regex sample_hosts = Ret (inl rm)) ↔
  NoDup (config_table sample_hosts (vh_of <$> sample_hosts)).*1.
Proof. exact (NewRouteMatcher_accepts map_to_list no_regex sample_hosts _ sample_built). Defined.

Lemma findVirtualHost_selects_witness :
  let headers : header_map := {["host" := "eu-api.EXAMPLE.com"]} in
  selects (config_table sample_hosts (vh_of <$> sample_hosts)) "eu-api.example.com"
    (findVirtualHost map_to_list (rm_of sample_hosts) headers) ∧
  vh_name <$> findVirtualHost map_to_list (rm_of sample_hosts) headers = Some "wild" ∧
  ∃ vh, ("*", vh) ∈ config_table wild_hosts (vh_of <$> wild_hosts) ∧
    findVirtualHost map_to_list (rm_of wild_hosts) headers = Some vh.
Proof.
  intros headers.
  pose proof (findVirtualHost_selects map_to_list no_regex map_to_list (λ m, reflexivity (map_to_list m)) sample_hosts (vh_of <$> sample_hosts)
    (rm_of sample_hosts) headers sample_built ltac:(vm_compute; reflexivity)) as H1.
  pose proof (findVirtualHost_selects map_to_list no_regex map_to_list (λ m, reflexivity (map_to_list m)) wild_hosts (vh_of <$> wild_hosts)
    (rm_of wild_hosts) headers wild_built ltac:(vm_compute; reflexivity)) as H2.
  assert (default_first (config_table sample_hosts (vh_of <$> sample_hosts)) = false) as E1 by (vm_compute; reflexivity).
  assert (default_first (config_table wild_hosts (vh_of <$> wild_hosts)) = true) as E2 by (vm_compute; reflexivity).
  rewrite E1 in H1. rewrite E2 in H2. split_and!; [exact H1|vm_compute; reflexivity|exact H2].
Defined.

Lemma configured_router_matches_witness :
  let headers : header_map := {["path" := "/x"]} in
  ∃ rs, make_routes map_to_list no_regex "h" (prefix_router "c") = Ret rs ∧
  ((∃ r, first_match rs headers = Some r) ↔
     configured_match (r_Match (prefix_router "c")) no_regex headers = true).
Proof.
  intros headers. eexists. split; [vm_compute; reflexivity|].
  apply (configured_router_matches map_to_list no_regex "h" (prefix_router "c")). vm_compute. reflexivity.
Defined.
