(* ===== verification/Cluster.v ===== *)
(** * Hosts and load balancing: pkg/upstream/cluster

    host.go (hosts and host sets), the priority set of cluster.go,
    loadbalancer.go and resourcemanager.go.  A host is known by its address and
    metadata; its health flags change behind the back of the host sets, which
    keep the list of healthy hosts they were given, so the flags are a map of
    their own.  Random numbers are arguments. *)

From S2P Require Import Prelude.

Local Open Scope string_scope.
Local Open Scope Z_scope.

(** ** Hosts (host.go) *)

Record host := mk_host { h_address : string; h_hostname : string; h_metadata : gmap string string }.
#[export] Instance host_eq_dec : EqDecision host.
Proof. solve_decision. Defined.

(** The health flags of the hosts, uint64 words, 0 at first.  They are kept by
    address: the hosts of a cluster have distinct addresses. *)
Definition flags := gmap string Z.
Definition healthFlags (fl : flags) (h : host) : Z := default 0 (fl !! h_address h).
Definition FAILED_ACTIVE_HC : Z := 1.

Definition SetHealthFlag (fl : flags) (h : host) (flag : Z) : flags :=
  <[h_address h := Z.lor (healthFlags fl h) flag]> fl.
Definition ClearHealthFlag (fl : flags) (h : host) (flag : Z) : flags :=
  <[h_address h := Z.ldiff (healthFlags fl h) flag]> fl.
Definition ContainHealthFlag (fl : flags) (h : host) (flag : Z) : bool :=
  bool_decide (0 < Z.land (healthFlags fl h) flag).
Definition Health (fl : flags) (h : host) : bool := bool_decide (healthFlags fl h = 0).

(** ** Host sets and priority sets

    A priority set is the list of its host sets; the index is the priority.
    The lists by locality are handed on and never read by the balancers. *)

Record hostSet := mk_hs { hs_hosts : list host; hs_healthy : list host }.
Definition createHostSet : hostSet := mk_hs [] [].

Abbreviation prioritySet := (list hostSet).

(** The set of a priority, and the priority set in which it exists; priorities
    are uint32 and [priority+1] wraps. *)
Definition GetOrCreateHostSet (ps : prioritySet) (priority : nat) : Go (prioritySet * hostSet) :=
  let ps := if bool_decide (Z.of_nat (length ps) < to_uint32 (Z.of_nat priority + 1))
            then (ps ++ replicate (S priority - length ps) createHostSet)%list else ps in
  match ps !! priority with Some hs => Ret (ps, hs) | None => Panic SliceBounds end.

(** ** Load balancers (loadbalancer.go) *)

(** A string in the code: one of the two names, or another. *)
Inductive LoadBalancerType := RoundRobin | Random | OtherType.

Record roundRobinLoadBalancer := mk_rr { rrIndexPriority : Z; rrIndex : Z }.

Inductive LoadBalancer := LBRandom | LBRoundRobin (rr : roundRobinLoadBalancer).

Definition newRoundRobinLoadBalancer : LoadBalancer := LBRoundRobin (mk_rr 0 0).
Definition newRandomLoadbalancer : LoadBalancer := LBRandom.

Definition NewLoadBalancer (lbType : LoadBalancerType) : LoadBalancer :=
  match lbType with
  | RoundRobin => newRoundRobinLoadBalancer
  | Random | OtherType => newRandomLoadbalancer
  end.

(** [rand.Intn(n)] for the random number [r]. *)
Definition Intn (r : nat) (n : nat) : Go nat :=
  if bool_decide (n = 0%nat) then Panic (UserPanic "invalid argument to Intn") else Ret (r mod n)%nat.

(** A host of the host sets, or none; [r1] and [r2] are the random numbers
    drawn. *)
Definition random_ChooseHost (hostSets : prioritySet) (r1 r2 : nat) : Go (option host) :=
  idx ← Intn r1 (length hostSets);
  match hostSets !! idx with
  | None => Panic SliceBounds
  | Some hostset =>
    let hosts := hs_healthy hostset in
    if bool_decide (length hosts = 0%nat) then Ret None
    else hostIdx ← Intn r2 (length hosts); Ret (hosts !! hostIdx)
  end.

(** Indices are uint32. *)
Definition healthy_at (hostSets : prioritySet) (i : Z) : Go (list host) :=
  match hostSets !! Z.to_nat i with Some hs => Ret (hs_healthy hs) | None => Panic SliceBounds end.

Definition rr_ChooseHost (l : roundRobinLoadBalancer) (hostSets : prioritySet)
  : Go (roundRobinLoadBalancer * option host) :=
  let hostSetsNum := to_uint32 (Z.of_nat (length hostSets)) in
  _ ← go_assert (bool_decide (hostSetsNum ≠ 0)) IntDivide;
  curHostSet ← healthy_at hostSets (rrIndexPriority l mod hostSetsNum);
  '(l, selectedHostSet) ←
    (if bool_decide (to_uint32 (Z.of_nat (length curHostSet)) ≤ rrIndex l) then
       let p := to_uint32 (rrIndexPriority l + 1) mod hostSetsNum in
       s ← healthy_at hostSets p;
       Ret (mk_rr p 0, s)
     else Ret (l, curHostSet));
  if bool_decide (length selectedHostSet = 0%nat) then Ret (l, None)
  else
    let i := rrIndex l mod to_uint32 (Z.of_nat (length selectedHostSet)) in
    match selectedHostSet !! Z.to_nat i with
    | None => Panic SliceBounds
    | Some selectedHost => Ret (mk_rr (rrIndexPriority l) (to_uint32 (rrIndex l + 1)), Some selectedHost)
    end.

Definition LB_ChooseHost (lb : LoadBalancer) (hostSets : prioritySet) (r1 r2 : nat)
  : Go (LoadBalancer * option host) :=
  match lb with
  | LBRandom => h ← random_ChooseHost hostSets r1 r2; Ret (LBRandom, h)
  | LBRoundRobin rr => '(rr, h) ← rr_ChooseHost rr hostSets; Ret (LBRoundRobin rr, h)
  end.

(** ** Resources (resourcemanager.go) *)

(** [current] is an int64, [max] a uint64. *)
Record resource := mk_res { current : Z; max : Z }.

Definition CanCreate (r : resource) : bool :=
  if bool_decide (current r < 0) then true else bool_decide (current r < max r).
Definition Increase (r : resource) : resource := mk_res (to_int64 (current r + 1)) (max r).
Definition Decrease (r : resource) : resource := mk_res (to_int64 (current r - 1)) (max r).

Record resourcemanager := mk_resmgr {
  connections : resource; pendingRequests : resource; requests : resource; retries : resource;
}.

Record Thresholds := mk_thr { MaxConnections : Z; MaxPendingRequests : Z; MaxRequests : Z; MaxRetries : Z }.

Definition NewResourceManager (thresholds : list Thresholds) : resourcemanager :=
  match thresholds with
  | t :: _ => mk_resmgr (mk_res 0 (MaxConnections t)) (mk_res 0 (MaxPendingRequests t))
                (mk_res 0 (MaxRequests t)) (mk_res 0 (MaxRetries t))
  | [] => mk_resmgr (mk_res 0 10240) (mk_res 0 10240) (mk_res 0 10240) (mk_res 0 3)
  end.
