(* ===== verification/ClusterProps.v ===== *)
(** * Correctness of load balancing and resource limits

    Round robin serves every healthy host once per round, in order; a chosen
    host is one of the healthy ones; the limits of the resource manager can be
    exceeded by concurrent requests, by less than their number. *)

From S2P Require Import Prelude Cluster.

Local Open Scope Z_scope.

(** ** Round robin *)

Fixpoint rr_choose_n (n : nat) (l : roundRobinLoadBalancer) (ps : prioritySet)
  : Go (roundRobinLoadBalancer * list (option host)) :=
  match n with
  | O => Ret (l, [])
  | S n => '(l, h) ← rr_ChooseHost l ps; '(l, hs) ← rr_choose_n n l ps; Ret (l, h :: hs)
  end.

Lemma rr_choose_n_app n m l ps l1 h1 l2 h2 :
  rr_choose_n n l ps = Ret (l1, h1) → rr_choose_n m l1 ps = Ret (l2, h2) →
  rr_choose_n (n + m) l ps = Ret (l2, h1 ++ h2).
Proof.
  revert l h1. induction n as [|n IH]; intros l h1 H1 H2; cbn [rr_choose_n Nat.add] in *.
  - by injection H1 as -> <-.
  - apply bind_Ret_inv in H1 as ([l' h] & Hc & H1). rewrite Hc, bind_Ret.
    apply bind_Ret_inv in H1 as ([l'' hs] & Hn & H1). injection H1 as -> <-.
    rewrite (IH l' hs Hn H2), bind_Ret. done.
Qed.

(** Host sets that all have healthy hosts, in numbers that fit a uint32. *)
Record serving (ps : prioritySet) : Prop := {
  sv_some : ps ≠ [];
  sv_num : Z.of_nat (length ps) < 2 ^ 32;
  sv_each : Forall (λ hs, (0 < length (hs_healthy hs))%nat ∧ Z.of_nat (length (hs_healthy hs)) < 2 ^ 32) ps;
}.

Lemma to_uint32_nat n : Z.of_nat n < 2 ^ 32 → to_uint32 (Z.of_nat n) = Z.of_nat n.
Proof. intros. apply uwrap_id. unfold in_u. lia. Qed.

Section rr.
  Context (ps : prioritySet) (Hps : serving ps).

Lemma serving_set p hs : ps !! p = Some hs →
  (0 < length (hs_healthy hs))%nat ∧ Z.of_nat (length (hs_healthy hs)) < 2 ^ 32.
Proof. intros Hp. destruct Hps as [_ _ He]. rewrite Forall_lookup in He. by apply (He p). Qed.

Lemma serving_num : 0 < Z.of_nat (length ps) < 2 ^ 32.
Proof. destruct Hps as [Hs Hn _]. destruct ps; [done|]. simpl in *. lia. Qed.

(** One choice within a set. *)
Lemma rr_step_within p j hs h :
  ps !! p = Some hs → hs_healthy hs !! j = Some h →
  rr_ChooseHost (mk_rr (Z.of_nat p) (Z.of_nat j)) ps = Ret (mk_rr (Z.of_nat p) (Z.of_nat (S j)), Some h).
Proof.
  intros Hp Hj. destruct (serving_set p hs Hp) as [H0 H1]. pose proof serving_num. pose proof (lookup_lt_Some _ _ _ Hp).
  pose proof (lookup_lt_Some _ _ _ Hj) as Hlt. unfold rr_ChooseHost. cbn [rrIndexPriority rrIndex].
  rewrite to_uint32_nat by lia. rewrite bool_decide_true by lia. cbn [go_assert]. rewrite bind_Ret.
  rewrite (Z.mod_small (Z.of_nat p)) by lia. unfold healthy_at. rewrite Nat2Z.id, Hp, bind_Ret.
  rewrite to_uint32_nat by lia. rewrite bool_decide_false by lia. rewrite bind_Ret.
  rewrite bool_decide_false by lia. cbn [rrIndex rrIndexPriority]. rewrite to_uint32_nat, Z.mod_small by lia. rewrite Nat2Z.id, Hj.
  do 3 f_equal. unfold to_uint32. rewrite uwrap_id by (unfold in_u; lia). lia.
Qed.

(** One choice at the end of a set: the first host of the next. *)
Lemma rr_step_next p hs hs' h :
  ps !! p = Some hs → ps !! (S p mod length ps)%nat = Some hs' → hs_healthy hs' !! 0%nat = Some h →
  rr_ChooseHost (mk_rr (Z.of_nat p) (Z.of_nat (length (hs_healthy hs)))) ps =
    Ret (mk_rr (Z.of_nat (S p mod length ps)%nat) 1, Some h).
Proof.
  intros Hp Hp' Hh. destruct (serving_set p hs Hp) as [H0 H1]. destruct (serving_set _ hs' Hp') as [H2 H3].
  pose proof serving_num. pose proof (lookup_lt_Some _ _ _ Hp).
  unfold rr_ChooseHost. cbn [rrIndexPriority rrIndex].
  rewrite (to_uint32_nat (length ps)) by lia. rewrite bool_decide_true by lia. cbn [go_assert]. rewrite bind_Ret.
  rewrite (Z.mod_small (Z.of_nat p)) by lia. unfold healthy_at. rewrite Nat2Z.id, Hp, bind_Ret.
  rewrite to_uint32_nat by lia. rewrite bool_decide_true by lia.
  assert (to_uint32 (Z.of_nat p + 1) mod Z.of_nat (length ps) = Z.of_nat (S p mod length ps)%nat) as ->.
  { unfold to_uint32. rewrite uwrap_id by (unfold in_u; lia). rewrite Nat2Z.inj_mod. f_equal. lia. }
  rewrite Nat2Z.id, Hp', !bind_Ret. rewrite bool_decide_false by lia.
  cbn [rrIndex rrIndexPriority]. rewrite to_uint32_nat, Z.mod_0_l by lia. change (Z.to_nat 0) with 0%nat. by rewrite Hh.
Qed.

(** The rest of a set. *)
Lemma rr_rest p hs : ps !! p = Some hs → ∀ k j, (j + k = length (hs_healthy hs))%nat →
  rr_choose_n k (mk_rr (Z.of_nat p) (Z.of_nat j)) ps =
    Ret (mk_rr (Z.of_nat p) (Z.of_nat (length (hs_healthy hs))), Some <$> drop j (hs_healthy hs)).
Proof.
  intros Hp. induction k as [|k IH]; intros j Hj; cbn [rr_choose_n].
  - rewrite drop_ge by lia. do 3 f_equal. lia.
  - destruct (lookup_lt_is_Some_2 (hs_healthy hs) j) as [h Hh]; [lia|].
    rewrite (rr_step_within p j hs h) by done. rewrite bind_Ret. rewrite IH by lia. rewrite bind_Ret.
    by rewrite (drop_S _ _ _ Hh).
Qed.

(** A whole set, from the end of the one before it. *)
Lemma rr_next_set p hs hs' :
  ps !! p = Some hs → ps !! (S p mod length ps)%nat = Some hs' →
  rr_choose_n (length (hs_healthy hs')) (mk_rr (Z.of_nat p) (Z.of_nat (length (hs_healthy hs)))) ps =
    Ret (mk_rr (Z.of_nat (S p mod length ps)%nat) (Z.of_nat (length (hs_healthy hs'))), Some <$> hs_healthy hs').
Proof.
  intros Hp Hp'. destruct (serving_set _ hs' Hp') as [H2 H3].
  destruct (hs_healthy hs') as [|h l] eqn:El; [simpl in H2; lia|]. cbn [length rr_choose_n].
  rewrite (rr_step_next p hs hs' h) by (done || by rewrite El). rewrite bind_Ret. change 1 with (Z.of_nat 1).
  rewrite (rr_rest _ hs' Hp') by (rewrite El; simpl; lia). rewrite bind_Ret, El. done.
Qed.

(** The sets after [p] up to the last. *)
Lemma rr_sets_after k : ∀ p hs, ps !! p = Some hs → (p + k = length ps - 1)%nat →
  ∃ last, ps !! (length ps - 1)%nat = Some last ∧
  rr_choose_n (length (concat (hs_healthy <$> drop (S p) ps)))
    (mk_rr (Z.of_nat p) (Z.of_nat (length (hs_healthy hs)))) ps =
  Ret (mk_rr (Z.of_nat (length ps - 1)) (Z.of_nat (length (hs_healthy last))),
       Some <$> concat (hs_healthy <$> drop (S p) ps)).
Proof.
  induction k as [|k IH]; intros p hs Hp Hk; pose proof (lookup_lt_Some _ _ _ Hp).
  - exists hs. replace (length ps - 1)%nat with p by lia. split; [done|].
    rewrite drop_ge by lia. done.
  - destruct (lookup_lt_is_Some_2 ps (S p)) as [hs' Hp']; [lia|].
    destruct (IH (S p) hs' Hp' ltac:(lia)) as (last & Hl & IH'). exists last. split; [done|].
    rewrite (drop_S ps hs' (S p) Hp'). cbn [fmap list_fmap concat]. rewrite length_app, fmap_app.
    eapply rr_choose_n_app; [|exact IH'].
    pose proof (rr_next_set p hs hs' Hp) as Hn. rewrite Nat.mod_small in Hn by lia. by apply Hn.
Qed.

(** At the start of a round: before the first host of the first set. *)
Definition at_start (l : roundRobinLoadBalancer) : Prop :=
  l = mk_rr 0 0 ∨ ∃ last, ps !! (length ps - 1)%nat = Some last ∧
    l = mk_rr (Z.of_nat (length ps - 1)) (Z.of_nat (length (hs_healthy last))).

Lemma rr_round l : at_start l →
  ∃ l', rr_choose_n (length (concat (hs_healthy <$> ps))) l ps = Ret (l', Some <$> concat (hs_healthy <$> ps)) ∧
    at_start l'.
Proof.
  intros Hl. pose proof serving_num. destruct (lookup_lt_is_Some_2 ps 0%nat) as [first Hf]; [lia|].
  destruct (rr_sets_after (length ps - 1) 0 first Hf ltac:(lia)) as (last & Hlast & Hr).
  exists (mk_rr (Z.of_nat (length ps - 1)) (Z.of_nat (length (hs_healthy last)))).
  split; [|right; eauto]. assert (ps = first :: drop 1 ps) as E by exact (drop_S ps first 0 Hf).
  assert (concat (hs_healthy <$> ps) = hs_healthy first ++ concat (hs_healthy <$> drop 1 ps)) as ->
    by (by rewrite E at 1).
  rewrite length_app, fmap_app.
  eapply rr_choose_n_app; [|exact Hr]. destruct Hl as [->|(last' & Hl' & ->)].
  - exact (rr_rest 0 first Hf (length (hs_healthy first)) 0 ltac:(lia)).
  - pose proof (rr_next_set (length ps - 1) last' first Hl') as Hn.
    replace (S (length ps - 1) mod length ps)%nat with 0%nat in Hn;
      [by apply Hn|]. replace (S (length ps - 1)) with (length ps) by lia. by rewrite Nat.Div0.mod_same.
Qed.
End rr.

(** C38. Round robin is fair: when every host set has a healthy host, then any
    number of rounds of choices from a new balancer serves the healthy hosts of
    all sets in order, once per round. *)
Theorem round_robin_fair ps rounds :
  serving ps →
  ∃ l, rr_choose_n (rounds * length (concat (hs_healthy <$> ps))) (mk_rr 0 0) ps =
    Ret (l, concat (replicate rounds (Some <$> concat (hs_healthy <$> ps)))).
Proof.
  intros Hps. assert (∀ l, at_start ps l → ∃ l', rr_choose_n (rounds * length (concat (hs_healthy <$> ps))) l ps =
    Ret (l', concat (replicate rounds (Some <$> concat (hs_healthy <$> ps))))) as H; [|apply H; by left].
  induction rounds as [|k IH]; intros l Hl; [by exists l|]. cbn [Nat.mul replicate concat].
  destruct (rr_round ps Hps l Hl) as (l1 & H1 & Hl1). destruct (IH l1 Hl1) as [l2 H2]. exists l2.
  by eapply rr_choose_n_app.
Qed.

(** Two sets, of two hosts and of one. *)
Definition host_at (a : string) : host := mk_host a "" ∅.
Definition two_sets : prioritySet :=
  [mk_hs [host_at "a"; host_at "b"] [host_at "a"; host_at "b"]; mk_hs [host_at "c"] [host_at "c"]]%string.

Lemma round_robin_fair_witness :
  ∃ l, rr_choose_n (2 * 3) (mk_rr 0 0) two_sets =
    Ret (l, concat (replicate 2 (Some <$> [host_at "a"; host_at "b"; host_at "c"]%string))).
Proof.
  apply (round_robin_fair two_sets 2). split; [done|done|]. repeat constructor; vm_compute; done.
Defined.

(** ** Chosen hosts are healthy *)

Lemma rr_ChooseHost_healthy l ps l' h :
  rr_ChooseHost l ps = Ret (l', Some h) → ∃ hs, hs ∈ ps ∧ h ∈ hs_healthy hs.
Proof.
  unfold rr_ChooseHost. intros Hr. apply bind_Ret_inv in Hr as ([] & _ & Hr).
  apply bind_Ret_inv in Hr as (cur & Hcur & Hr).
  assert (∀ i l, healthy_at ps i = Ret l → ∃ hs, hs ∈ ps ∧ hs_healthy hs = l) as Hat.
  { intros i l0 Hi. unfold healthy_at in Hi. destruct (ps !! Z.to_nat i) as [hs|] eqn:E; [|discriminate].
    injection Hi as <-. exists hs. split; [by eapply list_elem_of_lookup_2|done]. }
  apply bind_Ret_inv in Hr as ([l1 sel] & Hsel & Hr).
  assert (∃ hs, hs ∈ ps ∧ hs_healthy hs = sel) as (hs & Hin & <-).
  { clear Hr. case_bool_decide; [|injection Hsel as _ <-; by eapply Hat].
    apply bind_Ret_inv in Hsel as (s & Hs & [= _ <-]). by eapply Hat. }
  clear Hsel. revert Hr. case_bool_decide; [discriminate|].
  destruct (hs_healthy hs !! _) as [h'|] eqn:E; [|discriminate]. intros [= _ <-].
  exists hs. split; [done|]. by eapply list_elem_of_lookup_2.
Qed.

Lemma random_ChooseHost_healthy ps r1 r2 h :
  random_ChooseHost ps r1 r2 = Ret (Some h) → ∃ hs, hs ∈ ps ∧ h ∈ hs_healthy hs.
Proof.
  unfold random_ChooseHost. intros Hr. apply bind_Ret_inv in Hr as (i & _ & Hr).
  destruct (ps !! i) as [hs|] eqn:Ei; [|discriminate]. revert Hr. case_bool_decide; [discriminate|]. intros Hr.
  apply bind_Ret_inv in Hr as (j & _ & Hr). injection Hr as Hr. exists hs.
  split; by eapply list_elem_of_lookup_2.
Qed.

(** Whatever the balancer, a chosen host is listed as healthy in one of the
    sets. *)
Lemma LB_ChooseHost_healthy lb ps r1 r2 lb' h :
  LB_ChooseHost lb ps r1 r2 = Ret (lb', Some h) → ∃ hs, hs ∈ ps ∧ h ∈ hs_healthy hs.
Proof.
  destruct lb as [|rr]; intros Hr; cbn [LB_ChooseHost] in Hr.
  - apply bind_Ret_inv in Hr as (o & Ho & [= _ ->]). by eapply random_ChooseHost_healthy.
  - apply bind_Ret_inv in Hr as ([rr' o] & Ho & [= _ ->]). by eapply rr_ChooseHost_healthy.
Qed.

(** ** Resource limits under concurrency

    A request checks the limit and counts itself in two steps, between which
    other requests run. *)

(** What a request is doing: not admitted, checked but not counted, counted. *)
Inductive phase := Waiting | Checked | Counted.
#[export] Instance phase_eq_dec : EqDecision phase.
Proof. solve_decision. Defined.

Inductive res_step : resource * list phase → resource * list phase → Prop :=
  | rs_check r ts i : CanCreate r = true → ts !! i = Some Waiting → res_step (r, ts) (r, <[i := Checked]> ts)
  | rs_increase r ts i : ts !! i = Some Checked → res_step (r, ts) (Increase r, <[i := Counted]> ts)
  | rs_decrease r ts i : ts !! i = Some Counted → res_step (r, ts) (Decrease r, <[i := Waiting]> ts).

Definition count (p : phase) (ts : list phase) : Z := Z.of_nat (length (filter (p =.) ts)).

Lemma count_insert p q ts i t : ts !! i = Some t →
  count p (<[i := q]> ts) = count p ts - (if decide (p = t) then 1 else 0) + (if decide (p = q) then 1 else 0).
Proof.
  intros Hi. unfold count. pose proof (lookup_lt_Some _ _ _ Hi).
  rewrite <- (take_drop_middle ts i t Hi) at 2. rewrite (insert_take_drop ts i q) by done.
  rewrite !filter_app, !filter_cons, !length_app. repeat case_decide; simpl; lia.
Qed.

Lemma count_pos ts i p : ts !! i = Some p → 1 ≤ count p ts.
Proof.
  intros Hi. unfold count. rewrite <- (take_drop_middle ts i p Hi), filter_app, filter_cons, length_app.
  rewrite decide_True by done. simpl. lia.
Qed.

Lemma count_total ts : count Waiting ts + count Checked ts + count Counted ts = Z.of_nat (length ts).
Proof.
  induction ts as [|t ts IH]; [done|]. unfold count in *. rewrite !filter_cons. destruct t;
    repeat case_decide; simpl in *; try congruence; lia.
Qed.

(** A step after which at most [k] requests have passed the check and are not counted
    yet. *)
Definition racing (k : nat) (st st' : resource * list phase) : Prop := res_step st st' ∧ count Checked st'.2 ≤ Z.of_nat k.

(** The counter counts, and stays below the limit plus the requests that race for it. *)
Definition res_inv (m : Z) (k n : nat) (st : resource * list phase) : Prop :=
  length st.2 = n ∧ max st.1 = m ∧ current st.1 = count Counted st.2 ∧
  current st.1 + count Checked st.2 ≤ m - 1 + Z.of_nat k.

Lemma count_bounds p ts : 0 ≤ count p ts ≤ Z.of_nat (length ts).
Proof. unfold count. pose proof (length_filter (p =.) ts). lia. Qed.
Lemma CanCreate_count m k n st : Z.of_nat n < 2 ^ 62 → res_inv m k n st → CanCreate st.1 = bool_decide (count Counted st.2 < m).
Proof.
  intros Hn (Hl & Hmax & Hc & _). pose proof (count_bounds Counted st.2). unfold CanCreate. rewrite Hmax, Hc, bool_decide_false by lia. done.
Qed.
Lemma res_inv_step m k n st st' : Z.of_nat n < 2 ^ 62 → res_inv m k n st → racing k st st' → res_inv m k n st'.
Proof.
  intros Hn Hi [Hs Hk]. assert (CanCreate st.1 = true → count Counted st.2 < m) as Hcan by (rewrite (CanCreate_count m k n st Hn Hi); apply bool_decide_eq_true).
  destruct Hi as (Hl & Hmax & Hc & Hb).
  destruct Hs as [r ts i Hcc Hi|r ts i Hi|r ts i Hi]; unfold res_inv in *; cbn [fst snd] in *;
    rewrite ?(count_insert _ _ _ _ _ Hi) in Hk; rewrite length_insert, !(count_insert _ _ _ _ _ Hi); repeat case_decide; try congruence;
    pose proof (count_bounds Checked ts); pose proof (count_bounds Counted ts); pose proof (count_pos _ _ _ Hi).
  - specialize (Hcan Hcc). split_and!; lia.
  - cbn [Increase current max]. unfold to_int64. rewrite swrap_id by (unfold in_s; lia). split_and!; lia.
  - cbn [Decrease current max]. unfold to_int64. rewrite swrap_id by (unfold in_s; lia). split_and!; lia.
Qed.

(** C40. A limit of the resource manager is kept up to races: when any number of requests
    come and go, and at no moment more than [k] of them are between the check and the
    count, the counter is the number of requests in progress and exceeds the limit by
    less than [k]; and a request is let in exactly when fewer are in progress than the
    limit says. *)
Theorem resource_limit m k n st : (0 < k)%nat → 0 ≤ m → Z.of_nat n < 2 ^ 62 →
  rtc (racing k) (mk_res 0 m, replicate n Waiting) st →
  current st.1 = count Counted st.2 ∧ current st.1 ≤ m - 1 + Z.of_nat k ∧ CanCreate st.1 = bool_decide (count Counted st.2 < m).
Proof.
  intros Hk Hm Hn Hs.
  assert (res_inv m k n (mk_res 0 m, replicate n Waiting)) as Hi.
  { assert (∀ p, p ≠ Waiting → count p (replicate n Waiting) = 0) as Hz.
    { intros p Hp. unfold count. clear Hn Hs. induction n as [|i IH]; [done|]. simpl. rewrite filter_cons.
      case_decide; [congruence|done]. }
    unfold res_inv. cbn. rewrite length_replicate, !Hz by done. split_and!; lia. }
  assert (res_inv m k n st) as Hst by (induction Hs as [|st1 st2 st3 H1 _ IH]; [done|]; apply IH; by eapply res_inv_step).
  pose proof (CanCreate_count m k n st Hn Hst). destruct Hst as (_ & _ & Hc & Hb). pose proof (count_bounds Checked st.2). split_and!; [done|lia|done].
Qed.

(** Of three requests one after the other, the third is not let in by a limit of two;
    two at once get past a limit of one. *)
Lemma resource_limit_witness :
  let st := (mk_res 2 2, [Counted; Counted; Waiting]) in
  rtc (racing 1) (mk_res 0 2, replicate 3 Waiting) st ∧
  (current st.1 = count Counted st.2 ∧ current st.1 ≤ 2 - 1 + Z.of_nat 1 ∧ CanCreate st.1 = bool_decide (count Counted st.2 < 2)).
Proof.
  intros st. assert (rtc (racing 1) (mk_res 0 2, replicate 3 Waiting) st) as Hs.
  { eapply rtc_l; [split; [by apply (rs_check _ _ 0)|done]|]. eapply rtc_l; [split; [by apply (rs_increase _ _ 0)|done]|].
    eapply rtc_l; [split; [by apply (rs_check _ _ 1)|done]|]. eapply rtc_l; [split; [by apply (rs_increase _ _ 1)|done]|].
    exact (rtc_refl (racing 1) st). }
  split; [exact Hs|]. apply (resource_limit 2 1 3 st); [lia|lia|lia|exact Hs].
Defined.
Example two_pass_a_limit_of_one : rtc (racing 2) (mk_res 0 1, replicate 2 Waiting) (mk_res 2 1, [Counted; Counted]).
Proof.
  eapply rtc_l; [split; [by apply (rs_check _ _ 0)|done]|]. eapply rtc_l; [split; [by apply (rs_check _ _ 1)|done]|].
  eapply rtc_l; [split; [by apply (rs_increase _ _ 0)|done]|]. apply rtc_once. split; [by apply (rs_increase (mk_res 1 1) [Counted; Checked] 1)|done].
Qed.
