(* ===== verification/Subset.v ===== *)
(** * The subset load balancer: pkg/upstream/cluster/subsetlbimpl.go

    Hosts are grouped by their metadata: for every selector (a sorted list of
    keys) and every host that has all of its keys, the values lead through a
    trie to an entry, which balances over the hosts with the same values.

    Entries are pointers in the code and are changed in place; they are reached
    through the trie only, so an entry is changed by writing its leaf.  The
    priority set the subsets are taken from ([orig]) and the health flags are
    arguments: other components change them. *)

From S2P Require Import Prelude GoStrings Router Cluster.

Local Open Scope string_scope.
Local Open Scope list_scope.
Local Open Scope Z_scope.

Definition SubsetMetadata := list (string * string).

(** ** Selectors and default subset (subsetlbimpl.go, types/upstream.go) *)

Fixpoint dedup (known : list string) (input : list string) : list string :=
  match input with
  | [] => known
  | k :: input => dedup (if bool_decide (k ∈ known) then known else known ++ [k]) input
  end.

(** [InitSet]: without duplicates and sorted. *)
Definition InitSet (input : list string) : list string := sort_by id (dedup [] input).

Fixpoint judgeStringArrayEqual (T1 T2 : list string) : bool :=
  match T1, T2 with
  | [], [] => true
  | x :: T1, y :: T2 => bool_decide (x = y) && judgeStringArrayEqual T1 T2
  | _, _ => false
  end.

Fixpoint generate_keys (ssst : list (list string)) (keysArray : list (list string)) : list (list string) :=
  match keysArray with
  | [] => ssst
  | keys :: rest =>
    let sortedStringSet := InitSet keys in
    generate_keys (if existsb (judgeStringArrayEqual sortedStringSet) ssst then ssst
                   else ssst ++ [sortedStringSet]) rest
  end.
Definition GenerateSubsetKeys (keysArray : list (list string)) : list (list string) := generate_keys [] keysArray.

(** [InitSortedMap]: the entries in the order of their keys. *)
Definition InitSortedMap (input : gmap string string) : list (string * string) :=
  sort_by fst (map_to_list input).

Definition GenerateDftSubsetKeys (dftkeys : list (string * string)) : SubsetMetadata :=
  (λ p, (p.1, GenerateHashedValue p.2)) <$> dftkeys.

(** ** Matching hosts *)

Definition HostMatches (kvs : SubsetMetadata) (h : host) : bool :=
  forallb (λ kv, match h_metadata h !! kv.1 with
                 | Some value => EqualHashValue value kv.2
                 | None => false
                 end) kvs.

Fixpoint extract (subsetKeys : list string) (h : host) : SubsetMetadata :=
  match subsetKeys with
  | [] => []
  | key :: keys =>
    match h_metadata h !! key with
    | Some value => (key, value) :: extract keys h
    | None => []
    end
  end.

(** The values of the keys, or nothing when one is missing. *)
Definition ExtractSubsetMetadata (subsetKeys : list string) (h : host) : SubsetMetadata :=
  let kvs := extract subsetKeys h in
  if bool_decide (length kvs = length subsetKeys) then kvs else [].

(** The function a subset filters hosts with: a closure, or nil. *)
Inductive HostPredicate := PAny | PMatch (kvs : SubsetMetadata) | PNil.

Definition holds (p : HostPredicate) (h : host) : Go bool :=
  match p with
  | PAny => Ret true
  | PMatch kvs => Ret (HostMatches kvs h)
  | PNil => Panic NilDeref
  end.

Fixpoint filter_hosts (p : HostPredicate) (l : list host) : Go (list host) :=
  match l with
  | [] => Ret []
  | h :: l => b ← holds p h; rest ← filter_hosts p l; Ret (if b : bool then h :: rest else rest)
  end.

(** ** Hosts of a subset *)

Definition has_address (l : list host) (h : host) : bool :=
  existsb (λ o, bool_decide (h_address h = h_address o)) l.

Fixpoint append_new (hosts added : list host) : list host :=
  match added with
  | [] => hosts
  | h :: added => append_new (if has_address hosts h then hosts else hosts ++ [h]) added
  end.

(** Removing an address while ranging over the slice: the range sees [n]
    places of the array [arr], from [i] on; the slice is shortened in place. *)
Fixpoint remove_loop (addr : string) (n i : nat) (arr : list host) (len : nat) : Go (list host * nat) :=
  match n with
  | O => Ret (arr, len)
  | S n =>
    match arr !! i with
    | Some hostOrig =>
      if bool_decide (addr = h_address hostOrig) then
        if bool_decide (S i ≤ len)%nat then
          remove_loop addr n (S i) (take i arr ++ drop (S i) (take len arr) ++ drop (len - 1) arr) (len - 1)
        else Panic SliceBounds
      else remove_loop addr n (S i) arr len
    | None => Panic SliceBounds
    end
  end.

Fixpoint remove_hosts (hosts removed : list host) : Go (list host) :=
  match removed with
  | [] => Ret hosts
  | h :: removed =>
    '(arr, len) ← remove_loop (h_address h) (length hosts) 0 hosts (length hosts);
    remove_hosts (take len arr) removed
  end.

Definition GetFinalHosts (hosts hostsAdded hostsRemoved : list host) : Go (list host) :=
  remove_hosts (append_new hosts hostsAdded) hostsRemoved.

Definition UpdateHostSubset (fl : flags) (hs : hostSet) (hostsAdded hostsRemoved : list host) (p : HostPredicate)
  : Go hostSet :=
  filteredAdded ← filter_hosts p hostsAdded;
  filteredRemoved ← filter_hosts p hostsRemoved;
  finalhosts ← GetFinalHosts (hs_hosts hs) filteredAdded filteredRemoved;
  Ret (mk_hs finalhosts (filter (λ h, Health fl h = true) finalhosts)).

(** ** Priority subsets *)

Record PrioritySubsetImpl := mk_psi {
  psi_prioritySubset : prioritySet; psi_empty : bool; psi_loadbalancer : option LoadBalancer;
  psi_predicate : HostPredicate;
}.

Definition psi_Update (fl : flags) (psi : PrioritySubsetImpl) (priority : nat) (hostsAdded hostsRemoved : list host)
  : Go PrioritySubsetImpl :=
  '(ps, hs) ← GetOrCreateHostSet (psi_prioritySubset psi) priority;
  hs ← UpdateHostSubset fl hs hostsAdded hostsRemoved (psi_predicate psi);
  let ps := <[priority := hs]> ps in
  let empty := if existsb (λ hs, bool_decide (hs_hosts hs ≠ [])) ps then false else psi_empty psi in
  Ret (mk_psi ps empty (psi_loadbalancer psi) (psi_predicate psi)).

Fixpoint update_all (fl : flags) (psi : PrioritySubsetImpl) (i : nat) (sets : prioritySet) : Go PrioritySubsetImpl :=
  match sets with
  | [] => Ret psi
  | hs :: sets => psi ← psi_Update fl psi i (hs_hosts hs) []; update_all fl psi (S i) sets
  end.

Definition NewPrioritySubsetImpl (fl : flags) (lbType : LoadBalancerType) (orig : prioritySet) (p : HostPredicate)
  : Go PrioritySubsetImpl :=
  let empty := negb (existsb (λ hs, bool_decide (hs_hosts hs ≠ [])) orig) in
  psi ← update_all fl (mk_psi [] empty None p) 0 orig;
  let lb := match lbType with
            | Random => Some newRandomLoadbalancer
            | RoundRobin => Some newRoundRobinLoadBalancer
            | OtherType => None
            end in
  Ret (mk_psi (psi_prioritySubset psi) (psi_empty psi) lb (psi_predicate psi)).

(** ** The trie *)

Inductive LBSubsetEntry :=
  mk_entry (children : gmap string (gmap string LBSubsetEntry)) (prioritySubset : option PrioritySubsetImpl).
Abbreviation LbSubsetMap := (gmap string (gmap string LBSubsetEntry)).

Definition Children (e : LBSubsetEntry) : LbSubsetMap := let 'mk_entry c _ := e in c.
Definition PrioritySubset (e : LBSubsetEntry) : option PrioritySubsetImpl := let 'mk_entry _ p := e in p.
Definition Initialized (e : LBSubsetEntry) : bool :=
  match PrioritySubset e with Some _ => true | None => false end.
Definition Active (e : LBSubsetEntry) : bool := true.

Definition new_entry : LBSubsetEntry := mk_entry ∅ None.

Definition entry_at (subsets : LbSubsetMap) (name value : string) : option LBSubsetEntry :=
  match subsets !! name with Some vsMap => vsMap !! value | None => None end.
Definition put_entry (subsets : LbSubsetMap) (name value : string) (e : LBSubsetEntry) : LbSubsetMap :=
  <[name := <[value := e]> (default ∅ (subsets !! name))]> subsets.

Fixpoint FindSubset (subSets : LbSubsetMap) (matchCriteria : list criterion) : option LBSubsetEntry :=
  match matchCriteria with
  | [] => None
  | c :: cs =>
    match entry_at subSets (c_Name c) (c_Value c) with
    | Some vsEntry => match cs with [] => Some vsEntry | _ => FindSubset (Children vsEntry) cs end
    | None => None
    end
  end.

(** The trie with the entry of [kvs] in it, and the entry. *)
Fixpoint FindOrCreateSubset (subsets : LbSubsetMap) (kvs : SubsetMetadata) : Go (LbSubsetMap * LBSubsetEntry) :=
  match kvs with
  | [] => Panic SliceBounds
  | (name, hashedValue) :: rest =>
    let entry := default new_entry (entry_at subsets name hashedValue) in
    match rest with
    | [] => Ret (put_entry subsets name hashedValue entry, entry)
    | _ =>
      '(children, leaf) ← FindOrCreateSubset (Children entry) rest;
      Ret (put_entry subsets name hashedValue (mk_entry children (PrioritySubset entry)), leaf)
    end
  end.

(** [SetPrioritySubset], and updates of a priority subset, of the entry of [kvs]. *)
Fixpoint SetPrioritySubset (subsets : LbSubsetMap) (kvs : SubsetMetadata) (ps : PrioritySubsetImpl) : LbSubsetMap :=
  match kvs with
  | [] => subsets
  | (name, hashedValue) :: rest =>
    match entry_at subsets name hashedValue with
    | None => subsets
    | Some entry =>
      put_entry subsets name hashedValue
        (match rest with
         | [] => mk_entry (Children entry) (Some ps)
         | _ => mk_entry (SetPrioritySubset (Children entry) rest ps) (PrioritySubset entry)
         end)
    end
  end.

(** ** The balancer *)

Inductive FallBackPolicy := NoFallBack | AnyEndPoint | DefaultSubsetDefaultSubset | OtherPolicy.
#[export] Instance FallBackPolicy_eq_dec : EqDecision FallBackPolicy.
Proof. solve_decision. Defined.

Record LBSubsetInfoImpl := mk_info {
  li_enabled : bool; li_fallbackPolicy : FallBackPolicy; li_defaultSubSet : list (string * string);
  li_subSetKeys : list (list string);
}.

Definition NewLBSubsetInfo (policy : FallBackPolicy) (defaultSubset : gmap string string)
    (selectors : list (list string)) : LBSubsetInfoImpl :=
  mk_info (negb (bool_decide (length selectors = 0%nat))) policy (InitSortedMap defaultSubset)
    (GenerateSubsetKeys selectors).

(** The counters of the cluster that the balancer changes. *)
Record stats := mk_stats { LBSubSetsFallBack : Z; LBSubSetsActive : Z; LBSubsetsCreated : Z; LBSubsetsRemoved : Z }.

Record subSetLoadBalancer := mk_sslb {
  lbType : LoadBalancerType; fallBackPolicy : FallBackPolicy; defaultSubSetMetadata : SubsetMetadata;
  subSetKeys : list (list string); fallbackSubset : option PrioritySubsetImpl; subSets : LbSubsetMap;
  sslb_stats : stats;
}.

Definition with_fallback (s : subSetLoadBalancer) (f : option PrioritySubsetImpl) : subSetLoadBalancer :=
  mk_sslb (lbType s) (fallBackPolicy s) (defaultSubSetMetadata s) (subSetKeys s) f (subSets s) (sslb_stats s).
Definition with_subsets (s : subSetLoadBalancer) (t : LbSubsetMap) : subSetLoadBalancer :=
  mk_sslb (lbType s) (fallBackPolicy s) (defaultSubSetMetadata s) (subSetKeys s) (fallbackSubset s) t (sslb_stats s).
Definition with_stats (s : subSetLoadBalancer) (c : stats) : subSetLoadBalancer :=
  mk_sslb (lbType s) (fallBackPolicy s) (defaultSubSetMetadata s) (subSetKeys s) (fallbackSubset s) (subSets s) c.

Definition subset_created (c : stats) : stats :=
  mk_stats (LBSubSetsFallBack c) (to_int64 (LBSubSetsActive c + 1)) (to_int64 (LBSubsetsCreated c + 1)) (LBSubsetsRemoved c).
Definition subset_removed (c : stats) : stats :=
  mk_stats (LBSubSetsFallBack c) (to_int64 (LBSubSetsActive c - 1)) (LBSubsetsCreated c) (to_int64 (LBSubsetsRemoved c + 1)).
Definition fell_back (c : stats) : stats :=
  mk_stats (to_int64 (LBSubSetsFallBack c + 1)) (LBSubSetsActive c) (LBSubsetsCreated c) (LBSubsetsRemoved c).

Section update.
  Context (fl : flags) (orig : prioritySet) (priority : nat) (hostAdded hostsRemoved : list host).

Definition UpdateFallbackSubset (s : subSetLoadBalancer) : Go subSetLoadBalancer :=
  if bool_decide (fallBackPolicy s = NoFallBack) then Ret s
  else
    fb ← (match fallbackSubset s with
          | Some fb => Ret fb
          | None =>
            let predicate := match fallBackPolicy s with
                             | AnyEndPoint => PAny
                             | DefaultSubsetDefaultSubset => PMatch (defaultSubSetMetadata s)
                             | _ => PNil
                             end in
            NewPrioritySubsetImpl fl (lbType s) orig predicate
          end);
    fb ← psi_Update fl fb priority hostAdded hostsRemoved;
    Ret (with_fallback s (Some fb)).

(** The two callbacks of [Update]. *)
Definition updateCB (s : subSetLoadBalancer) (kvs : SubsetMetadata) (entry : LBSubsetEntry) (ps : PrioritySubsetImpl)
  : Go subSetLoadBalancer :=
  let activeBefore := Active entry in
  ps ← psi_Update fl ps priority hostAdded hostsRemoved;
  let entry := mk_entry (Children entry) (Some ps) in
  let s := with_subsets s (SetPrioritySubset (subSets s) kvs ps) in
  if activeBefore && negb (Active entry) then Ret (with_stats s (subset_removed (sslb_stats s)))
  else if negb activeBefore && Active entry then Ret (with_stats s (subset_created (sslb_stats s)))
  else Ret s.

Definition newCB (s : subSetLoadBalancer) (kvs : SubsetMetadata) (addinghost : bool) : Go subSetLoadBalancer :=
  if addinghost then
    ps ← NewPrioritySubsetImpl fl (lbType s) orig (PMatch kvs);
    let s := with_subsets s (SetPrioritySubset (subSets s) kvs ps) in
    Ret (with_stats s (subset_created (sslb_stats s)))
  else Ret s.

(** A host and a selector. *)
Definition process_key (s : subSetLoadBalancer) (addinghost : bool) (h : host) (keys : list string)
  : Go subSetLoadBalancer :=
  let kvs := ExtractSubsetMetadata keys h in
  if bool_decide (length kvs = 0%nat) then Ret s
  else
    '(t, entry) ← FindOrCreateSubset (subSets s) kvs;
    let s := with_subsets s t in
    match PrioritySubset entry with
    | Some ps => updateCB s kvs entry ps
    | None => newCB s kvs addinghost
    end.

Fixpoint process_keys (s : subSetLoadBalancer) (addinghost : bool) (h : host) (l : list (list string))
  : Go subSetLoadBalancer :=
  match l with
  | [] => Ret s
  | keys :: l => s ← process_key s addinghost h keys; process_keys s addinghost h l
  end.

Fixpoint process_hosts (s : subSetLoadBalancer) (addinghost : bool) (hosts : list host) : Go subSetLoadBalancer :=
  match hosts with
  | [] => Ret s
  | h :: hosts => s ← process_keys s addinghost h (subSetKeys s); process_hosts s addinghost hosts
  end.

(** The added and the removed hosts are ranged over as a map, in either order. *)
Definition ProcessSubsets (s : subSetLoadBalancer) (addFirst : bool) : Go subSetLoadBalancer :=
  if addFirst then s ← process_hosts s true hostAdded; process_hosts s false hostsRemoved
  else s ← process_hosts s false hostsRemoved; process_hosts s true hostAdded.

Definition Update (s : subSetLoadBalancer) (addFirst : bool) : Go subSetLoadBalancer :=
  s ← UpdateFallbackSubset s; ProcessSubsets s addFirst.
End update.

Fixpoint init_sets (fl : flags) (orig : prioritySet) (addFirst : bool) (s : subSetLoadBalancer) (i : nat)
    (sets : prioritySet) : Go subSetLoadBalancer :=
  match sets with
  | [] => Ret s
  | hs :: sets => s ← Update fl orig i (hs_hosts hs) [] s addFirst; init_sets fl orig addFirst s (S i) sets
  end.

Definition NewSubsetLoadBalancer (fl : flags) (ty : LoadBalancerType) (orig : prioritySet) (c : stats)
    (subsets : LBSubsetInfoImpl) (addFirst : bool) : Go subSetLoadBalancer :=
  let ssb := mk_sslb ty (li_fallbackPolicy subsets) (GenerateDftSubsetKeys (li_defaultSubSet subsets))
               (li_subSetKeys subsets) None ∅ c in
  init_sets fl orig addFirst ssb 0 orig.

(** ** Choosing a host *)

(** The match criteria of a request, an interface: nil, a nil pointer inside
    the interface, or criteria. *)
Inductive criteria_iface := CNil | CNilPointer | CSome (l : list criterion).

(** [MetadataMatchCriteria] of a route returns its pointer as an interface,
    which is not nil when the pointer is. *)
Definition MetadataMatchCriteria (r : RouteBase) : criteria_iface :=
  match b_metadataMatchCriteria (route_base r) with Some l => CSome l | None => CNilPointer end.

Definition psi_ChooseHost (psi : PrioritySubsetImpl) (r1 r2 : nat) : Go (PrioritySubsetImpl * option host) :=
  match psi_loadbalancer psi with
  | None => Panic NilDeref
  | Some lb =>
    '(lb, h) ← LB_ChooseHost lb (psi_prioritySubset psi) r1 r2;
    Ret (mk_psi (psi_prioritySubset psi) (psi_empty psi) (Some lb) (psi_predicate psi), h)
  end.

(** The host and whether the subset was found. *)
Definition TryChooseHostFromContext (s : subSetLoadBalancer) (criteria : criteria_iface) (r1 r2 : nat)
  : Go (subSetLoadBalancer * option host * bool) :=
  match criteria with
  | CNil => Ret (s, None, false)
  | CNilPointer => Panic NilDeref
  | CSome l =>
    match FindSubset (subSets s) l with
    | None => Ret (s, None, false)
    | Some entry =>
      if negb (Active entry) then Ret (s, None, false)
      else match PrioritySubset entry with
           | None => Panic NilDeref
           | Some psi =>
             '(psi, h) ← psi_ChooseHost psi r1 r2;
             let kvs := (λ c, (c_Name c, c_Value c)) <$> l in
             Ret (with_subsets s (SetPrioritySubset (subSets s) kvs psi), h, true)
           end
    end
  end.

(** [context] is the criteria of the request, when there is a context. *)
Definition ChooseHost (s : subSetLoadBalancer) (context : option criteria_iface) (r1 r2 : nat)
  : Go (subSetLoadBalancer * option host) :=
  '(s, h, hostChoosen) ← (match context with
                          | Some criteria => TryChooseHostFromContext s criteria r1 r2
                          | None => Ret (s, None, false)
                          end);
  if hostChoosen : bool then
    (* the address of the host is logged *)
    match h with None => Panic NilDeref | Some h => Ret (s, Some h) end
  else
    match fallbackSubset s with
    | None => Ret (s, None)
    | Some fb =>
      let s := with_stats s (fell_back (sslb_stats s)) in
      '(ps, hs) ← GetOrCreateHostSet (psi_prioritySubset fb) 0;
      let fb := mk_psi ps (psi_empty fb) (psi_loadbalancer fb) (psi_predicate fb) in
      let s := with_fallback s (Some fb) in
      if bool_decide (length (hs_hosts hs) = 0%nat) then Ret (s, None)
      else '(fb, h) ← psi_ChooseHost fb r1 r2; Ret (with_fallback s (Some fb), h)
    end.
