(* ===== verification/SubsetProps.v ===== *)
(** * Correctness of the subset load balancer

    A request with metadata criteria is only ever sent to a host whose metadata
    has them; a new balancer has, for every selector and host, the subset of
    exactly the hosts with the same values; and the ways in which choosing a
    host panics. *)

From S2P Require Import Prelude GoStrings Router Cluster ClusterProps Subset.

Local Open Scope list_scope.
Local Open Scope Z_scope.

(** ** The trie as a map from paths *)

Definition pairs (l : list criterion) : SubsetMetadata := (λ c, (c_Name c, c_Value c)) <$> l.

Fixpoint lookup_entry (t : LbSubsetMap) (kvs : SubsetMetadata) : option LBSubsetEntry :=
  match kvs with
  | [] => None
  | (n, v) :: rest =>
    match entry_at t n v with
    | Some e => match rest with [] => Some e | _ => lookup_entry (Children e) rest end
    | None => None
    end
  end.

Lemma FindSubset_lookup t l : FindSubset t l = lookup_entry t (pairs l).
Proof.
  revert t. induction l as [|c l IH]; intros t; [done|]. cbn. destruct (entry_at t _ _) as [e|]; [|done].
  destruct l; [done|]. apply IH.
Qed.

Definition ps_at (t : LbSubsetMap) (kvs : SubsetMetadata) : option PrioritySubsetImpl :=
  match lookup_entry t kvs with Some e => PrioritySubset e | None => None end.

Lemma entry_at_put t n v e n' v' :
  entry_at (put_entry t n v e) n' v' = if decide (n' = n ∧ v' = v) then Some e else entry_at t n' v'.
Proof.
  unfold entry_at, put_entry. destruct (decide (n' = n)) as [->|Hn].
  - rewrite lookup_insert_eq. destruct (decide (v' = v)) as [->|Hv].
    + rewrite lookup_insert_eq, decide_True by done. done.
    + rewrite lookup_insert_ne by done. rewrite decide_False by naive_solver. by destruct (t !! n).
  - rewrite lookup_insert_ne by done. rewrite decide_False by naive_solver. done.
Qed.

Lemma entry_at_empty n v : entry_at ∅ n v = None.
Proof. unfold entry_at. by rewrite lookup_empty. Qed.

Lemma lookup_entry_empty kvs : lookup_entry ∅ kvs = None.
Proof. destruct kvs as [|[n v] rest]; [done|]. cbn. by rewrite entry_at_empty. Qed.

Lemma ps_at_empty kvs : ps_at ∅ kvs = None.
Proof. unfold ps_at. by rewrite lookup_entry_empty. Qed.

(** A path, by its first step; a missing entry is like a new one. *)
Lemma ps_at_cons t n v rest :
  let e := default new_entry (entry_at t n v) in
  ps_at t ((n, v) :: rest) = match rest with [] => PrioritySubset e | _ => ps_at (Children e) rest end.
Proof.
  unfold ps_at. cbn. destruct (entry_at t n v) as [e|]; cbn; [by destruct rest|].
  destruct rest as [|[n' v'] rest]; [done|]. by rewrite lookup_entry_empty.
Qed.

Lemma ps_at_put t n v e k :
  ps_at (put_entry t n v e) k =
    match k with
    | (n', v') :: rest => if decide (n' = n ∧ v' = v)
                          then match rest with [] => PrioritySubset e | _ => ps_at (Children e) rest end
                          else ps_at t k
    | [] => None
    end.
Proof.
  destruct k as [|[n' v'] rest]; [done|]. rewrite !ps_at_cons, entry_at_put. cbv zeta. by case_decide.
Qed.

(** Finding or creating an entry changes no subset. *)
Lemma FindOrCreate_ps kvs : ∀ t t' e, FindOrCreateSubset t kvs = Ret (t', e) →
  (∀ k, ps_at t' k = ps_at t k) ∧ PrioritySubset e = ps_at t kvs ∧ lookup_entry t' kvs = Some e.
Proof.
  induction kvs as [|[n v] rest IH]; intros t t' e Hr; [discriminate|]. cbn [FindOrCreateSubset] in Hr.
  set (e0 := default new_entry (entry_at t n v)) in *. destruct rest as [|kv rest].
  - injection Hr as <- <-. split_and!.
    + intros k. rewrite ps_at_put. destruct k as [|[n' v'] k]; [done|]. case_decide as Hd; [|done].
      destruct Hd as [-> ->]. symmetry. apply ps_at_cons.
    + symmetry. apply ps_at_cons.
    + cbn. by rewrite entry_at_put, decide_True by done.
  - apply bind_Ret_inv in Hr as ([ch leaf] & Hc & Hr). injection Hr as <- <-.
    destruct (IH _ _ _ Hc) as (H1 & H2 & H3). split_and!.
    + intros k. rewrite ps_at_put. destruct k as [|[n' v'] k]; [done|]. case_decide as Hd; [|done].
      destruct Hd as [-> ->]. rewrite ps_at_cons. cbv zeta. fold e0. cbn. destruct k; [done|apply H1].
    + rewrite H2. symmetry. apply (ps_at_cons t n v (kv :: rest)).
    + cbn [lookup_entry]. rewrite entry_at_put, decide_True by done. exact H3.
Qed.

Lemma FindOrCreate_total kvs : ∀ t, kvs ≠ [] → ∃ r, FindOrCreateSubset t kvs = Ret r.
Proof.
  induction kvs as [|[n v] rest IH]; intros t Hne; [done|]. cbn [FindOrCreateSubset]. destruct rest as [|kv rest]; [eauto|].
  destruct (IH (Children (default new_entry (entry_at t n v)))) as [[ch leaf] Hr]; [done|]. rewrite Hr, bind_Ret. eauto.
Qed.

(** Setting the subset of an entry that exists. *)
Lemma SetPrioritySubset_ps kvs ps : ∀ t e, lookup_entry t kvs = Some e →
  ∀ k, ps_at (SetPrioritySubset t kvs ps) k = if decide (k = kvs) then Some ps else ps_at t k.
Proof.
  induction kvs as [|[n v] rest IH]; intros t e Hl k; [done|]. cbn [lookup_entry SetPrioritySubset] in *.
  destruct (entry_at t n v) as [e0|] eqn:He; [|done]. rewrite ps_at_put.
  destruct k as [|[n' v'] k]; [by rewrite decide_False by done|]. case_decide as Hd.
  - destruct Hd as [-> ->]. rewrite ps_at_cons, He. cbn [default]. cbv zeta. destruct rest as [|kv rest].
    + destruct k; cbn; [by rewrite decide_True|]. by rewrite decide_False.
    + destruct k as [|kv' k]; [by rewrite decide_False|]. cbn [Children].
      rewrite (IH _ e Hl). case_decide as Hd1; case_decide as Hd2; try done; naive_solver.
  - rewrite decide_False; [done|]. naive_solver.
Qed.

(** ** Filtering hosts *)

Lemma filter_hosts_match kvs l : filter_hosts (PMatch kvs) l = Ret (filter (λ h, HostMatches kvs h = true) l).
Proof.
  induction l as [|h l IH]; [done|]. cbn [filter_hosts holds]. rewrite bind_Ret, IH, bind_Ret, filter_cons.
  destruct (HostMatches kvs h); [by rewrite decide_True|by rewrite decide_False].
Qed.

Lemma filter_hosts_any l : filter_hosts PAny l = Ret l.
Proof. induction l as [|h l IH]; [done|]. cbn [filter_hosts holds]. by rewrite bind_Ret, IH, bind_Ret. Qed.

Lemma filter_hosts_sub p l r : filter_hosts p l = Ret r → ∀ h, h ∈ r → h ∈ l ∧ holds p h = Ret true.
Proof.
  revert r. induction l as [|x l IH]; intros r Hr h Hin; cbn [filter_hosts] in Hr.
  { injection Hr as <-. by apply elem_of_nil in Hin. }
  apply bind_Ret_inv in Hr as (b & Hb & Hr). apply bind_Ret_inv in Hr as (rest & Hrest & Hr). injection Hr as <-.
  destruct b.
  - apply elem_of_cons in Hin as [->|Hin]; [split; [by left|done]|]. destruct (IH _ Hrest h Hin). split; [by right|done].
  - destruct (IH _ Hrest h Hin). split; [by right|done].
Qed.

Lemma append_new_sub hosts added h : h ∈ append_new hosts added → h ∈ hosts ∨ h ∈ added.
Proof.
  revert hosts. induction added as [|x added IH]; intros hosts Hin; [by left|]. cbn [append_new] in Hin.
  apply IH in Hin as [Hin|Hin]; [|right; by right]. destruct (has_address hosts x); [by left|].
  apply elem_of_app in Hin as [Hin|Hin]; [by left|]. apply list_elem_of_singleton in Hin as ->. right. by left.
Qed.

Lemma remove_loop_sub addr n : ∀ i arr len arr' len',
  remove_loop addr n i arr len = Ret (arr', len') → ∀ h, h ∈ arr' → h ∈ arr.
Proof.
  induction n as [|n IH]; intros i arr len arr' len' Hr h Hin; cbn [remove_loop] in Hr.
  { by injection Hr as <- <-. }
  destruct (arr !! i) as [o|]; [|discriminate]. case_bool_decide; [|by eapply IH].
  case_bool_decide; [|discriminate]. apply (IH _ _ _ _ _ Hr) in Hin.
  rewrite !elem_of_app in Hin. destruct Hin as [Hin|[Hin|Hin]].
  - by eapply subseteq_take.
  - apply subseteq_drop, subseteq_take in Hin. done.
  - by eapply subseteq_drop.
Qed.

Lemma remove_hosts_sub removed : ∀ hosts r, remove_hosts hosts removed = Ret r → ∀ h, h ∈ r → h ∈ hosts.
Proof.
  induction removed as [|x removed IH]; intros hosts r Hr h Hin; cbn [remove_hosts] in Hr.
  { by injection Hr as <-. }
  apply bind_Ret_inv in Hr as ([arr len] & Hl & Hr). apply (IH _ _ Hr), subseteq_take in Hin.
  by eapply remove_loop_sub.
Qed.

(** ** Subsets only hold hosts that match *)

(** All hosts of the set satisfy the predicate, and healthy ones are hosts. *)
Definition set_ok (p : HostPredicate) (hs : hostSet) : Prop :=
  (∀ h, h ∈ hs_hosts hs → holds p h = Ret true) ∧ (∀ h, h ∈ hs_healthy hs → h ∈ hs_hosts hs).

Definition psi_ok (p : HostPredicate) (psi : PrioritySubsetImpl) : Prop :=
  psi_predicate psi = p ∧ Forall (set_ok p) (psi_prioritySubset psi).

Lemma set_ok_blank p : set_ok p createHostSet.
Proof. split; intros h Hin; by apply elem_of_nil in Hin. Qed.

Lemma GetOrCreate_ok p ps i ps' hs :
  Forall (set_ok p) ps → GetOrCreateHostSet ps i = Ret (ps', hs) → Forall (set_ok p) ps' ∧ set_ok p hs.
Proof.
  intros Hf. unfold GetOrCreateHostSet. set (ps1 := if bool_decide _ then _ else _).
  assert (Forall (set_ok p) ps1) as H1.
  { unfold ps1. case_bool_decide; [|done]. apply Forall_app. split; [done|].
    apply Forall_replicate, set_ok_blank. }
  destruct (ps1 !! i) as [hs1|] eqn:E; [|discriminate]. intros [= <- <-]. split; [done|].
  rewrite Forall_lookup in H1. by apply (H1 i).
Qed.

Lemma UpdateHostSubset_ok p fl hs added removed hs' :
  set_ok p hs → UpdateHostSubset fl hs added removed p = Ret hs' → set_ok p hs'.
Proof.
  intros [Hh _] Hr. unfold UpdateHostSubset in Hr. apply bind_Ret_inv in Hr as (fa & Hfa & Hr).
  apply bind_Ret_inv in Hr as (fr & Hfr & Hr). apply bind_Ret_inv in Hr as (fin & Hfin & [= <-]).
  split; cbn; intros h Hin; [|by apply list_elem_of_filter in Hin as [_ ?]].
  apply (remove_hosts_sub _ _ _ Hfin), append_new_sub in Hin as [Hin|Hin]; [by apply Hh|].
  by apply (filter_hosts_sub _ _ _ Hfa).
Qed.

Lemma psi_Update_ok p fl psi i added removed psi' :
  psi_ok p psi → psi_Update fl psi i added removed = Ret psi' → psi_ok p psi'.
Proof.
  intros [Hp Hf] Hr. unfold psi_Update in Hr. apply bind_Ret_inv in Hr as ([ps hs] & Hg & Hr).
  destruct (GetOrCreate_ok p _ _ _ _ Hf Hg) as [Hps Hhs]. rewrite Hp in Hr.
  apply bind_Ret_inv in Hr as (hs' & Hu & Hr). injection Hr as <-.
  split; [done|]. cbn. apply Forall_insert; [done|]. by eapply UpdateHostSubset_ok.
Qed.

Lemma update_all_ok p fl sets : ∀ psi i psi',
  psi_ok p psi → update_all fl psi i sets = Ret psi' → psi_ok p psi'.
Proof.
  induction sets as [|hs sets IH]; intros psi i psi' Hok Hr; cbn [update_all] in Hr; [by injection Hr as <-|].
  apply bind_Ret_inv in Hr as (psi1 & Hu & Hr). eapply IH; [|exact Hr]. by eapply psi_Update_ok.
Qed.

Lemma NewPrioritySubset_ok fl ty orig p psi : NewPrioritySubsetImpl fl ty orig p = Ret psi → psi_ok p psi.
Proof.
  intros Hr. unfold NewPrioritySubsetImpl in Hr. apply bind_Ret_inv in Hr as (psi1 & Hu & Hr). injection Hr as <-.
  apply (update_all_ok p) in Hu; [exact Hu|]. split; [done|constructor].
Qed.

Definition fallback_predicate (s : subSetLoadBalancer) : HostPredicate :=
  match fallBackPolicy s with
  | AnyEndPoint => PAny
  | DefaultSubsetDefaultSubset => PMatch (defaultSubSetMetadata s)
  | _ => PNil
  end.

(** The invariant of the balancer: the subset of a path holds hosts with the
    metadata of the path. *)
Record sslb_ok (s : subSetLoadBalancer) : Prop := {
  so_subsets : ∀ kvs psi, ps_at (subSets s) kvs = Some psi → psi_ok (PMatch kvs) psi;
  so_fallback : ∀ psi, fallbackSubset s = Some psi → psi_ok (fallback_predicate s) psi;
}.

Lemma sslb_ok_set s kvs ps e c :
  sslb_ok s → lookup_entry (subSets s) kvs = Some e → psi_ok (PMatch kvs) ps →
  sslb_ok (with_stats (with_subsets s (SetPrioritySubset (subSets s) kvs ps)) c).
Proof.
  intros [Hs Hf] Hl Hp. split; [|exact Hf]. cbn. intros k psi. rewrite (SetPrioritySubset_ps kvs ps _ e Hl).
  case_decide as Hd; [|apply Hs]. subst. by intros [= <-].
Qed.

Lemma process_key_ok fl orig i added removed s b h keys s' :
  sslb_ok s → process_key fl orig i added removed s b h keys = Ret s' → sslb_ok s'.
Proof.
  intros Hok Hr. unfold process_key in Hr. set (kvs := ExtractSubsetMetadata keys h) in *.
  destruct (bool_decide (length kvs = 0%nat)) eqn:Hk; [by injection Hr as <-|].
  apply bind_Ret_inv in Hr as ([t e] & Hf & Hr). destruct (FindOrCreate_ps _ _ _ _ Hf) as (H1 & H2 & H3).
  assert (sslb_ok (with_subsets s t)) as Hok'.
  { destruct Hok as [Ha Hb]. split; [|exact Hb]. cbn. intros k psi. rewrite H1. apply Ha. }
  destruct (PrioritySubset e) as [ps|] eqn:Hps.
  - unfold updateCB in Hr. apply bind_Ret_inv in Hr as (ps' & Hu & Hr). cbn in Hr. injection Hr as <-.
    apply (sslb_ok_set _ kvs ps' e (sslb_stats s) Hok' H3).
    eapply psi_Update_ok; [|exact Hu]. apply (so_subsets _ Hok). by rewrite <- H2.
  - unfold newCB in Hr. destruct b; [|by injection Hr as <-].
    apply bind_Ret_inv in Hr as (ps & Hn & Hr). injection Hr as <-.
    apply (sslb_ok_set _ kvs ps e _ Hok' H3). by eapply NewPrioritySubset_ok.
Qed.

Lemma process_keys_ok fl orig i added removed b h l : ∀ s s',
  sslb_ok s → process_keys fl orig i added removed s b h l = Ret s' → sslb_ok s'.
Proof.
  induction l as [|keys l IH]; intros s s' Hok Hr; cbn [process_keys] in Hr; [by injection Hr as <-|].
  apply bind_Ret_inv in Hr as (s1 & H1 & Hr). eapply IH; [|exact Hr]. by eapply process_key_ok.
Qed.

Lemma process_hosts_ok fl orig i added removed b l : ∀ s s',
  sslb_ok s → process_hosts fl orig i added removed s b l = Ret s' → sslb_ok s'.
Proof.
  induction l as [|h l IH]; intros s s' Hok Hr; cbn [process_hosts] in Hr; [by injection Hr as <-|].
  apply bind_Ret_inv in Hr as (s1 & H1 & Hr). eapply IH; [|exact Hr]. by eapply process_keys_ok.
Qed.

Lemma Update_ok fl orig i added removed s af s' :
  sslb_ok s → Update fl orig i added removed s af = Ret s' → sslb_ok s'.
Proof.
  intros Hok Hr. unfold Update in Hr. apply bind_Ret_inv in Hr as (s1 & H1 & Hr).
  assert (sslb_ok s1) as Hok1.
  { unfold UpdateFallbackSubset in H1. case_bool_decide; [by injection H1 as <-|].
    apply bind_Ret_inv in H1 as (fb & Hfb & H1). apply bind_Ret_inv in H1 as (fb' & Hu & H1). injection H1 as <-.
    destruct Hok as [Ha Hb]. split; [exact Ha|]. cbn. intros psi [= <-].
    eapply psi_Update_ok; [|exact Hu]. destruct (fallbackSubset s) as [f|] eqn:Ef.
    - injection Hfb as <-. by apply Hb.
    - by eapply NewPrioritySubset_ok. }
  unfold ProcessSubsets in Hr. destruct af; apply bind_Ret_inv in Hr as (s2 & H2 & Hr);
    (eapply process_hosts_ok; [|exact Hr]); by eapply process_hosts_ok.
Qed.

(** ** Reachable balancers *)

Lemma LB_keeps_ok p psi r1 r2 psi' h : psi_ok p psi → psi_ChooseHost psi r1 r2 = Ret (psi', h) → psi_ok p psi'.
Proof.
  intros Hok Hr. unfold psi_ChooseHost in Hr. destruct (psi_loadbalancer psi); [|discriminate].
  apply bind_Ret_inv in Hr as ([lb o] & _ & Hr). by injection Hr as <- _.
Qed.

Lemma psi_ChooseHost_holds p psi r1 r2 psi' h :
  psi_ok p psi → psi_ChooseHost psi r1 r2 = Ret (psi', Some h) → holds p h = Ret true.
Proof.
  intros [_ Hf] Hr. unfold psi_ChooseHost in Hr. destruct (psi_loadbalancer psi); [|discriminate].
  apply bind_Ret_inv in Hr as ([lb o] & Hc & Hr). injection Hr as _ ->.
  apply LB_ChooseHost_healthy in Hc as (hs & Hin & Hh). rewrite Forall_forall in Hf. destruct (Hf hs Hin) as [H1 H2].
  by apply H1, H2.
Qed.

Lemma init_sets_ok fl orig af sets : ∀ s i s', sslb_ok s → init_sets fl orig af s i sets = Ret s' → sslb_ok s'.
Proof.
  induction sets as [|hs sets IH]; intros s i s' Hok Hr; cbn [init_sets] in Hr; [by injection Hr as <-|].
  apply bind_Ret_inv in Hr as (s1 & H1 & Hr). eapply IH; [|exact Hr]. by eapply Update_ok.
Qed.

Lemma blank_ok ty pol dft keys c : sslb_ok (mk_sslb ty pol dft keys None ∅ c).
Proof. split; [|done]. cbn. intros kvs psi. by rewrite ps_at_empty. Qed.

Lemma lookup_of_ps t kvs psi : ps_at t kvs = Some psi → ∃ e, lookup_entry t kvs = Some e ∧ PrioritySubset e = Some psi.
Proof. unfold ps_at. destruct (lookup_entry t kvs) as [e|]; [eauto|done]. Qed.

Lemma Try_ok s cr r1 r2 s' o b :
  sslb_ok s → TryChooseHostFromContext s cr r1 r2 = Ret (s', o, b) →
  sslb_ok s' ∧ fallbackSubset s' = fallbackSubset s ∧ fallback_predicate s' = fallback_predicate s.
Proof.
  intros Hok. unfold TryChooseHostFromContext. destruct cr as [| |l]; [by intros [= <- _ _]|done|].
  destruct (FindSubset (subSets s) l) as [e|] eqn:He; [|by intros [= <- _ _]]. cbn.
  destruct (PrioritySubset e) as [psi|] eqn:Hp; [|discriminate]. intros Hr.
  apply bind_Ret_inv in Hr as ([psi' h] & Hc & Hr). injection Hr as <- _ _. split; [|done].
  rewrite FindSubset_lookup in He.
  apply (sslb_ok_set s (pairs l) psi' e (sslb_stats s) Hok He). eapply LB_keeps_ok; [|exact Hc].
  apply (so_subsets _ Hok). unfold ps_at. by rewrite He.
Qed.

Lemma ChooseHost_ok s ctx r1 r2 s' o : sslb_ok s → ChooseHost s ctx r1 r2 = Ret (s', o) → sslb_ok s'.
Proof.
  intros Hok Hr. unfold ChooseHost in Hr. apply bind_Ret_inv in Hr as ([[s1 h] b] & H1 & Hr).
  assert (sslb_ok s1) as Hok1 by (destruct ctx; [by destruct (Try_ok _ _ _ _ _ _ _ Hok H1)|by injection H1 as <- _ _]).
  destruct b; [destruct h; [|discriminate]; by injection Hr as <- _|].
  destruct (fallbackSubset s1) as [fb|] eqn:Ef; [|by injection Hr as <- _].
  apply bind_Ret_inv in Hr as ([ps hs] & Hg & Hr). destruct Hok1 as [Ha Hb]. specialize (Hb fb Ef) as [Hp Hf].
  destruct (GetOrCreate_ok _ _ _ _ _ Hf Hg) as [Hf' _]. set (fb1 := mk_psi ps _ _ _) in Hr.
  assert (psi_ok (fallback_predicate s1) fb1) as Hfb1 by done.
  destruct (bool_decide _).
  - injection Hr as <- _. split; [exact Ha|]. cbn. by intros psi [= <-].
  - apply bind_Ret_inv in Hr as ([fb2 h2] & Hc & Hr). injection Hr as <- _. split; [exact Ha|]. cbn. intros psi [= <-].
    by eapply LB_keeps_ok.
Qed.

(** A balancer after its creation, updates of the host sets and choices. *)
Inductive reachable : subSetLoadBalancer → Prop :=
  | re_new fl ty orig c info af s : NewSubsetLoadBalancer fl ty orig c info af = Ret s → reachable s
  | re_update s fl orig i added removed af s' :
      reachable s → Update fl orig i added removed s af = Ret s' → reachable s'
  | re_choose s ctx r1 r2 s' o : reachable s → ChooseHost s ctx r1 r2 = Ret (s', o) → reachable s'.

Lemma reachable_ok s : reachable s → sslb_ok s.
Proof.
  induction 1 as [fl ty orig c info af s Hr|s fl orig i a r af s' _ IH Hr|s ctx r1 r2 s' o _ IH Hr].
  - eapply init_sets_ok; [|exact Hr]. apply blank_ok.
  - by eapply Update_ok.
  - by eapply ChooseHost_ok.
Qed.

(** C7. A request is only sent to a host that has the metadata it asks for:
    after any sequence of host updates and choices, a host chosen for criteria
    that lead to a subset has every one of them, and a host chosen from the
    default subset has the default metadata. *)
Theorem chosen_host_matches s l r1 r2 s' h :
  reachable s → ChooseHost s (Some (CSome l)) r1 r2 = Ret (s', Some h) →
  match FindSubset (subSets s) l with
  | Some _ => HostMatches (pairs l) h = true
  | None => fallBackPolicy s = DefaultSubsetDefaultSubset → HostMatches (defaultSubSetMetadata s) h = true
  end.
Proof.
  intros Hreach%reachable_ok Hr. unfold ChooseHost in Hr. apply bind_Ret_inv in Hr as ([[s1 o] b] & Ht & Hr).
  cbn [TryChooseHostFromContext] in Ht. destruct (FindSubset (subSets s) l) as [e|] eqn:He.
  - cbn [Active negb] in Ht. destruct (PrioritySubset e) as [psi|] eqn:Hp; [|discriminate].
    apply bind_Ret_inv in Ht as ([psi' h'] & Hc & Ht). injection Ht as <- <- <-.
    destruct h' as [h'|]; [|discriminate]. injection Hr as _ <-.
    rewrite FindSubset_lookup in He.
    assert (psi_ok (PMatch (pairs l)) psi) as Hok by (apply (so_subsets _ Hreach); unfold ps_at; by rewrite He).
    apply psi_ChooseHost_holds with (p := PMatch (pairs l)) in Hc; [|done]. by injection Hc.
  - injection Ht as <- <- <-. intros Hpol. destruct (fallbackSubset s) as [fb|] eqn:Ef; [|discriminate].
    apply bind_Ret_inv in Hr as ([ps hs] & Hg & Hr). destruct (so_fallback _ Hreach fb Ef) as [Hp Hf].
    unfold fallback_predicate in *. rewrite Hpol in *.
    destruct (GetOrCreate_ok _ _ _ _ _ Hf Hg) as [Hf' _]. destruct (bool_decide _); [discriminate|].
    apply bind_Ret_inv in Hr as ([fb2 h2] & Hc & Hr). injection Hr as _ ->.
    apply psi_ChooseHost_holds with (p := PMatch (defaultSubSetMetadata s)) in Hc; [by injection Hc|done].
Qed.

(** ** A new balancer has all the subsets *)

(** The predicate as a boolean. *)
Definition sat (p : HostPredicate) (h : host) : bool :=
  match p with PAny => true | PMatch kvs => HostMatches kvs h | PNil => false end.

Lemma filter_hosts_sat p l : p ≠ PNil → filter_hosts p l = Ret (filter (λ h, sat p h = true) l).
Proof.
  destruct p as [|kvs|]; intros Hp; [|apply filter_hosts_match|done]. rewrite filter_hosts_any. f_equal.
  symmetry. induction l as [|h l IH]; [done|]. rewrite filter_cons, decide_True by done. by f_equal.
Qed.

Definition addresses (l : list host) : list string := h_address <$> l.

Lemma has_address_spec l h : has_address l h = true ↔ h_address h ∈ addresses l.
Proof.
  unfold has_address, addresses. rewrite existsb_exists, list_elem_of_fmap. split.
  - intros (x & Hin & E%bool_decide_eq_true). exists x. split; [done|by apply list_elem_of_In].
  - intros (x & E & Hin). exists x. split; [by apply list_elem_of_In|by apply bool_decide_eq_true].
Qed.

Lemma append_new_known added : ∀ hosts, (∀ h, h ∈ added → h_address h ∈ addresses hosts) → append_new hosts added = hosts.
Proof.
  induction added as [|x added IH]; intros hosts H; [done|]. cbn [append_new].
  assert (has_address hosts x = true) as -> by (apply has_address_spec, H; by left).
  apply IH. intros h Hh. apply H. by right.
Qed.

Lemma append_new_fresh added : ∀ hosts, NoDup (addresses (hosts ++ added)) → append_new hosts added = hosts ++ added.
Proof.
  induction added as [|x added IH]; intros hosts Hnd; cbn [append_new]; [by rewrite app_nil_r|].
  assert (has_address hosts x = false) as ->.
  { apply not_true_is_false. rewrite has_address_spec. intros Hin. unfold addresses in *. rewrite fmap_app in Hnd.
    apply NoDup_app in Hnd as (_ & Hd & _). apply (Hd _ Hin). cbn. by left. }
  rewrite cons_middle, app_assoc in Hnd. by rewrite (IH (hosts ++ [x])), <- app_assoc by done.
Qed.

Lemma addresses_filter_nodup P `{!∀ x, Decision (P x)} l : NoDup (addresses l) → NoDup (addresses (filter P l)).
Proof.
  unfold addresses. induction l as [|x l IH]; [done|]. cbn [fmap list_fmap]. intros [Hni Hnd]%NoDup_cons.
  rewrite filter_cons. case_decide; [|by apply IH]. cbn [fmap list_fmap]. apply NoDup_cons. split; [|by apply IH].
  intros (y & E & Hin)%list_elem_of_fmap. apply Hni. rewrite E. apply list_elem_of_fmap_2.
  by apply list_elem_of_filter in Hin as [_ ?].
Qed.

Section complete.
  Context (fl : flags) (orig : prioritySet).
  Context (orig_num : Z.of_nat (length orig) < 2 ^ 32).
  Context (orig_nodup : Forall (λ hs, NoDup (addresses (hs_hosts hs))) orig).

(** The part of a host set that satisfies a predicate. *)
Definition part (p : HostPredicate) (hs : hostSet) : hostSet :=
  let hosts := filter (λ h, sat p h = true) (hs_hosts hs) in
  mk_hs hosts (filter (λ h, Health fl h = true) hosts).

(** The subset of the whole priority set. *)
Definition full (p : HostPredicate) (psi : PrioritySubsetImpl) : Prop :=
  psi_predicate psi = p ∧ psi_prioritySubset psi = part p <$> orig.

Lemma UpdateHostSubset_fresh p hs : p ≠ PNil → NoDup (addresses (hs_hosts hs)) →
  UpdateHostSubset fl createHostSet (hs_hosts hs) [] p = Ret (part p hs).
Proof.
  intros Hp Hnd. unfold UpdateHostSubset. rewrite (filter_hosts_sat p (hs_hosts hs)), bind_Ret by done. cbn [filter_hosts].
  rewrite bind_Ret. unfold GetFinalHosts. cbn [hs_hosts createHostSet remove_hosts].
  rewrite append_new_fresh by (by apply (addresses_filter_nodup _)). by rewrite bind_Ret.
Qed.

Lemma UpdateHostSubset_again p hs : p ≠ PNil → UpdateHostSubset fl (part p hs) (hs_hosts hs) [] p = Ret (part p hs).
Proof.
  intros Hp. unfold UpdateHostSubset. rewrite (filter_hosts_sat p (hs_hosts hs)), bind_Ret by done. cbn [filter_hosts].
  rewrite bind_Ret. unfold GetFinalHosts. cbn [hs_hosts part remove_hosts].
  rewrite append_new_known; [by rewrite bind_Ret|]. intros h Hin. by apply list_elem_of_fmap_2.
Qed.

Lemma GetOrCreate_next ps i : length ps = i → Z.of_nat i + 1 < 2 ^ 32 →
  GetOrCreateHostSet ps i = Ret (ps ++ [createHostSet], createHostSet).
Proof.
  intros Hl Hi. unfold GetOrCreateHostSet, to_uint32. rewrite uwrap_id by (unfold in_u; lia).
  rewrite bool_decide_true by lia. replace (S i - length ps)%nat with 1%nat by lia. cbn [replicate].
  by rewrite <- Hl, list_lookup_middle.
Qed.

Lemma GetOrCreate_there ps i hs : ps !! i = Some hs → Z.of_nat (length ps) < 2 ^ 32 →
  GetOrCreateHostSet ps i = Ret (ps, hs).
Proof.
  intros Hl Hn. pose proof (lookup_lt_Some _ _ _ Hl). unfold GetOrCreateHostSet, to_uint32.
  destruct (decide (Z.of_nat i + 1 = 2 ^ 32)) as [E|E].
  - lia.
  - rewrite uwrap_id by (unfold in_u; lia). rewrite bool_decide_false by lia. by rewrite Hl.
Qed.

Lemma update_all_full p sets : p ≠ PNil → ∀ psi i,
  psi_predicate psi = p → length (psi_prioritySubset psi) = i → Z.of_nat (i + length sets) < 2 ^ 32 →
  Forall (λ hs, NoDup (addresses (hs_hosts hs))) sets →
  ∃ psi', update_all fl psi i sets = Ret psi' ∧ psi_predicate psi' = p ∧
    psi_prioritySubset psi' = psi_prioritySubset psi ++ (part p <$> sets).
Proof.
  intros Hp. induction sets as [|hs sets IH]; intros psi i Hpred Hl Hn Hnd.
  { exists psi. by rewrite app_nil_r. }
  inversion Hnd as [|? ? Hnd1 Hnd2]; subst. cbn [update_all]. unfold psi_Update.
  rewrite GetOrCreate_next, bind_Ret by (done || simpl in Hn; lia).
  rewrite UpdateHostSubset_fresh, bind_Ret by done. rewrite insert_app_r_alt by lia.
  set (psi1 := mk_psi _ _ _ _).
  destruct (IH psi1 (S (length (psi_prioritySubset psi)))) as (psi' & H1 & H2 & H3); [done| | |done|].
  - unfold psi1. cbn [psi_prioritySubset]. rewrite length_app. rewrite Nat.sub_diag. simpl. lia.
  - simpl in Hn. lia.
  - exists psi'. rewrite bind_Ret. split_and!; [done..|]. rewrite H3. unfold psi1. cbn [psi_prioritySubset].
    rewrite Nat.sub_diag. cbn. by rewrite <- app_assoc.
Qed.

Definition lb_of (ty : LoadBalancerType) : option LoadBalancer :=
  match ty with
  | Random => Some newRandomLoadbalancer
  | RoundRobin => Some newRoundRobinLoadBalancer
  | OtherType => None
  end.

Lemma NewPrioritySubset_full ty p : p ≠ PNil →
  ∃ psi, NewPrioritySubsetImpl fl ty orig p = Ret psi ∧ full p psi ∧ psi_loadbalancer psi = lb_of ty.
Proof.
  intros Hp. unfold NewPrioritySubsetImpl. set (psi0 := mk_psi [] _ None p).
  destruct (update_all_full p orig Hp psi0 0) as (psi & -> & H1 & H2); [done..|]. rewrite bind_Ret.
  eexists. split; [done|]. split; [by split|]. by destruct ty.
Qed.

Lemma psi_Update_full p psi i hs : p ≠ PNil → full p psi → orig !! i = Some hs →
  ∃ psi', psi_Update fl psi i (hs_hosts hs) [] = Ret psi' ∧ full p psi' ∧
    psi_loadbalancer psi' = psi_loadbalancer psi.
Proof.
  intros Hp [Hpred Hsets] Hi. unfold psi_Update. rewrite Hsets.
  assert ((part p <$> orig) !! i = Some (part p hs)) as Hpi by (rewrite list_lookup_fmap; by rewrite Hi).
  rewrite (GetOrCreate_there _ i (part p hs)) by (done || by rewrite length_fmap).
  rewrite bind_Ret, Hpred, UpdateHostSubset_again, bind_Ret by done.
  eexists. split; [done|]. split; [|done]. split; [done|]. cbn [psi_prioritySubset].
  by apply list_insert_id.
Qed.

(** Every subset of the balancer is complete. *)
Record complete (s : subSetLoadBalancer) : Prop := {
  co_subsets : ∀ kvs psi, ps_at (subSets s) kvs = Some psi →
                 full (PMatch kvs) psi ∧ psi_loadbalancer psi = lb_of (lbType s);
  co_fallback : ∀ psi, fallbackSubset s = Some psi → full (fallback_predicate s) psi;
}.

(** The configuration stays and subsets are not lost. *)
Definition grows (s s' : subSetLoadBalancer) : Prop :=
  lbType s' = lbType s ∧ fallBackPolicy s' = fallBackPolicy s ∧
  defaultSubSetMetadata s' = defaultSubSetMetadata s ∧ subSetKeys s' = subSetKeys s ∧
  ∀ kvs, is_Some (ps_at (subSets s) kvs) → is_Some (ps_at (subSets s') kvs).

Lemma grows_refl s : grows s s.
Proof. by split_and!. Qed.
Lemma grows_trans s1 s2 s3 : grows s1 s2 → grows s2 s3 → grows s1 s3.
Proof. intros (? & ? & ? & ? & Ha) (? & ? & ? & ? & Hb). split_and!; try congruence. auto. Qed.

(** The subset of a host and a selector is there. *)
Definition covered (s : subSetLoadBalancer) (keys : list string) (h : host) : Prop :=
  ExtractSubsetMetadata keys h ≠ [] → is_Some (ps_at (subSets s) (ExtractSubsetMetadata keys h)).

Lemma covered_grows s s' keys h : grows s s' → covered s keys h → covered s' keys h.
Proof. intros (_ & _ & _ & _ & Hg) Hc Hne. by apply Hg, Hc. Qed.

Context (i : nat) (hs : hostSet) (Hi : orig !! i = Some hs).

Lemma complete_set s kvs psi e c :
  complete s → lookup_entry (subSets s) kvs = Some e → full (PMatch kvs) psi →
  psi_loadbalancer psi = lb_of (lbType s) →
  let s' := with_stats (with_subsets s (SetPrioritySubset (subSets s) kvs psi)) c in
  complete s' ∧ grows s s' ∧ is_Some (ps_at (subSets s') kvs).
Proof.
  intros [Hs Hf] Hl Hp Hlb s'. pose proof (SetPrioritySubset_ps kvs psi _ e Hl) as Hps. split_and!.
  - split; [|exact Hf]. cbn. intros k psi'. rewrite Hps. case_decide as Hd; [|apply Hs]. subst. by intros [= <-].
  - split_and!; try done. intros k Hk. cbn. rewrite Hps. case_decide; [done|exact Hk].
  - cbn. rewrite Hps, decide_True by done. done.
Qed.

Lemma process_key_complete s h keys : complete s →
  ∃ s', process_key fl orig i (hs_hosts hs) [] s true h keys = Ret s' ∧ complete s' ∧ grows s s' ∧ covered s' keys h.
Proof.
  intros Hc. unfold process_key, covered. set (kvs := ExtractSubsetMetadata keys h).
  destruct (bool_decide (length kvs = 0%nat)) eqn:Hk.
  { exists s. split_and!; [done|done|apply grows_refl|]. apply bool_decide_eq_true in Hk. by destruct kvs. }
  destruct (FindOrCreate_total kvs (subSets s)) as [[t e] Hf]; [by intros E; rewrite E in Hk|].
  rewrite Hf, bind_Ret. destruct (FindOrCreate_ps _ _ _ _ Hf) as (H1 & H2 & H3).
  assert (complete (with_subsets s t)) as Hct.
  { destruct Hc as [Ha Hb]. split; [|exact Hb]. cbn. intros k psi. rewrite H1. apply Ha. }
  assert (∀ s', grows (with_subsets s t) s' → grows s s') as Hg.
  { intros s' Hg. eapply grows_trans; [|exact Hg]. split_and!; try done. intros k. cbn. by rewrite H1. }
  assert (PMatch kvs ≠ PNil) as Hnp by done.
  destruct (PrioritySubset e) as [psi|] eqn:Hps.
  - destruct (co_subsets _ Hc kvs psi) as [Hfull Hlb]; [by rewrite <- H2|].
    destruct (psi_Update_full (PMatch kvs) psi i hs Hnp Hfull Hi) as (psi' & Hu & Hfull' & Hlb').
    unfold updateCB. rewrite Hu, bind_Ret. cbn [Active negb andb]. rewrite Hlb in Hlb'.
    destruct (complete_set (with_subsets s t) kvs psi' e (sslb_stats s) Hct H3 Hfull' Hlb') as (Hc' & Hg' & Hcov).
    eexists. split; [done|]. split_and!; [exact Hc'|exact (Hg _ Hg')|intros _; exact Hcov].
  - unfold newCB. destruct (NewPrioritySubset_full (lbType s) (PMatch kvs) Hnp) as (psi & Hn & Hfull & Hlb).
    cbn [lbType with_subsets]. rewrite Hn, bind_Ret.
    destruct (complete_set (with_subsets s t) kvs psi e (subset_created (sslb_stats s)) Hct H3 Hfull Hlb)
      as (Hc' & Hg' & Hcov).
    eexists. split; [done|]. split_and!; [exact Hc'|exact (Hg _ Hg')|intros _; exact Hcov].
Qed.

Lemma process_keys_complete h l : ∀ s, complete s →
  ∃ s', process_keys fl orig i (hs_hosts hs) [] s true h l = Ret s' ∧ complete s' ∧ grows s s' ∧
    ∀ keys, keys ∈ l → covered s' keys h.
Proof.
  induction l as [|keys l IH]; intros s Hc; cbn [process_keys].
  { exists s. split_and!; [done|done|apply grows_refl|]. intros k Hin. by apply elem_of_nil in Hin. }
  destruct (process_key_complete s h keys Hc) as (s1 & -> & Hc1 & Hg1 & Hcov). rewrite bind_Ret.
  destruct (IH s1 Hc1) as (s2 & -> & Hc2 & Hg2 & Hcov2). exists s2. split_and!; [done|done|by eapply grows_trans|].
  intros k [->|Hin]%elem_of_cons; [by eapply covered_grows|by apply Hcov2].
Qed.

Lemma process_hosts_complete l : ∀ s, complete s →
  ∃ s', process_hosts fl orig i (hs_hosts hs) [] s true l = Ret s' ∧ complete s' ∧ grows s s' ∧
    ∀ h keys, h ∈ l → keys ∈ subSetKeys s → covered s' keys h.
Proof.
  induction l as [|h l IH]; intros s Hc; cbn [process_hosts].
  { exists s. split_and!; [done|done|apply grows_refl|]. intros h k Hin. by apply elem_of_nil in Hin. }
  destruct (process_keys_complete h (subSetKeys s) s Hc) as (s1 & -> & Hc1 & Hg1 & Hcov). rewrite bind_Ret.
  destruct (IH s1 Hc1) as (s2 & -> & Hc2 & Hg2 & Hcov2). exists s2. split_and!; [done|done|by eapply grows_trans|].
  intros h' k [->|Hin]%elem_of_cons Hk; [eapply covered_grows; [exact Hg2|by apply Hcov]|].
  apply Hcov2; [done|]. by destruct Hg1 as (_ & _ & _ & -> & _).
Qed.

Lemma Update_complete s af : fallBackPolicy s ≠ OtherPolicy → complete s →
  ∃ s', Update fl orig i (hs_hosts hs) [] s af = Ret s' ∧ complete s' ∧ grows s s' ∧
    ∀ h keys, h ∈ hs_hosts hs → keys ∈ subSetKeys s → covered s' keys h.
Proof.
  intros Hpol Hc. unfold Update.
  assert (∃ s1, UpdateFallbackSubset fl orig i (hs_hosts hs) [] s = Ret s1 ∧ complete s1 ∧ grows s s1) as (s1 & -> & Hc1 & Hg1).
  { unfold UpdateFallbackSubset. case_bool_decide as Hno; [exists s; split_and!; [done|done|apply grows_refl]|].
    assert (fallback_predicate s ≠ PNil) as Hnp by (unfold fallback_predicate; by destruct (fallBackPolicy s)).
    assert (∃ fb, match fallbackSubset s with Some fb => Ret fb | None =>
              NewPrioritySubsetImpl fl (lbType s) orig (fallback_predicate s) end = Ret fb ∧
              full (fallback_predicate s) fb) as (fb & Hfb & Hfull).
    { destruct (fallbackSubset s) as [fb|] eqn:Ef; [exists fb; split; [done|by apply (co_fallback _ Hc)]|].
      destruct (NewPrioritySubset_full (lbType s) _ Hnp) as (psi & ? & ? & _). eauto. }
    unfold fallback_predicate in Hfb at 1. rewrite Hfb, bind_Ret.
    destruct (psi_Update_full _ fb i hs Hnp Hfull Hi) as (fb' & -> & Hfull' & _). rewrite bind_Ret.
    eexists. split; [done|]. split; [|by split_and!]. destruct Hc as [Ha Hb]. split; [exact Ha|]. cbn. by intros psi [= <-]. }
  rewrite bind_Ret. unfold ProcessSubsets. cbn [process_hosts].
  destruct (process_hosts_complete (hs_hosts hs) s1 Hc1) as (s2 & H2 & Hc2 & Hg2 & Hcov). exists s2.
  split; [destruct af; by rewrite ?bind_Ret, H2|]. split_and!; [done|by eapply grows_trans|].
  intros h keys Hh Hk. apply Hcov; [done|]. by destruct Hg1 as (_ & _ & _ & -> & _).
Qed.
End complete.

Section created.
  Context (fl : flags) (orig : prioritySet) (orig_num : Z.of_nat (length orig) < 2 ^ 32)
          (orig_nodup : Forall (λ hs, NoDup (addresses (hs_hosts hs))) orig).

Lemma init_sets_complete af sets : ∀ before s,
  orig = before ++ sets → fallBackPolicy s ≠ OtherPolicy → complete fl orig s →
  ∃ s', init_sets fl orig af s (length before) sets = Ret s' ∧ complete fl orig s' ∧ grows s s' ∧
    ∀ hs h keys, hs ∈ sets → h ∈ hs_hosts hs → keys ∈ subSetKeys s → covered s' keys h.
Proof.
  induction sets as [|hs sets IH]; intros before s Ho Hpol Hc; cbn [init_sets].
  { exists s. split_and!; [done|done|apply grows_refl|]. intros hs h keys Hin. by apply elem_of_nil in Hin. }
  assert (orig !! length before = Some hs) as Hi by (rewrite Ho; by apply list_lookup_middle).
  destruct (Update_complete fl orig orig_num orig_nodup _ hs Hi s af Hpol Hc) as (s1 & -> & Hc1 & Hg1 & Hcov1).
  rewrite bind_Ret. pose proof Hg1 as (_ & Hpol1 & _ & Hk1 & _).
  destruct (IH (before ++ [hs]) s1) as (s2 & H2 & Hc2 & Hg2 & Hcov2); [by rewrite <- app_assoc|by rewrite Hpol1|done|].
  rewrite length_app, Nat.add_1_r in H2. exists s2. split_and!; [done|done|by eapply grows_trans|].
  intros hs' h keys [->|Hin]%elem_of_cons Hh Hk; [by eapply covered_grows; [exact Hg2|apply Hcov1]|].
  eapply Hcov2; [exact Hin|done|by rewrite Hk1].
Qed.

(** A new balancer: every host with the keys of a selector has its subset, and
    every subset is the part of the priority set with its metadata. *)
Lemma created_complete ty c info af :
  li_fallbackPolicy info ≠ OtherPolicy →
  ∃ s, NewSubsetLoadBalancer fl ty orig c info af = Ret s ∧ complete fl orig s ∧ lbType s = ty ∧
    ∀ hs h keys, hs ∈ orig → h ∈ hs_hosts hs → keys ∈ li_subSetKeys info → covered s keys h.
Proof.
  intros Hpol. unfold NewSubsetLoadBalancer. set (s0 := mk_sslb _ _ _ _ _ _ _).
  destruct (init_sets_complete af orig [] s0) as (s & Hr & Hc & Hg & Hcov); [done|done| |].
  { split; [|done]. cbn. intros kvs psi. by rewrite ps_at_empty. }
  exists s. split_and!; [exact Hr|done|by destruct Hg as (-> & _)|exact Hcov].
Qed.

(** C31. A new balancer represents the grouping of its hosts exactly: building
    it does not panic; whenever a host has all keys of a selector, the values
    lead to a subset; and every subset consists, priority by priority, of
    exactly the hosts whose metadata has its values, the healthy ones listed as
    healthy, in whichever order the maps were ranged over. *)
Theorem subsets_partition_hosts ty c info af :
  li_fallbackPolicy info ≠ OtherPolicy →
  ∃ s, NewSubsetLoadBalancer fl ty orig c info af = Ret s ∧
    (∀ hs h keys, hs ∈ orig → h ∈ hs_hosts hs → keys ∈ li_subSetKeys info →
       ExtractSubsetMetadata keys h ≠ [] → is_Some (ps_at (subSets s) (ExtractSubsetMetadata keys h))) ∧
    (∀ kvs psi, ps_at (subSets s) kvs = Some psi →
       psi_prioritySubset psi = part fl (PMatch kvs) <$> orig).
Proof.
  intros Hpol. destruct (created_complete ty c info af Hpol) as (s & Hr & Hc & _ & Hcov). exists s.
  split; [done|]. split; [intros; by eapply Hcov|]. intros kvs psi Hp. by destruct (co_subsets _ _ _ Hc kvs psi Hp) as [[_ ?] _].
Qed.
End created.

(** ** Serving a request from its subset *)

Lemma extract_matches keys h : HostMatches (extract keys h) h = true.
Proof.
  induction keys as [|k keys IH]; [done|]. cbn [extract]. destruct (h_metadata h !! k) as [v|] eqn:E; [|done].
  unfold HostMatches. cbn [forallb fst snd]. rewrite E. unfold EqualHashValue. rewrite bool_decide_true by done. exact IH.
Qed.

Lemma Extract_matches keys h : HostMatches (ExtractSubsetMetadata keys h) h = true.
Proof. unfold ExtractSubsetMetadata. case_bool_decide; [apply extract_matches|done]. Qed.

Lemma LB_choose_one ty lb hs r1 r2 :
  lb_of ty = Some lb → hs_healthy hs ≠ [] → Z.of_nat (length (hs_healthy hs)) < 2 ^ 32 →
  ∃ lb' h, LB_ChooseHost lb [hs] r1 r2 = Ret (lb', Some h).
Proof.
  intros Hlb Hne Hn. destruct (hs_healthy hs) as [|h l] eqn:E; [done|].
  destruct ty; [| |discriminate]; injection Hlb as <-; cbn [LB_ChooseHost newRandomLoadbalancer newRoundRobinLoadBalancer].
  - assert (serving [hs]) as Hs.
    { split; [done|done|]. constructor; [|constructor]. rewrite E. simpl in *. lia. }
    pose proof (rr_step_within [hs] Hs 0 0 hs h eq_refl) as Hst. rewrite E in Hst. specialize (Hst eq_refl).
    change (Z.of_nat 0) with 0 in Hst. rewrite Hst, bind_Ret. eauto.
  - unfold random_ChooseHost, Intn. cbn [length]. rewrite bool_decide_false by done. rewrite bind_Ret.
    rewrite Nat.mod_1_r. cbn [lookup list_lookup]. rewrite E. rewrite !bool_decide_false by done. rewrite bind_Ret.
    destruct (lookup_lt_is_Some_2 (h :: l) (r2 mod length (h :: l))%nat) as [x Hx]; [by apply Nat.mod_upper_bound|].
    rewrite Hx, bind_Ret. eauto.
Qed.

Definition criteria_of (kvs : SubsetMetadata) : list criterion := (λ kv, mk_crit kv.1 kv.2) <$> kvs.
Lemma pairs_criteria kvs : pairs (criteria_of kvs) = kvs.
Proof. unfold pairs, criteria_of. induction kvs as [|[k v] kvs IH]; [done|]. cbn. f_equal. exact IH. Qed.

(** A new balancer serves every healthy host's subset: in a cluster with one
    priority, a request with exactly the metadata of a healthy host under some
    selector is sent to a healthy host with that metadata. *)
Theorem subset_serves_request fl ty hs c info af h keys r1 r2 :
  NoDup (addresses (hs_hosts hs)) → Z.of_nat (length (hs_hosts hs)) < 2 ^ 32 →
  li_fallbackPolicy info ≠ OtherPolicy → ty ≠ OtherType →
  h ∈ hs_hosts hs → Health fl h = true → keys ∈ li_subSetKeys info → ExtractSubsetMetadata keys h ≠ [] →
  let kvs := ExtractSubsetMetadata keys h in
  ∃ s s' h', NewSubsetLoadBalancer fl ty [hs] c info af = Ret s ∧
    ChooseHost s (Some (CSome (criteria_of kvs))) r1 r2 = Ret (s', Some h') ∧
    h' ∈ hs_hosts hs ∧ HostMatches kvs h' = true ∧ Health fl h' = true.
Proof.
  intros Hnd Hn Hpol Hty Hin Hh Hk Hne kvs.
  destruct (created_complete fl [hs] ltac:(done) ltac:(by constructor) ty c info af Hpol) as (s & Hr & Hc & Hlt & Hcov).
  destruct (Hcov hs h keys ltac:(by left) Hin Hk Hne) as [psi Hps]. fold kvs in Hps.
  destruct (co_subsets _ _ _ Hc kvs psi Hps) as [[Hp Hsets] Hlb]. cbn [fmap list_fmap] in Hsets.
  set (hs' := part fl (PMatch kvs) hs) in *.
  assert (∀ x, x ∈ hs_healthy hs' ↔ x ∈ hs_hosts hs ∧ HostMatches kvs x = true ∧ Health fl x = true) as Hmem.
  { intros x. cbn [hs' part hs_healthy]. rewrite !list_elem_of_filter. cbn [sat]. naive_solver. }
  destruct (lb_of (lbType s)) as [lb|] eqn:El; [|by rewrite Hlt in El; destruct ty].
  assert (hs_healthy hs' ≠ []) as Hne'.
  { intros E. assert (h ∈ hs_healthy hs') as Hx by (apply Hmem; split_and!; [done|apply Extract_matches|done]).
    rewrite E in Hx. by apply elem_of_nil in Hx. }
  assert (Z.of_nat (length (hs_healthy hs')) < 2 ^ 32) as Hn'.
  { cbn [hs' part hs_healthy]. pose proof (length_filter (λ h, Health fl h = true) (filter (λ h, sat (PMatch kvs) h = true) (hs_hosts hs))).
    pose proof (length_filter (λ h, sat (PMatch kvs) h = true) (hs_hosts hs)). lia. }
  destruct (LB_choose_one (lbType s) lb hs' r1 r2 El Hne' Hn') as (lb' & h' & Hch).
  destruct (lookup_of_ps _ _ _ Hps) as (e & He & Hpe).
  exists s. do 2 eexists. split; [exact Hr|].
  pose proof Hch as Hch'. apply LB_ChooseHost_healthy in Hch' as (hs2 & Hhs2 & Hh').
  apply list_elem_of_singleton in Hhs2 as ->. apply Hmem in Hh' as (? & ? & ?).
  split; [|by split_and!]. unfold ChooseHost. cbn [TryChooseHostFromContext].
  rewrite FindSubset_lookup, pairs_criteria, He. cbn [Active negb]. rewrite Hpe. unfold psi_ChooseHost.
  rewrite Hlb, Hsets, Hch, !bind_Ret. done.
Qed.

(** ** When choosing a host panics *)

Lemma LB_no_healthy lb ps r1 r2 :
  ps ≠ [] → Z.of_nat (length ps) < 2 ^ 32 → Forall (λ hs, hs_healthy hs = []) ps →
  ∃ lb', LB_ChooseHost lb ps r1 r2 = Ret (lb', None).
Proof.
  intros Hne Hn Hf. rewrite Forall_lookup in Hf. assert (0 < length ps)%nat by (destruct ps; [done|simpl; lia]).
  assert (∀ p, healthy_at ps (p mod Z.of_nat (length ps)) = Ret []) as Hat.
  { intros p. unfold healthy_at. pose proof (Z.mod_pos_bound p (Z.of_nat (length ps)) ltac:(lia)).
    destruct (lookup_lt_is_Some_2 ps (Z.to_nat (p mod Z.of_nat (length ps)))) as [hs Hhs]; [lia|].
    rewrite Hhs. by rewrite (Hf _ _ Hhs). }
  destruct lb as [|rr]; cbn [LB_ChooseHost].
  - unfold random_ChooseHost, Intn. rewrite bool_decide_false by lia. rewrite bind_Ret.
    destruct (lookup_lt_is_Some_2 ps (r1 mod length ps)%nat) as [hs Hhs]; [apply Nat.mod_upper_bound; lia|].
    rewrite Hhs, (Hf _ _ Hhs). rewrite bool_decide_true by done. rewrite bind_Ret. eauto.
  - unfold rr_ChooseHost. rewrite to_uint32_nat by done. rewrite bool_decide_true by lia. cbn [go_assert].
    rewrite bind_Ret, (Hat (rrIndexPriority rr)), bind_Ret. case_bool_decide; rewrite ?Hat, ?bind_Ret;
      rewrite bool_decide_true by done; rewrite bind_Ret; eauto.
Qed.

(** Choosing a host panics when the criteria of a request lead to an entry
    without a subset, as the first keys of a selector do, and when the subset
    they lead to has no healthy host. *)
Theorem subset_choice_panics s l e r1 r2 :
  FindSubset (subSets s) l = Some e →
  (PrioritySubset e = None ∨
   ∃ psi lb, PrioritySubset e = Some psi ∧ psi_loadbalancer psi = Some lb ∧ psi_prioritySubset psi ≠ [] ∧
     Z.of_nat (length (psi_prioritySubset psi)) < 2 ^ 32 ∧ Forall (λ hs, hs_healthy hs = []) (psi_prioritySubset psi)) →
  ChooseHost s (Some (CSome l)) r1 r2 = Panic NilDeref.
Proof.
  intros He Hcase. unfold ChooseHost. cbn [TryChooseHostFromContext]. rewrite He. cbn [Active negb].
  destruct Hcase as [->|(psi & lb & -> & Hlb & Hne & Hn & Hf)]; [done|].
  unfold psi_ChooseHost. rewrite Hlb. destruct (LB_no_healthy lb _ r1 r2 Hne Hn Hf) as [lb' ->]. done.
Qed.

(** A change of health does not reach the subsets: the update the balancer
    gets when a host becomes healthy or unhealthy has no hosts, and leaves every
    subset and its list of healthy hosts as they were. *)
Theorem health_change_misses_subsets fl orig i s af s' l :
  Update fl orig i [] [] s af = Ret s' → FindSubset (subSets s') l = FindSubset (subSets s) l.
Proof.
  intros Hr. unfold Update in Hr. apply bind_Ret_inv in Hr as (s1 & H1 & Hr).
  assert (subSets s1 = subSets s) as <-.
  { unfold UpdateFallbackSubset in H1. case_bool_decide; [by injection H1 as <-|].
    apply bind_Ret_inv in H1 as (fb & _ & H1). apply bind_Ret_inv in H1 as (fb' & _ & H1). by injection H1 as <-. }
  unfold ProcessSubsets in Hr. cbn [process_hosts] in Hr. by destruct af; injection Hr as <-.
Qed.

(** A request whose route has no metadata cannot be balanced over subsets:
    the route's criteria are a nil pointer that does not compare equal to nil. *)
Theorem route_without_metadata_panics range_meta Compile vHost route rs r s r1 r2 :
  a_MetadataMatch (r_Route route) = ∅ → make_routes range_meta Compile vHost route = Ret rs → r ∈ rs →
  ChooseHost s (Some (MetadataMatchCriteria r)) r1 r2 = Panic NilDeref.
Proof.
  intros Hm Hr Hin.
  assert (∀ b, NewRouteRuleImplBase range_meta vHost route = Ret b → b_metadataMatchCriteria b = None) as Hb.
  { intros b. unfold NewRouteRuleImplBase. rewrite Hm. cbn. by intros [= <-]. }
  assert (b_metadataMatchCriteria (route_base r) = None) as E.
  { unfold make_routes in Hr. repeat case_bool_decide.
    - apply bind_Ret_inv in Hr as (b & Hbase & [= <-]). apply list_elem_of_singleton in Hin as ->. by apply Hb.
    - apply bind_Ret_inv in Hr as (b & Hbase & [= <-]). apply list_elem_of_singleton in Hin as ->. by apply Hb.
    - destruct (Compile _); [|injection Hr as <-; by apply elem_of_nil in Hin].
      apply bind_Ret_inv in Hr as (b' & Hbase & [= <-]). apply list_elem_of_singleton in Hin as ->. by apply Hb.
    - injection Hr as <-. by apply elem_of_nil in Hin.
    - apply bind_Ret_inv in Hr as (b & Hbase & [= <-]). unfold sofa_routes in Hin.
      apply list_elem_of_fmap in Hin as (hm & -> & _). by apply Hb. }
  unfold MetadataMatchCriteria. by rewrite E.
Qed.

(** ** A sample cluster *)

Definition meta_host (a stage zone : string) : host :=
  mk_host a "" (list_to_map [("stage", stage); ("zone", zone)]%string).
Definition sample_set : hostSet :=
  let l := [meta_host "a" "prod" "x"; meta_host "b" "prod" "y"; meta_host "c" "dev" "x"]%string in mk_hs l l.
Definition sample_info : LBSubsetInfoImpl :=
  NewLBSubsetInfo DefaultSubsetDefaultSubset {["stage" := "dev"]}%string [["zone"; "stage"]]%string.
Definition no_stats : stats := mk_stats 0 0 0 0.
Definition sample_lb : subSetLoadBalancer :=
  match NewSubsetLoadBalancer ∅ RoundRobin [sample_set] no_stats sample_info true with
  | Ret s => s
  | Panic _ => mk_sslb RoundRobin NoFallBack [] [] None ∅ no_stats
  end.
Definition prod_x : list criterion := [mk_crit "stage" "prod"; mk_crit "zone" "x"]%string.

Lemma sample_lb_new : NewSubsetLoadBalancer ∅ RoundRobin [sample_set] no_stats sample_info true = Ret sample_lb.
Proof. vm_compute. reflexivity. Qed.

Lemma chosen_host_matches_witness :
  ∃ s' h, ChooseHost sample_lb (Some (CSome prod_x)) 0 0 = Ret (s', Some h) ∧
  match FindSubset (subSets sample_lb) prod_x with
  | Some _ => HostMatches (pairs prod_x) h = true
  | None => fallBackPolicy sample_lb = DefaultSubsetDefaultSubset →
            HostMatches (defaultSubSetMetadata sample_lb) h = true
  end.
Proof.
  eexists _, _. split; [vm_compute; reflexivity|].
  eapply (chosen_host_matches sample_lb prod_x 0 0).
  - eapply re_new. exact sample_lb_new.
  - vm_compute. reflexivity.
Defined.

Lemma subsets_partition_hosts_witness :
  ∃ s, NewSubsetLoadBalancer ∅ RoundRobin [sample_set] no_stats sample_info true = Ret s ∧
    (∀ hs h keys, hs ∈ [sample_set] → h ∈ hs_hosts hs → keys ∈ li_subSetKeys sample_info →
       ExtractSubsetMetadata keys h ≠ [] → is_Some (ps_at (subSets s) (ExtractSubsetMetadata keys h))) ∧
    (∀ kvs psi, ps_at (subSets s) kvs = Some psi → psi_prioritySubset psi = part ∅ (PMatch kvs) <$> [sample_set]).
Proof.
  apply (subsets_partition_hosts ∅ [sample_set]); [done| |discriminate].
  constructor; [|constructor]. by apply (bool_decide_eq_true_1 _).
Defined.

Lemma subset_serves_request_witness :
  let h := meta_host "a" "prod" "x" in
  let kvs := ExtractSubsetMetadata ["stage"; "zone"]%string h in
  ∃ s s' h', NewSubsetLoadBalancer ∅ RoundRobin [sample_set] no_stats sample_info true = Ret s ∧
    ChooseHost s (Some (CSome (criteria_of kvs))) 0 0 = Ret (s', Some h') ∧
    h' ∈ hs_hosts sample_set ∧ HostMatches kvs h' = true ∧ Health ∅ h' = true.
Proof.
  intros h kvs.
  apply (subset_serves_request ∅ RoundRobin sample_set no_stats sample_info true h ["stage"; "zone"]%string 0 0);
    try discriminate; try reflexivity; try (by apply (bool_decide_eq_true_1 _)).
Defined.

(** Criteria with the first key only, and a balancer made while the hosts were
    unhealthy. *)
Definition sick : flags := list_to_map [("a", 1); ("b", 1); ("c", 1)]%string.
Definition sick_lb : subSetLoadBalancer :=
  match NewSubsetLoadBalancer sick RoundRobin [sample_set] no_stats sample_info true with
  | Ret s => s
  | Panic _ => sample_lb
  end.

Lemma subset_choice_panics_witness :
  ChooseHost sample_lb (Some (CSome [mk_crit "stage" "prod"]%string)) 0 0 = Panic NilDeref ∧
  ChooseHost sick_lb (Some (CSome prod_x)) 0 0 = Panic NilDeref.
Proof.
  split.
  - eapply (subset_choice_panics sample_lb); [vm_compute; reflexivity|left; vm_compute; reflexivity].
  - eapply (subset_choice_panics sick_lb); [vm_compute; reflexivity|right; eexists _, _].
    split; [vm_compute; reflexivity|]. split; [reflexivity|]. split; [discriminate|]. split; [reflexivity|].
    repeat constructor.
Defined.

Lemma health_change_misses_subsets_witness :
  ∃ s', Update sick [sample_set] 0 [] [] sample_lb true = Ret s' ∧
    FindSubset (subSets s') prod_x = FindSubset (subSets sample_lb) prod_x ∧
    Health sick (meta_host "a" "prod" "x") = false.
Proof.
  eexists. split; [vm_compute; reflexivity|]. split; [|reflexivity].
  apply (health_change_misses_subsets sick [sample_set] 0 sample_lb true). vm_compute. reflexivity.
Defined.

Lemma route_without_metadata_panics_witness :
  let route := mk_router (mk_match "/" "" "" false []) (mk_action "c" ∅ 0) in
  ∃ r, make_routes map_to_list (λ _, None) "h" route = Ret [r] ∧
    ChooseHost sample_lb (Some (MetadataMatchCriteria r)) 0 0 = Panic NilDeref.
Proof.
  intros route. eexists. split; [vm_compute; reflexivity|].
  refine (route_without_metadata_panics map_to_list (λ _, None) "h" route _ _ sample_lb 0 0 _ _ _).
  - reflexivity.
  - vm_compute. reflexivity.
  - apply list_elem_of_here.
Defined.
