(* ===== verification/StateGo.v ===== *)
(** * Computations with a state

    Go code that changes a state and may panic: a function from the state to an
    outcome of [Prelude] with the next state.  Then invariants of computations
    and the lemmas that run them forwards and backwards. *)

From S2P Require Import Prelude.

(** ** State and outcomes *)

Definition SG (S A : Type) : Type := S → Go (A * S).

#[export] Instance SG_ret S : MRet (SG S) := λ A a s, Ret (a, s).
#[export] Instance SG_bind S : MBind (SG S) := λ A B f m s,
  match m s with Ret (a, s') => f a s' | Panic k => Panic k end.

Definition sg_get {S} : SG S S := λ s, Ret (s, s).
Definition sg_modify {S} (f : S → S) : SG S unit := λ s, Ret (tt, f s).
Definition sg_panic {S A} (k : panic_kind) : SG S A := λ s, Panic k.
Definition sg_lift {S A} (m : Go A) : SG S A := λ s,
  match m with Ret a => Ret (a, s) | Panic k => Panic k end.
(** A method call or field access through a pointer. *)
Definition sg_deref {S A} (o : option A) : SG S A :=
  match o with Some a => mret a | None => sg_panic NilDeref end.
Definition sg_when {S} (b : bool) (m : SG S unit) : SG S unit := if b then m else mret tt.

(** A predicate on states that a computation keeps, when it returns. *)
Definition keeps {S A} (I : S → Prop) (m : SG S A) : Prop :=
  ∀ s a s', I s → m s = Ret (a, s') → I s'.

Create HintDb keeps.

Section keeps.
  Context {S : Type} (I : S → Prop).

Lemma keeps_ret {A} (a : A) : keeps I (mret a).
Proof. intros s b s' HI [= <- <-]. done. Qed.
Lemma keeps_get : keeps I sg_get.
Proof. intros s b s' HI [= <- <-]. done. Qed.
Lemma keeps_panic {A} k : keeps I (sg_panic k : SG S A).
Proof. by intros s b s' HI. Qed.
Lemma keeps_lift {A} (m : Go A) : keeps I (sg_lift m).
Proof. intros s b s' HI. unfold sg_lift. destruct m; [by intros [= <- <-]|done]. Qed.
Lemma keeps_deref {A} (o : option A) : keeps I (sg_deref o).
Proof. destruct o; [apply keeps_ret|apply keeps_panic]. Qed.
Lemma keeps_modify f : (∀ s, I s → I (f s)) → keeps I (sg_modify f).
Proof. intros Hf s b s' HI [= <- <-]. auto. Qed.
Lemma keeps_bind {A B} (m : SG S A) (f : A → SG S B) :
  keeps I m → (∀ a, keeps I (f a)) → keeps I (m ≫= f).
Proof.
  intros Hm Hf s b s' HI E. unfold mbind, SG_bind in E.
  destruct (m s) as [[a s1]|k] eqn:Em; [|done]. eapply Hf; [|exact E]. by eapply Hm.
Qed.
Lemma keeps_when b m : keeps I m → keeps I (sg_when b m).
Proof. destruct b; [done|intros; apply keeps_ret]. Qed.
End keeps.

#[export] Hint Resolve keeps_ret keeps_get keeps_panic keeps_lift keeps_deref keeps_bind keeps_when : keeps.

Lemma sg_bind_Ret_inv {S A B} (m : SG S A) (f : A → SG S B) s b s' :
  (m ≫= f) s = Ret (b, s') → ∃ a s1, m s = Ret (a, s1) ∧ f a s1 = Ret (b, s').
Proof. unfold mbind, SG_bind. destruct (m s) as [[a s1]|k]; [eauto|done]. Qed.

Lemma sg_bind_run {S A B} (m : SG S A) (f : A → SG S B) s a s1 :
  m s = Ret (a, s1) → (m ≫= f) s = f a s1.
Proof. unfold mbind, SG_bind. by intros ->. Qed.

Lemma sg_run {S A B} (m : SG S A) (f : A → SG S B) s a s1 r :
  m s = Ret (a, s1) → f a s1 = r → (m ≫= f) s = r.
Proof. intros E <-. by apply sg_bind_run. Qed.

(** Run the first step of a computation. *)
Ltac srun := eapply sg_run; [reflexivity|]; cbn [fst snd].
