(* ===== verification/ProxyState.v ===== *)
(** * The state of a proxied request: pkg/proxy

    The data of downstream.go, upstream.go, retrystate.go, streamfilters.go,
    event.go, types.go and util.go, and of pkg/network/requestinfo.go.

    [downStream] has the fields of the struct.  [world] is what a request
    touches outside of it: data buffers, which are shared by reference, timers,
    the counters and the resource of its cluster, the two channels of the worker
    that handles its events, the entry of the stream in the worker's map, the
    proxy's counters and list of active streams, and what was sent to the two
    senders and to the filters.  The channels are those of [eventDispatch]; the
    pool that fills them (pkg/sync) is not part of the sources: it delivers
    control events to one and the others to the other, in the order of the
    offers. *)

From S2P Require Import Prelude Strconv Serialize BoltTypes Stream Cluster StateGo.

Local Open Scope Z_scope.

(** ** Request information (pkg/network/requestinfo.go, pkg/types/request.go) *)

Definition NoHealthyUpstream : Z := 2.
Definition UpstreamRequestTimeout : Z := 4.
Definition UpstreamLocalReset : Z := 8.
Definition UpstreamRemoteReset : Z := 16.
Definition UpstreamConnectionFailure : Z := 32.
Definition UpstreamConnectionTermination : Z := 64.
Definition UpstreamOverflow : Z := 128.
Definition NoRouteFound : Z := 256.

(** What the proxy asks of a route: [RouteRule] and its policy. *)
Record RouteRule := mk_rule {
  rule_ClusterName : string; rule_GlobalTimeout : Z;
  rule_RetryOn : bool; rule_TryTimeout : Z; rule_NumRetries : Z;
}.

(** The difference of two times saturates. *)
Definition time_Sub (t u : Z) : Z := Z.max (- 2 ^ 63) (Z.min (2 ^ 63 - 1) (t - u)).

Record requestInfo := mk_info {
  startTime : Z; responseFlag : Z; upstreamHost : option string;
  requestReceivedDuration : Z; responseReceivedDuration : Z;
  bytesSent : Z; bytesReceived : Z; localAddress : option string;
  downstreamLocalAddress : option string; downstreamRemoteAddress : option string;
  isHealthCheckRequest : bool; routerRule : option RouteRule;
}.

Definition NewRequestInfo (now : Z) : requestInfo :=
  mk_info now 0 None 0 0 0 0 None None None false None.
Definition SetRequestReceivedDuration (t : Z) (r : requestInfo) : requestInfo :=
  mk_info (startTime r) (responseFlag r) (upstreamHost r) (time_Sub t (startTime r)) (responseReceivedDuration r)
    (bytesSent r) (bytesReceived r) (localAddress r) (downstreamLocalAddress r) (downstreamRemoteAddress r)
    (isHealthCheckRequest r) (routerRule r).
Definition SetResponseReceivedDuration (t : Z) (r : requestInfo) : requestInfo :=
  mk_info (startTime r) (responseFlag r) (upstreamHost r) (requestReceivedDuration r) (time_Sub t (startTime r))
    (bytesSent r) (bytesReceived r) (localAddress r) (downstreamLocalAddress r) (downstreamRemoteAddress r)
    (isHealthCheckRequest r) (routerRule r).
Definition SetBytesSent (v : Z) (r : requestInfo) : requestInfo :=
  mk_info (startTime r) (responseFlag r) (upstreamHost r) (requestReceivedDuration r) (responseReceivedDuration r)
    v (bytesReceived r) (localAddress r) (downstreamLocalAddress r) (downstreamRemoteAddress r)
    (isHealthCheckRequest r) (routerRule r).
Definition SetBytesReceived (v : Z) (r : requestInfo) : requestInfo :=
  mk_info (startTime r) (responseFlag r) (upstreamHost r) (requestReceivedDuration r) (responseReceivedDuration r)
    (bytesSent r) v (localAddress r) (downstreamLocalAddress r) (downstreamRemoteAddress r)
    (isHealthCheckRequest r) (routerRule r).
Definition GetResponseFlag (flag : Z) (r : requestInfo) : bool :=
  bool_decide (Z.land (responseFlag r) flag ≠ 0).
Definition SetResponseFlag (flag : Z) (r : requestInfo) : requestInfo :=
  mk_info (startTime r) (Z.lor (responseFlag r) flag) (upstreamHost r) (requestReceivedDuration r)
    (responseReceivedDuration r) (bytesSent r) (bytesReceived r) (localAddress r) (downstreamLocalAddress r)
    (downstreamRemoteAddress r) (isHealthCheckRequest r) (routerRule r).
Definition OnUpstreamHostSelected (host : string) (r : requestInfo) : requestInfo :=
  mk_info (startTime r) (responseFlag r) (Some host) (requestReceivedDuration r) (responseReceivedDuration r)
    (bytesSent r) (bytesReceived r) (localAddress r) (downstreamLocalAddress r) (downstreamRemoteAddress r)
    (isHealthCheckRequest r) (routerRule r).
Definition SetUpstreamLocalAddress (addr : string) (r : requestInfo) : requestInfo :=
  mk_info (startTime r) (responseFlag r) (upstreamHost r) (requestReceivedDuration r) (responseReceivedDuration r)
    (bytesSent r) (bytesReceived r) (Some addr) (downstreamLocalAddress r) (downstreamRemoteAddress r)
    (isHealthCheckRequest r) (routerRule r).
Definition SetHealthCheck (b : bool) (r : requestInfo) : requestInfo :=
  mk_info (startTime r) (responseFlag r) (upstreamHost r) (requestReceivedDuration r) (responseReceivedDuration r)
    (bytesSent r) (bytesReceived r) (localAddress r) (downstreamLocalAddress r) (downstreamRemoteAddress r)
    b (routerRule r).
Definition SetDownstreamAddresses (local_ remote : string) (r : requestInfo) : requestInfo :=
  mk_info (startTime r) (responseFlag r) (upstreamHost r) (requestReceivedDuration r) (responseReceivedDuration r)
    (bytesSent r) (bytesReceived r) (localAddress r) (Some local_) (Some remote)
    (isHealthCheckRequest r) (routerRule r).
Definition SetRouteEntry (rule : RouteRule) (r : requestInfo) : requestInfo :=
  mk_info (startTime r) (responseFlag r) (upstreamHost r) (requestReceivedDuration r) (responseReceivedDuration r)
    (bytesSent r) (bytesReceived r) (localAddress r) (downstreamLocalAddress r) (downstreamRemoteAddress r)
    (isHealthCheckRequest r) (Some rule).

(** ** Timers and timeouts (util.go, types.go) *)

Record Timeout := mk_timeout { GlobalTimeout : Z; TryTimeout : Z }.

(** The functions timers are made for. *)
Inductive timer_callback := CB_onResponseTimeout | CB_onPerReqTimeout | CB_doRetry.
#[export] Instance timer_callback_eq_dec : EqDecision timer_callback.
Proof. solve_decision. Defined.

(** A timer is known by its place in the list of timers of the world; all of
    them were started. *)
Record timer := mk_timer { t_callback : timer_callback; t_interval : Z; t_stopped : bool }.

Inductive UpstreamResetType := UpstreamReset | UpstreamGlobalTimeout | UpstreamPerTryTimeout.
#[export] Instance UpstreamResetType_eq_dec : EqDecision UpstreamResetType.
Proof. solve_decision. Defined.

(* pkg/types/stream.go *)
Definition StreamConnectionTermination := "ConnectionTermination"%string.
Definition StreamConnectionFailed := "ConnectionFailed"%string.
Definition StreamLocalReset := "StreamLocalReset"%string.
Definition StreamOverflow := "StreamOverflow"%string.
Definition StreamRemoteReset := "StreamRemoteReset"%string.

Inductive PoolFailureReason := Overflow | ConnectionFailure | OtherPoolFailure.
(** What a connection pool does with a request for a stream. *)
Inductive poolOutcome := PoolReady (host : string) | PoolFailure (reason : PoolFailureReason).

Inductive FilterHeadersStatus := FilterHeadersStatusContinue | FilterHeadersStatusStopIteration.
Inductive FilterDataStatus :=
  | FilterDataStatusContinue | FilterDataStatusStopIterationAndBuffer
  | FilterDataStatusStopIterationAndWatermark | FilterDataStatusStopIterationNoBuffer.
Inductive FilterTrailersStatus := FilterTrailersStatusContinue | FilterTrailersStatusStopIteration.

(** ** Retries (retrystate.go), and the counters of the cluster they use

    [retryFunc] is set or not; it is always [doRetry].  A counter that nobody
    registered is nil. *)

Record retryState := mk_retry {
  retryOn : bool; retiesRemaining : Z; retryFunc : bool; retryTimer : option nat;
}.

Record ClusterStats := mk_cstats {
  cs_RequestTimeout : option Z; cs_RequestRetry : option Z; cs_RequestRetryOverflow : option Z;
}.

Inductive RetryCheckStatus := ShouldRetry | NoRetry | RetryOverflow.
#[export] Instance RetryCheckStatus_eq_dec : EqDecision RetryCheckStatus.
Proof. solve_decision. Defined.

(** ** The upstream request (upstream.go)

    [requestSender] is known by the number of the pool call that gave it. *)

Record upstreamRequest := mk_ur {
  ur_host : option string; requestSender : option nat; connPool : nat;
  upstreamRespHeaders : option header_map; sendComplete : bool; dataSent : bool; trailerSent : bool;
}.

Definition set_requestSender (v : option nat) (r : upstreamRequest) : upstreamRequest :=
  mk_ur (ur_host r) v (connPool r) (upstreamRespHeaders r) (sendComplete r) (dataSent r) (trailerSent r).
Definition set_upstreamRespHeaders (v : option header_map) (r : upstreamRequest) : upstreamRequest :=
  mk_ur (ur_host r) (requestSender r) (connPool r) v (sendComplete r) (dataSent r) (trailerSent r).
Definition set_sendComplete (v : bool) (r : upstreamRequest) : upstreamRequest :=
  mk_ur (ur_host r) (requestSender r) (connPool r) (upstreamRespHeaders r) v (dataSent r) (trailerSent r).
Definition set_dataSent (v : bool) (r : upstreamRequest) : upstreamRequest :=
  mk_ur (ur_host r) (requestSender r) (connPool r) (upstreamRespHeaders r) (sendComplete r) v (trailerSent r).
Definition set_trailerSent (v : bool) (r : upstreamRequest) : upstreamRequest :=
  mk_ur (ur_host r) (requestSender r) (connPool r) (upstreamRespHeaders r) (sendComplete r) (dataSent r) v.

(** ** Events of the worker (event.go) *)

Inductive direction := Downstream | Upstream.
#[export] Instance direction_eq_dec : EqDecision direction.
Proof. solve_decision. Defined.

Inductive stream_event :=
  | startEvent | stopEvent
  | resetEvent (d : direction) (reason : string)
  | receiveHeadersEvent (d : direction) (headers : option header_map) (endStream : bool)
  | receiveDataEvent (d : direction) (data : nat) (endStream : bool)
  | receiveTrailerEvent (d : direction) (trailers : option header_map).
#[export] Instance stream_event_eq_dec : EqDecision stream_event.
Proof. solve_decision. Defined.

(** ** What the request did to its surroundings *)

Inductive action :=
  | ARespHeaders (h : msg) (endStream : bool)
  | ARespData (d : bytes) (endStream : bool)
  | ARespTrailers (t : option header_map)
  | ARespReset (reason : string)
  | ARespReadDisable (disable : bool)
  | ANewStream (pool : nat) (streamID : string)
  | AReqAddListener (sender : nat)
  | AReqRemoveListener (sender : nat)
  | AReqHeaders (sender : nat) (h : option header_map) (endStream : bool)
  | AReqData (sender : nat) (d : bytes) (endStream : bool)
  | AReqTrailers (sender : nat) (t : option header_map)
  | AReqReset (sender : nat) (reason : string)
  | ASenderDestroy (index : nat)
  | AReceiverDestroy (index : nat)
  | AAccessLog (info : requestInfo)
  | AGiveHeaders (h : header_map)
  | AGiveBuffer (b : nat).

(** ** Filters (streamfilters.go)

    [activeStreamFilter] without the pointer to the stream; its index is its
    place in the list. *)
Record activeStreamFilter (F : Type) := mk_asf {
  af_filter : F; af_stopped : bool; af_stoppedNoBuf : bool; af_headersContinued : bool;
}.
Arguments mk_asf {_} _ _ _ _.
Arguments af_filter {_} _.
Arguments af_stopped {_} _.
Arguments af_stoppedNoBuf {_} _.
Arguments af_headersContinued {_} _.

Definition DecodeHeaders : Z := 0.
Definition DecodeData : Z := 1.
Definition DecodeTrailers : Z := 2.
Definition EncodeHeaders : Z := 3.
Definition EncodeData : Z := 4.
Definition EncodeTrailers : Z := 5.

(** What a receiver filter can ask of the stream while it is being called. *)
Inductive filter_command :=
  | CmdAppendHeaders (h : msg) (endStream : bool)
  | CmdAppendData (d : bytes) (endStream : bool)
  | CmdAppendTrailers (t : option header_map)
  | CmdResetStream
  | CmdSetHealthCheck (b : bool).

(** The interfaces of filters.  A method returns the filter's next state, the
    headers, data or trailers as it leaves them, the commands it issued (receiver
    filters) and its status.  Continuing is done later, from outside. *)
Class StreamReceiverFilter (F : Type) := {
  rf_OnDecodeHeaders : F → option header_map → bool →
    Go (F * option header_map * list filter_command * FilterHeadersStatus);
  rf_OnDecodeData : F → bytes → bool → Go (F * bytes * list filter_command * FilterDataStatus);
  rf_OnDecodeTrailers : F → option header_map →
    Go (F * option header_map * list filter_command * FilterTrailersStatus);
}.

Class StreamSenderFilter (F : Type) := {
  sf_AppendHeaders : F → msg → bool → Go (F * msg * FilterHeadersStatus);
  sf_AppendData : F → bytes → bool → Go (F * bytes * FilterDataStatus);
  sf_AppendTrailers : F → option header_map → Go (F * option header_map * FilterTrailersStatus);
}.

(** ** A stream (downstream.go) *)

Section downStream.
  Context {SF RF : Type}.

Record downStream := mk_ds {
  route : option RouteRule;
  cluster : option string;
  timeout : option Timeout;
  retry_state : option retryState;
  request_info : requestInfo;
  upstream_request : option upstreamRequest;
  perRetryTimer : option nat;
  responseTimer : option nat;
  downstreamReqHeaders : option header_map;
  downstreamReqDataBuf : option nat;
  downstreamReqTrailers : option header_map;
  downstreamRespHeaders : msg;
  downstreamRespDataBuf : option nat;
  downstreamRespTrailers : option header_map;
  downstreamResponseStarted : bool;
  downstreamRecvDone : bool;
  upstreamRequestSent : bool;
  upstreamProcessDone : bool;
  senderFiltersStreaming : bool;
  receiverFiltersStreaming : bool;
  filterStage : Z;
  downstreamReset : bool;
  downstreamCleaned : bool;
  upstreamReset : bool;
  senderFilters : list (activeStreamFilter SF);
  receiverFilters : list (activeStreamFilter RF);
}.

(** Assignments to the fields. *)
Definition set_route (v : option RouteRule) (s : downStream) : downStream :=
  mk_ds v (cluster s) (timeout s) (retry_state s) (request_info s) (upstream_request s)
    (perRetryTimer s) (responseTimer s) (downstreamReqHeaders s) (downstreamReqDataBuf s)
    (downstreamReqTrailers s) (downstreamRespHeaders s) (downstreamRespDataBuf s)
    (downstreamRespTrailers s) (downstreamResponseStarted s) (downstreamRecvDone s)
    (upstreamRequestSent s) (upstreamProcessDone s) (senderFiltersStreaming s)
    (receiverFiltersStreaming s) (filterStage s) (downstreamReset s) (downstreamCleaned s)
    (upstreamReset s) (senderFilters s) (receiverFilters s).
Definition set_cluster (v : option string) (s : downStream) : downStream :=
  mk_ds (route s) v (timeout s) (retry_state s) (request_info s) (upstream_request s)
    (perRetryTimer s) (responseTimer s) (downstreamReqHeaders s) (downstreamReqDataBuf s)
    (downstreamReqTrailers s) (downstreamRespHeaders s) (downstreamRespDataBuf s)
    (downstreamRespTrailers s) (downstreamResponseStarted s) (downstreamRecvDone s)
    (upstreamRequestSent s) (upstreamProcessDone s) (senderFiltersStreaming s)
    (receiverFiltersStreaming s) (filterStage s) (downstreamReset s) (downstreamCleaned s)
    (upstreamReset s) (senderFilters s) (receiverFilters s).
Definition set_timeout (v : option Timeout) (s : downStream) : downStream :=
  mk_ds (route s) (cluster s) v (retry_state s) (request_info s) (upstream_request s)
    (perRetryTimer s) (responseTimer s) (downstreamReqHeaders s) (downstreamReqDataBuf s)
    (downstreamReqTrailers s) (downstreamRespHeaders s) (downstreamRespDataBuf s)
    (downstreamRespTrailers s) (downstreamResponseStarted s) (downstreamRecvDone s)
    (upstreamRequestSent s) (upstreamProcessDone s) (senderFiltersStreaming s)
    (receiverFiltersStreaming s) (filterStage s) (downstreamReset s) (downstreamCleaned s)
    (upstreamReset s) (senderFilters s) (receiverFilters s).
Definition set_retry_state (v : option retryState) (s : downStream) : downStream :=
  mk_ds (route s) (cluster s) (timeout s) v (request_info s) (upstream_request s) (perRetryTimer s)
    (responseTimer s) (downstreamReqHeaders s) (downstreamReqDataBuf s) (downstreamReqTrailers s)
    (downstreamRespHeaders s) (downstreamRespDataBuf s) (downstreamRespTrailers s)
    (downstreamResponseStarted s) (downstreamRecvDone s) (upstreamRequestSent s)
    (upstreamProcessDone s) (senderFiltersStreaming s) (receiverFiltersStreaming s) (filterStage s)
    (downstreamReset s) (downstreamCleaned s) (upstreamReset s) (senderFilters s)
    (receiverFilters s).
Definition set_request_info (v : requestInfo) (s : downStream) : downStream :=
  mk_ds (route s) (cluster s) (timeout s) (retry_state s) v (upstream_request s) (perRetryTimer s)
    (responseTimer s) (downstreamReqHeaders s) (downstreamReqDataBuf s) (downstreamReqTrailers s)
    (downstreamRespHeaders s) (downstreamRespDataBuf s) (downstreamRespTrailers s)
    (downstreamResponseStarted s) (downstreamRecvDone s) (upstreamRequestSent s)
    (upstreamProcessDone s) (senderFiltersStreaming s) (receiverFiltersStreaming s) (filterStage s)
    (downstreamReset s) (downstreamCleaned s) (upstreamReset s) (senderFilters s)
    (receiverFilters s).
Definition set_upstream_request (v : option upstreamRequest) (s : downStream) : downStream :=
  mk_ds (route s) (cluster s) (timeout s) (retry_state s) (request_info s) v (perRetryTimer s)
    (responseTimer s) (downstreamReqHeaders s) (downstreamReqDataBuf s) (downstreamReqTrailers s)
    (downstreamRespHeaders s) (downstreamRespDataBuf s) (downstreamRespTrailers s)
    (downstreamResponseStarted s) (downstreamRecvDone s) (upstreamRequestSent s)
    (upstreamProcessDone s) (senderFiltersStreaming s) (receiverFiltersStreaming s) (filterStage s)
    (downstreamReset s) (downstreamCleaned s) (upstreamReset s) (senderFilters s)
    (receiverFilters s).
Definition set_perRetryTimer (v : option nat) (s : downStream) : downStream :=
  mk_ds (route s) (cluster s) (timeout s) (retry_state s) (request_info s) (upstream_request s) v
    (responseTimer s) (downstreamReqHeaders s) (downstreamReqDataBuf s) (downstreamReqTrailers s)
    (downstreamRespHeaders s) (downstreamRespDataBuf s) (downstreamRespTrailers s)
    (downstreamResponseStarted s) (downstreamRecvDone s) (upstreamRequestSent s)
    (upstreamProcessDone s) (senderFiltersStreaming s) (receiverFiltersStreaming s) (filterStage s)
    (downstreamReset s) (downstreamCleaned s) (upstreamReset s) (senderFilters s)
    (receiverFilters s).
Definition set_responseTimer (v : option nat) (s : downStream) : downStream :=
  mk_ds (route s) (cluster s) (timeout s) (retry_state s) (request_info s) (upstream_request s)
    (perRetryTimer s) v (downstreamReqHeaders s) (downstreamReqDataBuf s) (downstreamReqTrailers s)
    (downstreamRespHeaders s) (downstreamRespDataBuf s) (downstreamRespTrailers s)
    (downstreamResponseStarted s) (downstreamRecvDone s) (upstreamRequestSent s)
    (upstreamProcessDone s) (senderFiltersStreaming s) (receiverFiltersStreaming s) (filterStage s)
    (downstreamReset s) (downstreamCleaned s) (upstreamReset s) (senderFilters s)
    (receiverFilters s).
Definition set_downstreamReqHeaders (v : option header_map) (s : downStream) : downStream :=
  mk_ds (route s) (cluster s) (timeout s) (retry_state s) (request_info s) (upstream_request s)
    (perRetryTimer s) (responseTimer s) v (downstreamReqDataBuf s) (downstreamReqTrailers s)
    (downstreamRespHeaders s) (downstreamRespDataBuf s) (downstreamRespTrailers s)
    (downstreamResponseStarted s) (downstreamRecvDone s) (upstreamRequestSent s)
    (upstreamProcessDone s) (senderFiltersStreaming s) (receiverFiltersStreaming s) (filterStage s)
    (downstreamReset s) (downstreamCleaned s) (upstreamReset s) (senderFilters s)
    (receiverFilters s).
Definition set_downstreamReqDataBuf (v : option nat) (s : downStream) : downStream :=
  mk_ds (route s) (cluster s) (timeout s) (retry_state s) (request_info s) (upstream_request s)
    (perRetryTimer s) (responseTimer s) (downstreamReqHeaders s) v (downstreamReqTrailers s)
    (downstreamRespHeaders s) (downstreamRespDataBuf s) (downstreamRespTrailers s)
    (downstreamResponseStarted s) (downstreamRecvDone s) (upstreamRequestSent s)
    (upstreamProcessDone s) (senderFiltersStreaming s) (receiverFiltersStreaming s) (filterStage s)
    (downstreamReset s) (downstreamCleaned s) (upstreamReset s) (senderFilters s)
    (receiverFilters s).
Definition set_downstreamReqTrailers (v : option header_map) (s : downStream) : downStream :=
  mk_ds (route s) (cluster s) (timeout s) (retry_state s) (request_info s) (upstream_request s)
    (perRetryTimer s) (responseTimer s) (downstreamReqHeaders s) (downstreamReqDataBuf s) v
    (downstreamRespHeaders s) (downstreamRespDataBuf s) (downstreamRespTrailers s)
    (downstreamResponseStarted s) (downstreamRecvDone s) (upstreamRequestSent s)
    (upstreamProcessDone s) (senderFiltersStreaming s) (receiverFiltersStreaming s) (filterStage s)
    (downstreamReset s) (downstreamCleaned s) (upstreamReset s) (senderFilters s)
    (receiverFilters s).
Definition set_downstreamRespHeaders (v : msg) (s : downStream) : downStream :=
  mk_ds (route s) (cluster s) (timeout s) (retry_state s) (request_info s) (upstream_request s)
    (perRetryTimer s) (responseTimer s) (downstreamReqHeaders s) (downstreamReqDataBuf s)
    (downstreamReqTrailers s) v (downstreamRespDataBuf s) (downstreamRespTrailers s)
    (downstreamResponseStarted s) (downstreamRecvDone s) (upstreamRequestSent s)
    (upstreamProcessDone s) (senderFiltersStreaming s) (receiverFiltersStreaming s) (filterStage s)
    (downstreamReset s) (downstreamCleaned s) (upstreamReset s) (senderFilters s)
    (receiverFilters s).
Definition set_downstreamRespDataBuf (v : option nat) (s : downStream) : downStream :=
  mk_ds (route s) (cluster s) (timeout s) (retry_state s) (request_info s) (upstream_request s)
    (perRetryTimer s) (responseTimer s) (downstreamReqHeaders s) (downstreamReqDataBuf s)
    (downstreamReqTrailers s) (downstreamRespHeaders s) v (downstreamRespTrailers s)
    (downstreamResponseStarted s) (downstreamRecvDone s) (upstreamRequestSent s)
    (upstreamProcessDone s) (senderFiltersStreaming s) (receiverFiltersStreaming s) (filterStage s)
    (downstreamReset s) (downstreamCleaned s) (upstreamReset s) (senderFilters s)
    (receiverFilters s).
Definition set_downstreamRespTrailers (v : option header_map) (s : downStream) : downStream :=
  mk_ds (route s) (cluster s) (timeout s) (retry_state s) (request_info s) (upstream_request s)
    (perRetryTimer s) (responseTimer s) (downstreamReqHeaders s) (downstreamReqDataBuf s)
    (downstreamReqTrailers s) (downstreamRespHeaders s) (downstreamRespDataBuf s) v
    (downstreamResponseStarted s) (downstreamRecvDone s) (upstreamRequestSent s)
    (upstreamProcessDone s) (senderFiltersStreaming s) (receiverFiltersStreaming s) (filterStage s)
    (downstreamReset s) (downstreamCleaned s) (upstreamReset s) (senderFilters s)
    (receiverFilters s).
Definition set_downstreamResponseStarted (v : bool) (s : downStream) : downStream :=
  mk_ds (route s) (cluster s) (timeout s) (retry_state s) (request_info s) (upstream_request s)
    (perRetryTimer s) (responseTimer s) (downstreamReqHeaders s) (downstreamReqDataBuf s)
    (downstreamReqTrailers s) (downstreamRespHeaders s) (downstreamRespDataBuf s)
    (downstreamRespTrailers s) v (downstreamRecvDone s) (upstreamRequestSent s)
    (upstreamProcessDone s) (senderFiltersStreaming s) (receiverFiltersStreaming s) (filterStage s)
    (downstreamReset s) (downstreamCleaned s) (upstreamReset s) (senderFilters s)
    (receiverFilters s).
Definition set_downstreamRecvDone (v : bool) (s : downStream) : downStream :=
  mk_ds (route s) (cluster s) (timeout s) (retry_state s) (request_info s) (upstream_request s)
    (perRetryTimer s) (responseTimer s) (downstreamReqHeaders s) (downstreamReqDataBuf s)
    (downstreamReqTrailers s) (downstreamRespHeaders s) (downstreamRespDataBuf s)
    (downstreamRespTrailers s) (downstreamResponseStarted s) v (upstreamRequestSent s)
    (upstreamProcessDone s) (senderFiltersStreaming s) (receiverFiltersStreaming s) (filterStage s)
    (downstreamReset s) (downstreamCleaned s) (upstreamReset s) (senderFilters s)
    (receiverFilters s).
Definition set_upstreamRequestSent (v : bool) (s : downStream) : downStream :=
  mk_ds (route s) (cluster s) (timeout s) (retry_state s) (request_info s) (upstream_request s)
    (perRetryTimer s) (responseTimer s) (downstreamReqHeaders s) (downstreamReqDataBuf s)
    (downstreamReqTrailers s) (downstreamRespHeaders s) (downstreamRespDataBuf s)
    (downstreamRespTrailers s) (downstreamResponseStarted s) (downstreamRecvDone s) v
    (upstreamProcessDone s) (senderFiltersStreaming s) (receiverFiltersStreaming s) (filterStage s)
    (downstreamReset s) (downstreamCleaned s) (upstreamReset s) (senderFilters s)
    (receiverFilters s).
Definition set_upstreamProcessDone (v : bool) (s : downStream) : downStream :=
  mk_ds (route s) (cluster s) (timeout s) (retry_state s) (request_info s) (upstream_request s)
    (perRetryTimer s) (responseTimer s) (downstreamReqHeaders s) (downstreamReqDataBuf s)
    (downstreamReqTrailers s) (downstreamRespHeaders s) (downstreamRespDataBuf s)
    (downstreamRespTrailers s) (downstreamResponseStarted s) (downstreamRecvDone s)
    (upstreamRequestSent s) v (senderFiltersStreaming s) (receiverFiltersStreaming s)
    (filterStage s) (downstreamReset s) (downstreamCleaned s) (upstreamReset s) (senderFilters s)
    (receiverFilters s).
Definition set_senderFiltersStreaming (v : bool) (s : downStream) : downStream :=
  mk_ds (route s) (cluster s) (timeout s) (retry_state s) (request_info s) (upstream_request s)
    (perRetryTimer s) (responseTimer s) (downstreamReqHeaders s) (downstreamReqDataBuf s)
    (downstreamReqTrailers s) (downstreamRespHeaders s) (downstreamRespDataBuf s)
    (downstreamRespTrailers s) (downstreamResponseStarted s) (downstreamRecvDone s)
    (upstreamRequestSent s) (upstreamProcessDone s) v (receiverFiltersStreaming s) (filterStage s)
    (downstreamReset s) (downstreamCleaned s) (upstreamReset s) (senderFilters s)
    (receiverFilters s).
Definition set_receiverFiltersStreaming (v : bool) (s : downStream) : downStream :=
  mk_ds (route s) (cluster s) (timeout s) (retry_state s) (request_info s) (upstream_request s)
    (perRetryTimer s) (responseTimer s) (downstreamReqHeaders s) (downstreamReqDataBuf s)
    (downstreamReqTrailers s) (downstreamRespHeaders s) (downstreamRespDataBuf s)
    (downstreamRespTrailers s) (downstreamResponseStarted s) (downstreamRecvDone s)
    (upstreamRequestSent s) (upstreamProcessDone s) (senderFiltersStreaming s) v (filterStage s)
    (downstreamReset s) (downstreamCleaned s) (upstreamReset s) (senderFilters s)
    (receiverFilters s).
Definition set_filterStage (v : Z) (s : downStream) : downStream :=
  mk_ds (route s) (cluster s) (timeout s) (retry_state s) (request_info s) (upstream_request s)
    (perRetryTimer s) (responseTimer s) (downstreamReqHeaders s) (downstreamReqDataBuf s)
    (downstreamReqTrailers s) (downstreamRespHeaders s) (downstreamRespDataBuf s)
    (downstreamRespTrailers s) (downstreamResponseStarted s) (downstreamRecvDone s)
    (upstreamRequestSent s) (upstreamProcessDone s) (senderFiltersStreaming s)
    (receiverFiltersStreaming s) v (downstreamReset s) (downstreamCleaned s) (upstreamReset s)
    (senderFilters s) (receiverFilters s).
Definition set_downstreamReset (v : bool) (s : downStream) : downStream :=
  mk_ds (route s) (cluster s) (timeout s) (retry_state s) (request_info s) (upstream_request s)
    (perRetryTimer s) (responseTimer s) (downstreamReqHeaders s) (downstreamReqDataBuf s)
    (downstreamReqTrailers s) (downstreamRespHeaders s) (downstreamRespDataBuf s)
    (downstreamRespTrailers s) (downstreamResponseStarted s) (downstreamRecvDone s)
    (upstreamRequestSent s) (upstreamProcessDone s) (senderFiltersStreaming s)
    (receiverFiltersStreaming s) (filterStage s) v (downstreamCleaned s) (upstreamReset s)
    (senderFilters s) (receiverFilters s).
Definition set_downstreamCleaned (v : bool) (s : downStream) : downStream :=
  mk_ds (route s) (cluster s) (timeout s) (retry_state s) (request_info s) (upstream_request s)
    (perRetryTimer s) (responseTimer s) (downstreamReqHeaders s) (downstreamReqDataBuf s)
    (downstreamReqTrailers s) (downstreamRespHeaders s) (downstreamRespDataBuf s)
    (downstreamRespTrailers s) (downstreamResponseStarted s) (downstreamRecvDone s)
    (upstreamRequestSent s) (upstreamProcessDone s) (senderFiltersStreaming s)
    (receiverFiltersStreaming s) (filterStage s) (downstreamReset s) v (upstreamReset s)
    (senderFilters s) (receiverFilters s).
Definition set_upstreamReset (v : bool) (s : downStream) : downStream :=
  mk_ds (route s) (cluster s) (timeout s) (retry_state s) (request_info s) (upstream_request s)
    (perRetryTimer s) (responseTimer s) (downstreamReqHeaders s) (downstreamReqDataBuf s)
    (downstreamReqTrailers s) (downstreamRespHeaders s) (downstreamRespDataBuf s)
    (downstreamRespTrailers s) (downstreamResponseStarted s) (downstreamRecvDone s)
    (upstreamRequestSent s) (upstreamProcessDone s) (senderFiltersStreaming s)
    (receiverFiltersStreaming s) (filterStage s) (downstreamReset s) (downstreamCleaned s) v
    (senderFilters s) (receiverFilters s).
Definition set_senderFilters (v : list (activeStreamFilter SF)) (s : downStream) : downStream :=
  mk_ds (route s) (cluster s) (timeout s) (retry_state s) (request_info s) (upstream_request s)
    (perRetryTimer s) (responseTimer s) (downstreamReqHeaders s) (downstreamReqDataBuf s)
    (downstreamReqTrailers s) (downstreamRespHeaders s) (downstreamRespDataBuf s)
    (downstreamRespTrailers s) (downstreamResponseStarted s) (downstreamRecvDone s)
    (upstreamRequestSent s) (upstreamProcessDone s) (senderFiltersStreaming s)
    (receiverFiltersStreaming s) (filterStage s) (downstreamReset s) (downstreamCleaned s)
    (upstreamReset s) v (receiverFilters s).
Definition set_receiverFilters (v : list (activeStreamFilter RF)) (s : downStream) : downStream :=
  mk_ds (route s) (cluster s) (timeout s) (retry_state s) (request_info s) (upstream_request s)
    (perRetryTimer s) (responseTimer s) (downstreamReqHeaders s) (downstreamReqDataBuf s)
    (downstreamReqTrailers s) (downstreamRespHeaders s) (downstreamRespDataBuf s)
    (downstreamRespTrailers s) (downstreamResponseStarted s) (downstreamRecvDone s)
    (upstreamRequestSent s) (upstreamProcessDone s) (senderFiltersStreaming s)
    (receiverFiltersStreaming s) (filterStage s) (downstreamReset s) (downstreamCleaned s)
    (upstreamReset s) (senderFilters s) v.

End downStream.
Arguments downStream : clear implicits.

(** ** The surroundings of a stream *)

Record world := mk_world {
  buffers : gmap nat bytes;
  nextBuffer : nat;
  timers : list timer;
  cluster_stats : ClusterStats;
  retries_res : resource;
  poolCalls : nat;
  ctrlChan : list stream_event;
  jobChan : list stream_event;
  streamMap : option bool;
  clock : Z;
  requestActive : Z;
  requestReset : Z;
  inActiveSteams : bool;
  actions : list action;
}.

Definition set_buffers (v : gmap nat bytes) (s : world) : world :=
  mk_world v (nextBuffer s) (timers s) (cluster_stats s) (retries_res s) (poolCalls s) (ctrlChan s)
    (jobChan s) (streamMap s) (clock s) (requestActive s) (requestReset s) (inActiveSteams s)
    (actions s).
Definition set_nextBuffer (v : nat) (s : world) : world :=
  mk_world (buffers s) v (timers s) (cluster_stats s) (retries_res s) (poolCalls s) (ctrlChan s)
    (jobChan s) (streamMap s) (clock s) (requestActive s) (requestReset s) (inActiveSteams s)
    (actions s).
Definition set_timers (v : list timer) (s : world) : world :=
  mk_world (buffers s) (nextBuffer s) v (cluster_stats s) (retries_res s) (poolCalls s) (ctrlChan s)
    (jobChan s) (streamMap s) (clock s) (requestActive s) (requestReset s) (inActiveSteams s)
    (actions s).
Definition set_cluster_stats (v : ClusterStats) (s : world) : world :=
  mk_world (buffers s) (nextBuffer s) (timers s) v (retries_res s) (poolCalls s) (ctrlChan s)
    (jobChan s) (streamMap s) (clock s) (requestActive s) (requestReset s) (inActiveSteams s)
    (actions s).
Definition set_retries_res (v : resource) (s : world) : world :=
  mk_world (buffers s) (nextBuffer s) (timers s) (cluster_stats s) v (poolCalls s) (ctrlChan s)
    (jobChan s) (streamMap s) (clock s) (requestActive s) (requestReset s) (inActiveSteams s)
    (actions s).
Definition set_poolCalls (v : nat) (s : world) : world :=
  mk_world (buffers s) (nextBuffer s) (timers s) (cluster_stats s) (retries_res s) v (ctrlChan s)
    (jobChan s) (streamMap s) (clock s) (requestActive s) (requestReset s) (inActiveSteams s)
    (actions s).
Definition set_ctrlChan (v : list stream_event) (s : world) : world :=
  mk_world (buffers s) (nextBuffer s) (timers s) (cluster_stats s) (retries_res s) (poolCalls s) v
    (jobChan s) (streamMap s) (clock s) (requestActive s) (requestReset s) (inActiveSteams s)
    (actions s).
Definition set_jobChan (v : list stream_event) (s : world) : world :=
  mk_world (buffers s) (nextBuffer s) (timers s) (cluster_stats s) (retries_res s) (poolCalls s)
    (ctrlChan s) v (streamMap s) (clock s) (requestActive s) (requestReset s) (inActiveSteams s)
    (actions s).
Definition set_streamMap (v : option bool) (s : world) : world :=
  mk_world (buffers s) (nextBuffer s) (timers s) (cluster_stats s) (retries_res s) (poolCalls s)
    (ctrlChan s) (jobChan s) v (clock s) (requestActive s) (requestReset s) (inActiveSteams s)
    (actions s).
Definition set_clock (v : Z) (s : world) : world :=
  mk_world (buffers s) (nextBuffer s) (timers s) (cluster_stats s) (retries_res s) (poolCalls s)
    (ctrlChan s) (jobChan s) (streamMap s) v (requestActive s) (requestReset s) (inActiveSteams s)
    (actions s).
Definition set_requestActive (v : Z) (s : world) : world :=
  mk_world (buffers s) (nextBuffer s) (timers s) (cluster_stats s) (retries_res s) (poolCalls s)
    (ctrlChan s) (jobChan s) (streamMap s) (clock s) v (requestReset s) (inActiveSteams s)
    (actions s).
Definition set_requestReset (v : Z) (s : world) : world :=
  mk_world (buffers s) (nextBuffer s) (timers s) (cluster_stats s) (retries_res s) (poolCalls s)
    (ctrlChan s) (jobChan s) (streamMap s) (clock s) (requestActive s) v (inActiveSteams s)
    (actions s).
Definition set_inActiveSteams (v : bool) (s : world) : world :=
  mk_world (buffers s) (nextBuffer s) (timers s) (cluster_stats s) (retries_res s) (poolCalls s)
    (ctrlChan s) (jobChan s) (streamMap s) (clock s) (requestActive s) (requestReset s) v
    (actions s).
Definition set_actions (v : list action) (s : world) : world :=
  mk_world (buffers s) (nextBuffer s) (timers s) (cluster_stats s) (retries_res s) (poolCalls s)
    (ctrlChan s) (jobChan s) (streamMap s) (clock s) (requestActive s) (requestReset s)
    (inActiveSteams s) v.
