(* ===== verification/Proxy.v ===== *)
(** * The life of a proxied request: pkg/proxy

    The operations of downstream.go, upstream.go, retrystate.go,
    streamfilters.go, event.go and util.go on the state of [ProxyState].

    The route table, the cluster manager, the connection pools, the filters and
    the stream layer are interfaces; they are parameters here.  The sender of a
    server stream calls its listeners on a reset, which is the stream itself.
    A header map that is sent upstream is changed by the sender ([sentHeaders]).
    A stopped timer does not fire. *)

From S2P Require Import Prelude Strconv Serialize BoltTypes Protocols Stream Cluster StateGo ProxyState.

Local Open Scope Z_scope.

(** ** Timeouts (util.go) *)

(** [strconv.ParseInt(s, 10, bits)] returns no error. *)
Definition ParseInt_ok (s : string) (bits : Z) : bool :=
  let '(neg, ds) := split_sign (str_bytes s) in
  match scan_digits (2 ^ bits - 1) ds with
  | ScanNum un => if neg then bool_decide (un ≤ 2 ^ (bits - 1)) else bool_decide (un < 2 ^ (bits - 1))
  | _ => false
  end.

Definition header_duration (key : string) (headers : option header_map) (d : Z) : Z :=
  match headers ≫= lookup key with
  | Some v => if ParseInt_ok v 64 then ParseInt v 64 else d
  | None => d
  end.

Definition parseProxyTimeout (rule : RouteRule) (headers : option header_map) : Timeout :=
  let try := header_duration HeaderTryTimeout headers (rule_TryTimeout rule) in
  let glob := header_duration HeaderGlobalTimeout headers (rule_GlobalTimeout rule) in
  mk_timeout glob (if bool_decide (glob ≤ try) then 0 else try).

Definition second : Z := 1000000000.

(** ** The shard of an event (event.go)

    The number of the stream picks the worker. *)
Definition event_Source (streamID : string) : Go Z :=
  if ParseInt_ok streamID 32 then Ret (ParseInt streamID 32)
  else Panic (UserPanic ("streamID must be numeric, unexpected :" ++ streamID)).

(** ** Retries (retrystate.go) *)

Definition newRetryState (rule : RouteRule) : retryState :=
  mk_retry (rule_RetryOn rule) (if bool_decide (3 < rule_NumRetries rule) then rule_NumRetries rule else 3) false None.

Definition retry_reset (r : retryState) (res : resource) : retryState * resource :=
  if retryFunc r then (mk_retry (retryOn r) (retiesRemaining r) false (retryTimer r), Decrease res) else (r, res).

Definition doRetryCheck (r : retryState) (headers : option header_map) (reason : string) : bool :=
  if bool_decide (reason = StreamOverflow) then false
  else if retryOn r then
    match headers ≫= lookup HeaderStatus with
    | Some code => bool_decide (500 ≤ Atoi code)
    | None => false
    end
  else false.

(** The methods of a counter; a counter that was never made is nil. *)
Definition counter_Inc (c : option Z) : Go (option Z) :=
  match c with Some n => Ret (Some (n + 1)) | None => Panic NilDeref end.

Definition shouldRetry (r : retryState) (res : resource) (stats : ClusterStats)
    (headers : option header_map) (reason : string) : Go (RetryCheckStatus * retryState * ClusterStats) :=
  if bool_decide (retiesRemaining r = 0) then Ret (NoRetry, r, stats)
  else
  let r := mk_retry (retryOn r) (to_uint32 (retiesRemaining r - 1)) (retryFunc r) (retryTimer r) in
  if negb (doRetryCheck r headers reason) then Ret (NoRetry, r, stats)
  else if CanCreate res then
    c ← counter_Inc (cs_RequestRetryOverflow stats);
    Ret (RetryOverflow, r, mk_cstats (cs_RequestTimeout stats) (cs_RequestRetry stats) c)
  else Ret (ShouldRetry, r, stats).

(** The counters [newClusterStats] of pkg/upstream/cluster makes. *)
Definition newClusterStats : ClusterStats := mk_cstats (Some 0) None None.

(** ** Streams *)

Section proxy.
  Context {SF RF : Type} `{!StreamSenderFilter SF} `{!StreamReceiverFilter RF}.
  (** The route table; the cluster manager; the pools: [connPoolFor] is what the
      manager answers to its [n]-th question, for the load balancer context or
      nil, and [poolNewStream] what the pool does then. *)
  Context (Route : option header_map → option RouteRule)
          (clusterGet : string → bool)
          (connPoolFor : string → string → bool → nat → option nat)
          (poolNewStream : nat → string → nat → poolOutcome)
          (UpstreamProtocol : string) (conn_local conn_remote : string)
          (sentHeaders : header_map → header_map)
          (rand : nat → nat) (accessLogs : nat).

  Abbreviation st := (downStream SF RF * world)%type.
  Abbreviation M := (SG st).

Definition ds {A} (f : downStream SF RF → A) : M A := λ s, Ret (f s.1, s).
Definition env {A} (f : world → A) : M A := λ s, Ret (f s.2, s).
Definition mod_ds (f : downStream SF RF → downStream SF RF) : M unit := sg_modify (λ s, (f s.1, s.2)).
Definition mod_w (f : world → world) : M unit := sg_modify (λ s, (s.1, f s.2)).

Definition emit_action (a : action) : M unit := mod_w (λ w, set_actions (actions w ++ [a]) w).
Definition mod_info (f : requestInfo → requestInfo) : M unit :=
  mod_ds (λ s, set_request_info (f (request_info s)) s).
Definition mod_ur (f : upstreamRequest → upstreamRequest) : M unit :=
  mod_ds (λ s, set_upstream_request (f <$> upstream_request s) s).

(** Control events go to the control channel, the others to the job channel. *)
Definition Offer (e : stream_event) : M unit :=
  mod_w (λ w, match e with
              | startEvent | stopEvent | resetEvent _ _ => set_ctrlChan (ctrlChan w ++ [e]) w
              | _ => set_jobChan (jobChan w ++ [e]) w
              end).

(** *** Buffers: the heap keeps their unread bytes *)
Definition buf_get (b : nat) : M bytes := env (λ w, default [] (buffers w !! b)).
Definition buf_put (b : nat) (d : bytes) : M unit := mod_w (λ w, set_buffers (<[b := d]> (buffers w)) w).
Definition buf_new (d : bytes) : M nat :=
  b ← env nextBuffer;
  _ ← mod_w (set_nextBuffer (S b));
  _ ← buf_put b d;
  mret b.

(** *** Timers *)
Definition newTimer (cb : timer_callback) (interval : Z) : M nat :=
  n ← env (λ w, length (timers w));
  _ ← mod_w (λ w, set_timers (timers w ++ [mk_timer cb interval false]) w);
  mret n.
Definition stop_timer (t : timer) : timer := mk_timer (t_callback t) (t_interval t) true.
Definition timer_stop (i : nat) : M unit := mod_w (λ w, set_timers (alter stop_timer i (timers w)) w).

(** *** The upstream request (upstream.go) *)

Definition ur_resetStream : M unit :=
  o ← ds upstream_request;
  r ← sg_deref o;
  match requestSender r with
  | Some i => _ ← emit_action (AReqRemoveListener i); emit_action (AReqReset i StreamLocalReset)
  | None => mret tt
  end.

Definition ur_OnResetStream (reason : string) : M unit := Offer (resetEvent Upstream reason).

Definition ur_OnFailure (reason : PoolFailureReason) : M unit :=
  ur_OnResetStream (match reason with
                    | Overflow => StreamOverflow
                    | ConnectionFailure => StreamConnectionFailed
                    | OtherPoolFailure => EmptyString
                    end).

Definition ur_OnReady (sender : nat) (host : string) : M unit :=
  _ ← mod_ur (set_requestSender (Some sender));
  _ ← emit_action (AReqAddListener sender);
  o ← ds upstream_request;
  r ← sg_deref o;
  let endStream := sendComplete r && negb (dataSent r) && negb (trailerSent r) in
  h ← ds downstreamReqHeaders;
  _ ← emit_action (AReqHeaders sender h endStream);
  _ ← mod_ds (λ s, set_downstreamReqHeaders (sentHeaders <$> downstreamReqHeaders s) s);
  _ ← mod_info (OnUpstreamHostSelected host);
  mod_info (SetUpstreamLocalAddress host).

(** The headers are [downstreamReqHeaders]. *)
Definition ur_appendHeaders (endStream : bool) : M unit :=
  _ ← mod_ur (set_sendComplete endStream);
  h ← ds downstreamReqHeaders;
  let streamID := default EmptyString (h ≫= lookup HeaderStreamID) in
  o ← ds upstream_request;
  r ← sg_deref o;
  n ← env poolCalls;
  _ ← emit_action (ANewStream (connPool r) streamID);
  match poolNewStream (connPool r) streamID n with
  | PoolFailure reason => ur_OnFailure reason
  | PoolReady host => ur_OnReady n host
  end.

Definition ur_appendData (data : nat) (endStream : bool) : M unit :=
  o ← ds upstream_request;
  r ← sg_deref o;
  _ ← mod_ur (λ r, set_dataSent true (set_sendComplete endStream r));
  sender ← sg_deref (requestSender r);
  d ← buf_get data;
  emit_action (AReqData sender d endStream).

Definition ur_appendTrailers (trailers : option header_map) : M unit :=
  o ← ds upstream_request;
  r ← sg_deref o;
  _ ← mod_ur (λ r, set_trailerSent true (set_sendComplete true r));
  sender ← sg_deref (requestSender r);
  emit_action (AReqTrailers sender trailers).

(** *** The end of a stream *)

Definition OnResetStream (reason : string) : M unit := Offer (resetEvent Downstream reason).

Definition retryState_reset : M unit :=
  o ← ds retry_state;
  match o with
  | None => mret tt
  | Some r =>
    res ← env retries_res;
    let '(r, res) := retry_reset r res in
    _ ← mod_ds (set_retry_state (Some r));
    mod_w (set_retries_res res)
  end.

Definition stop_perRetryTimer : M unit :=
  t ← ds perRetryTimer;
  match t with
  | Some i => _ ← timer_stop i; mod_ds (set_perRetryTimer None)
  | None => mret tt
  end.

Definition stop_responseTimer : M unit :=
  t ← ds responseTimer;
  match t with
  | Some i => _ ← timer_stop i; mod_ds (set_responseTimer None)
  | None => mret tt
  end.

Definition cleanUp : M unit :=
  _ ← mod_ur (set_requestSender None);
  _ ← retryState_reset;
  _ ← stop_perRetryTimer;
  stop_responseTimer.

Definition give_buffer (o : option nat) : M unit :=
  match o with Some b => emit_action (AGiveBuffer b) | None => mret tt end.
Definition give_headers (o : option header_map) : M unit :=
  match o with Some h => emit_action (AGiveHeaders h) | None => mret tt end.

Definition deleteActiveStream : M unit :=
  h ← ds downstreamReqHeaders;
  _ ← give_headers h;
  r ← ds upstream_request;
  _ ← give_headers (r ≫= upstreamRespHeaders);
  b ← ds downstreamReqDataBuf;
  _ ← give_buffer b;
  b ← ds downstreamRespDataBuf;
  _ ← give_buffer b;
  mod_w (set_inActiveSteams false).

Fixpoint destroy_all (mk : nat → action) (i n : nat) : M unit :=
  match n with
  | O => mret tt
  | S n => _ ← emit_action (mk i); destroy_all mk (S i) n
  end.

Fixpoint log_access (n : nat) : M unit :=
  match n with
  | O => mret tt
  | S n => info ← ds request_info; _ ← emit_action (AAccessLog info); log_access n
  end.

(** The counter of active requests is that of the proxy; the one of the
    listener moves with it. *)
Definition cleanStream : M unit :=
  cleaned ← ds downstreamCleaned;
  if cleaned : bool then mret tt
  else
  _ ← mod_ds (set_downstreamCleaned true);
  r ← ds upstream_request;
  _ ← sg_when (bool_decide (is_Some r)) ur_resetStream;
  _ ← cleanUp;
  sfs ← ds senderFilters;
  _ ← destroy_all ASenderDestroy 0 (length sfs);
  rfs ← ds receiverFilters;
  _ ← destroy_all AReceiverDestroy 0 (length rfs);
  _ ← mod_w (λ w, set_requestActive (requestActive w - 1) w);
  _ ← log_access accessLogs;
  _ ← Offer stopEvent;
  deleteActiveStream.

Definition endStream : M unit :=
  recvDone ← ds downstreamRecvDone;
  processDone ← ds upstreamProcessDone;
  if negb recvDone || negb processDone then
    _ ← mod_ds (set_upstreamProcessDone true);
    _ ← emit_action (ARespReset StreamLocalReset);
    OnResetStream StreamLocalReset
  else cleanStream.

Definition resetStream : M unit := endStream.

Definition ds_ResetStream (reason : string) : M unit :=
  r ← ds downstreamReset;
  if r : bool then mret tt
  else
  _ ← mod_ds (set_downstreamReset true);
  _ ← mod_w (λ w, set_requestReset (requestReset w + 1) w);
  cleanStream.

Definition shouldDeleteStream (s : downStream SF RF) : bool :=
  match upstream_request s with
  | Some r => (downstreamReset s || sendComplete r) && upstreamProcessDone s
  | None => false
  end.


(** ** Sender filters (streamfilters.go) and the response *)

Definition stage_on (b : Z) : M unit := mod_ds (λ s, set_filterStage (Z.lor (filterStage s) b) s).
Definition stage_off (b : Z) : M unit := mod_ds (λ s, set_filterStage (Z.ldiff (filterStage s) b) s).

Definition mod_sf (i : nat) (f : activeStreamFilter SF → activeStreamFilter SF) : M unit :=
  mod_ds (λ s, set_senderFilters (alter f i (senderFilters s)) s).
Definition mod_rf (i : nat) (f : activeStreamFilter RF → activeStreamFilter RF) : M unit :=
  mod_ds (λ s, set_receiverFilters (alter f i (receiverFilters s)) s).
Definition set_af_filter {F} (v : F) (f : activeStreamFilter F) :=
  mk_asf v (af_stopped f) (af_stoppedNoBuf f) (af_headersContinued f).
Definition set_af_stopped {F} (v : bool) (f : activeStreamFilter F) :=
  mk_asf (af_filter f) v (af_stoppedNoBuf f) (af_headersContinued f).
Definition set_af_stoppedNoBuf {F} (v : bool) (f : activeStreamFilter F) :=
  mk_asf (af_filter f) (af_stopped f) v (af_headersContinued f).
Definition set_af_headersContinued {F} (v : bool) (f : activeStreamFilter F) :=
  mk_asf (af_filter f) (af_stopped f) (af_stoppedNoBuf f) v.

(** The filters to run after [filter]. *)
Definition next_index (filter : option nat) : nat := match filter with Some i => S i | None => O end.

(** [dst.ReadFrom(src)] moves the bytes. *)
Definition buf_ReadFrom (dst src : nat) : M unit :=
  d ← buf_get src;
  d0 ← buf_get dst;
  _ ← buf_put src [];
  buf_put dst (d0 ++ d)%list.

Definition sf_handleBufferData (b : nat) : M unit :=
  o ← ds downstreamRespDataBuf;
  if bool_decide (o = Some b) then mret tt
  else
  dst ← match o with
        | Some dst => mret dst
        | None => n ← buf_new []; _ ← mod_ds (set_downstreamRespDataBuf (Some n)); mret n
        end;
  buf_ReadFrom dst b.

(** The result, and the headers as the filter leaves them. *)
Definition runAppendHeaderFilters (filter : option nat) (headers : msg) (end_stream : bool) : M (bool * msg) :=
  let index := next_index filter in
  fs ← ds senderFilters;
  match fs !! index with
  | None => mret (false, headers)
  | Some f =>
    _ ← stage_on EncodeHeaders;
    '(x, headers, status) ← sg_lift (sf_AppendHeaders (af_filter f) headers end_stream);
    _ ← mod_sf index (set_af_filter x);
    _ ← stage_off EncodeHeaders;
    match status with
    | FilterHeadersStatusStopIteration => _ ← mod_sf index (set_af_stopped true); mret (true, headers)
    | FilterHeadersStatusContinue => _ ← mod_sf index (set_af_headersContinued true); mret (false, headers)
    end
  end.

Definition doAppendHeaders (filter : option nat) (headers : msg) (end_stream : bool) : M unit :=
  '(stop, headers) ← runAppendHeaderFilters filter headers end_stream;
  if stop : bool then mret tt
  else
  _ ← emit_action (ARespHeaders headers end_stream);
  sg_when end_stream endStream.

(** Data and trailers: a filter that continues after it stopped runs the rest
    of the chain on everything that was held back ([doContinue]), so these are
    mutually recursive; the index of the filter grows. *)
Fixpoint runAppendDataFilters (fuel : nat) (index : nat) (data : nat) (end_stream : bool) : M bool :=
  match fuel with
  | O => sg_panic OutOfFuel
  | S fuel =>
    fs ← ds senderFilters;
    match fs !! index with
    | None => mret false
    | Some f =>
      _ ← stage_on EncodeData;
      d ← buf_get data;
      '(x, d, status) ← sg_lift (sf_AppendData (af_filter f) d end_stream);
      _ ← mod_sf index (set_af_filter x);
      _ ← buf_put data d;
      _ ← stage_off EncodeData;
      match status with
      | FilterDataStatusContinue =>
        if af_stopped f then
          _ ← sf_handleBufferData data;
          _ ← sf_doContinue fuel index;
          mret true
        else runAppendDataFilters fuel (S index) data end_stream
      | FilterDataStatusStopIterationAndBuffer =>
        _ ← mod_sf index (set_af_stopped true);
        _ ← mod_ds (set_senderFiltersStreaming false);
        _ ← sf_handleBufferData data;
        mret true
      | FilterDataStatusStopIterationAndWatermark =>
        _ ← mod_sf index (set_af_stopped true);
        _ ← mod_ds (set_senderFiltersStreaming true);
        _ ← sf_handleBufferData data;
        mret true
      | FilterDataStatusStopIterationNoBuffer =>
        _ ← mod_sf index (λ f, set_af_stoppedNoBuf true (set_af_stopped true f));
        _ ← buf_put data [];
        mret true
      end
    end
  end
with runAppendTrailersFilters (fuel : nat) (index : nat) (trailers : option header_map)
  : M (bool * option header_map) :=
  match fuel with
  | O => sg_panic OutOfFuel
  | S fuel =>
    fs ← ds senderFilters;
    match fs !! index with
    | None => mret (false, trailers)
    | Some f =>
      _ ← stage_on EncodeTrailers;
      '(x, trailers, status) ← sg_lift (sf_AppendTrailers (af_filter f) trailers);
      _ ← mod_sf index (set_af_filter x);
      _ ← stage_off EncodeTrailers;
      match status with
      | FilterTrailersStatusContinue =>
        if af_stopped f then _ ← sf_doContinue fuel index; mret (true, trailers)
        else runAppendTrailersFilters fuel (S index) trailers
      | FilterTrailersStatusStopIteration => mret (true, trailers)
      end
    end
  end
with doAppendData (fuel : nat) (filter : option nat) (data : nat) (end_stream : bool) : M unit :=
  match fuel with
  | O => sg_panic OutOfFuel
  | S fuel =>
    stop ← runAppendDataFilters fuel (next_index filter) data end_stream;
    if stop : bool then mret tt
    else
    d ← buf_get data;
    _ ← emit_action (ARespData d end_stream);
    _ ← mod_info (λ i, SetBytesSent (to_uint64 (bytesSent i + Z.of_nat (length d))) i);
    sg_when end_stream endStream
  end
with doAppendTrailers (fuel : nat) (filter : option nat) (trailers : option header_map) : M unit :=
  match fuel with
  | O => sg_panic OutOfFuel
  | S fuel =>
    '(stop, trailers) ← runAppendTrailersFilters fuel (next_index filter) trailers;
    if stop : bool then mret tt
    else
    _ ← emit_action (ARespTrailers trailers);
    endStream
  end
with sf_doContinue (fuel : nat) (i : nat) : M unit :=
  match fuel with
  | O => sg_panic OutOfFuel
  | S fuel =>
    _ ← mod_sf i (set_af_stopped false);
    b ← ds downstreamRespDataBuf;
    t ← ds downstreamRespTrailers;
    let hasBuffedData := bool_decide (is_Some b) in
    let hasTrailer := bool_decide (t = None) in
    fs ← ds senderFilters;
    f ← sg_deref (fs !! i);
    _ ← (if af_headersContinued f then mret tt
         else
         _ ← mod_sf i (set_af_headersContinued true);
         done ← ds upstreamProcessDone;
         h ← ds downstreamRespHeaders;
         doAppendHeaders (Some i) h (done && negb hasBuffedData && negb hasTrailer));
    _ ← (if hasBuffedData || af_stoppedNoBuf f then
           b ← ds downstreamRespDataBuf;
           data ← match b with
                  | Some n => if af_stoppedNoBuf f then
                                n ← buf_new []; _ ← mod_ds (set_downstreamRespDataBuf (Some n)); mret n
                              else mret n
                  | None => n ← buf_new []; _ ← mod_ds (set_downstreamRespDataBuf (Some n)); mret n
                  end;
           recvDone ← ds downstreamRecvDone;
           doAppendData fuel (Some i) data (recvDone && negb hasTrailer)
         else mret tt);
    if hasTrailer then
      t ← ds downstreamRespTrailers;
      doAppendTrailers fuel (Some i) t
    else mret tt
  end.

(** Enough for the chain: three nested calls per filter. *)
Definition sf_fuel : M nat := ds (λ s, (3 * length (senderFilters s) + 4)%nat).

Definition appendHeaders (headers : option header_map) (end_stream : bool) : M unit :=
  _ ← mod_ds (set_upstreamProcessDone end_stream);
  doAppendHeaders None (match headers with Some h => MMap h | None => MMap ∅ end) end_stream.

Definition appendData (data : nat) (end_stream : bool) : M unit :=
  _ ← mod_ds (set_upstreamProcessDone end_stream);
  n ← sf_fuel;
  doAppendData n None data end_stream.

Definition appendTrailers (trailers : option header_map) : M unit :=
  _ ← mod_ds (set_upstreamProcessDone true);
  n ← sf_fuel;
  doAppendTrailers n None trailers.

Definition ContinueEncoding (i : nat) : M unit := n ← sf_fuel; sf_doContinue n i.

Definition addEncodedData (i : nat) (data : nat) (streaming : bool) : M unit :=
  stage ← ds filterStage;
  if bool_decide (stage = 0) || bool_decide (0 < Z.land stage EncodeHeaders) ||
     bool_decide (0 < Z.land stage EncodeData) then
    _ ← mod_ds (set_senderFiltersStreaming streaming);
    sf_handleBufferData data
  else if bool_decide (0 < Z.land stage EncodeTrailers) then
    n ← sf_fuel;
    _ ← runAppendDataFilters n (S i) data false;
    mret tt
  else mret tt.

(** *** Replies made by the proxy itself

    The header map of the reply is the one of the request or one the caller
    passes; it is changed in place. *)
Inductive headers_of := RequestHeaders | OtherHeaders (h : option header_map).

Definition sendHijackReply (code : Z) (src : headers_of) : M unit :=
  match src with
  | RequestHeaders =>
    o ← ds downstreamReqHeaders;
    match o with
    | Some h =>
      let h := <[HeaderStatus := FormatUint code]> h in
      _ ← mod_ds (set_downstreamReqHeaders (Some h));
      appendHeaders (Some h) true
    | None => appendHeaders (Some {[HeaderStatus := FormatUint code]}) true
    end
  | OtherHeaders o => appendHeaders (Some (<[HeaderStatus := FormatUint code]> (default ∅ o))) true
  end.

(** ** Timers of a request *)

Definition setupPerReqTimeout : M unit :=
  o ← ds timeout;
  t ← sg_deref o;
  if bool_decide (0 < TryTimeout t) then
    p ← ds perRetryTimer;
    _ ← match p with Some i => timer_stop i | None => mret tt end;
    i ← newTimer CB_onPerReqTimeout (to_int64 (TryTimeout t * second));
    mod_ds (set_perRetryTimer (Some i))
  else mret tt.

Definition onUpstreamRequestSent : M unit :=
  _ ← mod_ds (set_upstreamRequestSent true);
  now ← env clock;
  _ ← mod_info (SetRequestReceivedDuration now);
  r ← ds upstream_request;
  if bool_decide (is_Some r) then
    _ ← setupPerReqTimeout;
    o ← ds timeout;
    t ← sg_deref o;
    if bool_decide (0 < GlobalTimeout t) then
      p ← ds responseTimer;
      _ ← match p with Some i => timer_stop i | None => mret tt end;
      i ← newTimer CB_onResponseTimeout (GlobalTimeout t);
      mod_ds (set_responseTimer (Some i))
    else mret tt
  else mret tt.

(** ** Choosing the upstream *)

Definition pool_protocol : string :=
  if bool_decide (UpstreamProtocol = "SofaRpc"%string) then "SofaRpc"
  else if bool_decide (UpstreamProtocol = "Http2"%string) then "Http2"
  else if bool_decide (UpstreamProtocol = "Http1"%string) then "Http1"
  else if bool_decide (UpstreamProtocol = "X"%string) then "X"
  else "Http2".

(** The pool, or nothing when the reply was sent; x-protocol pools are chosen
    without the context of the request. *)
Definition initializeUpstreamConnectionPool (clusterName : string) (lbCtx : bool) : M (option nat) :=
  if negb (clusterGet clusterName) then
    _ ← mod_info (SetResponseFlag NoRouteFound);
    _ ← sendHijackReply RouterUnavailableCode RequestHeaders;
    mret None
  else
  _ ← mod_ds (set_cluster (Some clusterName));
  _ ← mod_w (λ w, set_poolCalls (S (poolCalls w)) w);
  n ← env poolCalls;
  match connPoolFor pool_protocol clusterName
          (if bool_decide (pool_protocol = "X"%string) then false else lbCtx) n with
  | None =>
    _ ← mod_info (SetResponseFlag NoHealthyUpstream);
    _ ← sendHijackReply NoHealthUpstreamCode RequestHeaders;
    mret None
  | Some pool => mret (Some pool)
  end.

Definition new_upstreamRequest (pool : nat) : upstreamRequest := mk_ur None None pool None false false false.


(** ** Receiver filters and the request *)

Definition run_command (c : filter_command) : M unit :=
  match c with
  | CmdAppendHeaders h e =>
    _ ← mod_ds (set_downstreamRespHeaders h);
    doAppendHeaders None h e
  | CmdAppendData d e =>
    b ← buf_new d;
    n ← sf_fuel;
    doAppendData n None b e
  | CmdAppendTrailers t =>
    _ ← mod_ds (set_downstreamRespTrailers t);
    n ← sf_fuel;
    doAppendTrailers n None t
  | CmdResetStream => resetStream
  | CmdSetHealthCheck b => mod_info (SetHealthCheck b)
  end.

Fixpoint run_commands (l : list filter_command) : M unit :=
  match l with
  | [] => mret tt
  | c :: l => _ ← run_command c; run_commands l
  end.

Definition rf_handleBufferData (b : nat) : M unit :=
  o ← ds downstreamReqDataBuf;
  if bool_decide (o = Some b) then mret tt
  else
  dst ← match o with
        | Some dst => mret dst
        | None => n ← buf_new []; _ ← mod_ds (set_downstreamReqDataBuf (Some n)); mret n
        end;
  buf_ReadFrom dst b.

(** The headers are [downstreamReqHeaders]. *)
Definition runReceiveHeadersFilters (filter : option nat) (end_stream : bool) : M bool :=
  let index := next_index filter in
  fs ← ds receiverFilters;
  match fs !! index with
  | None => mret false
  | Some f =>
    _ ← stage_on DecodeHeaders;
    h ← ds downstreamReqHeaders;
    '(x, h, cmds, status) ← sg_lift (rf_OnDecodeHeaders (af_filter f) h end_stream);
    _ ← mod_rf index (set_af_filter x);
    _ ← mod_ds (set_downstreamReqHeaders h);
    _ ← run_commands cmds;
    _ ← stage_off DecodeHeaders;
    match status with
    | FilterHeadersStatusStopIteration => _ ← mod_rf index (set_af_stopped true); mret true
    | FilterHeadersStatusContinue => _ ← mod_rf index (set_af_headersContinued true); mret false
    end
  end.

Definition doReceiveHeaders (filter : option nat) (end_stream : bool) : M unit :=
  stop ← runReceiveHeadersFilters filter end_stream;
  if stop : bool then mret tt
  else
  headers ← ds downstreamReqHeaders;
  match Route headers with
  | None =>
    _ ← mod_info (SetResponseFlag NoRouteFound);
    sendHijackReply RouterUnavailableCode RequestHeaders
  | Some rule =>
    _ ← mod_ds (set_route (Some rule));
    _ ← mod_info (SetRouteEntry rule);
    _ ← mod_info (SetDownstreamAddresses conn_local conn_remote);
    pool ← initializeUpstreamConnectionPool (rule_ClusterName rule) true;
    match pool with
    | None => mret tt
    | Some pool =>
      headers ← ds downstreamReqHeaders;
      _ ← mod_ds (set_timeout (Some (parseProxyTimeout rule headers)));
      _ ← mod_ds (set_retry_state (Some (newRetryState rule)));
      _ ← mod_ds (set_upstream_request (Some (new_upstreamRequest pool)));
      _ ← ur_appendHeaders end_stream;
      sg_when end_stream onUpstreamRequestSent
    end
  end.

Definition ReceiveHeaders (headers : option header_map) (end_stream : bool) : M unit :=
  _ ← mod_ds (set_downstreamRecvDone end_stream);
  _ ← mod_ds (set_downstreamReqHeaders headers);
  doReceiveHeaders None end_stream.

Fixpoint runReceiveDataFilters (fuel : nat) (index : nat) (data : nat) (end_stream : bool) : M bool :=
  match fuel with
  | O => sg_panic OutOfFuel
  | S fuel =>
    fs ← ds receiverFilters;
    match fs !! index with
    | None => mret false
    | Some f =>
      _ ← stage_on DecodeData;
      d ← buf_get data;
      '(x, d, cmds, status) ← sg_lift (rf_OnDecodeData (af_filter f) d end_stream);
      _ ← mod_rf index (set_af_filter x);
      _ ← buf_put data d;
      _ ← run_commands cmds;
      _ ← stage_off DecodeData;
      match status with
      | FilterDataStatusContinue =>
        if af_stopped f then
          _ ← rf_handleBufferData data;
          _ ← rf_doContinue fuel index;
          mret false
        else runReceiveDataFilters fuel (S index) data end_stream
      | FilterDataStatusStopIterationAndBuffer =>
        _ ← mod_rf index (set_af_stopped true);
        _ ← mod_ds (set_receiverFiltersStreaming false);
        _ ← rf_handleBufferData data;
        mret true
      | FilterDataStatusStopIterationAndWatermark =>
        _ ← mod_rf index (set_af_stopped true);
        _ ← mod_ds (set_receiverFiltersStreaming true);
        _ ← rf_handleBufferData data;
        mret true
      | FilterDataStatusStopIterationNoBuffer =>
        _ ← mod_rf index (λ f, set_af_stoppedNoBuf true (set_af_stopped true f));
        _ ← buf_put data [];
        mret true
      end
    end
  end
with runReceiveTrailersFilters (fuel : nat) (index : nat) (trailers : option header_map)
  : M (bool * option header_map) :=
  match fuel with
  | O => sg_panic OutOfFuel
  | S fuel =>
    fs ← ds receiverFilters;
    match fs !! index with
    | None => mret (false, trailers)
    | Some f =>
      _ ← stage_on DecodeTrailers;
      '(x, trailers, cmds, status) ← sg_lift (rf_OnDecodeTrailers (af_filter f) trailers);
      _ ← mod_rf index (set_af_filter x);
      _ ← run_commands cmds;
      _ ← stage_off DecodeTrailers;
      match status with
      | FilterTrailersStatusContinue =>
        if af_stopped f then _ ← rf_doContinue fuel index; mret (false, trailers)
        else runReceiveTrailersFilters fuel (S index) trailers
      | FilterTrailersStatusStopIteration => mret (true, trailers)
      end
    end
  end
with doReceiveData (fuel : nat) (filter : option nat) (data : nat) (end_stream : bool) : M unit :=
  match fuel with
  | O => sg_panic OutOfFuel
  | S fuel =>
    done ← ds upstreamProcessDone;
    stop ← (if done : bool then mret false
            else runReceiveDataFilters fuel (next_index filter) data end_stream);
    if stop : bool then mret tt
    else
    _ ← sg_when end_stream onUpstreamRequestSent;
    _ ← ur_appendData data end_stream;
    done ← ds upstreamProcessDone;
    sg_when done cleanStream
  end
with doReceiveTrailers (fuel : nat) (filter : option nat) (trailers : option header_map) : M unit :=
  match fuel with
  | O => sg_panic OutOfFuel
  | S fuel =>
    done ← ds upstreamProcessDone;
    '(stop, trailers) ← (if done : bool then mret (false, trailers)
                         else runReceiveTrailersFilters fuel (next_index filter) trailers);
    if stop : bool then mret tt
    else
    _ ← mod_ds (set_downstreamReqTrailers trailers);
    _ ← onUpstreamRequestSent;
    _ ← ur_appendTrailers trailers;
    done ← ds upstreamProcessDone;
    sg_when done cleanStream
  end
with rf_doContinue (fuel : nat) (i : nat) : M unit :=
  match fuel with
  | O => sg_panic OutOfFuel
  | S fuel =>
    done ← ds upstreamProcessDone;
    if done : bool then mret tt
    else
    _ ← mod_rf i (set_af_stopped false);
    b ← ds downstreamReqDataBuf;
    t ← ds downstreamReqTrailers;
    let hasBuffedData := bool_decide (is_Some b) in
    let hasTrailer := bool_decide (is_Some t) in
    fs ← ds receiverFilters;
    f ← sg_deref (fs !! i);
    _ ← (if af_headersContinued f then mret tt
         else
         _ ← mod_rf i (set_af_headersContinued true);
         recvDone ← ds downstreamRecvDone;
         doReceiveHeaders (Some i) (recvDone && negb hasBuffedData && negb hasTrailer));
    _ ← (if hasBuffedData || af_stoppedNoBuf f then
           b ← ds downstreamReqDataBuf;
           data ← match b with
                  | Some n => if af_stoppedNoBuf f then
                                n ← buf_new []; _ ← mod_ds (set_downstreamReqDataBuf (Some n)); mret n
                              else mret n
                  | None => n ← buf_new []; _ ← mod_ds (set_downstreamReqDataBuf (Some n)); mret n
                  end;
           recvDone ← ds downstreamRecvDone;
           doReceiveData fuel (Some i) data (recvDone && negb hasTrailer)
         else mret tt);
    if hasTrailer then
      t ← ds downstreamReqTrailers;
      doReceiveTrailers fuel (Some i) t
    else mret tt
  end.

Definition rf_fuel : M nat := ds (λ s, (3 * length (receiverFilters s) + 4)%nat).

Definition ReceiveData (data : nat) (end_stream : bool) : M unit :=
  done ← ds upstreamProcessDone;
  if done : bool then mret tt
  else
  d ← buf_get data;
  _ ← mod_info (λ i, SetBytesReceived (to_uint64 (bytesReceived i + Z.of_nat (length d))) i);
  _ ← mod_ds (set_downstreamRecvDone end_stream);
  n ← rf_fuel;
  doReceiveData n None data end_stream.

Definition ReceiveTrailers (trailers : option header_map) : M unit :=
  done ← ds upstreamProcessDone;
  if done : bool then mret tt
  else
  _ ← mod_ds (set_downstreamRecvDone true);
  n ← rf_fuel;
  doReceiveTrailers n None trailers.

Definition ContinueDecoding (i : nat) : M unit := n ← rf_fuel; rf_doContinue n i.

Definition addDecodedData (i : nat) (data : nat) (streaming : bool) : M unit :=
  stage ← ds filterStage;
  if bool_decide (stage = 0) || bool_decide (0 < Z.land stage DecodeHeaders) ||
     bool_decide (0 < Z.land stage DecodeData) then
    _ ← mod_ds (set_receiverFiltersStreaming streaming);
    rf_handleBufferData data
  else if bool_decide (0 < Z.land stage EncodeTrailers) then
    done ← ds upstreamProcessDone;
    if done : bool then mret tt
    else
    n ← rf_fuel;
    _ ← runReceiveDataFilters n (S i) data false;
    mret tt
  else mret tt.

(** *** What the stream layer calls, outside of the worker *)

(** The bytes of a message are copied to a buffer of the pool. *)
Definition OnReceiveHeaders (headers : option header_map) (end_stream : bool) : M unit :=
  Offer (receiveHeadersEvent Downstream headers end_stream).
Definition OnReceiveData (data : bytes) (end_stream : bool) : M unit :=
  b ← buf_new data;
  _ ← mod_ds (set_downstreamReqDataBuf (Some b));
  Offer (receiveDataEvent Downstream b end_stream).
Definition OnReceiveTrailers (trailers : option header_map) : M unit :=
  Offer (receiveTrailerEvent Downstream trailers).

Definition UnknownCode : Z := 2.
Definition DeserializeException := "Deserial exception occurs"%string.

Definition OnDecodeError (err : string) (headers : option header_map) : M unit :=
  done ← ds upstreamProcessDone;
  if done : bool then mret tt
  else
  _ ← sendHijackReply (if bool_decide (err = CodecException) then CodecExceptionCode
                       else if bool_decide (err = DeserializeException) then DeserialExceptionCode
                       else UnknownCode) (OtherHeaders headers);
  OnResetStream StreamLocalReset.

Definition ur_OnReceiveHeaders (headers : option header_map) (end_stream : bool) : M unit :=
  Offer (receiveHeadersEvent Upstream headers end_stream).
Definition ur_OnReceiveData (data : bytes) (end_stream : bool) : M unit :=
  b ← buf_new data;
  _ ← mod_ds (set_downstreamRespDataBuf (Some b));
  Offer (receiveDataEvent Upstream b end_stream).
Definition ur_OnReceiveTrailers (trailers : option header_map) : M unit :=
  Offer (receiveTrailerEvent Upstream trailers).
Definition ur_OnDecodeError : M unit := ur_OnResetStream StreamLocalReset.

Definition onUpstreamAboveWriteBufferHighWatermark : M unit := emit_action (ARespReadDisable true).
Definition onUpstreamBelowWriteBufferHighWatermark : M unit := emit_action (ARespReadDisable false).

(** ** Upstream events *)

Definition scheduleRetry : M nat :=
  o ← ds retry_state;
  r ← sg_deref o;
  _ ← mod_ds (set_retry_state (Some (mk_retry (retryOn r) (retiesRemaining r) true (retryTimer r))));
  _ ← mod_w (λ w, set_retries_res (Increase (retries_res w)) w);
  stats ← env cluster_stats;
  c ← sg_lift (counter_Inc (cs_RequestRetry stats));
  _ ← mod_w (set_cluster_stats (mk_cstats (cs_RequestTimeout stats) c (cs_RequestRetryOverflow stats)));
  n ← env (λ w, length (timers w));
  t ← sg_lift (Intn (rand n) 10);
  newTimer CB_doRetry (Z.of_nat t * second).

Definition retry (headers : option header_map) (reason : string) : M RetryCheckStatus :=
  _ ← retryState_reset;
  o ← ds retry_state;
  r ← sg_deref o;
  res ← env retries_res;
  stats ← env cluster_stats;
  '(check, r, stats) ← sg_lift (shouldRetry r res stats headers reason);
  _ ← mod_ds (set_retry_state (Some r));
  _ ← mod_w (set_cluster_stats stats);
  match check with
  | ShouldRetry =>
    t ← scheduleRetry;
    _ ← mod_ds (λ s, set_retry_state ((λ r, mk_retry (retryOn r) (retiesRemaining r) (retryFunc r) (Some t))
                                      <$> retry_state s) s);
    mret ShouldRetry
  | c => mret c
  end.

Definition setupRetry (end_stream : bool) : M bool :=
  sent ← ds upstreamRequestSent;
  if negb sent then mret false
  else
  _ ← sg_when (negb end_stream) ur_resetStream;
  o ← ds upstream_request;
  _ ← sg_deref o;
  _ ← mod_ur (set_requestSender None);
  _ ← stop_perRetryTimer;
  mret true.

Definition streamResetReasonToResponseFlag (reason : string) : Z :=
  if bool_decide (reason = StreamConnectionFailed) then UpstreamConnectionFailure
  else if bool_decide (reason = StreamConnectionTermination) then UpstreamConnectionTermination
  else if bool_decide (reason = StreamLocalReset) then UpstreamLocalReset
  else if bool_decide (reason = StreamOverflow) then UpstreamOverflow
  else if bool_decide (reason = StreamRemoteReset) then UpstreamRemoteReset
  else 0.

(** The retry of [onUpstreamReset] and [onUpstreamHeaders]: whether it was set up. *)
Definition try_retry (headers : option header_map) (reason : string) (end_stream : bool) : M bool :=
  check ← retry headers reason;
  match check with
  | ShouldRetry => setupRetry end_stream
  | RetryOverflow => _ ← mod_info (SetResponseFlag UpstreamOverflow); mret false
  | NoRetry => mret false
  end.

Definition onUpstreamReset (urtype : UpstreamResetType) (reason : string) : M unit :=
  r ← ds upstreamReset;
  if r : bool then mret tt
  else
  _ ← mod_ds (set_upstreamReset true);
  started ← ds downstreamResponseStarted;
  rs ← ds retry_state;
  retried ← (if bool_decide (urtype ≠ UpstreamGlobalTimeout) && started && bool_decide (is_Some rs)
             then try_retry None reason true else mret false);
  if retried : bool then mret tt
  else
  _ ← cleanUp;
  started ← ds downstreamResponseStarted;
  if started : bool then resetStream
  else
  match urtype with
  | UpstreamGlobalTimeout | UpstreamPerTryTimeout =>
    _ ← mod_info (SetResponseFlag UpstreamRequestTimeout);
    sendHijackReply TimeoutExceptionCode RequestHeaders
  | UpstreamReset =>
    _ ← mod_info (SetResponseFlag (streamResetReasonToResponseFlag reason));
    sendHijackReply NoHealthUpstreamCode RequestHeaders
  end.

Definition onUpstreamResponseRecvFinished : M unit :=
  sent ← ds upstreamRequestSent;
  _ ← sg_when (negb sent) ur_resetStream;
  cleanUp.

(** The check of [onUpstreamHeaders]: whether the request is tried again. *)
Definition check_retry (headers : option header_map) (end_stream : bool) : M bool :=
  rs ← ds retry_state;
  if bool_decide (is_Some rs) then
    b ← try_retry headers EmptyString end_stream;
    if b : bool then mret true else _ ← retryState_reset; mret false
  else mret false.

Definition onUpstreamHeaders (headers : option header_map) (end_stream : bool) : M unit :=
  _ ← mod_ds (set_downstreamRespHeaders (match headers with Some h => MMap h | None => MMap ∅ end));
  retried ← check_retry headers end_stream;
  if retried : bool then mret tt
  else
  now ← env clock;
  _ ← mod_info (SetResponseReceivedDuration now);
  _ ← mod_ds (set_downstreamResponseStarted true);
  _ ← sg_when end_stream onUpstreamResponseRecvFinished;
  appendHeaders headers end_stream.

Definition onUpstreamData (data : nat) (end_stream : bool) : M unit :=
  _ ← sg_when end_stream onUpstreamResponseRecvFinished;
  appendData data end_stream.

Definition onUpstreamTrailers (trailers : option header_map) : M unit :=
  _ ← onUpstreamResponseRecvFinished;
  appendTrailers trailers.

(** The methods of the current upstream request that the worker calls. *)
Definition ur_ResetStream (reason : string) : M unit :=
  o ← ds upstream_request;
  _ ← sg_deref o;
  _ ← mod_ur (set_requestSender None);
  onUpstreamReset UpstreamReset reason.

Definition ur_ReceiveHeaders (headers : option header_map) (end_stream : bool) : M unit :=
  o ← ds upstream_request;
  _ ← sg_deref o;
  _ ← mod_ur (set_upstreamRespHeaders headers);
  onUpstreamHeaders headers end_stream.

Definition ur_ReceiveData (data : nat) (end_stream : bool) : M unit :=
  o ← ds upstream_request;
  _ ← sg_deref o;
  onUpstreamData data end_stream.

Definition ur_ReceiveTrailers (trailers : option header_map) : M unit :=
  o ← ds upstream_request;
  _ ← sg_deref o;
  onUpstreamTrailers trailers.

(** ** Timer callbacks *)

Definition count_timeout : M unit :=
  c ← ds cluster;
  _ ← sg_deref c;
  stats ← env cluster_stats;
  c ← sg_lift (counter_Inc (cs_RequestTimeout stats));
  mod_w (set_cluster_stats (mk_cstats c (cs_RequestRetry stats) (cs_RequestRetryOverflow stats))).

Definition onResponseTimeout : M unit :=
  _ ← mod_ds (set_responseTimer None);
  _ ← count_timeout;
  r ← ds upstream_request;
  _ ← sg_when (bool_decide (is_Some r)) ur_resetStream;
  onUpstreamReset UpstreamGlobalTimeout StreamLocalReset.

Definition onPerReqTimeout : M unit :=
  started ← ds downstreamResponseStarted;
  if started : bool then mret tt
  else
  _ ← mod_ds (set_perRetryTimer None);
  _ ← count_timeout;
  _ ← ur_resetStream;
  _ ← mod_info (SetResponseFlag UpstreamRequestTimeout);
  onUpstreamReset UpstreamPerTryTimeout StreamLocalReset.

Definition doRetry : M unit :=
  c ← ds cluster;
  name ← sg_deref c;
  pool ← initializeUpstreamConnectionPool name false;
  match pool with
  | None =>
    _ ← sendHijackReply NoHealthUpstreamCode RequestHeaders;
    cleanUp
  | Some pool =>
    _ ← mod_ds (set_upstream_request (Some (new_upstreamRequest pool)));
    b ← ds downstreamReqDataBuf;
    t ← ds downstreamReqTrailers;
    _ ← ur_appendHeaders (bool_decide (is_Some b) && bool_decide (is_Some t));
    _ ← match b with
        | Some _ => copied ← buf_new [] (* [Clone] returns an empty buffer *); ur_appendData copied (bool_decide (t = None))
        | None => mret tt
        end;
    _ ← match t with
        | Some _ => ur_appendTrailers t
        | None => mret tt
        end;
    setupPerReqTimeout
  end.

Definition timer_fire (i : nat) : M unit :=
  ts ← env timers;
  match ts !! i with
  | Some t =>
    if t_stopped t then mret tt
    else
    _ ← timer_stop i;
    match t_callback t with
    | CB_onResponseTimeout => onResponseTimeout
    | CB_onPerReqTimeout => onPerReqTimeout
    | CB_doRetry => doRetry
    end
  | None => mret tt
  end.

(** ** The worker (event.go) *)

Definition handle_event (e : stream_event) : M unit :=
  match e with
  | resetEvent Downstream reason => ds_ResetStream reason
  | resetEvent Upstream reason => ur_ResetStream reason
  | receiveHeadersEvent Downstream h b => ReceiveHeaders h b
  | receiveHeadersEvent Upstream h b => ur_ReceiveHeaders h b
  | receiveDataEvent Downstream d b => ReceiveData d b
  | receiveDataEvent Upstream d b => ur_ReceiveData d b
  | receiveTrailerEvent Downstream t => ReceiveTrailers t
  | receiveTrailerEvent Upstream t => ur_ReceiveTrailers t
  | startEvent | stopEvent => mret tt
  end.

Definition eventProcess (e : stream_event) : M unit :=
  match e with
  | startEvent => mod_w (set_streamMap (Some false))
  | stopEvent => mod_w (set_streamMap None)
  | _ =>
    m ← env streamMap;
    match m with
    | Some false =>
      _ ← handle_event e;
      m ← env streamMap;
      done ← ds upstreamProcessDone;
      mod_w (set_streamMap (Some (default false m || done)))
    | _ => mret tt
    end
  end.

(** One round of the loop: control events first; nothing when it would block.
    The control channel is looked at twice; [late] is when the events in it
    arrived after the first look and the second one took a job. *)
Definition eventDispatch (late : bool) : M unit :=
  c ← env ctrlChan;
  j ← env jobChan;
  match c, j with
  | e :: c, [] => _ ← mod_w (set_ctrlChan c); eventProcess e
  | e :: c, e' :: j => if late then _ ← mod_w (set_jobChan j); eventProcess e'
                       else _ ← mod_w (set_ctrlChan c); eventProcess e
  | [], e' :: j => _ ← mod_w (set_jobChan j); eventProcess e'
  | [], [] => mret tt
  end.

(** ** The stream and its surroundings as a machine *)

Inductive input :=
  | InHeaders (h : option header_map) (e : bool) | InData (d : bytes) (e : bool) | InTrailers (t : option header_map)
  | InDecodeError (err : string) (h : option header_map) | InReset (reason : string)
  | UpHeaders (h : option header_map) (e : bool) | UpData (d : bytes) (e : bool) | UpTrailers (t : option header_map)
  | UpDecodeError | UpReset (reason : string)
  | Worker (late : bool) | TimerFires (i : nat) | FilterContinuesDecoding (i : nat) | FilterContinuesEncoding (i : nat)
  | Tick (now : Z).

Definition exec (i : input) : M unit :=
  match i with
  | InHeaders h e => OnReceiveHeaders h e
  | InData d e => OnReceiveData d e
  | InTrailers t => OnReceiveTrailers t
  | InDecodeError err h => OnDecodeError err h
  | InReset reason => OnResetStream reason
  | UpHeaders h e => ur_OnReceiveHeaders h e
  | UpData d e => ur_OnReceiveData d e
  | UpTrailers t => ur_OnReceiveTrailers t
  | UpDecodeError => ur_OnDecodeError
  | UpReset reason => ur_OnResetStream reason
  | Worker late => eventDispatch late
  | TimerFires i => timer_fire i
  | FilterContinuesDecoding i => ContinueDecoding i
  | FilterContinuesEncoding i => ContinueEncoding i
  | Tick now => mod_w (set_clock now)
  end.

Fixpoint exec_all (l : list input) : M unit :=
  match l with
  | [] => mret tt
  | i :: l => _ ← exec i; exec_all l
  end.

(** [NewStream] of proxy.go and [newActiveStream]: the filters were added by
    the factories, the start event is offered. *)
Definition newActiveStream (now : Z) (sfs : list SF) (rfs : list RF) : downStream SF RF :=
  mk_ds None None None None (NewRequestInfo now) None None None None None None MNil None None
    false false false false false false 0 false false false
    ((λ f, mk_asf f false false false) <$> sfs) ((λ f, mk_asf f false false false) <$> rfs).

Definition proxy_NewStream (now : Z) (sfs : list SF) (rfs : list RF) (stats : ClusterStats) (res : resource) : st :=
  (newActiveStream now sfs rfs,
   mk_world ∅ 0 [] stats res 0 [startEvent] [] None now 1 0 true []).

End proxy.
