(* ===== verification/ProxyProps.v ===== *)
(** * Theorems on proxied requests *)

From S2P Require Import Prelude Strconv Serialize BoltTypes Protocols Stream Cluster StateGo ProxyState Proxy.

Local Open Scope Z_scope.

(** Filters that are never there. *)
#[export] Instance no_sender_filter : StreamSenderFilter Empty_set := {
  sf_AppendHeaders f _ _ := match f with end;
  sf_AppendData f _ _ := match f with end;
  sf_AppendTrailers f _ := match f with end;
}.
#[export] Instance no_receiver_filter : StreamReceiverFilter Empty_set := {
  rf_OnDecodeHeaders f _ _ := match f with end;
  rf_OnDecodeData f _ _ := match f with end;
  rf_OnDecodeTrailers f _ := match f with end;
}.

(** Every path of a computation keeps a predicate: binds and tests are taken
    apart, what remains is looked up in the database. *)
Ltac keeps_go :=
  lazymatch goal with
  | |- ∀ _, _ => intro; keeps_go
  | |- keeps _ (_ ≫= _) => apply keeps_bind; keeps_go
  | |- keeps _ (if ?b then _ else _) => destruct b; keeps_go
  | |- keeps _ (match ?x with _ => _ end) => destruct x; keeps_go
  | |- keeps _ (let '_ := ?x in _) => destruct x; keeps_go
  | |- keeps _ (sg_when _ _) => apply keeps_when; keeps_go
  | |- _ => eauto 3 with keeps
  end.

Section proxy_props.
  Context {SF RF : Type} `{!StreamSenderFilter SF} `{!StreamReceiverFilter RF}.
  Context (Route : option header_map → option RouteRule)
          (clusterGet : string → bool)
          (connPoolFor : string → string → bool → nat → option nat)
          (poolNewStream : nat → string → nat → poolOutcome)
          (UpstreamProtocol : string) (conn_local conn_remote : string)
          (sentHeaders : header_map → header_map)
          (rand : nat → nat) (accessLogs : nat).

  Abbreviation st := (downStream SF RF * world)%type.
  Abbreviation run_exec := (exec Route clusterGet connPoolFor poolNewStream UpstreamProtocol
    conn_local conn_remote sentHeaders rand accessLogs).
  Abbreviation run_all := (exec_all Route clusterGet connPoolFor poolNewStream UpstreamProtocol
    conn_local conn_remote sentHeaders rand accessLogs).

(** ** Cleaning up happens once *)

Section cleaned.

(** What a clean-up leaves behind. *)
Definition is_destroy (a : action) : bool :=
  match a with ASenderDestroy _ | AReceiverDestroy _ => true | _ => false end.
Definition is_access (a : action) : bool := match a with AAccessLog _ => true | _ => false end.
Definition count (p : action → bool) (w : world) : nat := length (filter (λ a, p a = true) (actions w)).

Record cleanup_view := mk_view {
  v_cleaned : bool; v_active : Z; v_listed : bool; v_filters : nat; v_destroyed : nat; v_logged : nat;
}.
Definition view (s : st) : cleanup_view :=
  mk_view (downstreamCleaned s.1) (requestActive s.2) (inActiveSteams s.2)
    (length (senderFilters s.1) + length (receiverFilters s.1)) (count is_destroy s.2) (count is_access s.2).

(** Not cleaned up: counted, listed, nothing destroyed or logged; cleaned up:
    the opposite, once. *)
Definition cleaned_once (n : nat) (v : cleanup_view) : Prop :=
  v_filters v = n ∧
  if v_cleaned v then v_active v = 0 ∧ v_listed v = false ∧ v_destroyed v = n ∧ v_logged v = accessLogs
  else v_active v = 1 ∧ v_listed v = true ∧ v_destroyed v = 0%nat ∧ v_logged v = 0%nat.

Context (J : cleanup_view → Prop).
Definition on_view (s : st) : Prop := J (view s).

Lemma on_view_ds f :
  (∀ d, downstreamCleaned (f d) = downstreamCleaned d ∧
        length (senderFilters (f d)) = length (senderFilters d) ∧
        length (receiverFilters (f d)) = length (receiverFilters d)) →
  keeps on_view (mod_ds f).
Proof.
  intros Hf. apply keeps_modify. intros [d w]. destruct (Hf d) as (E1 & E2 & E3).
  unfold on_view, view. cbn [fst snd]. by rewrite E1, E2, E3.
Qed.

Lemma on_view_w f :
  (∀ w, requestActive (f w) = requestActive w ∧ inActiveSteams (f w) = inActiveSteams w ∧ actions (f w) = actions w) →
  keeps on_view (mod_w (SF := SF) (RF := RF) f).
Proof.
  intros Hf. apply keeps_modify. intros [d w]. destruct (Hf w) as (E1 & E2 & E3).
  unfold on_view, view, count. cbn [fst snd]. by rewrite E1, E2, E3.
Qed.

Lemma on_view_emit a :
  is_destroy a = false → is_access a = false → keeps on_view (emit_action (SF := SF) (RF := RF) a).
Proof.
  intros H1 H2. apply keeps_modify. intros [d w]. unfold on_view, view, count. cbn [fst snd set_actions
    actions requestActive inActiveSteams].
  rewrite !filter_app, !length_app, !filter_cons, H1, H2, !decide_False, !filter_nil by done. simpl.
  by rewrite !Nat.add_0_r.
Qed.

Lemma on_view_get {A} (f : downStream SF RF → A) : keeps on_view (ds f).
Proof. intros s a s' H [= <- <-]. done. Qed.
Lemma on_view_env {A} (f : world → A) : keeps on_view (env (SF := SF) (RF := RF) f).
Proof. intros s a s' H [= <- <-]. done. Qed.

#[local] Hint Resolve on_view_get on_view_env : keeps.
#[local] Hint Extern 1 (keeps on_view (mod_ds _)) =>
  apply on_view_ds; intros ?; cbn; rewrite ?length_alter; done : keeps.
#[local] Hint Extern 1 (keeps on_view (mod_w _)) =>
  apply on_view_w; intros ?; cbn; done : keeps.
#[local] Hint Extern 1 (keeps on_view (emit_action _)) =>
  apply on_view_emit; reflexivity : keeps.

Lemma view_mod_info f : keeps on_view (mod_info f).
Proof. unfold mod_info; keeps_go. Qed.
Lemma view_mod_ur f : keeps on_view (mod_ur f).
Proof. unfold mod_ur; keeps_go. Qed.
Lemma view_Offer e : keeps on_view (Offer (SF := SF) (RF := RF) e).
Proof. unfold Offer. apply on_view_w. intros w. by destruct e. Qed.
Lemma view_buf_get b : keeps on_view (buf_get (SF := SF) (RF := RF) b).
Proof. unfold buf_get; keeps_go. Qed.
Lemma view_buf_put b d : keeps on_view (buf_put (SF := SF) (RF := RF) b d).
Proof. unfold buf_put; keeps_go. Qed.
#[local] Hint Resolve view_mod_info view_mod_ur view_Offer view_buf_get view_buf_put : keeps.
Lemma view_buf_new d : keeps on_view (buf_new (SF := SF) (RF := RF) d).
Proof. unfold buf_new; keeps_go. Qed.
Lemma view_newTimer cb i : keeps on_view (newTimer (SF := SF) (RF := RF) cb i).
Proof. unfold newTimer; keeps_go. Qed.
Lemma view_timer_stop i : keeps on_view (timer_stop (SF := SF) (RF := RF) i).
Proof. unfold timer_stop; keeps_go. Qed.
#[local] Hint Resolve view_buf_new view_newTimer view_timer_stop : keeps.
Lemma view_ur_resetStream : keeps on_view (ur_resetStream (SF := SF) (RF := RF)).
Proof. unfold ur_resetStream; keeps_go. Qed.
Lemma view_ur_OnReady n h : keeps on_view (ur_OnReady (SF := SF) (RF := RF) sentHeaders n h).
Proof. unfold ur_OnReady; keeps_go. Qed.
#[local] Hint Resolve view_ur_resetStream view_ur_OnReady : keeps.
Lemma view_ur_appendHeaders e : keeps on_view (ur_appendHeaders (SF := SF) (RF := RF) poolNewStream sentHeaders e).
Proof. unfold ur_appendHeaders, ur_OnFailure, ur_OnResetStream; keeps_go. Qed.
Lemma view_ur_appendData d e : keeps on_view (ur_appendData (SF := SF) (RF := RF) d e).
Proof. unfold ur_appendData; keeps_go. Qed.
Lemma view_ur_appendTrailers t : keeps on_view (ur_appendTrailers (SF := SF) (RF := RF) t).
Proof. unfold ur_appendTrailers; keeps_go. Qed.
Lemma view_retryState_reset : keeps on_view (retryState_reset (SF := SF) (RF := RF)).
Proof. unfold retryState_reset; keeps_go. Qed.
Lemma view_stop_perRetryTimer : keeps on_view (stop_perRetryTimer (SF := SF) (RF := RF)).
Proof. unfold stop_perRetryTimer; keeps_go. Qed.
Lemma view_stop_responseTimer : keeps on_view (stop_responseTimer (SF := SF) (RF := RF)).
Proof. unfold stop_responseTimer; keeps_go. Qed.
#[local] Hint Resolve view_ur_appendHeaders view_ur_appendData view_ur_appendTrailers view_retryState_reset
  view_stop_perRetryTimer view_stop_responseTimer : keeps.
Lemma view_cleanUp : keeps on_view (cleanUp (SF := SF) (RF := RF)).
Proof. unfold cleanUp; keeps_go. Qed.
#[local] Hint Resolve view_cleanUp : keeps.

(** Everything else keeps what a clean-up keeps. *)
Hypothesis Hclean : keeps on_view (cleanStream (SF := SF) (RF := RF) accessLogs).
#[local] Hint Resolve Hclean : keeps.

Lemma view_endStream : keeps on_view (endStream (SF := SF) (RF := RF) accessLogs).
Proof. unfold endStream, OnResetStream; keeps_go. Qed.
#[local] Hint Resolve view_endStream : keeps.
Lemma view_ds_ResetStream r : keeps on_view (ds_ResetStream (SF := SF) (RF := RF) accessLogs r).
Proof. unfold ds_ResetStream; keeps_go. Qed.
Lemma view_sf_handleBufferData b : keeps on_view (sf_handleBufferData (SF := SF) (RF := RF) b).
Proof. unfold sf_handleBufferData, buf_ReadFrom; keeps_go. Qed.
Lemma view_rf_handleBufferData b : keeps on_view (rf_handleBufferData (SF := SF) (RF := RF) b).
Proof. unfold rf_handleBufferData, buf_ReadFrom; keeps_go. Qed.
Lemma view_mod_sf i f : keeps on_view (mod_sf (SF := SF) (RF := RF) i f).
Proof. unfold mod_sf; keeps_go. Qed.
Lemma view_mod_rf i f : keeps on_view (mod_rf (SF := SF) (RF := RF) i f).
Proof. unfold mod_rf; keeps_go. Qed.
Lemma view_stage_on b : keeps on_view (stage_on (SF := SF) (RF := RF) b).
Proof. unfold stage_on; keeps_go. Qed.
Lemma view_stage_off b : keeps on_view (stage_off (SF := SF) (RF := RF) b).
Proof. unfold stage_off; keeps_go. Qed.
#[local] Hint Resolve view_ds_ResetStream view_sf_handleBufferData view_rf_handleBufferData view_mod_sf
  view_mod_rf view_stage_on view_stage_off : keeps.
Lemma view_doAppendHeaders i h e : keeps on_view (doAppendHeaders (SF := SF) (RF := RF) accessLogs i h e).
Proof. unfold doAppendHeaders, runAppendHeaderFilters; keeps_go. Qed.
#[local] Hint Resolve view_doAppendHeaders : keeps.

Lemma view_sender fuel :
  (∀ i d e, keeps on_view (runAppendDataFilters (SF := SF) (RF := RF) accessLogs fuel i d e)) ∧
  (∀ i t, keeps on_view (runAppendTrailersFilters (SF := SF) (RF := RF) accessLogs fuel i t)) ∧
  (∀ f d e, keeps on_view (doAppendData (SF := SF) (RF := RF) accessLogs fuel f d e)) ∧
  (∀ f t, keeps on_view (doAppendTrailers (SF := SF) (RF := RF) accessLogs fuel f t)) ∧
  (∀ i, keeps on_view (sf_doContinue (SF := SF) (RF := RF) accessLogs fuel i)).
Proof.
  induction fuel as [|fuel (IH1 & IH2 & IH3 & IH4 & IH5)]; [split_and!; intros; apply keeps_panic|].
  split_and!; intros; cbn; keeps_go.
Qed.

Lemma view_doAppendData fuel f d e : keeps on_view (doAppendData (SF := SF) (RF := RF) accessLogs fuel f d e).
Proof. apply view_sender. Qed.
Lemma view_doAppendTrailers fuel f t : keeps on_view (doAppendTrailers (SF := SF) (RF := RF) accessLogs fuel f t).
Proof. apply view_sender. Qed.
Lemma view_sf_doContinue fuel i : keeps on_view (sf_doContinue (SF := SF) (RF := RF) accessLogs fuel i).
Proof. apply view_sender. Qed.
#[local] Hint Resolve view_doAppendData view_doAppendTrailers view_sf_doContinue : keeps.

Lemma view_appendHeaders h e : keeps on_view (appendHeaders (SF := SF) (RF := RF) accessLogs h e).
Proof. unfold appendHeaders; keeps_go. Qed.
#[local] Hint Resolve view_appendHeaders : keeps.
Lemma view_sendHijackReply c h : keeps on_view (sendHijackReply (SF := SF) (RF := RF) accessLogs c h).
Proof. unfold sendHijackReply; keeps_go. Qed.
Lemma view_setupPerReqTimeout : keeps on_view (setupPerReqTimeout (SF := SF) (RF := RF)).
Proof. unfold setupPerReqTimeout; keeps_go. Qed.
#[local] Hint Resolve view_sendHijackReply view_setupPerReqTimeout : keeps.
Lemma view_onUpstreamRequestSent : keeps on_view (onUpstreamRequestSent (SF := SF) (RF := RF)).
Proof. unfold onUpstreamRequestSent; keeps_go. Qed.
Lemma view_initialize c b : keeps on_view (initializeUpstreamConnectionPool (SF := SF) (RF := RF)
  clusterGet connPoolFor UpstreamProtocol accessLogs c b).
Proof. unfold initializeUpstreamConnectionPool; keeps_go. Qed.
Lemma view_run_commands l : keeps on_view (run_commands (SF := SF) (RF := RF) accessLogs l).
Proof. induction l as [|c l IH]; cbn; [keeps_go|]. unfold run_command, sf_fuel, resetStream. keeps_go. Qed.
#[local] Hint Resolve view_onUpstreamRequestSent view_initialize view_run_commands : keeps.
Lemma view_doReceiveHeaders f e : keeps on_view (doReceiveHeaders (SF := SF) (RF := RF) Route clusterGet connPoolFor
  poolNewStream UpstreamProtocol conn_local conn_remote sentHeaders accessLogs f e).
Proof. unfold doReceiveHeaders, runReceiveHeadersFilters; keeps_go. Qed.
#[local] Hint Resolve view_doReceiveHeaders : keeps.

Lemma view_receiver fuel :
  (∀ i d e, keeps on_view (runReceiveDataFilters (SF := SF) (RF := RF) Route clusterGet connPoolFor poolNewStream
     UpstreamProtocol conn_local conn_remote sentHeaders accessLogs fuel i d e)) ∧
  (∀ i t, keeps on_view (runReceiveTrailersFilters (SF := SF) (RF := RF) Route clusterGet connPoolFor poolNewStream
     UpstreamProtocol conn_local conn_remote sentHeaders accessLogs fuel i t)) ∧
  (∀ f d e, keeps on_view (doReceiveData (SF := SF) (RF := RF) Route clusterGet connPoolFor poolNewStream
     UpstreamProtocol conn_local conn_remote sentHeaders accessLogs fuel f d e)) ∧
  (∀ f t, keeps on_view (doReceiveTrailers (SF := SF) (RF := RF) Route clusterGet connPoolFor poolNewStream
     UpstreamProtocol conn_local conn_remote sentHeaders accessLogs fuel f t)) ∧
  (∀ i, keeps on_view (rf_doContinue (SF := SF) (RF := RF) Route clusterGet connPoolFor poolNewStream
     UpstreamProtocol conn_local conn_remote sentHeaders accessLogs fuel i)).
Proof.
  induction fuel as [|fuel (IH1 & IH2 & IH3 & IH4 & IH5)]; [split_and!; intros; apply keeps_panic|].
  split_and!; intros; cbn; keeps_go.
Qed.

Lemma view_retry h r : keeps on_view (retry (SF := SF) (RF := RF) rand h r).
Proof. unfold retry, scheduleRetry; keeps_go. Qed.
#[local] Hint Resolve view_retry : keeps.
Lemma view_try_retry h r e : keeps on_view (try_retry (SF := SF) (RF := RF) rand h r e).
Proof. unfold try_retry, setupRetry; keeps_go. Qed.
#[local] Hint Resolve view_try_retry : keeps.
Lemma view_onUpstreamReset u r : keeps on_view (onUpstreamReset (SF := SF) (RF := RF) rand accessLogs u r).
Proof. unfold onUpstreamReset, resetStream; keeps_go. Qed.
#[local] Hint Resolve view_onUpstreamReset : keeps.
Lemma view_onUpstreamResponseRecvFinished :
  keeps on_view (onUpstreamResponseRecvFinished (SF := SF) (RF := RF)).
Proof. unfold onUpstreamResponseRecvFinished; keeps_go. Qed.
#[local] Hint Resolve view_onUpstreamResponseRecvFinished : keeps.

Lemma view_handle_event e : keeps on_view (handle_event (SF := SF) (RF := RF) Route clusterGet connPoolFor
  poolNewStream UpstreamProtocol conn_local conn_remote sentHeaders rand accessLogs e).
Proof.
  pose proof view_receiver as Hr. destruct e as [| |[] ?|[] ? ?|[] ? ?|[] ?]; cbn [handle_event];
    unfold ur_ResetStream, ReceiveHeaders, ur_ReceiveHeaders, onUpstreamHeaders, check_retry,
      ReceiveData, ur_ReceiveData, onUpstreamData, ReceiveTrailers, ur_ReceiveTrailers, onUpstreamTrailers,
      appendData, appendTrailers, rf_fuel, sf_fuel; keeps_go; by apply Hr.
Qed.
#[local] Hint Resolve view_handle_event : keeps.

Lemma view_exec i : keeps on_view (run_exec i).
Proof.
  pose proof view_receiver as Hr.
  destruct i; cbn [exec]; unfold OnReceiveHeaders, OnReceiveData, OnReceiveTrailers, OnDecodeError, OnResetStream,
    ur_OnReceiveHeaders, ur_OnReceiveData, ur_OnReceiveTrailers, ur_OnDecodeError, ur_OnResetStream,
    eventDispatch, eventProcess, timer_fire, onResponseTimeout, onPerReqTimeout, count_timeout, doRetry,
    ContinueDecoding, ContinueEncoding, rf_fuel, sf_fuel; keeps_go; by apply Hr.
Qed.
End cleaned.

Lemma keeps_all (I : st → Prop) l : (∀ i, keeps I (run_exec i)) → keeps I (run_all l).
Proof. intros H. induction l; cbn; [apply keeps_ret|]. apply keeps_bind; [apply H|intros _; done]. Qed.

Lemma count_emit p a (w : world) :
  count p (set_actions (actions w ++ [a]) w) = (count p w + if p a then 1 else 0)%nat.
Proof.
  unfold count. cbn. rewrite filter_app, length_app, filter_cons, filter_nil.
  by destruct (p a); [rewrite decide_True by done|rewrite decide_False by done].
Qed.

Lemma destroy_all_counts mk i n s :
  (∀ j, is_destroy (mk j) = true) → (∀ j, is_access (mk j) = false) →
  ∃ w', destroy_all (SF := SF) (RF := RF) mk i n s = Ret (tt, (s.1, w')) ∧
    count is_destroy w' = (count is_destroy s.2 + n)%nat ∧ count is_access w' = count is_access s.2 ∧
    requestActive w' = requestActive s.2 ∧ inActiveSteams w' = inActiveSteams s.2.
Proof.
  intros Hd Ha. revert i s. induction n as [|n IH]; intros i [d w]; cbn [destroy_all].
  - eexists; split_and!; [reflexivity|..]; simpl; lia || done.
  - destruct (IH (S i) (d, set_actions (actions w ++ [mk i]) w)) as (w' & E & E1 & E2 & E3 & E4).
    cbn [fst snd] in *. rewrite !count_emit, Hd, Ha in *. eexists. split_and!; [exact E|..]; simpl in *; lia || done.
Qed.

Lemma log_access_counts n s :
  ∃ w', log_access (SF := SF) (RF := RF) n s = Ret (tt, (s.1, w')) ∧
    count is_destroy w' = count is_destroy s.2 ∧ count is_access w' = (count is_access s.2 + n)%nat ∧
    requestActive w' = requestActive s.2 ∧ inActiveSteams w' = inActiveSteams s.2.
Proof.
  revert s. induction n as [|n IH]; intros [d w]; cbn [log_access].
  - eexists; split_and!; [reflexivity|..]; simpl; lia || done.
  - destruct (IH (d, set_actions (actions w ++ [AAccessLog (request_info d)]) w)) as (w' & E & E1 & E2 & E3 & E4).
    cbn [fst snd] in *. rewrite !count_emit in *. eexists. split_and!; [exact E|..]; simpl in *; lia || done.
Qed.

(** The view after a computation that does not touch it. *)
Lemma view_same {A} (m : SG st A) s a s' :
  (∀ J, keeps (on_view J) m) → m s = Ret (a, s') → view s' = view s.
Proof. intros H E. by apply (H (λ v, v = view s) s a s'). Qed.

Lemma deleteActiveStream_counts s s' :
  deleteActiveStream (SF := SF) (RF := RF) s = Ret (tt, s') →
  ∃ w, s' = (s.1, set_inActiveSteams false w) ∧ count is_destroy w = count is_destroy s.2 ∧
    count is_access w = count is_access s.2 ∧ requestActive w = requestActive s.2.
Proof.
  destruct s as [d w]. unfold deleteActiveStream, give_headers, give_buffer, emit_action, ds, mbind, SG_bind, mod_w,
    mret, SG_ret, sg_modify. cbn [fst snd].
  destruct (downstreamReqHeaders d); cbn [fst snd];
  destruct (option_bind _ _ upstreamRespHeaders (upstream_request d)); cbn [fst snd];
  destruct (downstreamReqDataBuf d); cbn [fst snd]; destruct (downstreamRespDataBuf d); cbn [fst snd];
    intros [= <-]; eexists; (split; [reflexivity|]);
    unfold count; cbn [actions set_actions]; rewrite ?filter_app, ?length_app; split_and!; simpl; lia || done.
Qed.

Lemma cleanStream_once n : keeps (on_view (cleaned_once n)) (cleanStream (SF := SF) (RF := RF) accessLogs).
Proof.
  intros [d w] [] s' HI E. unfold cleanStream in E.
  destruct (downstreamCleaned d) eqn:Hc; unfold ds, mbind, SG_bind in E; cbn [fst] in E; rewrite Hc in E.
  { by injection E as <-. }
  destruct HI as [Hn HI]. unfold view in HI, Hn. cbn in HI, Hn. rewrite Hc in HI. destruct HI as (Ha & Hl & Hd & Hg).
  unfold mod_ds at 1, sg_modify at 1 in E. cbn [fst snd] in E.
  set (s1 := (set_downstreamCleaned true d, w)) in E.
  destruct (sg_when _ _ s1) as [[[] s2]|] eqn:E2; [|done].
  apply view_same in E2; [|intros J; apply keeps_when, view_ur_resetStream].
  destruct (cleanUp s2) as [[[] s3]|] eqn:E3; [|done].
  apply view_same in E3; [|intros J; apply view_cleanUp].
  destruct (destroy_all_counts ASenderDestroy 0 (length (senderFilters s3.1)) s3) as (w4 & E4 & D1 & D2 & D3 & D4);
    [done..|]. rewrite E4 in E. cbn [fst snd] in E.
  destruct (destroy_all_counts AReceiverDestroy 0 (length (receiverFilters s3.1)) (s3.1, w4))
    as (w5 & E5 & F1 & F2 & F3 & F4); [done..|]. rewrite E5 in E. cbn [fst snd] in *.
  unfold mod_w at 1, sg_modify in E. cbn [fst snd] in E.
  destruct (log_access_counts accessLogs (s3.1, set_requestActive (requestActive w5 - 1) w5))
    as (w6 & E6 & G1 & G2 & G3 & G4). rewrite E6 in E. cbn [fst snd] in *.
  unfold Offer, mod_w, sg_modify in E. cbn [fst snd] in E.
  apply deleteActiveStream_counts in E as (w7 & -> & H1 & H2 & H3). cbn [fst snd] in H1, H2, H3.
  rewrite E2 in E3. unfold view in E3. cbn in E3. injection E3 as V1 V2 V3 V4 V5 V6.
  unfold on_view, cleaned_once, view. cbn. rewrite V1. unfold count in *. cbn in *. split_and!; lia || done.
Qed.

Lemma cleaned_once_run now sfs rfs stats res inputs s :
  run_all inputs (proxy_NewStream now sfs rfs stats res) = Ret (tt, s) →
  cleaned_once (length sfs + length rfs) (view s).
Proof.
  apply (keeps_all (on_view (cleaned_once (length sfs + length rfs)))).
  - intros i. apply view_exec, cleanStream_once.
  - split; [|done]. cbn. by rewrite !length_fmap.
Qed.

(** C6. However a stream, its filters, its timers and its worker interleave,
    the stream is cleaned up at most once: as long as it is not, it counts as
    active and is in the proxy's list, no filter was destroyed and nothing was
    logged; afterwards every filter was destroyed once, every access log
    written once, and it is neither counted nor listed. *)
Theorem stream_cleaned_once now sfs rfs stats res inputs s :
  run_all inputs (proxy_NewStream now sfs rfs stats res) = Ret (tt, s) →
  cleaned_once (length sfs + length rfs) (view s).
Proof. apply cleaned_once_run. Qed.

End proxy_props.
