(* ===== verification/ProxyLife.v ===== *)
(** * One answer per request

    A stream without filters whose routes do not retry: whatever the order of
    network events, timers and the worker, the response is ended at most once,
    and when it was no timer of the request is left running.  The stream layer
    is assumed to behave: nothing of the request comes after its end, callbacks
    of the upstream request come when there is one, and an undecodable request
    is reported before anything else of it. *)

From S2P Require Import Prelude Strconv Serialize BoltTypes Protocols Stream Cluster StateGo ProxyState Proxy ProxyProps.

Local Open Scope Z_scope.

Create HintDb stills.

#[local] Abbreviation ES := Empty_set.
#[local] Abbreviation stream := (downStream ES ES).
#[local] Abbreviation st := (downStream ES ES * world)%type.

Section ends.
  Context (accessLogs : nat).

Lemma no_filters (l : list (activeStreamFilter ES)) : l = [].
Proof. destruct l as [|f l]; [done|]. destruct (af_filter f). Qed.

(** ** What is watched *)

Definition ends_response (a : action) : bool :=
  match a with ARespHeaders _ true | ARespData _ true | ARespTrailers _ => true | _ => false end.
Definition ends (w : world) : nat := count ends_response w.
(** The control events that follow the start of a stream. *)
Definition ctl (e : stream_event) : bool := match e with stopEvent | resetEvent _ _ => true | _ => false end.

Definition noretry (d : stream) : Prop :=
  ∀ r, retry_state d = Some r → retryOn r = false ∧ retryFunc r = false.
Definition quiet (w : world) : Prop := ∀ i t, timers w !! i = Some t → t_stopped t = true.
(** The running timers are the two the stream knows. *)
Definition tracked (d : stream) (w : world) : Prop :=
  ∀ i t, timers w !! i = Some t → t_stopped t = false →
    (t_callback t = CB_onResponseTimeout ∧ responseTimer d = Some i) ∨
    (t_callback t = CB_onPerReqTimeout ∧ perRetryTimer d = Some i).

Lemma quiet_tracked d w : quiet w → tracked d w.
Proof. intros H i t Ht Hr. by rewrite (H i t Ht) in Hr. Qed.

(** What the end of a stream leaves alone. *)
Record frame (d d' : stream) (w w' : world) : Prop := {
  f_recv : downstreamRecvDone d' = downstreamRecvDone d;
  f_ureset : upstreamReset d' = upstreamReset d;
  f_req : upstream_request d' = None ↔ upstream_request d = None;
  f_started : downstreamResponseStarted d' = downstreamResponseStarted d;
  f_jobs : jobChan w' = jobChan w;
  f_map : streamMap w' = streamMap w;
  f_retry : noretry d → noretry d';
}.

Lemma frame_trans d1 d2 d3 w1 w2 w3 : frame d1 d2 w1 w2 → frame d2 d3 w2 w3 → frame d1 d3 w1 w3.
Proof. intros [] []. split; try congruence; [|by auto]. etrans; eassumption. Qed.

Lemma set_retry_state_id r (d : stream) : retry_state d = Some r → set_retry_state (Some r) d = d.
Proof. destruct d; cbn. by intros ->. Qed.
Lemma set_retries_res_id w : set_retries_res (retries_res w) w = w.
Proof. by destruct w. Qed.

Definition stop_opt (o : option nat) (ts : list timer) : list timer :=
  match o with Some i => alter stop_timer i ts | None => ts end.

Lemma stop_opt_lookup o ts i t :
  stop_opt o ts !! i = Some t → t_stopped t = false → ts !! i = Some t ∧ o ≠ Some i.
Proof.
  destruct o as [j|]; cbn; [|done]. destruct (decide (j = i)) as [->|Hne].
  - rewrite list_lookup_alter_eq. destruct (ts !! i); cbn; [|done]. by intros [= <-].
  - rewrite list_lookup_alter_ne by done. intros; split; [done|congruence].
Qed.

Lemma retryState_reset_id d w : noretry d → retryState_reset (d, w) = Ret (tt, (d, w)).
Proof.
  intros Hn. unfold retryState_reset, ds, env, mbind, SG_bind. cbn [fst snd].
  destruct (retry_state d) as [r|] eqn:E; [|done]. destruct (Hn r E) as [_ Hf].
  unfold retry_reset, mod_ds, mod_w, sg_modify. rewrite Hf. cbn [fst snd].
  by rewrite set_retry_state_id, set_retries_res_id.
Qed.

Definition cleaned_ds (d : stream) : stream :=
  set_responseTimer None (set_perRetryTimer None (set_upstream_request (set_requestSender None <$> upstream_request d) d)).
Definition cleaned_w (d : stream) (w : world) : world :=
  set_timers (stop_opt (responseTimer d) (stop_opt (perRetryTimer d) (timers w))) w.

Lemma cleanUp_run d w : noretry d → cleanUp (d, w) = Ret (tt, (cleaned_ds d, cleaned_w d w)).
Proof.
  intros Hn. unfold cleanUp, mod_ur, mod_ds, sg_modify, mbind, SG_bind. cbn [fst snd].
  rewrite retryState_reset_id by done.
  unfold stop_perRetryTimer, stop_responseTimer, timer_stop, ds, mod_ds, mod_w, sg_modify, mbind, SG_bind, mret, SG_ret.
  cbn [fst snd]. unfold cleaned_ds, cleaned_w. destruct d, w. cbn. destruct perRetryTimer, responseTimer; reflexivity.
Qed.

Lemma cleanUp_spec d w : noretry d → tracked d w →
  ∃ d' w', cleanUp (d, w) = Ret (tt, (d', w')) ∧ frame d d' w w' ∧ quiet w' ∧
    upstreamProcessDone d' = upstreamProcessDone d ∧ downstreamCleaned d' = downstreamCleaned d ∧
    ctrlChan w' = ctrlChan w ∧ ends w' = ends w.
Proof.
  intros Hn Ht. exists (cleaned_ds d), (cleaned_w d w). split; [by apply cleanUp_run|]. split; [|split; [|done]].
  - split; try done. cbn. by destruct (upstream_request d).
  - intros i t Hi. destruct (t_stopped t) eqn:E; [done|]. cbn in Hi.
    apply stop_opt_lookup in Hi as [Hi H1]; [|done]. apply stop_opt_lookup in Hi as [Hi H2]; [|done].
    destruct (Ht i t Hi E) as [[_ ?]|[_ ?]]; done.
Qed.

Definition rst (e : stream_event) : bool := match e with resetEvent _ _ => true | _ => false end.
Lemma rst_ctl l : Forall (λ e, rst e = true) l → Forall (λ e, ctl e = true) l.
Proof. intros H. eapply Forall_impl; [exact H|]. intros []; done. Qed.

(** ** Computations that only add to the log *)

Definition logs_only {A} (m : SG st A) : Prop :=
  ∀ d w a s', m (d, w) = Ret (a, s') →
    ∃ acts, s' = (d, set_actions (actions w ++ acts)%list w) ∧ Forall (λ x, ends_response x = false) acts.

Lemma set_actions_nil w : set_actions (actions w ++ [])%list w = w.
Proof. rewrite app_nil_r. by destruct w. Qed.
Lemma set_actions_app w l k :
  set_actions (actions (set_actions (actions w ++ l) w) ++ k) (set_actions (actions w ++ l) w)
  = set_actions (actions w ++ (l ++ k))%list w.
Proof. cbn. by rewrite app_assoc. Qed.

Lemma logs_ret {A} (a : A) : logs_only (mret a).
Proof. intros d w b s' [= <- <-]. exists []. by rewrite set_actions_nil. Qed.
Lemma logs_ds {A} (f : stream → A) : logs_only (ds f).
Proof. intros d w b s' [= <- <-]. exists []. by rewrite set_actions_nil. Qed.
Lemma logs_deref {A} (o : option A) : logs_only (sg_deref o).
Proof. destruct o; [apply logs_ret|by intros d w b s']. Qed.
Lemma logs_bind {A B} (m : SG st A) (f : A → SG st B) :
  logs_only m → (∀ a, logs_only (f a)) → logs_only (m ≫= f).
Proof.
  intros Hm Hf d w b s' E. apply sg_bind_Ret_inv in E as (a & s1 & E1 & E2).
  apply Hm in E1 as (l & -> & Hl). apply Hf in E2 as (k & -> & Hk). exists (l ++ k)%list.
  rewrite set_actions_app. split; [done|]. by apply Forall_app.
Qed.
Lemma logs_emit a : ends_response a = false → logs_only (emit_action a).
Proof. intros Ha d w b s' [= <- <-]. exists [a]. by rewrite Forall_singleton. Qed.
Lemma logs_when b m : logs_only m → logs_only (sg_when b m).
Proof. destruct b; [done|intros; apply logs_ret]. Qed.

Ltac logs_go :=
  lazymatch goal with
  | |- ∀ _, _ => intro; logs_go
  | |- logs_only (_ ≫= _) => apply logs_bind; logs_go
  | |- logs_only (match ?x with _ => _ end) => destruct x; logs_go
  | |- logs_only (sg_when _ _) => apply logs_when; logs_go
  | |- logs_only (emit_action _) => apply logs_emit; done
  | |- logs_only (ds _) => apply logs_ds
  | |- logs_only (mret _) => apply logs_ret
  | |- logs_only (sg_deref _) => apply logs_deref
  | |- _ => idtac
  end.

Lemma logs_ur_resetStream : logs_only ur_resetStream.
Proof. unfold ur_resetStream. logs_go. Qed.
Lemma logs_destroy_all mk i n : (∀ j, ends_response (mk j) = false) → logs_only (destroy_all mk i n).
Proof. intros H. revert i. induction n; intros i; cbn; [apply logs_ret|]. apply logs_bind; [by apply logs_emit|auto]. Qed.
Lemma logs_log_access n : logs_only (log_access n).
Proof. induction n; cbn; logs_go. done. Qed.
Lemma logs_give_headers o : logs_only (give_headers o).
Proof. unfold give_headers. logs_go. Qed.
Lemma logs_give_buffer o : logs_only (give_buffer o).
Proof. unfold give_buffer. logs_go. Qed.

Lemma ends_app w l : ends (set_actions (actions w ++ l)%list w) = (ends w + length (filter (λ a, ends_response a = true) l))%nat.
Proof. unfold ends, count. cbn. by rewrite filter_app, length_app. Qed.

Lemma no_ends l : Forall (λ x, ends_response x = false) l → filter (λ a, ends_response a = true) l = [].
Proof. induction 1 as [|x l Hx Hl IH]; [done|]. rewrite filter_cons, decide_False; [done|congruence]. Qed.

Lemma cleanStream_spec d w s' : noretry d → tracked d w →
  cleanStream accessLogs (d, w) = Ret (tt, s') →
  ∃ d' w', s' = (d', w') ∧ frame d d' w w' ∧ (downstreamCleaned d = false ∨ quiet w → quiet w') ∧
    upstreamProcessDone d' = upstreamProcessDone d ∧ downstreamCleaned d' = true ∧ ends w' = ends w ∧
    ctrlChan w' = (if downstreamCleaned d then ctrlChan w else ctrlChan w ++ [stopEvent])%list.
Proof.
  intros Hn Ht E. unfold cleanStream in E.
  apply sg_bind_Ret_inv in E as (c & ? & [= <- <-] & E). cbn [fst] in E.
  destruct (downstreamCleaned d) eqn:Hc.
  { injection E as <-. exists d, w. split_and!; try done. naive_solver. }
  apply sg_bind_Ret_inv in E as (? & ? & [= <- <-] & E).
  apply sg_bind_Ret_inv in E as (r & ? & [= <- <-] & E).
  apply sg_bind_Ret_inv in E as ([] & s1 & E1 & E). cbn [fst snd] in E1.
  apply (logs_when _ _ logs_ur_resetStream) in E1 as (l1 & -> & Hl1).
  apply sg_bind_Ret_inv in E as ([] & s2 & E2 & E).
  destruct (cleanUp_spec (set_downstreamCleaned true d) (set_actions (actions w ++ l1) w))
    as (d2 & w2 & E2' & F2 & Hq & Hdone & Hcl & Hctrl & Hends); [done..|].
  rewrite E2 in E2'. injection E2' as ->.
  apply sg_bind_Ret_inv in E as (sfs & ? & [= <- <-] & E).
  apply sg_bind_Ret_inv in E as ([] & s3 & E3 & E).
  apply logs_destroy_all in E3 as (l3 & -> & Hl3); [|done].
  apply sg_bind_Ret_inv in E as (rfs & ? & [= <- <-] & E).
  apply sg_bind_Ret_inv in E as ([] & s4 & E4 & E).
  apply logs_destroy_all in E4 as (l4 & -> & Hl4); [|done]. rewrite set_actions_app in E.
  apply sg_bind_Ret_inv in E as (? & ? & [= <- <-] & E). cbn [fst snd] in E.
  apply sg_bind_Ret_inv in E as ([] & s5 & E5 & E).
  apply logs_log_access in E5 as (l5 & -> & Hl5).
  apply sg_bind_Ret_inv in E as (? & ? & [= <- <-] & E). cbn [fst snd] in E.
  unfold deleteActiveStream in E. do 8 (apply sg_bind_Ret_inv in E as (? & ? & ? & E)).
  repeat match goal with
  | H : ds _ _ = Ret _ |- _ => injection H as <- <-
  | H : give_headers _ _ = Ret _ |- _ => apply logs_give_headers in H as (? & -> & ?)
  | H : give_buffer _ _ = Ret _ |- _ => apply logs_give_buffer in H as (? & -> & ?)
  end.
  injection E as <-. eexists _, _. split; [reflexivity|]. cbn [fst snd].
  split_and!.
  - destruct F2. split; cbn in *; congruence || naive_solver.
  - intros _. done.
  - done.
  - done.
  - transitivity (ends w2); [|rewrite Hends, ends_app, no_ends by done; simpl; lia].
    unfold ends, count. cbn. rewrite !filter_app.
    repeat match goal with H : Forall _ _ |- _ => rewrite (no_ends _ H); clear H end. by rewrite !app_nil_r.
  - cbn in *. by rewrite Hctrl.
Qed.

(** ** The end of the response *)

Record ended (d d' : stream) (w w' : world) : Prop := {
  e_frame : frame d d' w w';
  e_quiet : quiet w';
  e_done : upstreamProcessDone d' = true;
  e_ctrl : (downstreamCleaned d = true ∧ ctrlChan w' = ctrlChan w) ∨
           ∃ e, ctl e = true ∧ ctrlChan w' = (ctrlChan w ++ [e])%list;
  e_cleaned : downstreamCleaned d' = true →
    downstreamCleaned d = true ∨ downstreamRecvDone d = true ∧ stopEvent ∈ ctrlChan w';
  e_reset : downstreamRecvDone d = false →
    ctrlChan w' = (ctrlChan w ++ [resetEvent Downstream StreamLocalReset])%list;
}.

Lemma ended_after d1 d2 d3 w1 w2 w3 :
  frame d1 d2 w1 w2 → downstreamCleaned d2 = downstreamCleaned d1 → ctrlChan w2 = ctrlChan w1 →
  ended d2 d3 w2 w3 → ended d1 d3 w1 w3.
Proof.
  intros F Hc Hw []. split; [by eapply frame_trans|done|done|by rewrite <- Hc, <- Hw| |].
  - by rewrite <- Hc, <- (f_recv _ _ _ _ F).
  - by rewrite <- Hw, <- (f_recv _ _ _ _ F).
Qed.

Lemma endStream_spec d w s' : noretry d → quiet w → endStream accessLogs (d, w) = Ret (tt, s') →
  ∃ d' w', s' = (d', w') ∧ ended d d' w w' ∧ ends w' = ends w.
Proof.
  intros Hn Hq E. unfold endStream in E.
  apply sg_bind_Ret_inv in E as (b1 & ? & [= <- <-] & E).
  apply sg_bind_Ret_inv in E as (b2 & ? & [= <- <-] & E). cbn [fst] in E.
  destruct (negb _ || negb _) eqn:Hb.
  - apply sg_bind_Ret_inv in E as (? & ? & [= <- <-] & E).
    apply sg_bind_Ret_inv in E as (? & ? & E1 & E). apply logs_emit in E1 as (l & -> & Hl); [|done].
    injection E as <-. eexists _, _; split; [reflexivity|]. cbn [fst snd]. split.
    + split; [by split|done|done| |by left|done]. right. by exists (resetEvent Downstream StreamLocalReset).
    + change (ends (set_actions (actions w ++ l) w) = ends w). rewrite ends_app, no_ends by done. simpl. lia.
  - apply cleanStream_spec in E as (d' & w' & -> & F & Hq' & Hdone & Hc & He & Hctrl); [|done|by apply quiet_tracked].
    eexists _, _; split; [reflexivity|]. split; [|done]. split; [done|auto| | | |].
    + rewrite Hdone. by destruct (upstreamProcessDone d), (downstreamRecvDone d).
    + destruct (downstreamCleaned d); [by left|]. right. by exists stopEvent.
    + intros _. rewrite Hctrl. destruct (downstreamCleaned d); [by left|right].
      split; [by destruct (downstreamRecvDone d)|set_solver].
    + intros Hr. by rewrite Hr in Hb.
Qed.

(** A reply, or part of one. *)
Lemma doAppendHeaders_spec d w h e s' : noretry d → (e = true → quiet w) →
  doAppendHeaders accessLogs None h e (d, w) = Ret (tt, s') →
  ∃ d' w', s' = (d', w') ∧
    if e then ended d d' w w' ∧ ends w' = S (ends w)
    else d' = d ∧ ∃ a, w' = set_actions (actions w ++ [a])%list w ∧ ends_response a = false.
Proof.
  intros Hn Hq E. unfold doAppendHeaders, runAppendHeaderFilters in E.
  apply sg_bind_Ret_inv in E as ([stop h'] & s1 & E1 & E).
  apply sg_bind_Ret_inv in E1 as (fs & ? & [= <- <-] & E1). cbn [fst] in E1.
  rewrite (no_filters (senderFilters d)) in E1. injection E1 as <- <- <-.
  apply sg_bind_Ret_inv in E as (? & ? & [= <- <-] & E). cbn [fst snd] in E. destruct e; cbn [sg_when] in E.
  - apply endStream_spec in E as (d' & w' & -> & F & He); [|done|by intros i t ?; eapply Hq].
    eexists _, _; split; [reflexivity|]. split; [|by rewrite He, ends_app; simpl; lia].
    eapply ended_after; [..|exact F]; done.
  - injection E as <-. eexists _, _; split; [reflexivity|]. split; [done|]. by eexists.
Qed.

Lemma appendHeaders_spec d w h e s' : noretry d → (e = true → quiet w) →
  appendHeaders accessLogs h e (d, w) = Ret (tt, s') →
  ∃ d' w', s' = (d', w') ∧
    if e then ended d d' w w' ∧ ends w' = S (ends w)
    else d' = set_upstreamProcessDone false d ∧ ∃ a, w' = set_actions (actions w ++ [a])%list w ∧ ends_response a = false.
Proof.
  intros Hn Hq E. unfold appendHeaders in E. apply sg_bind_Ret_inv in E as (? & ? & [= <- <-] & E). cbn [fst snd] in E.
  apply doAppendHeaders_spec in E as (d' & w' & -> & H); [|done..]. eexists _, _; split; [reflexivity|].
  destruct e; [|done]. destruct H as [H ?]. split; [|done]. eapply ended_after; [..|exact H]; done.
Qed.

Lemma sendHijackReply_spec d w c h s' : noretry d → quiet w →
  sendHijackReply accessLogs c h (d, w) = Ret (tt, s') →
  ∃ d' w', s' = (d', w') ∧ ended d d' w w' ∧ ends w' = S (ends w).
Proof.
  intros Hn Hq E. unfold sendHijackReply in E. destruct h as [|h].
  - apply sg_bind_Ret_inv in E as (o & ? & [= <- <-] & E). cbn [fst] in E. destruct (downstreamReqHeaders d) as [h|].
    + apply sg_bind_Ret_inv in E as (? & ? & [= <- <-] & E). cbn [fst snd] in E.
      apply appendHeaders_spec in E as (d' & w' & -> & H & He); [|done..]. eexists _, _; split; [reflexivity|].
      split; [|done]. eapply ended_after; [..|exact H]; done.
    + by apply appendHeaders_spec in E as (d' & w' & -> & H & He); [eauto|..].
  - by apply appendHeaders_spec in E as (d' & w' & -> & H & He); [eauto|..].
Qed.

End ends.

(** ** Steps that do not end anything *)

Record still (d d' : stream) (w w' : world) : Prop := {
  s_recv : downstreamRecvDone d' = downstreamRecvDone d;
  s_cleaned : downstreamCleaned d' = downstreamCleaned d;
  s_ureset : upstreamReset d' = upstreamReset d;
  s_pt : perRetryTimer d' = perRetryTimer d;
  s_rt : responseTimer d' = responseTimer d;
  s_retry : noretry d → noretry d';
  s_timers : timers w' = timers w;
  s_ends : ends w' = ends w;
  s_jobs : jobChan w' = jobChan w;
  s_map : streamMap w' = streamMap w;
  s_ctrl : ∃ l, ctrlChan w' = (ctrlChan w ++ l)%list ∧ Forall (λ e, rst e = true) l;
}.

Lemma still_refl d w : still d d w w.
Proof. split; try done. exists []. rewrite app_nil_r. split; [done|constructor]. Qed.
Lemma still_trans d1 d2 d3 w1 w2 w3 : still d1 d2 w1 w2 → still d2 d3 w2 w3 → still d1 d3 w1 w3.
Proof.
  intros [] []. split; try congruence; [by auto|].
  destruct s_ctrl0 as (l & Hl & ?), s_ctrl1 as (k & Hk & ?). exists (l ++ k)%list.
  rewrite app_assoc, <- Hl. split; [done|by apply Forall_app].
Qed.

Definition stills {A} (m : SG st A) : Prop := ∀ d w a s', m (d, w) = Ret (a, s') → still d s'.1 w s'.2.

Lemma stills_bind {A B} (m : SG st A) (f : A → SG st B) : stills m → (∀ a, stills (f a)) → stills (m ≫= f).
Proof.
  intros Hm Hf d w b s' E. apply sg_bind_Ret_inv in E as (a & [d1 w1] & E1 & E2).
  apply Hm in E1. apply Hf in E2. by eapply still_trans.
Qed.
Lemma stills_ret {A} (a : A) : stills (mret a).
Proof. intros d w b s' [= <- <-]. apply still_refl. Qed.
Lemma stills_ds {A} (f : stream → A) : stills (ds f).
Proof. intros d w b s' [= <- <-]. apply still_refl. Qed.
Lemma stills_env {A} (f : world → A) : stills (env f).
Proof. intros d w b s' [= <- <-]. apply still_refl. Qed.
Lemma stills_deref {A} (o : option A) : stills (sg_deref o).
Proof. destruct o; [apply stills_ret|by intros d w b s']. Qed.
Lemma stills_lift {A} (m : Go A) : stills (sg_lift m).
Proof. intros d w b s' E. unfold sg_lift in E. destruct m; [|done]. injection E as <- <-. apply still_refl. Qed.
Lemma stills_when b m : stills m → stills (sg_when b m).
Proof. destruct b; [done|intros; apply stills_ret]. Qed.
Lemma stills_mod_ds f : (∀ d w, still d (f d) w w) → stills (mod_ds f).
Proof. intros H d w b s' [= <- <-]. apply H. Qed.
Lemma stills_mod_w f : (∀ d w, still d d w (f w)) → stills (mod_w f).
Proof. intros H d w b s' [= <- <-]. apply H. Qed.
Lemma stills_logs {A} (m : SG st A) : logs_only m → stills m.
Proof.
  intros H d w a s' E. apply H in E as (l & -> & Hl). split; try done.
  - cbn [snd]. rewrite ends_app, no_ends by done. simpl. lia.
  - exists []. rewrite app_nil_r. split; [done|constructor].
Qed.
Lemma stills_Offer e :
  match e with resetEvent _ _ => True | _ => False end → stills (Offer e).
Proof.
  intros He. apply stills_mod_w. intros d w. destruct e; try done; split; try done; cbn; (eexists; split; [done|by repeat constructor]).
Qed.

Ltac stills_go :=
  lazymatch goal with
  | |- ∀ _, _ => intro; stills_go
  | |- stills (_ ≫= _) => apply stills_bind; stills_go
  | |- stills (match ?x with _ => _ end) => destruct x; stills_go
  | |- stills (sg_when _ _) => apply stills_when; stills_go
  | |- stills (ds _) => apply stills_ds
  | |- stills (env _) => apply stills_env
  | |- stills (mret _) => apply stills_ret
  | |- stills (sg_deref _) => apply stills_deref
  | |- stills (sg_lift _) => apply stills_lift
  | |- stills (emit_action _) => apply stills_logs, logs_emit; done
  | |- stills (mod_ds _) =>
    apply stills_mod_ds; intros ? ?; split; try done; exists []; rewrite app_nil_r; (split; [done|constructor])
  | |- stills (mod_w _) =>
    apply stills_mod_w; intros ? ?; split; try done; exists []; rewrite app_nil_r; (split; [done|constructor])
  | |- stills (mod_info _) => unfold mod_info; stills_go
  | |- stills (mod_ur _) => unfold mod_ur; stills_go
  | |- stills (Offer _) => apply stills_Offer; done
  | |- _ => auto with stills
  end.

Section life.
  Context (Route : option header_map → option RouteRule)
          (clusterGet : string → bool)
          (connPoolFor : string → string → bool → nat → option nat)
          (poolNewStream : nat → string → nat → poolOutcome)
          (UpstreamProtocol : string) (conn_local conn_remote : string)
          (sentHeaders : header_map → header_map)
          (rand : nat → nat) (accessLogs : nat).

  Abbreviation run_exec := (exec (SF := ES) (RF := ES) Route clusterGet connPoolFor poolNewStream UpstreamProtocol
    conn_local conn_remote sentHeaders rand accessLogs).

Lemma stills_buf_new b : stills (buf_new b).
Proof. unfold buf_new, buf_put. stills_go. Qed.
Lemma stills_ur_appendHeaders e : stills (ur_appendHeaders poolNewStream sentHeaders e).
Proof. unfold ur_appendHeaders, ur_OnFailure, ur_OnResetStream, ur_OnReady. stills_go. Qed.
Lemma stills_ur_appendData d e : stills (ur_appendData d e).
Proof. unfold ur_appendData, buf_get. stills_go. Qed.
Lemma stills_ur_appendTrailers t : stills (ur_appendTrailers t).
Proof. unfold ur_appendTrailers. stills_go. Qed.
Lemma stills_ur_resetStream : stills ur_resetStream.
Proof. apply stills_logs, logs_ur_resetStream. Qed.
#[local] Hint Resolve stills_buf_new stills_ur_appendHeaders stills_ur_appendData stills_ur_appendTrailers
  stills_ur_resetStream : stills.

Lemma still_tracked d d' w w' : still d d' w w' → tracked d w → tracked d' w'.
Proof. intros [] Ht i t. rewrite s_timers0, s_rt0, s_pt0. apply Ht. Qed.
Lemma still_quiet d d' w w' : still d d' w w' → quiet w → quiet w'.
Proof. intros [] Ht i t. rewrite s_timers0. apply Ht. Qed.

(** Starting the timers of a request. *)
Record mild (d d' : stream) (w w' : world) : Prop := {
  m_recv : downstreamRecvDone d' = downstreamRecvDone d;
  m_cleaned : downstreamCleaned d' = downstreamCleaned d;
  m_ureset : upstreamReset d' = upstreamReset d;
  m_retry : noretry d → noretry d';
  m_tracked : tracked d w → tracked d' w';
  m_ends : ends w' = ends w;
  m_jobs : jobChan w' = jobChan w;
  m_map : streamMap w' = streamMap w;
  m_ctrl : ∃ l, ctrlChan w' = (ctrlChan w ++ l)%list ∧ Forall (λ e, ctl e = true) l;
}.

Lemma still_mild d d' w w' : still d d' w w' → mild d d' w w'.
Proof.
  intros H. pose proof (still_tracked _ _ _ _ H). destruct H. split; try done.
  destruct s_ctrl0 as (l & ? & ?). exists l. split; [done|by apply rst_ctl].
Qed.
Lemma mild_trans d1 d2 d3 w1 w2 w3 : mild d1 d2 w1 w2 → mild d2 d3 w2 w3 → mild d1 d3 w1 w3.
Proof.
  intros [] []. split; try congruence; [by auto..|].
  destruct m_ctrl0 as (l & Hl & ?), m_ctrl1 as (k & Hk & ?). exists (l ++ k)%list.
  rewrite app_assoc, <- Hl. split; [done|by apply Forall_app].
Qed.

Definition milds {A} (m : SG st A) : Prop := ∀ d w a s', m (d, w) = Ret (a, s') → mild d s'.1 w s'.2.
Lemma milds_stills {A} (m : SG st A) : stills m → milds m.
Proof. intros H d w a s' E. by eapply still_mild, H. Qed.
Lemma milds_bind {A B} (m : SG st A) (f : A → SG st B) : milds m → (∀ a, milds (f a)) → milds (m ≫= f).
Proof.
  intros Hm Hf d w b s' E. apply sg_bind_Ret_inv in E as (a & [d1 w1] & E1 & E2).
  apply Hm in E1. apply Hf in E2. by eapply mild_trans.
Qed.

Lemma tracked_start_pt d w iv :
  let ts := stop_opt (perRetryTimer d) (timers w) in
  tracked d w →
  tracked (set_perRetryTimer (Some (length ts)) d) (set_timers (ts ++ [mk_timer CB_onPerReqTimeout iv false]) w).
Proof.
  intros ts Ht i t Hi Hs. cbn in Hi |- *. apply lookup_app_Some in Hi as [Hi|[Hlen Hi]].
  - apply stop_opt_lookup in Hi as [Hi Hne]; [|done]. destruct (Ht i t Hi Hs) as [?|[??]]; [by left|done].
  - apply list_lookup_singleton_Some in Hi as [? <-]. right. split; [done|]. f_equal. lia.
Qed.
Lemma tracked_start_rt d w iv :
  let ts := stop_opt (responseTimer d) (timers w) in
  tracked d w →
  tracked (set_responseTimer (Some (length ts)) d) (set_timers (ts ++ [mk_timer CB_onResponseTimeout iv false]) w).
Proof.
  intros ts Ht i t Hi Hs. cbn in Hi |- *. apply lookup_app_Some in Hi as [Hi|[Hlen Hi]].
  - apply stop_opt_lookup in Hi as [Hi Hne]; [|done]. destruct (Ht i t Hi Hs) as [[??]|?]; [done|by right].
  - apply list_lookup_singleton_Some in Hi as [? <-]. left. split; [done|]. f_equal. lia.
Qed.

Lemma milds_setupPerReqTimeout : milds setupPerReqTimeout.
Proof.
  unfold setupPerReqTimeout. intros d w b s' E.
  apply sg_bind_Ret_inv in E as (o & ? & [= <- <-] & E).
  apply sg_bind_Ret_inv in E as (t & ? & E1 & E). apply stills_deref in E1 as H1.
  destruct (timeout d) as [t'|]; [|done]. injection E1 as <- <-.
  case_bool_decide; [|injection E as <- <-; apply still_mild, still_refl].
  assert (s' = let ts := stop_opt (perRetryTimer d) (timers w) in
    (set_perRetryTimer (Some (length ts)) d,
     set_timers (ts ++ [mk_timer CB_onPerReqTimeout (to_int64 (TryTimeout t' * second)) false]) w)) as ->.
  { unfold timer_stop, newTimer, ds, env, mod_ds, mod_w, sg_modify, mbind, SG_bind in E. cbn [fst snd] in E.
    destruct (perRetryTimer d); by injection E as <- <-. }
  split; try done; [by apply tracked_start_pt|]. exists []. rewrite app_nil_r. split; [done|constructor].
Qed.

Lemma milds_onUpstreamRequestSent : milds onUpstreamRequestSent.
Proof.
  unfold onUpstreamRequestSent.
  apply milds_bind; [apply milds_stills; stills_go|intros _].
  apply milds_bind; [apply milds_stills; stills_go|intros now].
  apply milds_bind; [apply milds_stills; stills_go|intros _].
  apply milds_bind; [apply milds_stills; stills_go|intros r].
  case_bool_decide; [|apply milds_stills; stills_go].
  apply milds_bind; [apply milds_setupPerReqTimeout|intros _]. intros d w b s' E.
  apply sg_bind_Ret_inv in E as (o & ? & [= <- <-] & E).
  apply sg_bind_Ret_inv in E as (t & ? & E1 & E). apply stills_deref in E1 as H1.
  destruct (timeout d) as [t'|]; [|done]. injection E1 as <- <-.
  case_bool_decide; [|injection E as <- <-; apply still_mild, still_refl].
  assert (s' = let ts := stop_opt (responseTimer d) (timers w) in
    (set_responseTimer (Some (length ts)) d,
     set_timers (ts ++ [mk_timer CB_onResponseTimeout (GlobalTimeout t') false]) w)) as ->.
  { unfold timer_stop, newTimer, ds, env, mod_ds, mod_w, sg_modify, mbind, SG_bind in E. cbn [fst snd] in E.
    destruct (responseTimer d); by injection E as <- <-. }
  split; try done; [by apply tracked_start_rt|]. exists []. rewrite app_nil_r. split; [done|constructor].
Qed.

(** ** The invariant *)

(** Events of the request, and those that end it. *)
Definition is_down (e : stream_event) : bool :=
  match e with
  | receiveHeadersEvent Downstream _ _ | receiveDataEvent Downstream _ _ | receiveTrailerEvent Downstream _ => true
  | _ => false
  end.
Definition is_end (e : stream_event) : bool :=
  match e with
  | receiveHeadersEvent Downstream _ true | receiveDataEvent Downstream _ true | receiveTrailerEvent Downstream _ => true
  | _ => false
  end.
Definition is_job (e : stream_event) : bool :=
  match e with receiveHeadersEvent _ _ _ | receiveDataEvent _ _ _ | receiveTrailerEvent _ _ => true | _ => false end.
Abbreviation no_down := (Forall (λ e, is_down e = false)).

Record Inv (s : st) : Prop := {
  i_retry : noretry s.1;
  i_tracked : tracked s.1 s.2;
  i_run : quiet s.2 ∨ downstreamRecvDone s.1 = true;
  i_down : downstreamRecvDone s.1 = true → no_down (jobChan s.2);
  i_shape : ∀ pre e post, jobChan s.2 = (pre ++ e :: post)%list → is_end e = true → no_down post;
  i_jobs : Forall (λ e, is_job e = true) (jobChan s.2);
  i_cleaned : downstreamCleaned s.1 = true → quiet s.2 ∧ (streamMap s.2 = Some false → stopEvent ∈ ctrlChan s.2);
  i_ends : (ends s.2 ≤ 1)%nat;
  i_end : ends s.2 = 1%nat → upstreamProcessDone s.1 = true ∧ quiet s.2 ∧
    (streamMap s.2 = Some false → ctrlChan s.2 ≠ [] ∧ (upstreamReset s.1 = true ∨ upstream_request s.1 = None));
  i_start : Forall (λ e, ctl e = true) (tail (ctrlChan s.2));
  i_head : ∀ e, head (ctrlChan s.2) = Some e → e = startEvent ∨ ctl e = true;
  i_pending : head (ctrlChan s.2) = Some startEvent →
    upstream_request s.1 = None ∧ downstreamCleaned s.1 = false ∧ downstreamRecvDone s.1 = false ∧
    (ends s.2 = 1%nat → tail (ctrlChan s.2) ≠ []);
  i_begin : head (ctrlChan s.2) = Some startEvent → streamMap s.2 = None;
}.

(** The state in which a handler leaves the stream; [jobs] is what is queued. *)
Record handled (jobs : list stream_event) (s : st) : Prop := {
  h_retry : noretry s.1;
  h_tracked : tracked s.1 s.2;
  h_run : quiet s.2 ∨ downstreamRecvDone s.1 = true;
  h_jobs : jobChan s.2 = jobs;
  h_down : downstreamRecvDone s.1 = true → no_down jobs;
  h_map : streamMap s.2 = Some false;
  h_start : Forall (λ e, ctl e = true) (ctrlChan s.2);
  h_cleaned : downstreamCleaned s.1 = true → quiet s.2 ∧ stopEvent ∈ ctrlChan s.2;
  h_ends : (ends s.2 ≤ 1)%nat;
  h_end : ends s.2 = 1%nat → upstreamProcessDone s.1 = true ∧ quiet s.2;
}.

Lemma handled_ended jobs d d' w w' :
  handled jobs (d, w) → ended d d' w w' → (ends w' ≤ 1)%nat → handled jobs (d', w').
Proof.
  intros H [F Hq Hdone Hctrl Hcl _] He. destruct H, F. cbn in *. split; cbn; try congruence.
  - auto.
  - by apply quiet_tracked.
  - by left.
  - rewrite f_recv0. auto.
  - destruct Hctrl as [[_ ->]|(e & Hne & ->)]; [done|]. apply Forall_app; auto.
  - intros Hc. split; [done|]. destruct (Hcl Hc) as [Hc'|[_ ?]]; [|done].
    destruct (h_cleaned0 Hc') as [_ ?]. destruct Hctrl as [[_ ->]|(e & _ & ->)]; set_solver.
  - done.
Qed.

Lemma handled_mild jobs d d' w w' :
  handled jobs (d, w) → downstreamCleaned d = false → ends w = 0%nat → mild d d' w w' →
  quiet w' ∨ downstreamRecvDone d = true → handled jobs (d', w').
Proof.
  intros H Hc He [] Hrun. destruct H. cbn in *.
  split; cbn; rewrite ?m_recv0, ?m_cleaned0, ?m_ends0, ?m_jobs0, ?m_map0; auto; [|congruence|lia].
  destruct m_ctrl0 as (l & -> & ?). apply Forall_app; auto.
Qed.

Lemma handled_still jobs d d' w w' :
  handled jobs (d, w) → downstreamCleaned d = false → ends w = 0%nat → still d d' w w' → handled jobs (d', w').
Proof.
  intros H Hc He Hs. eapply handled_mild; [done..|by apply still_mild|].
  destruct (h_run _ _ H); [left; by eapply still_quiet|by right].
Qed.

(** ** Handlers *)

Definition fresh (jobs : list stream_event) (d : stream) (w : world) : Prop :=
  handled jobs (d, w) ∧ downstreamCleaned d = false ∧ ends w = 0%nat.

Lemma fresh_still jobs d d' w w' : fresh jobs d w → still d d' w w' → fresh jobs d' w'.
Proof.
  intros (H & Hc & He) Hs. split; [by eapply handled_still|]. destruct Hs. by rewrite s_cleaned0, s_ends0.
Qed.

Lemma fresh_hijack jobs d w c h s' : fresh jobs d w → quiet w →
  sendHijackReply accessLogs c h (d, w) = Ret (tt, s') → handled jobs s'.
Proof.
  intros (H & Hc & He) Hq E. apply sendHijackReply_spec in E as (d' & w' & -> & Hend & He'); [|apply H|done].
  eapply handled_ended; [done..|]. lia.
Qed.

Lemma fresh_recv jobs d w e : fresh jobs d w → downstreamRecvDone d = false → (e = true → no_down jobs) →
  fresh jobs (set_downstreamRecvDone e d) w ∧ quiet w.
Proof.
  intros (H & Hc & He) Hr He'. assert (quiet w) by (destruct (h_run _ _ H) as [?|HH]; [done|cbn in HH; congruence]).
  split; [|done]. split; [|done]. destruct H. split; try done. by left.
Qed.

Lemma still_bind {A B} (m : SG st A) (f : A → SG st B) d w b s' :
  (m ≫= f) (d, w) = Ret (b, s') → stills m →
  ∃ a d1 w1, still d d1 w w1 ∧ m (d, w) = Ret (a, (d1, w1)) ∧ f a (d1, w1) = Ret (b, s').
Proof.
  intros E Hm. apply sg_bind_Ret_inv in E as (a & [d1 w1] & E1 & E2). exists a, d1, w1.
  by pose proof (Hm _ _ _ _ E1).
Qed.

(** Take the first step of [E], which does not end anything, and keep the facts
    [fresh] and [quiet] about the state. *)
Ltac still_step E :=
  let a := fresh "a" in let d' := fresh "d" in let w' := fresh "w" in let Hs := fresh "Hs" in let E1 := fresh "E" in
  apply still_bind in E as (a & d' & w' & Hs & E1 & E); [|stills_go];
  repeat match goal with
  | H : quiet ?w0 |- _ => lazymatch type of Hs with still _ _ w0 _ => apply (still_quiet _ _ _ _ Hs) in H end
  | H : fresh _ ?d0 ?w0 |- _ => lazymatch type of Hs with still d0 _ w0 _ => apply (λ F, fresh_still _ _ _ _ _ F Hs) in H end
  | H : downstreamRecvDone ?d0 = _ |- _ =>
    lazymatch type of Hs with still d0 _ _ _ => rewrite <- (s_recv _ _ _ _ Hs) in H end
  end.

Lemma initialize_spec jobs c b d w o s' : fresh jobs d w → quiet w →
  initializeUpstreamConnectionPool clusterGet connPoolFor UpstreamProtocol accessLogs c b (d, w) = Ret (o, s') →
  match o with None => handled jobs s' | Some _ => fresh jobs s'.1 s'.2 ∧ quiet s'.2 ∧
    downstreamRecvDone s'.1 = downstreamRecvDone d end.
Proof.
  intros Hf Hq E. unfold initializeUpstreamConnectionPool in E. destruct (negb _).
  - still_step E. apply sg_bind_Ret_inv in E as ([] & s2 & Ehj & [= <- <-]). by eapply fresh_hijack.
  - do 3 still_step E. destruct (connPoolFor _ _ _ _).
    + injection E as <- <-. cbn [fst snd]. destruct Hs, Hs0, Hs1. split_and!; [done..|congruence].
    + still_step E. apply sg_bind_Ret_inv in E as ([] & s2 & Ehj & [= <- <-]). by eapply fresh_hijack.
Qed.

Context (Hnoretry : ∀ h rule, Route h = Some rule → rule_RetryOn rule = false).

Lemma fresh_sent jobs d w s' : fresh jobs d w → downstreamRecvDone d = true →
  onUpstreamRequestSent (d, w) = Ret (tt, s') → fresh jobs s'.1 s'.2 ∧ downstreamRecvDone s'.1 = true.
Proof.
  intros (H & Hc & He) Hr E. apply milds_onUpstreamRequestSent in E as Hm. destruct s' as [d' w']. cbn [fst snd] in *.
  split; [|by rewrite (m_recv _ _ _ _ Hm)]. split; [eapply handled_mild; [done..|by right]|].
  destruct Hm. by rewrite m_cleaned0, m_ends0.
Qed.

Lemma ReceiveHeaders_spec jobs d w h e s' :
  fresh jobs d w → downstreamRecvDone d = false → (e = true → no_down jobs) →
  ReceiveHeaders Route clusterGet connPoolFor poolNewStream UpstreamProtocol conn_local conn_remote sentHeaders
    accessLogs h e (d, w) = Ret (tt, s') → handled jobs s'.
Proof.
  intros Hf Hr He E. unfold ReceiveHeaders in E.
  apply sg_bind_Ret_inv in E as (? & ? & [= <- <-] & E). cbn [fst snd] in E.
  destruct (fresh_recv jobs d w e Hf Hr He) as [Hf1 Hq]. clear Hf.
  assert (downstreamRecvDone (set_downstreamRecvDone e d) = e) as Hr1 by done.
  still_step E. unfold doReceiveHeaders in E.
  apply sg_bind_Ret_inv in E as (stop & s1 & E1 & E). unfold runReceiveHeadersFilters in E1.
  apply sg_bind_Ret_inv in E1 as (fs & ? & [= <- <-] & E1). rewrite (no_filters (receiverFilters _)) in E1.
  injection E1 as <- <-. apply sg_bind_Ret_inv in E as (hd & ? & [= <- <-] & E). cbn [fst] in E.
  destruct (Route _) as [rule|] eqn:Hroute; [|still_step E; by eapply fresh_hijack].
  do 3 still_step E. apply sg_bind_Ret_inv in E as (o & [d5 w5] & Ei & E).
  eapply initialize_spec in Ei; [|eassumption..]. destruct o as [pool|]; [|by injection E as <-].
  destruct Ei as (Hf5 & Hq5 & Hr5). cbn [fst snd] in *.
  do 2 still_step E.
  apply sg_bind_Ret_inv in E as (? & ? & [= <- <-] & E). cbn [fst snd] in E.
  assert (fresh jobs (set_retry_state (Some (newRetryState rule)) d6) w6) as Hf6.
  { destruct Hf5 as (H & ? & ?). split; [|done]. destruct H. split; try done.
    intros r [= <-]. cbn. split; [by eapply Hnoretry|done]. }
  assert (downstreamRecvDone (set_retry_state (Some (newRetryState rule)) d6) = e) as Hr6 by (cbn; congruence).
  do 2 still_step E. destruct e; [|injection E as <-; apply Hf6]. cbn [sg_when] in E.
  eapply fresh_sent in E as [Hf _]; [|eassumption..]. destruct s'. apply Hf.
Qed.

(** Past the filters the data goes upstream. *)
Lemma handled_clean jobs d w s' : handled jobs (d, w) →
  cleanStream accessLogs (d, w) = Ret (tt, s') → handled jobs s'.
Proof.
  intros H E.
  apply cleanStream_spec in E as (d' & w' & -> & F & Hq & Hdone & Hcl & Hends & Hctrl); [|apply H..].
  assert (quiet w' ∧ stopEvent ∈ ctrlChan w' ∧ Forall (λ e, ctl e = true) (ctrlChan w')) as (Hq' & Hst & Hct).
  { destruct H. cbn in *. rewrite Hctrl. destruct (downstreamCleaned d).
    - destruct (h_cleaned0 eq_refl). auto.
    - split_and!; [auto|set_solver|]. apply Forall_app. split; [done|by repeat constructor]. }
  destruct F, H. cbn in *.
  split; cbn; rewrite ?f_recv0, ?Hdone, ?Hends; auto using quiet_tracked; try congruence. naive_solver.
Qed.
Lemma fresh_clean jobs d w s' : fresh jobs d w →
  cleanStream accessLogs (d, w) = Ret (tt, s') → handled jobs s'.
Proof. intros [H _]. by apply handled_clean. Qed.

Lemma ReceiveData_spec jobs d w b e s' :
  fresh jobs d w → downstreamRecvDone d = false → (e = true → no_down jobs) →
  ReceiveData Route clusterGet connPoolFor poolNewStream UpstreamProtocol conn_local conn_remote sentHeaders
    accessLogs b e (d, w) = Ret (tt, s') → handled jobs s'.
Proof.
  intros Hf Hr He E. unfold ReceiveData in E.
  apply sg_bind_Ret_inv in E as (done & ? & [= <- <-] & E). cbn [fst] in E.
  destruct (upstreamProcessDone d); [injection E as <-; apply Hf|].
  unfold buf_get in E. do 2 still_step E.
  apply sg_bind_Ret_inv in E as (? & ? & [= <- <-] & E). cbn [fst snd] in E.
  eapply fresh_recv in Hf as [Hf1 Hq]; [|eassumption..].
  assert (downstreamRecvDone (set_downstreamRecvDone e d1) = e) as Hr1 by done.
  unfold rf_fuel in E. apply sg_bind_Ret_inv in E as (n & ? & [= <- <-] & E). cbn [fst] in E.
  rewrite (no_filters (receiverFilters _)) in E. cbn [length Nat.mul Nat.add doReceiveData] in E.
  apply sg_bind_Ret_inv in E as (dn & ? & [= <- <-] & E). cbn [fst] in E.
  apply sg_bind_Ret_inv in E as (stop & s2 & Ef & E).
  assert (stop = false ∧ s2 = (set_downstreamRecvDone e d1, w1)) as [-> ->].
  { destruct (upstreamProcessDone _); [by injection Ef as <- <-|]. cbn in Ef.
    apply sg_bind_Ret_inv in Ef as (fs & ? & [= <- <-] & Ef). rewrite (no_filters (receiverFilters _)) in Ef.
    by injection Ef as <- <-. }
  destruct e; cbn [sg_when] in E.
  - apply sg_bind_Ret_inv in E as ([] & [d3 w3] & Es & E).
    eapply fresh_sent in Es as [Hf3 Hr3]; [|eassumption..]. cbn [fst snd] in *. do 2 still_step E.
    destruct a2; cbn [sg_when] in E; [by eapply fresh_clean|injection E as <-; apply Hf3].
  - do 3 still_step E. destruct a3; cbn [sg_when] in E; [by eapply fresh_clean|injection E as <-; apply Hf1].
Qed.

Lemma ReceiveTrailers_spec jobs d w t s' :
  fresh jobs d w → downstreamRecvDone d = false → no_down jobs →
  ReceiveTrailers Route clusterGet connPoolFor poolNewStream UpstreamProtocol conn_local conn_remote sentHeaders
    accessLogs t (d, w) = Ret (tt, s') → handled jobs s'.
Proof.
  intros Hf Hr He E. unfold ReceiveTrailers in E.
  apply sg_bind_Ret_inv in E as (done & ? & [= <- <-] & E). cbn [fst] in E.
  destruct (upstreamProcessDone d); [injection E as <-; apply Hf|].
  apply sg_bind_Ret_inv in E as (? & ? & [= <- <-] & E). cbn [fst snd] in E.
  eapply (fresh_recv _ _ _ true) in Hf as [Hf1 Hq]; [|done..].
  assert (downstreamRecvDone (set_downstreamRecvDone true d) = true) as Hr1 by done.
  unfold rf_fuel in E. apply sg_bind_Ret_inv in E as (n & ? & [= <- <-] & E). cbn [fst] in E.
  rewrite (no_filters (receiverFilters _)) in E. cbn [length Nat.mul Nat.add doReceiveTrailers] in E.
  apply sg_bind_Ret_inv in E as (dn & ? & [= <- <-] & E). cbn [fst] in E.
  apply sg_bind_Ret_inv in E as ([stop t'] & s2 & Ef & E).
  assert (stop = false ∧ s2 = (set_downstreamRecvDone true d, w)) as [-> ->].
  { destruct (upstreamProcessDone _); [by injection Ef as <- <- <-|]. cbn in Ef.
    apply sg_bind_Ret_inv in Ef as (fs & ? & [= <- <-] & Ef). rewrite (no_filters (receiverFilters _)) in Ef.
    by injection Ef as <- <- <-. }
  still_step E. apply sg_bind_Ret_inv in E as ([] & [d3 w3] & Es & E).
  eapply fresh_sent in Es as [Hf3 Hr3]; [|eassumption..]. cbn [fst snd] in *. do 2 still_step E.
  destruct a1; cbn [sg_when] in E; [by eapply fresh_clean|injection E as <-; apply Hf3].
Qed.

Lemma set_cluster_stats_id w : set_cluster_stats (cluster_stats w) w = w.
Proof. by destruct w. Qed.

Lemma shouldRetry_off r res stats h reason : retryOn r = false →
  ∃ n, shouldRetry r res stats h reason = Ret (NoRetry, mk_retry false n (retryFunc r) (retryTimer r), stats).
Proof.
  intros Hr. unfold shouldRetry. destruct r as [on n f t]. cbn in *. subst on.
  case_bool_decide; [by eexists|]. unfold doRetryCheck. cbn. by destruct (bool_decide _); eexists.
Qed.

(** Without [retryOn] nothing is retried. *)
Lemma try_retry_off h reason e d w b s' : noretry d →
  try_retry rand h reason e (d, w) = Ret (b, s') →
  b = false ∧ ∃ r, retryOn r = false ∧ retryFunc r = false ∧ s' = (set_retry_state (Some r) d, w).
Proof.
  intros Hn E. unfold try_retry, retry in E. apply sg_bind_Ret_inv in E as (c & s1 & E1 & E).
  apply sg_bind_Ret_inv in E1 as (? & ? & Er & E1). rewrite retryState_reset_id in Er by done. injection Er as <- <-.
  apply sg_bind_Ret_inv in E1 as (? & ? & [= <- <-] & E1). cbn [fst] in E1.
  apply sg_bind_Ret_inv in E1 as (r & ? & Ed & E1). destruct (retry_state d) as [r0|] eqn:Hr; [|done].
  injection Ed as <- <-. destruct (Hn r0 Hr) as [Hon Hf].
  apply sg_bind_Ret_inv in E1 as (? & ? & [= <- <-] & E1).
  apply sg_bind_Ret_inv in E1 as (? & ? & [= <- <-] & E1). cbn [snd] in E1.
  destruct (shouldRetry_off r0 (retries_res w) (cluster_stats w) h reason Hon) as [n En]. rewrite En in E1.
  apply sg_bind_Ret_inv in E1 as (? & ? & [= <- <-] & E1).
  apply sg_bind_Ret_inv in E1 as (? & ? & [= <- <-] & E1).
  apply sg_bind_Ret_inv in E1 as (? & ? & [= <- <-] & E1). cbn [fst snd] in E1. injection E1 as <- <-.
  injection E as <- <-. split; [done|]. rewrite set_cluster_stats_id. eexists; split_and!; [..|reflexivity]; done.
Qed.

Lemma check_retry_off h e d w : noretry d →
  ∃ rs, check_retry rand h e (d, w) = Ret (false, (set_retry_state rs d, w)) ∧ noretry (set_retry_state rs d).
Proof.
  intros Hn. destruct (retry_state d) as [r0|] eqn:E0.
  - destruct (Hn r0 E0) as [Hon Hf].
    destruct (shouldRetry_off r0 (retries_res w) (cluster_stats w) h EmptyString Hon) as [k Ek].
    exists (Some (mk_retry false k (retryFunc r0) (retryTimer r0))).
    assert (noretry (set_retry_state (Some (mk_retry false k (retryFunc r0) (retryTimer r0))) d)) by by intros ? [= <-].
    split; [|done]. unfold check_retry. srun. rewrite E0, bool_decide_true by done.
    eapply sg_run.
    { unfold try_retry, retry. eapply sg_run.
      { eapply sg_run; [by apply retryState_reset_id|]. srun. rewrite E0. do 3 srun. rewrite Ek. do 3 srun. reflexivity. }
      reflexivity. }
    cbn beta iota. rewrite set_cluster_stats_id. eapply sg_run; [by apply retryState_reset_id|]. reflexivity.
  - exists None. unfold check_retry. split; [|done]. srun. rewrite E0, bool_decide_false by (intros [? [=]]).
    destruct d; cbn in *; by subst.
Qed.

Lemma onUpstreamReset_spec u reason d w s' : noretry d → tracked d w → upstreamReset d = false →
  onUpstreamReset rand accessLogs u reason (d, w) = Ret (tt, s') →
  ∃ d' w', s' = (d', w') ∧ ended (set_upstreamReset true d) d' w w' ∧ (ends w' ≤ S (ends w))%nat.
Proof.
  intros Hn Ht Hu E. unfold onUpstreamReset in E.
  apply sg_bind_Ret_inv in E as (r & ? & [= <- <-] & E). cbn [fst] in E. rewrite Hu in E.
  apply sg_bind_Ret_inv in E as (? & ? & [= <- <-] & E). cbn [fst snd] in E.
  apply sg_bind_Ret_inv in E as (? & ? & [= <- <-] & E).
  apply sg_bind_Ret_inv in E as (? & ? & [= <- <-] & E).
  apply sg_bind_Ret_inv in E as (b & s1 & E1 & E).
  assert (b = false ∧ ∃ d1, s1 = (d1, w) ∧ frame (set_upstreamReset true d) d1 w w ∧
    downstreamCleaned d1 = downstreamCleaned d ∧ noretry d1 ∧ tracked d1 w) as (-> & d1 & -> & F1 & Hc1 & Hn1 & Ht1).
  { destruct (_ && _ && _).
    - apply try_retry_off in E1 as (-> & r & Hon & Hf & ->); [|done]. split; [done|].
      eexists; split; [done|]. assert (noretry (set_retry_state (Some r) (set_upstreamReset true d))) by by intros ? [= <-].
      split_and!; try done.
    - injection E1 as <- <-. split; [done|]. eexists; split; [done|]. done. }
  apply sg_bind_Ret_inv in E as ([] & s2 & E2 & E).
  destruct (cleanUp_spec d1 w Hn1 Ht1) as (d2 & w2 & E2' & F2 & Hq2 & Hd2 & Hc2 & Hctrl2 & He2).
  rewrite E2' in E2. injection E2 as <-.
  assert (frame (set_upstreamReset true d) d2 w w2) as F by by eapply frame_trans.
  assert (noretry d2) as Hn2 by by apply (f_retry _ _ _ _ F2).
  apply sg_bind_Ret_inv in E as (st_ & ? & [= <- <-] & E). cbn [fst] in E.
  destruct (downstreamResponseStarted d2).
  - apply endStream_spec in E as (d' & w' & -> & Hend & He); [|done..]. eexists _, _; split; [reflexivity|].
    split; [|lia]. eapply ended_after; [exact F|cbn; congruence|done|done].
  - assert (∃ c f, (_ ← mod_info (SetResponseFlag f); sendHijackReply accessLogs c RequestHeaders) (d2, w2) = Ret (tt, s'))
      as (c & f & E') by (destruct u; by eexists _, _).
    apply sg_bind_Ret_inv in E' as (? & ? & [= <- <-] & E'). cbn [fst snd] in E'.
    apply sendHijackReply_spec in E' as (d' & w' & -> & Hend & He); [|done..]. eexists _, _; split; [reflexivity|].
    split; [|lia]. eapply ended_after; [..|exact Hend]; [|cbn; congruence|done].
    destruct F. by split.
Qed.

(** *** Events of the upstream request *)

Lemma fresh_cleanUp jobs d w s' : fresh jobs d w → cleanUp (d, w) = Ret (tt, s') → fresh jobs s'.1 s'.2 ∧ quiet s'.2.
Proof.
  intros (H & Hc & He) E. destruct (cleanUp_spec d w) as (d' & w' & E' & F & Hq & Hd & Hc' & Hctrl & He'); [apply H..|].
  rewrite E in E'. injection E' as ->. cbn [fst snd]. split; [|done]. destruct H, F. cbn in *.
  split; [|by rewrite Hc', He']. split; cbn; rewrite ?f_recv0, ?Hctrl; auto using quiet_tracked; try congruence; lia.
Qed.

Lemma fresh_finished jobs d w s' : fresh jobs d w →
  onUpstreamResponseRecvFinished (d, w) = Ret (tt, s') → fresh jobs s'.1 s'.2 ∧ quiet s'.2.
Proof.
  intros Hf E. unfold onUpstreamResponseRecvFinished in E. do 2 still_step E. by eapply fresh_cleanUp.
Qed.

Lemma fresh_end jobs d w h s' : fresh jobs d w → quiet w → ends_response h = true →
  (_ ← emit_action h; endStream accessLogs) (d, w) = Ret (tt, s') → handled jobs s'.
Proof.
  intros (H & Hc & He) Hq Hh E. apply sg_bind_Ret_inv in E as (? & ? & [= <- <-] & E). cbn [fst snd] in E.
  apply endStream_spec in E as (d' & w' & -> & Hend & He'); [|apply H|done].
  eapply handled_ended; [exact H|eapply ended_after; [..|exact Hend]; done|].
  rewrite He', ends_app, filter_cons, decide_True by done. simpl. lia.
Qed.

Lemma fresh_appendHeaders jobs d w h e s' : fresh jobs d w → (e = true → quiet w) →
  appendHeaders accessLogs h e (d, w) = Ret (tt, s') → handled jobs s'.
Proof.
  intros Hf Hq E. destruct e.
  - destruct Hf as (H & Hc & He). apply appendHeaders_spec in E as (d' & w' & -> & Hend & He'); [|apply H|done].
    eapply handled_ended; [done..|]. lia.
  - apply appendHeaders_spec in E as (d' & w' & -> & -> & a & -> & Ha); [|apply Hf|done].
    refine (proj1 (fresh_still _ _ _ _ _ Hf _)). split; try done.
    + rewrite ends_app, no_ends; [simpl; lia|]. by constructor.
    + exists []. rewrite app_nil_r. split; [done|constructor].
Qed.

Lemma fresh_appendData jobs d w b e s' : fresh jobs d w → (e = true → quiet w) →
  appendData accessLogs b e (d, w) = Ret (tt, s') → handled jobs s'.
Proof.
  intros Hf Hq E. unfold appendData, sf_fuel in E. still_step E.
  apply sg_bind_Ret_inv in E as (n & ? & [= <- <-] & E). cbn [fst] in E.
  rewrite (no_filters (senderFilters _)) in E. cbn [length Nat.mul Nat.add doAppendData] in E.
  apply sg_bind_Ret_inv in E as (stop & s2 & Ef & E). apply sg_bind_Ret_inv in Ef as (fs & ? & [= <- <-] & Ef).
  rewrite (no_filters (senderFilters _)) in Ef. injection Ef as <- <-.
  unfold buf_get in E. still_step E. destruct e; cbn [sg_when] in E.
  - assert (quiet w1) by (eapply still_quiet; [done|]; eapply still_quiet; [done|auto]).
    destruct Hf as (H1 & Hc & He). apply sg_bind_Ret_inv in E as (? & ? & [= <- <-] & E). cbn [fst snd] in E.
    apply sg_bind_Ret_inv in E as (? & ? & [= <- <-] & E). cbn [fst snd] in E.
    apply endStream_spec in E as (d' & w' & -> & Hend & He'); [|apply H1|done].
    eapply handled_ended; [exact H1|eapply ended_after; [..|exact Hend]; done|].
    rewrite He', ends_app, filter_cons, decide_True by done. simpl. lia.
  - do 2 still_step E. injection E as <-. apply Hf.
Qed.

Lemma fresh_appendTrailers jobs d w t s' : fresh jobs d w → quiet w →
  appendTrailers accessLogs t (d, w) = Ret (tt, s') → handled jobs s'.
Proof.
  intros Hf Hq E. unfold appendTrailers, sf_fuel in E. still_step E.
  apply sg_bind_Ret_inv in E as (n & ? & [= <- <-] & E). cbn [fst] in E.
  rewrite (no_filters (senderFilters _)) in E. cbn [length Nat.mul Nat.add doAppendTrailers] in E.
  apply sg_bind_Ret_inv in E as ([stop t'] & s2 & Ef & E). apply sg_bind_Ret_inv in Ef as (fs & ? & [= <- <-] & Ef).
  rewrite (no_filters (senderFilters _)) in Ef. injection Ef as <- <- <-.
  by eapply fresh_end in E.
Qed.

Lemma ur_ReceiveHeaders_spec jobs d w h e s' : fresh jobs d w →
  ur_ReceiveHeaders rand accessLogs h e (d, w) = Ret (tt, s') → handled jobs s'.
Proof.
  intros Hf E. unfold ur_ReceiveHeaders, onUpstreamHeaders in E. do 4 still_step E.
  apply sg_bind_Ret_inv in E as (b & s1 & E1' & E).
  destruct (check_retry_off h e d3 w3) as (rs & Ec & Hn); [apply Hf|]. rewrite Ec in E1'. injection E1' as <- <-.
  assert (fresh jobs (set_retry_state rs d3) w3) as Hf1.
  { eapply fresh_still; [done|]. split; try done. exists []. rewrite app_nil_r. split; [done|constructor]. }
  do 3 still_step E. destruct e; cbn [sg_when] in E.
  - apply sg_bind_Ret_inv in E as ([] & [d8 w8] & Efin & E). eapply fresh_finished in Efin as [Hf8 Hq8]; [|done].
    by eapply fresh_appendHeaders.
  - still_step E. eapply fresh_appendHeaders; [exact Hf1| |exact E]; done.
Qed.

Lemma ur_ReceiveData_spec jobs d w b e s' : fresh jobs d w →
  ur_ReceiveData accessLogs b e (d, w) = Ret (tt, s') → handled jobs s'.
Proof.
  intros Hf E. unfold ur_ReceiveData, onUpstreamData in E. do 2 still_step E. destruct e; cbn [sg_when] in E.
  - apply sg_bind_Ret_inv in E as ([] & [d8 w8] & Efin & E). eapply fresh_finished in Efin as [Hf8 Hq8]; [|done].
    by eapply fresh_appendData.
  - still_step E. eapply fresh_appendData; [exact Hf| |exact E]; done.
Qed.

Lemma ur_ReceiveTrailers_spec jobs d w t s' : fresh jobs d w →
  ur_ReceiveTrailers accessLogs t (d, w) = Ret (tt, s') → handled jobs s'.
Proof.
  intros Hf E. unfold ur_ReceiveTrailers, onUpstreamTrailers in E. do 2 still_step E.
  apply sg_bind_Ret_inv in E as ([] & [d8 w8] & Efin & E). eapply fresh_finished in Efin as [Hf8 Hq8]; [|done].
  by eapply fresh_appendTrailers.
Qed.

(** *** Control events *)

Lemma ds_ResetStream_spec jobs d w reason s' : handled jobs (d, w) →
  ds_ResetStream accessLogs reason (d, w) = Ret (tt, s') → handled jobs s'.
Proof.
  intros H E. unfold ds_ResetStream in E. apply sg_bind_Ret_inv in E as (r & ? & [= <- <-] & E). cbn [fst] in E.
  destruct (downstreamReset d); [by injection E as <-|].
  apply sg_bind_Ret_inv in E as (? & ? & [= <- <-] & E). cbn [fst snd] in E.
  apply sg_bind_Ret_inv in E as (? & ? & [= <- <-] & E). cbn [fst snd] in E.
  eapply handled_clean; [|exact E]. by destruct H; split.
Qed.

Lemma ur_ResetStream_spec jobs d w reason s' : handled jobs (d, w) →
  (ends w = 1%nat → upstreamReset d = true ∨ upstream_request d = None) →
  ur_ResetStream rand accessLogs reason (d, w) = Ret (tt, s') → handled jobs s'.
Proof.
  intros H Hend E. unfold ur_ResetStream in E. apply sg_bind_Ret_inv in E as (o & ? & [= <- <-] & E). cbn [fst] in E.
  apply sg_bind_Ret_inv in E as (r & ? & Er & E). destruct (upstream_request d) as [r0|] eqn:Hreq; [|done].
  injection Er as -> <-. apply sg_bind_Ret_inv in E as (? & ? & [= <- <-] & E). cbn [fst snd] in E.
  assert (handled jobs (set_upstream_request (set_requestSender None <$> upstream_request d) d, w)) as H1
    by by destruct H; split.
  destruct (upstreamReset d) eqn:Hu.
  - unfold onUpstreamReset in E. apply sg_bind_Ret_inv in E as (b & ? & [= <- <-] & E). cbn in E. rewrite Hu in E.
    by injection E as <-.
  - apply onUpstreamReset_spec in E as (d' & w' & -> & Hen & He); [|apply H1..|done].
    assert (ends w = 0%nat) as He0.
    { pose proof (h_ends _ _ H). cbn in *. destruct (decide (ends w = 1%nat)) as [H1'|]; [by destruct (Hend H1')|lia]. }
    eapply handled_ended; [|exact Hen|lia]. by destruct H1; split.
Qed.

Lemma Inv_handled jobs d w : handled jobs (d, w) →
  (∀ pre e post, jobs = (pre ++ e :: post)%list → is_end e = true → no_down post) →
  Forall (λ e, is_job e = true) jobs →
  Inv (d, set_streamMap (Some (upstreamProcessDone d)) w).
Proof.
  intros [] Hshape Hjobs. cbn in *. split; cbn; auto.
  - by rewrite h_jobs0.
  - by rewrite h_jobs0.
  - by rewrite h_jobs0.
  - naive_solver.
  - intros He. destruct (h_end0 He) as [-> Hq]. split_and!; done.
  - by apply Forall_tail.
  - intros e He. right. destruct (ctrlChan w); [done|]. injection He as ->. by inversion h_start0.
  - intros He. destruct (ctrlChan w); [done|]. injection He as ->. by inversion h_start0.
  - intros He. destruct (ctrlChan w); [done|]. injection He as ->. by inversion h_start0.
Qed.

Lemma handle_job jobs e d w s' : fresh jobs d w →
  (is_down e = true → downstreamRecvDone d = false) → (is_end e = true → no_down jobs) →
  ctl e = false → handle_event (SF := ES) (RF := ES) Route clusterGet connPoolFor poolNewStream UpstreamProtocol
    conn_local conn_remote sentHeaders rand accessLogs e (d, w) = Ret (tt, s') → handled jobs s'.
Proof.
  intros Hf Hd He Hc E. destruct e as [| |[] ?|[] h b|[] b e|[] t]; cbn in Hd, He, Hc; try done; cbn [handle_event] in E.
  - injection E as <-. apply Hf.
  - eapply ReceiveHeaders_spec; [exact Hf|by apply Hd| |exact E]. intros ->. by apply He.
  - by eapply ur_ReceiveHeaders_spec.
  - eapply ReceiveData_spec; [exact Hf|by apply Hd| |exact E]. intros ->. by apply He.
  - by eapply ur_ReceiveData_spec.
  - eapply ReceiveTrailers_spec; [exact Hf|by apply Hd|by apply He|exact E].
  - by eapply ur_ReceiveTrailers_spec.
Qed.

Lemma shape_tail (e0 : stream_event) jobs :
  (∀ pre e post, (e0 :: jobs)%list = (pre ++ e :: post)%list → is_end e = true → no_down post) →
  ∀ pre e post, jobs = (pre ++ e :: post)%list → is_end e = true → no_down post.
Proof. intros H pre e post -> He. by apply (H (e0 :: pre) e post). Qed.

Lemma Inv_all_ctl d w : Inv (d, w) → streamMap w = Some false → Forall (λ e, ctl e = true) (ctrlChan w).
Proof.
  intros [] Hm. cbn in *. destruct (ctrlChan w) as [|e c]; [done|]. constructor; [|done].
  destruct (i_head0 e eq_refl) as [->|]; [|done]. specialize (i_begin0 eq_refl). congruence.
Qed.
(** Without a control event, nothing has ended. *)
Lemma Inv_idle d w : Inv (d, w) → ctrlChan w = [] → streamMap w = Some false → downstreamCleaned d = false ∧ ends w = 0%nat.
Proof.
  intros [] Hc Hm. cbn in *. rewrite Hc in *. split.
  - destruct (downstreamCleaned d); [|done]. destruct (i_cleaned0 eq_refl) as [_ H]. specialize (H Hm). set_solver.
  - destruct (decide (ends w = 1%nat)) as [H1|]; [|lia]. destruct (i_end0 H1) as (_ & _ & H2). by destruct (H2 Hm).
Qed.
(** The worker takes a job, before the request has ended. *)
Lemma Inv_job d w e jobs : Inv (d, w) → (streamMap w = Some false → downstreamCleaned d = false ∧ ends w = 0%nat) →
  jobChan w = (e :: jobs)%list → streamMap w = Some false →
  fresh jobs d (set_jobChan jobs w) ∧ (is_down e = true → downstreamRecvDone d = false) ∧ (is_end e = true → no_down jobs).
Proof.
  intros HI Hn Hj Hm. pose proof (Inv_all_ctl d w HI Hm) as Hct. destruct (Hn Hm) as [Hcl He0]. destruct HI. cbn in *. rewrite Hj in *.
  split_and!.
  - split; [|done]. split; cbn; try done; try congruence.
    + intros Hr. specialize (i_down0 Hr). by inversion i_down0.
    + intros He1. change (ends w = 1%nat) in He1. lia.
  - intros Hd. destruct (downstreamRecvDone d); [|done]. specialize (i_down0 eq_refl). inversion i_down0. congruence.
  - intros He. by apply (i_shape0 [] e jobs).
Qed.

Lemma Inv_ctrl d w e c : Inv (d, w) → ctrlChan w = (e :: c)%list → e ≠ startEvent → e ≠ stopEvent → streamMap w = Some false →
  ctl e = true ∧ handled (jobChan w) (d, set_ctrlChan c w) ∧
  (ends w = 1%nat → upstreamReset d = true ∨ upstream_request d = None).
Proof.
  intros [] Hc Hne Hns Hm. cbn in *. rewrite Hc in *. cbn in *. destruct (i_head0 e eq_refl) as [|He]; [done|].
  split_and!; [done| |].
  - split; cbn; try done.
    + intros Hcl. destruct (i_cleaned0 Hcl) as [? H]. split; [done|]. specialize (H Hm). set_solver.
    + intros He1. by destruct (i_end0 He1) as (? & ? & _).
  - intros He1. destruct (i_end0 He1) as (_ & _ & H). by apply H.
Qed.

Abbreviation process := (eventProcess (SF := ES) (RF := ES) Route clusterGet connPoolFor poolNewStream UpstreamProtocol
    conn_local conn_remote sentHeaders rand accessLogs).
Abbreviation handle := (handle_event (SF := ES) (RF := ES) Route clusterGet connPoolFor poolNewStream UpstreamProtocol
    conn_local conn_remote sentHeaders rand accessLogs).

Lemma process_cases e d w s' : process e (d, w) = Ret (tt, s') →
  (e = startEvent ∧ s' = (d, set_streamMap (Some false) w)) ∨
  (e = stopEvent ∧ s' = (d, set_streamMap None w)) ∨
  (e ≠ startEvent ∧ e ≠ stopEvent ∧ (streamMap w ≠ Some false ∧ s' = (d, w) ∨
     streamMap w = Some false ∧ ∃ d1 w1, handle e (d, w) = Ret (tt, (d1, w1)) ∧
       s' = (d1, set_streamMap (Some (default false (streamMap w1) || upstreamProcessDone d1)) w1))).
Proof.
  intros E. destruct (decide (e = startEvent)) as [->|Hne]; [injection E as <-; by left|].
  destruct (decide (e = stopEvent)) as [->|Hns]; [injection E as <-; right; by left|].
  right; right. split; [done|]. split; [done|].
  assert ((m ← env streamMap; match m with
    | Some false => _ ← handle e; m ← env streamMap; done ← ds upstreamProcessDone;
                    mod_w (set_streamMap (Some (default false m || done)))
    | _ => mret tt end) (d, w) = Ret (tt, s')) as E' by by destruct e. clear E.
  apply sg_bind_Ret_inv in E' as (m & ? & [= <- <-] & E). cbn [snd] in E.
  destruct (streamMap w) as [[]|]; [left; by injection E as <-| |left; by injection E as <-].
  right. split; [done|]. apply sg_bind_Ret_inv in E as ([] & [d1 w1] & E1 & E).
  apply sg_bind_Ret_inv in E as (? & ? & [= <- <-] & E). apply sg_bind_Ret_inv in E as (? & ? & [= <- <-] & E).
  injection E as <-. by exists d1, w1.
Qed.

Lemma Inv_process_ctrl d w e c s' : Inv (d, w) → ctrlChan w = (e :: c)%list →
  process e (d, set_ctrlChan c w) = Ret (tt, s') → Inv s'.
Proof.
  intros HI Hc E. assert (Forall (λ e, ctl e = true) c) as Hct by (pose proof (i_start _ HI) as H; cbn in H; by rewrite Hc in H).
  assert (Forall (λ e, ctl e = true) (tail c)) as Htl by by apply Forall_tail.
  assert (∀ e', head c = Some e' → ctl e' = true) as Hhd by (intros e' He; destruct c; [done|]; injection He as ->; by inversion Hct).
  apply process_cases in E as [[-> ->]|[[-> ->]|(Hne & Hns & [[Hm ->]|(Hm & d1 & w1 & E & ->)])]].
  - destruct HI. cbn in *. rewrite Hc in *. destruct (i_pending0 eq_refl) as (Hr & Hcl & Hrv & He).
    split; cbn; auto; try congruence.
    + intros Hx. split_and!; try (by apply i_end0). intros _. split; [by apply He|by right].
    + intros Hx. specialize (Hhd _ Hx). done.
    + intros Hx. specialize (Hhd _ Hx). done.
  - destruct HI. cbn in *. split; cbn; auto.
    + intros Hx. by destruct (i_cleaned0 Hx).
    + intros Hx. by destruct (i_end0 Hx) as (? & ? & _).
    + intros Hx. specialize (Hhd _ Hx). done.
  - destruct HI. cbn in *. split; cbn; auto.
    + intros Hx. by destruct (i_cleaned0 Hx).
    + intros Hx. by destruct (i_end0 Hx) as (? & ? & _).
    + intros Hx. specialize (Hhd _ Hx). done.
    + intros Hx. specialize (Hhd _ Hx). done.
  - cbn in Hm. destruct (Inv_ctrl d w e c HI Hc Hne Hns Hm) as (Hctl & Hh & Hend).
    assert (handled (jobChan w) (d1, w1)) as Hh1.
    { destruct e as [| |[] reason| | |]; try done; cbn [handle_event] in E.
      - by eapply ds_ResetStream_spec.
      - by eapply ur_ResetStream_spec. }
    pose proof (h_map _ _ Hh1) as Hmap. cbn in Hmap. rewrite Hmap. cbn [default orb]. eapply Inv_handled; [exact Hh1|apply HI..].
Qed.

Lemma Inv_process_job d w e jobs s' : Inv (d, w) → (streamMap w = Some false → downstreamCleaned d = false ∧ ends w = 0%nat) →
  jobChan w = (e :: jobs)%list →
  process e (d, set_jobChan jobs w) = Ret (tt, s') → Inv s'.
Proof.
  intros HI Hn Hj E.
  assert (is_job e = true ∧ Forall (λ e, is_job e = true) jobs) as [Hje Hjs].
  { pose proof (i_jobs _ HI) as H. cbn in H. rewrite Hj in H. by inversion H. }
  assert (∀ pre e post, jobs = (pre ++ e :: post)%list → is_end e = true → no_down post) as Hsh.
  { apply (shape_tail e). pose proof (i_shape _ HI) as H. cbn in H. by rewrite Hj in H. }
  apply process_cases in E as [[-> ->]|[[-> ->]|(Hne & Hns & [[Hm ->]|(Hm & d1 & w1 & E & ->)])]]; [done|done|..].
  - destruct HI. cbn in *. rewrite Hj in *. split; cbn; auto.
    intros Hr. specialize (i_down0 Hr). by inversion i_down0.
  - cbn in Hm. destruct (Inv_job d w e jobs HI Hn Hj Hm) as (Hf & Hd & He).
    assert (handled jobs (d1, w1)) as Hh by (eapply handle_job; [exact Hf|done|done|by destruct e|exact E]).
    pose proof (h_map _ _ Hh) as Hmap. cbn in Hmap. rewrite Hmap. cbn [default orb]. by eapply Inv_handled.
Qed.

Lemma Inv_worker late d w s' : Inv (d, w) → (late = true → downstreamCleaned d = false ∧ ends w = 0%nat) →
  eventDispatch (SF := ES) (RF := ES) Route clusterGet connPoolFor poolNewStream UpstreamProtocol
    conn_local conn_remote sentHeaders rand accessLogs late (d, w) = Ret (tt, s') → Inv s'.
Proof.
  intros HI Hl E. unfold eventDispatch in E.
  apply sg_bind_Ret_inv in E as (c & ? & [= <- <-] & E). apply sg_bind_Ret_inv in E as (j & ? & [= <- <-] & E).
  cbn [snd] in E. destruct (ctrlChan w) as [|e c] eqn:Hc, (jobChan w) as [|e' j] eqn:Hj.
  - by injection E as <-.
  - apply sg_bind_Ret_inv in E as (? & ? & [= <- <-] & E). eapply Inv_process_job; [done|by apply Inv_idle|done|done].
  - apply sg_bind_Ret_inv in E as (? & ? & [= <- <-] & E). by eapply Inv_process_ctrl.
  - destruct late; apply sg_bind_Ret_inv in E as (? & ? & [= <- <-] & E); [eapply Inv_process_job; by auto|by eapply Inv_process_ctrl].
Qed.

(** *** Timers *)

(** A stream with a running timer: the request was read, nothing has ended. *)
Record alive (d : stream) (w : world) : Prop := {
  a_retry : noretry d;
  a_tracked : tracked d w;
  a_recv : downstreamRecvDone d = true;
  a_cleaned : downstreamCleaned d = false;
  a_ends : ends w = 0%nat;
  a_down : no_down (jobChan w);
  a_jobs : Forall (λ e, is_job e = true) (jobChan w);
  a_ctrl : Forall (λ e, ctl e = true) (ctrlChan w);
}.

Lemma no_down_shape jobs : no_down jobs →
  ∀ pre e post, jobs = (pre ++ e :: post)%list → is_end e = true → no_down post.
Proof. intros H pre e post -> _. apply Forall_app in H as [_ H]. by inversion H. Qed.

Lemma ctl_tail l : Forall (λ e, ctl e = true) l →
  Forall (λ e, ctl e = true) (tail l) ∧ (∀ e, head l = Some e → e = startEvent ∨ ctl e = true) ∧ head l ≠ Some startEvent.
Proof.
  intros H. split; [by apply Forall_tail|]. destruct H as [|e l He Hl]; [done|]. cbn.
  split; [intros ? [= <-]; by right|]. by intros [= ->].
Qed.

Lemma alive_Inv d w : alive d w → Inv (d, w).
Proof.
  intros []. destruct (ctl_tail _ a_ctrl0) as (? & ? & ?). split; cbn; rewrite ?a_ends0; try done; try congruence; [by right|by apply no_down_shape|lia].
Qed.

Lemma alive_still d d' w w' : alive d w → still d d' w w' → alive d' w'.
Proof.
  intros [] Hs. pose proof (still_tracked _ _ _ _ Hs a_tracked0). destruct Hs.
  split; rewrite ?s_recv0, ?s_cleaned0, ?s_ends0, ?s_jobs0; auto.
  destruct s_ctrl0 as (l & -> & ?%rst_ctl). by apply Forall_app.
Qed.

Lemma alive_ended d d' w w' : alive d w → ended (set_upstreamReset true d) d' w w' → (ends w' ≤ 1)%nat → Inv (d', w').
Proof.
  intros [] [F Hq Hdone Hctrl Hcl _] He. destruct F. cbn in *.
  assert (∃ e, ctl e = true ∧ ctrlChan w' = (ctrlChan w ++ [e])%list) as (e & Hce & Hc) by (destruct Hctrl as [[? _]|]; [congruence|done]).
  assert (Forall (λ e, ctl e = true) (ctrlChan w')) as Hct.
  { rewrite Hc. apply Forall_app. split; [done|]. by constructor. }
  destruct (ctl_tail _ Hct) as (? & ? & ?).
  split; cbn; rewrite ?f_jobs0; try done; try congruence.
  - auto.
  - by apply quiet_tracked.
  - by left.
  - by apply no_down_shape.
  - intros Hx. split; [done|]. intros _. destruct (Hcl Hx) as [?|[_ ?]]; [congruence|done].
  - intros _. split_and!; [done..|]. intros _. split; [rewrite Hc; by destruct (ctrlChan w)|by left].
Qed.

Lemma alive_reset u reason d w s' : alive d w →
  onUpstreamReset rand accessLogs u reason (d, w) = Ret (tt, s') → Inv s'.
Proof.
  intros Ha E. destruct (upstreamReset d) eqn:Hu.
  - unfold onUpstreamReset in E. apply sg_bind_Ret_inv in E as (b & ? & [= <- <-] & E). cbn in E. rewrite Hu in E.
    injection E as <-. by apply alive_Inv.
  - apply onUpstreamReset_spec in E as (d' & w' & -> & Hen & He); [|apply Ha..|done].
    eapply alive_ended; [done..|]. destruct Ha. lia.
Qed.

Lemma stills_count_timeout : stills count_timeout.
Proof. unfold count_timeout. stills_go. Qed.
#[local] Hint Resolve stills_count_timeout : stills.

(** A step of [E] that keeps the stream alive. *)
Ltac alive_step E :=
  let Hs := fresh "Hs" in
  apply still_bind in E as (? & ? & ? & Hs & ? & E); [|stills_go];
  match goal with H : alive _ _ |- _ => apply (λ F, alive_still _ _ _ _ F Hs) in H end.

Lemma Inv_running d w i t : Inv (d, w) → timers w !! i = Some t → t_stopped t = false → alive d w.
Proof.
  intros [] Hi Hs. cbn in *. assert (¬ quiet w) as Hnq by (intros Hq; specialize (Hq i t Hi); congruence).
  assert (downstreamRecvDone d = true) as Hr by by destruct i_run0.
  assert (head (ctrlChan w) ≠ Some startEvent).
  { intros Hh. destruct (i_pending0 Hh) as (_ & _ & ? & _). congruence. }
  split; auto.
  - destruct (downstreamCleaned d); [|done]. by destruct (i_cleaned0 eq_refl).
  - destruct (decide (ends w = 1%nat)) as [H1|]; [|lia]. by destruct (i_end0 H1) as (_ & ? & _).
  - destruct (ctrlChan w) as [|e c]; [done|]. constructor; [|done]. by destruct (i_head0 e eq_refl) as [->|].
Qed.

Lemma tracked_fired d d' w i t :
  tracked d w → timers w !! i = Some t →
  (responseTimer d' = responseTimer d ∨ t_callback t = CB_onResponseTimeout ∧ responseTimer d = Some i) →
  (perRetryTimer d' = perRetryTimer d ∨ t_callback t = CB_onPerReqTimeout ∧ perRetryTimer d = Some i) →
  tracked d' (set_timers (alter stop_timer i (timers w)) w).
Proof.
  intros Ht Hi H1 H2 j t' Hj Hs. cbn in Hj. apply (stop_opt_lookup (Some i)) in Hj as [Hj Hne]; [|done].
  destruct (Ht j t' Hj Hs) as [[? Hr]|[? Hr]]; [left|right]; (split; [done|]).
  - destruct H1 as [->|[_ ?]]; [done|congruence].
  - destruct H2 as [->|[_ ?]]; [done|congruence].
Qed.

Lemma Inv_timer d w i s' : Inv (d, w) →
  timer_fire (SF := ES) (RF := ES) clusterGet connPoolFor poolNewStream UpstreamProtocol sentHeaders rand accessLogs i (d, w)
  = Ret (tt, s') → Inv s'.
Proof.
  intros HI E. unfold timer_fire in E. apply sg_bind_Ret_inv in E as (ts & ? & [= <- <-] & E). cbn [snd] in E.
  destruct (timers w !! i) as [t|] eqn:Hi; [|by injection E as <-].
  destruct (t_stopped t) eqn:Hs; [by injection E as <-|].
  pose proof (Inv_running d w i t HI Hi Hs) as Ha.
  apply sg_bind_Ret_inv in E as (? & ? & [= <- <-] & E). cbn [fst snd] in E.
  destruct (a_tracked _ _ Ha i t Hi Hs) as [[Hcb Ht]|[Hcb Ht]]; rewrite Hcb in E.
  - unfold onResponseTimeout in E. apply sg_bind_Ret_inv in E as (? & ? & [= <- <-] & E). cbn [fst snd] in E.
    assert (alive (set_responseTimer None d) (set_timers (alter stop_timer i (timers w)) w)) as Ha1.
    { pose proof (tracked_fired d (set_responseTimer None d) w i t (a_tracked _ _ Ha) Hi) as Htr.
      destruct Ha. split; try done. apply Htr; [by right|by left]. }
    clear Ha. do 3 alive_step E. by eapply alive_reset.
  - unfold onPerReqTimeout in E. apply sg_bind_Ret_inv in E as (st_ & ? & [= <- <-] & E). cbn [fst] in E.
    assert (alive d (set_timers (alter stop_timer i (timers w)) w)) as Ha0.
    { pose proof (tracked_fired d d w i t (a_tracked _ _ Ha) Hi) as Htr.
      destruct Ha. split; try done. apply Htr; by left. }
    destruct (downstreamResponseStarted d); [injection E as <-; by apply alive_Inv|].
    apply sg_bind_Ret_inv in E as (? & ? & [= <- <-] & E). cbn [fst snd] in E.
    assert (alive (set_perRetryTimer None d) (set_timers (alter stop_timer i (timers w)) w)) as Ha1.
    { pose proof (tracked_fired d (set_perRetryTimer None d) w i t (a_tracked _ _ Ha) Hi) as Htr.
      destruct Ha. split; try done. apply Htr; [by left|by right]. }
    clear Ha Ha0. do 3 alive_step E. by eapply alive_reset.
Qed.

(** ** Runs *)

(** What the surroundings may do next.  The stream layer passes on nothing of a
    request after its end, and reports an undecodable one before anything went
upstream; the worker, which looks at its channels twice, may take a job before a
    control event that arrived between the looks, unless the request has ended. *)
Definition allowed (s : st) (i : input) : Prop :=
  match i with
  | InHeaders _ _ | InData _ _ | InTrailers _ =>
    downstreamRecvDone s.1 = false ∧ Forall (λ e, is_end e = false) (jobChan s.2)
  | InDecodeError _ _ => downstreamRecvDone s.1 = false ∧ upstream_request s.1 = None
  | Worker late => late = true → downstreamCleaned s.1 = false ∧ ends s.2 = 0%nat
  | _ => True
  end.

Inductive reachable : st → Prop :=
  | reach_new now stats res : reachable (proxy_NewStream now [] [] stats res)
  | reach_step s i s' : reachable s → allowed s i → run_exec i s = Ret (tt, s') → reachable s'.

(** A job offered by the stream layer. *)
Lemma Inv_offer_job d w e : Inv (d, w) → is_job e = true →
  (is_down e = true → downstreamRecvDone d = false ∧ Forall (λ e, is_end e = false) (jobChan w)) →
  Inv (d, set_jobChan (jobChan w ++ [e]) w).
Proof.
  intros [] Hj Hd. cbn in *. split; cbn; auto.
  - intros Hr. apply Forall_app. split; [auto|]. constructor; [|done].
    destruct (is_down e) eqn:He; [|done]. destruct (Hd eq_refl). congruence.
  - intros pre e' post Hsp He'. destruct (decide (post = [])) as [->|Hne]; [done|].
    destruct (exists_last Hne) as (post' & x & ->).
    assert (jobChan w = (pre ++ e' :: post')%list ∧ [e] = [x]) as [Hw [= <-]].
    { apply app_inj_2; [done|]. rewrite Hsp, <- app_assoc. done. }
    apply Forall_app. split; [by eapply i_shape0|]. constructor; [|done].
    destruct (is_down e); [|done]. destruct (Hd eq_refl) as [_ H]. rewrite Hw in H.
    apply Forall_app in H as [_ H]. inversion H. congruence.
  - apply Forall_app. split; [done|]. by constructor.
Qed.

(** A reset offered by the stream layer. *)
Lemma Inv_offer_ctrl d w e : Inv (d, w) → ctl e = true → Inv (d, set_ctrlChan (ctrlChan w ++ [e]) w).
Proof.
  intros [] He. cbn in *. split; cbn; auto.
  - intros Hc. destruct (i_cleaned0 Hc) as [? H]. split; [done|]. intros Hm. specialize (H Hm). set_solver.
  - intros H1. destruct (i_end0 H1) as (? & ? & H). split_and!; try done. intros Hm. destruct (H Hm) as [_ ?].
    split; [by destruct (ctrlChan w)|done].
  - destruct (ctrlChan w) as [|e0 c]; [done|]. cbn in *. apply Forall_app. split; [done|]. by constructor.
  - intros e' He'. destruct (ctrlChan w) as [|e0 c]; cbn in *; [injection He' as <-; by right|auto].
  - intros Hh. destruct (ctrlChan w) as [|e0 c]; cbn in *; [injection Hh as ->; done|].
    destruct (i_pending0 Hh) as (? & ? & ? & H). split_and!; try done. intros _. by destruct c.
  - intros Hh. destruct (ctrlChan w) as [|e0 c]; cbn in *; [injection Hh as ->; done|auto].
Qed.

(** An undecodable request. *)
Lemma Inv_decode_error d w err h s' : Inv (d, w) → downstreamRecvDone d = false → upstream_request d = None →
  OnDecodeError accessLogs err h (d, w) = Ret (tt, s') → Inv s'.
Proof.
  intros HI Hr Hreq E. unfold OnDecodeError in E. apply sg_bind_Ret_inv in E as (dn & ? & [= <- <-] & E). cbn [fst] in E.
  destruct (upstreamProcessDone d) eqn:Hdone; [by injection E as <-|].
  apply sg_bind_Ret_inv in E as ([] & s1 & E1 & E).
  assert (quiet w) as Hq by (destruct (i_run _ HI) as [?|HH]; [done|cbn in HH; congruence]).
  apply sendHijackReply_spec in E1 as (d1 & w1 & -> & Hend & He); [|apply HI|done]. injection E as <-.
  destruct Hend as [F Hq' Hd' Hctrl Hcl _]. destruct F, HI. cbn in *.
  assert (ends w = 0%nat).
  { destruct (decide (ends w = 1%nat)) as [H1|]; [|lia]. destruct (i_end0 H1). congruence. }
  assert (∃ l, ctrlChan w1 = (ctrlChan w ++ l)%list ∧ Forall (λ e, ctl e = true) l) as (l & Hc & Hl).
  { destruct Hctrl as [[_ ->]|(e & ? & ->)]; [exists []; by rewrite app_nil_r|by exists [e]; rewrite Forall_singleton]. }
  assert (Forall (λ e, ctl e = true) (l ++ [resetEvent Downstream StreamLocalReset])) as Hl'
    by (apply Forall_app; split; [done|by constructor]).
  split; cbn; rewrite ?Hc, ?f_jobs0, ?f_map0, <- ?app_assoc; try done.
  - auto.
  - by apply quiet_tracked.
  - by left.
  - rewrite f_recv0. auto.
  - intros Hx. split; [done|]. intros Hm. destruct (Hcl Hx) as [Hy|[_ Hy]].
    + destruct (i_cleaned0 Hy) as [_ H']. specialize (H' Hm). set_solver.
    + rewrite Hc in Hy. set_solver.
  - change ((ends w1 ≤ 1)%nat). lia.
  - intros _. split_and!; [done..|]. intros _. split; [by destruct (ctrlChan w), l|right; by apply f_req0].
  - destruct (ctrlChan w) as [|e0 c]; [by apply Forall_tail|]. cbn in *. by apply Forall_app.
  - intros e He'. destruct (ctrlChan w) as [|e0 c]; [|by apply i_head0]. cbn in He'. right.
    destruct l; injection He' as <-; [done|]. by inversion Hl.
  - intros Hh. split_and!; [by apply f_req0| | |].
    + destruct (downstreamCleaned d1) eqn:Hx; [|done]. destruct (ctrlChan w) as [|e0 c].
      * cbn in Hh. destruct l; [done|]. injection Hh as ->. by inversion Hl.
      * destruct (i_pending0 Hh) as (_ & Hy & _). destruct (Hcl eq_refl) as [?|[? _]]; congruence.
    + congruence.
    + intros _. destruct (ctrlChan w) as [|e0 c]; cbn; [|by destruct c, l].
      destruct l; [done|]. by destruct l.
  - intros Hh. destruct (ctrlChan w) as [|e0 c]; cbn in Hh; [|by apply i_begin0].
    destruct l; [done|]. injection Hh as ->. by inversion Hl.
Qed.

(** There is no filter to continue. *)
Lemma continue_decoding_none i d w s' :
  ContinueDecoding (SF := ES) (RF := ES) Route clusterGet connPoolFor poolNewStream UpstreamProtocol
    conn_local conn_remote sentHeaders accessLogs i (d, w) = Ret (tt, s') → s' = (d, w).
Proof.
  intros E. unfold ContinueDecoding, rf_fuel in E. apply sg_bind_Ret_inv in E as (n & ? & [= <- <-] & E). cbn [fst] in E.
  rewrite (no_filters (receiverFilters _)) in E. cbn [length Nat.mul Nat.add rf_doContinue] in E.
  apply sg_bind_Ret_inv in E as (dn & ? & [= <- <-] & E). cbn [fst] in E.
  destruct (upstreamProcessDone d); [by injection E as <-|].
  do 4 (apply sg_bind_Ret_inv in E as (? & ? & [= <- <-] & E)). cbn [fst] in E.
  rewrite (no_filters (receiverFilters _)) in E. by apply sg_bind_Ret_inv in E as (? & ? & ? & E).
Qed.

Lemma continue_encoding_none i d w s' :
  ContinueEncoding (SF := ES) (RF := ES) accessLogs i (d, w) = Ret (tt, s') → False.
Proof.
  intros E. unfold ContinueEncoding, sf_fuel in E. apply sg_bind_Ret_inv in E as (n & ? & [= <- <-] & E). cbn [fst] in E.
  rewrite (no_filters (senderFilters _)) in E. cbn [length Nat.mul Nat.add sf_doContinue] in E.
  do 4 (apply sg_bind_Ret_inv in E as (? & ? & [= <- <-] & E)). cbn [fst] in E.
  rewrite (no_filters (senderFilters _)) in E. by apply sg_bind_Ret_inv in E as (? & ? & ? & E).
Qed.

Lemma Inv_exec s i s' : Inv s → allowed s i → run_exec i s = Ret (tt, s') → Inv s'.
Proof.
  destruct s as [d w]. intros HI Hal E. destruct i; cbn [exec] in E; cbn in Hal.
  - injection E as <-. by apply Inv_offer_job.
  - injection E as <-. apply (Inv_offer_job (set_downstreamReqDataBuf _ d) (set_buffers _ (set_nextBuffer _ w))); [|done|done].
    by destruct HI; split.
  - injection E as <-. by apply Inv_offer_job.
  - destruct Hal. by eapply Inv_decode_error.
  - injection E as <-. by apply Inv_offer_ctrl.
  - injection E as <-. by apply Inv_offer_job.
  - injection E as <-. apply (Inv_offer_job (set_downstreamRespDataBuf _ d) (set_buffers _ (set_nextBuffer _ w))); [|done|done].
    by destruct HI; split.
  - injection E as <-. by apply Inv_offer_job.
  - injection E as <-. by apply Inv_offer_ctrl.
  - injection E as <-. by apply Inv_offer_ctrl.
  - by eapply Inv_worker.
  - by eapply Inv_timer.
  - by apply continue_decoding_none in E as ->.
  - by apply continue_encoding_none in E.
  - injection E as <-. by destruct HI.
Qed.

Lemma Inv_new now stats res : Inv (proxy_NewStream now [] [] stats res).
Proof.
  split; cbn; try done; try (intros; done).
  - by left.
  - intros pre e post H. by destruct pre.
  - unfold ends, count. cbn. lia.
  - intros e [= <-]. by left.
Qed.

Lemma reachable_Inv s : reachable s → Inv s.
Proof. induction 1; [apply Inv_new|]. by eapply Inv_exec. Qed.

(** C2. A client gets one answer: in every run of a stream without filters and
    retries, over all orders of network events, timers and worker steps in which the
    worker, once the request has ended, takes no job before a control event that waits,
    the response is ended at most once; when it was ended, the stream is marked done and
    none of its timers is running.  (The second look of the worker at its channels may
    take such a job; then the client can be answered twice, see
    [late_control_event_answers_twice].) *)
Theorem one_answer s : reachable s →
  (ends s.2 ≤ 1)%nat ∧ (ends s.2 = 1%nat → upstreamProcessDone s.1 = true ∧ quiet s.2).
Proof.
  intros H%reachable_Inv. destruct H. split; [done|]. intros He. by destruct (i_end0 He) as (? & ? & _).
Qed.
End life.
