(* ===== verification/ProxyFlow.v ===== *)
(** * Requests from end to end, and how they go wrong

    Runs of whole streams: a request that is relayed, one that cannot be, the
    race of a timer with a response; then retries, timeouts and filter chains. *)

From S2P Require Import Prelude Strconv Serialize BoltTypes Protocols Stream Cluster StateGo ProxyState Proxy ProxyProps ProxyLife.

Local Open Scope Z_scope.

Section flow.
  Context (Route : option header_map → option RouteRule)
          (clusterGet : string → bool)
          (connPoolFor : string → string → bool → nat → option nat)
          (poolNewStream : nat → string → nat → poolOutcome)
          (UpstreamProtocol : string) (conn_local conn_remote : string)
          (sentHeaders : header_map → header_map)
          (rand : nat → nat) (accessLogs : nat).

  Abbreviation ES := Empty_set.
  Abbreviation st := (downStream ES ES * world)%type.
  Abbreviation run_exec := (exec (SF := ES) (RF := ES) Route clusterGet connPoolFor poolNewStream UpstreamProtocol
    conn_local conn_remote sentHeaders rand accessLogs).
  Abbreviation run_all := (exec_all (SF := ES) (RF := ES) Route clusterGet connPoolFor poolNewStream UpstreamProtocol
    conn_local conn_remote sentHeaders rand accessLogs).

Lemma exec_all_app l k s : run_all (l ++ k) s = match run_all l s with Ret (_, s') => run_all k s' | Panic p => Panic p end.
Proof.
  revert s. induction l as [|i l IH]; intros s; [done|]. cbn. unfold mbind, SG_bind.
  destruct (run_exec i s) as [[a s1]|]; [apply IH|done].
Qed.

(** ** Requests that cannot be forwarded *)

Context (Hnoretry : ∀ h rule, Route h = Some rule → rule_RetryOn rule = false).

(** A stream the worker has written off without cleaning it up. *)
Record leaked (s : st) : Prop := {
  lk_cleaned : downstreamCleaned s.1 = false;
  lk_done : upstreamProcessDone s.1 = true;
  lk_map : streamMap s.2 = Some true;
  lk_timers : quiet s.2;
  lk_ctrl : Forall (λ e, e ≠ startEvent ∧ e ≠ stopEvent) (ctrlChan s.2);
  lk_jobs : Forall (λ e, e ≠ startEvent ∧ e ≠ stopEvent) (jobChan s.2);
}.

Lemma leaked_offer d w e : leaked (d, w) → e ≠ startEvent → e ≠ stopEvent →
  ∃ w', Offer (SF := ES) (RF := ES) e (d, w) = Ret (tt, (d, w')) ∧ leaked (d, w').
Proof.
  intros [] H1 H2. cbn in *. eexists. split; [reflexivity|].
  destruct e; try done; split; cbn; try done; apply Forall_app; (split; [done|]); by repeat constructor.
Qed.

(** The worker drops whatever arrives. *)
Lemma leaked_worker late d w s' : leaked (d, w) →
  eventDispatch (SF := ES) (RF := ES) Route clusterGet connPoolFor poolNewStream UpstreamProtocol
    conn_local conn_remote sentHeaders rand accessLogs late (d, w) = Ret (tt, s') → leaked s'.
Proof.
  intros HL E.
  assert (∀ e w1, e ≠ startEvent → e ≠ stopEvent → streamMap w1 = Some true →
    eventProcess (SF := ES) (RF := ES) Route clusterGet connPoolFor poolNewStream UpstreamProtocol
      conn_local conn_remote sentHeaders rand accessLogs e (d, w1) = Ret (tt, s') → s' = (d, w1)) as Hp.
  { intros e w1 H1 H2 Hm Ep. apply process_cases in Ep as [[? _]|[[? _]|(_ & _ & [[_ ?]|[? _]])]]; congruence. }
  unfold eventDispatch in E. apply sg_bind_Ret_inv in E as (c & ? & [= <- <-] & E).
  apply sg_bind_Ret_inv in E as (j & ? & [= <- <-] & E). cbn [snd] in E. destruct HL. cbn in *.
  assert (∀ e c, ctrlChan w = (e :: c)%list →
    (_ ← mod_w (set_ctrlChan c); eventProcess (SF := ES) (RF := ES) Route clusterGet connPoolFor poolNewStream UpstreamProtocol
      conn_local conn_remote sentHeaders rand accessLogs e) (d, w) = Ret (tt, s') → leaked s') as Hc.
  { intros e c Hc E'. rewrite Hc in *. inversion lk_ctrl0 as [|? ? [? ?] ?]; subst.
    apply sg_bind_Ret_inv in E' as (? & ? & [= <- <-] & E'). apply Hp in E' as ->; try done; by split. }
  assert (∀ e j, jobChan w = (e :: j)%list →
    (_ ← mod_w (set_jobChan j); eventProcess (SF := ES) (RF := ES) Route clusterGet connPoolFor poolNewStream UpstreamProtocol
      conn_local conn_remote sentHeaders rand accessLogs e) (d, w) = Ret (tt, s') → leaked s') as Hj.
  { intros e j Hj E'. rewrite Hj in *. inversion lk_jobs0 as [|? ? [? ?] ?]; subst.
    apply sg_bind_Ret_inv in E' as (? & ? & [= <- <-] & E'). apply Hp in E' as ->; try done; by split. }
  destruct (ctrlChan w) as [|e c] eqn:E1, (jobChan w) as [|e' j] eqn:E2; [by injection E as <-; split; cbn; rewrite ?E1, ?E2|by eapply Hj|by eapply Hc|].
  destruct late; [by eapply Hj|by eapply Hc].
Qed.

Lemma leaked_exec s i s' : leaked s → run_exec i s = Ret (tt, s') → leaked s'.
Proof.
  destruct s as [d w]. intros HL E.
  assert (∀ e d0, leaked (d0, w) → e ≠ startEvent → e ≠ stopEvent → ∀ x, Offer (SF := ES) (RF := ES) e (d0, w) = Ret (tt, x) → leaked x) as Hoff.
  { intros e d0 HL' H1 H2 x Ex. destruct (leaked_offer d0 w e HL' H1 H2) as (w' & Ew & ?). rewrite Ew in Ex. by injection Ex as <-. }
  destruct i; cbn [exec] in E.
  - by eapply (Hoff (receiveHeadersEvent Downstream h e)).
  - injection E as <-. destruct HL. cbn in *. split; cbn; try done. apply Forall_app. split; [done|]. by repeat constructor.
  - by eapply (Hoff (receiveTrailerEvent Downstream t)).
  - unfold OnDecodeError in E. apply sg_bind_Ret_inv in E as (b & ? & [= <- <-] & E). cbn in E.
    pose proof (lk_done _ HL) as Hd. cbn in Hd. rewrite Hd in E. by injection E as <-.
  - by eapply (Hoff (resetEvent Downstream reason)).
  - by eapply (Hoff (receiveHeadersEvent Upstream h e)).
  - injection E as <-. destruct HL. cbn in *. split; cbn; try done. apply Forall_app. split; [done|]. by repeat constructor.
  - by eapply (Hoff (receiveTrailerEvent Upstream t)).
  - by eapply (Hoff (resetEvent Upstream StreamLocalReset)).
  - by eapply (Hoff (resetEvent Upstream reason)).
  - by eapply leaked_worker.
  - unfold timer_fire in E. apply sg_bind_Ret_inv in E as (ts & ? & [= <- <-] & E). cbn [snd] in E.
    destruct (timers w !! i) as [t|] eqn:Hi; [|by injection E as <-].
    pose proof (lk_timers _ HL i t Hi) as Hs. rewrite Hs in E. by injection E as <-.
  - by apply continue_decoding_none in E as ->.
  - by apply continue_encoding_none in E.
  - injection E as <-. by destruct HL.
Qed.

Lemma leaked_run inputs s s' : leaked s → run_all inputs s = Ret (tt, s') → leaked s'.
Proof.
  revert s. induction inputs as [|i l IH]; intros s HL E; [by injection E as <-|]. cbn in E.
  apply sg_bind_Ret_inv in E as ([] & s1 & E1 & E). eapply IH; [|exact E]. by eapply leaked_exec.
Qed.

(** The proxy answers the request itself: there is no route, the cluster is
    unknown, has no pool to offer, or its pool cannot make a stream. *)
Inductive refused (h : option header_map) : Prop :=
  | refused_route : Route h = None → refused h
  | refused_cluster rule : Route h = Some rule → clusterGet (rule_ClusterName rule) = false → refused h
  | refused_pool rule : Route h = Some rule → clusterGet (rule_ClusterName rule) = true →
      (∀ b n, connPoolFor (pool_protocol UpstreamProtocol) (rule_ClusterName rule) b n = None) → refused h
  | refused_stream rule p r : Route h = Some rule → clusterGet (rule_ClusterName rule) = true →
      (∀ b n, connPoolFor (pool_protocol UpstreamProtocol) (rule_ClusterName rule) b n = Some p) →
      (∀ id n, poolNewStream p id n = PoolFailure r) → refused h.

Definition neither (e : stream_event) : Prop := e ≠ startEvent ∧ e ≠ stopEvent.

(** Ending a stream whose request was not read completely. *)
Lemma ended_leaks d d' w w' : ended d d' w w' → downstreamRecvDone d = false → downstreamCleaned d = false →
  Forall neither (ctrlChan w) → Forall neither (jobChan w) →
  leaked (d', set_streamMap (Some (default false (streamMap w') || upstreamProcessDone d')) w').
Proof.
  intros [F Hq Hd _ Hcl Hre] Hr Hc H1 H2. pose proof (f_jobs _ _ _ _ F) as Hj. cbn in *. specialize (Hre Hr). split; cbn; try done.
  - destruct (downstreamCleaned d'); [|done]. destruct (Hcl eq_refl) as [|[? _]]; congruence.
  - rewrite Hd. by rewrite orb_true_r.
  - rewrite Hre. apply Forall_app. split; [done|]. by repeat constructor.
  - by rewrite Hj.
Qed.

(** A stream at the beginning of its request. *)
Record opening (d : downStream ES ES) (w : world) : Prop := {
  o_retry : noretry d; o_quiet : quiet w; o_recv : downstreamRecvDone d = false; o_clean : downstreamCleaned d = false;
  o_ctrl : Forall neither (ctrlChan w); o_jobs : Forall neither (jobChan w);
}.

Lemma opening_still d d' w w' : still d d' w w' → opening d w → opening d' w'.
Proof.
  intros Hs []. pose proof (still_quiet _ _ _ _ Hs o_quiet0). destruct Hs.
  split; rewrite ?s_recv, ?s_cleaned, ?s_jobs; auto.
  destruct s_ctrl as (l & -> & Hl). apply Forall_app. split; [done|]. eapply Forall_impl; [exact Hl|].
  intros e He. destruct e; cbn in He; try done; by split.
Qed.

Lemma opening_hijack d w c h s' : opening d w → sendHijackReply accessLogs c h (d, w) = Ret (tt, s') →
  leaked (s'.1, set_streamMap (Some (default false (streamMap s'.2) || upstreamProcessDone s'.1)) s'.2).
Proof.
  intros [] E. apply sendHijackReply_spec in E as (d' & w' & -> & Hend & _); [|done..]. by eapply ended_leaks.
Qed.

Ltac opening_step E :=
  let Hs := fresh "Hs" in
  apply still_bind in E as (? & ? & ? & Hs & ? & E); [|stills_go];
  match goal with H : opening _ _ |- _ => apply (opening_still _ _ _ _ Hs) in H end.

Abbreviation marked s := (leaked (s.1, set_streamMap (Some (default false (streamMap s.2) || upstreamProcessDone s.1)) s.2)).

(** The pool failed: the reset of the upstream request is on its way. *)
Definition failing (s : st) : Prop := opening s.1 s.2 ∧ upstreamReset s.1 = false ∧
  upstreamProcessDone s.1 = false ∧ streamMap s.2 = Some false ∧
  ∃ reason c, ctrlChan s.2 = (resetEvent Upstream reason :: c)%list.

Lemma ReceiveHeaders_refused d w h s' : refused h → opening d w → upstreamReset d = false →
  upstreamProcessDone d = false → streamMap w = Some false → ctrlChan w = [] →
  ReceiveHeaders Route clusterGet connPoolFor poolNewStream UpstreamProtocol conn_local conn_remote sentHeaders
    accessLogs h false (d, w) = Ret (tt, s') → marked s' ∨ failing s'.
Proof.
  intros Hre Ho Hu Hdn Hmap Hc E. unfold ReceiveHeaders in E.
  apply sg_bind_Ret_inv in E as (? & ? & [= <- <-] & E). apply sg_bind_Ret_inv in E as (? & ? & [= <- <-] & E).
  cbn [fst snd] in E.
  set (d0 := set_downstreamReqHeaders h (set_downstreamRecvDone false d)) in E.
  assert (opening d0 w) as Ho0 by by destruct Ho; split. assert (upstreamReset d0 = false ∧ upstreamProcessDone d0 = false) as [Hu0 Hd0] by done.
  clear Ho Hu.
  assert (downstreamReqHeaders d0 = h) as Hh by done. clearbody d0.
  unfold doReceiveHeaders in E. apply sg_bind_Ret_inv in E as (stop & s1 & E1 & E). unfold runReceiveHeadersFilters in E1.
  apply sg_bind_Ret_inv in E1 as (fs & ? & [= <- <-] & E1). rewrite (no_filters (receiverFilters _)) in E1.
  injection E1 as <- <-. apply sg_bind_Ret_inv in E as (hd & ? & [= <- <-] & E). cbn [fst] in E. rewrite Hh in E.
  destruct Hre as [H1|rule H1 H2|rule H1 H2 H3|rule p r H1 H2 H3 H4]; rewrite H1 in E.
  - opening_step E. left. by eapply opening_hijack.
  - do 3 opening_step E. apply sg_bind_Ret_inv in E as (o & s2 & Ei & E). unfold initializeUpstreamConnectionPool in Ei.
    rewrite H2 in Ei. cbn [negb] in Ei. opening_step Ei. apply sg_bind_Ret_inv in Ei as ([] & s3 & Eh & [= <- <-]).
    injection E as <-. left. by eapply opening_hijack.
  - do 3 opening_step E. apply sg_bind_Ret_inv in E as (o & s2 & Ei & E). unfold initializeUpstreamConnectionPool in Ei.
    rewrite H2 in Ei. cbn [negb] in Ei. do 3 opening_step Ei. rewrite H3 in Ei.
    opening_step Ei. apply sg_bind_Ret_inv in Ei as ([] & s3 & Eh & [= <- <-]).
    injection E as <-. left. by eapply opening_hijack.
  - right. do 3 apply sg_bind_Ret_inv in E as (? & ? & [= <- <-] & E). cbn [fst snd] in E.
    apply sg_bind_Ret_inv in E as (o & s2 & Ei & E). unfold initializeUpstreamConnectionPool in Ei.
    rewrite H2 in Ei. cbn [negb] in Ei. do 3 apply sg_bind_Ret_inv in Ei as (? & ? & [= <- <-] & Ei). rewrite H3 in Ei.
    injection Ei as <- <-. cbn [fst snd] in E. do 4 apply sg_bind_Ret_inv in E as (? & ? & [= <- <-] & E). cbn [fst snd] in E.
    apply sg_bind_Ret_inv in E as ([] & s3 & Ea & E). injection E as <-. unfold ur_appendHeaders in Ea.
    do 6 apply sg_bind_Ret_inv in Ea as (? & ? & [= <- <-] & Ea). cbn [fst snd connPool new_upstreamRequest set_sendComplete] in Ea.
    rewrite H4 in Ea. injection Ea as <-. split_and!; cbn; [|done|done|done|].
    + destruct Ho0. split; try done.
      * intros r' [= <-]. split; [by eapply Hnoretry|done].
      * cbn. apply Forall_app. split; [done|]. by repeat constructor.
    + rewrite Hc. cbn. by eexists _, [].
Qed.

Lemma ur_ResetStream_failing d w reason s' : opening d w → upstreamReset d = false →
  ur_ResetStream rand accessLogs reason (d, w) = Ret (tt, s') → marked s'.
Proof.
  intros Ho Hu E. unfold ur_ResetStream in E. do 3 opening_step E.
  apply onUpstreamReset_spec in E as (d' & w' & -> & Hend & _);
    [|by destruct Ho|by apply quiet_tracked; destruct Ho|by repeat match goal with H : still _ _ _ _ |- _ => destruct H end; congruence].
  destruct Ho. eapply ended_leaks; [exact Hend|done..].
Qed.

(** A request with a body that the proxy answers itself leaks its stream.
    The reply to the headers of a request that has no route, no cluster, no
    pool or no upstream stream ends the response before the request was read;
    the reset that should clean up the stream is then dropped by the worker.
    Whatever happens afterwards, the stream is never cleaned up and counts as
    active. *)
Theorem refused_request_leaks h now stats res inputs s : refused h →
  run_all ([InHeaders h false; Worker false; Worker false; Worker false] ++ inputs)
    (proxy_NewStream now [] [] stats res) = Ret (tt, s) →
  downstreamCleaned s.1 = false ∧ requestActive s.2 = 1 ∧ inActiveSteams s.2 = true.
Proof.
  intros Hre E. pose proof E as Eall. rewrite exec_all_app in E.
  destruct (run_all _ _) as [[[] s1]|] eqn:E0 in E; [|done].
  assert (leaked s1) as HL.
  { clear E Eall. cbn [exec_all] in E0. apply sg_bind_Ret_inv in E0 as (? & ? & [= <- <-] & E0).
    apply sg_bind_Ret_inv in E0 as (? & ? & [= <- <-] & E0). cbn [fst snd] in E0.
    apply sg_bind_Ret_inv in E0 as ([] & s2 & E2 & E0). cbn [exec] in E2. unfold eventDispatch in E2.
    do 3 apply sg_bind_Ret_inv in E2 as (? & ? & [= <- <-] & E2). cbn [fst snd] in E2.
    apply process_cases in E2 as [[? _]|[[? _]|(_ & _ & [[Hm _]|(_ & d1 & w1 & E2 & ->)])]]; [done..|].
    cbn [handle_event] in E2.
    apply ReceiveHeaders_refused in E2 as [HL|(Ho & Hu & Hdn & Hmap & reason & c & Hc)]; [| |done|by split|done..].
    - apply sg_bind_Ret_inv in E0 as ([] & s3 & E3 & [= <-]). by eapply leaked_worker.
    - apply sg_bind_Ret_inv in E0 as ([] & s3 & E3 & [= <-]). cbn [exec] in E3. cbn [fst snd] in *.
      rewrite Hmap, Hdn in E3. unfold eventDispatch in E3.
      do 2 apply sg_bind_Ret_inv in E3 as (? & ? & [= <- <-] & E3). cbn [snd] in E3. cbn [ctrlChan set_streamMap] in E3.
      assert ((_ ← mod_w (set_ctrlChan c); eventProcess Route clusterGet connPoolFor poolNewStream UpstreamProtocol
        conn_local conn_remote sentHeaders rand accessLogs (resetEvent Upstream reason))
        (d1, set_streamMap (Some (default false (Some false) || false)) w1) = Ret (tt, s3)) as E4.
      { rewrite Hc in E3. by destruct (jobChan _). }
      apply sg_bind_Ret_inv in E4 as (? & ? & [= <- <-] & E4). cbn [fst snd] in E4.
      apply process_cases in E4 as [[? _]|[[? _]|(_ & _ & [[Hm _]|(_ & d2 & w2 & E4 & ->)])]]; [done..|].
      cbn [handle_event] in E4. apply ur_ResetStream_failing in E4; [done| |done].
      destruct Ho. rewrite Hc in o_ctrl0. inversion o_ctrl0. by split. }
  pose proof (leaked_run inputs s1 s HL E) as HLs.
  apply cleaned_once_run in Eall. destruct Eall as [_ Hv]. unfold view in Hv. cbn in Hv.
  pose proof (lk_cleaned _ HLs) as Hcl. rewrite Hcl in Hv. split; [done|]. naive_solver.
Qed.

(** ** A request that is relayed *)

Section relay.
  Context (h : option header_map) (body : bytes) (rh : option header_map) (rbody : bytes) (rule : RouteRule)
          (p : nat) (host : string).
  Hypothesis (Hroute : Route h = Some rule) (Hretry : rule_RetryOn rule = false)
             (Hcluster : clusterGet (rule_ClusterName rule) = true)
             (Hpool : ∀ b n, connPoolFor (pool_protocol UpstreamProtocol) (rule_ClusterName rule) b n = Some p)
             (Hready : ∀ id n, poolNewStream p id n = PoolReady host).

Definition request_id : string := default EmptyString (h ≫= lookup HeaderStreamID).

(** What the request phase does. *)
Lemma relay_headers d w :
  senderFilters d = [] → receiverFilters d = [] →
  ∃ d' w', ReceiveHeaders Route clusterGet connPoolFor poolNewStream UpstreamProtocol conn_local conn_remote sentHeaders
      accessLogs h false (d, w) = Ret (tt, (d', w')) ∧
    upstream_request d' = Some (mk_ur None (Some (S (poolCalls w))) p None false false false) ∧
    upstreamProcessDone d' = upstreamProcessDone d ∧ downstreamCleaned d' = downstreamCleaned d ∧
    noretry d' ∧ is_Some (timeout d') ∧ is_Some (cluster d') ∧
    perRetryTimer d' = perRetryTimer d ∧ responseTimer d' = responseTimer d ∧
    actions w' = (actions w ++ [ANewStream p request_id; AReqAddListener (S (poolCalls w));
                                AReqHeaders (S (poolCalls w)) h false])%list ∧
    ctrlChan w' = ctrlChan w ∧ jobChan w' = jobChan w ∧ streamMap w' = streamMap w ∧ timers w' = timers w ∧
    buffers w' = buffers w.
Proof.
  intros Hsf Hrf. eexists _, _. split.
  { unfold ReceiveHeaders. do 2 srun. unfold doReceiveHeaders.
    eapply sg_run; [unfold runReceiveHeadersFilters; srun;
      match goal with |- context [receiverFilters ?x] => change (receiverFilters x) with (receiverFilters d) end;
      rewrite Hrf; reflexivity|].
    cbn beta iota. srun. match goal with |- context [Route ?x] => change (Route x) with (Route h) end. rewrite Hroute.
    do 3 srun. eapply sg_run; [unfold initializeUpstreamConnectionPool; rewrite Hcluster; cbn [negb]; do 3 srun;
      rewrite Hpool; reflexivity|]. cbn beta iota. do 4 srun.
    eapply sg_run; [|reflexivity]. unfold ur_appendHeaders. do 6 srun.
    match goal with |- context [poolNewStream ?a ?b ?c] =>
      change (poolNewStream a b c) with (poolNewStream p b c) end.
    rewrite Hready. unfold ur_OnReady. do 7 srun. reflexivity. }
  split_and!; try done.
  - intros r [= <-]. split; [exact Hretry|done].
  - cbn. by rewrite <- !app_assoc.
Qed.

(** Once the body was read the request is complete, and its timers run. *)
Lemma setup_ok d w t : timeout d = Some t →
  ∃ x y, setupPerReqTimeout (SF := ES) (RF := ES) (d, w) = Ret (tt, (set_perRetryTimer x d, set_timers y w)).
Proof.
  intros Ht. destruct (bool_decide (0 < TryTimeout t)) eqn:Hb.
  - destruct (perRetryTimer d) as [i|] eqn:Hp; eexists _, _; unfold setupPerReqTimeout; srun; rewrite Ht; srun; rewrite Hb;
      srun; rewrite Hp; [srun|srun]; (eapply sg_run; [unfold newTimer; do 2 srun; reflexivity|]); reflexivity.
  - exists (perRetryTimer d), (timers w). unfold setupPerReqTimeout. srun. rewrite Ht. srun. rewrite Hb.
    destruct d, w. reflexivity.
Qed.

Lemma sent_ok d w t : timeout d = Some t →
  ∃ d' w', onUpstreamRequestSent (SF := ES) (RF := ES) (d, w) = Ret (tt, (d', w')) ∧ mild d d' w w' ∧
    upstream_request d' = upstream_request d ∧ upstreamRequestSent d' = true ∧
    upstreamProcessDone d' = upstreamProcessDone d ∧ cluster d' = cluster d ∧ receiverFilters d' = receiverFilters d ∧
    actions w' = actions w ∧ ctrlChan w' = ctrlChan w ∧ buffers w' = buffers w.
Proof.
  intros Ht.
  assert (∃ i x1 x2 y, onUpstreamRequestSent (SF := ES) (RF := ES) (d, w) =
    Ret (tt, (set_responseTimer x2 (set_perRetryTimer x1 (set_request_info i (set_upstreamRequestSent true d))), set_timers y w)))
    as (i & x1 & x2 & y & E).
  { set (i := SetRequestReceivedDuration (clock w) (request_info d)).
    set (d1 := set_request_info i (set_upstreamRequestSent true d)).
    destruct (bool_decide (is_Some (upstream_request d))) eqn:Hb.
    - destruct (setup_ok d1 w t Ht) as (x & y & Es). destruct (bool_decide (0 < GlobalTimeout t)) eqn:Hg.
      + exists i. destruct (responseTimer d) as [k|] eqn:Hr; eexists x, _, _; unfold onUpstreamRequestSent;
          do 4 srun; change (request_info _) with (request_info d); fold i;
          fold d1; change (upstream_request d1) with (upstream_request d); rewrite Hb;
          (eapply sg_run; [exact Es|]); srun; change (timeout _) with (timeout d); rewrite Ht; srun; rewrite Hg; srun;
          change (responseTimer _) with (responseTimer d); rewrite Hr; srun;
          (eapply sg_run; [unfold newTimer; do 2 srun; reflexivity|]); reflexivity.
      + exists i, x, (responseTimer d), y. unfold onUpstreamRequestSent.
        do 4 srun. change (request_info _) with (request_info d). fold i.
        fold d1. change (upstream_request d1) with (upstream_request d). rewrite Hb.
        eapply sg_run; [exact Es|]. srun. change (timeout _) with (timeout d). rewrite Ht. srun. rewrite Hg.
        destruct d; reflexivity.
    - exists i, (perRetryTimer d), (responseTimer d), (timers w). unfold onUpstreamRequestSent.
      do 4 srun. change (upstream_request _) with (upstream_request d). rewrite Hb. destruct d, w; reflexivity. }
  eexists _, _. split; [exact E|]. apply milds_onUpstreamRequestSent in E as Hm. done.
Qed.

Lemma relay_body d w b n r t :
  upstream_request d = Some r → requestSender r = Some n → upstreamProcessDone d = false → timeout d = Some t →
  noretry d → tracked d w →
  ∃ d' w', ReceiveData Route clusterGet connPoolFor poolNewStream UpstreamProtocol conn_local conn_remote sentHeaders
      accessLogs b true (d, w) = Ret (tt, (d', w')) ∧
    downstreamRecvDone d' = true ∧ upstreamRequestSent d' = true ∧ upstreamProcessDone d' = false ∧
    downstreamCleaned d' = downstreamCleaned d ∧ noretry d' ∧ tracked d' w' ∧ is_Some (upstream_request d') ∧
    actions w' = (actions w ++ [AReqData n (default [] (buffers w !! b)) true])%list ∧
    ctrlChan w' = ctrlChan w ∧ jobChan w' = jobChan w ∧ streamMap w' = streamMap w.
Proof.
  intros Hreq Hs Hd Ht Hn Htr.
  set (d1 := set_downstreamRecvDone true (set_request_info (SetBytesReceived (to_uint64 (bytesReceived (request_info d) +
    Z.of_nat (length (default [] (buffers w !! b))))) (request_info d)) d)).
  destruct (sent_ok d1 w t Ht) as (d2 & w2 & Es & Hm & Hr2 & Hs2 & Hd2 & _ & _ & Ha2 & Hc2 & Hb2).
  eexists _, _. split.
  { unfold ReceiveData. srun. rewrite Hd. do 4 srun. fold d1. rewrite (no_filters (receiverFilters d1)).
    cbn [length Nat.mul Nat.add doReceiveData].
    srun. change (upstreamProcessDone d1) with (upstreamProcessDone d). rewrite Hd.
    eapply sg_run; [srun; rewrite (no_filters (receiverFilters d1)); reflexivity|]. cbn beta iota. cbn [sg_when].
    eapply sg_run; [exact Es|].
    eapply sg_run; [unfold ur_appendData; srun; rewrite Hr2; change (upstream_request d1) with (upstream_request d);
      rewrite Hreq; do 2 srun; rewrite Hs; do 2 srun; reflexivity|].
    srun. cbn [upstreamProcessDone set_upstream_request]. rewrite Hd2. change (upstreamProcessDone d1) with (upstreamProcessDone d).
    rewrite Hd. reflexivity. }
  destruct Hm. split_and!; cbn; try done.
  - by rewrite Hd2.
  - apply m_retry. exact Hn.
  - intros i t'. apply m_tracked. exact Htr.
  - rewrite Hr2. cbn. rewrite Hreq. by eexists.
  - by rewrite Ha2, Hb2.
Qed.

(** The headers of the response are passed on. *)
Lemma relay_resp_headers d w :
  is_Some (upstream_request d) → noretry d → tracked d w →
  ∃ d' w', ur_ReceiveHeaders (SF := ES) (RF := ES) rand accessLogs rh false (d, w) = Ret (tt, (d', w')) ∧
    downstreamRecvDone d' = downstreamRecvDone d ∧ upstreamRequestSent d' = upstreamRequestSent d ∧
    upstreamProcessDone d' = false ∧ downstreamCleaned d' = downstreamCleaned d ∧ noretry d' ∧ tracked d' w' ∧
    is_Some (upstream_request d') ∧
    actions w' = (actions w ++ [ARespHeaders (MMap (default ∅ rh)) false])%list ∧
    ctrlChan w' = ctrlChan w ∧ jobChan w' = jobChan w ∧ streamMap w' = streamMap w ∧ buffers w' = buffers w.
Proof.
  intros [r Hr] Hn Ht.
  set (d1 := set_downstreamRespHeaders (match rh with Some h => MMap h | None => MMap ∅ end)
    (set_upstream_request (set_upstreamRespHeaders rh <$> upstream_request d) d)).
  destruct (check_retry_off rand rh false d1 w Hn) as (rs & Er & Hn1).
  eexists _, _. split.
  { unfold ur_ReceiveHeaders. srun. rewrite Hr. do 2 srun. unfold onUpstreamHeaders. srun. fold d1.
    eapply sg_run; [exact Er|]. cbn beta iota. do 3 srun. cbn [sg_when]. srun. unfold appendHeaders. srun.
    unfold doAppendHeaders. eapply sg_run; [unfold runAppendHeaderFilters; srun; rewrite (no_filters (senderFilters _)); reflexivity|].
    cbn beta iota. srun. reflexivity. }
  split_and!; cbn; try done.
  - by rewrite Hr.
  - by destruct rh.
Qed.

(** The body ends the response and cleans up. *)
Definition housekeeping (a : action) : bool :=
  match a with AAccessLog _ | AGiveHeaders _ | AGiveBuffer _ | ASenderDestroy _ | AReceiverDestroy _ => true | _ => false end.

Lemma log_access_run n d w :
  ∃ l, log_access (SF := ES) (RF := ES) n (d, w) = Ret (tt, (d, set_actions (actions w ++ l) w)) ∧
    Forall (λ a, housekeeping a = true) l.
Proof.
  revert w. induction n as [|n IH]; intros w.
  - exists []. cbn. rewrite app_nil_r. by destruct w.
  - destruct (IH (set_actions (actions w ++ [AAccessLog (request_info d)]) w)) as (l & E & Hl).
    exists (AAccessLog (request_info d) :: l). split; [|by constructor]. cbn [log_access]. do 2 srun.
    change (log_access n (d, set_actions (actions w ++ [AAccessLog (request_info d)]) w) =
      Ret (tt, (d, set_actions (actions w ++ AAccessLog (request_info d) :: l) w))).
    rewrite E. cbn. by rewrite <- app_assoc.
Qed.

Lemma deleteActiveStream_run d w :
  ∃ l, deleteActiveStream (SF := ES) (RF := ES) (d, w) =
      Ret (tt, (d, set_inActiveSteams false (set_actions (actions w ++ l) w))) ∧ Forall (λ a, housekeeping a = true) l.
Proof.
  assert (∀ o w, ∃ l, give_headers (SF := ES) (RF := ES) o (d, w) = Ret (tt, (d, set_actions (actions w ++ l) w)) ∧
    Forall (λ a, housekeeping a = true) l) as Hh.
  { intros [h'|] w'; [exists [AGiveHeaders h']; by split; [|repeat constructor]|exists []; rewrite app_nil_r; by destruct w']. }
  assert (∀ o w, ∃ l, give_buffer (SF := ES) (RF := ES) o (d, w) = Ret (tt, (d, set_actions (actions w ++ l) w)) ∧
    Forall (λ a, housekeeping a = true) l) as Hb.
  { intros [b|] w'; [exists [AGiveBuffer b]; by split; [|repeat constructor]|exists []; rewrite app_nil_r; by destruct w']. }
  destruct (Hh (downstreamReqHeaders d) w) as (l1 & E1 & F1).
  destruct (Hh (upstream_request d ≫= upstreamRespHeaders) (set_actions (actions w ++ l1) w)) as (l2 & E2 & F2).
  rewrite set_actions_app in E2.
  destruct (Hb (downstreamReqDataBuf d) (set_actions (actions w ++ (l1 ++ l2)) w)) as (l3 & E3 & F3).
  rewrite set_actions_app in E3.
  destruct (Hb (downstreamRespDataBuf d) (set_actions (actions w ++ ((l1 ++ l2) ++ l3)) w)) as (l4 & E4 & F4).
  rewrite set_actions_app in E4.
  exists (((l1 ++ l2) ++ l3) ++ l4)%list. split; [|by rewrite !Forall_app].
  unfold deleteActiveStream. srun. eapply sg_run; [exact E1|]. srun. eapply sg_run; [exact E2|].
  srun. eapply sg_run; [exact E3|]. srun. eapply sg_run; [exact E4|]. reflexivity.
Qed.

Lemma cleanStream_run d w r : upstream_request d = Some r → requestSender r = None → noretry d →
  downstreamCleaned d = false →
  ∃ d' w' l, cleanStream accessLogs (d, w) = Ret (tt, (d', w')) ∧ downstreamCleaned d' = true ∧
    requestActive w' = requestActive w - 1 ∧ ctrlChan w' = (ctrlChan w ++ [stopEvent])%list ∧ jobChan w' = jobChan w ∧
    streamMap w' = streamMap w ∧ actions w' = (actions w ++ l)%list ∧ Forall (λ a, housekeeping a = true) l ∧
    upstreamProcessDone d' = upstreamProcessDone d ∧
    timers w' = stop_opt (responseTimer d) (stop_opt (perRetryTimer d) (timers w)).
Proof.
  intros Hr Hs Hn Hc. set (d1 := set_downstreamCleaned true d).
  set (w1 := cleaned_w d1 w). set (w2 := set_requestActive (requestActive w1 - 1) w1).
  destruct (log_access_run accessLogs (cleaned_ds d1) w2) as (l1 & E1 & F1).
  set (w3 := set_actions (actions w2 ++ l1) w2) in E1.
  destruct (deleteActiveStream_run (cleaned_ds d1) (set_ctrlChan (ctrlChan w3 ++ [stopEvent]) w3)) as (l2 & E2 & F2).
  eexists _, _, (l1 ++ l2)%list. split.
  { unfold cleanStream. srun. rewrite Hc. do 2 srun. fold d1. change (upstream_request d1) with (upstream_request d). rewrite Hr.
    rewrite bool_decide_true by done. cbn [sg_when].
    eapply sg_run; [unfold ur_resetStream; srun; change (upstream_request d1) with (upstream_request d); rewrite Hr; srun;
      rewrite Hs; reflexivity|].
    eapply sg_run; [by apply cleanUp_run|]. srun. rewrite (no_filters (senderFilters _)). srun. srun.
    rewrite (no_filters (receiverFilters _)). srun. srun. fold w1. fold w2.
    eapply sg_run; [exact E1|]. srun. exact E2. }
  split_and!; cbn; try done; [by rewrite app_assoc|by apply Forall_app].
Qed.

Lemma relay_resp_data d w b :
  is_Some (upstream_request d) → noretry d → tracked d w → downstreamRecvDone d = true → upstreamRequestSent d = true →
  downstreamCleaned d = false →
  ∃ d' w' l, ur_ReceiveData (SF := ES) (RF := ES) accessLogs b true (d, w) = Ret (tt, (d', w')) ∧
    downstreamCleaned d' = true ∧ upstreamProcessDone d' = true ∧ quiet w' ∧
    requestActive w' = requestActive w - 1 ∧ ctrlChan w' = (ctrlChan w ++ [stopEvent])%list ∧ jobChan w' = jobChan w ∧
    streamMap w' = streamMap w ∧ Forall (λ a, housekeeping a = true) l ∧
    actions w' = (actions w ++ ARespData (default [] (buffers w !! b)) true :: l)%list.
Proof.
  intros [r Hr] Hn Ht Hrecv Hsent Hc.
  destruct (cleanUp_spec d w Hn Ht) as (? & ? & E0 & _ & Hq & _). rewrite cleanUp_run in E0 by done.
  injection E0 as <- <-.
  set (d1 := set_upstreamProcessDone true (cleaned_ds d)). set (data := default [] (buffers w !! b)).
  set (w1 := set_actions (actions w ++ [ARespData data true]) (cleaned_w d w)).
  set (d2 := set_request_info (SetBytesSent (to_uint64 (bytesSent (request_info d1) + Z.of_nat (length data))) (request_info d1)) d1).
  destruct (cleanStream_run d2 w1 (set_requestSender None r)) as (d3 & w3 & l & E & H1 & H2 & H3 & H4 & H5 & H6 & H7 & H8 & H9);
    [cbn; by rewrite Hr|done|done|done|].
  exists d3, w3, l. split.
  { unfold ur_ReceiveData. srun. rewrite Hr. srun. unfold onUpstreamData. cbn [sg_when].
    eapply sg_run; [unfold onUpstreamResponseRecvFinished; srun; rewrite Hsent; cbn [negb sg_when]; srun; by apply cleanUp_run|].
    unfold appendData. srun. srun. rewrite (no_filters (senderFilters _)). cbn [length Nat.mul Nat.add doAppendData].
    eapply sg_run; [srun; rewrite (no_filters (senderFilters _)); reflexivity|]. cbn beta iota.
    do 3 srun. cbn [sg_when]. fold d1. change (default [] (buffers (cleaned_w d w) !! b)) with data.
    change (actions (cleaned_w d w)) with (actions w). fold w1. fold d2.
    unfold endStream. do 2 srun. change (downstreamRecvDone d2) with (downstreamRecvDone d). rewrite Hrecv. cbn [negb orb].
    change (upstreamProcessDone d2) with true. cbn [negb orb]. exact E. }
  split_and!; try done.
  - intros i t. rewrite H9. apply Hq.
  - rewrite H6. subst w1. cbn. by rewrite <- app_assoc.
Qed.

(** The worker takes a job when there is no control event. *)
Lemma worker_job e j d w d1 w1 : ctrlChan w = [] → jobChan w = (e :: j)%list → streamMap w = Some false →
  e ≠ startEvent → e ≠ stopEvent →
  handle_event (SF := ES) (RF := ES) Route clusterGet connPoolFor poolNewStream UpstreamProtocol
    conn_local conn_remote sentHeaders rand accessLogs e (d, set_jobChan j w) = Ret (tt, (d1, w1)) →
  run_exec (Worker false) (d, w) =
    Ret (tt, (d1, set_streamMap (Some (default false (streamMap w1) || upstreamProcessDone d1)) w1)).
Proof.
  intros Hc Hj Hm H1 H2 E. cbn [exec]. unfold eventDispatch. do 2 srun. rewrite Hc, Hj. srun.
  destruct e; try done; unfold eventProcess; srun; change (streamMap (set_jobChan j w)) with (streamMap w); rewrite Hm;
    (eapply sg_run; [exact E|]); do 2 srun; reflexivity.
Qed.

(** C4. A request is relayed: its headers and body reach the pool's stream and
    the response's headers and body come back, unchanged and in order, and
    nothing else is sent; afterwards the stream is cleaned up, no longer active,
    unknown to the worker, and none of its timers is running. *)
Theorem request_relayed now stats res :
  ∃ s l, run_all [InHeaders h false; InData body true; Worker false; Worker false; Worker false;
                  UpHeaders rh false; UpData rbody true; Worker false; Worker false; Worker false]
           (proxy_NewStream now [] [] stats res) = Ret (tt, s) ∧
    actions s.2 = ([ANewStream p request_id; AReqAddListener 1; AReqHeaders 1 h false; AReqData 1 body true;
                    ARespHeaders (MMap (default ∅ rh)) false; ARespData rbody true] ++ l)%list ∧
    Forall (λ a, housekeeping a = true) l ∧
    downstreamCleaned s.1 = true ∧ requestActive s.2 = 0 ∧ streamMap s.2 = None ∧ quiet s.2.
Proof.
  set (s0 := proxy_NewStream now [] [] stats res).
  set (d0 := set_downstreamReqDataBuf (Some 0%nat) (s0.1 : downStream ES ES)).
  set (w0 := mk_world {[0%nat := body]} 1 [] stats res 0 [] [receiveHeadersEvent Downstream h false; receiveDataEvent Downstream 0 true]
    (Some false) now 1 0 true []).
  destruct (relay_headers d0 (set_jobChan [receiveDataEvent Downstream 0 true] w0))
    as (d1 & w1 & E1 & Hr1 & Hdn1 & Hc1 & Hn1 & [t Ht1] & _ & _ & _ & Ha1 & Hct1 & Hj1 & Hm1 & Htm1 & Hb1); [done..|].
  destruct (relay_body d1 (set_jobChan [] (set_streamMap (Some false) w1)) 0 1 (mk_ur None (Some 1%nat) p None false false false) t)
    as (d2 & w2 & E2 & Hrv2 & Hs2 & Hdn2 & Hc2 & Hn2 & Htr2 & Hr2 & Ha2 & Hct2 & Hj2 & Hm2);
    [exact Hr1|done|exact Hdn1|done|done| |].
  { intros i x Hi. cbn in Hi. by rewrite Htm1 in Hi. }
  set (b := nextBuffer w2). set (d3 := set_downstreamRespDataBuf (Some b) d2).
  set (w3 := set_buffers (<[b := rbody]> (buffers w2)) (set_nextBuffer (S b) (set_streamMap (Some false) w2))).
  destruct (relay_resp_headers d3 (set_jobChan [receiveDataEvent Upstream b true] w3))
    as (d4 & w4 & E4 & Hrv4 & Hs4 & Hdn4 & Hc4 & Hn4 & Htr4 & Hr4 & Ha4 & Hct4 & Hj4 & Hm4 & Hb4); [done|done|exact Htr2|].
  destruct (relay_resp_data d4 (set_jobChan [] (set_streamMap (Some false) w4)) b)
    as (d5 & w5 & l & E5 & Hc5 & Hdn5 & Hq5 & Hac5 & Hct5 & Hj5 & Hm5 & Hl5 & Ha5);
    [done|done|exact Htr4|by rewrite Hrv4|by rewrite Hs4|by rewrite Hc4; cbn; rewrite Hc2, Hc1|].
  cbn in Hct5, Hm5, Hac5, Ha5, Ha4, Hct4, Hct2, Ha2, Ha1, Hct1, Hm1, Hj1, Hm2, Hj2, Hm4, Hj4.
  assert (run_all [InHeaders h false; InData body true; Worker false; Worker false; Worker false;
                  UpHeaders rh false; UpData rbody true; Worker false; Worker false; Worker false] s0
    = Ret (tt, (d5, set_streamMap None (set_ctrlChan [] (set_streamMap (Some (default false (streamMap w5) || upstreamProcessDone d5)) w5)))))
    as Erun.
  { cbn [exec_all]. do 3 srun.
    eapply sg_run; [eapply (worker_job _ [receiveDataEvent Downstream 0 true] d0 w0); [done..|exact E1]|].
    rewrite Hm1, Hdn1. cbn [default orb].
    eapply sg_run; [eapply (worker_job (receiveDataEvent Downstream 0 true) []); [exact Hct1|exact Hj1|done..|exact E2]|].
    rewrite Hm2, Hdn2. cbn [default orb]. do 2 srun.
    eapply sg_run; [eapply (worker_job (receiveHeadersEvent Upstream rh false) [receiveDataEvent Upstream b true]);
      [cbn; by rewrite Hct2, Hct1|cbn; by rewrite Hj2|done..|]; cbn [handle_event]; exact E4|].
    rewrite Hm4, Hdn4. cbn [default orb].
    eapply sg_run; [eapply (worker_job (receiveDataEvent Upstream b true) []);
      [cbn; by rewrite Hct4, Hct2, Hct1|cbn; by rewrite Hj4|done..|exact E5]|].
    eapply sg_run; [cbn [exec]; unfold eventDispatch; do 2 srun; cbn [ctrlChan jobChan set_streamMap]; rewrite Hct5, Hct4, Hct2, Hct1, Hj5;
      reflexivity|]. reflexivity. }
  eexists _, l. split; [exact Erun|]. apply cleaned_once_run in Erun. destruct Erun as [_ Hv]. unfold view in Hv. cbn in Hv.
  rewrite Hc5 in Hv. destruct Hv as (Hact & _).
  split_and!; try done. cbn [fst snd actions set_streamMap set_ctrlChan].
  rewrite Ha5, Ha4, Ha2, Ha1, Hb4, Hb1. cbn. by rewrite lookup_insert_eq.
Qed.
End relay.
End flow.

(** ** Retries *)

Section retries.
  Context {SF RF : Type} (rand : nat → nat).
  Abbreviation st := (downStream SF RF * world)%type.
  Abbreviation run_retry := (retry (SF := SF) (RF := RF) rand).

Lemma retryState_reset_run (d : downStream SF RF) w r : retry_state d = Some r →
  retryState_reset (d, w) = Ret (tt, (set_retry_state (Some (retry_reset r (retries_res w)).1) d,
                                      set_retries_res (retry_reset r (retries_res w)).2 w)).
Proof.
  intros Hr. unfold retryState_reset. srun. rewrite Hr. srun. destruct (retry_reset _ _) as [r' res']. srun. reflexivity.
Qed.

(** A cluster made by [newClusterStats] has no counters for retries: the
    first response with a status of at least 500, on a route that retries,
    panics the proxy, whether or not the retry would be allowed. *)
Theorem retriable_response_panics (d : downStream SF RF) w r h reason code :
  retry_state d = Some r → retryOn r = true → retiesRemaining r ≠ 0 → reason ≠ StreamOverflow →
  h !! HeaderStatus = Some code → 500 ≤ Atoi code → cluster_stats w = newClusterStats →
  run_retry (Some h) reason (d, w) = Panic NilDeref.
Proof.
  intros Hr Hon Hrem Hre Hst Hcode Hcs. unfold retry.
  erewrite sg_bind_run; [|by apply retryState_reset_run].
  srun. set (res := (retry_reset r (retries_res w)).2).
  assert (∃ f, (retry_reset r (retries_res w)).1 = mk_retry true (retiesRemaining r) f (retryTimer r)) as [f Ef].
  { unfold retry_reset. destruct r as [on rem [] t]; cbn in *; subst; by eexists. }
  cbn [retry_state set_retry_state]. rewrite Ef. do 3 srun. change (retries_res _) with res.
  change (cluster_stats _) with (cluster_stats w). rewrite Hcs.
  unfold shouldRetry. cbn [retiesRemaining retryOn retryFunc retryTimer]. rewrite bool_decide_false by done.
  unfold doRetryCheck. cbn [retryOn]. rewrite (bool_decide_false (reason = _)) by done.
  change (Some h ≫= lookup HeaderStatus) with (h !! HeaderStatus). rewrite Hst, bool_decide_true by done. cbn [negb].
  destruct (CanCreate res); [done|]. do 3 srun. reflexivity.
Qed.

(** Retries and resets in any order. *)
Inductive retry_op := RetryOp (h : option header_map) (reason : string) | ResetOp.
Definition run_retry_op (o : retry_op) : SG st unit :=
  match o with
  | RetryOp h reason => _ ← run_retry h reason; mret tt
  | ResetOp => retryState_reset
  end.
Fixpoint run_retry_ops (l : list retry_op) : SG st unit :=
  match l with [] => mret tt | o :: l => _ ← run_retry_op o; run_retry_ops l end.

Definition is_retry_timer (t : timer) : bool := bool_decide (t_callback t = CB_doRetry).
Definition scheduled (w : world) : Z := Z.of_nat (length (filter (λ t, is_retry_timer t = true) (timers w))).

(** [n0] retries were scheduled and [c] counted before, [k] are allowed. *)
Record retry_inv (n0 c m k : Z) (s : st) : Prop := {
  ri_state : ∃ r, retry_state s.1 = Some r ∧ 0 ≤ retiesRemaining r ∧
    scheduled s.2 + retiesRemaining r ≤ n0 + k ∧
    current (retries_res s.2) = c + (if retryFunc r then 1 else 0) ∧ retiesRemaining r < 2 ^ 32;
  ri_max : max (retries_res s.2) = m;
}.

Lemma to_int64_small z : - 2 ^ 63 ≤ z < 2 ^ 63 → to_int64 z = z.
Proof. intros. by apply swrap_id. Qed.

Lemma retry_reset_inv n0 c m k : 0 ≤ c < 2 ^ 62 → keeps (retry_inv n0 c m k) (retryState_reset (SF := SF) (RF := RF)).
Proof.
  intros Hc [d w] [] s' [(r & Hr & H0 & H1 & H2 & H3) Hm] E. rewrite (retryState_reset_run d w r Hr) in E. injection E as <-.
  cbn in *. split; cbn; unfold retry_reset; destruct r as [on rem [] t]; cbn in *; try done.
  - eexists; split; [reflexivity|]. cbn. rewrite to_int64_small by lia. split_and!; try done. lia.
  - by eexists.
Qed.

Lemma shouldRetry_cases r res stats h reason c r' stats' : 0 ≤ retiesRemaining r < 2 ^ 32 →
  shouldRetry r res stats h reason = Ret (c, r', stats') →
  retryFunc r' = retryFunc r ∧ 0 ≤ retiesRemaining r' ≤ retiesRemaining r ∧
  (c = ShouldRetry → retiesRemaining r' + 1 ≤ retiesRemaining r ∧ CanCreate res = false).
Proof.
  intros Hr. unfold shouldRetry. case_bool_decide; [intros [= <- <- <-]; split_and!; [done|lia|lia|done]|].
  assert (to_uint32 (retiesRemaining r - 1) = retiesRemaining r - 1) as Hw by (apply uwrap_id; unfold in_u; lia).
  destruct (negb _); [intros [= <- <- <-]; cbn; rewrite Hw; split_and!; done || lia|].
  destruct (CanCreate res) eqn:Hc.
  - destruct (counter_Inc _) as [x|]; [|done]. intros [= <- <- <-]. cbn. rewrite Hw. split_and!; done || lia.
  - intros [= <- <- <-]. cbn. rewrite Hw. split_and!; [done|lia|lia|]. intros _. split; [lia|done].
Qed.

Lemma retry_keeps_inv n0 c m k h reason : 0 ≤ c < 2 ^ 62 → keeps (retry_inv n0 c m k) (run_retry h reason).
Proof.
  intros Hc [d w] a s' HI E. unfold retry in E. apply sg_bind_Ret_inv in E as ([] & [d1 w1] & E1 & E).
  pose proof HI as [(r0 & Hr0 & _) _]. pose proof (retryState_reset_run d w r0 Hr0) as E1'. cbn in Hr0.
  assert (retry_inv n0 c m k (d1, w1)) as [(r & Hr & H0 & H1 & H2 & H3) Hm] by by eapply retry_reset_inv.
  rewrite E1' in E1. injection E1 as <- <-. cbn [fst snd] in *.
  assert (retryFunc r = false) as Hf.
  { cbn in Hr. injection Hr as <-. unfold retry_reset. by destruct r0 as [? ? [] ?]. }
  cbn in Hr. injection Hr as Hr. apply sg_bind_Ret_inv in E as (o & ? & [= <- <-] & E). cbn [retry_state set_retry_state fst] in E.
  rewrite Hr in E. do 3 apply sg_bind_Ret_inv in E as (? & ? & [= <- <-] & E). cbn [fst snd] in E.
  apply sg_bind_Ret_inv in E as ([[chk r'] stats'] & ? & Es & E). unfold sg_lift in Es.
  destruct (shouldRetry _ _ _ _ _) as [[[chk0 r0'] stats0]|] eqn:Esr; [|done]. injection Es as -> -> -> <-.
  apply shouldRetry_cases in Esr as (Hf' & Hrem & Hsh); [|lia].
  do 2 apply sg_bind_Ret_inv in E as (? & ? & [= <- <-] & E). cbn [fst snd] in E.
  assert (∀ s, s = (set_retry_state (Some r') (set_retry_state (Some (retry_reset r0 (retries_res w)).1) d),
    set_cluster_stats stats' (set_retries_res (retry_reset r0 (retries_res w)).2 w)) → retry_inv n0 c m k s) as Hno.
  { intros s ->. split; [|done]. exists r'. unfold scheduled in *. cbn in *. rewrite Hf'. split_and!; [done|lia|lia|done|lia]. }
  destruct chk; [|injection E as <- <-; by apply Hno..].
  destruct (Hsh eq_refl) as [Hlt _]. clear Hno Hsh. apply sg_bind_Ret_inv in E as (t & s2 & Et & E).
  unfold scheduleRetry in Et. do 5 apply sg_bind_Ret_inv in Et as (? & ? & [= <- <-] & Et). cbn [fst snd] in Et.
  apply sg_bind_Ret_inv in Et as (cc & ? & Ec & Et). unfold sg_lift in Ec. destruct (counter_Inc _) as [cc'|]; [|done].
  injection Ec as -> <-. do 2 apply sg_bind_Ret_inv in Et as (? & ? & [= <- <-] & Et). cbn [fst snd] in Et.
  apply sg_bind_Ret_inv in Et as (iv & ? & Ei & Et). unfold sg_lift in Ei. destruct (Intn _ _) as [iv'|]; [|done].
  injection Ei as -> <-. unfold newTimer in Et. do 2 apply sg_bind_Ret_inv in Et as (? & ? & [= <- <-] & Et).
  injection Et as <- <-. apply sg_bind_Ret_inv in E as (? & ? & [= <- <-] & E). injection E as <- <-.
  split; [|done]. eexists. split; [reflexivity|]. cbn in *. rewrite Hf in H2.
  unfold scheduled in *. cbn in *. rewrite filter_app, length_app, filter_cons_True, filter_nil by done. cbn.
  rewrite to_int64_small by lia. split_and!; lia.
Qed.

(** C32. Retries are bounded and accounted for.  Through any sequence of
    responses, resets and clean-ups, at most max(3, NumRetries) retries are
    scheduled, and the cluster's counter of pending retries is what it was
    before, plus one while a retry is pending. *)
Theorem retries_bounded d w rule ops s :
  retry_state d = Some (newRetryState rule) → 0 ≤ rule_NumRetries rule < 2 ^ 32 →
  0 ≤ current (retries_res w) < 2 ^ 62 →
  run_retry_ops ops (d, w) = Ret (tt, s) →
  scheduled s.2 ≤ scheduled w + Z.max 3 (rule_NumRetries rule) ∧
  ∃ r, retry_state s.1 = Some r ∧
    current (retries_res s.2) = current (retries_res w) + (if retryFunc r then 1 else 0).
Proof.
  intros Hr Hnum Hc E. set (c := current (retries_res w)) in *.
  assert (retry_inv (scheduled w) c (max (retries_res w)) (Z.max 3 (rule_NumRetries rule)) s) as HI.
  { revert E.
    assert (keeps (retry_inv (scheduled w) c (max (retries_res w)) (Z.max 3 (rule_NumRetries rule))) (run_retry_ops ops)) as Hk.
    { clear -Hc. induction ops as [|[h reason|] ops IH]; cbn; [apply keeps_ret|..].
      - apply keeps_bind; [|done]. cbn. apply keeps_bind; [by apply retry_keeps_inv|intros; apply keeps_ret].
      - apply keeps_bind; [by apply retry_reset_inv|done]. }
    apply Hk. split; [|done]. exists (newRetryState rule). split; [exact Hr|]. cbn.
    case_bool_decide; subst c; lia. }
  destruct HI as [(r & Hr' & H0 & H1 & H2 & H3) _]. split; [lia|by exists r].
Qed.
End retries.

(** ** Timeouts *)

(** The timeouts of a request are consistent: whatever the headers say, the
    timeout of a try is off or shorter than that of the request. *)
Theorem timeouts_consistent rule headers :
  let t := parseProxyTimeout rule headers in TryTimeout t = 0 ∨ TryTimeout t < GlobalTimeout t.
Proof. unfold parseProxyTimeout. cbn. case_bool_decide; [by left|right; lia]. Qed.

(** The timeout of a try is a duration in nanoseconds and is multiplied by a
    second: from 9.22 to 18.44 seconds the product overflows and the timer fires
    at once; below, the timer runs a thousand million times too long. *)
Theorem per_try_timeout_scaled {SF RF} (d : downStream SF RF) w t :
  timeout d = Some t → 0 < TryTimeout t ≤ 18446744073 →
  ∃ i ts tm, setupPerReqTimeout (d, w) = Ret (tt, (set_perRetryTimer (Some i) d, set_timers ts w)) ∧
    ts !! i = Some tm ∧
    if bool_decide (TryTimeout t ≤ 9223372036) then t_interval tm = TryTimeout t * 1000000000
    else t_interval tm < 0.
Proof.
  intros Ht Hr.
  assert (∃ i ts, setupPerReqTimeout (d, w) = Ret (tt, (set_perRetryTimer (Some i) d,
    set_timers (ts ++ [mk_timer CB_onPerReqTimeout (to_int64 (TryTimeout t * second)) false]) w)) ∧ i = length ts)
    as (i & ts & E & Hi).
  { unfold setupPerReqTimeout. destruct (perRetryTimer d) as [k|] eqn:Hp; eexists _, _; (split; [|reflexivity]); srun; rewrite Ht; srun;
      rewrite bool_decide_true by lia; srun; rewrite Hp; srun; (eapply sg_run; [unfold newTimer; do 2 srun; reflexivity|]); reflexivity. }
  exists i, (ts ++ [mk_timer CB_onPerReqTimeout (to_int64 (TryTimeout t * second)) false])%list, (mk_timer CB_onPerReqTimeout (to_int64 (TryTimeout t * second)) false).
  split; [done|]. split; [subst i; by rewrite list_lookup_middle|]. cbn [t_interval]. unfold second. case_bool_decide.
  - apply swrap_id; [lia|]. unfold in_s. lia.
  - unfold to_int64, swrap. replace (TryTimeout t * 1000000000 + 2 ^ (64 - 1)) with
      ((TryTimeout t * 1000000000 - 2 ^ 63) + 1 * 2 ^ 64) by lia.
    rewrite Z.mod_add by lia. rewrite Z.mod_small; lia.
Qed.

(** ** Shards *)

(** Stream ids are numbers up to 2^32, but an event is given to a worker by
    reading its id as a 32-bit signed number: from the 2^31-th stream on, every
    event panics. *)
Theorem stream_ids_overflow n : 0 ≤ n < 2 ^ 32 →
  event_Source (FormatUint n) =
    if bool_decide (n < 2 ^ 31) then Ret n else Panic (UserPanic ("streamID must be numeric, unexpected :" ++ FormatUint n)).
Proof.
  intros Hn. unfold event_Source. case_bool_decide.
  - rewrite ParseInt_FormatUint by lia. unfold ParseInt_ok, FormatUint. rewrite bytes_str_bytes, split_sign_fmt, scan_fmt by lia.
    by rewrite bool_decide_true by lia.
  - unfold ParseInt_ok, FormatUint. rewrite bytes_str_bytes, split_sign_fmt, scan_fmt by lia.
    by rewrite bool_decide_false by lia.
Qed.
