(* ===== verification/ProxyFilters.v ===== *)
(** * Filter chains of the proxy

    Termination of the chains: the calls of filters that continue after having
    stopped nest at most three deep per filter, so the fuel of [Proxy] is
    enough for every chain and every behaviour of its filters.  Then the
    behaviours that the chains have: headers reach the first filter only, and
    what a filter adds in the wrong stage is lost. *)

From S2P Require Import Prelude Strconv Serialize BoltTypes Protocols Stream Cluster StateGo ProxyState Proxy.

Local Open Scope Z_scope.

Section chains.
  Context {SF RF : Type} `{!StreamSenderFilter SF} `{!StreamReceiverFilter RF}.
  Context (Route : option header_map → option RouteRule)
          (clusterGet : string → bool)
          (connPoolFor : string → string → bool → nat → option nat)
          (poolNewStream : nat → string → nat → poolOutcome)
          (UpstreamProtocol : string) (conn_local conn_remote : string)
          (sentHeaders : header_map → header_map)
          (rand : nat → nat) (accessLogs : nat).

  Abbreviation st := (downStream SF RF * world)%type.

(** The filters themselves return or panic like any Go code. *)
Context (Hsf : ∀ f h e, sf_AppendHeaders (F := SF) f h e ≠ Panic OutOfFuel)
        (Hsd : ∀ f d e, sf_AppendData (F := SF) f d e ≠ Panic OutOfFuel)
        (Hst : ∀ f t, sf_AppendTrailers (F := SF) f t ≠ Panic OutOfFuel)
        (Hrf : ∀ f h e, rf_OnDecodeHeaders (F := RF) f h e ≠ Panic OutOfFuel)
        (Hrd : ∀ f d e, rf_OnDecodeData (F := RF) f d e ≠ Panic OutOfFuel)
        (Hrt : ∀ f t, rf_OnDecodeTrailers (F := RF) f t ≠ Panic OutOfFuel).

(** Chains of [ns] sender and [nr] receiver filters, and computations that keep
    their lengths and do not run out of fuel. *)
Context (ns nr : nat).
Definition sized (s : st) : Prop := length (senderFilters s.1) = ns ∧ length (receiverFilters s.1) = nr.
Definition bounded {A} (m : SG st A) : Prop :=
  ∀ s, sized s → match m s with Ret (_, s') => sized s' | Panic k => k ≠ OutOfFuel end.

Lemma b_ret {A} (a : A) : bounded (mret a).
Proof. by intros s. Qed.
Lemma b_ds {A} (f : downStream SF RF → A) : bounded (ds f).
Proof. by intros s. Qed.
Lemma b_env {A} (f : world → A) : bounded (env f).
Proof. by intros s. Qed.
Lemma b_deref {A} (o : option A) : bounded (sg_deref o).
Proof. by destruct o; intros s. Qed.
Lemma b_lift {A} (m : Go A) : m ≠ Panic OutOfFuel → bounded (sg_lift m).
Proof. intros H s Hs. unfold sg_lift. destruct m; [done|congruence]. Qed.
Lemma b_bind {A B} (m : SG st A) (f : A → SG st B) : bounded m → (∀ a, bounded (f a)) → bounded (m ≫= f).
Proof.
  intros Hm Hf s Hs. unfold mbind, SG_bind. specialize (Hm s Hs). destruct (m s) as [[a s1]|]; [by apply Hf|done].
Qed.
Lemma b_senders {B} (f : list (activeStreamFilter SF) → SG st B) :
  (∀ fs, length fs = ns → bounded (f fs)) → bounded (ds senderFilters ≫= f).
Proof. intros Hf s Hs. apply Hf; [apply Hs|done]. Qed.
Lemma b_receivers {B} (f : list (activeStreamFilter RF) → SG st B) :
  (∀ fs, length fs = nr → bounded (f fs)) → bounded (ds receiverFilters ≫= f).
Proof. intros Hf s Hs. apply Hf; [apply Hs|done]. Qed.
Lemma b_when b m : bounded m → bounded (sg_when b m).
Proof. destruct b; [done|intros; apply b_ret]. Qed.
Lemma b_mod_ds f : (∀ d w, sized (d, w) → sized (f d, w)) → bounded (mod_ds f).
Proof. intros H [d w] Hs. by apply H. Qed.
Lemma b_mod_w f : bounded (mod_w f).
Proof. intros [d w] Hs. exact Hs. Qed.
Lemma b_mod_sf i f : bounded (mod_sf i f).
Proof. apply b_mod_ds. intros d w [H1 H2]. split; cbn in *; by rewrite ?length_alter. Qed.
Lemma b_mod_rf i f : bounded (mod_rf i f).
Proof. apply b_mod_ds. intros d w [H1 H2]. split; cbn in *; by rewrite ?length_alter. Qed.

Lemma b_sf_fuel {B} (f : nat → SG st B) : bounded (f (3 * ns + 4)%nat) → bounded (sf_fuel ≫= f).
Proof. intros Hf s Hs. unfold mbind, SG_bind, sf_fuel, ds. rewrite (proj1 Hs). by apply Hf. Qed.
Lemma b_rf_fuel {B} (f : nat → SG st B) : bounded (f (3 * nr + 4)%nat) → bounded (rf_fuel ≫= f).
Proof. intros Hf s Hs. unfold mbind, SG_bind, rf_fuel, ds. rewrite (proj2 Hs). by apply Hf. Qed.

Create HintDb bounded.
#[local] Hint Resolve b_ret b_ds b_env b_deref b_mod_w b_mod_sf b_mod_rf : bounded.
#[local] Hint Extern 1 (bounded (mod_ds _)) => apply b_mod_ds; intros ? ? ?; done : bounded.
#[local] Hint Extern 1 (bounded (sg_lift (sf_AppendHeaders _ _ _))) => by apply b_lift : bounded.
#[local] Hint Extern 1 (bounded (sg_lift (sf_AppendData _ _ _))) => by apply b_lift : bounded.
#[local] Hint Extern 1 (bounded (sg_lift (sf_AppendTrailers _ _))) => by apply b_lift : bounded.
#[local] Hint Extern 1 (bounded (sg_lift (rf_OnDecodeHeaders _ _ _))) => by apply b_lift : bounded.
#[local] Hint Extern 1 (bounded (sg_lift (rf_OnDecodeData _ _ _))) => by apply b_lift : bounded.
#[local] Hint Extern 1 (bounded (sg_lift (rf_OnDecodeTrailers _ _))) => by apply b_lift : bounded.

Ltac b_go :=
  lazymatch goal with
  | |- ∀ _, _ => intro; b_go
  | |- bounded (ds senderFilters ≫= _) => apply b_senders; b_go
  | |- bounded (ds receiverFilters ≫= _) => apply b_receivers; b_go
  | |- bounded (sf_fuel ≫= _) => apply b_sf_fuel; b_go
  | |- bounded (rf_fuel ≫= _) => apply b_rf_fuel; b_go
  | |- bounded (_ ≫= _) => apply b_bind; b_go
  | |- bounded (if ?b then _ else _) => destruct b; b_go
  | |- bounded (match ?x with _ => _ end) => destruct x eqn:?; b_go
  | |- bounded (sg_when _ _) => apply b_when; b_go
  | |- bounded (emit_action _) => unfold emit_action; b_go
  | |- bounded (mod_info _) => unfold mod_info; b_go
  | |- bounded (mod_ur _) => unfold mod_ur; b_go
  | |- bounded (Offer _) => unfold Offer; b_go
  | |- bounded (buf_get _) => unfold buf_get; b_go
  | |- bounded (buf_put _ _) => unfold buf_put; b_go
  | |- bounded (stage_on _) => unfold stage_on; b_go
  | |- bounded (stage_off _) => unfold stage_off; b_go
  | |- _ => auto with bounded
  end.

Lemma b_buf_new d : bounded (buf_new d).
Proof. unfold buf_new. b_go. Qed.
Lemma b_newTimer cb i : bounded (newTimer cb i).
Proof. unfold newTimer. b_go. Qed.
Lemma b_timer_stop i : bounded (timer_stop i).
Proof. unfold timer_stop. b_go. Qed.
Lemma b_ur_resetStream : bounded ur_resetStream.
Proof. unfold ur_resetStream. b_go. Qed.
#[local] Hint Resolve b_buf_new b_newTimer b_timer_stop b_ur_resetStream : bounded.
Lemma b_ur_appendHeaders e : bounded (ur_appendHeaders poolNewStream sentHeaders e).
Proof. unfold ur_appendHeaders, ur_OnFailure, ur_OnResetStream, ur_OnReady. b_go. Qed.
Lemma b_ur_appendData d e : bounded (ur_appendData d e).
Proof. unfold ur_appendData. b_go. Qed.
Lemma b_ur_appendTrailers t : bounded (ur_appendTrailers t).
Proof. unfold ur_appendTrailers. b_go. Qed.
Lemma b_retryState_reset : bounded retryState_reset.
Proof. unfold retryState_reset. b_go. Qed.
#[local] Hint Resolve b_ur_appendHeaders b_ur_appendData b_ur_appendTrailers b_retryState_reset : bounded.
Lemma b_cleanUp : bounded cleanUp.
Proof. unfold cleanUp, stop_perRetryTimer, stop_responseTimer. b_go. Qed.
Lemma b_destroy_all mk i n : bounded (destroy_all mk i n).
Proof. revert i. induction n as [|n IH]; intros i; cbn; b_go. Qed.
Lemma b_log_access n : bounded (log_access n).
Proof. induction n as [|n IH]; cbn; b_go. Qed.
#[local] Hint Resolve b_cleanUp b_destroy_all b_log_access : bounded.
Lemma b_cleanStream : bounded (cleanStream accessLogs).
Proof. unfold cleanStream, deleteActiveStream, give_headers, give_buffer. b_go. Qed.
#[local] Hint Resolve b_cleanStream : bounded.
Lemma b_endStream : bounded (endStream accessLogs).
Proof. unfold endStream, OnResetStream. b_go. Qed.
#[local] Hint Resolve b_endStream : bounded.
Lemma b_handleBuffer b : bounded (sf_handleBufferData b) ∧ bounded (rf_handleBufferData b).
Proof. unfold sf_handleBufferData, rf_handleBufferData, buf_ReadFrom. split; b_go. Qed.
Lemma b_sf_handle b : bounded (sf_handleBufferData b).
Proof. apply b_handleBuffer. Qed.
Lemma b_rf_handle b : bounded (rf_handleBufferData b).
Proof. apply b_handleBuffer. Qed.
#[local] Hint Resolve b_sf_handle b_rf_handle : bounded.
Lemma b_doAppendHeaders i h e : bounded (doAppendHeaders accessLogs i h e).
Proof. unfold doAppendHeaders, runAppendHeaderFilters. b_go. Qed.
#[local] Hint Resolve b_doAppendHeaders : bounded.

(** Three calls per filter that remains. *)
Lemma sender_chain fuel :
  (∀ i d e, (3 * (ns - i) + 1 ≤ fuel)%nat → bounded (runAppendDataFilters accessLogs fuel i d e)) ∧
  (∀ i t, (3 * (ns - i) + 1 ≤ fuel)%nat → bounded (runAppendTrailersFilters accessLogs fuel i t)) ∧
  (∀ f d e, (3 * (ns - next_index f) + 2 ≤ fuel)%nat → bounded (doAppendData accessLogs fuel f d e)) ∧
  (∀ f t, (3 * (ns - next_index f) + 2 ≤ fuel)%nat → bounded (doAppendTrailers accessLogs fuel f t)) ∧
  (∀ i, (3 * (ns - S i) + 3 ≤ fuel)%nat → bounded (sf_doContinue accessLogs fuel i)).
Proof.
  induction fuel as [|fuel (IH1 & IH2 & IH3 & IH4 & IH5)]; [split_and!; intros; lia|].
  split_and!; intros; cbn [runAppendDataFilters runAppendTrailersFilters doAppendData doAppendTrailers sf_doContinue]; b_go;
    repeat match goal with H : ?fs !! ?i = Some _ |- _ => apply lookup_lt_Some in H end;
    first [apply IH1|apply IH2|apply IH3|apply IH4|apply IH5]; cbn [next_index]; lia.
Qed.

Lemma b_appendHeaders h e : bounded (appendHeaders accessLogs h e).
Proof. unfold appendHeaders. b_go. Qed.
Lemma b_appendData d e : bounded (appendData accessLogs d e).
Proof. unfold appendData. b_go. apply sender_chain. cbn. lia. Qed.
Lemma b_appendTrailers t : bounded (appendTrailers accessLogs t).
Proof. unfold appendTrailers. b_go. apply sender_chain. cbn. lia. Qed.
Lemma b_ContinueEncoding i : bounded (ContinueEncoding accessLogs i).
Proof. apply b_sf_fuel, sender_chain. lia. Qed.
#[local] Hint Resolve b_appendHeaders b_appendData b_appendTrailers b_ContinueEncoding : bounded.
Lemma b_run_command c : bounded (run_command accessLogs c).
Proof.
  destruct c; cbn [run_command]; unfold resetStream; b_go; apply sender_chain; cbn; lia.
Qed.
Lemma b_run_commands l : bounded (run_commands accessLogs l).
Proof. induction l as [|c l IH]; cbn; [b_go|]. apply b_bind; [apply b_run_command|done]. Qed.
Lemma b_sendHijackReply c h : bounded (sendHijackReply accessLogs c h).
Proof. unfold sendHijackReply. b_go. Qed.
#[local] Hint Resolve b_run_commands b_sendHijackReply : bounded.
Lemma b_setupPerReqTimeout : bounded setupPerReqTimeout.
Proof. unfold setupPerReqTimeout. b_go. Qed.
#[local] Hint Resolve b_setupPerReqTimeout : bounded.
Lemma b_onUpstreamRequestSent : bounded onUpstreamRequestSent.
Proof. unfold onUpstreamRequestSent. b_go. Qed.
Lemma b_initializePool n b :
  bounded (initializeUpstreamConnectionPool clusterGet connPoolFor UpstreamProtocol accessLogs n b).
Proof. unfold initializeUpstreamConnectionPool. b_go. Qed.
#[local] Hint Resolve b_onUpstreamRequestSent b_initializePool : bounded.
Abbreviation rcv_headers := (doReceiveHeaders Route clusterGet connPoolFor poolNewStream UpstreamProtocol
  conn_local conn_remote sentHeaders accessLogs).
Lemma b_doReceiveHeaders i e : bounded (rcv_headers i e).
Proof. unfold doReceiveHeaders, runReceiveHeadersFilters. b_go. Qed.
#[local] Hint Resolve b_doReceiveHeaders : bounded.

Abbreviation with_env f := (f Route clusterGet connPoolFor poolNewStream UpstreamProtocol
  conn_local conn_remote sentHeaders accessLogs).

Lemma receiver_chain fuel :
  (∀ i d e, (3 * (nr - i) + 1 ≤ fuel)%nat → bounded (with_env runReceiveDataFilters fuel i d e)) ∧
  (∀ i t, (3 * (nr - i) + 1 ≤ fuel)%nat → bounded (with_env runReceiveTrailersFilters fuel i t)) ∧
  (∀ f d e, (3 * (nr - next_index f) + 2 ≤ fuel)%nat → bounded (with_env doReceiveData fuel f d e)) ∧
  (∀ f t, (3 * (nr - next_index f) + 2 ≤ fuel)%nat → bounded (with_env doReceiveTrailers fuel f t)) ∧
  (∀ i, (3 * (nr - S i) + 3 ≤ fuel)%nat → bounded (with_env rf_doContinue fuel i)).
Proof.
  induction fuel as [|fuel (IH1 & IH2 & IH3 & IH4 & IH5)]; [split_and!; intros; lia|].
  split_and!; intros; cbn [runReceiveDataFilters runReceiveTrailersFilters doReceiveData doReceiveTrailers rf_doContinue]; b_go;
    repeat match goal with H : ?fs !! ?i = Some _ |- _ => apply lookup_lt_Some in H end;
    first [apply IH1|apply IH2|apply IH3|apply IH4|apply IH5]; cbn [next_index]; lia.
Qed.
Lemma b_ReceiveHeaders h e : bounded (with_env ReceiveHeaders h e).
Proof. unfold ReceiveHeaders. b_go. Qed.
Lemma b_ReceiveData d e : bounded (with_env ReceiveData d e).
Proof. unfold ReceiveData. b_go. apply receiver_chain. cbn. lia. Qed.
Lemma b_ReceiveTrailers t : bounded (with_env ReceiveTrailers t).
Proof. unfold ReceiveTrailers. b_go. apply receiver_chain. cbn. lia. Qed.
Lemma b_ContinueDecoding i : bounded (with_env ContinueDecoding i).
Proof. apply b_rf_fuel, receiver_chain. lia. Qed.
#[local] Hint Resolve b_ReceiveHeaders b_ReceiveData b_ReceiveTrailers b_ContinueDecoding : bounded.

(** The rest of the machine has no loops of its own. *)
Lemma b_counter_Inc c : counter_Inc c ≠ Panic OutOfFuel.
Proof. by destruct c. Qed.
Lemma b_Intn r n : Intn r n ≠ Panic OutOfFuel.
Proof. unfold Intn. by case_match. Qed.
Lemma b_shouldRetry r res stats h reason : shouldRetry r res stats h reason ≠ Panic OutOfFuel.
Proof. unfold shouldRetry. repeat case_match; try done. by destruct (cs_RequestRetryOverflow stats). Qed.
#[local] Hint Extern 1 (bounded (sg_lift _)) => apply b_lift; auto using b_counter_Inc, b_Intn, b_shouldRetry : bounded.
Lemma b_setupRetry e : bounded (setupRetry e).
Proof. unfold setupRetry, stop_perRetryTimer. b_go. Qed.
#[local] Hint Resolve b_setupRetry : bounded.
Lemma b_try_retry h r e : bounded (try_retry rand h r e).
Proof. unfold try_retry, retry, scheduleRetry. b_go. Qed.
#[local] Hint Resolve b_try_retry : bounded.
Lemma b_onUpstreamReset t r : bounded (onUpstreamReset rand accessLogs t r).
Proof. unfold onUpstreamReset, resetStream. b_go. Qed.
Lemma b_recvFinished : bounded onUpstreamResponseRecvFinished.
Proof. unfold onUpstreamResponseRecvFinished. b_go. Qed.
Lemma b_check_retry h e : bounded (check_retry rand h e).
Proof. unfold check_retry. b_go. Qed.
#[local] Hint Resolve b_onUpstreamReset b_recvFinished b_check_retry : bounded.
Lemma b_ds_ResetStream r : bounded (ds_ResetStream accessLogs r).
Proof. unfold ds_ResetStream. b_go. Qed.
#[local] Hint Resolve b_ds_ResetStream : bounded.
Lemma b_handle_event e : bounded (handle_event Route clusterGet connPoolFor poolNewStream UpstreamProtocol
  conn_local conn_remote sentHeaders rand accessLogs e).
Proof.
  destruct e as [| |[] ?|[] ? ?|[] ? ?|[] ?]; cbn [handle_event];
    unfold ur_ResetStream, ur_ReceiveHeaders, ur_ReceiveData, ur_ReceiveTrailers, onUpstreamHeaders, onUpstreamData,
      onUpstreamTrailers; b_go.
Qed.
#[local] Hint Resolve b_handle_event : bounded.
Lemma b_eventProcess e : bounded (eventProcess Route clusterGet connPoolFor poolNewStream UpstreamProtocol
  conn_local conn_remote sentHeaders rand accessLogs e).
Proof. unfold eventProcess. b_go. Qed.
Lemma b_count_timeout : bounded count_timeout.
Proof. unfold count_timeout. b_go. Qed.
#[local] Hint Resolve b_eventProcess b_count_timeout : bounded.
Lemma b_timer_fire i : bounded (timer_fire clusterGet connPoolFor poolNewStream UpstreamProtocol sentHeaders rand accessLogs i).
Proof. unfold timer_fire, onResponseTimeout, onPerReqTimeout, doRetry. b_go. Qed.
#[local] Hint Resolve b_timer_fire : bounded.
Lemma b_exec i : bounded (exec Route clusterGet connPoolFor poolNewStream UpstreamProtocol
  conn_local conn_remote sentHeaders rand accessLogs i).
Proof.
  destruct i; cbn [exec]; unfold OnReceiveHeaders, OnReceiveData, OnReceiveTrailers, OnDecodeError, OnResetStream,
    ur_OnReceiveHeaders, ur_OnReceiveData, ur_OnReceiveTrailers, ur_OnDecodeError, ur_OnResetStream, eventDispatch; b_go.
Qed.
Lemma b_exec_all l : bounded (exec_all Route clusterGet connPoolFor poolNewStream UpstreamProtocol
  conn_local conn_remote sentHeaders rand accessLogs l).
Proof. induction l as [|i l IH]; cbn; [b_go|]. apply b_bind; [apply b_exec|done]. Qed.
End chains.

(** ** Termination *)

(** C27. Every run of a stream returns or panics like the Go code: the fuel of the
    filter chains is enough, whatever the filters do, stop, hold back, continue
    or reply, for chains of any length and for every order of events. *)
Theorem chains_terminate {SF RF : Type} `{!StreamSenderFilter SF} `{!StreamReceiverFilter RF}
    Route clusterGet connPoolFor poolNewStream UpstreamProtocol conn_local conn_remote sentHeaders rand accessLogs
    now (sfs : list SF) (rfs : list RF) stats res inputs :
  (∀ f h e, sf_AppendHeaders (F := SF) f h e ≠ Panic OutOfFuel) →
  (∀ f d e, sf_AppendData (F := SF) f d e ≠ Panic OutOfFuel) →
  (∀ f t, sf_AppendTrailers (F := SF) f t ≠ Panic OutOfFuel) →
  (∀ f h e, rf_OnDecodeHeaders (F := RF) f h e ≠ Panic OutOfFuel) →
  (∀ f d e, rf_OnDecodeData (F := RF) f d e ≠ Panic OutOfFuel) →
  (∀ f t, rf_OnDecodeTrailers (F := RF) f t ≠ Panic OutOfFuel) →
  exec_all Route clusterGet connPoolFor poolNewStream UpstreamProtocol conn_local conn_remote sentHeaders rand accessLogs
    inputs (proxy_NewStream now sfs rfs stats res) ≠ Panic OutOfFuel.
Proof.
  intros H1 H2 H3 H4 H5 H6 E.
  pose proof (b_exec_all Route clusterGet connPoolFor poolNewStream UpstreamProtocol conn_local conn_remote sentHeaders
    rand accessLogs H1 H2 H3 H4 H5 H6 (length sfs) (length rfs) inputs (proxy_NewStream now sfs rfs stats res)) as H.
  rewrite E in H. apply H; [|done]. split; cbn; by rewrite length_fmap.
Qed.

(** ** What the chains do *)

Section behaviour.
  Context {SF RF : Type} `{!StreamSenderFilter SF} `{!StreamReceiverFilter RF} (accessLogs : nat).

(** The headers of a request reach the first filter of the chain only: when
    it lets them pass, the loop returns, and the filters behind it never see
    them. *)
Theorem headers_reach_first_filter_only (d : downStream SF RF) w f rest x h e :
  receiverFilters d = f :: rest →
  rf_OnDecodeHeaders (af_filter f) (downstreamReqHeaders d) e = Ret (x, h, [], FilterHeadersStatusContinue) →
  ∃ d', runReceiveHeadersFilters accessLogs None e (d, w) = Ret (false, (d', w)) ∧
    receiverFilters d' = mk_asf x (af_stopped f) (af_stoppedNoBuf f) true :: rest ∧ downstreamReqHeaders d' = h.
Proof.
  intros Hf Hx. eexists. split.
  - unfold runReceiveHeadersFilters. cbn [next_index]. srun. rewrite Hf. cbn [lookup list_lookup]. do 2 srun.
    change (downstreamReqHeaders (set_filterStage _ d)) with (downstreamReqHeaders d).
    eapply sg_run; [unfold sg_lift; rewrite Hx; reflexivity|]. cbn beta iota. do 5 srun. reflexivity.
  - cbn. by rewrite Hf.
Qed.

(** The stage of a chain that handles trailers. *)
Definition in_trailers (d : downStream SF RF) : downStream SF RF :=
  set_filterStage (Z.lor (filterStage d) DecodeTrailers) d.

(** Data that a receiver filter adds while it handles trailers is dropped:
    the constants of the stages are consecutive numbers used as bit masks, and
    the case for trailers tests the constant of the other direction. *)
Theorem data_added_in_trailers_dropped Route clusterGet connPoolFor poolNewStream UpstreamProtocol conn_local conn_remote
    sentHeaders (d : downStream SF RF) w i b streaming :
  filterStage d = 0 →
  addDecodedData Route clusterGet connPoolFor poolNewStream UpstreamProtocol conn_local conn_remote sentHeaders
    accessLogs i b streaming (in_trailers d, w) = Ret (tt, (in_trailers d, w)).
Proof. intros Hs. unfold addDecodedData. srun. cbn [filterStage in_trailers set_filterStage]. rewrite Hs. done. Qed.
End behaviour.
