(* ===== verification/ProxyRuns.v ===== *)
(** * Runs of concrete streams

    A proxy with one route, one cluster and one pool; the theorems about
    [Proxy] at work on it, and runs that show what the interleavings excluded
    by [ProxyLife] lead to. *)

From S2P Require Import Prelude Strconv Serialize BoltTypes Protocols Stream Cluster StateGo ProxyState Proxy ProxyProps ProxyLife ProxyFlow ProxyFilters.

Local Open Scope Z_scope.

(** ** The surroundings *)

Definition demo_rule : RouteRule := mk_rule "backend" 3000000000 false 0 0.
Definition demo_route (h : option header_map) : option RouteRule :=
  match h ≫= lookup "service"%string with Some _ => Some demo_rule | None => None end.
Definition demo_cluster (c : string) : bool := bool_decide (c = "backend"%string).
Definition demo_pool (_ _ : string) (_ : bool) (_ : nat) : option nat := Some 7%nat.
Definition demo_stream (_ : nat) (_ : string) (_ : nat) : poolOutcome := PoolReady "10.0.0.1:8080".
Definition demo_request : option header_map := Some {["service"%string := "orders"%string]}.
Definition demo_reply : option header_map := Some {["x"%string := "y"%string]}.
Definition demo_stats : ClusterStats := newClusterStats.
Definition demo_res : resource := mk_res 0 10.

Abbreviation ES := Empty_set.
Abbreviation demo_exec := (exec (SF := ES) (RF := ES) demo_route demo_cluster demo_pool demo_stream "SofaRpc"
  "10.0.0.2:2045" "10.0.0.3:4000" id (λ _, 3%nat) 1).
Abbreviation demo_run := (exec_all (SF := ES) (RF := ES) demo_route demo_cluster demo_pool demo_stream "SofaRpc"
  "10.0.0.2:2045" "10.0.0.3:4000" id (λ _, 3%nat) 1).
Abbreviation demo_new := (proxy_NewStream (SF := ES) (RF := ES) 0 [] [] demo_stats demo_res).

Definition demo_inputs : list input :=
  [InHeaders demo_request false; InData [Byte.x01] true; Worker false; Worker false; Worker false;
   UpHeaders demo_reply false; UpData [Byte.x02] true; Worker false; Worker false; Worker false].

(** ** Reachable states by evaluation *)

#[export] Instance allowed_dec s i : Decision (allowed s i).
Proof. unfold Decision. destruct i; cbn [allowed]; solve_decision. Defined.

Fixpoint allowed_run (l : list input) (s : downStream ES ES * world) : bool :=
  match l with
  | [] => true
  | i :: l => bool_decide (allowed s i) && match demo_exec i s with Ret (_, s') => allowed_run l s' | Panic _ => false end
  end.

Lemma reachable_run l s s' :
  reachable demo_route demo_cluster demo_pool demo_stream "SofaRpc" "10.0.0.2:2045" "10.0.0.3:4000" id (λ _, 3%nat) 1 s →
  allowed_run l s = true → demo_run l s = Ret (tt, s') →
  reachable demo_route demo_cluster demo_pool demo_stream "SofaRpc" "10.0.0.2:2045" "10.0.0.3:4000" id (λ _, 3%nat) 1 s'.
Proof.
  revert s. induction l as [|i l IH]; intros s Hr Ha E; [by injection E as <-|]. cbn [allowed_run exec_all] in *.
  apply andb_prop in Ha as [Hal%bool_decide_eq_true Ha].
  apply sg_bind_Ret_inv in E as ([] & s1 & E1 & E). rewrite E1 in Ha. eapply IH; [|exact Ha|exact E].
  by eapply reach_step.
Qed.

Lemma demo_noretry h rule : demo_route h = Some rule → rule_RetryOn rule = false.
Proof. unfold demo_route. case_match; [by intros [= <-]|done]. Qed.

(** The answer of the upstream arrives, and the request times out. *)
Definition race_inputs : list input :=
  [InHeaders demo_request false; InData [Byte.x01] true; Worker false; Worker false; Worker false;
   UpHeaders demo_reply false; UpData [Byte.x02] true; TimerFires 0].

(** What [one_answer] excludes does happen when a control event is put into
    its channel between the two looks of the worker: the request has timed out
    and was answered, the response of the upstream is queued, the worker takes
    the queued jobs before the stop event, and the client is answered twice. *)
Theorem late_control_event_answers_twice :
  ∃ s s', reachable demo_route demo_cluster demo_pool demo_stream "SofaRpc" "10.0.0.2:2045" "10.0.0.3:4000" id
      (λ _, 3%nat) 1 s ∧ ends s.2 = 1%nat ∧ downstreamCleaned s.1 = true ∧
    demo_run [Worker true; Worker true] s = Ret (tt, s') ∧ ends s'.2 = 2%nat.
Proof.
  destruct (demo_run race_inputs demo_new) as [[[] s]|] eqn:E; [|vm_compute in E; discriminate].
  destruct (demo_run [Worker true; Worker true] s) as [[[] s']|] eqn:E'.
  - exists s, s'. split; [|vm_compute in E; injection E as <-; vm_compute in E'; injection E' as <-; done].
    by eapply reachable_run; [apply reach_new| |exact E]; vm_compute.
  - vm_compute in E. injection E as <-. vm_compute in E'. discriminate.
Qed.

(** ** Instances of the theorems *)

Lemma stream_cleaned_once_witness :
  match demo_run demo_inputs demo_new with
  | Ret (_, s) => downstreamCleaned s.1 = true ∧ cleaned_once 1 0 (view s)
  | Panic _ => False
  end.
Proof.
  destruct (demo_run demo_inputs demo_new) as [[[] s]|] eqn:E; [|vm_compute in E; discriminate].
  split; [vm_compute in E; by injection E as <-|].
  apply (stream_cleaned_once demo_route demo_cluster demo_pool demo_stream "SofaRpc" "10.0.0.2:2045" "10.0.0.3:4000" id
    (λ _, 3%nat) 1 0 [] [] demo_stats demo_res demo_inputs s E).
Defined.

Lemma one_answer_witness :
  match demo_run race_inputs demo_new with
  | Ret (_, s) => ends s.2 = 1%nat ∧ (ends s.2 ≤ 1)%nat ∧ (ends s.2 = 1%nat → upstreamProcessDone s.1 = true ∧ quiet s.2)
  | Panic _ => False
  end.
Proof.
  destruct (demo_run race_inputs demo_new) as [[[] s]|] eqn:E; [|vm_compute in E; discriminate].
  split; [vm_compute in E; by injection E as <-|].
  apply (one_answer demo_route demo_cluster demo_pool demo_stream "SofaRpc" "10.0.0.2:2045" "10.0.0.3:4000" id
    (λ _, 3%nat) 1 demo_noretry s).
  by eapply reachable_run; [apply reach_new| |exact E]; vm_compute.
Defined.

(** A request for no service, with a body, and one after its stream was lost. *)
Definition refused_inputs : list input := [InData [Byte.x01] true; Worker false; InReset StreamRemoteReset; Worker false].

Lemma refused_request_leaks_witness :
  match demo_run ([InHeaders None false; Worker false; Worker false; Worker false] ++ refused_inputs) demo_new with
  | Ret (_, s) => downstreamCleaned s.1 = false ∧ requestActive s.2 = 1 ∧ inActiveSteams s.2 = true
  | Panic _ => False
  end.
Proof.
  destruct (demo_run ([InHeaders None false; Worker false; Worker false; Worker false] ++ refused_inputs) demo_new)
    as [[[] s]|] eqn:E; [|vm_compute in E; discriminate].
  apply (refused_request_leaks demo_route demo_cluster demo_pool demo_stream "SofaRpc" "10.0.0.2:2045" "10.0.0.3:4000" id
    (λ _, 3%nat) 1 demo_noretry None 0 demo_stats demo_res refused_inputs s); [by apply refused_route|exact E].
Defined.

Lemma request_relayed_witness :
  ∃ s l, demo_run demo_inputs demo_new = Ret (tt, s) ∧
    actions s.2 = ([ANewStream 7 (request_id demo_request); AReqAddListener 1; AReqHeaders 1 demo_request false;
                    AReqData 1 [Byte.x01] true; ARespHeaders (MMap (default ∅ demo_reply)) false;
                    ARespData [Byte.x02] true] ++ l)%list ∧
    Forall (λ a, housekeeping a = true) l ∧
    downstreamCleaned s.1 = true ∧ requestActive s.2 = 0 ∧ streamMap s.2 = None ∧ quiet s.2.
Proof.
  apply (request_relayed demo_route demo_cluster demo_pool demo_stream "SofaRpc" "10.0.0.2:2045" "10.0.0.3:4000" id
    (λ _, 3%nat) 1 demo_request [Byte.x01] demo_reply [Byte.x02] demo_rule 7 "10.0.0.1:8080"); vm_compute; reflexivity.
Defined.

Definition retrying_rule : RouteRule := mk_rule "backend" 3000000000 true 0 5.
Definition retrying (d : downStream ES ES) : downStream ES ES := set_retry_state (Some (newRetryState retrying_rule)) d.

Lemma retriable_response_panics_witness :
  retry (λ _, 3%nat) (Some {[HeaderStatus := "503"%string]}) EmptyString
    (retrying (newActiveStream 0 [] []), demo_new.2) = Panic NilDeref.
Proof.
  apply (retriable_response_panics (λ _, 3%nat) (retrying (newActiveStream 0 [] [])) demo_new.2
    (newRetryState retrying_rule) {[HeaderStatus := "503"%string]} EmptyString "503"); vm_compute; done.
Defined.

(** Counters as the code would need them, and no room for pending retries. *)
Definition retry_world : world := set_retries_res (mk_res 10 10) (set_cluster_stats (mk_cstats (Some 0) (Some 0) (Some 0)) demo_new.2).
Definition retry_ops : list (retry_op) :=
  [RetryOp (Some {[HeaderStatus := "503"%string]}) EmptyString; RetryOp None StreamRemoteReset; ResetOp;
   RetryOp (Some {[HeaderStatus := "500"%string]}) EmptyString].

Lemma retries_bounded_witness :
  match run_retry_ops (λ _, 3%nat) retry_ops (retrying (newActiveStream 0 [] []), retry_world) with
  | Ret (_, s) => scheduled s.2 = 2 ∧ scheduled s.2 ≤ scheduled retry_world + Z.max 3 (rule_NumRetries retrying_rule) ∧
    ∃ r, retry_state s.1 = Some r ∧
      current (retries_res s.2) = current (retries_res retry_world) + (if retryFunc r then 1 else 0)
  | Panic _ => False
  end.
Proof.
  destruct (run_retry_ops (λ _, 3%nat) retry_ops (retrying (newActiveStream 0 [] []), retry_world)) as [[[] s]|] eqn:E;
    [|vm_compute in E; discriminate].
  split; [vm_compute in E; by injection E as <-|].
  apply (retries_bounded (λ _, 3%nat) (retrying (newActiveStream 0 [] [])) retry_world retrying_rule retry_ops s);
    [reflexivity|vm_compute; split; congruence|vm_compute; split; congruence|exact E].
Defined.

Lemma per_try_timeout_scaled_witness :
  let d := set_timeout (Some (mk_timeout 20000000000 10000000000)) (newActiveStream (SF := ES) (RF := ES) 0 [] []) in
  ∃ i ts tm, setupPerReqTimeout (d, demo_new.2) = Ret (tt, (set_perRetryTimer (Some i) d, set_timers ts demo_new.2)) ∧
    ts !! i = Some tm ∧
    if bool_decide (10000000000 ≤ 9223372036) then t_interval tm = 10000000000 * 1000000000 else t_interval tm < 0.
Proof.
  apply (per_try_timeout_scaled (set_timeout (Some (mk_timeout 20000000000 10000000000)) (newActiveStream 0 [] []))
    demo_new.2 (mk_timeout 20000000000 10000000000)); [reflexivity|vm_compute; split; congruence].
Defined.

Lemma stream_ids_overflow_witness :
  event_Source (FormatUint 2147483648) = Panic (UserPanic "streamID must be numeric, unexpected :2147483648").
Proof. apply (stream_ids_overflow 2147483648). lia. Defined.

(** ** A filter *)

(** A filter that holds back a request until its data is complete. *)
Inductive holder := Holder.
#[export] Instance holder_receiver : StreamReceiverFilter holder := {
  rf_OnDecodeHeaders f h e := Ret (f, h, [], if e then FilterHeadersStatusContinue else FilterHeadersStatusStopIteration);
  rf_OnDecodeData f d e := Ret (f, d, [], if e then FilterDataStatusContinue else FilterDataStatusStopIterationAndBuffer);
  rf_OnDecodeTrailers f t := Ret (f, t, [], FilterTrailersStatusContinue);
}.

Lemma chains_terminate_witness :
  exec_all (SF := ES) (RF := holder) demo_route demo_cluster demo_pool demo_stream "SofaRpc"
    "10.0.0.2:2045" "10.0.0.3:4000" id (λ _, 3%nat) 1
    [InHeaders demo_request false; InData [Byte.x01] true; Worker false; Worker false; Worker false]
    (proxy_NewStream 0 [] [Holder; Holder] demo_stats demo_res) ≠ Panic OutOfFuel.
Proof. apply chains_terminate; by intros []. Defined.

Lemma headers_reach_first_filter_only_witness :
  let d := newActiveStream (SF := ES) 0 [] [Holder; Holder] in
  ∃ d', runReceiveHeadersFilters 1 None true (d, demo_new.2) = Ret (false, (d', demo_new.2)) ∧
    receiverFilters d' = [mk_asf Holder false false true; mk_asf Holder false false false] ∧ downstreamReqHeaders d' = None.
Proof.
  apply (headers_reach_first_filter_only 1 (newActiveStream 0 [] [Holder; Holder]) demo_new.2 (mk_asf Holder false false false)
    [mk_asf Holder false false false] Holder None true); reflexivity.
Defined.

Lemma data_added_in_trailers_dropped_witness :
  let d := in_trailers (newActiveStream (SF := ES) 0 [] [Holder]) in
  addDecodedData demo_route demo_cluster demo_pool demo_stream "SofaRpc" "10.0.0.2:2045" "10.0.0.3:4000" id 1
    0 5 true (d, demo_new.2) = Ret (tt, (d, demo_new.2)).
Proof. apply data_added_in_trailers_dropped. reflexivity. Defined.
