(* ===== verification/ClusterHosts.v ===== *)
(** * The hosts of a cluster: pkg/upstream/cluster

    The host list of a cluster (concreteclusters.go), the healthy hosts and
    their refresh (cluster.go), the host sets that keep them (host.go) and the
    part of the cluster manager that changes them (clustermanager.go).

    Hosts are shared by reference: a list of hosts holds pointers to objects.
    So are the arrays of the lists: a slice is an array and a length, and
    [append] writes into the array when it has room.  How much room a grown array
    gets is the choice of the run time ([grow]).  The members' callbacks and the
    health checker are told of changes by notices. *)

From S2P Require Import Prelude Cluster StateGo.

Local Open Scope Z_scope.

(** ** Slices that share arrays *)

(** An array is the list of its cells, as long as its capacity. *)
Record heap (A : Type) := mk_heap { cells : gmap nat (list A); next : nat }.
Arguments mk_heap {A} _ _.
Arguments cells {A} _.
Arguments next {A} _.

(** All slices here start at the beginning of their array; [nil] has none. *)
Record hslice := mk_sl { sl_arr : nat; sl_len : nat }.
#[export] Instance hslice_eq_dec : EqDecision hslice.
Proof. solve_decision. Defined.
Definition nil_slice : hslice := mk_sl 0 0.
#[export] Instance hslice_inhabited : Inhabited hslice := populate nil_slice.
Definition empty_heap {A} : heap A := mk_heap ∅ 1.

Section slices.
  Context {A : Type} `{Inhabited A} (grow : nat → nat).

Definition array (h : heap A) (s : hslice) : list A := default [] (cells h !! sl_arr s).
Definition elems (h : heap A) (s : hslice) : list A := take (sl_len s) (array h s).
Definition capacity (h : heap A) (s : hslice) : nat := length (array h s).

(** A fresh array of at least [c] cells. *)
Definition alloc (h : heap A) (l : list A) (c : nat) : heap A * hslice :=
  (mk_heap (<[next h := (l ++ replicate (c - length l) inhabitant)%list]> (cells h)) (S (next h)),
   mk_sl (next h) (length l)).

Definition append (h : heap A) (s : hslice) (l : list A) : heap A * hslice :=
  let n := (sl_len s + length l)%nat in
  if bool_decide (n ≤ capacity h s)%nat
  then (mk_heap (<[sl_arr s := list_inserts (sl_len s) l (array h s)]> (cells h)) (next h), mk_sl (sl_arr s) n)
  else alloc h (elems h s ++ l) (grow n).

(** A list that [append] built from nil. *)
Definition appended (h : heap A) (l : list A) : heap A * hslice :=
  match l with [] => (h, nil_slice) | _ => alloc h l (grow (length l)) end.

(** [append(s[:i], s[i+1:]...)] *)
Definition remove_at (h : heap A) (s : hslice) (i : nat) : heap A * hslice :=
  append h (mk_sl (sl_arr s) i) (drop (S i) (elems h s)).

Definition index (h : heap A) (s : hslice) (i : nat) : Go A :=
  match elems h s !! i with Some a => Ret a | None => Panic SliceBounds end.
Definition set_index (h : heap A) (s : hslice) (i : nat) (a : A) : Go (heap A) :=
  if bool_decide (i < sl_len s)%nat
  then Ret (mk_heap (<[sl_arr s := <[i := a]> (array h s)]> (cells h)) (next h))
  else Panic SliceBounds.
End slices.

(** ** Hosts, host sets and the cluster *)

(** [host] of [Cluster] has the part that does not change. *)
Record hostObj := mk_ho { ho_info : host; ho_weight : Z; ho_flags : Z }.
#[export] Instance hostObj_inhabited : Inhabited hostObj := populate (mk_ho (mk_host EmptyString EmptyString ∅) 0 0).

Record hset := mk_hset {
  h_hosts : hslice; h_healthyHosts : hslice; h_hostsPerLocality : hslice; h_healthyHostsPerLocality : hslice;
}.
#[export] Instance hset_inhabited : Inhabited hset := populate (mk_hset nil_slice nil_slice nil_slice nil_slice).

(** What the update callbacks and the health checker are called with. *)
Inductive notice :=
  | MemberUpdate (priority : nat) (hostsAdded hostsRemoved : list nat)
  | OnClusterMemberUpdate (hostsAdded hostsRemoved : list nat).

Record cstate := mk_cstate {
  objs : gmap nat hostObj; harr : heap nat; larr : heap hslice;
  sc_hosts : hslice; hostSets : list hset; checker : bool; notices : list notice;
}.
Definition set_objs (v : gmap nat hostObj) (s : cstate) : cstate :=
  mk_cstate v (harr s) (larr s) (sc_hosts s) (hostSets s) (checker s) (notices s).
Definition set_harr (v : heap nat) (s : cstate) : cstate :=
  mk_cstate (objs s) v (larr s) (sc_hosts s) (hostSets s) (checker s) (notices s).
Definition set_larr (v : heap hslice) (s : cstate) : cstate :=
  mk_cstate (objs s) (harr s) v (sc_hosts s) (hostSets s) (checker s) (notices s).
Definition set_sc_hosts (v : hslice) (s : cstate) : cstate :=
  mk_cstate (objs s) (harr s) (larr s) v (hostSets s) (checker s) (notices s).
Definition set_hostSets (v : list hset) (s : cstate) : cstate :=
  mk_cstate (objs s) (harr s) (larr s) (sc_hosts s) v (checker s) (notices s).
Definition set_checker (v : bool) (s : cstate) : cstate :=
  mk_cstate (objs s) (harr s) (larr s) (sc_hosts s) (hostSets s) v (notices s).
Definition set_notices (v : list notice) (s : cstate) : cstate :=
  mk_cstate (objs s) (harr s) (larr s) (sc_hosts s) (hostSets s) (checker s) v.

Definition AddressString (o : gmap nat hostObj) (p : nat) : string := h_address (ho_info (o !!! p)).
Definition Hostname (o : gmap nat hostObj) (p : nat) : string := h_hostname (ho_info (o !!! p)).
Definition Weight (o : gmap nat hostObj) (p : nat) : Z := ho_weight (o !!! p).
Definition SetWeight (o : gmap nat hostObj) (p : nat) (w : Z) : gmap nat hostObj :=
  alter (λ h, mk_ho (ho_info h) w (ho_flags h)) p o.
Definition ho_Health (o : gmap nat hostObj) (p : nat) : bool := bool_decide (ho_flags (o !!! p) = 0).
Definition ho_SetHealthFlag (o : gmap nat hostObj) (p : nat) (flag : Z) : gmap nat hostObj :=
  alter (λ h, mk_ho (ho_info h) (ho_weight h) (Z.lor (ho_flags h) flag)) p o.
Definition ho_ClearHealthFlag (o : gmap nat hostObj) (p : nat) (flag : Z) : gmap nat hostObj :=
  alter (λ h, mk_ho (ho_info h) (ho_weight h) (Z.ldiff (ho_flags h) flag)) p o.

(** ** The difference of two host lists (updateDynamicHostList)

    The lists are the caller's own copies. *)

(** The loop over the current hosts, from index [i]. *)
Fixpoint match_current (fuel : nat) (o : gmap nat hostObj) (nh i : nat) (currentHosts finalHosts : list nat) (found : bool)
  : gmap nat hostObj * list nat * list nat * bool :=
  match fuel with
  | O => (o, currentHosts, finalHosts, found)
  | S fuel =>
    match currentHosts !! i with
    | None => (o, currentHosts, finalHosts, found)
    | Some curNh =>
      if bool_decide (AddressString o nh = AddressString o curNh)
      then match_current fuel (SetWeight o curNh (Weight o nh)) nh i (delete i currentHosts) (finalHosts ++ [curNh]) true
      else match_current fuel o nh (S i) currentHosts finalHosts found
    end
  end.

Fixpoint match_new (o : gmap nat hostObj) (hostAddrs : gset string) (newHosts currentHosts finalHosts hostsAdded : list nat)
  : gmap nat hostObj * list nat * list nat * list nat :=
  match newHosts with
  | [] => (o, currentHosts, finalHosts, hostsAdded)
  | nh :: newHosts =>
    if bool_decide (AddressString o nh ∈ hostAddrs) then match_new o hostAddrs newHosts currentHosts finalHosts hostsAdded
    else
    let '(o, currentHosts, finalHosts, found) := match_current (length currentHosts) o nh 0 currentHosts finalHosts false in
    match_new o ({[AddressString o nh]} ∪ hostAddrs) newHosts currentHosts
      (if found then finalHosts else finalHosts ++ [nh])%list (if found then hostsAdded else hostsAdded ++ [nh])%list
  end.

Definition updateDynamicHostList (o : gmap nat hostObj) (newHosts currentHosts : list nat)
  : gmap nat hostObj * (bool * list nat * list nat * list nat) :=
  let '(o, hostsRemoved, finalHosts, hostsAdded) := match_new o ∅ newHosts currentHosts [] [] in
  (o, (bool_decide (hostsAdded ≠ [] ∨ hostsRemoved ≠ []), finalHosts, hostsAdded, hostsRemoved)).

(** ** Updates *)

Section cluster.
  Context (grow : nat → nat).
  Abbreviation M := (SG cstate).

Definition cs {A} (f : cstate → A) : M A := λ s, Ret (f s, s).
Definition mod_cs (f : cstate → cstate) : M unit := sg_modify f.
Definition notify (n : notice) : M unit := mod_cs (λ s, set_notices (notices s ++ [n]) s).

(** Run an operation of a heap. *)
Definition on_harr {A} (f : heap nat → heap nat * A) : M A := λ s, let '(h, a) := f (harr s) in Ret (a, set_harr h s).
Definition on_larr {A} (f : heap hslice → heap hslice * A) : M A := λ s, let '(h, a) := f (larr s) in Ret (a, set_larr h s).

Definition hs_UpdateHosts (priority : nat) (hosts healthyHosts hostsPerLocality healthyHostsPerLocality : hslice)
    (hostsAdded hostsRemoved : list nat) : M unit :=
  _ ← mod_cs (λ s, set_hostSets (<[priority := mk_hset hosts healthyHosts hostsPerLocality healthyHostsPerLocality]> (hostSets s)) s);
  notify (MemberUpdate priority hostsAdded hostsRemoved).

Definition UpdateHosts (newHosts : list nat) : M unit :=
  curHosts ← cs (λ s, elems (harr s) (sc_hosts s));
  o ← cs objs;
  let '(o, (changed, finalHosts, hostsAdded, hostsRemoved)) := updateDynamicHostList o newHosts curHosts in
  _ ← mod_cs (set_objs o);
  if changed : bool then
    hosts ← on_harr (λ h, appended grow h finalHosts);
    _ ← mod_cs (set_sc_hosts hosts);
    _ ← hs_UpdateHosts 0 hosts hosts nil_slice nil_slice hostsAdded hostsRemoved;
    hc ← cs checker;
    sg_when hc (notify (OnClusterMemberUpdate hostsAdded hostsRemoved))
  else mret tt.

(** ** Health *)

(** The first host set with a host of the address of [p]. *)
Definition has_host (s : cstate) (p : nat) (hs : hset) : bool :=
  existsb (λ h, bool_decide (AddressString (objs s) h = AddressString (objs s) p)) (elems (harr s) (h_hosts hs)).
Fixpoint find_set (s : cstate) (p i : nat) (sets : list hset) : option (nat * hset) :=
  match sets with
  | [] => None
  | hs :: sets => if has_host s p hs then Some (i, hs) else find_set s p (S i) sets
  end.

(** The first place of a host of the name of [p]. *)
Fixpoint named_at (o : gmap nat hostObj) (p i : nat) (l : list nat) : option nat :=
  match l with
  | [] => None
  | h :: l => if bool_decide (Hostname o p = Hostname o h) then Some i else named_at o p (S i) l
  end.

Definition remove_named (p : nat) (s : hslice) : M hslice :=
  o ← cs objs;
  l ← cs (λ c, elems (harr c) s);
  match named_at o p 0 l with
  | Some i => on_harr (λ h, remove_at grow h s i)
  | None => mret s
  end.

(** The localities from [i] on, [n] of them. *)
Fixpoint remove_localities (p : nat) (outer : hslice) (i n : nat) : M unit :=
  match n with
  | O => mret tt
  | S n =>
    la ← cs larr;
    inner ← sg_lift (index la outer i);
    inner ← remove_named p inner;
    la ← cs larr;
    la ← sg_lift (set_index la outer i inner);
    _ ← mod_cs (set_larr la);
    remove_localities p outer (S i) n
  end.

Definition delHealthHost (p : nat) : M unit :=
  s ← sg_get;
  match find_set s p 0 (hostSets s) with
  | None => mret tt
  | Some (i, hs) =>
    newHealthHost ← remove_named p (h_healthyHosts hs);
    let perLocality := h_healthyHostsPerLocality hs in
    _ ← remove_localities p perLocality 0 (sl_len perLocality);
    hs_UpdateHosts i (h_hosts hs) newHealthHost (h_hostsPerLocality hs) perLocality [] []
  end.

Definition addHealthyHost (p : nat) : M unit :=
  s ← sg_get;
  match find_set s p 0 (hostSets s) with
  | None => mret tt
  | Some (i, hs) =>
    newHealthHost ← on_harr (λ h, append grow h (h_healthyHosts hs) [p]);
    let perLocality := h_healthyHostsPerLocality hs in
    (* [perLocality[len(perLocality)-1]] *)
    _ ← sg_lift (go_assert (bool_decide (0 < sl_len perLocality)%nat) SliceBounds);
    la ← cs larr;
    inner ← sg_lift (index la perLocality (sl_len perLocality - 1));
    inner ← on_harr (λ h, append grow h inner [p]);
    la ← cs larr;
    la ← sg_lift (set_index la perLocality (sl_len perLocality - 1) inner);
    _ ← mod_cs (set_larr la);
    hs_UpdateHosts i (h_hosts hs) newHealthHost (h_hostsPerLocality hs) perLocality [] []
  end.

Definition refreshHealthHosts (p : nat) : M unit :=
  o ← cs objs;
  if ho_Health o p then addHealthyHost p else delHealthHost p.

Definition getHealthHost (hosts : hslice) : M hslice :=
  o ← cs objs;
  l ← cs (λ s, elems (harr s) hosts);
  on_harr (λ h, appended grow h (filter (λ p, ho_Health o p = true) l)).

(** Localities from [i] on; the healthy hosts of the next one go to place [hi]. *)
Fixpoint health_localities (hhpl result : hslice) (hi i n : nat) : M unit :=
  match n with
  | O => mret tt
  | S n =>
    la ← cs larr;
    inner ← sg_lift (index la hhpl i);
    healthy ← getHealthHost inner;
    if bool_decide (0 < sl_len healthy)%nat then
      la ← cs larr;
      la ← sg_lift (set_index la result hi healthy);
      _ ← mod_cs (set_larr la);
      health_localities hhpl result (S hi) (S i) n
    else health_localities hhpl result hi (S i) n
  end.

Definition getHealthHostsPerLocality (hhpl : hslice) : M hslice :=
  result ← on_larr (λ h, alloc h (replicate (sl_len hhpl) nil_slice) (sl_len hhpl));
  _ ← health_localities hhpl result 0 0 (sl_len hhpl);
  mret result.

Fixpoint refresh_sets (i n : nat) : M unit :=
  match n with
  | O => mret tt
  | S n =>
    sets ← cs hostSets;
    hs ← sg_lift (match sets !! i with Some hs => Ret hs | None => Panic SliceBounds end);
    healthyHost ← getHealthHost (h_hosts hs);
    healthyHostPerLocality ← getHealthHostsPerLocality (h_hostsPerLocality hs);
    _ ← hs_UpdateHosts i (h_hosts hs) healthyHost (h_hostsPerLocality hs) healthyHostPerLocality [] [];
    refresh_sets (S i) n
  end.

Definition refreshHealthHostsGlobal : M unit := n ← cs (λ s, length (hostSets s)); refresh_sets 0 n.

(** ** The cluster manager's changes of a cluster's hosts *)

(** A host of the configuration. *)
Record Host_config := mk_hc { hc_Address : string; hc_Hostname : string; hc_Weight : Z; hc_MetaData : gmap string string }.

(** A pointer that is not in use. *)
Definition fresh_ptr (o : gmap nat hostObj) : nat := map_fold (λ p _ m, Nat.max (S p) m) O o.
Definition NewHost (c : Host_config) : M nat :=
  o ← cs objs;
  let p := fresh_ptr o in
  _ ← mod_cs (set_objs (<[p := mk_ho (mk_host (hc_Address c) (hc_Hostname c) (hc_MetaData c)) (hc_Weight c) 0]> o));
  mret p.

Fixpoint new_hosts (l : list Host_config) : M (list nat) :=
  match l with
  | [] => mret []
  | c :: l => p ← NewHost c; ps ← new_hosts l; mret (p :: ps)
  end.

Definition cluster_UpdateClusterHosts (hostConfigs : list Host_config) : M unit :=
  hosts ← new_hosts hostConfigs;
  UpdateHosts hosts.

Fixpoint address_at (o : gmap nat hostObj) (addr : string) (i : nat) (l : list nat) : option nat :=
  match l with
  | [] => None
  | h :: l => if bool_decide (addr = AddressString o h) then Some i else address_at o addr (S i) l
  end.

Definition cluster_RemoveClusterHosts (addr : string) : M unit :=
  s ← sg_get;
  match address_at (objs s) addr 0 (elems (harr s) (sc_hosts s)) with
  | Some i =>
    ccHosts ← on_harr (λ h, remove_at grow h (sc_hosts s) i);
    l ← cs (λ s, elems (harr s) ccHosts);
    UpdateHosts l
  | None => mret tt
  end.

(** A new cluster has the host set of priority 0. *)
Definition new_cluster (hc : bool) : cstate :=
  mk_cstate ∅ empty_heap empty_heap nil_slice [mk_hset nil_slice nil_slice nil_slice nil_slice] hc [].
End cluster.
