(* ===== verification/ClusterHostsProps.v ===== *)
(** * Properties of the hosts of a cluster

    The difference of host lists against a reference on plain lists, what an
    update makes of a cluster, that slices stay within their arrays, and what
    sharing arrays between lists does to hosts that are removed or fail. *)

From S2P Require Import Prelude Cluster StateGo ClusterHosts.

Local Open Scope Z_scope.

(** ** Objects *)

Lemma lookup_total_SetWeight o p w q :
  SetWeight o p w !!! q = if decide (p = q) then match o !! p with Some h => mk_ho (ho_info h) w (ho_flags h) | None => inhabitant end
                          else o !!! q.
Proof.
  unfold SetWeight. rewrite !lookup_total_alt. case_decide; subst.
  - rewrite lookup_alter_eq. by destruct (o !! q).
  - by rewrite lookup_alter_ne.
Qed.

Lemma AddressString_SetWeight o p w q : AddressString (SetWeight o p w) q = AddressString o q.
Proof.
  unfold AddressString. rewrite lookup_total_SetWeight. case_decide as Hd; [|done]. rewrite <- Hd, lookup_total_alt.
  by destruct (o !! p).
Qed.

(** Objects that differ in their weights only. *)
Definition same_hosts (o o' : gmap nat hostObj) : Prop :=
  ∀ p, ho_info (o' !!! p) = ho_info (o !!! p) ∧ ho_flags (o' !!! p) = ho_flags (o !!! p) ∧ (is_Some (o' !! p) ↔ is_Some (o !! p)).

#[export] Instance same_hosts_preorder : PreOrder same_hosts.
Proof.
  split; [by intros o p|]. intros x y z H1 H2 p. destruct (H1 p) as (E1 & E2 & E3), (H2 p) as (F1 & F2 & F3).
  by rewrite F1, F2, F3, E1, E2, E3.
Qed.

Lemma same_hosts_SetWeight o p w : same_hosts o (SetWeight o p w).
Proof.
  intros q. rewrite lookup_total_SetWeight. unfold SetWeight. case_decide as Hd; [subst q|].
  - rewrite !lookup_total_alt, lookup_alter_eq. by destruct (o !! p); cbn; rewrite ?fmap_is_Some.
  - by rewrite lookup_alter_ne.
Qed.

Lemma same_hosts_address o o' p : same_hosts o o' → AddressString o' p = AddressString o p.
Proof. intros H. unfold AddressString. by destruct (H p) as [-> _]. Qed.

Lemma Weight_SetWeight o p w q : is_Some (o !! q) → Weight (SetWeight o p w) q = if decide (p = q) then w else Weight o q.
Proof.
  intros [h Hq]. unfold Weight. rewrite lookup_total_SetWeight. case_decide as Hd; [|done]. subst. by rewrite Hq.
Qed.

(** ** Filters *)


Lemma filter_none_of {A} (P : A → Prop) `{!∀ x, Decision (P x)} (l : list A) : (∀ x, x ∈ l → ¬ P x) → filter P l = [].
Proof.
  induction l as [|x l IH]; intros Hl; [done|]. rewrite filter_cons_False by (apply Hl; by left).
  apply IH. intros; apply Hl; by right.
Qed.

Lemma filter_all {A} (P : A → Prop) `{!∀ x, Decision (P x)} (l : list A) : (∀ x, x ∈ l → P x) → filter P l = l.
Proof.
  induction l as [|x l IH]; intros Hl; [done|]. rewrite filter_cons_True by (apply Hl; by left). f_equal.
  apply IH. intros; apply Hl; by right.
Qed.

(** ** The reference: plain lists, addresses given by [a] *)

Section reference.
  Context (a : nat → string).

(** The first host of every address that was not seen. *)
Fixpoint first_of (seen : gset string) (l : list nat) : list nat :=
  match l with
  | [] => []
  | x :: l => if bool_decide (a x ∈ seen) then first_of seen l else x :: first_of ({[a x]} ∪ seen) l
  end.

Definition at_address (x : string) (l : list nat) : list nat := filter (λ p, x = a p) l.

Definition kept (cur : list nat) (nh : nat) : list nat :=
  match at_address (a nh) cur with [] => [nh] | l => l end.
Definition ref_final (new cur : list nat) : list nat := first_of ∅ new ≫= kept cur.
Definition ref_added (new cur : list nat) : list nat := filter (λ nh, at_address (a nh) cur = []) (first_of ∅ new).
Definition ref_removed (new cur : list nat) : list nat := filter (λ c, a c ∉ a <$> new) cur.
(** The new host that gives an address its weight. *)
Definition giver (seen : gset string) (new : list nat) (x : string) : option nat := head (at_address x (first_of seen new)).

Lemma first_of_unseen seen l x : x ∈ first_of seen l → a x ∉ seen.
Proof.
  revert seen. induction l as [|y l IH]; cbn; intros seen Hx; [by apply elem_of_nil in Hx|].
  case_bool_decide; [by apply IH|]. apply elem_of_cons in Hx as [->|Hx]; [done|]. apply IH in Hx. set_solver.
Qed.

Lemma first_of_addresses seen l x : x ∈ a <$> first_of seen l ↔ x ∈ a <$> l ∧ x ∉ seen.
Proof.
  revert seen. induction l as [|y l IH]; intros seen; cbn; [set_solver|]. case_bool_decide.
  - rewrite IH, elem_of_cons. set_solver.
  - cbn. rewrite !elem_of_cons, IH. destruct (decide (x = a y)); set_solver.
Qed.

Lemma first_of_distinct seen l : NoDup (a <$> first_of seen l).
Proof.
  revert seen. induction l as [|y l IH]; intros seen; cbn; [constructor|]. case_bool_decide; [done|].
  cbn. constructor; [|done]. rewrite first_of_addresses. set_solver.
Qed.
End reference.

(** ** The loops against the reference *)

Lemma match_current_spec a o nh pre rest fin found : (∀ p, AddressString o p = a p) →
  match_current (length rest) o nh (length pre) (pre ++ rest) fin found =
    (foldl (λ o c, SetWeight o c (Weight o nh)) o (at_address a (a nh) rest),
     (pre ++ filter (λ p, a nh ≠ a p) rest)%list, (fin ++ at_address a (a nh) rest)%list,
     found || bool_decide (at_address a (a nh) rest ≠ [])).
Proof.
  unfold at_address. revert o pre fin found. induction rest as [|c rest IH]; intros o pre fin found Ha; cbn [length match_current].
  { cbn. by rewrite !app_nil_r, orb_false_r. }
  rewrite list_lookup_middle by done. rewrite !Ha, !filter_cons. destruct (decide (a nh = a c)) as [Hc|Hc].
  - rewrite (bool_decide_true (a nh = a c)), delete_middle by done.
    rewrite (IH (SetWeight o c (Weight o nh))) by (intros p; rewrite AddressString_SetWeight; apply Ha).
    rewrite decide_False by (intros ?; congruence). cbn [foldl].
    rewrite <- (app_assoc fin), (bool_decide_true (_ :: _ ≠ _)) by done. cbn. by rewrite orb_true_r.
  - rewrite (bool_decide_false (a nh = a c)) by done.
    specialize (IH o (pre ++ [c])%list fin found Ha). rewrite length_app, Nat.add_comm in IH. cbn [length Nat.add] in IH.
    rewrite <- !app_assoc in IH. cbn [app] in IH. rewrite IH. by rewrite decide_True by done.
Qed.

Lemma weigh_spec o nh l : let o' := foldl (λ o c, SetWeight o c (Weight o nh)) o l in
  same_hosts o o' ∧ (∀ p, p ∉ l → Weight o' p = Weight o p) ∧
  ∀ p, is_Some (o !! p) → p ∈ l → Weight o' p = Weight o nh.
Proof.
  cbn. revert o. induction l as [|c l IH]; intros o; cbn; [by split_and!; [| |set_solver]|].
  set (o1 := SetWeight o c (Weight o nh)). destruct (IH o1) as (H1 & H2 & H3).
  pose proof (same_hosts_SetWeight o c (Weight o nh)) as Hs. fold o1 in Hs.
  assert (Weight o1 nh = Weight o nh) as Hnh.
  { unfold o1, Weight. rewrite lookup_total_SetWeight. case_decide as Hd; [|done]. subst c. rewrite lookup_total_alt.
    by destruct (o !! nh). }
  assert (∀ p, p ≠ c → Weight o1 p = Weight o p) as Hne.
  { intros p Hp. unfold o1, Weight. rewrite lookup_total_SetWeight. by case_decide. }
  split_and!; [by etrans|intros p Hp; rewrite H2, Hne; set_solver|].
  intros p Hp Hin. destruct (decide (p ∈ l)) as [?|Hn]; [rewrite H3, Hnh; [done|by apply Hs|done]|].
  rewrite H2 by done. assert (p = c) as -> by set_solver. unfold o1. rewrite Weight_SetWeight by done. by case_decide.
Qed.

Lemma at_address_other a x y l : x ≠ y → at_address a x (filter (λ p, y ≠ a p) l) = at_address a x l.
Proof.
  intros Hne. unfold at_address. induction l as [|p l IH]; [done|]. rewrite !filter_cons. destruct (decide (y ≠ a p)) as [Hy|Hy].
  - rewrite !filter_cons, IH. done.
  - rewrite IH. rewrite decide_False; [done|]. intros ->. apply Hy. congruence.
Qed.

Lemma match_new_spec a o seen new cur fin added : (∀ p, AddressString o p = a p) →
  let fs := first_of a seen new in
  ∃ o', match_new o seen new cur fin added =
    (o', filter (λ c, a c ∉ a <$> fs) cur, (fin ++ (fs ≫= kept a cur))%list,
     (added ++ filter (λ nh, at_address a (a nh) cur = []) fs)%list) ∧
    same_hosts o o' ∧
    ∀ p, is_Some (o !! p) → Weight o' p =
      if bool_decide (p ∈ cur) then match giver a seen new (a p) with Some nh => Weight o nh | None => Weight o p end
      else Weight o p.
Proof.
  cbn. revert o seen cur fin added. induction new as [|nh new IH]; intros o seen cur fin added Ha; cbn.
  - exists o. rewrite !app_nil_r. split_and!; [|done|intros; by case_bool_decide]. do 3 f_equal.
    symmetry. apply filter_all. set_solver.
  - rewrite Ha. case_bool_decide as Hseen; [unfold giver; cbn; rewrite bool_decide_true by done; by apply IH|].
    pose proof (match_current_spec a o nh [] cur fin false Ha) as Em. cbn [app length] in Em. rewrite Em. clear Em.
    destruct (weigh_spec o nh (at_address a (a nh) cur)) as (Hs & Hn & Hw). cbn in Hs, Hn, Hw.
    set (o1 := foldl _ o _) in *.
    assert (∀ p, AddressString o1 p = a p) as Ha1 by (intros p; rewrite (same_hosts_address o); [apply Ha|done]).
    rewrite Ha1. set (fs := first_of a ({[a nh]} ∪ seen) new).
    destruct (IH o1 ({[a nh]} ∪ seen) (filter (λ p, a nh ≠ a p) cur)
      (if false || bool_decide (at_address a (a nh) cur ≠ []) then fin ++ at_address a (a nh) cur
       else (fin ++ at_address a (a nh) cur) ++ [nh])%list
      (if false || bool_decide (at_address a (a nh) cur ≠ []) then added else added ++ [nh])%list Ha1) as (o' & E & Hs' & Hw').
    fold fs in E. exists o'. rewrite E.
    assert (∀ x, x ∈ fs → a x ≠ a nh) as Hfs by (intros x Hx; apply first_of_unseen in Hx; set_solver).
    split_and!; [|by etrans|].
    + f_equal; [f_equal; [f_equal|]|].
      * rewrite list_filter_filter. apply list_filter_iff. intros c. cbn. rewrite elem_of_cons. naive_solver.
      * cbn. rewrite app_assoc. f_equal.
        -- unfold kept. destruct (at_address a (a nh) cur) eqn:Hat; cbn; [by rewrite app_nil_r|done].
        -- apply Forall_bind_ext, Forall_forall. intros x Hx. unfold kept. by rewrite at_address_other by by apply Hfs.
      * rewrite filter_cons. destruct (at_address a (a nh) cur) eqn:Hat.
        -- rewrite decide_True by done. cbn. rewrite <- app_assoc. cbn. do 2 f_equal. apply filter_ext_elem.
           intros x Hx. by rewrite at_address_other by by apply Hfs.
        -- rewrite decide_False by done. cbn. f_equal. apply filter_ext_elem.
           intros x Hx. by rewrite at_address_other by by apply Hfs.
    + clear E IH. intros p Hp. rewrite Hw' by (by apply Hs). unfold giver. cbn [first_of]. rewrite (bool_decide_false (a nh ∈ seen)) by done.
      fold fs. unfold at_address at 2. rewrite filter_cons. destruct (decide (a p = a nh)) as [Hpa|Hpa].
      * rewrite (bool_decide_false (p ∈ filter _ _)) by (rewrite list_elem_of_filter; naive_solver). cbn [head].
        case_bool_decide; [apply Hw; [done|]|apply Hn]; unfold at_address; rewrite list_elem_of_filter; naive_solver.
      * rewrite (bool_decide_ext (p ∈ filter _ _) (p ∈ cur)) by (rewrite list_elem_of_filter; naive_solver).
        rewrite (Hn p) by (unfold at_address; rewrite list_elem_of_filter; naive_solver).
        case_bool_decide; [|done]. fold (at_address a (a p) fs). destruct (head (at_address a (a p) fs)) as [nh'|] eqn:Hh; [|done].
        apply Hn. unfold at_address. rewrite list_elem_of_filter. intros [Hx _].
        apply head_Some_elem_of in Hh. unfold at_address in Hh. apply list_elem_of_filter in Hh as [? ?]. congruence.
Qed.

Lemma host_list_difference o new cur :
  let a := AddressString o in
  ∃ o', updateDynamicHostList o new cur =
    (o', (bool_decide (ref_added a new cur ≠ [] ∨ ref_removed a new cur ≠ []),
          ref_final a new cur, ref_added a new cur, ref_removed a new cur)) ∧
    same_hosts o o' ∧
    ∀ p, is_Some (o !! p) → Weight o' p =
      if bool_decide (p ∈ cur) then match giver a ∅ new (a p) with Some nh => Weight o nh | None => Weight o p end
      else Weight o p.
Proof.
  cbn. destruct (match_new_spec (AddressString o) o ∅ new cur [] []) as (o' & E & Hs & Hw); [done|].
  exists o'. split; [|done]. unfold updateDynamicHostList. rewrite E. cbn [app].
  assert (filter (λ c, AddressString o c ∉ AddressString o <$> first_of (AddressString o) ∅ new) cur =
    ref_removed (AddressString o) new cur) as ->; [|done].
  apply list_filter_iff. intros c. rewrite first_of_addresses. set_solver.
Qed.


(** C28. The loops over new and current hosts compute the difference of the two
    lists by address: the final hosts are, for each address of the new hosts in
    order, the current hosts of that address or else the first new one; added
    and removed are what the sets of addresses differ by; every current host
    that stays has the weight of the first new host of its address, and nothing
    else of any host changes. *)
Theorem updateDynamicHostList_spec o new cur :
  let a := AddressString o in
  ∃ o', updateDynamicHostList o new cur =
    (o', (bool_decide (ref_added a new cur ≠ [] ∨ ref_removed a new cur ≠ []),
          ref_final a new cur, ref_added a new cur, ref_removed a new cur)) ∧
    same_hosts o o' ∧
    ∀ p, is_Some (o !! p) → Weight o' p =
      if bool_decide (p ∈ cur) then match giver a ∅ new (a p) with Some nh => Weight o nh | None => Weight o p end
      else Weight o p.
Proof. apply host_list_difference. Qed.

(** ** Slices stay within their arrays *)

Lemma list_inserts_split {A} n (l arr : list A) : (n + length l ≤ length arr)%nat →
  list_inserts n l arr = (take n arr ++ l ++ drop (n + length l) arr)%list.
Proof.
  intros Hn. rewrite <- (take_drop n arr) at 1. set (r := drop n arr). rewrite <- (take_drop (length l) r).
  rewrite <- (Nat.add_0_r n) at 1. rewrite <- (length_take_le arr n) at 1 by lia.
  rewrite list_inserts_app_r, list_inserts_0_r.
  - subst r. by rewrite drop_drop.
  - subst r. rewrite length_take, length_drop. lia.
Qed.

Section heaps.
  Context {A : Type} `{Inhabited A} (grow : nat → nat).
  Implicit Types (h : heap A) (s : hslice).

Definition heap_ok h : Prop :=
  (0 < next h)%nat ∧ default [] (cells h !! 0%nat) = [] ∧ ∀ i l, cells h !! i = Some l → (i < next h)%nat.
Definition valid h s : Prop := (sl_len s ≤ capacity h s)%nat ∧ (sl_arr s < next h)%nat.
(** Arrays are never freed and never shrink. *)
Definition grows h h' : Prop := (next h ≤ next h')%nat ∧ ∀ s, (capacity h s ≤ capacity h' s)%nat.

#[export] Instance grows_preorder : PreOrder grows.
Proof. split; [done|]. intros x y z [? H1] [? H2]. split; [lia|]. intros s. specialize (H1 s). specialize (H2 s). lia. Qed.

Lemma valid_grows h h' s : grows h h' → valid h s → valid h' s.
Proof. intros [? Hg] [? ?]. specialize (Hg s). split; lia. Qed.
Lemma valid_nil h : heap_ok h → valid h nil_slice.
Proof. intros (? & _). by split; [apply Nat.le_0_l|]. Qed.
Lemma elems_length h s : valid h s → length (elems h s) = sl_len s.
Proof. intros [? _]. unfold elems, capacity in *. rewrite length_take. lia. Qed.
Lemma elems_nil h n : elems h (mk_sl n 0) = [].
Proof. done. Qed.

Lemma alloc_spec h l c h' s : heap_ok h → alloc h l c = (h', s) →
  heap_ok h' ∧ grows h h' ∧ valid h' s ∧ elems h' s = l ∧ sl_arr s = next h ∧
  ∀ s0, sl_arr s0 ≠ next h → array h' s0 = array h s0.
Proof.
  intros (H0 & Hz & Hn) [= <- <-]. split_and!.
  - split_and!; cbn; [lia|rewrite lookup_insert_ne by lia; done|]. intros i k Hi.
    destruct (decide (i = next h)) as [->|]; [lia|]. rewrite lookup_insert_ne in Hi by done. apply Hn in Hi. lia.
  - split; cbn; [lia|]. intros s. unfold capacity, array. cbn. destruct (decide (sl_arr s = next h)) as [->|].
    + destruct (cells h !! next h) eqn:Hc; [apply Hn in Hc; lia|]. cbn. lia.
    + by rewrite lookup_insert_ne.
  - split; [|cbn; lia]. unfold capacity, array. cbn. rewrite lookup_insert_eq. cbn. rewrite length_app. lia.
  - unfold elems, array. cbn. rewrite lookup_insert_eq. cbn. by rewrite take_app_length.
  - done.
  - intros s0 Hs. unfold array. cbn. by rewrite lookup_insert_ne.
Qed.

Lemma append_spec h s l h' s' : heap_ok h → valid h s → append grow h s l = (h', s') →
  heap_ok h' ∧ grows h h' ∧ valid h' s' ∧ elems h' s' = (elems h s ++ l)%list.
Proof.
  intros Hok [Hl Ha] E. unfold append in E. case_bool_decide as Hc.
  2: { apply alloc_spec in E as (? & ? & ? & ? & _); [done|exact Hok]. }
  injection E as <- <-. destruct Hok as (H0 & Hz & Hn). split_and!.
  - split_and!; cbn; [lia| |].
    + destruct (decide (sl_arr s = 0%nat)) as [Hs|]; [|rewrite lookup_insert_ne by done; done].
      rewrite <- Hs, lookup_insert_eq. cbn. apply nil_length_inv. rewrite length_inserts. unfold array. by rewrite Hs, Hz.
    + intros i k Hi. destruct (decide (i = sl_arr s)) as [->|]; [lia|]. rewrite lookup_insert_ne in Hi by done. by eapply Hn.
  - split; cbn; [lia|]. intros s0. unfold capacity, array. cbn. destruct (decide (sl_arr s0 = sl_arr s)) as [->|].
    + rewrite lookup_insert_eq. cbn. by rewrite length_inserts.
    + by rewrite lookup_insert_ne.
  - split; [|done]. unfold capacity, array. cbn. rewrite lookup_insert_eq. cbn. rewrite length_inserts. done.
  - unfold elems, array at 1. cbn. rewrite lookup_insert_eq. cbn. unfold capacity in *.
    rewrite list_inserts_split by lia. rewrite app_assoc, take_app_le by (rewrite length_app, length_take; lia).
    apply take_ge. rewrite length_app, length_take. lia.
Qed.

(** The hosts of [remove_at], and the array it leaves to others. *)
Lemma remove_at_spec h s i h' s' : heap_ok h → valid h s → (i < sl_len s)%nat → remove_at grow h s i = (h', s') →
  heap_ok h' ∧ grows h h' ∧ valid h' s' ∧ elems h' s' = delete i (elems h s) ∧ sl_arr s' = sl_arr s ∧
  array h' s = (delete i (elems h s) ++ drop (sl_len s - 1) (array h s))%list ∧
  ∀ s0, sl_arr s0 ≠ sl_arr s → array h' s0 = array h s0.
Proof.
  intros Hok [Hl Ha] Hi E. pose proof (elems_length h s (conj Hl Ha)) as Hlen. unfold remove_at in E.
  assert (valid h (mk_sl (sl_arr s) i)) as Hv by (split; [unfold capacity, array in *; cbn; lia|done]).
  pose proof (append_spec _ _ _ _ _ Hok Hv E) as (H1 & H2 & H3 & H4).
  assert (elems h (mk_sl (sl_arr s) i) = take i (elems h s)) as Ht.
  { unfold elems, array. cbn. rewrite take_take. f_equal. lia. }
  rewrite Ht, <- delete_take_drop in H4. split_and!; [done..| | |].
  - unfold append in E. cbn in E. rewrite bool_decide_true in E by (rewrite length_drop; unfold capacity, array in *; cbn; lia).
    by injection E as <- <-.
  - unfold append in E. cbn in E. rewrite bool_decide_true in E by (rewrite length_drop; unfold capacity, array in *; cbn; lia).
    injection E as <- <-. unfold array at 1. cbn. rewrite lookup_insert_eq. cbn.
    change (array h (mk_sl (sl_arr s) i)) with (array h s). unfold capacity in Hl.
    rewrite list_inserts_split by (rewrite length_drop; lia). rewrite delete_take_drop, <- app_assoc, length_drop, Hlen.
    f_equal; [unfold elems; rewrite take_take; f_equal; lia|]. do 2 f_equal. lia.
  - intros s0 Hs0. unfold append in E. cbn in E.
    rewrite bool_decide_true in E by (rewrite length_drop; unfold capacity, array in *; cbn; lia).
    injection E as <- <-. unfold array. cbn. by rewrite lookup_insert_ne.
Qed.

Lemma appended_spec h l h' s : heap_ok h → appended grow h l = (h', s) →
  heap_ok h' ∧ grows h h' ∧ valid h' s ∧ elems h' s = l.
Proof.
  intros Hok E. unfold appended in E. destruct l as [|x l].
  - injection E as <- <-. split_and!; [done..|by apply valid_nil|done].
  - apply alloc_spec in E as (? & ? & ? & ? & _); done.
Qed.

Lemma index_valid h s i : valid h s → (i < sl_len s)%nat → ∃ a, index h s i = Ret a ∧ elems h s !! i = Some a.
Proof.
  intros Hv Hi. rewrite <- (elems_length h s Hv) in Hi. apply lookup_lt_is_Some in Hi as [a Ha].
  exists a. unfold index. by rewrite Ha.
Qed.

Lemma set_index_valid h s i a : heap_ok h → valid h s → (i < sl_len s)%nat →
  ∃ h', set_index h s i a = Ret h' ∧ heap_ok h' ∧ grows h h' ∧ grows h' h ∧
    ∀ P, P a → (∀ j l, cells h !! j = Some l → Forall P l) → ∀ j l, cells h' !! j = Some l → Forall P l.
Proof.
  intros (H0 & Hz & Hn) [Hl Ha] Hi. unfold set_index. rewrite bool_decide_true by done. eexists. split; [done|].
  assert (∀ s0, capacity (mk_heap (<[sl_arr s:=<[i:=a]> (array h s)]> (cells h)) (next h)) s0 = capacity h s0) as Hc.
  { intros s0. unfold capacity, array. cbn. destruct (decide (sl_arr s0 = sl_arr s)) as [->|].
    - rewrite lookup_insert_eq. cbn. by rewrite length_insert.
    - by rewrite lookup_insert_ne. }
  split_and!.
  - split_and!; cbn; [lia| |].
    + destruct (decide (sl_arr s = 0%nat)) as [Hs|]; [|rewrite lookup_insert_ne by done; done].
      unfold capacity, array in Hl. rewrite Hs, Hz in Hl. cbn in Hl. lia.
    + intros j k Hj. destruct (decide (j = sl_arr s)) as [->|]; [lia|]. rewrite lookup_insert_ne in Hj by done. by eapply Hn.
  - split; [done|]. intros s0. by rewrite Hc.
  - split; [done|]. intros s0. by rewrite Hc.
  - intros P HPa HP j l Hj. cbn in Hj. destruct (decide (j = sl_arr s)) as [->|].
    + rewrite lookup_insert_eq in Hj. injection Hj as <-. apply Forall_insert; [|done]. unfold array.
      destruct (cells h !! sl_arr s) eqn:Hc'; [by eapply HP|constructor].
    + rewrite lookup_insert_ne in Hj by done. by eapply HP.
Qed.
End heaps.

(** ** The state of a cluster is well formed *)

Section wf.
  Context (grow : nat → nat).

(** Every slice in reach lies within its array. *)
Definition set_ok (s : cstate) (hs : hset) : Prop :=
  valid (harr s) (h_hosts hs) ∧ valid (harr s) (h_healthyHosts hs) ∧
  valid (larr s) (h_hostsPerLocality hs) ∧ valid (larr s) (h_healthyHostsPerLocality hs).
Record wf (s : cstate) : Prop := {
  wf_harr : heap_ok (harr s);
  wf_larr : heap_ok (larr s);
  wf_hosts : valid (harr s) (sc_hosts s);
  wf_sets : Forall (set_ok s) (hostSets s);
  wf_inner : ∀ i l, cells (larr s) !! i = Some l → Forall (valid (harr s)) l;
}.

(** The next state of a computation that does not panic. *)
Definition later (s s' : cstate) : Prop := wf s' ∧ grows (harr s) (harr s') ∧ grows (larr s) (larr s').
Lemma later_refl s : wf s → later s s.
Proof. intros ?. by split; [|split]. Qed.
Lemma later_trans s1 s2 s3 : later s1 s2 → later s2 s3 → later s1 s3.
Proof. intros (? & ? & ?) (? & ? & ?). split_and!; [done|by etrans..]. Qed.
Lemma later_set_ok s s' hs : later s s' → set_ok s hs → set_ok s' hs.
Proof. intros (_ & H1 & H2) (? & ? & ? & ?). split_and!; by eapply valid_grows. Qed.

Lemma wf_with_harr s h : wf s → heap_ok h → grows (harr s) h → later s (set_harr h s).
Proof.
  intros [] Hok Hg. split_and!; [|done|done]. split; cbn; [done|done|by eapply valid_grows| |].
  - eapply Forall_impl; [exact wf_sets0|]. intros hs (? & ? & ? & ?). by split_and!; cbn; [eapply valid_grows..| |].
  - intros i l Hi. eapply Forall_impl; [by eapply wf_inner0|]. intros x. by eapply valid_grows.
Qed.

Lemma wf_with_larr s h : wf s → heap_ok h → grows (larr s) h →
  (∀ i l, cells h !! i = Some l → Forall (valid (harr s)) l) → later s (set_larr h s).
Proof.
  intros [] Hok Hg Hi. split_and!; [|done|done]. split; cbn; [done|done|done| |done].
  eapply Forall_impl; [exact wf_sets0|]. intros hs (? & ? & ? & ?). by split_and!; cbn; [| |eapply valid_grows..].
Qed.

Lemma wf_with_objs s o : wf s → later s (set_objs o s).
Proof. intros []. by split; [split|split]. Qed.
Lemma wf_with_notices s n : wf s → later s (set_notices n s).
Proof. intros []. by split; [split|split]. Qed.
Lemma wf_with_hosts s sl : wf s → valid (harr s) sl → later s (set_sc_hosts sl s).
Proof. intros []. by split; [split|split]. Qed.

Lemma hs_UpdateHosts_safe s i hs added removed : wf s → set_ok s hs →
  ∃ s', hs_UpdateHosts i (h_hosts hs) (h_healthyHosts hs) (h_hostsPerLocality hs) (h_healthyHostsPerLocality hs)
      added removed s = Ret (tt, s') ∧ later s s' ∧ harr s' = harr s ∧ objs s' = objs s ∧ sc_hosts s' = sc_hosts s ∧
    hostSets s' = <[i := hs]> (hostSets s) ∧ notices s' = (notices s ++ [MemberUpdate i added removed])%list.
Proof.
  intros [] Hs. eexists. split; [reflexivity|]. destruct hs. split_and!; try done.
  split_and!; [|done|done]. split; cbn; try done. by apply Forall_insert.
Qed.

(** [m] returns in a later state, with a value of which [Q] holds. *)
Definition returns {A} (m : SG cstate A) (s : cstate) (Q : A → cstate → Prop) : Prop :=
  ∃ a s', m s = Ret (a, s') ∧ later s s' ∧ Q a s'.

Lemma returns_bind {A B} (m : SG cstate A) (f : A → SG cstate B) s Q R :
  returns m s Q → (∀ a s', later s s' → Q a s' → returns (f a) s' R) → returns (m ≫= f) s R.
Proof.
  intros (a & s1 & E & Hl & HQ) Hf. destruct (Hf a s1 Hl HQ) as (b & s2 & E2 & Hl2 & HR).
  exists b, s2. split_and!; [|by eapply later_trans|done]. unfold mbind, SG_bind. by rewrite E.
Qed.

Lemma returns_ret {A} (a : A) s (Q : A → cstate → Prop) : wf s → Q a s → returns (mret a) s Q.
Proof. intros. exists a, s. split_and!; [done|by apply later_refl|done]. Qed.
Lemma returns_cs {A} (f : cstate → A) s Q : wf s → Q (f s) s → returns (cs f) s Q.
Proof. intros. exists (f s), s. split_and!; [done|by apply later_refl|done]. Qed.
Lemma returns_get s Q : wf s → Q s s → returns sg_get s Q.
Proof. intros. exists s, s. split_and!; [done|by apply later_refl|done]. Qed.
Lemma returns_harr {A} (f : heap nat → heap nat * A) s (Q : A → cstate → Prop) : wf s →
  (heap_ok (f (harr s)).1 ∧ grows (harr s) (f (harr s)).1) → (∀ s', harr s' = (f (harr s)).1 → Q (f (harr s)).2 s') →
  returns (on_harr f) s Q.
Proof.
  intros Hw [Hok Hg] HQ. unfold returns, on_harr. destruct (f (harr s)) as [h a]. cbn in *.
  exists a, (set_harr h s). split_and!; [done|by apply wf_with_harr|by apply HQ].
Qed.

(** *** Removing a name *)
Lemma named_at_bound o p i l k : named_at o p i l = Some k → (i ≤ k < i + length l)%nat.
Proof.
  revert i. induction l as [|x l IH]; cbn; intros i E; [done|]. case_bool_decide; [injection E as <-; lia|].
  apply IH in E. lia.
Qed.

Lemma remove_named_safe p sl s : wf s → valid (harr s) sl →
  returns (remove_named grow p sl) s (λ sl' s', valid (harr s') sl').
Proof.
  intros Hw Hv. unfold remove_named. eapply returns_bind; [by apply (returns_cs _ s (λ o s', s' = s))|].
  intros o s0 _ ->. eapply returns_bind; [by apply (returns_cs _ s (λ l s', s' = s ∧ l = elems (harr s) sl))|].
  intros l ? _ [-> ->]. destruct (named_at o p 0 (elems (harr s) sl)) as [i|] eqn:Hn; [|by apply returns_ret].
  apply named_at_bound in Hn as [_ Hn]. rewrite elems_length in Hn by done.
  destruct (remove_at grow (harr s) sl i) as [h' sl'] eqn:E.
  destruct (remove_at_spec grow (harr s) sl i h' sl') as (H1 & H2 & H3 & _); [by destruct Hw|done|lia|done|].
  apply returns_harr; rewrite ?E; cbn; [done|done|]. by intros s' ->.
Qed.

(** The inner slices of a slice of localities. *)
Lemma inner_valid s outer i inner : wf s → elems (larr s) outer !! i = Some inner → valid (harr s) inner.
Proof.
  intros Hw Hi. unfold elems in Hi. apply lookup_take_Some in Hi as [Hi _]. unfold array in Hi.
  destruct (cells (larr s) !! sl_arr outer) as [l|] eqn:Hc; [|done]. cbn in Hi.
  eapply Forall_lookup_1; [by eapply wf_inner|exact Hi].
Qed.

(** Read a locality, compute another slice from it, and store that. *)
Lemma returns_index s outer i (Q : hslice → cstate → Prop) : wf s → valid (larr s) outer → (i < sl_len outer)%nat →
  (∀ inner, valid (harr s) inner → Q inner s) → returns (sg_lift (index (larr s) outer i)) s Q.
Proof.
  intros Hw Hv Hi HQ. destruct (index_valid (larr s) outer i Hv Hi) as (inner & E & Hin).
  exists inner, s. unfold sg_lift. rewrite E. split_and!; [done|by apply later_refl|]. apply HQ. by eapply inner_valid.
Qed.

Lemma returns_set_index s outer i inner : wf s → valid (larr s) outer → (i < sl_len outer)%nat → valid (harr s) inner →
  returns (la ← cs larr; la ← sg_lift (set_index la outer i inner); mod_cs (set_larr la)) s (λ _ _, True).
Proof.
  intros Hw Hv Hi Hin. destruct (set_index_valid (larr s) outer i inner) as (h & E & Hok & Hg & _ & Hall);
    [by destruct Hw|done|done|].
  exists tt, (set_larr h s). split_and!; [|apply wf_with_larr; try done; apply Hall; [done|by destruct Hw]|done].
  unfold mbind, SG_bind, cs, sg_lift. by rewrite E.
Qed.

Lemma set_then_bind {B} outer i inner (f : unit → SG cstate B) s :
  (la ← cs larr; la ← sg_lift (set_index la outer i inner); _ ← mod_cs (set_larr la); f tt) s =
  ((la ← cs larr; la ← sg_lift (set_index la outer i inner); mod_cs (set_larr la)) ≫= f) s.
Proof. unfold mbind, SG_bind, cs, sg_lift. by destruct (set_index _ _ _ _). Qed.

(** A slice stays valid in later states. *)
Lemma later_valid s s' sl : later s s' → valid (harr s) sl → valid (harr s') sl.
Proof. intros (_ & ? & _). by apply valid_grows. Qed.
Lemma later_valid_outer s s' sl : later s s' → valid (larr s) sl → valid (larr s') sl.
Proof. intros (_ & _ & ?). by apply valid_grows. Qed.
Lemma later_wf s s' : later s s' → wf s'.
Proof. by intros (? & _). Qed.
Hint Resolve later_valid later_valid_outer later_wf : core.

Lemma remove_localities_safe p outer i n s : wf s → valid (larr s) outer → (i + n ≤ sl_len outer)%nat →
  returns (remove_localities grow p outer i n) s (λ _ _, True).
Proof.
  revert i s. induction n as [|n IH]; intros i s Hw Hv Hi; cbn [remove_localities]; [by apply returns_ret|].
  eapply returns_bind; [by apply (returns_cs _ s (λ la s', s' = s ∧ la = larr s))|]. intros la ? _ [-> ->].
  eapply returns_bind; [apply (returns_index s outer i (λ inner s', s' = s ∧ valid (harr s) inner)); [done..|lia|done]|].
  intros inner ? _ [-> Hin]. eapply returns_bind; [by apply remove_named_safe|]. intros inner' s1 Hl Hin'.
  unfold returns. setoid_rewrite (set_then_bind _ _ _ (λ _, remove_localities grow p outer (S i) n)).
  eapply returns_bind; [apply returns_set_index; [eauto|eauto|lia|done]|]. intros _ s2 Hl2 _.
  apply IH; [eauto|by do 2 (eapply later_valid_outer; [eassumption|])|lia].
Qed.

Lemma find_set_spec s p i l k hs : find_set s p i l = Some (k, hs) → (i ≤ k)%nat ∧ l !! (k - i)%nat = Some hs.
Proof.
  revert i. induction l as [|x l IH]; cbn; intros i E; [done|]. destruct (has_host s p x).
  - injection E as <- <-. by rewrite Nat.sub_diag.
  - apply IH in E as [? E]. split; [lia|]. replace (k - i)%nat with (S (k - S i)) by lia. done.
Qed.

Lemma find_set_ok s p k hs : wf s → find_set s p 0 (hostSets s) = Some (k, hs) → set_ok s hs.
Proof.
  intros Hw E. apply find_set_spec in E as [_ E]. eapply Forall_lookup_1; [by apply Hw|exact E].
Qed.

Lemma returns_hs_UpdateHosts s i hosts healthy pl hpl : wf s → set_ok s (mk_hset hosts healthy pl hpl) →
  returns (hs_UpdateHosts i hosts healthy pl hpl [] []) s (λ _ _, True).
Proof. intros Hw Hs. destruct (hs_UpdateHosts_safe s i _ [] [] Hw Hs) as (s' & E & Hl & _). by exists tt, s'. Qed.

Lemma delHealthHost_safe p s : wf s → returns (delHealthHost grow p) s (λ _ _, True).
Proof.
  intros Hw. unfold delHealthHost. eapply returns_bind; [by apply (returns_get s (λ a s', s' = s ∧ a = s))|].
  intros ? ? _ [-> ->]. destruct (find_set s p 0 (hostSets s)) as [[i hs]|] eqn:Hf; [|by apply returns_ret].
  apply find_set_ok in Hf as (H1 & H2 & H3 & H4); [|done].
  eapply returns_bind; [by apply remove_named_safe|]. intros nh s1 Hl Hnh.
  eapply returns_bind; [apply remove_localities_safe; [eauto|eauto|lia]|]. intros _ s2 Hl2 _.
  apply returns_hs_UpdateHosts; [eauto|]. split_and!; cbn; eauto.
Qed.

(** Bringing a host back works only when the host set has localities. *)
Lemma addHealthyHost_safe p s : wf s →
  returns (addHealthyHost grow p) s (λ _ _, True) ∨ addHealthyHost grow p s = Panic SliceBounds.
Proof.
  intros Hw. unfold addHealthyHost. destruct (find_set s p 0 (hostSets s)) as [[i hs]|] eqn:Hf.
  2: { left. exists tt, s. unfold mbind, SG_bind, sg_get. rewrite Hf. by split_and!; [|apply later_refl|]. }
  pose proof (find_set_ok _ _ _ _ Hw Hf) as (H1 & H2 & H3 & H4).
  destruct (append grow (harr s) (h_healthyHosts hs) [p]) as [h1 nh] eqn:Ea.
  destruct (append_spec grow (harr s) (h_healthyHosts hs) [p] h1 nh) as (A1 & A2 & A3 & A4); [by destruct Hw|done..|].
  destruct (decide (0 < sl_len (h_healthyHostsPerLocality hs))%nat) as [Hpos|Hz].
  2: { right. unfold mbind, SG_bind, sg_get. rewrite Hf. unfold on_harr. rewrite Ea. unfold sg_lift, go_assert.
       by rewrite bool_decide_false by done. }
  left. eapply returns_bind; [by apply (returns_get s (λ a s', s' = s ∧ a = s))|]. intros ? ? _ [-> ->]. rewrite Hf.
  eapply returns_bind; [apply (returns_harr _ s (λ sl s', sl = nh ∧ harr s' = h1)); rewrite ?Ea; cbn; [done|done|by intros]|].
  intros ? s1 Hl1 [-> Hh1].
  apply (returns_bind _ _ _ (λ _ s', s' = s1)).
  { exists tt, s1. unfold sg_lift, go_assert. rewrite bool_decide_true by done. split_and!; [done|by eapply later_refl, later_wf|done]. }
  intros _ ? _ ->. eapply returns_bind; [apply (returns_cs _ s1 (λ la s', s' = s1 ∧ la = larr s1)); [by eapply later_wf|done]|].
  intros la ? _ [-> ->].
  eapply returns_bind; [apply (returns_index s1 _ _ (λ inner s', s' = s1 ∧ valid (harr s1) inner)); [eauto|eauto|lia|done]|].
  intros inner ? _ [-> Hin].
  destruct (append grow (harr s1) inner [p]) as [h2 inner'] eqn:Eb.
  destruct (append_spec grow (harr s1) inner [p] h2 inner') as (B1 & B2 & B3 & _); [by destruct (later_wf _ _ Hl1)|done..|].
  eapply returns_bind; [apply (returns_harr _ s1 (λ sl s', sl = inner' ∧ harr s' = h2)); [by eapply later_wf|rewrite Eb..]; cbn; [done|by intros]|].
  intros ? s2 Hl2 [-> Hh2].
  unfold returns. setoid_rewrite (set_then_bind _ _ _ (λ _, hs_UpdateHosts i (h_hosts hs) nh (h_hostsPerLocality hs) _ [] [])).
  eapply returns_bind; [apply returns_set_index; [by eapply later_wf|eauto|lia|by rewrite Hh2]|]. intros _ s3 Hl3 _.
  apply returns_hs_UpdateHosts; [by eapply later_wf|].
  assert (valid (harr s1) nh) by by rewrite Hh1. split_and!; cbn; eauto.
Qed.

Lemma getHealthHost_safe sl s : wf s → returns (getHealthHost grow sl) s (λ sl' s', valid (harr s') sl').
Proof.
  intros Hw. unfold getHealthHost. eapply returns_bind; [by apply (returns_cs _ s (λ o s', s' = s))|].
  intros o ? _ ->. eapply returns_bind; [by apply (returns_cs _ s (λ l s', s' = s))|]. intros l ? _ ->.
  destruct (appended grow (harr s) (filter (λ p, ho_Health o p = true) l)) as [h' sl'] eqn:E.
  destruct (appended_spec grow (harr s) (filter (λ p, ho_Health o p = true) l) h' sl') as (? & ? & ? & _); [by destruct Hw|done|].
  apply returns_harr; rewrite ?E; cbn; [done|done|]. by intros s' ->.
Qed.

Lemma health_localities_safe hhpl result hi i n s : wf s → valid (larr s) hhpl → valid (larr s) result →
  (i + n ≤ sl_len hhpl)%nat → (hi + n ≤ sl_len result)%nat →
  returns (health_localities grow hhpl result hi i n) s (λ _ _, True).
Proof.
  revert hi i s. induction n as [|n IH]; intros hi i s Hw Hv Hr Hi Hhi; cbn [health_localities]; [by apply returns_ret|].
  eapply returns_bind; [by apply (returns_cs _ s (λ la s', s' = s ∧ la = larr s))|]. intros la ? _ [-> ->].
  eapply returns_bind; [apply (returns_index s hhpl i (λ inner s', s' = s)); [done..|lia|done]|].
  intros inner ? _ ->. eapply returns_bind; [by apply getHealthHost_safe|]. intros healthy s1 Hl Hh.
  case_bool_decide.
  - unfold returns. setoid_rewrite (set_then_bind _ _ _ (λ _, health_localities grow hhpl result (S hi) (S i) n)).
    eapply returns_bind; [apply returns_set_index; [eauto|eauto|lia|done]|]. intros _ s2 Hl2 _.
    apply IH; [eauto|by do 2 (eapply later_valid_outer; [eassumption|])|by do 2 (eapply later_valid_outer; [eassumption|])|lia|lia].
  - apply IH; [eauto|eauto|eauto|lia|lia].
Qed.

Lemma getHealthHostsPerLocality_safe hhpl s : wf s → valid (larr s) hhpl →
  returns (getHealthHostsPerLocality grow hhpl) s (λ sl s', valid (larr s') sl).
Proof.
  intros Hw Hv. unfold getHealthHostsPerLocality.
  destruct (alloc (larr s) (replicate (sl_len hhpl) nil_slice) (sl_len hhpl)) as [h' r] eqn:E.
  destruct (alloc_spec (larr s) (replicate (sl_len hhpl) nil_slice) (sl_len hhpl) h' r) as (A1 & A2 & A3 & A4 & _);
    [by destruct Hw|done|].
  assert (later s (set_larr h' s)) as Hl.
  { apply wf_with_larr; try done. intros i l Hi. injection E as <- _. cbn in Hi.
    destruct (decide (i = next (larr s))) as [->|]; [|rewrite lookup_insert_ne in Hi by done; by eapply wf_inner].
    rewrite lookup_insert_eq in Hi. injection Hi as <-. apply Forall_app.
    split; apply Forall_replicate, valid_nil; by destruct Hw. }
  apply (returns_bind _ _ _ (λ sl s', sl = r ∧ s' = set_larr h' s)).
  { exists r, (set_larr h' s). unfold on_larr. by rewrite E. }
  intros ? ? _ [-> ->].
  assert (sl_len r = sl_len hhpl) as Hr by (injection E as _ <-; apply length_replicate).
  eapply returns_bind; [apply health_localities_safe; [by eapply later_wf|by eapply later_valid_outer|done|lia|rewrite Hr; lia]|].
  intros _ s2 Hl2 _. apply returns_ret; [eauto|]. by eapply later_valid_outer.
Qed.

(** The number of host sets does not change. *)
Lemma keeps_sets_getHealth n sl : keeps (λ s, length (hostSets s) = n) (getHealthHost grow sl).
Proof.
  intros s a s' H E. unfold getHealthHost, mbind, SG_bind, cs, on_harr in E. destruct (appended _ _ _). by injection E as <- <-.
Qed.
Lemma keeps_sets_localities n hhpl result hi i k :
  keeps (λ s, length (hostSets s) = n) (health_localities grow hhpl result hi i k).
Proof.
  revert hi i. induction k as [|k IH]; intros hi i; cbn [health_localities]; [apply keeps_ret|].
  apply keeps_bind; [by intros s a s' ? [= <- <-]|]. intros la. apply keeps_bind; [apply keeps_lift|]. intros inner.
  apply keeps_bind; [apply keeps_sets_getHealth|]. intros hh. case_bool_decide; [|apply IH].
  apply keeps_bind; [by intros s a s' ? [= <- <-]|]. intros la'. apply keeps_bind; [apply keeps_lift|]. intros la2.
  apply keeps_bind; [by intros s a s' ? [= <- <-]|]. intros _. apply IH.
Qed.

Lemma refresh_sets_safe i n s : wf s → (i + n ≤ length (hostSets s))%nat → returns (refresh_sets grow i n) s (λ _ _, True).
Proof.
  revert i s. induction n as [|n IH]; intros i s Hw Hi; cbn [refresh_sets]; [by apply returns_ret|].
  eapply returns_bind; [by apply (returns_cs _ s (λ l s', s' = s ∧ l = hostSets s))|]. intros ? ? _ [-> ->].
  destruct (hostSets s !! i) as [hs|] eqn:Hs; [|apply lookup_ge_None in Hs; lia].
  pose proof (Forall_lookup_1 _ _ _ _ (wf_sets _ Hw) Hs) as (H1 & H2 & H3 & H4).
  apply (returns_bind _ _ _ (λ h s', h = hs ∧ s' = s)); [by exists hs, s; split_and!; [|apply later_refl|..]|].
  intros ? ? _ [-> ->].
  destruct (getHealthHost_safe (h_hosts hs) s Hw) as (hh & s1 & E1 & Hl1 & Hh).
  pose proof (keeps_sets_getHealth _ _ _ _ _ eq_refl E1) as Hn1.
  destruct (getHealthHostsPerLocality_safe (h_hostsPerLocality hs) s1) as (hl & s2 & E2 & Hl2 & Hhl); [eauto|eauto|].
  assert (length (hostSets s2) = length (hostSets s)) as Hn2.
  { rewrite <- Hn1. unfold getHealthHostsPerLocality in E2. apply sg_bind_Ret_inv in E2 as (r & s' & Ea & E2).
    apply sg_bind_Ret_inv in E2 as ([] & s'' & Eb & [= <- <-]). unfold on_larr in Ea. destruct (alloc _ _ _).
    injection Ea as <- <-. by apply (keeps_sets_localities (length (hostSets s1))) in Eb. }
  destruct (hs_UpdateHosts_safe s2 i (mk_hset (h_hosts hs) hh (h_hostsPerLocality hs) hl) [] [])
    as (s3 & E3 & Hl3 & _ & _ & _ & Hset & _); [by eapply later_wf| |].
  { assert (valid (harr s2) (h_hosts hs)) by eauto. assert (valid (larr s2) (h_hostsPerLocality hs)) by eauto.
    split_and!; cbn; eauto. }
  destruct (IH (S i) s3) as ([] & s4 & E4 & Hl4 & _); [by eapply later_wf| |].
  { rewrite Hset, length_insert. lia. }
  exists tt, s4. split_and!; [|by repeat (eapply later_trans; [eassumption|]); apply later_refl, Hl4|done].
  eapply sg_run; [exact E1|]. eapply sg_run; [exact E2|]. cbn [h_hosts h_healthyHosts h_hostsPerLocality h_healthyHostsPerLocality] in E3.
  eapply sg_run; [exact E3|]. exact E4.
Qed.

Lemma UpdateHosts_safe new s : wf s → returns (UpdateHosts grow new) s (λ _ _, True).
Proof.
  intros Hw. unfold UpdateHosts. eapply returns_bind; [by apply (returns_cs _ s (λ l s', s' = s))|]. intros cur ? _ ->.
  eapply returns_bind; [by apply (returns_cs _ s (λ o s', s' = s))|]. intros o ? _ ->.
  destruct (updateDynamicHostList o new cur) as [o' [[[ch final] added] removed]].
  apply (returns_bind _ _ _ (λ _ s', s' = set_objs o' s)); [by exists tt, (set_objs o' s); split_and!; [|apply wf_with_objs|]|].
  intros _ s1 Hl1 ->. destruct ch; [|by apply returns_ret; [eapply later_wf|]].
  destruct (appended grow (harr s) final) as [h sl] eqn:Ea.
  destruct (appended_spec grow (harr s) final h sl) as (A1 & A2 & A3 & _); [by destruct Hw|done|].
  apply (returns_bind _ _ _ (λ x s', x = sl ∧ s' = set_harr h (set_objs o' s))).
  { exists sl, (set_harr h (set_objs o' s)). unfold on_harr. cbn. rewrite Ea. split_and!; [done| |done..].
    apply wf_with_harr; [by eapply later_wf|done|done]. }
  intros ? s2 Hl2 [-> ->]. apply (returns_bind _ _ _ (λ _ s', s' = set_sc_hosts sl (set_harr h (set_objs o' s)))).
  { eexists _, _. split_and!; [reflexivity| |done]. apply wf_with_hosts; [by eapply later_wf|done]. }
  intros _ s3 Hl3 ->. apply (returns_bind _ _ _ (λ _ _, True)).
  { destruct (hs_UpdateHosts_safe (set_sc_hosts sl (set_harr h (set_objs o' s))) 0 (mk_hset sl sl nil_slice nil_slice) added removed)
      as (s4 & E & Hl & _); [by eapply later_wf| |by exists tt, s4; split_and!; [exact E|exact Hl|exact I]].
    assert (heap_ok (larr s)) by by destruct Hw. by split_and!; cbn; [| |apply valid_nil..]. }
  intros _ s4 Hl4 _. eapply returns_bind; [apply (returns_cs _ s4 (λ _ s', s' = s4)); [by eapply later_wf|done]|].
  intros hc ? _ ->. destruct hc; cbn [sg_when]; [|by apply returns_ret; [eapply later_wf|]].
  eexists tt, _. split_and!; [reflexivity| |done]. apply wf_with_notices. by eapply later_wf.
Qed.

Lemma new_hosts_safe l s : wf s → returns (new_hosts l) s (λ _ _, True).
Proof.
  revert s. induction l as [|c l IH]; intros s Hw; cbn [new_hosts]; [by apply returns_ret|].
  eapply returns_bind; [|intros p s1 Hl _; eapply returns_bind; [by eapply IH, later_wf|intros ps s2 Hl2 _; apply returns_ret; [by eapply later_wf|done]]].
  unfold NewHost. eapply returns_bind; [by apply (returns_cs _ s (λ _ s', s' = s))|]. intros o ? _ ->.
  apply (returns_bind _ _ _ (λ _ _, True)); [eexists _, _; split_and!; [reflexivity|by apply wf_with_objs|done]|].
  intros _ s1 Hl _. apply (returns_ret _ _ (λ _ _, True)); [by eapply later_wf|done].
Qed.

Lemma address_at_bound o a i l k : address_at o a i l = Some k → (i ≤ k < i + length l)%nat.
Proof.
  revert i. induction l as [|x l IH]; cbn; intros i E; [done|]. case_bool_decide; [injection E as <-; lia|].
  apply IH in E. lia.
Qed.

Lemma RemoveClusterHosts_safe a s : wf s → returns (cluster_RemoveClusterHosts grow a) s (λ _ _, True).
Proof.
  intros Hw. unfold cluster_RemoveClusterHosts. eapply returns_bind; [by apply (returns_get s (λ a s', s' = s ∧ a = s))|].
  intros ? ? _ [-> ->]. destruct (address_at _ _ _ _) as [i|] eqn:Ha; [|by apply returns_ret].
  apply address_at_bound in Ha as [_ Ha]. rewrite elems_length in Ha by by destruct Hw.
  destruct (remove_at grow (harr s) (sc_hosts s) i) as [h' sl'] eqn:E.
  destruct (remove_at_spec grow (harr s) (sc_hosts s) i h' sl') as (H1 & H2 & _); [by destruct Hw..|lia|done|].
  apply (returns_bind _ _ _ (λ _ _, True)); [apply returns_harr; rewrite ?E; done|]. intros cc s1 Hl _.
  eapply returns_bind; [apply (returns_cs _ s1 (λ _ s', s' = s1)); [by eapply later_wf|done]|]. intros l ? _ ->.
  apply UpdateHosts_safe. by eapply later_wf.
Qed.

(** What can happen to the hosts of a cluster: new configuration, removal of a
    host, a change of its health, a refresh. *)
Inductive cluster_op :=
  | OpUpdate (hosts : list Host_config) | OpRemove (addr : string)
  | OpSetFlag (p : nat) (flag : Z) | OpClearFlag (p : nat) (flag : Z) | OpRefresh (p : nat) | OpRefreshAll.

Definition run_op (op : cluster_op) : SG cstate unit :=
  match op with
  | OpUpdate hosts => cluster_UpdateClusterHosts grow hosts
  | OpRemove addr => cluster_RemoveClusterHosts grow addr
  | OpSetFlag p flag => mod_cs (λ s, set_objs (ho_SetHealthFlag (objs s) p flag) s)
  | OpClearFlag p flag => mod_cs (λ s, set_objs (ho_ClearHealthFlag (objs s) p flag) s)
  | OpRefresh p => refreshHealthHosts grow p
  | OpRefreshAll => refreshHealthHostsGlobal grow
  end.

Fixpoint run_ops (l : list cluster_op) : SG cstate unit :=
  match l with [] => mret tt | op :: l => _ ← run_op op; run_ops l end.

(** An operation returns in a well-formed state, or it brings back a host. *)
Lemma run_op_safe op s : wf s →
  returns (run_op op) s (λ _ _, True) ∨
  (run_op op s = Panic SliceBounds ∧ ∃ p, op = OpRefresh p ∧ ho_Health (objs s) p = true).
Proof.
  intros Hw. destruct op as [hosts|a|p f|p f|p|]; cbn [run_op].
  - left. unfold cluster_UpdateClusterHosts. eapply returns_bind; [by apply new_hosts_safe|]. intros l s1 Hl _.
    apply UpdateHosts_safe. by eapply later_wf.
  - left. by apply RemoveClusterHosts_safe.
  - left. eexists _, _. split_and!; [reflexivity|by apply wf_with_objs|done].
  - left. eexists _, _. split_and!; [reflexivity|by apply wf_with_objs|done].
  - unfold refreshHealthHosts. destruct (ho_Health (objs s) p) eqn:Hp.
    + destruct (addHealthyHost_safe p s Hw) as [(a & s' & E & ? & _)|E].
      * left. exists a, s'. split_and!; [|done..]. unfold mbind, SG_bind, cs. by rewrite Hp.
      * right. split; [|by exists p]. unfold mbind, SG_bind, cs. by rewrite Hp.
    + left. destruct (delHealthHost_safe p s Hw) as (a & s' & E & ? & _). exists a, s'. split_and!; [|done..].
      unfold mbind, SG_bind, cs. by rewrite Hp.
  - left. unfold refreshHealthHostsGlobal.
    eapply returns_bind; [by apply (returns_cs _ s (λ n s', s' = s ∧ n = length (hostSets s)))|]. intros ? ? _ [-> ->].
    by apply refresh_sets_safe.
Qed.

Lemma new_cluster_wf hc : wf (new_cluster hc).
Proof.
  assert (∀ A, heap_ok (A := A) empty_heap) as He by (intros A; split_and!; cbn; [lia|done|set_solver]).
  split; cbn; [apply He|apply He|by apply valid_nil| |set_solver].
  apply Forall_singleton. by split_and!; cbn; apply valid_nil.
Qed.

Lemma run_ops_wf l s s' : wf s → run_ops l s = Ret (tt, s') → wf s'.
Proof.
  revert s. induction l as [|op l IH]; intros s Hw E; [by injection E as <-|]. cbn in E.
  apply sg_bind_Ret_inv in E as ([] & s1 & E1 & E). eapply IH; [|exact E].
  destruct (run_op_safe op s Hw) as [(a & s2 & E2 & [Hw2 _] & _)|[E2 _]]; rewrite E2 in E1; [by injection E1 as _ <-|done].
Qed.

End wf.

(** ** New hosts *)

Lemma fresh_ptr_above (o : gmap nat hostObj) p : is_Some (o !! p) → (p < fresh_ptr o)%nat.
Proof.
  unfold fresh_ptr. revert p. apply (map_fold_weak_ind (λ m (o : gmap nat hostObj), ∀ p, is_Some (o !! p) → (p < m)%nat)).
  - intros p [x Hx]. by rewrite lookup_empty in Hx.
  - intros i x m r Hi IH p Hp. destruct (decide (p = i)) as [->|]; [lia|]. rewrite lookup_insert_ne in Hp by done.
    specialize (IH p Hp). lia.
Qed.

Lemma fresh_ptr_None (o : gmap nat hostObj) : o !! fresh_ptr o = None.
Proof. destruct (o !! fresh_ptr o) eqn:E; [|done]. assert (fresh_ptr o < fresh_ptr o)%nat by (apply fresh_ptr_above; eauto). lia. Qed.

Lemma set_objs_twice o o' s : set_objs o (set_objs o' s) = set_objs o s.
Proof. done. Qed.

Lemma AddressString_subseteq (o o' : gmap nat hostObj) p : o ⊆ o' → is_Some (o !! p) → AddressString o' p = AddressString o p.
Proof.
  intros Hs [x Hx]. unfold AddressString. rewrite !lookup_total_alt, Hx. by erewrite lookup_weaken by done.
Qed.

Lemma new_hosts_spec l s : ∃ ps o, new_hosts l s = Ret (ps, set_objs o s) ∧ objs s ⊆ o ∧
  AddressString o <$> ps = hc_Address <$> l ∧ Forall (λ p, is_Some (o !! p)) ps.
Proof.
  revert s. induction l as [|c l IH]; intros s.
  { exists [], (objs s). by split_and!; [destruct s|..]. }
  set (p := fresh_ptr (objs s)). set (h := mk_ho (mk_host (hc_Address c) (hc_Hostname c) (hc_MetaData c)) (hc_Weight c) 0).
  set (s1 := set_objs (<[p := h]> (objs s)) s).
  assert (objs s ⊆ <[p := h]> (objs s)) as Hsub by (apply insert_subseteq, fresh_ptr_None).
  destruct (IH s1) as (ps & o & E & Ho & Ha & Hv). exists (p :: ps), o.
  assert (is_Some (o !! p)) as Hp by (eexists; eapply lookup_weaken; [|exact Ho]; apply lookup_insert_eq).
  split_and!; [| |cbn; f_equal; [|done]|by constructor].
  - cbn [new_hosts]. eapply sg_run; [unfold NewHost; do 2 (eapply sg_run; [reflexivity|]); reflexivity|].
    fold p h s1. eapply sg_run; [exact E|]. done.
  - by etrans.
  - rewrite (AddressString_subseteq (<[p := h]> (objs s))); [|done|rewrite lookup_insert_eq; eauto].
    unfold AddressString. by rewrite lookup_total_insert_eq.
Qed.

(** ** What an update makes of a cluster *)

Section updates.
  Context (grow : nat → nat).

(** The addresses of a cluster's hosts. *)
Definition members (s : cstate) : list nat := elems (harr s) (sc_hosts s).
Definition member_addresses (s : cstate) : list string := AddressString (objs s) <$> members s.

Lemma at_address_distinct a cur x y : NoDup (a <$> cur) → y ∈ cur → a y = x → at_address a x cur = [y].
Proof.
  intros Hnd Hy <-. unfold at_address. induction cur as [|c cur IH]; [by apply elem_of_nil in Hy|].
  inversion Hnd as [|? ? Hc Hnd']; subst. rewrite filter_cons. apply elem_of_cons in Hy as [->|Hy].
  - rewrite decide_True by done. f_equal. apply filter_none_of.
    intros p Hp Hap. apply Hc. rewrite Hap. by apply list_elem_of_fmap_2.
  - rewrite decide_False; [by apply IH|]. intros Ha. apply Hc. rewrite <- Ha. by apply list_elem_of_fmap_2.
Qed.

Lemma kept_self a cur nh : NoDup (a <$> cur) → nh ∈ cur → kept a cur nh = [nh].
Proof. intros Hnd Hin. unfold kept. by rewrite (at_address_distinct a cur (a nh) nh). Qed.

Lemma kept_addresses a cur nh : NoDup (a <$> cur) → a <$> kept a cur nh = [a nh].
Proof.
  intros Hnd. unfold kept. destruct (at_address a (a nh) cur) as [|c l] eqn:E; [done|].
  assert (c ∈ at_address a (a nh) cur) as Hc by (rewrite E; by left). unfold at_address in Hc.
  apply list_elem_of_filter in Hc as [Ha Hc]. rewrite (at_address_distinct a cur (a nh) c) in E by done.
  injection E as <-. cbn. by rewrite Ha.
Qed.

Lemma final_addresses a new cur : NoDup (a <$> cur) → a <$> ref_final a new cur = a <$> first_of a ∅ new.
Proof.
  intros Hnd. unfold ref_final. induction (first_of a ∅ new) as [|x l IH]; [done|]. cbn.
  rewrite fmap_app, kept_addresses, IH by done. done.
Qed.

(** The difference of lists that have the same addresses. *)
Lemma unchanged_addresses a new cur : ref_added a new cur = [] → ref_removed a new cur = [] →
  ∀ x, x ∈ a <$> cur ↔ x ∈ a <$> new.
Proof.
  intros Hadd Hrem x. split; intros Hx.
  - apply list_elem_of_fmap in Hx as (c & -> & Hc). destruct (decide (a c ∈ a <$> new)) as [|Hn]; [done|].
    assert (c ∈ ref_removed a new cur) as H by (unfold ref_removed; by apply list_elem_of_filter). by rewrite Hrem in H; set_solver.
  - assert (x ∈ a <$> first_of a ∅ new) as Hf by (apply first_of_addresses; set_solver).
    apply list_elem_of_fmap in Hf as (nh & -> & Hnh).
    destruct (at_address a (a nh) cur) as [|c l] eqn:E.
    + assert (nh ∈ ref_added a new cur) as H by (unfold ref_added; by apply list_elem_of_filter). by rewrite Hadd in H; set_solver.
    + assert (c ∈ at_address a (a nh) cur) as Hc by (rewrite E; by left). unfold at_address in Hc.
      apply list_elem_of_filter in Hc as [-> Hc]. by apply list_elem_of_fmap_2.
Qed.

(** The run of an update. *)
Lemma UpdateHosts_run new s : wf s →
  let a := AddressString (objs s) in
  let added := ref_added a new (members s) in
  let removed := ref_removed a new (members s) in
  ∃ s', UpdateHosts grow new s = Ret (tt, s') ∧ same_hosts (objs s) (objs s') ∧ wf s' ∧ checker s' = checker s ∧
    if bool_decide (added ≠ [] ∨ removed ≠ []) then
      members s' = ref_final a new (members s) ∧
      hostSets s' = <[0%nat := mk_hset (sc_hosts s') (sc_hosts s') nil_slice nil_slice]> (hostSets s) ∧
      notices s' = (notices s ++ MemberUpdate 0 added removed :: if checker s then [OnClusterMemberUpdate added removed] else [])%list
    else harr s' = harr s ∧ sc_hosts s' = sc_hosts s ∧ hostSets s' = hostSets s ∧ notices s' = notices s.
Proof.
  intros Hw a added removed. destruct (UpdateHosts_safe grow new s Hw) as ([] & s' & E & [Hw' _] & _). exists s'.
  pose proof E as E0. unfold UpdateHosts in E. do 2 apply sg_bind_Ret_inv in E as (? & ? & [= <- <-] & E).
  destruct (host_list_difference (objs s) new (members s)) as (o' & Ed & Hsh & _). fold a in Ed. fold added removed in Ed.
  change (elems (harr s) (sc_hosts s)) with (members s) in E. rewrite Ed in E.
  apply sg_bind_Ret_inv in E as (? & ? & [= <- <-] & E). case_bool_decide.
  2: { injection E as <-. by split_and!. }
  apply sg_bind_Ret_inv in E as (sl & s1 & Ea & E). unfold on_harr in Ea. cbn [harr set_objs] in Ea.
  destruct (appended grow (harr s) _) as [h sl'] eqn:Eapp. injection Ea as -> <-.
  apply appended_spec in Eapp as (_ & _ & _ & Hel); [|by destruct Hw].
  do 3 apply sg_bind_Ret_inv in E as (? & ? & [= <- <-] & E). cbn [checker] in E.
  destruct (checker s) eqn:Hc; cbn [set_notices set_hostSets set_sc_hosts set_harr set_objs checker sg_when] in E;
    rewrite ?Hc in E; injection E as <-; (split_and!; [done..|]); cbn; by rewrite <- ?app_assoc.
Qed.

Lemma first_of_sub a seen l x : x ∈ first_of a seen l → x ∈ l.
Proof.
  revert seen. induction l as [|y l IH]; cbn; intros seen Hx; [done|]. case_bool_decide; [right; by eapply IH|].
  apply elem_of_cons in Hx as [->|Hx]; [by left|right; by eapply IH].
Qed.

Lemma update_hosts_members new s : wf s → NoDup (member_addresses s) →
  let a := AddressString (objs s) in
  let added := ref_added a new (members s) in
  let removed := ref_removed a new (members s) in
  ∃ s', UpdateHosts grow new s = Ret (tt, s') ∧ same_hosts (objs s) (objs s') ∧ (∀ p, p ∈ members s' → p ∈ members s ∨ p ∈ new) ∧
    wf s' ∧ NoDup (member_addresses s') ∧
    (∀ x, x ∈ member_addresses s' ↔ x ∈ a <$> new) ∧
    (∀ p, p ∈ members s → a p ∈ a <$> new → p ∈ members s' ∧ ho_Health (objs s') p = ho_Health (objs s) p) ∧
    if bool_decide (added ≠ [] ∨ removed ≠ []) then
      hostSets s' = <[0%nat := mk_hset (sc_hosts s') (sc_hosts s') nil_slice nil_slice]> (hostSets s) ∧
      notices s' = (notices s ++ MemberUpdate 0 added removed :: if checker s then [OnClusterMemberUpdate added removed] else [])%list
    else hostSets s' = hostSets s ∧ notices s' = notices s.
Proof.
  intros Hw Hnd a added removed. destruct (UpdateHosts_run new s Hw) as (s' & E & Hsh & Hw' & _ & Hs'). fold a in Hs'. fold added removed in Hs'.
  exists s'. split; [done|]. split; [done|]. split.
  { intros p Hp. destruct (bool_decide (added ≠ [] ∨ removed ≠ [])).
    - destruct Hs' as (Hm & _). rewrite Hm in Hp. unfold ref_final in Hp. apply list_elem_of_bind in Hp as (nh & Hp & Hnh).
      unfold kept in Hp. destruct (at_address a (a nh) (members s)) as [|c l] eqn:Hat.
      + apply list_elem_of_singleton in Hp as ->. right. by eapply first_of_sub.
      + left. assert (p ∈ at_address a (a nh) (members s)) as Hin by by rewrite Hat. by apply list_elem_of_filter in Hin as [_ ?].
    - destruct Hs' as (Hh & Hsc & _). left. unfold members in *. by rewrite Hh, Hsc in Hp. }
  split; [done|].
  assert (∀ l, AddressString (objs s') <$> l = a <$> l) as Ha by (intros l; apply list_fmap_ext; intros; by apply same_hosts_address).
  assert (∀ p, ho_Health (objs s') p = ho_Health (objs s) p) as Hh by (intros p; unfold ho_Health; by destruct (Hsh p) as (_ & -> & _)).
  unfold member_addresses. rewrite Ha. case_bool_decide as Hch.
  - destruct Hs' as (Hm & Hset & Hnot). rewrite Hm, final_addresses by done. split_and!; try done.
    + apply first_of_distinct.
    + intros x. rewrite first_of_addresses. set_solver.
    + intros p Hp Hpa. split; [|apply Hh].
      assert (a p ∈ a <$> first_of a ∅ new) as Hf by (apply first_of_addresses; set_solver).
      apply list_elem_of_fmap in Hf as (nh & Hap & Hnh). unfold ref_final. apply list_elem_of_bind.
      exists nh. split; [|done]. unfold kept. rewrite (at_address_distinct a (members s) (a nh) p); [by left|done..].
  - destruct Hs' as (Hh' & Hsc & Hset & Hnot). unfold members. rewrite Hh', Hsc. fold (members s).
    assert (added = [] ∧ removed = []) as [He1 He2] by (destruct added, removed; naive_solver).
    split_and!; try done. by apply unchanged_addresses.
Qed.


(** An update of a cluster whose hosts have distinct addresses does what it
    is asked to: it never panics, afterwards the cluster has exactly the
    addresses of the new hosts, each once; a host that stays is the same object
    and keeps its health; members and health checker are told the difference,
    and nobody is told when there is none.  All hosts are then listed as
    healthy, also those that are known to fail. *)
Theorem UpdateHosts_correct new s : wf s → NoDup (member_addresses s) →
  let a := AddressString (objs s) in
  let added := ref_added a new (members s) in
  let removed := ref_removed a new (members s) in
  ∃ s', UpdateHosts grow new s = Ret (tt, s') ∧ wf s' ∧ NoDup (member_addresses s') ∧
    (∀ x, x ∈ member_addresses s' ↔ x ∈ a <$> new) ∧
    (∀ p, p ∈ members s → a p ∈ a <$> new → p ∈ members s' ∧ ho_Health (objs s') p = ho_Health (objs s) p) ∧
    if bool_decide (added ≠ [] ∨ removed ≠ []) then
      hostSets s' = <[0%nat := mk_hset (sc_hosts s') (sc_hosts s') nil_slice nil_slice]> (hostSets s) ∧
      notices s' = (notices s ++ MemberUpdate 0 added removed :: if checker s then [OnClusterMemberUpdate added removed] else [])%list
    else hostSets s' = hostSets s ∧ notices s' = notices s.
Proof.
  intros Hw Hnd. destruct (update_hosts_members new s Hw Hnd) as (s' & E & _ & _ & H). by exists s'.
Qed.

(** ** Runs of updates *)

(** A cluster between updates: its addresses are distinct, its pointers in use,
    and its one host set lists all hosts as hosts and as healthy hosts. *)
Record good (s : cstate) : Prop := {
  good_wf : wf s;
  good_distinct : NoDup (member_addresses s);
  good_ptrs : Forall (λ p, is_Some (objs s !! p)) (members s);
  good_sets : hostSets s = [mk_hset (sc_hosts s) (sc_hosts s) nil_slice nil_slice];
}.

Lemma good_new hc : good (new_cluster hc).
Proof. split; [apply new_cluster_wf|constructor|constructor|done]. Qed.

(** The pointers in use stay in use, for hosts of the same addresses. *)
Definition objs_grow (o o' : gmap nat hostObj) : Prop :=
  ∀ p, is_Some (o !! p) → is_Some (o' !! p) ∧ AddressString o' p = AddressString o p.

#[export] Instance objs_grow_preorder : PreOrder objs_grow.
Proof.
  split; [by intros o p|]. intros o1 o2 o3 H1 H2 p Hp. destruct (H1 p Hp) as [Hp2 <-]. by apply H2.
Qed.
Lemma same_hosts_grow o o' : same_hosts o o' → objs_grow o o'.
Proof. intros H p Hp. split; [by apply H|by apply same_hosts_address]. Qed.
Lemma subseteq_grow o o' : o ⊆ o' → objs_grow o o'.
Proof.
  intros H p Hp. split; [|by apply AddressString_subseteq]. destruct Hp as [x Hx]. exists x. by eapply lookup_weaken.
Qed.
Lemma grow_addresses o o' l : objs_grow o o' → Forall (λ p, is_Some (o !! p)) l → AddressString o' <$> l = AddressString o <$> l.
Proof. intros Hg Hl. apply list_fmap_ext. intros i p Hp. apply Hg. by eapply Forall_lookup_1 in Hp; [|exact Hl]. Qed.
Lemma grow_ptrs o o' l : objs_grow o o' → Forall (λ p, is_Some (o !! p)) l → Forall (λ p, is_Some (o' !! p)) l.
Proof. intros Hg Hl. eapply Forall_impl; [exact Hl|]. intros p Hp. by apply Hg. Qed.

Lemma first_of_ext a a' seen l : (∀ p, a p = a' p) → first_of a seen l = first_of a' seen l.
Proof.
  intros H. revert seen. induction l as [|x l IH]; intros seen; cbn; [done|]. rewrite H, !IH. done.
Qed.
Lemma ref_added_ext a a' new cur : (∀ p, a p = a' p) → ref_added a new cur = ref_added a' new cur.
Proof.
  intros H. unfold ref_added. rewrite (first_of_ext a a') by done. apply list_filter_iff. intros p. unfold at_address.
  rewrite H. rewrite (list_filter_iff _ (λ q, a' p = a' q) cur); [done|]. intros q. by rewrite H.
Qed.
Lemma ref_removed_ext a a' new cur : (∀ p, a p = a' p) → ref_removed a new cur = ref_removed a' new cur.
Proof.
  intros H. unfold ref_removed. apply list_filter_iff. intros p. rewrite H.
  rewrite (list_fmap_ext a a' new); [done|]. intros. apply H.
Qed.

(** Taking out what was removed and adding what was added makes the new list. *)
Lemma difference_applied a new cur :
  (list_to_set (a <$> cur) ∖ list_to_set (a <$> ref_removed a new cur)) ∪ list_to_set (a <$> ref_added a new cur)
  =@{gset string} list_to_set (a <$> new).
Proof.
  apply set_eq. intros x. rewrite elem_of_union, elem_of_difference, !elem_of_list_to_set.
  assert (x ∈ a <$> ref_removed a new cur ↔ x ∈ a <$> cur ∧ x ∉ a <$> new) as ->.
  { unfold ref_removed. split.
    - intros [c [-> [Hn Hc]%list_elem_of_filter]]%list_elem_of_fmap. split; [by apply list_elem_of_fmap_2|done].
    - intros [[c [-> Hc]]%list_elem_of_fmap Hn]. by apply list_elem_of_fmap_2, list_elem_of_filter. }
  assert (x ∈ a <$> ref_added a new cur ↔ x ∈ a <$> new ∧ x ∉ a <$> cur) as ->; [|destruct (decide (x ∈ a <$> new)), (decide (x ∈ a <$> cur)); naive_solver].
  assert (∀ y, at_address a (a y) cur = [] ↔ a y ∉ a <$> cur) as Hat.
  { intros y. unfold at_address. split.
    - intros E [c [Ha Hc]]%list_elem_of_fmap. assert (c ∈ filter (λ p, a y = a p) cur) as F by (by apply list_elem_of_filter).
      rewrite E in F. by apply elem_of_nil in F.
    - intros Hn. apply filter_none_of. intros c Hc Ha. apply Hn. rewrite Ha. by apply list_elem_of_fmap_2. }
  assert (x ∈ a <$> new ↔ x ∈ a <$> first_of a ∅ new) as -> by (rewrite first_of_addresses; set_solver).
  unfold ref_added. split.
  - intros [y [-> [Hy Hin]%list_elem_of_filter]]%list_elem_of_fmap. split; [by apply list_elem_of_fmap_2|by apply Hat].
  - intros [[y [-> Hin]]%list_elem_of_fmap Hn]. by apply list_elem_of_fmap_2, list_elem_of_filter; rewrite Hat.
Qed.

(** What the members of a cluster, and its health checker, know of its hosts
    when they go by what they were told. *)
Definition member_view (a : nat → string) (X : gset string) (n : notice) : gset string :=
  match n with
  | MemberUpdate _ added removed => (X ∖ list_to_set (a <$> removed)) ∪ list_to_set (a <$> added)
  | OnClusterMemberUpdate _ _ => X
  end.
Definition checker_view (a : nat → string) (X : gset string) (n : notice) : gset string :=
  match n with
  | MemberUpdate _ _ _ => X
  | OnClusterMemberUpdate added removed => (X ∖ list_to_set (a <$> removed)) ∪ list_to_set (a <$> added)
  end.
Definition notice_ptrs (n : notice) : list nat :=
  match n with MemberUpdate _ added removed | OnClusterMemberUpdate added removed => (added ++ removed)%list end.

(** One update of a good cluster. *)
Lemma good_update l s : good s → ∃ s' ps, cluster_UpdateClusterHosts grow l s = Ret (tt, s') ∧ good s' ∧
  objs_grow (objs s) (objs s') ∧ checker s' = checker s ∧
  (∀ x, x ∈ member_addresses s' ↔ x ∈ hc_Address <$> l) ∧
  Forall (λ p, is_Some (objs s' !! p)) ps ∧ AddressString (objs s') <$> ps = hc_Address <$> l ∧
  let a := AddressString (objs s') in
  let added := ref_added a ps (members s) in
  let removed := ref_removed a ps (members s) in
  notices s' = (notices s ++ if bool_decide (added ≠ [] ∨ removed ≠ []) then
    MemberUpdate 0 added removed :: if checker s then [OnClusterMemberUpdate added removed] else [] else [])%list.
Proof.
  intros [Hw Hnd Hp Hsets]. destruct (new_hosts_spec l s) as (ps & o & E & Hsub & Ha & Hv).
  destruct (wf_with_objs s o Hw) as [Hwo _].
  assert (member_addresses (set_objs o s) = member_addresses s) as Hm.
  { unfold member_addresses. by apply grow_addresses; [apply subseteq_grow|]. }
  destruct (update_hosts_members ps (set_objs o s)) as (s' & Eu & Hsh & Hin & Hw' & Hnd' & Hx & _ & Hno); [done|by rewrite Hm|].
  destruct (UpdateHosts_run ps (set_objs o s)) as (s2 & Eu2 & _ & _ & Hc & Hs'); [done|]. rewrite Eu in Eu2. injection Eu2 as <-.
  cbn in Hsh, Hx, Hno, Hc, Hs'. pose proof (same_hosts_grow _ _ Hsh) as Hg.
  assert (∀ p, AddressString (objs s') p = AddressString o p) as Hao by (intros p; by apply same_hosts_address).
  assert (Forall (λ p, is_Some (objs s' !! p)) ps) as Hv' by by eapply grow_ptrs.
  exists s', ps. split; [unfold cluster_UpdateClusterHosts; eapply sg_run; [exact E|exact Eu]|].
  split; [split; [done|done| |]|split_and!; [|done| |done| |]].
  - apply Forall_forall. intros p Hq. apply Hsh. apply Hin in Hq as [Hq|Hq].
    + apply (subseteq_grow _ _ Hsub). by eapply Forall_forall in Hp; [|exact Hq].
    + by eapply Forall_forall in Hv; [|exact Hq].
  - revert Hs'. case_bool_decide; intros Hs'; [destruct Hs' as (_ & -> & _); by rewrite Hsets|].
    destruct Hs' as (_ & -> & -> & _). done.
  - etrans; [by apply subseteq_grow|done].
  - intros x. rewrite Hx. by rewrite Ha.
  - rewrite <- Ha. apply list_fmap_ext. intros. apply Hao.
  - cbn zeta. change (members (set_objs o s)) with (members s) in Hno.
    rewrite (ref_added_ext _ (AddressString o)), (ref_removed_ext _ (AddressString o)) by done.
    destruct (bool_decide _); destruct Hno as [_ ->]; [done|by rewrite app_nil_r].
Qed.

(** Going by the notices gives the same view in a later state. *)
Lemma view_step_grow o o' X n : objs_grow o o' → Forall (λ p, is_Some (o !! p)) (notice_ptrs n) →
  member_view (AddressString o') X n = member_view (AddressString o) X n ∧
  checker_view (AddressString o') X n = checker_view (AddressString o) X n.
Proof.
  intros Hg. destruct n as [k added removed|added removed]; cbn; intros [H1 H2]%Forall_app; split; try done;
    by rewrite !(grow_addresses o o').
Qed.
Lemma views_grow o o' l : objs_grow o o' → Forall (λ p, is_Some (o !! p)) (l ≫= notice_ptrs) → ∀ X,
  foldl (member_view (AddressString o')) X l = foldl (member_view (AddressString o)) X l ∧
  foldl (checker_view (AddressString o')) X l = foldl (checker_view (AddressString o)) X l.
Proof.
  intros Hg. induction l as [|n l IH]; [done|]. cbn. intros [Hn Hl]%Forall_app X.
  destruct (view_step_grow o o' X n Hg Hn) as [-> _]. split; [by apply IH|].
  destruct (view_step_grow o o' X n Hg Hn) as [_ ->]. by apply IH.
Qed.

(** What holds after updates that made the set [X] of addresses. *)
Record follows (hc : bool) (X : gset string) (s : cstate) : Prop := {
  fo_good : good s;
  fo_checker : checker s = hc;
  fo_ptrs : Forall (λ p, is_Some (objs s !! p)) (notices s ≫= notice_ptrs);
  fo_set : list_to_set (member_addresses s) = X;
  fo_members : foldl (member_view (AddressString (objs s))) ∅ (notices s) = X;
  fo_check : foldl (checker_view (AddressString (objs s))) ∅ (notices s) = if hc then X else ∅;
}.

Lemma follows_flags hc X s o : follows hc X s → objs_grow (objs s) o → follows hc X (set_objs o s).
Proof.
  intros [[Hw Hnd Hp Hs] Hc Hn Hset Hm Hk] Hg.
  assert (member_addresses (set_objs o s) = member_addresses s) as Ha by (unfold member_addresses; by apply grow_addresses).
  destruct (views_grow _ _ _ Hg Hn ∅) as [V1 V2].
  split; cbn [notices objs checker set_objs]; [split|..]; rewrite ?Ha, ?V1, ?V2; try done;
    [by apply wf_with_objs|by eapply grow_ptrs..].
Qed.

Lemma follows_update hc X l s : follows hc X s →
  ∃ s', cluster_UpdateClusterHosts grow l s = Ret (tt, s') ∧ follows hc (list_to_set (hc_Address <$> l)) s'.
Proof.
  intros [Hgood Hc Hn Hset Hm Hk]. destruct (good_update l s Hgood) as (s' & ps & E & Hg' & Hg & Hc' & Hx & Hps & Ha & Hno).
  exists s'. split; [done|]. set (a := AddressString (objs s')) in *.
  assert (a <$> members s = member_addresses s) as Hold by (apply grow_addresses; [done|apply Hgood]).
  pose proof (difference_applied a ps (members s)) as Hd. rewrite Ha, Hold, Hset in Hd.
  set (added := ref_added a ps (members s)) in *. set (removed := ref_removed a ps (members s)) in *.
  assert (¬ (added ≠ [] ∨ removed ≠ []) → X = list_to_set (hc_Address <$> l)) as Hsame.
  { intros Hch. assert (added = [] ∧ removed = []) as [E1 E2] by (destruct added, removed; naive_solver).
    rewrite E1, E2 in Hd. cbn in Hd. set_solver. }
  destruct (views_grow _ _ _ Hg Hn ∅) as [V1 V2].
  assert (Forall (λ p, is_Some (objs s' !! p)) (added ++ removed)) as Hall.
  { apply Forall_app. split; apply Forall_forall; intros p [_ Hp]%list_elem_of_filter.
    - eapply Forall_forall in Hps; [done|by eapply first_of_sub].
    - apply Hg. destruct Hgood as [_ _ Hp' _]. by eapply Forall_forall in Hp'; [|exact Hp]. }
  apply (grow_ptrs _ _ _ Hg) in Hn. split; [done|congruence|..]; fold a; [rewrite Hno| |rewrite Hno..].
  - rewrite bind_app. apply Forall_app. split; [done|]. destruct (bool_decide _); [|constructor]. rewrite Hc.
    destruct hc; cbn; rewrite ?app_nil_r; [apply Forall_app; split|]; done.
  - apply set_eq. intros x. by rewrite !elem_of_list_to_set.
  - rewrite foldl_app. fold a in V1. rewrite V1, Hm. case_bool_decide as Hch.
    + rewrite Hc. destruct hc; cbn; done.
    + cbn. by apply Hsame.
  - rewrite foldl_app. fold a in V2. rewrite V2, Hk, Hc. case_bool_decide as Hch; [by destruct hc|].
    cbn. destruct hc; [|done]. by apply Hsame.
Qed.

(** The addresses that a cluster is configured with after a run. *)
Definition configured (l : list cluster_op) : gset string :=
  foldl (λ X op, match op with OpUpdate hosts => list_to_set (hc_Address <$> hosts) | _ => X end) ∅ l.
Definition updates_or_flags (op : cluster_op) : bool :=
  match op with OpUpdate _ | OpSetFlag _ _ | OpClearFlag _ _ => true | _ => false end.

Lemma alter_flags_grow o p f : (∀ h, ho_info (f h) = ho_info h) → objs_grow o (alter f p o).
Proof.
  intros Hf q [h Hh]. unfold AddressString. rewrite !lookup_total_alt. destruct (decide (p = q)) as [->|Hne].
  - rewrite lookup_alter_eq, Hh. cbn. by rewrite Hf.
  - rewrite lookup_alter_ne, Hh by done. done.
Qed.

Lemma follows_run hc l : Forall updates_or_flags l → ∀ X s, follows hc X s →
  ∃ s', run_ops grow l s = Ret (tt, s') ∧
    follows hc (foldl (λ X op, match op with OpUpdate hosts => list_to_set (hc_Address <$> hosts) | _ => X end) X l) s'.
Proof.
  induction 1 as [|op l Hop Hl IH]; intros X s Hf; [by exists s|].
  assert (∃ s1, run_op grow op s = Ret (tt, s1) ∧
    follows hc (match op with OpUpdate hosts => list_to_set (hc_Address <$> hosts) | _ => X end) s1) as (s1 & E & Hf1).
  { destruct op; try done; cbn [run_op].
    - by apply follows_update with (X := X).
    - eexists. split; [done|]. apply follows_flags; [done|]. by apply alter_flags_grow.
    - eexists. split; [done|]. apply follows_flags; [done|]. by apply alter_flags_grow. }
  destruct (IH _ _ Hf1) as (s' & E' & Hf'). exists s'. split; [|done]. cbn [run_ops]. by eapply sg_run.
Qed.


(** ** Shared arrays

    After an update the cluster's list, the hosts and the healthy hosts of its
    host set are one slice. *)
Record updated (s : cstate) : Prop := {
  up_wf : wf s;
  up_distinct : NoDup (member_addresses s);
  up_sets : hostSets s = [mk_hset (sc_hosts s) (sc_hosts s) nil_slice nil_slice];
}.

(** Removing place [i] in place: what the array holds then. *)
Definition shifted (i : nat) (l : list nat) : list nat := (delete i l ++ drop (length l - 1) l)%list.

Lemma remove_shifts s i h' sl' : wf s → (i < length (members s))%nat →
  remove_at grow (harr s) (sc_hosts s) i = (h', sl') →
  heap_ok h' ∧ grows (harr s) h' ∧ valid h' sl' ∧ elems h' sl' = delete i (members s) ∧
  elems h' (sc_hosts s) = shifted i (members s).
Proof.
  intros [] Hi E. unfold members in *. rewrite elems_length in Hi by done.
  destruct (remove_at_spec grow _ _ _ _ _ wf_harr0 wf_hosts0 Hi E) as (H1 & H2 & H3 & H4 & _ & H5 & _).
  split_and!; try done. unfold elems at 1. rewrite H5. unfold shifted. rewrite elems_length by done.
  pose proof (elems_length _ _ wf_hosts0) as Hl.
  rewrite take_app_ge by (rewrite length_delete by (apply lookup_lt_is_Some; lia); lia). f_equal.
  rewrite length_delete by (apply lookup_lt_is_Some; lia). rewrite Hl. unfold elems. rewrite take_drop_commute.
  do 2 f_equal; lia.
Qed.

Lemma address_at_distinct o l k i p : NoDup (AddressString o <$> l) → l !! i = Some p →
  address_at o (AddressString o p) k l = Some (k + i)%nat.
Proof.
  revert k i. induction l as [|x l IH]; intros k i Hnd Hi; [done|]. inversion Hnd as [|? ? Hx Hnd']; subst.
  cbn [address_at]. destruct i as [|i]; cbn in Hi.
  - injection Hi as ->. rewrite bool_decide_true by done. f_equal. lia.
  - rewrite bool_decide_false; [rewrite (IH (S k) i) by done; f_equal; lia|].
    intros Ha. apply Hx. rewrite <- Ha. apply list_elem_of_fmap_2. by eapply list_elem_of_lookup_2.
Qed.

Lemma list_bind_singleton {A} (l : list A) : l ≫= (λ x, [x]) = l.
Proof. induction l as [|x l IH]; [done|]. cbn. by f_equal. Qed.
Lemma first_of_self a seen l : NoDup (a <$> l) → (∀ x, x ∈ l → a x ∉ seen) → first_of a seen l = l.
Proof.
  revert seen. induction l as [|y l IH]; intros seen Hnd Hs; [done|]. inversion Hnd as [|? ? Hy Hnd']; subst. cbn.
  rewrite bool_decide_false by (apply Hs; by left). f_equal. apply IH; [done|]. intros x Hx.
  assert (a x ≠ a y) by (intros Ha; apply Hy; rewrite <- Ha; by apply list_elem_of_fmap_2).
  specialize (Hs x (list_elem_of_further _ _ _ Hx)). set_solver.
Qed.
Lemma no_additions a new cur : (∀ x, x ∈ new → x ∈ cur) → ref_added a new cur = [].
Proof.
  intros Hsub. apply filter_none_of. intros x Hx%first_of_sub%Hsub Hat.
  assert (x ∈ at_address a (a x) cur) as H by (unfold at_address; by apply list_elem_of_filter). rewrite Hat in H. set_solver.
Qed.
Lemma elem_of_delete_ne {A} (l : list A) i j x : l !! j = Some x → i ≠ j → x ∈ delete i l.
Proof.
  intros Hj Hne. rewrite delete_take_drop. apply elem_of_app. destruct (decide (j < i)%nat).
  - left. apply (list_elem_of_lookup_2 _ j). by rewrite lookup_take_lt.
  - right. apply (list_elem_of_lookup_2 _ (j - S i)). rewrite lookup_drop. rewrite <- Hj. f_equal. lia.
Qed.
Lemma last_of_drop {A} (l : list A) x : x ∈ drop (length l - 1) l → l !! (length l - 1)%nat = Some x.
Proof.
  intros [k Hk]%list_elem_of_lookup_1. rewrite lookup_drop in Hk. pose proof (lookup_lt_Some _ _ _ Hk). rewrite <- Hk.
  f_equal. lia.
Qed.

(** Removing a host of a cluster works for the last host of the list only.
    The list is shortened in place while the cluster, and its host set, still
    hold the array: for any other host the last one ends up in the list twice,
    the update sees no difference, and neither the members nor the health
    checker learn that the host is gone. *)
Theorem RemoveClusterHosts_in_place s i p : updated s → members s !! i = Some p →
  ∃ s', cluster_RemoveClusterHosts grow (AddressString (objs s) p) s = Ret (tt, s') ∧
    if bool_decide (S i = length (members s)) then
      members s' = take i (members s) ∧
      notices s' = (notices s ++ MemberUpdate 0 [] [p] :: if checker s then [OnClusterMemberUpdate [] [p]] else [])%list
    else members s' = (delete i (members s) ++ drop (length (members s) - 1) (members s))%list ∧
      hostSets s' = hostSets s ∧ notices s' = notices s.
Proof.
  intros [Hw Hnd Hsets] Hi. pose proof (lookup_lt_Some _ _ _ Hi) as Hlt.
  pose proof (address_at_distinct (objs s) (members s) 0 i p Hnd Hi) as Hat.
  destruct (remove_at grow (harr s) (sc_hosts s) i) as [h' sl'] eqn:E.
  destruct (remove_shifts s i h' sl' Hw Hlt E) as (H1 & H2 & H3 & H4 & H5).
  destruct (wf_with_harr s h' Hw H1 H2) as [Hw1 _].
  destruct (UpdateHosts_run (delete i (members s)) (set_harr h' s) Hw1) as (s' & Eu & Hsh & Hw' & _ & Hs').
  change (members (set_harr h' s)) with (elems h' (sc_hosts s)) in Hs'. rewrite H5 in Hs'. cbn [objs set_harr] in Hs'.
  set (a := AddressString (objs s)) in *. set (l := members s) in *.
  exists s'. split.
  { unfold cluster_RemoveClusterHosts. eapply sg_run; [reflexivity|]. change (elems (harr s) (sc_hosts s)) with l.
    rewrite Hat. cbn [Nat.add].
    eapply sg_run; [unfold on_harr; rewrite E; reflexivity|]. eapply sg_run; [reflexivity|]. cbn [harr set_harr]. by rewrite H4. }
  assert (ref_added a (delete i l) (shifted i l) = []) as Hadd by (apply no_additions; intros x Hx; apply elem_of_app; by left).
  rewrite Hadd in Hs'. destruct (decide (S i = length l)) as [Hlast|Hlast];
    [rewrite (bool_decide_true (S i = length l)) by done|rewrite (bool_decide_false (S i = length l)) by done].
  - assert (shifted i l = l) as Hsl.
    { unfold shifted. replace (length l - 1)%nat with i by lia. rewrite delete_take_drop, (drop_ge l (S i)) by lia.
      by rewrite app_nil_r, take_drop. }
    assert (delete i l = take i l) as Hdel by (by rewrite delete_take_drop, (drop_ge l (S i)), app_nil_r by lia).
    rewrite Hsl, Hdel in Hs'.
    assert (l = (take i l ++ [p])%list) as Hlp by (rewrite <- take_S_r by done; by rewrite take_ge by lia).
    assert (ref_removed a (take i l) l = [p]) as Hrem.
    { assert (∀ k, k = (take i l ++ [p])%list → ref_removed a (take i l) k = [p]) as H; [intros k ->|by apply H].
      unfold ref_removed. rewrite filter_app, filter_none_of.
      - cbn [app]. rewrite filter_cons_True; [done|]. unfold member_addresses in Hnd. fold a l in Hnd. rewrite Hlp, fmap_app in Hnd.
        apply NoDup_app in Hnd as (_ & Hd & _). intros Hin. by apply (Hd _ Hin), list_elem_of_singleton.
      - intros x Hx Hn. apply Hn. by apply list_elem_of_fmap_2. }
    rewrite Hrem in Hs'. rewrite bool_decide_true in Hs' by (right; done). destruct Hs' as (Hm & _ & Hn). split; [|exact Hn].
    rewrite Hm. unfold ref_final. unfold member_addresses in Hnd. fold a l in Hnd.
    rewrite first_of_self; [|eapply sublist_NoDup; [exact Hnd|apply fmap_sublist, sublist_take]|set_solver].
    rewrite <- (list_bind_singleton (take i l)) at 2. apply Forall_bind_ext, Forall_forall. intros x Hx.
    apply kept_self; [done|]. rewrite Hlp. apply elem_of_app. by left.
  - assert (ref_removed a (delete i l) (shifted i l) = []) as Hrem.
    { apply filter_none_of. intros x Hx Hn. apply Hn. apply list_elem_of_fmap_2. apply elem_of_app in Hx as [Hx|Hx]; [done|].
      apply last_of_drop in Hx. eapply elem_of_delete_ne; [exact Hx|lia]. }
    rewrite Hrem in Hs'. rewrite bool_decide_false in Hs' by naive_solver. destruct Hs' as (Hm & Hsc & Hset & Hn).
    split_and!; [|done..]. unfold members. rewrite Hm, Hsc. done.
Qed.

Lemma find_member s p : updated s → p ∈ members s →
  find_set s p 0 (hostSets s) = Some (0%nat, mk_hset (sc_hosts s) (sc_hosts s) nil_slice nil_slice).
Proof.
  intros [_ _ ->] Hp. cbn [find_set]. unfold has_host. cbn [h_hosts]. fold (members s).
  assert (existsb (λ h, bool_decide (AddressString (objs s) h = AddressString (objs s) p)) (members s) = true) as ->; [|done].
  apply existsb_exists. exists p. split; [by apply list_elem_of_In|by apply bool_decide_true].
Qed.

(** A host that fails is taken out of the healthy hosts: the first one that
    has its name is.  That is done in place, in the array the cluster's list and
    the hosts of its host set share, so these lose the host as well and have
    their last one twice. *)
Theorem failed_host_in_place s p k : updated s → p ∈ members s → ho_Health (objs s) p = false →
  named_at (objs s) p 0 (members s) = Some k →
  ∃ s' healthy, refreshHealthHosts grow p s = Ret (tt, s') ∧
    hostSets s' = [mk_hset (sc_hosts s') healthy nil_slice nil_slice] ∧
    elems (harr s') healthy = delete k (members s) ∧
    members s' = (delete k (members s) ++ drop (length (members s) - 1) (members s))%list ∧
    notices s' = (notices s ++ [MemberUpdate 0 [] []])%list.
Proof.
  intros Hup Hp Hh Hk. pose proof Hup as [Hw Hnd Hsets]. pose proof (named_at_bound _ _ _ _ _ Hk) as [_ Hlt]. cbn in Hlt.
  destruct (remove_at grow (harr s) (sc_hosts s) k) as [h' sl'] eqn:E.
  destruct (remove_shifts s k h' sl' Hw Hlt E) as (_ & _ & _ & H4 & H5).
  eexists _, sl'. split.
  { unfold refreshHealthHosts. eapply sg_run; [reflexivity|]. rewrite Hh. unfold delHealthHost.
    eapply sg_run; [reflexivity|]. rewrite (find_member s p Hup Hp).
    eapply sg_run; [unfold remove_named; do 2 (eapply sg_run; [reflexivity|]); cbn [h_healthyHosts]; fold (members s); rewrite Hk;
      unfold on_harr; rewrite E; reflexivity|].
    cbn [h_healthyHostsPerLocality sl_len nil_slice remove_localities]. eapply sg_run; [reflexivity|].
    unfold hs_UpdateHosts. eapply sg_run; [reflexivity|]. reflexivity. }
  cbn. rewrite Hsets. split_and!; [done|exact H4|exact H5|done].
Qed.

(** ** Localities: nobody fills them *)

Definition flat : list hset → Prop :=
  Forall (λ hs, sl_len (h_hostsPerLocality hs) = 0%nat ∧ sl_len (h_healthyHostsPerLocality hs) = 0%nat).
Definition no_localities (s : cstate) : Prop := flat (hostSets s).

(** Computations that leave the host sets alone. *)
Abbreviation same_sets m := (∀ H, keeps (λ s, H (hostSets s)) m).
Lemma ss_cs {A} (f : cstate → A) : same_sets (cs f).
Proof. by intros H s a s' Hs [= <- <-]. Qed.
Lemma ss_harr {A} (f : heap nat → heap nat * A) : same_sets (on_harr f).
Proof. intros H s a s' Hs E. unfold on_harr in E. destruct (f (harr s)). by injection E as <- <-. Qed.
Lemma ss_larr {A} (f : heap hslice → heap hslice * A) : same_sets (on_larr f).
Proof. intros H s a s' Hs E. unfold on_larr in E. destruct (f (larr s)). by injection E as <- <-. Qed.
Lemma ss_set_larr la : same_sets (mod_cs (set_larr la)).
Proof. by intros H s a s' Hs [= <- <-]. Qed.
Lemma ss_set_objs o : same_sets (mod_cs (set_objs o)).
Proof. by intros H s a s' Hs [= <- <-]. Qed.
Lemma ss_set_hosts sl : same_sets (mod_cs (set_sc_hosts sl)).
Proof. by intros H s a s' Hs [= <- <-]. Qed.
Lemma ss_notify n : same_sets (notify n).
Proof. by intros H s a s' Hs [= <- <-]. Qed.
Hint Resolve ss_cs ss_harr ss_larr ss_set_larr ss_set_objs ss_set_hosts ss_notify : keeps.
Hint Extern 1 (keeps _ (if ?b then _ else _)) => destruct b : keeps.
Hint Extern 1 (keeps _ (match ?x with _ => _ end)) => destruct x : keeps.

Lemma ss_remove_named q sl : same_sets (remove_named grow q sl).
Proof. intros H. unfold remove_named. auto with keeps. Qed.
Lemma ss_getHealthHost sl : same_sets (getHealthHost grow sl).
Proof. intros H. unfold getHealthHost. auto with keeps. Qed.
Hint Resolve ss_remove_named ss_getHealthHost : keeps.
Lemma ss_remove_localities q outer i n : same_sets (remove_localities grow q outer i n).
Proof. intros H. revert i. induction n as [|n IH]; intros i; cbn [remove_localities]; auto 20 with keeps. Qed.
Lemma ss_health_localities hhpl r hi i n : same_sets (health_localities grow hhpl r hi i n).
Proof. intros H. revert hi i. induction n as [|n IH]; intros hi i; cbn [health_localities]; auto 20 with keeps. Qed.
Hint Resolve ss_remove_localities ss_health_localities : keeps.

Lemma nl_UpdateHosts i h hh pl hpl added removed : sl_len pl = 0%nat → sl_len hpl = 0%nat →
  keeps no_localities (hs_UpdateHosts i h hh pl hpl added removed).
Proof. intros H1 H2 s [] s' Hs [= <-]. unfold no_localities. cbn. by apply Forall_insert. Qed.

Lemma addHealthyHost_panics p s x : no_localities s → find_set s p 0 (hostSets s) = Some x →
  addHealthyHost grow p s = Panic SliceBounds.
Proof.
  intros Hn Hf. destruct x as [i hs]. pose proof Hf as Hf'. apply find_set_spec in Hf' as [_ Hs].
  destruct (Forall_lookup_1 _ _ _ _ Hn Hs) as [_ Hz]. unfold addHealthyHost. unfold mbind, SG_bind, sg_get. rewrite Hf.
  unfold on_harr. destruct (append _ _ _ _). unfold sg_lift, go_assert. by rewrite bool_decide_false by lia.
Qed.

Lemma nl_refresh p : keeps no_localities (refreshHealthHosts grow p).
Proof.
  intros s [] s' Hn E. unfold refreshHealthHosts in E. apply sg_bind_Ret_inv in E as (? & ? & [= <- <-] & E).
  destruct (ho_Health (objs s) p).
  - destruct (find_set s p 0 (hostSets s)) as [x|] eqn:Hf; [by rewrite (addHealthyHost_panics p s x) in E|].
    unfold addHealthyHost in E. apply sg_bind_Ret_inv in E as (? & ? & [= <- <-] & E). rewrite Hf in E. by injection E as <-.
  - unfold delHealthHost in E. apply sg_bind_Ret_inv in E as (? & ? & [= <- <-] & E).
    destruct (find_set s p 0 (hostSets s)) as [[i hs]|] eqn:Hf; [|by injection E as <-].
    apply find_set_spec in Hf as [_ Hs]. destruct (Forall_lookup_1 _ _ _ _ Hn Hs) as [H1 H2].
    apply sg_bind_Ret_inv in E as (nh & s1 & E1 & E). apply sg_bind_Ret_inv in E as ([] & s2 & E2 & E).
    apply (ss_remove_named p (h_healthyHosts hs) flat) in E1; [|exact Hn].
    apply (ss_remove_localities p _ _ _ flat) in E2; [|exact E1]. by eapply nl_UpdateHosts; [| |exact E2|exact E].
Qed.

Lemma nl_refresh_sets i n : keeps no_localities (refresh_sets grow i n).
Proof.
  revert i. induction n as [|n IH]; intros i s [] s' Hn E; cbn [refresh_sets] in E; [by injection E as <-|].
  apply sg_bind_Ret_inv in E as (? & ? & [= <- <-] & E). destruct (hostSets s !! i) as [hs|] eqn:Hs; [|done].
  apply sg_bind_Ret_inv in E as (? & ? & [= <- <-] & E). destruct (Forall_lookup_1 _ _ _ _ Hn Hs) as [H1 H2].
  apply sg_bind_Ret_inv in E as (hh & s1 & E1 & E). apply (ss_getHealthHost (h_hosts hs) flat) in E1; [|exact Hn].
  apply sg_bind_Ret_inv in E as (hl & s2 & E2 & E). unfold getHealthHostsPerLocality in E2.
  apply sg_bind_Ret_inv in E2 as (r & s3 & E3 & E2). apply sg_bind_Ret_inv in E2 as ([] & s4 & E4 & [= <- <-]).
  rewrite H1 in E3. unfold on_larr, alloc in E3. injection E3 as <- <-.
  apply (ss_health_localities _ _ _ _ _ flat) in E4; [|exact E1].
  apply sg_bind_Ret_inv in E as ([] & s5 & E5 & E). eapply IH; [|exact E].
  eapply nl_UpdateHosts; [exact H1| |exact E4|exact E5]. done.
Qed.

Lemma nl_cluster_UpdateHosts new : keeps no_localities (UpdateHosts grow new).
Proof.
  unfold UpdateHosts. apply keeps_bind; [apply (ss_cs _ flat)|]. intros cur.
  apply keeps_bind; [apply (ss_cs _ flat)|]. intros o.
  destruct (updateDynamicHostList o new cur) as [o' [[[ch final] added] removed]].
  apply keeps_bind; [apply (ss_set_objs _ flat)|]. intros _. destruct ch; [|apply keeps_ret].
  apply keeps_bind; [apply (ss_harr _ flat)|]. intros sl. apply keeps_bind; [apply (ss_set_hosts _ flat)|]. intros _.
  apply keeps_bind; [by apply nl_UpdateHosts|]. intros _. apply keeps_bind; [apply (ss_cs _ flat)|]. intros hc.
  apply keeps_when, (ss_notify _ flat).
Qed.

Lemma nl_run_op op : keeps no_localities (run_op grow op).
Proof.
  destruct op as [hosts|a|p f|p f|p|]; cbn [run_op].
  - unfold cluster_UpdateClusterHosts. apply keeps_bind; [|apply nl_cluster_UpdateHosts].
    induction hosts as [|c l IH]; cbn [new_hosts]; [apply keeps_ret|]. apply keeps_bind; [|intros p; apply keeps_bind; [exact IH|intros; apply keeps_ret]].
    unfold NewHost. apply keeps_bind; [apply (ss_cs _ flat)|]. intros o. apply keeps_bind; [apply (ss_set_objs _ flat)|].
    intros _. apply keeps_ret.
  - unfold cluster_RemoveClusterHosts. apply keeps_bind; [apply keeps_get|]. intros s. destruct (address_at _ _ _ _); [|apply keeps_ret].
    apply keeps_bind; [apply (ss_harr _ flat)|]. intros cc. apply keeps_bind; [apply (ss_cs _ flat)|]. intros l.
    apply nl_cluster_UpdateHosts.
  - by intros s a s' Hs [= <- <-].
  - by intros s a s' Hs [= <- <-].
  - apply nl_refresh.
  - unfold refreshHealthHostsGlobal. apply keeps_bind; [apply (ss_cs _ flat)|]. intros n. apply nl_refresh_sets.
Qed.

(** A host that recovers brings the process down: whatever happened to a
    cluster, adding a host of its host sets back to the healthy ones panics, for
    it goes to the last of the localities, and there are none. *)
Theorem recovered_host_panics hc l s p x : run_ops grow l (new_cluster hc) = Ret (tt, s) →
  find_set s p 0 (hostSets s) = Some x → ho_Health (objs s) p = true →
  run_op grow (OpRefresh p) s = Panic SliceBounds.
Proof.
  intros E Hf Hh.
  assert (keeps no_localities (run_ops grow l)) as Hk.
  { clear. induction l as [|op l IH]; cbn; [apply keeps_ret|]. apply keeps_bind; [apply nl_run_op|done]. }
  assert (no_localities s) as Hn by (eapply Hk; [|exact E]; by apply Forall_singleton).
  cbn [run_op]. unfold refreshHealthHosts. eapply sg_run; [reflexivity|]. rewrite Hh. by eapply addHealthyHost_panics.
Qed.
End updates.

(** ** A cluster of three hosts *)

Definition three_hosts : list Host_config :=
  [mk_hc "10.0.0.1:80" "a" 1 ∅; mk_hc "10.0.0.2:80" "b" 1 ∅; mk_hc "10.0.0.3:80" "c" 1 ∅].
Definition three_cluster : cstate :=
  match cluster_UpdateClusterHosts id three_hosts (new_cluster true) with Ret (_, s) => s | Panic _ => new_cluster true end.

Lemma three_updated : updated three_cluster.
Proof.
  split; [|by apply (bool_decide_unpack _); vm_compute|by vm_compute].
  apply (run_ops_wf id [OpUpdate three_hosts] (new_cluster true)); [apply new_cluster_wf|by vm_compute].
Qed.


Lemma UpdateHosts_correct_witness :
  ∃ s', UpdateHosts id [1%nat; 2%nat] three_cluster = Ret (tt, s') ∧ (∀ x, x ∈ member_addresses s' ↔ x ∈ AddressString (objs three_cluster) <$> [1%nat; 2%nat]).
Proof.
  destruct (UpdateHosts_correct id [1%nat; 2%nat] three_cluster) as (s' & E & _ & _ & H & _);
    [apply three_updated..|by exists s'].
Defined.

Lemma RemoveClusterHosts_in_place_witness :
  ∃ s', cluster_RemoveClusterHosts id "10.0.0.1:80" three_cluster = Ret (tt, s') ∧
    if bool_decide (1%nat = length (members three_cluster)) then
      members s' = take 0 (members three_cluster) ∧
      notices s' = (notices three_cluster ++ MemberUpdate 0 [] [0%nat] ::
        if checker three_cluster then [OnClusterMemberUpdate [] [0%nat]] else [])%list
    else members s' = (delete 0%nat (members three_cluster) ++ drop (length (members three_cluster) - 1) (members three_cluster))%list ∧
      hostSets s' = hostSets three_cluster ∧ notices s' = notices three_cluster.
Proof. apply (RemoveClusterHosts_in_place id three_cluster 0 0); [apply three_updated|by vm_compute]. Defined.

(** The first host has failed. *)
Definition failing_cluster : cstate := set_objs (ho_SetHealthFlag (objs three_cluster) 0 FAILED_ACTIVE_HC) three_cluster.

Lemma failing_updated : updated failing_cluster.
Proof.
  split; [|by apply (bool_decide_unpack _); vm_compute|by vm_compute].
  apply (run_ops_wf id [OpUpdate three_hosts; OpSetFlag 0 FAILED_ACTIVE_HC] (new_cluster true)); [apply new_cluster_wf|by vm_compute].
Qed.

Lemma failed_host_in_place_witness :
  ∃ s' healthy, refreshHealthHosts id 0 failing_cluster = Ret (tt, s') ∧
    hostSets s' = [mk_hset (sc_hosts s') healthy nil_slice nil_slice] ∧
    elems (harr s') healthy = delete 0%nat (members failing_cluster) ∧
    members s' = (delete 0%nat (members failing_cluster) ++ drop (length (members failing_cluster) - 1) (members failing_cluster))%list ∧
    notices s' = (notices failing_cluster ++ [MemberUpdate 0 [] []])%list.
Proof.
  apply (failed_host_in_place id failing_cluster 0 0); [apply failing_updated|apply (bool_decide_unpack _)|..]; by vm_compute.
Defined.

Lemma recovered_host_panics_witness : run_op id (OpRefresh 1) three_cluster = Panic SliceBounds.
Proof.
  apply (recovered_host_panics id true [OpUpdate three_hosts] three_cluster 1
    (0%nat, mk_hset (sc_hosts three_cluster) (sc_hosts three_cluster) nil_slice nil_slice)); by vm_compute.
Defined.
