(* ===== verification/ClusterManager.v ===== *)
(** * The cluster manager: pkg/upstream/cluster

    The registry of clusters and the connection pools of clustermanager.go, the
    adapter through which they are changed (clusteradapter.go) and the creation
    of clusters (cluster.go).

    A cluster is the hosts of [ClusterHosts] and a load balancer; balancers are
    an interface, [Balancer].  A pool is known by the host it was made for and
    by that host's cluster. *)

From S2P Require Import Prelude Cluster StateGo ClusterHosts.

Local Open Scope Z_scope.

(** ** Load balancers *)

(** What a cluster asks of its balancer: one is made for the host sets, told
    when members change, and asked for a host; [ctx] is the load balancer
    context of a request or nil, [r1] and [r2] are the random numbers drawn. *)
Class Balancer (L Ctx : Type) := {
  lb_new : LoadBalancerType → flags → prioritySet → Go L;
  lb_update : flags → prioritySet → nat → list host → list host → L → Go L;
  lb_choose : prioritySet → option Ctx → nat → nat → L → Go (L * option host);
}.

(** What the manager relies on. *)
Class BalancerLaws (L Ctx : Type) `{!Balancer L Ctx} := {
  lb_new_ok ty fl ps : ∃ l, lb_new ty fl ps = Ret l;
  lb_update_ok fl ps i added removed l : ∃ l', lb_update fl ps i added removed l = Ret l';
  lb_choose_healthy ps c r1 r2 l l' h :
    lb_choose ps c r1 r2 l = Ret (l', Some h) → ∃ hs, hs ∈ ps ∧ h ∈ hs_healthy hs;
}.

(** The balancers of loadbalancer.go ignore updates and contexts. *)
#[export] Instance common_balancer Ctx : Balancer LoadBalancer Ctx := {
  lb_new ty _ _ := Ret (NewLoadBalancer ty);
  lb_update _ _ _ _ _ l := Ret l;
  lb_choose ps _ r1 r2 l := LB_ChooseHost l ps r1 r2;
}.

(** ** Configuration *)

Inductive ClusterType := STATIC_CLUSTER | SIMPLE_CLUSTER | DYNAMIC_CLUSTER | EDS_CLUSTER | OtherClusterType.
#[export] Instance ClusterType_eq_dec : EqDecision ClusterType.
Proof. solve_decision. Defined.
Inductive LbType := LB_RANDOM | LB_ROUNDROBIN | OtherLbType.


(** The protocol of the health check: none, or one the factory of
    healthcheck/factory.go makes a checker for, or another. *)
Inductive hc_protocol := HcNone | HcSofaRPC | HcHTTP2 | HcUnknown.
Record v2_Cluster := mk_v2 { cl_Name : string; cl_ClusterType : ClusterType; cl_LbType : LbType; cl_HealthCheck : hc_protocol }.

(** ** The state *)

Record pool := mk_pool { pool_cluster : string; pool_host : host }.
#[export] Instance pool_eq_dec : EqDecision pool.
Proof. solve_decision. Defined.

Inductive Protocol := SofaRPC | HTTP1 | HTTP2 | Xprotocol.
#[export] Instance Protocol_eq_dec : EqDecision Protocol.
Proof. solve_decision. Defined.

Section manager.
  Context {L Ctx : Type} `{!Balancer L Ctx} (grow : nat → nat).

Record primaryCluster := mk_pc { pc_cluster : cstate; pc_lb : L; pc_addedViaAPI : bool }.

Record clusterManager := mk_cm {
  primaryClusters : gmap string primaryCluster;
  sofaRPCConnPool : gmap string pool; http2ConnPool : gmap string pool;
  xProtocolConnPool : gmap string pool; http1ConnPool : gmap string pool;
  registryUseHealthCheck : bool;
}.

Abbreviation M := (SG clusterManager).

Definition set_clusters (v : gmap string primaryCluster) (m : clusterManager) : clusterManager :=
  mk_cm v (sofaRPCConnPool m) (http2ConnPool m) (xProtocolConnPool m) (http1ConnPool m) (registryUseHealthCheck m).
Definition pools_of (p : Protocol) (m : clusterManager) : gmap string pool :=
  match p with
  | SofaRPC => sofaRPCConnPool m | HTTP2 => http2ConnPool m | Xprotocol => xProtocolConnPool m | HTTP1 => http1ConnPool m
  end.
Definition set_pools (p : Protocol) (v : gmap string pool) (m : clusterManager) : clusterManager :=
  match p with
  | SofaRPC => mk_cm (primaryClusters m) v (http2ConnPool m) (xProtocolConnPool m) (http1ConnPool m) (registryUseHealthCheck m)
  | HTTP2 => mk_cm (primaryClusters m) (sofaRPCConnPool m) v (xProtocolConnPool m) (http1ConnPool m) (registryUseHealthCheck m)
  | Xprotocol => mk_cm (primaryClusters m) (sofaRPCConnPool m) (http2ConnPool m) v (http1ConnPool m) (registryUseHealthCheck m)
  | HTTP1 => mk_cm (primaryClusters m) (sofaRPCConnPool m) (http2ConnPool m) (xProtocolConnPool m) v (registryUseHealthCheck m)
  end.

Definition cm {A} (f : clusterManager → A) : M A := λ s, Ret (f s, s).
Definition mod_cm (f : clusterManager → clusterManager) : M unit := sg_modify f.

(** ** What the balancer sees of a cluster *)

Definition host_of (o : gmap nat hostObj) (p : nat) : host := ho_info (o !!! p).
Definition set_view (s : cstate) (hs : hset) : hostSet :=
  mk_hs (host_of (objs s) <$> elems (harr s) (h_hosts hs)) (host_of (objs s) <$> elems (harr s) (h_healthyHosts hs)).
Definition sets_view (s : cstate) : prioritySet := set_view s <$> hostSets s.
Definition flags_view (s : cstate) : flags :=
  foldr (λ p fl, <[AddressString (objs s) p := ho_flags (objs s !!! p)]> fl) ∅
    (hostSets s ≫= λ hs, elems (harr s) (h_hosts hs)).

(** The callbacks of the members' changes. *)
Fixpoint deliver_notices (s : cstate) (l : list notice) (lb : L) : Go L :=
  match l with
  | [] => Ret lb
  | MemberUpdate i added removed :: l =>
    lb ← lb_update (flags_view s) (sets_view s) i (host_of (objs s) <$> added) (host_of (objs s) <$> removed) lb;
    deliver_notices s l lb
  | OnClusterMemberUpdate _ _ :: l => deliver_notices s l lb
  end.

(** Run an operation of a cluster, and the callbacks it leads to. *)
Definition on_cluster (pc : primaryCluster) (m : SG cstate unit) : Go primaryCluster :=
  let before := length (notices (pc_cluster pc)) in
  '(_, s) ← m (pc_cluster pc);
  lb ← deliver_notices s (drop before (notices s)) (pc_lb pc);
  Ret (mk_pc s lb (pc_addedViaAPI pc)).

(** ** Creating clusters *)

Definition lb_type (t : LbType) : LoadBalancerType :=
  match t with LB_RANDOM => Random | LB_ROUNDROBIN => RoundRobin | OtherLbType => OtherType end.

Definition newCluster (c : v2_Cluster) : Go (cstate * L) :=
  let s := new_cluster false in
  lb ← lb_new (lb_type (cl_LbType c)) (flags_view s) (sets_view s);
  Ret (s, lb).

(** The factory returns nil for a protocol it does not know, and [SetHealthChecker]
    calls it. *)
Definition NewCluster (c : v2_Cluster) : Go (option (cstate * L)) :=
  match cl_ClusterType c with
  | SIMPLE_CLUSTER | DYNAMIC_CLUSTER | EDS_CLUSTER =>
    '(s, lb) ← newCluster c;
    match cl_HealthCheck c with
    | HcNone => Ret (Some (s, lb))
    | HcSofaRPC | HcHTTP2 => Ret (Some (set_checker true s, lb))
    | HcUnknown => Panic NilDeref
    end
  | _ => Ret None
  end.

Definition loadCluster (c : v2_Cluster) (addedViaAPI : bool) : M bool :=
  o ← sg_lift (NewCluster c);
  match o with
  | None => mret false
  | Some (s, lb) =>
    _ ← mod_cm (λ m, set_clusters (<[cl_Name c := mk_pc s lb addedViaAPI]> (primaryClusters m)) m);
    mret true
  end.

Definition AddOrUpdatePrimaryCluster (c : v2_Cluster) : M bool :=
  cs ← cm primaryClusters;
  if match cs !! cl_Name c with Some pc => negb (pc_addedViaAPI pc) | None => false end then mret false
  else loadCluster c true.

Definition ClusterExist (name : string) : M bool := cm (λ m, bool_decide (is_Some (primaryClusters m !! name))).

(** ** Hosts; an error is its message *)

Definition UpdateClusterHosts (name : string) (hostConfigs : list Host_config) : M (option string) :=
  cs ← cm primaryClusters;
  match cs !! name with
  | Some pc =>
    pc ← sg_lift (on_cluster pc (cluster_UpdateClusterHosts grow hostConfigs));
    _ ← mod_cm (λ m, set_clusters (<[name := pc]> (primaryClusters m)) m);
    mret None
  | None => mret (Some ("cluster " ++ name ++ " not found")%string)
  end.

(** The host to remove, by its address. *)
Definition RemoveClusterHosts (name : string) (addr : option string) : M (option string) :=
  match addr with
  | None => mret (Some "host is nil"%string)
  | Some addr =>
    cs ← cm primaryClusters;
    match cs !! name with
    | Some pc =>
      pc ← sg_lift (on_cluster pc (cluster_RemoveClusterHosts grow addr));
      _ ← mod_cm (λ m, set_clusters (<[name := pc]> (primaryClusters m)) m);
      mret None
    | None => mret None
    end
  end.

Definition RemovePrimaryCluster (name : string) : M bool :=
  cs ← cm primaryClusters;
  match cs !! name with
  | Some pc =>
    if negb (pc_addedViaAPI pc) then mret false
    else _ ← mod_cm (λ m, set_clusters (delete name (primaryClusters m)) m); mret true
  | None => mret true
  end.

(** ** Pools *)

(** [getOrCreateClusterSnapshot] and the choice of a host. *)
Definition choose_host (name : string) (ctx : option Ctx) (r1 r2 : nat) : M (option host) :=
  cs ← cm primaryClusters;
  match cs !! name with
  | None => mret None
  | Some pc =>
    '(lb, h) ← sg_lift (lb_choose (sets_view (pc_cluster pc)) ctx r1 r2 (pc_lb pc));
    _ ← mod_cm (λ m, set_clusters (<[name := mk_pc (pc_cluster pc) lb (pc_addedViaAPI pc)]> (primaryClusters m)) m);
    mret h
  end.

(** The pool of the host's address, made when there is none. *)
Definition pool_for (p : Protocol) (name : string) (h : host) : M pool :=
  pools ← cm (pools_of p);
  match pools !! h_address h with
  | Some pool => mret pool
  | None =>
    let pool := mk_pool name h in
    _ ← mod_cm (set_pools p (<[h_address h := pool]> pools));
    mret pool
  end.

Definition SofaRPCConnPoolForCluster (ctx : option Ctx) (name : string) (r1 r2 : nat) : M (option pool) :=
  h ← choose_host name ctx r1 r2;
  match h with Some h => p ← pool_for SofaRPC name h; mret (Some p) | None => mret None end.

Definition HTTPConnPoolForCluster (ctx : option Ctx) (name : string) (protocol : Protocol) (r1 r2 : nat) : M (option pool) :=
  h ← choose_host name ctx r1 r2;
  match h with
  | Some h =>
    match protocol with
    | HTTP2 | HTTP1 => p ← pool_for protocol name h; mret (Some p)
    | _ => mret None
    end
  | None => mret None
  end.

(** The context is not passed on. *)
Definition XprotocolConnPoolForCluster (ctx : option Ctx) (name : string) (r1 r2 : nat) : M (option pool) :=
  h ← choose_host name None r1 r2;
  match h with Some h => p ← pool_for Xprotocol name h; mret (Some p) | None => mret None end.

(** The host a connection is made to. *)
Definition TCPConnForCluster (ctx : option Ctx) (name : string) (r1 r2 : nat) : M (option host) := choose_host name ctx r1 r2.

(** ** The adapter (clusteradapter.go) *)

Definition TriggerClusterAddedOrUpdate (c : v2_Cluster) : M (option string) :=
  exist_ ← ClusterExist (cl_Name c);
  if exist_ : bool then mret None
  else
  hc ← cm registryUseHealthCheck;
  let c := if hc : bool then mk_v2 (cl_Name c) (cl_ClusterType c) (cl_LbType c) HcSofaRPC else c in
  ok ← AddOrUpdatePrimaryCluster c;
  mret (if ok : bool then None
        else Some ("TriggerClusterAdded: AddOrUpdatePrimaryCluster failure, cluster name = " ++ cl_Name c)%string).

Definition TriggerClusterHostUpdate (name : string) (hosts : list Host_config) : M (option string) :=
  UpdateClusterHosts name hosts.

Definition TriggerClusterAndHostsAddedOrUpdate (c : v2_Cluster) (hosts : list Host_config) : M (option string) :=
  err ← TriggerClusterAddedOrUpdate c;
  match err with Some e => mret (Some e) | None => UpdateClusterHosts (cl_Name c) hosts end.

Definition TriggerClusterDel (name : string) : M unit := _ ← RemovePrimaryCluster name; mret tt.

(** ** Starting up; the map of hosts is ranged over in some order *)

Definition empty_manager : clusterManager := mk_cm ∅ ∅ ∅ ∅ ∅ false.

Fixpoint add_clusters (l : list v2_Cluster) : M unit :=
  match l with [] => mret tt | c :: l => _ ← AddOrUpdatePrimaryCluster c; add_clusters l end.
Fixpoint add_cluster_hosts (l : list (string * list Host_config)) : M unit :=
  match l with [] => mret tt | (name, hosts) :: l => _ ← UpdateClusterHosts name hosts; add_cluster_hosts l end.
Definition NewClusterManager (clusters : list v2_Cluster) (clusterMap : list (string * list Host_config)) : Go clusterManager :=
  '(_, m) ← (_ ← add_clusters clusters; add_cluster_hosts clusterMap) empty_manager;
  Ret m.
End manager.
Arguments primaryCluster L : clear implicits.
Arguments clusterManager L : clear implicits.
