(* ===== verification/ClusterManagerProps.v ===== *)
(** * Properties of the cluster manager

    The manager implements a map from cluster names to sets of addresses, and
    hands out one connection pool per address. *)

From S2P Require Import Prelude Cluster ClusterProps StateGo ClusterHosts ClusterHostsProps ClusterManager.

Local Open Scope Z_scope.

#[export] Instance common_laws Ctx : BalancerLaws LoadBalancer Ctx.
Proof.
  split; [by eexists|by eexists|]. intros ps c r1 r2 l l' h E. by apply LB_ChooseHost_healthy in E.
Qed.

(** ** The abstract registry *)

Definition registry := gmap string (gset string).

Inductive mop :=
  | MAdd (c : v2_Cluster) | MHosts (name : string) (hosts : list Host_config) | MDel (name : string)
  | MTrigger (c : v2_Cluster) | MTriggerHosts (c : v2_Cluster) (hosts : list Host_config).
Inductive reply := ROk (b : bool) | RErr (e : option string).

Definition supported (c : v2_Cluster) : bool :=
  match cl_ClusterType c with SIMPLE_CLUSTER | DYNAMIC_CLUSTER | EDS_CLUSTER => true | _ => false end.
(** The health check of a cluster, if it has one, is of a known protocol. *)
Definition known_check (c : v2_Cluster) : bool := match cl_HealthCheck c with HcUnknown => false | _ => true end.
(** The clusters that can be made, if they can be made at all. *)
Definition creatable (c : v2_Cluster) : bool := negb (supported c) || known_check c.
Lemma known_creatable c : known_check c = true → creatable c = true.
Proof. unfold creatable. intros ->. apply orb_true_r. Qed.
Definition spec_add (c : v2_Cluster) (r : registry) : bool * registry :=
  if supported c then (true, <[cl_Name c := ∅]> r) else (false, r).
Definition spec_hosts (name : string) (hosts : list Host_config) (r : registry) : option string * registry :=
  match r !! name with
  | Some _ => (None, <[name := list_to_set (hc_Address <$> hosts)]> r)
  | None => (Some ("cluster " ++ name ++ " not found")%string, r)
  end.
Definition spec_trigger (c : v2_Cluster) (r : registry) : option string * registry :=
  match r !! cl_Name c with
  | Some _ => (None, r)
  | None =>
    let '(ok, r) := spec_add c r in
    (if ok then None else Some ("TriggerClusterAdded: AddOrUpdatePrimaryCluster failure, cluster name = " ++ cl_Name c)%string, r)
  end.
Definition spec_op (op : mop) (r : registry) : reply * registry :=
  match op with
  | MAdd c => let '(b, r) := spec_add c r in (ROk b, r)
  | MHosts n l => let '(e, r) := spec_hosts n l r in (RErr e, r)
  | MDel n => (ROk true, delete n r)
  | MTrigger c => let '(e, r) := spec_trigger c r in (RErr e, r)
  | MTriggerHosts c l =>
    let '(e, r) := spec_trigger c r in
    match e with Some e => (RErr (Some e), r) | None => let '(e, r) := spec_hosts (cl_Name c) l r in (RErr e, r) end
  end.

(** The cluster that an operation makes, if it makes one, can be made. *)
Definition makes_known (op : mop) (r : registry) : bool :=
  match op with
  | MAdd c => creatable c
  | MTrigger c | MTriggerHosts c _ => bool_decide (is_Some (r !! cl_Name c)) || creatable c
  | MHosts _ _ | MDel _ => true
  end.
(** The replies and the registry after some operations, or none when one of
    them makes a cluster with a health check of an unknown protocol. *)
Fixpoint spec_ops (l : list mop) (r : registry) : option (list reply * registry) :=
  match l with
  | [] => Some ([], r)
  | op :: l =>
    if makes_known op r then
      let '(a, r) := spec_op op r in
      '(rs, r) ← spec_ops l r; Some (a :: rs, r)
    else None
  end.

Section manager.
  Context {L Ctx : Type} `{!Balancer L Ctx} `{!BalancerLaws L Ctx} (grow : nat → nat).
  Abbreviation M := (SG (clusterManager L)).

Definition run_mop (op : mop) : M reply :=
  match op with
  | MAdd c => b ← AddOrUpdatePrimaryCluster c; mret (ROk b)
  | MHosts n l => e ← UpdateClusterHosts grow n l; mret (RErr e)
  | MDel n => b ← RemovePrimaryCluster n; mret (ROk b)
  | MTrigger c => e ← TriggerClusterAddedOrUpdate c; mret (RErr e)
  | MTriggerHosts c l => e ← TriggerClusterAndHostsAddedOrUpdate grow c l; mret (RErr e)
  end.
Fixpoint run_mops (l : list mop) : M (list reply) :=
  match l with [] => mret [] | op :: l => r ← run_mop op; rs ← run_mops l; mret (r :: rs) end.

(** What a manager promises about its clusters, and the registry it stands for. *)
Definition cluster_ok (pc : primaryCluster L) : Prop := good (pc_cluster pc) ∧ pc_addedViaAPI pc = true.
Definition manager_ok (m : clusterManager L) : Prop := map_Forall (λ _ pc, cluster_ok pc) (primaryClusters m).
Definition addresses_of (pc : primaryCluster L) : gset string := list_to_set (member_addresses (pc_cluster pc)).
Definition abstraction (m : clusterManager L) : registry := addresses_of <$> primaryClusters m.

Lemma deliver_notices_ok s l lb : ∃ lb', deliver_notices (L := L) s l lb = Ret lb'.
Proof.
  revert lb. induction l as [|[i added removed|] l IH]; intros lb; cbn; [by eexists| |apply IH].
  match goal with |- context [lb_update ?a ?b ?c ?d ?e lb] => destruct (lb_update_ok a b c d e lb) as [lb' ->] end.
  apply IH.
Qed.

Lemma abstraction_insert m n pc :
  abstraction (set_clusters (<[n := pc]> (primaryClusters m)) m) = <[n := addresses_of pc]> (abstraction m).
Proof. unfold abstraction. cbn. apply fmap_insert. Qed.

Lemma abstraction_lookup m n : abstraction m !! n = addresses_of <$> primaryClusters m !! n.
Proof. apply lookup_fmap. Qed.

Lemma run_add c m : creatable c = true → manager_ok m → ∃ m', AddOrUpdatePrimaryCluster c m = Ret ((spec_add c (abstraction m)).1, m') ∧
  manager_ok m' ∧ abstraction m' = (spec_add c (abstraction m)).2.
Proof.
  intros Hk Hok. unfold AddOrUpdatePrimaryCluster.
  assert (match primaryClusters m !! cl_Name c with Some pc => negb (pc_addedViaAPI pc) | None => false end = false) as Hvia.
  { destruct (primaryClusters m !! cl_Name c) as [pc|] eqn:Hc; [|done]. by destruct (Hok _ _ Hc) as [_ ->]. }
  assert (supported c = true → ∃ hc lb, NewCluster c = Ret (Some (new_cluster hc, lb : L))) as Hnew.
  { intros Hs. unfold creatable in Hk. rewrite Hs in Hk. cbn in Hk. unfold NewCluster, newCluster.
    destruct (lb_new_ok (lb_type (cl_LbType c)) (flags_view (new_cluster false)) (sets_view (new_cluster false))) as [lb El].
    unfold supported in Hs. destruct (cl_ClusterType c); try done; rewrite El; unfold known_check in Hk;
      destruct (cl_HealthCheck c); try done; (by exists false, lb) || (by exists true, lb). }
  unfold spec_add. destruct (supported c) eqn:Hs.
  - destruct (Hnew eq_refl) as (hc & lb & E).
    eexists. split_and!; [eapply sg_run; [reflexivity|]; rewrite Hvia; unfold loadCluster;
      eapply sg_run; [unfold sg_lift; rewrite E; reflexivity|]; eapply sg_run; [reflexivity|]; reflexivity| |].
    + apply map_Forall_insert_2; [|done]. split; [apply good_new|done].
    + by rewrite abstraction_insert.
  - eexists. split_and!; [eapply sg_run; [reflexivity|]; rewrite Hvia; unfold loadCluster;
      eapply sg_run; [unfold sg_lift, NewCluster; unfold supported in Hs; by destruct (cl_ClusterType c)|]; reflexivity|done|done].
Qed.

Lemma run_hosts n l m : manager_ok m → ∃ m', UpdateClusterHosts grow n l m = Ret ((spec_hosts n l (abstraction m)).1, m') ∧
  manager_ok m' ∧ abstraction m' = (spec_hosts n l (abstraction m)).2.
Proof.
  intros Hok. unfold UpdateClusterHosts, spec_hosts. rewrite abstraction_lookup.
  destruct (primaryClusters m !! n) as [pc|] eqn:Hn; cbn.
  2: { exists m. split_and!; [|done..]. eapply sg_run; [reflexivity|]. by rewrite Hn. }
  destruct (Hok _ _ Hn) as [Hg Hvia]. destruct (good_update grow l _ Hg) as (s' & ps & E & Hg' & _ & _ & Hx & _).
  destruct (deliver_notices_ok s' (drop (length (notices (pc_cluster pc))) (notices s')) (pc_lb pc)) as [lb' El].
  eexists. split_and!.
  - eapply sg_run; [reflexivity|]. rewrite Hn. eapply sg_run; [unfold sg_lift, on_cluster; rewrite E; cbn; rewrite El; reflexivity|].
    eapply sg_run; reflexivity.
  - apply map_Forall_insert_2; [|done]. by split.
  - rewrite abstraction_insert. f_equal. apply set_eq. intros x. unfold addresses_of. cbn.
    by rewrite !elem_of_list_to_set, Hx.
Qed.

Lemma run_del n m : manager_ok m → ∃ m', RemovePrimaryCluster n m = Ret (true, m') ∧
  manager_ok m' ∧ abstraction m' = delete n (abstraction m).
Proof.
  intros Hok. unfold RemovePrimaryCluster. destruct (primaryClusters m !! n) as [pc|] eqn:Hn.
  - destruct (Hok _ _ Hn) as [_ Hvia]. eexists. split_and!.
    + eapply sg_run; [reflexivity|]. rewrite Hn, Hvia. cbn. eapply sg_run; reflexivity.
    + by apply map_Forall_delete.
    + unfold abstraction. cbn. apply fmap_delete.
  - exists m. split_and!; [eapply sg_run; [reflexivity|]; by rewrite Hn|done|].
    symmetry. apply delete_id. by rewrite abstraction_lookup, Hn.
Qed.

Lemma run_add_unknown c m : creatable c = false → manager_ok m → AddOrUpdatePrimaryCluster (L := L) c m = Panic NilDeref.
Proof.
  unfold creatable, supported, known_check. intros Hk Hok. unfold AddOrUpdatePrimaryCluster.
  assert (match primaryClusters m !! cl_Name c with Some pc => negb (pc_addedViaAPI pc) | None => false end = false) as Hvia.
  { destruct (primaryClusters m !! cl_Name c) as [pc|] eqn:Hc; [|done]. by destruct (Hok _ _ Hc) as [_ ->]. }
  assert (NewCluster (L := L) c = Panic NilDeref) as E.
  { unfold NewCluster, newCluster.
    destruct (lb_new_ok (lb_type (cl_LbType c)) (flags_view (new_cluster false)) (sets_view (new_cluster false))) as [lb El].
    by destruct (cl_ClusterType c); try done; rewrite El; destruct (cl_HealthCheck c). }
  eapply sg_run; [reflexivity|]. rewrite Hvia. unfold loadCluster, mbind, SG_bind, sg_lift. by rewrite E.
Qed.

(** The health check of the registry replaces the cluster's. *)
Lemma run_trigger c m : registryUseHealthCheck m = true ∨ creatable c = true → manager_ok m →
  ∃ m', TriggerClusterAddedOrUpdate c m = Ret ((spec_trigger c (abstraction m)).1, m') ∧
  manager_ok m' ∧ abstraction m' = (spec_trigger c (abstraction m)).2.
Proof.
  intros Hk Hok. unfold TriggerClusterAddedOrUpdate, spec_trigger, ClusterExist. rewrite abstraction_lookup.
  destruct (primaryClusters m !! cl_Name c) as [pc|] eqn:Hn; cbn.
  { exists m. split_and!; [|done..]. eapply sg_run; [reflexivity|]. rewrite Hn. by rewrite bool_decide_true by eauto. }
  set (c' := if registryUseHealthCheck m then mk_v2 (cl_Name c) (cl_ClusterType c) (cl_LbType c) HcSofaRPC else c).
  assert (cl_Name c' = cl_Name c ∧ spec_add c' (abstraction m) = spec_add c (abstraction m) ∧ creatable c' = true) as (Hname & Hsp & Hk').
  { unfold c'. destruct (registryUseHealthCheck m); [|by destruct Hk]. split_and!; [done..|]. unfold creatable. apply orb_true_r. }
  destruct (run_add c' m Hk' Hok) as (m' & E & Hok' & Ha). rewrite Hsp in E, Ha. exists m'.
  destruct (spec_add c (abstraction m)) as [ok r] eqn:Es. cbn in *. split_and!; [|done|done].
  eapply sg_run; [reflexivity|]. rewrite Hn, bool_decide_false by (intros [? ?]; done).
  eapply sg_run; [reflexivity|]. fold c'. eapply sg_run; [exact E|]. rewrite Hname. by destruct ok.
Qed.

Lemma run_trigger_known c m : bool_decide (is_Some (abstraction m !! cl_Name c)) || creatable c = true → manager_ok m →
  ∃ m', TriggerClusterAddedOrUpdate c m = Ret ((spec_trigger c (abstraction m)).1, m') ∧
  manager_ok m' ∧ abstraction m' = (spec_trigger c (abstraction m)).2.
Proof.
  intros [Hn|Hk]%orb_true_iff Hok; [|by apply run_trigger; [right|]]. apply bool_decide_eq_true in Hn as [x Hx].
  unfold TriggerClusterAddedOrUpdate, spec_trigger, ClusterExist. rewrite Hx. exists m. split_and!; [|done..].
  eapply sg_run; [reflexivity|]. rewrite abstraction_lookup in Hx. apply fmap_Some in Hx as (pc & Hx & _).
  by rewrite bool_decide_true by eauto.
Qed.

Lemma run_trigger_unknown c m : bool_decide (is_Some (abstraction m !! cl_Name c)) || creatable c = false →
  registryUseHealthCheck m = false → manager_ok m → TriggerClusterAddedOrUpdate c m = Panic NilDeref.
Proof.
  intros [Hn Hk]%orb_false_iff Hu Hok. unfold TriggerClusterAddedOrUpdate, ClusterExist.
  eapply sg_run; [reflexivity|]. apply bool_decide_eq_false in Hn. rewrite abstraction_lookup, fmap_is_Some in Hn.
  rewrite bool_decide_false by done. eapply sg_run; [reflexivity|]. rewrite Hu.
  unfold mbind, SG_bind. by rewrite run_add_unknown.
Qed.

Lemma run_mop_refines op m : makes_known op (abstraction m) = true → manager_ok m →
  ∃ m', run_mop op m = Ret ((spec_op op (abstraction m)).1, m') ∧
  manager_ok m' ∧ abstraction m' = (spec_op op (abstraction m)).2.
Proof.
  intros Hk Hok. destruct op as [c|n l|n|c|c l]; cbn [run_mop spec_op makes_known] in *.
  - destruct (run_add c m Hk Hok) as (m' & E & ? & Ha). destruct (spec_add c (abstraction m)). exists m'. split_and!; [|done..].
    by eapply sg_run; [exact E|].
  - destruct (run_hosts n l m Hok) as (m' & E & ? & Ha). destruct (spec_hosts n l (abstraction m)). exists m'. split_and!; [|done..].
    by eapply sg_run; [exact E|].
  - destruct (run_del n m Hok) as (m' & E & ? & Ha). exists m'. split_and!; [|done..]. by eapply sg_run; [exact E|].
  - destruct (run_trigger_known c m Hk Hok) as (m' & E & ? & Ha). destruct (spec_trigger c (abstraction m)). exists m'.
    split_and!; [|done..]. by eapply sg_run; [exact E|].
  - destruct (run_trigger_known c m Hk Hok) as (m1 & E1 & Hok1 & Ha1).
    destruct (spec_trigger c (abstraction m)) as [[e|] r]; cbn in *.
    + exists m1. split_and!; [|done..]. eapply sg_run; [|reflexivity]. unfold TriggerClusterAndHostsAddedOrUpdate.
      by eapply sg_run; [exact E1|].
    + subst r. destruct (run_hosts (cl_Name c) l m1 Hok1) as (m2 & E2 & ? & Ha2).
      destruct (spec_hosts (cl_Name c) l (abstraction m1)) as [e r]. cbn in *. exists m2. split_and!; [|done..].
      eapply sg_run; [|reflexivity]. unfold TriggerClusterAndHostsAddedOrUpdate. eapply sg_run; [exact E1|]. exact E2.
Qed.

Lemma run_mop_unknown op m : makes_known op (abstraction m) = false → registryUseHealthCheck m = false → manager_ok m →
  run_mop op m = Panic NilDeref.
Proof.
  intros Hk Hu Hok. destruct op as [c|n l|n|c|c l]; cbn [run_mop makes_known] in *; try done.
  - unfold mbind, SG_bind. by rewrite run_add_unknown.
  - unfold mbind, SG_bind. by rewrite run_trigger_unknown.
  - unfold mbind, SG_bind, TriggerClusterAndHostsAddedOrUpdate, mbind, SG_bind. by rewrite run_trigger_unknown.
Qed.

(** No operation turns the health check of the registry on. *)
Definition keeps_use {A} (f : M A) : Prop :=
  ∀ m a m', f m = Ret (a, m') → registryUseHealthCheck m' = registryUseHealthCheck m.
Lemma keeps_use_bind {A B} (f : M A) (g : A → M B) : keeps_use f → (∀ a, keeps_use (g a)) → keeps_use (f ≫= g).
Proof. intros Hf Hg m b m' E. apply sg_bind_Ret_inv in E as (a & m1 & E1 & E2). rewrite (Hg a _ _ _ E2). by eapply Hf. Qed.
Lemma keeps_use_ret {A} (a : A) : keeps_use (mret a).
Proof. by intros m b m' [= <- <-]. Qed.
Lemma keeps_use_cm {A} (f : clusterManager L → A) : keeps_use (cm f).
Proof. by intros m b m' [= <- <-]. Qed.
Lemma keeps_use_lift {A} (g : Go A) : keeps_use (sg_lift g).
Proof. intros m b m' E. unfold sg_lift in E. destruct g; [|done]. by injection E as <- <-. Qed.
Lemma keeps_use_clusters f : keeps_use (mod_cm (λ m, set_clusters (f m) m)).
Proof. by intros m b m' [= <- <-]. Qed.
Ltac keeps :=
  repeat first [apply keeps_use_bind; [|intros ?]|apply keeps_use_ret|apply keeps_use_cm|apply keeps_use_lift|apply keeps_use_clusters
    |match goal with |- keeps_use (match ?x with _ => _ end) => destruct x end].

Lemma run_mop_use op : keeps_use (run_mop op).
Proof.
  destruct op; cbn [run_mop]; unfold TriggerClusterAndHostsAddedOrUpdate, TriggerClusterAddedOrUpdate, ClusterExist,
    RemovePrimaryCluster, UpdateClusterHosts, AddOrUpdatePrimaryCluster, loadCluster; keeps.
Qed.

Lemma run_mops_refines l m : registryUseHealthCheck m = false → manager_ok m →
  match spec_ops l (abstraction m) with
  | Some (rs, r) => ∃ m', run_mops l m = Ret (rs, m') ∧ manager_ok m' ∧ abstraction m' = r
  | None => run_mops l m = Panic NilDeref
  end.
Proof.
  revert m. induction l as [|op l IH]; intros m Hu Hok; [by exists m|]. cbn [spec_ops run_mops].
  destruct (makes_known op (abstraction m)) eqn:Hk; [|unfold mbind, SG_bind; by rewrite run_mop_unknown].
  destruct (run_mop_refines op m Hk Hok) as (m1 & E1 & Hok1 & Ha1). specialize (IH m1).
  rewrite (run_mop_use _ _ _ _ E1) in IH. specialize (IH Hu Hok1).
  destruct (spec_op op (abstraction m)) as [a r]. cbn in Ha1, E1. subst r.
  destruct (spec_ops l (abstraction m1)) as [[rs r]|]; cbn.
  - destruct IH as (m2 & E2 & ? & ?). exists m2. split_and!; [|done..]. eapply sg_run; [exact E1|]. by eapply sg_run; [exact E2|].
  - eapply sg_run; [exact E1|]. unfold mbind, SG_bind. by rewrite IH.
Qed.

(** C10. The cluster manager implements a registry that maps cluster names to
    sets of addresses: every sequence of additions of clusters, updates of the
    hosts of a cluster and removals of clusters, directly or through the
    adapter, returns what the registry returns and leaves the clusters with
    exactly the registry's addresses, each once; only when an operation makes a
    cluster with a health check of an unknown protocol does it panic, and then
    always.  Adding a cluster that exists empties it.  The removal of a single
    host is not among the operations: it leaves a host twice
    ([ClusterHostsProps.RemoveClusterHosts_in_place]). *)
Theorem manager_refines_registry l :
  match spec_ops l ∅ with
  | Some (rs, r) => ∃ m, run_mops l empty_manager = Ret (rs, m) ∧ manager_ok m ∧ abstraction m = r
  | None => run_mops l empty_manager = Panic NilDeref
  end.
Proof.
  pose proof (run_mops_refines l empty_manager eq_refl) as H. unfold abstraction at 1 in H. cbn in H.
  rewrite fmap_empty in H. apply H. by intros n pc Hn.
Qed.

(** ** Pools *)

Definition conn_pool (p : Protocol) (ctx : option Ctx) (name : string) (r1 r2 : nat) : M (option pool) :=
  match p with
  | SofaRPC => SofaRPCConnPoolForCluster ctx name r1 r2
  | HTTP1 | HTTP2 => HTTPConnPoolForCluster ctx name p r1 r2
  | Xprotocol => XprotocolConnPoolForCluster ctx name r1 r2
  end.

Definition pools_ok (m : clusterManager L) : Prop :=
  ∀ p, map_Forall (λ addr q, h_address (pool_host q) = addr) (pools_of p m).

Lemma pools_of_clusters p v (m : clusterManager L) : pools_of p (set_clusters v m) = pools_of p m.
Proof. by destruct p. Qed.
Lemma pools_of_set p q v (m : clusterManager L) : pools_of p (set_pools q v m) = if decide (p = q) then v else pools_of p m.
Proof. by destruct p, q. Qed.

Lemma choose_host_spec name ctx r1 r2 m o m' : choose_host name ctx r1 r2 m = Ret (o, m') →
  (∀ p, pools_of p m' = pools_of p m) ∧
  ∀ h, o = Some h → ∃ pc hs, primaryClusters m !! name = Some pc ∧ hs ∈ sets_view (pc_cluster pc) ∧ h ∈ hs_healthy hs.
Proof.
  intros E. unfold choose_host in E. apply sg_bind_Ret_inv in E as (? & ? & [= <- <-] & E).
  destruct (primaryClusters m !! name) as [pc|] eqn:Hn; [|by injection E as <- <-].
  apply sg_bind_Ret_inv in E as ([lb h] & s1 & El & E). unfold sg_lift in El.
  destruct (lb_choose (sets_view (pc_cluster pc)) ctx r1 r2 (pc_lb pc)) as [[lb0 h0]|] eqn:Hlb; [|done].
  injection El as -> -> <-. apply sg_bind_Ret_inv in E as (? & ? & [= <- <-] & E). injection E as <- <-.
  split; [intros p; apply pools_of_clusters|]. intros h' ->. apply lb_choose_healthy in Hlb as (hs & ? & ?).
  by exists pc, hs.
Qed.

Lemma pool_for_spec p name h m q m' : pools_ok m → pool_for p name h m = Ret (q, m') →
  pools_ok m' ∧ h_address (pool_host q) = h_address h ∧ pools_of p m' !! h_address h = Some q ∧
  ∀ r, pools_of r m ⊆ pools_of r m'.
Proof.
  intros Hok E. unfold pool_for in E. apply sg_bind_Ret_inv in E as (? & ? & [= <- <-] & E).
  destruct (pools_of p m !! h_address h) as [q0|] eqn:Hq.
  - injection E as <- <-. split_and!; [done|by apply (Hok p)|done|done].
  - apply sg_bind_Ret_inv in E as (? & ? & [= <- <-] & E). injection E as <- <-. split_and!.
    + intros r. rewrite pools_of_set. case_decide; [|apply Hok]. by apply map_Forall_insert_2; [|apply Hok].
    + done.
    + rewrite pools_of_set, decide_True by done. apply lookup_insert_eq.
    + intros r. rewrite pools_of_set. case_decide as Hr; [|done]. subst r. by apply insert_subseteq.
Qed.

(** A pool that is handed out for a cluster belongs to the address of a host
    the cluster lists as healthy; it is kept under that address for its
    protocol, and no pool is ever replaced or dropped. *)
Theorem pool_of_healthy_host p ctx name r1 r2 m q m' : pools_ok m → conn_pool p ctx name r1 r2 m = Ret (Some q, m') →
  (∃ pc hs h, primaryClusters m !! name = Some pc ∧ hs ∈ sets_view (pc_cluster pc) ∧ h ∈ hs_healthy hs ∧
     h_address (pool_host q) = h_address h ∧ pools_of p m' !! h_address h = Some q) ∧
  pools_ok m' ∧ ∀ r, pools_of r m ⊆ pools_of r m'.
Proof.
  intros Hok E.
  assert (∃ c h m1, choose_host name c r1 r2 m = Ret (Some h, m1) ∧ pool_for p name h m1 = Ret (q, m')) as (c & h & m1 & E1 & E2).
  { destruct p; cbn [conn_pool] in E; unfold SofaRPCConnPoolForCluster, HTTPConnPoolForCluster, XprotocolConnPoolForCluster in E;
      apply sg_bind_Ret_inv in E as ([h|] & m1 & E1 & E); try done;
      apply sg_bind_Ret_inv in E as (q' & m2 & E2 & [= -> ->]); eauto. }
  apply choose_host_spec in E1 as [Hp Hh]. destruct (Hh h eq_refl) as (pc & hs & ? & ? & ?).
  assert (pools_ok m1) as Hok1 by (intros r; rewrite Hp; apply Hok).
  destruct (pool_for_spec p name h m1 q m' Hok1 E2) as (? & ? & ? & Hsub).
  split_and!; [by exists pc, hs, h|done|]. intros r. rewrite <- Hp. apply Hsub.
Qed.
End manager.

(** ** A manager with two clusters *)

Abbreviation CM := (clusterManager LoadBalancer).
Definition host_config (addr name : string) : Host_config := mk_hc addr name 1 ∅.
Definition demo_config : list mop :=
  [MAdd (mk_v2 "orders" SIMPLE_CLUSTER LB_ROUNDROBIN HcNone); MHosts "orders" [host_config "10.0.0.1:80" "a"];
   MTriggerHosts (mk_v2 "users" EDS_CLUSTER LB_RANDOM HcSofaRPC) [host_config "10.0.0.1:80" "b"; host_config "10.0.0.2:80" "c"];
   MHosts "nobody" []; MDel "nobody"].
Definition demo_manager : CM :=
  match run_mops (L := LoadBalancer) (Ctx := unit) id demo_config empty_manager with Ret (_, m) => m | Panic _ => empty_manager end.

Example demo_config_replies : fst <$> spec_ops demo_config ∅ =
  Some [ROk true; RErr None; RErr None; RErr (Some "cluster nobody not found"%string); ROk true].
Proof. by vm_compute. Qed.

(** A cluster with a health check over plain HTTP. *)
Example unknown_check_panics :
  run_mops (L := LoadBalancer) (Ctx := unit) id (demo_config ++ [MAdd (mk_v2 "shop" SIMPLE_CLUSTER LB_RANDOM HcUnknown)]) empty_manager =
    Panic NilDeref.
Proof. by vm_compute. Qed.

Lemma manager_refines_registry_witness : ∃ rs r m,
  spec_ops demo_config ∅ = Some (rs, r) ∧
  run_mops (L := LoadBalancer) (Ctx := unit) id demo_config empty_manager = Ret (rs, m) ∧ manager_ok m ∧ abstraction m = r ∧
  r !! "users"%string = Some {["10.0.0.1:80"; "10.0.0.2:80"]}.
Proof.
  assert ((λ x, x.2 !! "users"%string) <$> spec_ops demo_config ∅ = Some (Some {["10.0.0.1:80"; "10.0.0.2:80"]})) as F
    by (vm_compute; reflexivity).
  generalize (manager_refines_registry (L := LoadBalancer) (Ctx := unit) id demo_config). revert F.
  generalize (spec_ops demo_config ∅). intros [[rs r]|] F H; [|discriminate F].
  destruct H as (m & H1 & H2 & H3). exists rs, r, m. cbn in F. injection F as F. by split_and!.
Defined.

Lemma pool_of_healthy_host_witness :
  match conn_pool (L := LoadBalancer) (Ctx := unit) SofaRPC None "orders" 0 0 demo_manager with
  | Ret (Some q, m') =>
    (∃ pc hs h, primaryClusters demo_manager !! "orders"%string = Some pc ∧ hs ∈ sets_view (pc_cluster pc) ∧ h ∈ hs_healthy hs ∧
       h_address (pool_host q) = h_address h ∧ pools_of SofaRPC m' !! h_address h = Some q) ∧
    pools_ok m' ∧ ∀ r, pools_of r demo_manager ⊆ pools_of r m'
  | _ => False
  end.
Proof.
  destruct (conn_pool (L := LoadBalancer) (Ctx := unit) SofaRPC None "orders" 0 0 demo_manager) as [[[q|] m']|] eqn:E; [|vm_compute in E; discriminate..].
  apply (pool_of_healthy_host (L := LoadBalancer) (Ctx := unit) SofaRPC None "orders" 0 0 demo_manager q m'); [|exact E].
  intros []; vm_compute; intros ? ? ?; discriminate.
Defined.

(** Two clusters with a host of the same address share its pool, and with it the
    resources, the TLS settings and the statistics of the first. *)
Example pools_shared_between_clusters :
  match (q1 ← SofaRPCConnPoolForCluster (L := LoadBalancer) (Ctx := unit) None "orders" 0 0;
         q2 ← SofaRPCConnPoolForCluster (Ctx := unit) None "users" 0 0; mret (q1, q2)) demo_manager with
  | Ret ((Some q1, Some q2), _) => q1 = q2 ∧ pool_cluster q2 = "orders"%string
  | _ => False
  end.
Proof. vm_compute. done. Qed.
