(* ===== verification/HealthCheck.v ===== *)
(** * Health checks: pkg/upstream/healthcheck

    healthchecker.go (sessions, thresholds, counters), util.go (the reusable
    timers), sofarpchealthchecker.go, http2healthchecker.go and factory.go.

    A session checks one host; the counters of its checker are shared by the
    checker's sessions.  A timer is a flag that it was started, a flag that it
    was stopped, and the channel that wakes its goroutine.  The goroutine of a
    running timer either fires, and runs the callback before it clears the
    flags, or finds the channel's value and ends.  What the outside does (a
    connection attempt, a response, a reset) are inputs; the random part of an
    interval is an argument. *)

From S2P Require Import Prelude Strconv Serialize BoltTypes Stream StateGo Cluster.

Local Open Scope Z_scope.

(** ** Timers (util.go) *)

Record reusable_timer := mk_rt { rt_started : bool; rt_stopped : bool; rt_value : bool; rt_interval : Z }.
Definition newTimer : reusable_timer := mk_rt false false false 0.
Definition rt_start (interval : Z) (t : reusable_timer) : reusable_timer :=
  if rt_started t then t else mk_rt true (rt_stopped t) (rt_value t) interval.
(** [stop], and whether it blocks: the channel has room for one value. *)
Definition rt_stop (t : reusable_timer) : reusable_timer * bool :=
  if rt_stopped t then (t, false)
  else (mk_rt (rt_started t) true true (rt_interval t), rt_value t).
(** The deferred function of the goroutine. *)
Definition rt_done (t : reusable_timer) : reusable_timer := mk_rt false false (rt_value t) (rt_interval t).
(** The goroutine found the channel's value. *)
Definition rt_cancelled (t : reusable_timer) : reusable_timer := rt_done (mk_rt (rt_started t) (rt_stopped t) false (rt_interval t)).

(** ** Checkers and sessions *)

(** The configuration; [protocolCode] is that of the SofaRPC checker. *)
Record hc_config := mk_hcc {
  healthyThreshold : Z; unhealthyThreshold : Z; hc_timeout : Z; hc_interval : Z; intervalJitter : Z; protocolCode : Z;
}.

(** The callbacks run so far are known by whether the state had changed. *)
Record checker_state := mk_checker {
  localProcessHealthy : Z; healthy_gauge : Z; attempt : Z; success : Z; failure : Z; passiveFailure : Z;
  networkFailure : Z; callbacks : list bool;
}.
Definition set_localProcessHealthy (v : Z) (s : checker_state) : checker_state :=
  mk_checker v (healthy_gauge s) (attempt s) (success s) (failure s) (passiveFailure s)
    (networkFailure s) (callbacks s).
Definition set_healthy_gauge (v : Z) (s : checker_state) : checker_state :=
  mk_checker (localProcessHealthy s) v (attempt s) (success s) (failure s) (passiveFailure s)
    (networkFailure s) (callbacks s).
Definition set_attempt (v : Z) (s : checker_state) : checker_state :=
  mk_checker (localProcessHealthy s) (healthy_gauge s) v (success s) (failure s) (passiveFailure s)
    (networkFailure s) (callbacks s).
Definition set_success (v : Z) (s : checker_state) : checker_state :=
  mk_checker (localProcessHealthy s) (healthy_gauge s) (attempt s) v (failure s) (passiveFailure s)
    (networkFailure s) (callbacks s).
Definition set_failure (v : Z) (s : checker_state) : checker_state :=
  mk_checker (localProcessHealthy s) (healthy_gauge s) (attempt s) (success s) v (passiveFailure s)
    (networkFailure s) (callbacks s).
Definition set_passiveFailure (v : Z) (s : checker_state) : checker_state :=
  mk_checker (localProcessHealthy s) (healthy_gauge s) (attempt s) (success s) (failure s) v
    (networkFailure s) (callbacks s).
Definition set_networkFailure (v : Z) (s : checker_state) : checker_state :=
  mk_checker (localProcessHealthy s) (healthy_gauge s) (attempt s) (success s) (failure s)
    (passiveFailure s) v (callbacks s).
Definition set_callbacks (v : list bool) (s : checker_state) : checker_state :=
  mk_checker (localProcessHealthy s) (healthy_gauge s) (attempt s) (success s) (failure s)
    (passiveFailure s) (networkFailure s) v.

(** [host_flags] are the health flags of the session's host, [requests] counts
    the requests sent, [stuck] says that a goroutine waits for the channel of a
    timer for ever. *)
Record session := mk_session {
  numHealthy : Z; numUnHealthy : Z; host_flags : Z; intervalTimer : option reusable_timer;
  timeoutTimer : option reusable_timer; client : bool; expectReset : bool; responseStatus : Z;
  responseHeaders : option header_map; requests : nat; stuck : bool;
}.
Definition set_numHealthy (v : Z) (s : session) : session :=
  mk_session v (numUnHealthy s) (host_flags s) (intervalTimer s) (timeoutTimer s) (client s)
    (expectReset s) (responseStatus s) (responseHeaders s) (requests s) (stuck s).
Definition set_numUnHealthy (v : Z) (s : session) : session :=
  mk_session (numHealthy s) v (host_flags s) (intervalTimer s) (timeoutTimer s) (client s)
    (expectReset s) (responseStatus s) (responseHeaders s) (requests s) (stuck s).
Definition set_host_flags (v : Z) (s : session) : session :=
  mk_session (numHealthy s) (numUnHealthy s) v (intervalTimer s) (timeoutTimer s) (client s)
    (expectReset s) (responseStatus s) (responseHeaders s) (requests s) (stuck s).
Definition set_intervalTimer (v : option reusable_timer) (s : session) : session :=
  mk_session (numHealthy s) (numUnHealthy s) (host_flags s) v (timeoutTimer s) (client s)
    (expectReset s) (responseStatus s) (responseHeaders s) (requests s) (stuck s).
Definition set_timeoutTimer (v : option reusable_timer) (s : session) : session :=
  mk_session (numHealthy s) (numUnHealthy s) (host_flags s) (intervalTimer s) v (client s)
    (expectReset s) (responseStatus s) (responseHeaders s) (requests s) (stuck s).
Definition set_client (v : bool) (s : session) : session :=
  mk_session (numHealthy s) (numUnHealthy s) (host_flags s) (intervalTimer s) (timeoutTimer s) v
    (expectReset s) (responseStatus s) (responseHeaders s) (requests s) (stuck s).
Definition set_expectReset (v : bool) (s : session) : session :=
  mk_session (numHealthy s) (numUnHealthy s) (host_flags s) (intervalTimer s) (timeoutTimer s)
    (client s) v (responseStatus s) (responseHeaders s) (requests s) (stuck s).
Definition set_responseStatus (v : Z) (s : session) : session :=
  mk_session (numHealthy s) (numUnHealthy s) (host_flags s) (intervalTimer s) (timeoutTimer s)
    (client s) (expectReset s) v (responseHeaders s) (requests s) (stuck s).
Definition set_responseHeaders (v : option header_map) (s : session) : session :=
  mk_session (numHealthy s) (numUnHealthy s) (host_flags s) (intervalTimer s) (timeoutTimer s)
    (client s) (expectReset s) (responseStatus s) v (requests s) (stuck s).
Definition set_requests (v : nat) (s : session) : session :=
  mk_session (numHealthy s) (numUnHealthy s) (host_flags s) (intervalTimer s) (timeoutTimer s)
    (client s) (expectReset s) (responseStatus s) (responseHeaders s) v (stuck s).
Definition set_stuck (v : bool) (s : session) : session :=
  mk_session (numHealthy s) (numUnHealthy s) (host_flags s) (intervalTimer s) (timeoutTimer s)
    (client s) (expectReset s) (responseStatus s) (responseHeaders s) (requests s) v.

Section session.
  Context (cfg : hc_config).
  Abbreviation st := (session * checker_state)%type.
  Abbreviation M := (SG st).

Definition ses {A} (f : session → A) : M A := λ s, Ret (f s.1, s).
Definition chk {A} (f : checker_state → A) : M A := λ s, Ret (f s.2, s).
Definition mod_ses (f : session → session) : M unit := sg_modify (λ s, (f s.1, s.2)).
Definition mod_chk (f : checker_state → checker_state) : M unit := sg_modify (λ s, (s.1, f s.2)).

(** The interval is compared with the largest uint, which it never exceeds. *)
Definition getInterval (jitter : Z) : Z :=
  let base := if bool_decide (0 < intervalJitter cfg) then to_int64 (hc_interval cfg + jitter) else hc_interval cfg in
  if bool_decide (base < 0) then 0 else base.
Definition getTimeoutDuration : Z := if bool_decide (hc_timeout cfg < 0) then 0 else hc_timeout cfg.

(** A call through a nil timer panics. *)
Definition timeout_start (i : Z) : M unit :=
  o ← ses timeoutTimer; t ← sg_deref o; mod_ses (set_timeoutTimer (Some (rt_start i t))).
Definition interval_start (i : Z) : M unit :=
  o ← ses intervalTimer; t ← sg_deref o; mod_ses (set_intervalTimer (Some (rt_start i t))).
Definition timeout_stop : M unit :=
  o ← ses timeoutTimer; t ← sg_deref o;
  let '(t, blocks) := rt_stop t in
  mod_ses (λ s, set_stuck (stuck s || blocks) (set_timeoutTimer (Some t) s)).
Definition session_Stop : M unit :=
  o ← ses intervalTimer; t ← sg_deref o;
  let '(t, blocks) := rt_stop t in
  mod_ses (λ s, set_stuck (stuck s || blocks) (set_intervalTimer (Some t) s)).

Definition refreshHealthyStat : M unit := mod_chk (λ c, set_healthy_gauge (to_int64 (localProcessHealthy c)) c).
Definition decHealthy : M unit :=
  _ ← mod_chk (λ c, set_localProcessHealthy (to_uint64 (localProcessHealthy c - 1)) c); refreshHealthyStat.
Definition incHealthy : M unit :=
  _ ← mod_chk (λ c, set_localProcessHealthy (to_uint64 (localProcessHealthy c + 1)) c); refreshHealthyStat.

Definition runCallbacks (changed : bool) : M unit :=
  _ ← refreshHealthyStat;
  mod_chk (λ c, set_callbacks (callbacks c ++ [changed]) c).

Definition failed_active (s : session) : bool := bool_decide (0 < Z.land (host_flags s) FAILED_ACTIVE_HC).

Definition handleSuccess (jitter : Z) : M unit :=
  _ ← mod_ses (set_numUnHealthy 0);
  failed ← ses failed_active;
  stateChanged ←
    (if failed : bool then
       _ ← mod_ses (λ s, set_numHealthy (to_uint32 (numHealthy s + 1)) s);
       n ← ses numHealthy;
       if bool_decide (n = healthyThreshold cfg) then
         _ ← mod_ses (λ s, set_host_flags (Z.ldiff (host_flags s) FAILED_ACTIVE_HC) s);
         _ ← incHealthy;
         mret true
       else mret false
     else mret false);
  _ ← mod_chk (λ c, set_success (success c + 1) c);
  _ ← runCallbacks stateChanged;
  _ ← timeout_stop;
  interval_start (getInterval jitter).

Inductive FailureType := FailureNetwork | FailurePassive | FailureActive.

Definition SetUnhealthy (fType : FailureType) : M unit :=
  _ ← mod_ses (set_numHealthy 0);
  failed ← ses failed_active;
  stateChanged ←
    (if negb failed then
       _ ← mod_ses (λ s, set_numUnHealthy (to_uint32 (numUnHealthy s + 1)) s);
       n ← ses numUnHealthy;
       if bool_decide (n = unhealthyThreshold cfg) then
         _ ← mod_ses (λ s, set_host_flags (Z.lor (host_flags s) FAILED_ACTIVE_HC) s);
         _ ← decHealthy;
         mret true
       else mret false
     else mret false);
  _ ← mod_chk (λ c, set_failure (failure c + 1) c);
  _ ← match fType with
      | FailureNetwork => mod_chk (λ c, set_networkFailure (networkFailure c + 1) c)
      | FailurePassive => mod_chk (λ c, set_passiveFailure (passiveFailure c + 1) c)
      | FailureActive => mret tt
      end;
  runCallbacks stateChanged.

Definition handleFailure (fType : FailureType) (jitter : Z) : M unit :=
  _ ← SetUnhealthy fType;
  _ ← timeout_stop;
  interval_start (getInterval jitter).

Definition base_onInterval : M unit :=
  _ ← timeout_start getTimeoutDuration;
  mod_chk (λ c, set_attempt (attempt c + 1) c).

Definition base_onTimeout (jitter : Z) : M unit :=
  _ ← SetUnhealthy FailureNetwork;
  interval_start (getInterval jitter).

(** *** SofaRPC sessions *)

Definition BOLT_V1 : Z := 1.

(** [connected] is the outcome of a connection attempt. *)
Definition sofa_onInterval (connected : bool) (jitter : Z) : M unit :=
  c ← ses client;
  if negb c && negb connected then handleFailure FailureActive jitter
  else
  _ ← sg_when (negb c) (mod_ses (λ s, set_expectReset false (set_client true s)));
  (* the stream of the request is made; only version 1 has a heartbeat *)
  if bool_decide (protocolCode cfg = BOLT_V1) then
    _ ← mod_ses (λ s, set_requests (S (requests s)) s);
    base_onInterval
  else mret tt.

Definition onTimeout (jitter : Z) : M unit :=
  _ ← mod_ses (set_expectReset true);
  c ← ses client;
  _ ← sg_lift (go_assert c NilDeref);
  _ ← mod_ses (set_client false);
  base_onTimeout jitter.

Definition isHealthCheckSucceeded (s : session) : bool := bool_decide (responseStatus s = RESPONSE_STATUS_SUCCESS).

Definition onResponseComplete (jitter : Z) : M unit :=
  ok ← ses isHealthCheckSucceeded;
  _ ← (if ok : bool then handleSuccess jitter else handleFailure FailureActive jitter);
  mod_ses (set_responseStatus (-1)).

Definition hc_OnReceiveHeaders (headers : header_map) (endStream : bool) (jitter : Z) : M unit :=
  _ ← match headers !! SofaPropertyHeader HeaderRespStatus with
      | Some v => match ConvertPropertyValue v KInt16 with
                  | PInt16 n => mod_ses (set_responseStatus n)
                  | _ => sg_panic TypeAssertion
                  end
      | None => mret tt
      end;
  sg_when endStream (onResponseComplete jitter).
Definition hc_OnReceiveData (endStream : bool) (jitter : Z) : M unit := sg_when endStream (onResponseComplete jitter).
Definition hc_OnReceiveTrailers (jitter : Z) : M unit := onResponseComplete jitter.
Definition hc_OnResetStream (jitter : Z) : M unit :=
  e ← ses expectReset;
  if e : bool then mret tt else handleFailure FailureNetwork jitter.

(** *** HTTP/2 sessions *)

Definition http2_onInterval : M unit :=
  c ← ses client;
  _ ← sg_when (negb c) (mod_ses (λ s, set_expectReset false (set_client true s)));
  _ ← mod_ses (λ s, set_requests (S (requests s)) s);
  base_onInterval.

Definition http2_isHealthCheckSucceeded (s : session) : bool :=
  match responseHeaders s ≫= lookup HeaderStatus with
  | Some status => bool_decide (Atoi status = 200)
  | None => true
  end.

(** [closes] is whether a header asks for the connection to be closed. *)
Definition http2_onResponseComplete (closes : bool) (jitter : Z) : M unit :=
  ok ← ses http2_isHealthCheckSucceeded;
  _ ← (if ok : bool then handleSuccess jitter else handleFailure FailureActive jitter);
  _ ← sg_when closes (c ← ses client; _ ← sg_lift (go_assert c NilDeref); mod_ses (set_client false));
  mod_ses (set_responseHeaders None).

(** ** Timers of a session *)

(** A running timer fires: the callback runs while the timer is still marked as
    started. *)
Definition interval_fires (onInterval : M unit) : M unit :=
  o ← ses intervalTimer;
  t ← sg_deref o;
  if rt_started t then
    _ ← onInterval;
    mod_ses (λ s, set_intervalTimer (rt_done <$> intervalTimer s) s)
  else mret tt.
Definition timeout_fires (jitter : Z) : M unit :=
  o ← ses timeoutTimer;
  t ← sg_deref o;
  if rt_started t then
    _ ← onTimeout jitter;
    mod_ses (λ s, set_timeoutTimer (rt_done <$> timeoutTimer s) s)
  else mret tt.
(** It finds a value in its channel instead. *)
Definition cancel (t : reusable_timer) : reusable_timer := if rt_started t && rt_value t then rt_cancelled t else t.
Definition interval_cancelled : M unit := mod_ses (λ s, set_intervalTimer (cancel <$> intervalTimer s) s).
Definition timeout_cancelled : M unit := mod_ses (λ s, set_timeoutTimer (cancel <$> timeoutTimer s) s).

(** ** Creating sessions *)

(** A session without timers, for a host with [flags]. *)
Definition bare_session (flags : Z) : session :=
  mk_session 0 0 flags None None false false 0 None 0 false.

Definition newHealthCheckSession : M unit :=
  failed ← ses failed_active;
  sg_when (negb failed) decHealthy.

(** [newSession] of the SofaRPC and of the HTTP/2 checker, for a bare session. *)
Definition sofa_newSession : M unit :=
  _ ← newHealthCheckSession;
  mod_ses (λ s, set_timeoutTimer (Some newTimer) (set_intervalTimer (Some newTimer) s)).
End session.

Definition new_checker : checker_state := mk_checker 0 0 0 0 0 0 0 [].

(** The configured protocol code is used only to choose version 1 when it is 0. *)
Definition newSofaRPCHealthChecker (healthy unhealthy timeout interval jitter code : Z) : hc_config :=
  mk_hcc healthy unhealthy timeout interval jitter (if bool_decide (code = 0) then BOLT_V1 else 0).

(** ** Checkers by protocol (factory.go)

    The HTTP/2 checker makes its sessions with the base checker's factory, which
    makes sessions without timers, that start with the base [onInterval]. *)
Inductive checker_kind := SofaChecker | HTTP2Checker.
Definition checker_newSession (k : checker_kind) : SG (session * checker_state) unit :=
  match k with SofaChecker => sofa_newSession | HTTP2Checker => mret tt end.
Definition session_Start (cfg : hc_config) (k : checker_kind) (connected : bool) (jitter : Z) : SG (session * checker_state) unit :=
  match k with SofaChecker => sofa_onInterval cfg connected jitter | HTTP2Checker => base_onInterval cfg end.
