(* ===== verification/HealthCheckProps.v ===== *)
(** * Properties of health checks

    The thresholds against a reference on the history of results, for sessions
    that run in rounds; then how sessions stop, and what the counters count. *)

From S2P Require Import Prelude Strconv Serialize BoltTypes Stream StateGo Cluster HealthCheck.

Local Open Scope Z_scope.

(** ** The reference: results, the latest first *)

(** The number of latest results that are [b]. *)
Fixpoint streak (b : bool) (l : list bool) : nat :=
  match l with r :: l => if Bool.eqb r b then S (streak b l) else 0 | [] => 0 end.

(** Whether a host is marked as failed: after [U] failures in a row, until [H]
    successes in a row. *)
Fixpoint ref_failed (U H : nat) (init : bool) (l : list bool) : bool :=
  match l with
  | [] => init
  | r :: l' => if ref_failed U H init l' then negb (bool_decide (H ≤ streak true l)%nat) else bool_decide (U ≤ streak false l)%nat
  end.

(** Whether each result changed that, the first result first. *)
Fixpoint ref_changes (U H : nat) (init : bool) (l : list bool) : list bool :=
  match l with
  | [] => []
  | r :: l' => (ref_changes U H init l' ++ [xorb (ref_failed U H init l) (ref_failed U H init l')])%list
  end.

(** ** What the handlers do *)

(** The flags. *)
Lemma failed_lor z : bool_decide (0 < Z.land (Z.lor z FAILED_ACTIVE_HC) FAILED_ACTIVE_HC) = true.
Proof.
  unfold FAILED_ACTIVE_HC. rewrite Z.land_lor_distr_l. change (Z.land 1 1) with 1. apply bool_decide_true.
  change 1 with (Z.ones 1) at 1. rewrite Z.land_ones by lia. assert (0 ≤ z mod 2 ^ 1 < 2) by (apply Z.mod_pos_bound; lia).
  assert (z mod 2 ^ 1 = 0 ∨ z mod 2 ^ 1 = 1) as [->| ->] by lia; done.
Qed.
Lemma failed_ldiff z : bool_decide (0 < Z.land (Z.ldiff z FAILED_ACTIVE_HC) FAILED_ACTIVE_HC) = false.
Proof. by rewrite Z.land_ldiff. Qed.

Section steps.
  Context (cfg : hc_config).
  Abbreviation st := (session * checker_state)%type.

(** What a result leaves alone. *)
Definition same_link (s s' : st) : Prop :=
  client s'.1 = client s.1 ∧ expectReset s'.1 = expectReset s.1 ∧ requests s'.1 = requests s.1 ∧
  responseStatus s'.1 = responseStatus s.1 ∧ attempt s'.2 = attempt s.2.

(** Stopping the timeout and starting the next interval. *)
Lemma rearm_run se ch j t ti : timeoutTimer se = Some t → intervalTimer se = Some ti →
  (_ ← timeout_stop; interval_start (getInterval cfg j)) (se, ch) =
  Ret (tt, (set_intervalTimer (Some (rt_start (getInterval cfg j) ti))
              (set_stuck (stuck se || (rt_stop t).2) (set_timeoutTimer (Some (rt_stop t).1) se)), ch)).
Proof.
  intros Ht Hi. destruct (rt_stop t) as [t' b] eqn:Hs.
  eapply sg_run; [unfold timeout_stop; srun; rewrite Ht; srun; rewrite Hs; reflexivity|]. cbn [fst snd].
  unfold interval_start. srun. change (intervalTimer _) with (intervalTimer se). rewrite Hi. srun. reflexivity.
Qed.

Lemma SetUnhealthy_effect s f :
  let failed := failed_active s.1 in
  let n := to_uint32 (numUnHealthy s.1 + 1) in
  let flips := negb failed && bool_decide (n = unhealthyThreshold cfg) in
  ∃ s', SetUnhealthy cfg f s = Ret (tt, s') ∧ numHealthy s'.1 = 0 ∧
    numUnHealthy s'.1 = (if failed then numUnHealthy s.1 else n) ∧
    failed_active s'.1 = (if flips then true else failed) ∧ callbacks s'.2 = (callbacks s.2 ++ [flips])%list ∧
    same_link s s' ∧ timeoutTimer s'.1 = timeoutTimer s.1 ∧ stuck s'.1 = stuck s.1 ∧
    intervalTimer s'.1 = intervalTimer s.1 ∧ success s'.2 = success s.2 ∧ failure s'.2 = failure s.2 + 1.
Proof.
  cbn zeta. destruct s as [se ch]. cbn [fst snd].
  destruct (failed_active se) eqn:Hf; [|destruct (bool_decide (to_uint32 (numUnHealthy se + 1) = unhealthyThreshold cfg)) eqn:Hth].
  - destruct f; (eexists; split; [unfold SetUnhealthy; do 2 srun; change (failed_active _) with (failed_active se); rewrite Hf;
      do 3 srun; reflexivity|split_and!; done]).
  - destruct f; (eexists; split; [unfold SetUnhealthy; do 2 srun; change (failed_active _) with (failed_active se); rewrite Hf;
      cbn [negb]; eapply sg_run; [do 2 srun; cbn [numUnHealthy set_numHealthy set_numUnHealthy]; rewrite Hth; do 2 srun; reflexivity|];
      do 2 srun; reflexivity|split_and!; try done; apply failed_lor]).
  - destruct f; (eexists; split; [unfold SetUnhealthy; do 2 srun; change (failed_active _) with (failed_active se); rewrite Hf;
      cbn [negb]; eapply sg_run; [do 2 srun; cbn [numUnHealthy set_numHealthy set_numUnHealthy]; rewrite Hth; reflexivity|];
      do 2 srun; reflexivity|split_and!; done]).
Qed.

Lemma new_session_run flags : ∃ s0, sofa_newSession (bare_session flags, new_checker) = Ret (tt, s0) ∧
  s0.1 = set_timeoutTimer (Some newTimer) (set_intervalTimer (Some newTimer) (bare_session flags)) ∧
  callbacks s0.2 = [] ∧ attempt s0.2 = 0 ∧ success s0.2 = 0 ∧ failure s0.2 = 0.
Proof.
  unfold sofa_newSession, newHealthCheckSession. destruct (failed_active (bare_session flags)) eqn:Hfa;
    (eexists; split; [eapply sg_run; [srun; rewrite Hfa; reflexivity|]; reflexivity|done]).
Qed.
End steps.

(** ** Sessions *)

Section sessions.
  Context (cfg : hc_config) (U H : nat).
  Hypothesis (HU : unhealthyThreshold cfg = Z.of_nat U) (HH : healthyThreshold cfg = Z.of_nat H)
             (HU1 : (1 ≤ U)%nat) (HH1 : (1 ≤ H)%nat) (HU2 : Z.of_nat U < 2 ^ 32) (HH2 : Z.of_nat H < 2 ^ 32)
             (Hcode : protocolCode cfg = BOLT_V1).

  Abbreviation st := (session * checker_state)%type.

(** The counters of a session whose results were [l]. *)
Record counted (init : bool) (l : list bool) (s : st) : Prop := {
  ct_failed : failed_active s.1 = ref_failed U H init l;
  ct_unhealthy : failed_active s.1 = false → numUnHealthy s.1 = Z.of_nat (streak false l) ∧ (streak false l < U)%nat;
  ct_healthy : failed_active s.1 = true → numHealthy s.1 = Z.of_nat (streak true l) ∧ (streak true l < H)%nat;
  ct_callbacks : callbacks s.2 = ref_changes U H init l;
}.

(** What a success and a failure do to the counters. *)
Lemma success_counted init l s : counted init l s →
  let failed := failed_active s.1 in
  let n := to_uint32 (numHealthy s.1 + 1) in
  let flips := failed && bool_decide (n = healthyThreshold cfg) in
  ∀ s', numUnHealthy s'.1 = 0 → numHealthy s'.1 = (if failed then n else numHealthy s.1) →
  failed_active s'.1 = (if flips then false else failed) → callbacks s'.2 = (callbacks s.2 ++ [flips])%list →
  counted init (true :: l) s'.
Proof.
  intros [Hf Hu Hh Hc]. cbn zeta. intros s' E1 E2 E3 E4. destruct (failed_active s.1) eqn:Hfs; cbn [andb] in *.
  - destruct (Hh eq_refl) as [Hn Hlt]. rewrite Hn in *.
    assert (to_uint32 (Z.of_nat (streak true l) + 1) = Z.of_nat (S (streak true l))) as Hw
      by (unfold to_uint32; rewrite uwrap_id; [lia|unfold in_u; lia]). rewrite Hw in *. rewrite HH in *.
    assert (ref_failed U H init (true :: l) = negb (bool_decide (Z.of_nat (S (streak true l)) = Z.of_nat H))) as Hr.
    { cbn [ref_failed]. rewrite <- Hf. cbn [streak Bool.eqb]. f_equal. apply bool_decide_ext. lia. }
    split.
    + rewrite E3, Hr. by case_bool_decide.
    + rewrite E3. case_bool_decide; [intros _|done]. cbn. split; [done|lia].
    + rewrite E3, E2. case_bool_decide as Hd; [done|]. intros _. cbn. split; [done|lia].
    + cbn [ref_changes]. rewrite E4, Hc, Hr. f_equal. rewrite <- Hf. f_equal. by case_bool_decide.
  - destruct (Hu eq_refl) as [Hn Hlt].
    assert (ref_failed U H init (true :: l) = false) as Hr.
    { cbn [ref_failed]. rewrite <- Hf. cbn. apply bool_decide_false. lia. }
    split.
    + by rewrite E3, Hr.
    + intros _. cbn. split; [done|lia].
    + by rewrite E3.
    + cbn [ref_changes]. rewrite E4, Hc, Hr, <- Hf. done.
Qed.

Lemma failure_counted init l s : counted init l s →
  let failed := failed_active s.1 in
  let n := to_uint32 (numUnHealthy s.1 + 1) in
  let flips := negb failed && bool_decide (n = unhealthyThreshold cfg) in
  ∀ s', numHealthy s'.1 = 0 → numUnHealthy s'.1 = (if failed then numUnHealthy s.1 else n) →
  failed_active s'.1 = (if flips then true else failed) → callbacks s'.2 = (callbacks s.2 ++ [flips])%list →
  counted init (false :: l) s'.
Proof.
  intros [Hf Hu Hh Hc]. cbn zeta. intros s' E1 E2 E3 E4. destruct (failed_active s.1) eqn:Hfs; cbn [andb negb] in *.
  - destruct (Hh eq_refl) as [Hn Hlt].
    assert (ref_failed U H init (false :: l) = true) as Hr.
    { cbn [ref_failed]. rewrite <- Hf. cbn. rewrite bool_decide_false by lia. done. }
    split.
    + by rewrite E3, Hr.
    + by rewrite E3.
    + intros _. cbn. split; [done|lia].
    + cbn [ref_changes]. rewrite E4, Hc, Hr, <- Hf. done.
  - destruct (Hu eq_refl) as [Hn Hlt]. rewrite Hn in *.
    assert (to_uint32 (Z.of_nat (streak false l) + 1) = Z.of_nat (S (streak false l))) as Hw
      by (unfold to_uint32; rewrite uwrap_id; [lia|unfold in_u; lia]). rewrite Hw in *. rewrite HU in *.
    assert (ref_failed U H init (false :: l) = bool_decide (Z.of_nat (S (streak false l)) = Z.of_nat U)) as Hr.
    { cbn [ref_failed]. rewrite <- Hf. cbn [streak Bool.eqb]. apply bool_decide_ext. lia. }
    split.
    + rewrite E3, Hr. by case_bool_decide.
    + rewrite E3, E2. case_bool_decide as Hd; [done|]. intros _. cbn. split; [done|lia].
    + rewrite E3. case_bool_decide; [intros _|done]. cbn. split; [done|lia].
    + cbn [ref_changes]. rewrite E4, Hc, Hr. f_equal. rewrite <- Hf. f_equal. by case_bool_decide.
Qed.

Lemma handleSuccess_run init l s j t ti : counted init l s → timeoutTimer s.1 = Some t → intervalTimer s.1 = Some ti →
  ∃ s', handleSuccess cfg j s = Ret (tt, s') ∧ counted init (true :: l) s' ∧ same_link s s' ∧
    timeoutTimer s'.1 = Some (rt_stop t).1 ∧ stuck s'.1 = stuck s.1 || (rt_stop t).2 ∧
    intervalTimer s'.1 = Some (rt_start (getInterval cfg j) ti) ∧ success s'.2 = success s.2 + 1 ∧ failure s'.2 = failure s.2.
Proof.
  intros Hc Ht Hi. destruct s as [se ch]. cbn in Ht, Hi.
  pose proof (success_counted init l _ Hc) as Hn. cbn zeta in Hn. cbn [fst snd] in Hn.
  destruct (failed_active se) eqn:Hf; [destruct (bool_decide (to_uint32 (numHealthy se + 1) = healthyThreshold cfg)) eqn:Hth|];
    (eexists; split; [unfold handleSuccess; do 2 srun; change (failed_active _) with (failed_active se); rewrite Hf|]).
  - eapply sg_run; [do 2 srun; cbn [numHealthy set_numHealthy set_numUnHealthy]; rewrite Hth; do 2 srun; reflexivity|].
    do 2 srun. eapply rearm_run; [exact Ht|exact Hi].
  - split_and!; [apply Hn|..]; try done. apply failed_ldiff.
  - eapply sg_run; [do 2 srun; cbn [numHealthy set_numHealthy set_numUnHealthy]; rewrite Hth; reflexivity|].
    do 2 srun. eapply rearm_run; [exact Ht|exact Hi].
  - split_and!; [apply Hn|..]; done.
  - do 3 srun. eapply rearm_run; [exact Ht|exact Hi].
  - split_and!; [apply Hn|..]; done.
Qed.

Lemma SetUnhealthy_run init l s f : counted init l s →
  ∃ s', SetUnhealthy cfg f s = Ret (tt, s') ∧ counted init (false :: l) s' ∧ same_link s s' ∧
    timeoutTimer s'.1 = timeoutTimer s.1 ∧ stuck s'.1 = stuck s.1 ∧
    intervalTimer s'.1 = intervalTimer s.1 ∧ success s'.2 = success s.2 ∧ failure s'.2 = failure s.2 + 1.
Proof.
  intros Hc. destruct (SetUnhealthy_effect cfg s f) as (s' & E & H1 & H2 & H3 & H4 & H5). exists s'. split; [done|].
  split; [by apply (failure_counted init l s)|done].
Qed.

(** ** Rounds: a request is out, and is answered, times out or is reset; then the
    next one is sent *)

Inductive round := RReply (status : string) (rest : header_map) | RTimeout | RReset.
Definition round_ok (r : round) : bool :=
  match r with RReply v _ => bool_decide (to_int16 (ParseInt v 16) = RESPONSE_STATUS_SUCCESS) | _ => false end.

Definition run_round (r : round * Z) : SG st unit :=
  _ ← match r.1 with
      | RReply v rest => hc_OnReceiveHeaders cfg (<[SofaPropertyHeader HeaderRespStatus := v]> rest) true r.2
      | RTimeout => timeout_fires cfg r.2
      | RReset => hc_OnResetStream cfg r.2
      end;
  _ ← timeout_cancelled;
  interval_fires (sofa_onInterval cfg true r.2).
Fixpoint run_rounds (l : list (round * Z)) : SG st unit :=
  match l with [] => mret tt | r :: l => _ ← run_round r; run_rounds l end.

(** A request is out: the timeout runs, and nothing else. *)
Definition idle (t : reusable_timer) : Prop := rt_started t = false ∧ rt_stopped t = false ∧ rt_value t = false.
Definition running (t : reusable_timer) : Prop := rt_started t = true ∧ rt_stopped t = false ∧ rt_value t = false.
Record waiting (s : st) : Prop := {
  w_timeout : ∃ t, timeoutTimer s.1 = Some t ∧ running t;
  w_interval : ∃ t, intervalTimer s.1 = Some t ∧ idle t;
  w_client : client s.1 = true; w_reset : expectReset s.1 = false; w_stuck : stuck s.1 = false;
}.

(** After a result: the interval runs; the timeout is idle or about to end. *)
Record between (s : st) : Prop := {
  b_timeout : ∃ t, timeoutTimer s.1 = Some t ∧ (idle t ∨ rt_started t = true ∧ rt_stopped t = true ∧ rt_value t = true);
  b_interval : ∃ t, intervalTimer s.1 = Some t ∧ running t;
  b_link : client s.1 = true → expectReset s.1 = false; b_stuck : stuck s.1 = false;
}.

Lemma start_idle t i : idle t → running (rt_start i t).
Proof. intros (H1 & H2 & H3). unfold rt_start. rewrite H1. by split. Qed.
Lemma stop_running t : running t → rt_stop t = (mk_rt true true true (rt_interval t), false).
Proof. intros (H1 & H2 & H3). unfold rt_stop. by rewrite H2, H1, H3. Qed.

(** The next request is sent. *)
Lemma next_request init l s j : between s → counted init l s →
  ∃ s', (_ ← timeout_cancelled; interval_fires (sofa_onInterval cfg true j)) s = Ret (tt, s') ∧ waiting s' ∧ counted init l s' ∧
    requests s'.1 = S (requests s.1) ∧ attempt s'.2 = attempt s.2 + 1 ∧ success s'.2 = success s.2 ∧ failure s'.2 = failure s.2.
Proof.
  intros [(t & Ht & Hst) (ti & Hti & Hrun) Hlink Hstuck] [Hf Hu Hh Hcb]. destruct s as [se ch]. cbn in *.
  assert (idle (cancel t)) as Hidle.
  { unfold cancel. destruct Hst as [Hi|(H1 & H2 & H3)]; [destruct Hi as (H1 & H2 & H3)|]; rewrite H1, ?H3; by split. }
  destruct Hrun as (R1 & R2 & R3).
  destruct (client se) eqn:Hc.
  - eexists. split.
    { srun. unfold interval_fires. srun. cbn [intervalTimer set_timeoutTimer]. rewrite Hti. srun. rewrite R1.
      eapply sg_run; [unfold sofa_onInterval; srun; cbn [client set_timeoutTimer]; rewrite Hc; cbn [negb andb]; srun;
        rewrite bool_decide_true by done; srun; unfold base_onInterval, timeout_start;
        eapply sg_run; [srun; cbn [timeoutTimer set_timeoutTimer set_requests]; rewrite Ht; cbn [fmap option_fmap option_map]; srun; reflexivity|];
        reflexivity|]. reflexivity. }
    split_and!; cbn; try done; split; cbn; try done.
    + eexists. split; [done|]. by apply start_idle.
    + rewrite Hti. eexists. split; [done|]. by split.
    + by rewrite Hlink.
  - eexists. split.
    { srun. unfold interval_fires. srun. cbn [intervalTimer set_timeoutTimer]. rewrite Hti. srun. rewrite R1.
      eapply sg_run; [unfold sofa_onInterval; srun; cbn [client set_timeoutTimer]; rewrite Hc; cbn [negb andb]; srun;
        rewrite bool_decide_true by done; srun; unfold base_onInterval, timeout_start;
        eapply sg_run; [srun; cbn [timeoutTimer set_timeoutTimer set_requests set_expectReset set_client]; rewrite Ht;
          cbn [fmap option_fmap option_map]; srun; reflexivity|];
        reflexivity|]. reflexivity. }
    split_and!; cbn; try done; split; cbn; try done.
    + eexists. split; [done|]. by apply start_idle.
    + rewrite Hti. eexists. split; [done|]. by split.
Qed.

(** The result of a round. *)
Lemma result_run init l s r j : waiting s → counted init l s →
  ∃ s', match r with
        | RReply v rest => hc_OnReceiveHeaders cfg (<[SofaPropertyHeader HeaderRespStatus := v]> rest) true j
        | RTimeout => timeout_fires cfg j
        | RReset => hc_OnResetStream cfg j
        end s = Ret (tt, s') ∧ between s' ∧ counted init (round_ok r :: l) s' ∧ requests s'.1 = requests s.1 ∧
    attempt s'.2 = attempt s.2 ∧ success s'.2 = success s.2 + (if round_ok r then 1 else 0) ∧
    failure s'.2 = failure s.2 + (if round_ok r then 0 else 1).
Proof.
  intros [(t & Ht & Hrt) (ti & Hti & Hidle) Hcl Hre Hstuck] Hc. destruct s as [se ch]. cbn in Ht, Hti, Hcl, Hre, Hstuck.
  assert (∀ s1, timeoutTimer s1.1 = Some (rt_stop t).1 → intervalTimer s1.1 = Some (rt_start (getInterval cfg j) ti) →
    stuck s1.1 = stuck se || (rt_stop t).2 → expectReset s1.1 = expectReset se → between s1) as Hbt.
  { intros s1 H1 H2 H3 H4. rewrite (stop_running t Hrt) in *. split.
    - eexists. split; [exact H1|]. by right.
    - eexists. split; [exact H2|]. by apply start_idle.
    - by rewrite H4.
    - by rewrite H3, Hstuck. }
  assert (∀ s0 f, counted init l s0 → timeoutTimer s0.1 = Some t → intervalTimer s0.1 = Some ti → stuck s0.1 = stuck se →
    expectReset s0.1 = false →
    ∃ s', handleFailure cfg f j s0 = Ret (tt, s') ∧ between s' ∧ counted init (false :: l) s' ∧ same_link s0 s' ∧
      success s'.2 = success s0.2 ∧ failure s'.2 = failure s0.2 + 1) as Hfail.
  { intros [se0 ch0] f Hc0 H1 H2 H3 H4. destruct (SetUnhealthy_run init l _ f Hc0) as ([se1 ch1] & E & Hc1 & Hl & Ht1 & Hs1 & Hi1 & Hsu & Hfa).
    cbn in *. eexists. split; [unfold handleFailure; eapply sg_run; [exact E|]; apply rearm_run; [by rewrite Ht1|by rewrite Hi1]|].
    split_and!.
    - apply Hbt; cbn; [done|done|by rewrite Hs1, H3|]. destruct Hl as (_ & Hl & _). cbn in Hl. by rewrite Hl, H4, Hre.
    - destruct Hc1. by split.
    - by destruct Hl.
    - done.
    - done. }
  destruct r as [v rest| |]; cbn [round_ok].
  - set (z := to_int16 (ParseInt v 16)). set (se0 := set_responseStatus z se).
    assert (counted init l (se0, ch)) as Hc0 by by destruct Hc; split.
    unfold hc_OnReceiveHeaders. rewrite lookup_insert_eq. cbn [ConvertPropertyValue]. fold z.
    case_bool_decide as Hz.
    + destruct (handleSuccess_run init l (se0, ch) j t ti) as (s1 & E1 & Hc1 & Hl & H1 & H2 & H3 & H4 & H5); [done..|].
      exists (set_responseStatus (-1) s1.1, s1.2). split.
      { srun. fold se0. cbn [sg_when]. unfold onResponseComplete. srun. unfold isHealthCheckSucceeded.
        change (responseStatus se0) with z. rewrite bool_decide_true by done. eapply sg_run; [exact E1|]. reflexivity. }
      destruct Hl as (Hl1 & Hl2 & Hl3 & Hl4 & Hl5). split_and!; try done; [|by destruct Hc1; split|by cbn; rewrite H5; cbn; lia].
      destruct (Hbt s1) as [? ? ? ?]; [done|done|by rewrite H2|by rewrite Hl2|]. by split.
    + destruct (Hfail (se0, ch) FailureActive Hc0) as (s1 & E1 & Hb1 & Hc1 & Hl & H4 & H5); [done..|].
      exists (set_responseStatus (-1) s1.1, s1.2). split.
      { srun. fold se0. cbn [sg_when]. unfold onResponseComplete. srun. unfold isHealthCheckSucceeded.
        change (responseStatus se0) with z. rewrite bool_decide_false by done. eapply sg_run; [exact E1|]. reflexivity. }
      destruct Hl as (Hl1 & Hl2 & Hl3 & Hl4 & Hl5). split_and!; try done; [|by destruct Hc1; split|by cbn; rewrite H4; cbn; lia].
      destruct Hb1. by split.
  - set (se0 := set_client false (set_expectReset true se)).
    assert (counted init l (se0, ch)) as Hc0 by by destruct Hc; split.
    destruct (SetUnhealthy_run init l _ FailureNetwork Hc0) as ([se1 ch1] & E1 & Hc1 & Hl & Ht1 & Hs1 & Hi1 & Hsu & Hfa).
    destruct Hl as (Hl1 & Hl2 & Hl3 & Hl4 & Hl5). cbn in *. destruct Hrt as (R1 & R2 & R3).
    eexists. split.
    { unfold timeout_fires. srun. rewrite Ht. srun. rewrite R1. unfold onTimeout.
      eapply sg_run; [do 2 srun; change (client _) with (client se); rewrite Hcl; do 2 srun; fold se0; unfold base_onTimeout;
        eapply sg_run; [exact E1|]; unfold interval_start; srun; rewrite Hi1, Hti; srun; reflexivity|]. reflexivity. }
    split_and!; cbn; try done; [|by destruct Hc1; split|by cbn; rewrite Hsu; lia].
    split; cbn.
    + rewrite Ht1, Ht. eexists. split; [done|]. by left.
    + eexists. split; [done|]. by apply start_idle.
    + by rewrite Hl1.
    + by rewrite Hs1.
  - destruct (Hfail (se, ch) FailureNetwork Hc) as (s1 & E1 & Hb1 & Hc1 & Hl & H4 & H5); [done..|].
    exists s1. destruct Hl as (Hl1 & Hl2 & Hl3 & Hl4 & Hl5). split_and!; try done; [|by cbn; rewrite H4; cbn; lia].
    unfold hc_OnResetStream. srun. rewrite Hre. exact E1.
Qed.

Lemma rounds_run rs init l s : waiting s → counted init l s →
  ∃ s', run_rounds rs s = Ret (tt, s') ∧ waiting s' ∧ counted init (reverse (round_ok <$> rs.*1) ++ l) s' ∧
    requests s'.1 = (length rs + requests s.1)%nat ∧ attempt s'.2 = attempt s.2 + Z.of_nat (length rs) ∧
    success s'.2 + failure s'.2 = success s.2 + failure s.2 + Z.of_nat (length rs).
Proof.
  revert l s. induction rs as [|[r j] rs IH]; intros l s Hw Hc.
  { exists s. split_and!; cbn; try done; lia. }
  destruct (result_run init l s r j Hw Hc) as (s1 & E1 & Hb & Hc1 & Hr1 & Ha1 & Hs1 & Hf1).
  destruct (next_request init _ s1 j Hb Hc1) as (s2 & E2 & Hw2 & Hc2 & Hr2 & Ha2 & Hs2 & Hf2).
  destruct (IH _ s2 Hw2 Hc2) as (s3 & E3 & Hw3 & Hc3 & Hr3 & Ha3 & Hs3). exists s3. split_and!; cbn [length]; try done.
  - cbn [run_rounds]. eapply sg_run; [unfold run_round; cbn [fst snd]; eapply sg_run; [exact E1|]; exact E2|]. exact E3.
  - rewrite !fmap_cons, reverse_cons, <- app_assoc. exact Hc3.
  - rewrite Hr3, Hr2, Hr1. lia.
  - rewrite Ha3, Ha2, Ha1. lia.
  - rewrite Hs3, Hs2, Hf2, Hs1, Hf1. destruct (round_ok r); lia.
Qed.

(** C13. A session that gets a connection checks its host for ever and by the
    thresholds: through any rounds of replies, timeouts and resets it sends one
    request per round and has the next one out, its host is marked as failed
    exactly when the last [U] results were failures, and no longer when the
    last [H] were successes, and the callbacks are told exactly the results
    that changed that. *)
Theorem rounds_follow_thresholds flags rs j :
  let init := bool_decide (0 < Z.land flags FAILED_ACTIVE_HC) in
  let results := reverse (round_ok <$> rs.*1) in
  ∃ s, (_ ← sofa_newSession; _ ← sofa_onInterval cfg true j; run_rounds rs) (bare_session flags, new_checker) = Ret (tt, s) ∧
    waiting s ∧ failed_active s.1 = ref_failed U H init results ∧ callbacks s.2 = ref_changes U H init results ∧
    requests s.1 = S (length rs) ∧ attempt s.2 = Z.of_nat (S (length rs)) ∧
    success s.2 + failure s.2 = Z.of_nat (length rs).
Proof.
  cbn zeta. set (init := bool_decide _).
  destruct (new_session_run flags) as (s0 & E0 & H0 & Hcb & Ha & Hs & Hf).
  destruct s0 as [se0 ch0]. cbn in H0, Hcb, Ha, Hs, Hf. subst se0.
  set (s1 := (set_timeoutTimer (Some (rt_start (getTimeoutDuration cfg) newTimer)) (set_requests 1 (set_expectReset false (set_client true
    (set_timeoutTimer (Some newTimer) (set_intervalTimer (Some newTimer) (bare_session flags)))))), set_attempt (attempt ch0 + 1) ch0)).
  assert (waiting s1) as Hw.
  { split; cbn; try done; by eexists. }
  assert (counted init [] s1) as Hc.
  { split; cbn; try done; intros _; (split; [done|lia]). }
  destruct (rounds_run rs init [] s1 Hw Hc) as (s & E & Hw' & [Hf' _ _ Hcb'] & Hr & Ha' & Hsf). rewrite app_nil_r in *.
  exists s. split_and!; try done.
  - eapply sg_run; [exact E0|]. eapply sg_run; [|exact E]. unfold sofa_onInterval. srun. cbn [client].
    srun. rewrite bool_decide_true by done. do 2 srun. reflexivity.
  - rewrite Hr. cbn. lia.
  - rewrite Ha'. cbn. lia.
  - rewrite Hsf. cbn. lia.
Qed.
End sessions.

(** ** Sessions that stop *)

Section stops.
  Context (cfg : hc_config).
  Abbreviation st := (session * checker_state)%type.

(** What can still happen to a session: its timers. *)
Inductive timer_event := EInterval (connected : bool) (j : Z) | ETimeout (j : Z) | EIntervalCancelled | ETimeoutCancelled.
Definition run_event (e : timer_event) : SG st unit :=
  match e with
  | EInterval c j => interval_fires (sofa_onInterval cfg c j)
  | ETimeout j => timeout_fires cfg j
  | EIntervalCancelled => interval_cancelled
  | ETimeoutCancelled => timeout_cancelled
  end.
Fixpoint run_events (l : list timer_event) : SG st unit :=
  match l with [] => mret tt | e :: l => _ ← run_event e; run_events l end.

Lemma cancel_stopped t : rt_started t = false → cancel t = t.
Proof. intros Ht. unfold cancel. by rewrite Ht. Qed.

Lemma session_eta se : set_timeoutTimer (timeoutTimer se) se = se ∧ set_intervalTimer (intervalTimer se) se = se.
Proof. by destruct se. Qed.

Lemma stopped_for_ever l s t ti : timeoutTimer s.1 = Some t → intervalTimer s.1 = Some ti →
  rt_started t = false → rt_started ti = false → run_events l s = Ret (tt, s).
Proof.
  intros Ht Hi H1 H2. induction l as [|e l IH]; [done|]. cbn [run_events]. eapply sg_run; [|exact IH].
  destruct s as [se ch]. cbn in Ht, Hi. destruct (session_eta se) as [E1 E2].
  destruct e; cbn [run_event].
  - unfold interval_fires. srun. rewrite Hi. srun. by rewrite H2.
  - unfold timeout_fires. srun. rewrite Ht. srun. by rewrite H1.
  - unfold interval_cancelled, mod_ses, sg_modify. cbn [fst snd]. rewrite Hi. cbn. rewrite cancel_stopped by done. by rewrite <- Hi, E2.
  - unfold timeout_cancelled, mod_ses, sg_modify. cbn [fst snd]. rewrite Ht. cbn. rewrite cancel_stopped by done. by rewrite <- Ht, E1.
Qed.

Lemma failed_connection s j t ti : client s.1 = false → timeoutTimer s.1 = Some t → intervalTimer s.1 = Some ti →
  ∃ s', sofa_onInterval cfg false j s = Ret (tt, s') ∧ client s'.1 = false ∧ requests s'.1 = requests s.1 ∧
    timeoutTimer s'.1 = Some (rt_stop t).1 ∧ intervalTimer s'.1 = Some (rt_start (getInterval cfg j) ti) ∧
    numUnHealthy s'.1 = (if failed_active s.1 then numUnHealthy s.1 else to_uint32 (numUnHealthy s.1 + 1)) ∧
    failed_active s'.1 = failed_active s.1 || bool_decide (to_uint32 (numUnHealthy s.1 + 1) = unhealthyThreshold cfg).
Proof.
  intros Hc Ht Hi. destruct (SetUnhealthy_effect cfg s FailureActive) as ([se1 ch1] & E & _ & Hn & Hf & _ & (Hl1 & _ & Hl3 & _) & Ht1 & _ & Hi1 & _).
  eexists. split.
  { unfold sofa_onInterval. srun. rewrite Hc. cbn [negb andb]. unfold handleFailure. eapply sg_run; [exact E|].
    apply rearm_run; cbn in *; by rewrite ?Ht1, ?Hi1. }
  cbn in *. split_and!; try done; [by rewrite Hl1|]. etrans; [exact Hf|].
  by destruct (failed_active s.1), (bool_decide _).
Qed.

(** A host that cannot be connected to twice is never checked again.  The
    second failure is handled by the callback of the interval timer, which is
    still marked as started then, so it is not started again: no timer runs,
    whatever happens.  The host is marked as failed if the threshold is 1 or 2
    and is then never brought back; otherwise it is never marked. *)
Theorem unreachable_host_check_stops flags j1 j2 :
  Z.land flags FAILED_ACTIVE_HC = 0 →
  ∃ s, (_ ← sofa_newSession; _ ← sofa_onInterval cfg false j1; run_event (EInterval false j2)) (bare_session flags, new_checker)
      = Ret (tt, s) ∧
    failed_active s.1 = bool_decide (unhealthyThreshold cfg = 1 ∨ unhealthyThreshold cfg = 2) ∧
    requests s.1 = 0%nat ∧ client s.1 = false ∧ ∀ l, run_events l s = Ret (tt, s).
Proof.
  intros Hfl.
  assert (failed_active (bare_session flags) = false) as Hb by (unfold failed_active; cbn; by rewrite Hfl).
  destruct (new_session_run flags) as ([se0 ch0] & E0 & Hs0 & _). cbn in Hs0. subst se0.
  set (s0 := (_, ch0)) in E0. destruct (failed_connection s0 j1 newTimer newTimer) as (s1 & E1 & Hc1 & Hr1 & Ht1 & Hi1 & Hn1 & Hf1); [done..|].
  change (failed_active s0.1) with (failed_active (bare_session flags)) in *. change (numUnHealthy s0.1) with 0 in *.
  rewrite Hb in *. cbn in Ht1, Hi1, Hn1, Hf1.
  destruct (failed_connection s1 j2 _ _ Hc1 Ht1 Hi1) as (s2 & E2 & Hc2 & Hr2 & Ht2 & Hi2 & Hn2 & Hf2). cbn in Ht2, Hi2.
  exists (set_intervalTimer (rt_done <$> intervalTimer s2.1) s2.1, s2.2). split_and!.
  - eapply sg_run; [exact E0|]. eapply sg_run; [exact E1|]. cbn [run_event]. unfold interval_fires. srun. rewrite Hi1. srun.
    cbn [rt_started]. eapply sg_run; [exact E2|]. reflexivity.
  - etrans; [exact Hf2|]. rewrite Hf1, Hn1. change (to_uint32 (0 + 1)) with 1. change (to_uint32 (1 + 1)) with 2.
    destruct (decide (unhealthyThreshold cfg = 1)) as [HU1|HU1].
    + rewrite HU1. by rewrite !bool_decide_true by auto.
    + rewrite (bool_decide_false (1 = _)) by congruence. cbn [orb]. apply bool_decide_ext. lia.
  - cbn. by rewrite Hr2, Hr1.
  - done.
  - intros l. eapply stopped_for_ever; cbn; [exact Ht2|by rewrite Hi2|done|done].
Qed.
End stops.

(** ** Witnesses *)

Definition sample_cfg : hc_config := mk_hcc 2 3 1000 5000 0 BOLT_V1.
Definition ok_reply : round := RReply "0" ∅.

Lemma rounds_follow_thresholds_witness :
  ∃ s, (_ ← sofa_newSession; _ ← sofa_onInterval sample_cfg true 0;
      run_rounds sample_cfg [(RTimeout, 0); (RReset, 0); (RTimeout, 0); (ok_reply, 0); (ok_reply, 0)])
      (bare_session 0, new_checker) = Ret (tt, s) ∧
    callbacks s.2 = [false; false; true; false; true] ∧ failed_active s.1 = false.
Proof.
  destruct (rounds_follow_thresholds sample_cfg 3 2) with (flags := 0) (j := 0)
    (rs := [(RTimeout, 0); (RReset, 0); (RTimeout, 0); (ok_reply, 0); (ok_reply, 0)])
    as (s & E & _ & Hf & Hc & _); [done|done|lia|lia|lia|lia|done|].
  exists s. split; [exact E|]. rewrite Hc, Hf. split; vm_compute; reflexivity.
Defined.

Lemma unreachable_host_check_stops_witness :
  ∃ s, (_ ← sofa_newSession; _ ← sofa_onInterval sample_cfg false 0; run_event sample_cfg (EInterval false 0))
      (bare_session 0, new_checker) = Ret (tt, s) ∧ failed_active s.1 = false ∧
    ∀ l, run_events sample_cfg l s = Ret (tt, s).
Proof.
  destruct (unreachable_host_check_stops sample_cfg 0 0 0) as (s & E & Hf & _ & _ & Hl); [reflexivity|].
  exists s. split_and!; [exact E|by rewrite Hf|exact Hl].
Defined.

(** ** Runs of the code that do not check *)

(** The session of a healthy host takes one off the healthy hosts: the gauge
    says -1 while the host is healthy. *)
Example healthy_host_counted_down :
  (_ ← sofa_newSession; chk healthy_gauge) (bare_session 0, new_checker) =
    Ret (-1, (set_timeoutTimer (Some newTimer) (set_intervalTimer (Some newTimer) (bare_session 0)),
              set_healthy_gauge (-1) (set_localProcessHealthy (2 ^ 64 - 1) new_checker))).
Proof. reflexivity. Qed.

(** The sessions of the HTTP/2 checker have no timers. *)
Example http2_check_panics cfg c j :
  (_ ← checker_newSession HTTP2Checker; session_Start cfg HTTP2Checker c j) (bare_session 0, new_checker) = Panic NilDeref.
Proof. reflexivity. Qed.

(** With a protocol code in the configuration nothing is sent and no timer starts. *)
Lemma configured_code_never_checks healthy unhealthy timeout interval jitter code j l : code ≠ 0 →
  let cfg := newSofaRPCHealthChecker healthy unhealthy timeout interval jitter code in
  ∃ s, (_ ← sofa_newSession; _ ← session_Start cfg SofaChecker true j; run_events cfg l) (bare_session 0, new_checker) = Ret (tt, s) ∧
    requests s.1 = 0%nat ∧ attempt s.2 = 0.
Proof.
  intros Hc cfg. eexists. split.
  { eapply sg_run; [reflexivity|]. eapply sg_run; [cbn [session_Start]; unfold sofa_onInterval, cfg, newSofaRPCHealthChecker; do 2 srun;
      cbn [protocolCode]; rewrite (bool_decide_false (code = 0)) by done; reflexivity|].
    cbn -[run_events]. eapply (stopped_for_ever _ _ _ newTimer newTimer); reflexivity. }
  done.
Qed.

(** After a first connection that failed, the timeout's channel holds a value
    that no goroutine has read: the goroutine of the next request's timeout
    finds it and ends, and a request that gets no answer is never given up. *)
Lemma stale_stop_ends_timeout j : ∃ s,
  (_ ← sofa_newSession; _ ← sofa_onInterval sample_cfg false j;
   run_events sample_cfg [EInterval true j; ETimeoutCancelled]) (bare_session 0, new_checker) = Ret (tt, s) ∧
  requests s.1 = 1%nat ∧ ∀ l, run_events sample_cfg l s = Ret (tt, s).
Proof.
  eexists. split; [vm_compute; reflexivity|]. split; [reflexivity|]. intros l. eapply stopped_for_ever; reflexivity.
Qed.
