(* ===== verification/AccessLog.v ===== *)
(** * Access logs: pkg/log/accesslog.go

    A format is a list of keys between percent signs, separated by single
    spaces: of the request's information, of request headers (REQ.) or of
    response headers (RESP.).  [requestInfo] is that of the proxy; no setter
    exists for its protocol and its response code, which stay empty and 0.

    Times are nanoseconds.  The calendar of the local time zone is the parameter
    [civil]; what is printed of it is Go's, as are durations ([GoTime]). *)

From S2P Require Import Prelude Strconv GoTime GoStrings Serialize BoltTypes ProxyState.
From Stdlib Require Import Ascii.

Local Open Scope Z_scope.

(** ** Times *)

(** [n] digits of [v] with zeros in front. *)
Fixpoint padded (n : nat) (v : Z) : string :=
  match n with O => EmptyString | S n => padded n (v / 10) +:+ FormatUint (v mod 10) end.
(** [Format("2006-01-02 15:04:05.999 +800")] of a time: milliseconds without the
    zeros at the end; the last part is no verb and is printed as it is. *)
Record calendar := mk_cal { year : Z; month : Z; day : Z; hour : Z; minute : Z; sec : Z; nano : Z }.
Definition time_Format (c : calendar) : string :=
  let '(ms, _) := fmtFrac 3 (nano c / 1000000) in
  (padded 4 (year c) +:+ "-" +:+ padded 2 (month c) +:+ "-" +:+ padded 2 (day c) +:+ " " +:+
   padded 2 (hour c) +:+ ":" +:+ padded 2 (minute c) +:+ ":" +:+ padded 2 (sec c) +:+ ms +:+ " +800")%string.

(** ** What can be printed of a request *)

Section accesslog.
  Context (civil : Z → calendar).

Definition StartTimeGetter (info : requestInfo) : string := time_Format (civil (startTime info)).
Definition ReceivedDurationGetter (info : requestInfo) : string := duration_String (requestReceivedDuration info).
Definition ResponseReceivedDurationGetter (info : requestInfo) : string := duration_String (responseReceivedDuration info).
Definition BytesSentGetter (info : requestInfo) : string := FormatUint (bytesSent info).
Definition BytesReceivedGetter (info : requestInfo) : string := FormatUint (bytesReceived info).
Definition ProtocolGetter (info : requestInfo) : string := EmptyString.
Definition ResponseCodeGetter (info : requestInfo) : string := FormatUint 0.
Definition DurationGetter (now : Z) (info : requestInfo) : string := duration_String (time_Sub now (startTime info)).
Definition GetResponseFlagGetter (info : requestInfo) : string := if GetResponseFlag 0 info then "true"%string else "false"%string.
Definition or_nil (o : option string) : string := default "nil"%string o.
Definition UpstreamLocalAddressGetter (info : requestInfo) : string := or_nil (localAddress info).
Definition DownstreamLocalAddressGetter (info : requestInfo) : string := or_nil (downstreamLocalAddress info).
Definition DownstreamRemoteAddressGetter (info : requestInfo) : string := or_nil (downstreamRemoteAddress info).
Definition UpstreamHostSelectedGetter (info : requestInfo) : string := or_nil (upstreamHost info).

(** [now] is the time at which the line is made. *)
Definition RequestInfoFuncMap (now : Z) : gmap string (requestInfo → string) := list_to_map [
  ("StartTime"%string, StartTimeGetter);
  ("RequestReceivedDuration"%string, ReceivedDurationGetter);
  ("ResponseReceivedDuration"%string, ResponseReceivedDurationGetter);
  ("BytesSent"%string, BytesSentGetter);
  ("BytesReceived"%string, BytesReceivedGetter);
  ("Protocol"%string, ProtocolGetter);
  ("ResponseCode"%string, ResponseCodeGetter);
  ("Duration"%string, DurationGetter now);
  ("ResponseFlag"%string, GetResponseFlagGetter);
  ("UpstreamLocalAddress"%string, UpstreamLocalAddressGetter);
  ("DownstreamLocalAddress"%string, DownstreamLocalAddressGetter);
  ("DownstreamRemoteAddress"%string, DownstreamRemoteAddressGetter);
  ("UpstreamHostSelected"%string, UpstreamHostSelectedGetter)].

Definition ReqHeaderPrefix : string := "REQ.".
Definition RespHeaderPrefix : string := "RESP.".
Definition DefaultAccessLogFormat : string :=
  "%StartTime% %RequestReceivedDuration% %ResponseReceivedDuration% %BytesSent% %BytesReceived% %Protocol% %ResponseCode% %Duration% %ResponseFlag% %ResponseCode% %UpstreamLocalAddress% %DownstreamLocalAddress% %DownstreamRemoteAddress% %UpstreamHostSelected%".

(** ** Formatters *)

(** The keys of the three formatters; none is a nil slice. *)
Inductive AccessLogFormatter :=
  | simpleRequestInfoFormatter (reqInfoFormat : list string)
  | simpleReqHeadersFormatter (reqHeaderFormat : list string)
  | simpleRespHeadersFormatter (respHeaderFormat : list string).

(** A field without its first and last character; on fewer than two the slice
    expression panics. *)
Definition strip_percents (s : string) : Go string :=
  if bool_decide (slen s < 2)%nat then Panic SliceBounds else Ret (str_take (slen s - 2) (str_drop 1 s)).
Fixpoint strip_all (l : list string) : Go (list string) :=
  match l with [] => Ret [] | s :: l => s ← strip_percents s; l ← strip_all l; Ret (s :: l) end.

(** One pass over the keys; then the prefixes are cut off. *)
Fixpoint classify (l : list string) : list string * list string * list string :=
  match l with
  | [] => ([], [], [])
  | s :: l =>
    let '(info, req, resp) := classify l in
    if HasPrefix s ReqHeaderPrefix then (info, s :: req, resp)
    else if HasPrefix s RespHeaderPrefix then (info, req, s :: resp)
    else (s :: info, req, resp)
  end.

Definition formatToFormatter (format : string) : Go (list AccessLogFormatter) :=
  strArray ← strip_all (Split format " "%char);
  let '(info, req, resp) := classify strArray in
  Ret [simpleRequestInfoFormatter info;
       simpleReqHeadersFormatter (str_drop (slen ReqHeaderPrefix) <$> req);
       simpleRespHeadersFormatter (str_drop (slen RespHeaderPrefix) <$> resp)].

Definition NewAccessLogFormatter (format : string) : Go (list AccessLogFormatter) :=
  formatToFormatter (if bool_decide (format = EmptyString) then DefaultAccessLogFormat else format).

(** The values that are there, each followed by a space. *)
Fixpoint write_values (value : string → option string) (keys : list string) : string :=
  match keys with
  | [] => EmptyString
  | k :: keys =>
    match value k with
    | Some v => (v +:+ " " +:+ write_values value keys)%string
    | None => write_values value keys
    end
  end.

(** A nil header map has no entries. *)
Definition reqInfo_Format (keys : list string) (now : Z) (info : requestInfo) : string :=
  write_values (λ k, (λ g, g info) <$> RequestInfoFuncMap now !! k) keys.
Definition reqHeaders_Format (keys : list string) (reqHeaders : option header_map) : string :=
  write_values (λ k, String.append ReqHeaderPrefix <$> (reqHeaders ≫= lookup k)) keys.
Definition respHeaders_Format (keys : list string) (respHeaders : option header_map) : string :=
  write_values (λ k, String.append RespHeaderPrefix <$> (respHeaders ≫= lookup k)) keys.
Definition formatter_Format (f : AccessLogFormatter) (now : Z) (reqHeaders respHeaders : option header_map) (info : requestInfo) : string :=
  match f with
  | simpleRequestInfoFormatter keys => reqInfo_Format keys now info
  | simpleReqHeadersFormatter keys => reqHeaders_Format keys reqHeaders
  | simpleRespHeadersFormatter keys => respHeaders_Format keys respHeaders
  end.

Fixpoint format_all (fs : list AccessLogFormatter) (now : Z) (reqHeaders respHeaders : option header_map) (info : requestInfo) : string :=
  match fs with
  | [] => EmptyString
  | f :: fs => (formatter_Format f now reqHeaders respHeaders info +:+ format_all fs now reqHeaders respHeaders info)%string
  end.
(** The last space is cut off. *)
Definition accesslog_Format (fs : list AccessLogFormatter) (now : Z) (reqHeaders respHeaders : option header_map) (info : requestInfo) : string :=
  let log := format_all fs now reqHeaders respHeaders info in
  if bool_decide (0 < slen log)%nat then str_take (slen log - 1) log else log.

(** A log with the lines it has printed; its filter may be nil. *)
Record accesslog := mk_accesslog {
  al_decide : option (option header_map → requestInfo → bool); al_formatter : list AccessLogFormatter; al_lines : list string;
}.
Definition NewAccessLog (decide_ : option (option header_map → requestInfo → bool)) (format : string) : Go accesslog :=
  fs ← NewAccessLogFormatter format; Ret (mk_accesslog decide_ fs []).
Definition Log (l : accesslog) (now : Z) (reqHeaders respHeaders : option header_map) (info : requestInfo) : accesslog :=
  if match al_decide l with Some f => negb (f reqHeaders info) | None => false end then l
  else mk_accesslog (al_decide l) (al_formatter l) (al_lines l ++ [accesslog_Format (al_formatter l) now reqHeaders respHeaders info])%list.
End accesslog.
