(* ===== verification/AccessLogProps.v ===== *)
(** * Theorems on [AccessLog]

    What is printed for which format. *)

From S2P Require Import Prelude Strconv GoStrings Serialize BoltTypes ProxyState GoTime AccessLog.
From Stdlib Require Import Ascii.

Local Open Scope Z_scope.

Example durations : duration_String 0 = "0s"%string ∧ duration_String 1 = "1ns"%string ∧ duration_String 1100000 = "1.1ms"%string ∧
  duration_String 2200000000 = "2.2s"%string ∧ duration_String (3 * 60 * 1000000000 + 300000000) = "3m0.3s"%string ∧
  duration_String (4 * 3600 * 1000000000 + 5 * 60 * 1000000000 + 1000000) = "4h5m0.001s"%string ∧ duration_String (- 1500000000) = "-1.5s"%string.
Proof. vm_compute. done. Qed.
Example times : time_Format (mk_cal 2018 7 9 3 4 5 120000000) = "2018-07-09 03:04:05.12 +800"%string.
Proof. vm_compute. done. Qed.

(** ** Reading a format *)

Definition fields (format : string) : list string :=
  Split (if bool_decide (format = EmptyString) then DefaultAccessLogFormat else format) " "%char.
(** What is between the percent signs. *)
Definition key (field : string) : string := str_take (slen field - 2) (str_drop 1 field).

Definition is_req (k : string) : bool := HasPrefix k ReqHeaderPrefix.
Definition is_resp (k : string) : bool := negb (is_req k) && HasPrefix k RespHeaderPrefix.
Definition is_info (k : string) : bool := negb (is_req k) && negb (HasPrefix k RespHeaderPrefix).

Lemma classify_filter l : classify l = (filter (λ k, is_info k = true) l, filter (λ k, is_req k = true) l, filter (λ k, is_resp k = true) l).
Proof.
  induction l as [|k l IH]; cbn [classify]; [done|]. rewrite IH, !filter_cons. unfold is_info, is_resp, is_req.
  destruct (HasPrefix k ReqHeaderPrefix), (HasPrefix k RespHeaderPrefix); reflexivity.
Qed.

Lemma strip_all_ok l : Forall (λ f, 2 ≤ slen f)%nat l → strip_all l = Ret (key <$> l).
Proof.
  induction 1 as [|f l Hf _ IH]; cbn [strip_all]; [done|]. unfold strip_percents. rewrite bool_decide_false by lia. rewrite bind_Ret, IH. done.
Qed.
Lemma strip_all_panics l : Exists (λ f, slen f < 2)%nat l → strip_all l = Panic SliceBounds.
Proof.
  induction 1 as [f l Hf|f l _ IH]; cbn [strip_all]; unfold strip_percents; [by rewrite bool_decide_true|]. case_bool_decide; [done|]. by rewrite bind_Ret, IH.
Qed.

(** ** Writing a line *)

Section line.
  Context (civil : Z → calendar) (now : Z) (req resp : option header_map) (info : requestInfo).

Definition info_value (k : string) : option string := (λ g, g info) <$> RequestInfoFuncMap civil now !! k.
Definition req_value (k : string) : option string := String.append ReqHeaderPrefix <$> (req ≫= lookup k).
Definition resp_value (k : string) : option string := String.append RespHeaderPrefix <$> (resp ≫= lookup k).

(** Everything that has a value: information, then request headers, then response
    headers, each in the order of the format. *)
Definition line_values (format : string) : list string :=
  let keys := key <$> fields format in
  omap info_value (filter (λ k, is_info k = true) keys) ++
  omap (req_value ∘ str_drop (slen ReqHeaderPrefix)) (filter (λ k, is_req k = true) keys) ++
  omap (resp_value ∘ str_drop (slen RespHeaderPrefix)) (filter (λ k, is_resp k = true) keys).

Fixpoint spaced (l : list string) : string := match l with [] => EmptyString | v :: l => (v +:+ " " +:+ spaced l)%string end.

Lemma write_values_spaced value keys : write_values value keys = spaced (omap value keys).
Proof. induction keys as [|k keys IH]; [done|]. cbn. destruct (value k); cbn; by rewrite IH. Qed.
Lemma omap_map {A B C} (f : B → option C) (g : A → B) (l : list A) : omap f (g <$> l) = omap (f ∘ g) l.
Proof. induction l as [|x l IH]; [done|]. cbn. destruct (f (g x)); by rewrite IH. Qed.
Lemma str_take_app (s t : string) : str_take (slen s) (s +:+ t)%string = s.
Proof. induction s as [|c s IH]; [by destruct t|]. exact (f_equal (String.String c) IH). Qed.
Lemma spaced_app l k : spaced (l ++ k) = (spaced l +:+ spaced k)%string.
Proof. induction l as [|v l IH]; [done|]. cbn [app spaced]. by rewrite IH, !str_app_assoc. Qed.
Lemma spaced_concat l : l ≠ [] → spaced l = (String.concat " " l +:+ " ")%string.
Proof.
  induction l as [|v [|v' l] IH]; [done|..]; intros _; [cbn; by rewrite ?str_app_nil|].
  change (spaced (v :: v' :: l)) with (v +:+ " " +:+ spaced (v' :: l))%string. rewrite IH by done.
  change (String.concat " " (v :: v' :: l)) with (v +:+ " " +:+ String.concat " " (v' :: l))%string. by rewrite !str_app_assoc.
Qed.

(** Without the space at its end. *)
Lemma cut_spaced l : (if bool_decide (0 < slen (spaced l))%nat then str_take (slen (spaced l) - 1) (spaced l) else spaced l) = String.concat " " l.
Proof.
  destruct l as [|v l]; [done|]. rewrite spaced_concat by done. rewrite slen_app. cbn [slen String.length].
  rewrite bool_decide_true by lia. replace (_ - 1)%nat with (slen (String.concat " " (v :: l))) by lia. apply str_take_app.
Qed.

(** C36. The line of an access log.  A format all of whose fields, separated by single
    spaces, have at least two characters is accepted; the line for a request is then
    the values of the fields that have one, joined by single spaces: first the
    information on the request, then its headers, then those of the response.  A
    format with a shorter field, such as two spaces in a row, panics. *)
Theorem access_log_line format :
  match NewAccessLogFormatter format with
  | Ret fs => Forall (λ f, 2 ≤ slen f)%nat (fields format) ∧ accesslog_Format civil fs now req resp info = String.concat " " (line_values format)
  | Panic p => Exists (λ f, slen f < 2)%nat (fields format) ∧ p = SliceBounds
  end.
Proof.
  unfold NewAccessLogFormatter, formatToFormatter. fold (fields format). destruct (decide (Forall (λ f, 2 ≤ slen f)%nat (fields format))) as [Hf|Hf].
  - rewrite strip_all_ok by done. rewrite bind_Ret, classify_filter. split; [done|].
    unfold accesslog_Format. cbn [format_all formatter_Format]. unfold reqInfo_Format, reqHeaders_Format, respHeaders_Format. rewrite !write_values_spaced, str_app_nil, <- !spaced_app.
    rewrite cut_spaced. unfold line_values. by rewrite !omap_map.
  - apply not_Forall_Exists in Hf; [|apply _]. assert (Exists (λ f, slen f < 2)%nat (fields format)) as He.
    { eapply Exists_impl; [exact Hf|]. intros f. cbn. lia. }
    by rewrite strip_all_panics.
Qed.
End line.

(** ** Examples *)

Definition demo_calendar (t : Z) : calendar := mk_cal 2018 7 9 3 4 5 120000000.
Definition demo_info : requestInfo := SetBytesSent 42 (SetDownstreamAddresses "10.0.0.2:2045" "10.0.0.3:4000" (NewRequestInfo 0)).
Definition log_line (format : string) (req resp : header_map) : option string :=
  match NewAccessLogFormatter format with
  | Ret fs => Some (accesslog_Format demo_calendar fs 1500000 (Some req) (Some resp) demo_info)
  | Panic _ => None
  end.

(** Headers come last, whatever the format says, and without their names; unknown keys
    and missing headers are left out. *)
Example headers_last : log_line "%REQ.service% %BytesSent% %Nope% %RESP.status% %REQ.none% %Duration%" {["service"%string := "orders"%string]}
    {["status"%string := "200"%string]} = Some "42 1.5ms REQ.orders RESP.200"%string.
Proof. vm_compute. reflexivity. Qed.
(** The protocol, the response code and the response flag are always the same. *)
Example constant_fields : log_line "%Protocol% %ResponseCode% %ResponseFlag%" ∅ ∅ = Some " 0 false"%string ∧
  ∀ info, ProtocolGetter info = EmptyString ∧ ResponseCodeGetter info = "0"%string ∧ GetResponseFlagGetter info = "false"%string.
Proof.
  split; [vm_compute; reflexivity|]. intros info. split_and!; [done..|]. unfold GetResponseFlagGetter, GetResponseFlag.
  rewrite Z.land_0_r. reflexivity.
Qed.
Example two_spaces_panic : log_line "%BytesSent%  %Duration%" ∅ ∅ = None.
Proof. vm_compute. reflexivity. Qed.
Example default_line : log_line "" ∅ ∅ =
  Some "2018-07-09 03:04:05.12 +800 0s 0s 42 0  0 1.5ms false 0 nil 10.0.0.2:2045 10.0.0.3:4000 nil"%string.
Proof. vm_compute. reflexivity. Qed.
