(* ===== verification/Logger.v ===== *)
(** * Loggers: pkg/log (logger.go, roller.go)

    All loggers that were made are in [lg_all], and a pointer to one is its place; the
    first is [StartLogger].  A write is a line in [lg_written], with the writer it goes
    to; the time in front of a line is left out, and arguments are formatted already.
    Files, the syslog and the working directory are a [log_env]. *)

From S2P Require Import Prelude Strconv GoStrings StateGo.

Local Open Scope Z_scope.

(** ** Rollers *)

Record Roller := mk_roller { ro_Filename : string; ro_MaxSize : Z; ro_MaxAge : Z; ro_MaxBackups : Z; ro_Compress : bool; ro_LocalTime : bool }.
Definition DefaultRoller : Roller := mk_roller "" 100 14 10 false true.

Definition directiveRotateSize : string := "rotate_size".
Definition directiveRotateAge : string := "rotate_age".
Definition directiveRotateKeep : string := "rotate_keep".
Definition directiveRotateCompress : string := "rotate_compress".
Definition IsLogRollerSubdirective (subdir : string) : bool :=
  bool_decide (subdir = directiveRotateSize) || bool_decide (subdir = directiveRotateAge) ||
  bool_decide (subdir = directiveRotateKeep) || bool_decide (subdir = directiveRotateCompress).

(** [strconv.Atoi], [None] for an error. *)
Definition Atoi_checked (s : string) : option Z :=
  let '(neg, ds) := split_sign (str_bytes s) in
  match scan_digits (2 ^ 64 - 1) ds with
  | ScanNum un => if neg then (if bool_decide (2 ^ 63 < un) then None else Some (- un))
                  else (if bool_decide (2 ^ 63 ≤ un) then None else Some un)
  | _ => None
  end.

Inductive roller_error := InvalidRollerParameter | AtoiError.
Definition set_directive (what : string) (value : Z) (r : Roller) : Roller :=
  if bool_decide (what = directiveRotateSize) then mk_roller (ro_Filename r) value (ro_MaxAge r) (ro_MaxBackups r) (ro_Compress r) (ro_LocalTime r)
  else if bool_decide (what = directiveRotateAge) then mk_roller (ro_Filename r) (ro_MaxSize r) value (ro_MaxBackups r) (ro_Compress r) (ro_LocalTime r)
  else if bool_decide (what = directiveRotateKeep) then mk_roller (ro_Filename r) (ro_MaxSize r) (ro_MaxAge r) value (ro_Compress r) (ro_LocalTime r)
  else if bool_decide (what = directiveRotateCompress) then mk_roller (ro_Filename r) (ro_MaxSize r) (ro_MaxAge r) (ro_MaxBackups r) true (ro_LocalTime r)
  else r.
(** [l]: what the pointer points to; what it points to afterwards.  A roller made for a
    nil pointer is local to the call. *)
Definition ParseRoller (l : option Roller) (what : string) (args : list string) : option roller_error * option Roller :=
  let set value := match l with Some r => Some (set_directive what value r) | None => None end in
  if bool_decide (what = directiveRotateCompress) then
    match args with [] => (None, set 0) | _ => (Some InvalidRollerParameter, l) end
  else
    match args with
    | [a] => match Atoi_checked a with Some value => (None, set value) | None => (Some AtoiError, l) end
    | _ => (Some InvalidRollerParameter, l)
    end.

(** ** The state *)

Inductive log_writer := WStderr | WStdout | WSyslog | WRemote (network address : string) | WRoller (path : string) | WFile (name : string).
#[export] Instance log_writer_eq_dec : EqDecision log_writer.
Proof. solve_decision. Defined.

Definition FATAL : Z := 0.
Definition ERROR : Z := 1.
Definition WARN : Z := 2.
Definition INFO : Z := 3.
Definition DEBUG : Z := 4.
Definition TRACE : Z := 5.
Definition InfoPre : string := "[INFO]".
Definition DebugPre : string := "[DEBUG]".
Definition WarnPre : string := "[WARN]".
Definition ErrorPre : string := "[ERROR]".
Definition FatalPre : string := "[Fatal]".
Definition TracePre : string := "[TRACE]".

(** [lg_Logger]: the writer of the embedded logger, which may be nil.  [lg_locked]: a
    writer took the lock and left without releasing it. *)
Record logger := mk_logger { lg_Output : string; lg_Level : Z; lg_Roller : option Roller; lg_writer : option log_writer; lg_Logger : option log_writer; lg_locked : bool }.
Record logs := mk_logs { lg_all : list logger; lg_loggers : list nat; lg_Default : option nat; lumberjacks : gmap string Roller; lg_written : list (log_writer * string) }.

(** What is outside: errors of opening a file, of making its directories, of the local
    and of a remote syslog, of closing a writer; absolute paths. *)
Record log_env := mk_log_env { le_open : string → option string; le_mkdir : string → option string; le_syslog : option string;
  le_dial : string → string → option string; le_close : log_writer → option string; le_abs : string → option string }.

Definition set_lg_writer (w : option log_writer) (l : logger) : logger := mk_logger (lg_Output l) (lg_Level l) (lg_Roller l) w (lg_Logger l) (lg_locked l).
Definition set_lg_Logger (w : option log_writer) (l : logger) : logger := mk_logger (lg_Output l) (lg_Level l) (lg_Roller l) (lg_writer l) w (lg_locked l).
Definition set_lg_Roller (r : option Roller) (l : logger) : logger := mk_logger (lg_Output l) (lg_Level l) r (lg_writer l) (lg_Logger l) (lg_locked l).
Definition set_lg_locked (b : bool) (l : logger) : logger := mk_logger (lg_Output l) (lg_Level l) (lg_Roller l) (lg_writer l) (lg_Logger l) b.

Definition lg_mod (i : nat) (f : logger → logger) : SG logs unit :=
  sg_modify (λ s, mk_logs (alter f i (lg_all s)) (lg_loggers s) (lg_Default s) (lumberjacks s) (lg_written s)).
Definition lg_at (i : nat) : SG logs logger := s ← sg_get; sg_deref (lg_all s !! i).
Definition emit_line (w : log_writer) (line : string) : SG logs unit :=
  sg_modify (λ s, mk_logs (lg_all s) (lg_loggers s) (lg_Default s) (lumberjacks s) (lg_written s ++ [(w, line)])).

(** ** Starting *)

Definition remoteSyslogPrefixes : list (string * string) := [("syslog+tcp://", "tcp"); ("syslog+udp://", "udp"); ("syslog://", "udp")]%string.
(** [order]: the order in which the map of prefixes is ranged over. *)
Fixpoint parseSyslogAddress (order : list (string * string)) (location : string) : option (string * string) :=
  match order with
  | [] => None
  | (prefix, network) :: order =>
    if HasPrefix location prefix then Some (network, str_drop (slen prefix) location) else parseSyslogAddress order location
  end.

Section env.
  Context (e : log_env).

(** The writer of a path that was opened before is shared. *)
Definition GetLogWriter (r : Roller) : SG logs log_writer :=
  let absPath := default (ro_Filename r) (le_abs e (ro_Filename r)) in
  _ ← sg_modify (λ s, mk_logs (lg_all s) (lg_loggers s) (lg_Default s)
        (match lumberjacks s !! absPath with Some _ => lumberjacks s | None => <[absPath := r]> (lumberjacks s) end) (lg_written s));
  mret (WRoller absPath).

Definition text_of_error (err : option string) : string := default "<nil>"%string err.
Definition set_filename (name : string) (r : Roller) : Roller := mk_roller name (ro_MaxSize r) (ro_MaxAge r) (ro_MaxBackups r) (ro_Compress r) (ro_LocalTime r).

(** A file is opened, to see that it can be, and left to the roller. *)
Definition start_file (i : nat) (l : logger) : SG logs (option string) :=
  _ ← emit_line WStdout (text_of_error (le_mkdir e (lg_Output l)));
  match le_open e (lg_Output l) with
  | Some err => mret (Some err)
  | None =>
    w ← match lg_Roller l with
        | Some r => let r := set_filename (lg_Output l) r in _ ← lg_mod i (set_lg_Roller (Some r)); GetLogWriter r
        | None => mret (WFile (lg_Output l))
        end;
    _ ← lg_mod i (set_lg_writer (Some w));
    mret None
  end.
(** A writer that could not be made is nil. *)
Definition start_syslog (i : nat) (err : option string) (w : log_writer) : SG logs (option string) :=
  _ ← lg_mod i (set_lg_writer (match err with None => Some w | Some _ => None end));
  mret err.
Definition is_stderr (o : string) : bool := bool_decide (o = "") || bool_decide (o = "stderr") || bool_decide (o = "/dev/stderr").
Definition is_stdout (o : string) : bool := bool_decide (o = "stdout") || bool_decide (o = "/dev/stdout").
Definition choose_writer (i : nat) (l : logger) : SG logs (option string) :=
  let o := lg_Output l in
  if is_stderr o then start_syslog i None WStderr
  else if is_stdout o then start_syslog i None WStdout
  else if bool_decide (o = "syslog"%string) then start_syslog i (le_syslog e) WSyslog
  else match parseSyslogAddress remoteSyslogPrefixes o with
       | Some (network, address) => start_syslog i (le_dial e network address) (WRemote network address)
       | None => start_file i l
       end.
Definition logger_Start (i : nat) : SG logs (option string) :=
  l ← lg_at i;
  err ← choose_writer i l;
  match err with
  | Some err => mret (Some err)
  | None => l ← lg_at i; _ ← lg_mod i (set_lg_Logger (lg_writer l)); mret None
  end.

(** ** Making *)

(** A new logger, in the list whether or not it starts. *)
Definition new_logger (output : string) (level : Z) : SG logs nat :=
  s ← sg_get;
  let i := length (lg_all s) in
  _ ← sg_modify (λ s, mk_logs (lg_all s ++ [mk_logger output level (Some DefaultRoller) None None false]) (lg_loggers s ++ [i]) (lg_Default s) (lumberjacks s) (lg_written s));
  mret i.
Definition NewLogger (output : string) (level : Z) : SG logs (nat * option string) :=
  i ← new_logger output level;
  err ← logger_Start i;
  mret (i, err).
Definition InitDefaultLogger (output : string) (level : Z) : SG logs (option string) :=
  i ← new_logger output level;
  _ ← sg_modify (λ s, mk_logs (lg_all s) (lg_loggers s) (Some i) (lumberjacks s) (lg_written s));
  logger_Start i.

(** The first of the list with this output and this level. *)
Fixpoint find_logger (output : string) (level : Z) (all : list logger) (l : list nat) : option nat :=
  match l with
  | [] => None
  | i :: l => match all !! i with
              | Some g => if bool_decide (lg_Output g = output) && bool_decide (lg_Level g = level) then Some i else find_logger output level all l
              | None => find_logger output level all l
              end
  end.
Definition GetLoggerInstance (output : string) (level : Z) : SG logs (nat * option string) :=
  s ← sg_get;
  match find_logger output level (lg_all s) (lg_loggers s) with
  | Some i => mret (i, None)
  | None => NewLogger output level
  end.
(** [ctx]: the logger in the context. *)
Definition ByContext (ctx : option nat) : SG logs nat :=
  match ctx with
  | Some i => mret i
  | None =>
    s ← sg_get;
    _ ← match lg_Default s with Some _ => mret None | None => InitDefaultLogger "" DEBUG end;
    s ← sg_get;
    sg_deref (lg_Default s)
  end.

(** ** Writing *)

Definition Printf (i : nat) (text : string) : SG logs unit :=
  l ← lg_at i;
  if lg_locked l then sg_panic Deadlock
  else w ← sg_deref (lg_Logger l); emit_line w text.
(** The other way to write a line. *)
Definition Println : nat → string → SG logs unit := Printf.
Definition leveled (level : Z) (pre : string) (i : nat) (text : string) : SG logs unit :=
  l ← lg_at i;
  if bool_decide (level ≤ lg_Level l) then Printf i (pre +:+ text) else mret tt.
Definition Infof : nat → string → SG logs unit := leveled INFO InfoPre.
Definition Debugf : nat → string → SG logs unit := leveled DEBUG DebugPre.
Definition Warnf : nat → string → SG logs unit := leveled WARN WarnPre.
Definition Errorf : nat → string → SG logs unit := leveled ERROR ErrorPre.
Definition Tracef : nat → string → SG logs unit := leveled TRACE TracePre.
Definition Fatalf : nat → string → SG logs unit := leveled FATAL FatalPre.

(** ** Closing and opening again *)

Definition is_console (w : option log_writer) : bool := bool_decide (w = Some WStdout) || bool_decide (w = Some WStderr).
Definition logger_Close (i : nat) : SG logs (option string) :=
  l ← lg_at i;
  if is_console (lg_writer l) then mret None
  else match lg_writer l with
       | Some w => if lg_locked l then sg_panic Deadlock else mret (le_close e w)
       | None => mret None
       end.
(** An error of starting leaves with the lock. *)
Definition logger_Reopen (i : nat) : SG logs (option string) :=
  l ← lg_at i;
  if is_console (lg_writer l) then mret None
  else match lg_writer l with
       | Some w =>
         if lg_locked l then sg_panic Deadlock
         else
         _ ← lg_mod i (set_lg_locked true);
         err ← logger_Start i;
         match err with
         | Some err => mret (Some err)
         | None => _ ← lg_mod i (set_lg_locked false); mret (le_close e w)
         end
       | None => mret None
       end.
Fixpoint until_error (f : nat → SG logs (option string)) (l : list nat) : SG logs (option string) :=
  match l with
  | [] => mret None
  | i :: l => err ← f i; match err with Some err => mret (Some err) | None => until_error f l end
  end.
Definition Reopen : SG logs (option string) := s ← sg_get; until_error logger_Reopen (lg_loggers s).
Definition CloseAll : SG logs (option string) := s ← sg_get; until_error logger_Close (lg_loggers s).

(** The package at its start. *)
Definition log_init : SG logs unit :=
  _ ← sg_modify (λ _, mk_logs [mk_logger "" DEBUG (Some DefaultRoller) None None false] [] None ∅ []);
  _ ← logger_Start 0;
  mret tt.

(** ** Runs *)

Inductive log_op :=
  | OGet (output : string) (level : Z) | OInit (output : string) (level : Z) | OByContext (ctx : option nat)
  | OPrint (i : nat) (text : string) | OLevel (level : Z) (pre : string) (i : nat) (text : string) | OReopen | OCloseAll.
Inductive log_result := RLogger (i : nat) (err : option string) | RError (err : option string) | RDone.
Definition log_do (o : log_op) : SG logs log_result :=
  match o with
  | OGet output level => r ← GetLoggerInstance output level; mret (RLogger r.1 r.2)
  | OInit output level => err ← InitDefaultLogger output level; mret (RError err)
  | OByContext ctx => i ← ByContext ctx; mret (RLogger i None)
  | OPrint i text => _ ← Printf i text; mret RDone
  | OLevel level pre i text => _ ← leveled level pre i text; mret RDone
  | OReopen => err ← Reopen; mret (RError err)
  | OCloseAll => err ← CloseAll; mret (RError err)
  end.
Fixpoint log_run (l : list log_op) : SG logs (list log_result) :=
  match l with [] => mret [] | o :: l => r ← log_do o; rs ← log_run l; mret (r :: rs) end.
End env.
