(* ===== verification/LoggerProps.v ===== *)
(** * Theorems about loggers *)

From S2P Require Import Prelude Strconv GoStrings StateGo Logger.

Local Open Scope Z_scope.

(** ** Rollers *)

(** A directive is accepted exactly with the arguments it takes, a number where it takes
    one; of a nil roller nothing is kept. *)
Theorem ParseRoller_accepts l what args :
  ParseRoller l what args =
  match (if bool_decide (what = directiveRotateCompress) then match args with [] => inr 0 | _ => inl InvalidRollerParameter end
         else match args with [a] => match Atoi_checked a with Some n => inr n | None => inl AtoiError end | _ => inl InvalidRollerParameter end)
  with inl err => (Some err, l) | inr n => (None, set_directive what n <$> l) end.
Proof. unfold ParseRoller. case_bool_decide; destruct args as [|a [|]]; try done. by destruct (Atoi_checked a). Qed.
Lemma unknown_directive what n r : IsLogRollerSubdirective what = false → set_directive what n r = r.
Proof. unfold IsLogRollerSubdirective, set_directive. repeat case_bool_decide; done. Qed.
Example nil_roller : ParseRoller None directiveRotateSize ["7"%string] = (None, None).
Proof. reflexivity. Qed.
Example rotate_sizes : (λ l, (ParseRoller (Some DefaultRoller) directiveRotateSize l).1) <$> [["7"]; ["-7"]; ["x"]; ["1"; "2"]; ["9223372036854775808"]]%string
  = [None; None; Some AtoiError; Some InvalidRollerParameter; Some AtoiError].
Proof. by vm_compute. Qed.

(** ** Addresses of a syslog *)

Lemma prefixes_comparable p q s : HasPrefix s p = true → HasPrefix s q = true → HasPrefix p q = true ∨ HasPrefix q p = true.
Proof.
  unfold HasPrefix. revert q s. induction p as [|a p IH]; intros q s Hp Hq; [by right; destruct q|].
  destruct q as [|b q]; [by left|]. destruct s as [|c s]; [done|]. cbn in *.
  destruct (Ascii.ascii_dec a c) as [->|]; [|done]. destruct (Ascii.ascii_dec b c) as [->|]; [|done].
  destruct (Ascii.ascii_dec c c); [by eapply IH|done].
Qed.
(** No prefix of the three begins another, so the order of the map does not matter. *)
Lemma prefix_scheme p q p' q' loc : (p, q) ∈ remoteSyslogPrefixes → HasPrefix loc p = true →
  (p', q') ∈ remoteSyslogPrefixes → HasPrefix loc p' = true → p' = p ∧ q' = q.
Proof.
  intros H Hp H' Hp'. pose proof (prefixes_comparable p p' loc Hp Hp') as Hc. clear Hp Hp'.
  unfold remoteSyslogPrefixes in *. rewrite !elem_of_cons in H, H'. rewrite elem_of_nil in H, H'.
  destruct_or!; simplify_eq; done.
Qed.
Lemma parse_first order p q loc : (∀ x, x ∈ order → x ∈ remoteSyslogPrefixes) → (p, q) ∈ order → HasPrefix loc p = true →
  parseSyslogAddress order loc = Some (q, str_drop (slen p) loc).
Proof.
  intros Hs H Hp. induction order as [|[p' q'] order IH]; [by apply elem_of_nil in H|]. cbn.
  destruct (HasPrefix loc p') eqn:E.
  - destruct (prefix_scheme p q p' q' loc) as [-> ->]; [by apply Hs|done|apply Hs; by left|done|done].
  - apply IH; [intros x Hx; apply Hs; by right|]. apply elem_of_cons in H as [[= -> ->]|H]; [congruence|done].
Qed.
Lemma parse_none order loc : (∀ p q, (p, q) ∈ order → HasPrefix loc p = false) → parseSyslogAddress order loc = None.
Proof.
  induction order as [|[p q] order IH]; intros H; [done|]. cbn. rewrite (H p q) by by left. apply IH. intros p' q' Hp. apply (H p' q'). by right.
Qed.
Theorem syslog_any_order order loc : order ≡ₚ remoteSyslogPrefixes → parseSyslogAddress order loc = parseSyslogAddress remoteSyslogPrefixes loc.
Proof.
  intros Hp. destruct (decide (Exists (λ x, HasPrefix loc x.1 = true) remoteSyslogPrefixes)) as [H|H].
  - apply Exists_exists in H as ([p q] & Hin & H). rewrite !(parse_first _ p q); try done; by setoid_rewrite Hp || intros x; try rewrite Hp.
  - assert (∀ p q, (p, q) ∈ remoteSyslogPrefixes → HasPrefix loc p = false) as Hn.
    { intros p q Hin. destruct (HasPrefix loc p) eqn:E; [|done]. exfalso. apply H, Exists_exists. by exists (p, q). }
    rewrite !parse_none; try done. intros p q. rewrite Hp. apply Hn.
Qed.

(** ** Where lines go *)

Record log_env_ok (e : log_env) : Prop := {
  eo_open n : le_open e n = None; eo_mkdir n : le_mkdir e n = None; eo_syslog : le_syslog e = None;
  eo_dial n a : le_dial e n a = None; eo_close w : le_close e w = None }.

Section spec.
  Context (e : log_env).

(** A logger is its output and its level; there is one that is the default; and lines. *)
Record log_spec := mk_log_spec { sp_keys : list (string * Z); sp_Default : option nat; sp_lines : list (log_writer * string) }.
Definition dest (o : string) : log_writer :=
  if is_stderr o then WStderr else if is_stdout o then WStdout else if bool_decide (o = "syslog"%string) then WSyslog
  else match parseSyslogAddress remoteSyslogPrefixes o with Some (n, a) => WRemote n a | None => WRoller (default o (le_abs e o)) end.
(** A file that is opened leaves a line on the standard output. *)
Definition opening (o : string) : list (log_writer * string) :=
  match dest o with WRoller _ => [(WStdout, "<nil>"%string)] | _ => [] end.
(** Behind the first, the logger at the start. *)
Definition spec_find (output : string) (level : Z) (keys : list (string * Z)) : option nat :=
  (λ x : nat * (string * Z), S x.1) <$> list_find (.= (output, level)) (tail keys).
Definition spec_new (output : string) (level : Z) (p : log_spec) : nat * log_spec :=
  (length (sp_keys p), mk_log_spec (sp_keys p ++ [(output, level)]) (sp_Default p) (sp_lines p ++ opening output)).
Definition spec_default (i : nat) (p : log_spec) : log_spec := mk_log_spec (sp_keys p) (Some i) (sp_lines p).
Definition spec_init (output : string) (level : Z) (p : log_spec) : nat * log_spec :=
  let '(i, p) := spec_new output level p in (i, spec_default i p).
Definition spec_line (i : nat) (level : option Z) (text : string) (p : log_spec) : option log_spec :=
  match sp_keys p !! i with
  | Some (o, l) => Some (if from_option (λ level, bool_decide (level ≤ l)) true level
                         then mk_log_spec (sp_keys p) (sp_Default p) (sp_lines p ++ [(dest o, text)]) else p)
  | None => None
  end.
(** What an operation gives, unless it uses a pointer to no logger. *)
Definition spec_log (o : log_op) (p : log_spec) : option (log_result * log_spec) :=
  match o with
  | OGet output level => match spec_find output level (sp_keys p) with
                         | Some i => Some (RLogger i None, p)
                         | None => let '(i, p) := spec_new output level p in Some (RLogger i None, p)
                         end
  | OInit output level => Some (RError None, (spec_init output level p).2)
  | OByContext (Some i) => Some (RLogger i None, p)
  | OByContext None => match sp_Default p with
                       | Some i => Some (RLogger i None, p)
                       | None => let '(i, p) := spec_init "" DEBUG p in Some (RLogger i None, p)
                       end
  | OPrint i text => (RDone,.) <$> spec_line i None text p
  | OLevel level pre i text => (RDone,.) <$> spec_line i (Some level) (pre +:+ text) p
  | OReopen => Some (RError None, mk_log_spec (sp_keys p) (sp_Default p) (sp_lines p ++ flat_map (λ k, opening k.1) (tail (sp_keys p))))
  | OCloseAll => Some (RError None, p)
  end.
Fixpoint spec_logs (l : list log_op) (p : log_spec) : option (list log_result * log_spec) :=
  match l with
  | [] => Some ([], p)
  | o :: l => match spec_log o p with
              | Some (r, p) => match spec_logs l p with Some (rs, p) => Some (r :: rs, p) | None => None end
              | None => None
              end
  end.

(** *** The loggers are those of the specification *)

Definition logger_ok (g : logger) : Prop :=
  lg_writer g = Some (dest (lg_Output g)) ∧ lg_Logger g = lg_writer g ∧ is_Some (lg_Roller g) ∧ lg_locked g = false.
Definition key_of (g : logger) : string * Z := (lg_Output g, lg_Level g).
Definition logs_ok (s : logs) : Prop :=
  Forall logger_ok (lg_all s) ∧ lg_all s ≠ [] ∧ lg_loggers s = seq 1 (length (lg_all s) - 1).
Definition spec_of (s : logs) : log_spec := mk_log_spec (key_of <$> lg_all s) (lg_Default s) (lg_written s).

Context (He : log_env_ok e).

Lemma alter_at {A} (f : A → A) i (l : list A) x : l !! i = Some x → alter f i l = <[i:=f x]> l.
Proof. revert i. induction l as [|y l IH]; intros [|i] H; try done; cbn in *; [by simplify_eq|by rewrite (IH i)]. Qed.
Lemma lg_mod_at i f s g : lg_all s !! i = Some g →
  lg_mod i f s = Ret (tt, mk_logs (<[i:=f g]> (lg_all s)) (lg_loggers s) (lg_Default s) (lumberjacks s) (lg_written s)).
Proof. intros H. unfold lg_mod, sg_modify. by rewrite (alter_at f i _ g). Qed.
Lemma lg_at_run i s g : lg_all s !! i = Some g → lg_at i s = Ret (g, s).
Proof. intros H. unfold lg_at. srun. by rewrite H. Qed.

(** A logger that starts has the writer of its output; and a file leaves a line. *)
Lemma choose_writer_ok i s g : lg_all s !! i = Some g → is_Some (lg_Roller g) →
  ∃ r j, is_Some r ∧ choose_writer e i g s =
    Ret (None, mk_logs (<[i:=set_lg_writer (Some (dest (lg_Output g))) (set_lg_Roller r g)]> (lg_all s)) (lg_loggers s) (lg_Default s) j (lg_written s ++ opening (lg_Output g))).
Proof.
  intros H [r Hr]. destruct He as [Eo Em Es Ed Ec].
  assert (∀ w, start_syslog i None w s = Ret (None, mk_logs (<[i:=set_lg_writer (Some w) (set_lg_Roller (lg_Roller g) g)]> (lg_all s)) (lg_loggers s) (lg_Default s) (lumberjacks s) (lg_written s))) as Hw.
  { intros w. unfold start_syslog. eapply sg_run; [by apply lg_mod_at|]. by destruct g. }
  unfold choose_writer, opening, dest. destruct (is_stderr _); [|destruct (is_stdout _); [|case_bool_decide]].
  1-3: eexists _, _; split; [by exists r|]; rewrite ?Es, Hw, app_nil_r; done.
  destruct (parseSyslogAddress _ _) as [[n a]|].
  - eexists _, _; split; [by exists r|]. rewrite Ed, Hw, app_nil_r. done.
  - eexists (Some _), _. split; [by eexists|]. unfold start_file. srun. rewrite Em, Eo. rewrite Hr. cbn [text_of_error default].
    eapply sg_run; [eapply sg_run; [by apply lg_mod_at|]; srun; reflexivity|].
    eapply sg_run; [by apply lg_mod_at, list_lookup_insert_eq; eapply lookup_lt_Some|]. cbn. rewrite list_insert_insert_eq. done.
Qed.
Lemma logger_Start_ok i s g : lg_all s !! i = Some g → is_Some (lg_Roller g) →
  ∃ g' j, logger_Start e i s = Ret (None, mk_logs (<[i:=g']> (lg_all s)) (lg_loggers s) (lg_Default s) j (lg_written s ++ opening (lg_Output g))) ∧
    key_of g' = key_of g ∧ (lg_locked g = false → logger_ok g') ∧ logger_ok (set_lg_locked false g') ∧ lg_locked g' = lg_locked g.
Proof.
  intros H Hr. destruct (choose_writer_ok i s g H Hr) as (r & j & Hr' & Ec).
  eexists (set_lg_Logger _ (set_lg_writer _ (set_lg_Roller r g))), j. split_and!.
  - unfold logger_Start. eapply sg_run; [by apply lg_at_run|]. eapply sg_run; [exact Ec|].
    assert (i < length (lg_all s))%nat as Hi by by eapply lookup_lt_Some.
    eapply sg_run; [by apply lg_at_run, list_lookup_insert_eq|]. eapply sg_run; [by apply lg_mod_at, list_lookup_insert_eq|].
    cbn. rewrite list_insert_insert_eq. done.
  - done.
  - done.
  - done.
  - done.
Qed.

(** A state in which one logger was replaced by another of its key. *)
Lemma replaced_ok i s g g' j w : logs_ok s → lg_all s !! i = Some g → logger_ok g' → key_of g' = key_of g →
  let s' := mk_logs (<[i:=g']> (lg_all s)) (lg_loggers s) (lg_Default s) j w in
  logs_ok s' ∧ spec_of s' = mk_log_spec (sp_keys (spec_of s)) (lg_Default s) w.
Proof.
  intros (H1 & H2 & H3) H Hg Hk. split.
  - split_and!; cbn; [by apply Forall_insert| |by rewrite length_insert]. intros E. apply (f_equal length) in E. rewrite length_insert in E. by destruct (lg_all s).
  - unfold spec_of. cbn. f_equal. rewrite list_fmap_insert, Hk. apply list_insert_id. by rewrite list_lookup_fmap, H.
Qed.
Lemma new_start o l d s : logs_ok s →
  ∃ s', logger_Start e (length (lg_all s)) (mk_logs (lg_all s ++ [mk_logger o l (Some DefaultRoller) None None false]) (lg_loggers s ++ [length (lg_all s)]) d (lumberjacks s) (lg_written s)) = Ret (None, s') ∧
    logs_ok s' ∧ spec_of s' = mk_log_spec (sp_keys (spec_of s) ++ [(o, l)]) d (lg_written s ++ opening o).
Proof.
  intros (H1 & H2 & H3). set (g := mk_logger o l _ _ _ _). set (s1 := mk_logs _ _ _ _ _).
  assert (lg_all s1 !! length (lg_all s) = Some g) as Hg by (cbn; by rewrite list_lookup_middle).
  destruct (logger_Start_ok (length (lg_all s)) s1 g Hg) as (g' & j & E & Hk & Hok & _); [by eexists|].
  eexists. split; [exact E|]. cbn. rewrite insert_app_r_alt, Nat.sub_diag by lia. cbn. split.
  - split_and!; cbn; [|by destruct (lg_all s)|].
    + apply Forall_app. split; [done|]. apply Forall_cons. split; [by apply Hok|done].
    + rewrite H3, length_app. cbn. destruct (lg_all s) as [|g0 gs]; [done|]. cbn. rewrite Nat.sub_0_r, <- seq_S. f_equal. lia.
  - unfold spec_of. cbn. rewrite fmap_app. cbn. by rewrite Hk.
Qed.

Lemma find_logger_keys o l pre rest : find_logger o l (pre ++ rest) (seq (length pre) (length rest)) =
  (λ x : nat * (string * Z), (length pre + x.1)%nat) <$> list_find (.= (o, l)) (key_of <$> rest).
Proof.
  revert pre. induction rest as [|g rest IH]; intros pre; [done|]. cbn [length seq find_logger list_find fmap list_fmap].
  rewrite list_lookup_middle by done. specialize (IH (pre ++ [g])). rewrite length_app, <- app_assoc, Nat.add_1_r in IH. cbn [app] in IH. rewrite IH.
  destruct (decide (key_of g = (o, l))) as [Hk|Hk].
  - injection Hk as Ho Hl. rewrite !bool_decide_true by done. cbn. by rewrite Nat.add_0_r.
  - replace (bool_decide (lg_Output g = o) && bool_decide (lg_Level g = l)) with false.
    + destruct (list_find _ _) as [[i k]|]; cbn; [|done]. f_equal. lia.
    + repeat case_bool_decide; try done. exfalso. apply Hk. unfold key_of. congruence.
Qed.
Lemma find_logger_spec o l s : logs_ok s → find_logger o l (lg_all s) (lg_loggers s) = spec_find o l (sp_keys (spec_of s)).
Proof.
  intros (_ & H2 & ->). destruct (lg_all s) as [|g gs] eqn:E; [done|]. cbn [length]. rewrite Nat.sub_1_r. cbn [pred].
  pose proof (find_logger_keys o l [g] gs) as H. cbn [app length] in H. rewrite H. unfold spec_of, spec_find. by rewrite E.
Qed.

Lemma console_opening o : is_console (Some (dest o)) = true → opening o = [].
Proof. unfold is_console, opening. by destruct (dest o). Qed.
Lemma logger_Reopen_ok i s g : logs_ok s → lg_all s !! i = Some g →
  ∃ s', logger_Reopen e i s = Ret (None, s') ∧ logs_ok s' ∧ lg_loggers s' = lg_loggers s ∧
    spec_of s' = mk_log_spec (sp_keys (spec_of s)) (lg_Default s) (lg_written s ++ opening (lg_Output g)).
Proof.
  intros Hs H. destruct (proj1 (Forall_lookup logger_ok _) (proj1 Hs) i g H) as (Hw & Hl & Hr & Hlk).
  unfold logger_Reopen. destruct (is_console (Some (dest (lg_Output g)))) eqn:Ec.
  - exists s. split_and!; [|done..|by rewrite console_opening, app_nil_r]. eapply sg_run; [by apply lg_at_run|]. by rewrite Hw, Ec.
  - set (s1 := mk_logs (<[i:=set_lg_locked true g]> (lg_all s)) (lg_loggers s) (lg_Default s) (lumberjacks s) (lg_written s)).
    assert (i < length (lg_all s))%nat as Hi by by eapply lookup_lt_Some.
    assert (lg_all s1 !! i = Some (set_lg_locked true g)) as H1 by by apply list_lookup_insert_eq.
    destruct (logger_Start_ok i s1 _ H1) as (g' & j & E & Hk & _ & Hok & _); [done|].
    destruct (replaced_ok i s g (set_lg_locked false g') j (lg_written s ++ opening (lg_Output g)) Hs H Hok Hk) as [H3 H4].
    eexists. split_and!; [|exact H3|done|exact H4].
    eapply sg_run; [by apply lg_at_run|]. rewrite Hw, Ec, Hlk. eapply sg_run; [by apply lg_mod_at|]. eapply sg_run; [exact E|].
    eapply sg_run; [by apply lg_mod_at, list_lookup_insert_eq; cbn; rewrite length_insert|]. cbn. rewrite !list_insert_insert_eq, (eo_close e He). done.
Qed.
Lemma reopen_from n k s : logs_ok s → (k + n = length (lg_all s))%nat →
  ∃ s', until_error (logger_Reopen e) (seq k n) s = Ret (None, s') ∧ logs_ok s' ∧
    spec_of s' = mk_log_spec (sp_keys (spec_of s)) (lg_Default s) (lg_written s ++ flat_map (λ k, opening k.1) (drop k (sp_keys (spec_of s)))).
Proof.
  revert k s. induction n as [|n IH]; intros k s Hs Hn.
  - exists s. split_and!; [done..|]. unfold spec_of. cbn. rewrite drop_ge, app_nil_r; [done|]. rewrite length_fmap. lia.
  - destruct (lookup_lt_is_Some_2 (lg_all s) k) as [g Hg]; [lia|]. destruct (logger_Reopen_ok k s g Hs Hg) as (s1 & E & H1 & _ & E1).
    injection E1 as Ek Ed Ew. destruct (IH (S k) s1 H1) as (s2 & E2 & H2 & S2).
    { apply (f_equal length) in Ek. rewrite !length_fmap in Ek. lia. }
    exists s2. split_and!; [|done|].
    + cbn [seq until_error]. by eapply sg_run; [exact E|].
    + rewrite S2. unfold spec_of in *. cbn in *. rewrite Ek, Ed, Ew, <- app_assoc. f_equal. f_equal.
      rewrite (drop_S (key_of <$> lg_all s) (key_of g) k); [done|]. by rewrite list_lookup_fmap, Hg.
Qed.
Lemma close_all s l : logs_ok s → (∀ i, i ∈ l → i < length (lg_all s))%nat → until_error (logger_Close e) l s = Ret (None, s).
Proof.
  intros Hs. induction l as [|i l IH]; intros Hl; [done|]. cbn [until_error]. destruct (lookup_lt_is_Some_2 (lg_all s) i) as [g Hg]; [apply Hl; by left|].
  destruct (proj1 (Forall_lookup logger_ok _) (proj1 Hs) i g Hg) as (Hw & _ & _ & Hlk).
  assert (logger_Close e i s = Ret (None, s)) as E.
  { unfold logger_Close. eapply sg_run; [by apply lg_at_run|]. rewrite Hw, Hlk, (eo_close e He). by destruct (is_console _). }
  eapply sg_run; [exact E|]. apply IH. intros. apply Hl. by right.
Qed.

(** *** One operation, and runs *)

Definition op_ok (o : log_op) : Prop := ∀ s, logs_ok s →
  match spec_log o (spec_of s) with
  | Some (r, p) => ∃ s', log_do e o s = Ret (r, s') ∧ logs_ok s' ∧ spec_of s' = p
  | None => log_do e o s = Panic NilDeref
  end.
Lemma print_ok i text s : logs_ok s →
  match lg_all s !! i with
  | Some g => Printf i text s = Ret (tt, mk_logs (lg_all s) (lg_loggers s) (lg_Default s) (lumberjacks s) (lg_written s ++ [(dest (lg_Output g), text)]))
  | None => lg_at i s = Panic NilDeref
  end.
Proof.
  intros Hs. destruct (lg_all s !! i) as [g|] eqn:Hg.
  - destruct (proj1 (Forall_lookup logger_ok _) (proj1 Hs) i g Hg) as (Hw & Hl & _ & Hlk).
    unfold Printf. eapply sg_run; [by apply lg_at_run|]. rewrite Hlk, Hl, Hw. by srun.
  - unfold lg_at. srun. by rewrite Hg.
Qed.
Lemma init_ok o l s : logs_ok s → ∃ s', InitDefaultLogger e o l s = Ret (None, s') ∧ logs_ok s' ∧ spec_of s' = (spec_init o l (spec_of s)).2.
Proof.
  intros Hs. destruct (new_start o l (Some (length (lg_all s))) s Hs) as (s' & E & Hs' & Sp). exists s'. split_and!; [|done|].
  - unfold InitDefaultLogger, new_logger. eapply sg_run; [srun; srun; reflexivity|]. srun. exact E.
  - rewrite Sp. unfold spec_init, spec_new, spec_default. cbn. by rewrite length_fmap.
Qed.
Lemma do_get o l : op_ok (OGet o l).
Proof.
  intros s Hs. cbn [spec_log log_do]. rewrite <- find_logger_spec by done. destruct (find_logger o l (lg_all s) (lg_loggers s)) as [i|] eqn:F.
  - exists s. split_and!; [|done..]. eapply sg_run; [unfold GetLoggerInstance; srun; rewrite F; reflexivity|done].
  - destruct (new_start o l (lg_Default s) s Hs) as (s' & E & Hs' & Sp). cbn. exists s'. split_and!; [|done..].
    rewrite length_fmap. eapply sg_run. {
    unfold GetLoggerInstance. srun. rewrite F. unfold NewLogger, new_logger. eapply sg_run; [srun; srun; reflexivity|]. by eapply sg_run; [exact E|]. } done.
Qed.
Lemma do_context ctx : op_ok (OByContext ctx).
Proof.
  intros s Hs. destruct ctx as [i|]; [by exists s|]. cbn [spec_log log_do]. unfold spec_of at 1. cbn [sp_Default].
  destruct (lg_Default s) as [i|] eqn:D.
  - exists s. split_and!; [|done..]. eapply sg_run; [unfold ByContext; srun; rewrite D; srun; srun; rewrite D; reflexivity|done].
  - destruct (init_ok "" DEBUG s Hs) as (s' & E & Hs' & Sp). destruct (spec_init "" DEBUG (spec_of s)) as [i p] eqn:Ei. exists s'. split_and!; [|done..].
    unfold spec_init, spec_new in Ei. injection Ei as <- <-. apply (f_equal sp_Default) in Sp. cbn in Sp.
    eapply sg_run. { unfold ByContext. srun. rewrite D. eapply sg_run; [exact E|]. srun. by rewrite Sp. } done.
Qed.
Lemma do_print i text : op_ok (OPrint i text).
Proof.
  intros s Hs. cbn [spec_log log_do]. unfold spec_line, spec_of. cbn [sp_keys]. rewrite list_lookup_fmap. pose proof (print_ok i text s Hs) as H.
  destruct (lg_all s !! i) as [g|]; cbn.
  - eexists. split_and!; [by eapply sg_run; [exact H|]|exact Hs|done].
  - unfold Printf, mbind, SG_bind in *. by rewrite H.
Qed.
Lemma do_level level pre i text : op_ok (OLevel level pre i text).
Proof.
  intros s Hs. cbn [spec_log log_do]. unfold spec_line. cbn [spec_of sp_keys]. rewrite list_lookup_fmap. pose proof (print_ok i (pre +:+ text) s Hs) as H.
  destruct (lg_all s !! i) as [g|] eqn:Hg; cbn.
  - case_bool_decide as Hl.
    + eexists. split_and!; [eapply sg_run; [unfold leveled; eapply sg_run; [by apply lg_at_run|]; rewrite bool_decide_true by done; exact H|done]|exact Hs|done].
    + exists s. split_and!; [|done..]. eapply sg_run; [unfold leveled; eapply sg_run; [by apply lg_at_run|]; rewrite bool_decide_false by done; reflexivity|done].
  - unfold leveled, mbind, SG_bind in *. by rewrite H.
Qed.
Lemma logger_op_ok o : op_ok o.
Proof.
  destruct o as [o l|o l|ctx|i t|l p i t| |]; [apply do_get| |apply do_context|apply do_print|apply do_level|..]; intros s Hs; cbn [spec_log log_do].
  - destruct (init_ok o l s Hs) as (s' & E & Hs' & Sp). exists s'. split_and!; [by eapply sg_run; [exact E|]|done..].
  - pose proof Hs as (_ & Hne & Hl). destruct (reopen_from (length (lg_all s) - 1) 1 s Hs) as (s' & E & Hs' & Sp).
    { destruct (lg_all s); [done|]. cbn. lia. }
    exists s'. split_and!; [|done|].
    + eapply sg_run. { unfold Reopen. srun. by rewrite Hl. } done.
    + by rewrite Sp.
  - exists s. split_and!; [|done..]. eapply sg_run. { unfold CloseAll. srun. apply close_all; [done|].
    destruct Hs as (_ & Hne & ->). intros i Hi%elem_of_seq. destruct (lg_all s); [done|]. cbn in *. lia. } done.
Qed.
Lemma logs_run_ok l s : logs_ok s →
  match spec_logs l (spec_of s) with
  | Some (rs, p) => ∃ s', log_run e l s = Ret (rs, s') ∧ logs_ok s' ∧ spec_of s' = p
  | None => log_run e l s = Panic NilDeref
  end.
Proof.
  revert s. induction l as [|o l IH]; intros s Hs; [by exists s|]. cbn [spec_logs log_run]. pose proof (logger_op_ok o s Hs) as H.
  destruct (spec_log o (spec_of s)) as [[r p]|]; [|by unfold mbind, SG_bind; rewrite H].
  destruct H as (s1 & E1 & H1 & <-). specialize (IH s1 H1). destruct (spec_logs l (spec_of s1)) as [[rs p]|].
  - destruct IH as (s2 & E2 & H2 & Sp). exists s2. split_and!; [|done..]. eapply sg_run; [exact E1|]. by eapply sg_run; [exact E2|].
  - unfold mbind, SG_bind. by rewrite E1, IH.
Qed.

(** C30. When everything can be opened, any sequence of operations on loggers gives what the
    specification says: there is one logger for each output and level that was asked
    for, loggers of one output share its writer, and a line is written once, to the
    writer of its logger's output, exactly when its level is not above the logger's;
    a reopened file leaves a stray line on the standard output. *)
Theorem logs_refine_spec l s0 :
  match spec_logs l (mk_log_spec [(""%string, DEBUG)] None []) with
  | Some (rs, p) => ∃ s s', log_init e s0 = Ret (tt, s) ∧ log_run e l s = Ret (rs, s') ∧ spec_of s' = p
  | None => ∃ s, log_init e s0 = Ret (tt, s) ∧ log_run e l s = Panic NilDeref
  end.
Proof.
  set (s := mk_logs [mk_logger "" DEBUG (Some DefaultRoller) (Some WStderr) (Some WStderr) false] [] None ∅ []).
  assert (log_init e s0 = Ret (tt, s)) as E0 by reflexivity.
  assert (logs_ok s) as Hs by (split_and!; [by repeat constructor; eexists|done..]).
  pose proof (logs_run_ok l s Hs) as H. change (spec_of s) with (mk_log_spec [(""%string, DEBUG)] None []) in H.
  destruct (spec_logs l _) as [[rs p]|]; [destruct H as (s' & E & _ & Sp); by exists s, s'|by exists s].
Qed.
End spec.

Lemma logs_refine_spec_witness :
  let e := mk_log_env (λ _, None) (λ _, None) None (λ _ _, None) (λ _, None) (λ n, Some ("/root/" +:+ n)%string) in
  log_env_ok e ∧
  ∃ s s', log_init e (mk_logs [] [] None ∅ []) = Ret (tt, s) ∧
    log_run e [OGet "a.log" INFO; OGet "stderr" ERROR; OGet "a.log" INFO; OLevel DEBUG DebugPre 1 "x"; OLevel WARN WarnPre 1 "y"; OPrint 2 "z"; OReopen]%string s
      = Ret ([RLogger 1 None; RLogger 2 None; RLogger 1 None; RDone; RDone; RDone; RError None], s') ∧
    lg_written s' = [(WStdout, "<nil>"); (WRoller "/root/a.log", "[WARN]y"); (WStderr, "z"); (WStdout, "<nil>")]%string.
Proof.
  cbv zeta. set (e := mk_log_env _ _ _ _ _ _). assert (log_env_ok e) as He by (by constructor). split; [done|].
  pose proof (logs_refine_spec e He [OGet "a.log" INFO; OGet "stderr" ERROR; OGet "a.log" INFO; OLevel DEBUG DebugPre 1 "x"; OLevel WARN WarnPre 1 "y"; OPrint 2 "z"; OReopen]%string (mk_logs [] [] None ∅ [])) as H.
  vm_compute in (value of e). revert H. vm_compute. intros (s & s' & H1 & H2 & H3). exists s, s'. split_and!; [done..|].
  by injection H3.
Defined.

(** ** Loggers that do not start *)

Lemma find_logger_app o l all more js : Forall (λ i, i < length all)%nat js → find_logger o l all js = None →
  ∀ ks, find_logger o l (all ++ more) (js ++ ks) = find_logger o l (all ++ more) ks.
Proof.
  intros H Hf ks. induction H as [|i js Hi H IH]; [done|]. cbn in *. rewrite lookup_app_l by done. destruct (all !! i) as [g|]; [|by apply IH].
  destruct (_ && _); [done|]. by apply IH.
Qed.
(** A start that fails leaves a logger without anything to write to. *)
Lemma failed_start e i s g err s' : lg_all s !! i = Some g → logger_Start e i s = Ret (Some err, s') →
  ∃ g', lg_all s' = <[i:=g']> (lg_all s) ∧ lg_loggers s' = lg_loggers s ∧ key_of g' = key_of g ∧ lg_Logger g' = lg_Logger g ∧ lg_locked g' = lg_locked g.
Proof.
  intros Hg (o & s1 & E1 & E)%sg_bind_Ret_inv. rewrite (lg_at_run _ _ _ Hg) in E1. injection E1 as <- <-.
  apply sg_bind_Ret_inv in E as (o & s1 & E1 & E). destruct o as [err'|].
  2: { apply sg_bind_Ret_inv in E as (? & ? & _ & E). apply sg_bind_Ret_inv in E as ([] & ? & _ & E). done. }
  injection E as -> <-. unfold choose_writer in E1.
  assert (∀ err0 w, start_syslog i err0 w s = Ret (Some err, s1) →
    ∃ g', lg_all s1 = <[i:=g']> (lg_all s) ∧ lg_loggers s1 = lg_loggers s ∧ key_of g' = key_of g ∧ lg_Logger g' = lg_Logger g ∧ lg_locked g' = lg_locked g) as Hw.
  { intros err0 w (u & s2 & E2 & [= -> <-])%sg_bind_Ret_inv. rewrite (lg_mod_at _ _ _ _ Hg) in E2. injection E2 as _ <-. by eexists. }
  destruct (is_stderr _); [by eapply Hw|]. destruct (is_stdout _); [by eapply Hw|]. case_bool_decide; [by eapply Hw|].
  destruct (parseSyslogAddress _ _) as [[n a]|]; [by eapply Hw|]. unfold start_file in E1.
  apply sg_bind_Ret_inv in E1 as (u & s2 & [= _ <-] & E1). destruct (le_open e _) as [err0|].
  - injection E1 as _ <-. exists g. cbn. split_and!; try done. by rewrite list_insert_id.
  - apply sg_bind_Ret_inv in E1 as (? & ? & _ & E1). apply sg_bind_Ret_inv in E1 as ([] & ? & _ & E1). done.
Qed.

(** A logger that could not be started is handed out later as if it had been, to
    whoever asks for its output and level, and the first line written to it panics. *)
Theorem failed_logger_handed_out e output level s i err s' : Forall (λ i, i < length (lg_all s))%nat (lg_loggers s) →
  GetLoggerInstance e output level s = Ret ((i, Some err), s') →
  (∀ e', GetLoggerInstance e' output level s' = Ret ((i, None), s')) ∧ (∀ text, Printf i text s' = Panic NilDeref).
Proof.
  intros Hl H. unfold GetLoggerInstance in H. apply sg_bind_Ret_inv in H as (? & ? & [= <- <-] & H).
  destruct (find_logger _ _ _ _) eqn:F; [done|]. apply sg_bind_Ret_inv in H as (j & s1 & E1 & H). injection E1 as <- <-.
  apply sg_bind_Ret_inv in H as (r & s2 & E & [= <- -> <-]). eapply failed_start in E as (g' & Ha & Hls & Hk & HL & Hlk); [|cbn; by rewrite list_lookup_middle].
  cbn in *. rewrite insert_app_r_alt, Nat.sub_diag in Ha by lia. cbn in Ha. injection Hk as Ho Hv.
  assert (lg_all s2 !! length (lg_all s) = Some g') as Hg by (by rewrite Ha, list_lookup_middle). split.
  - intros e'. unfold GetLoggerInstance. srun. rewrite Ha, Hls, find_logger_app by done. cbn. rewrite <- Ha, Hg, Ho, Hv, !bool_decide_true by done. done.
  - intros text. unfold Printf, mbind, SG_bind. rewrite (lg_at_run _ _ _ Hg), Hlk, HL. done.
Qed.

(** A file that cannot be opened again: an error, and every later use of the logger waits
    for its lock for ever. *)
Theorem reopen_failure_blocks e i s g w err : lg_all s !! i = Some g → lg_writer g = Some w → is_console (Some w) = false → lg_locked g = false →
  dest e (lg_Output g) = WRoller (default (lg_Output g) (le_abs e (lg_Output g))) → le_open e (lg_Output g) = Some err →
  ∃ s', logger_Reopen e i s = Ret (Some err, s') ∧ (∀ text, Printf i text s' = Panic Deadlock) ∧ (∀ e', logger_Reopen e' i s' = Panic Deadlock).
Proof.
  intros Hg Hw Hc Hl Hd He. assert (i < length (lg_all s))%nat as Hi by by eapply lookup_lt_Some.
  assert (∀ s1, lg_all s1 !! i = Some (set_lg_locked true g) → logger_Start e i s1 = Ret (Some err, mk_logs (lg_all s1) (lg_loggers s1) (lg_Default s1) (lumberjacks s1) (lg_written s1 ++ [(WStdout, text_of_error (le_mkdir e (lg_Output g)))]))) as Hs.
  { intros s1 H1. unfold logger_Start. eapply sg_run; [by apply lg_at_run|]. unfold choose_writer, dest in *. cbn [set_lg_locked lg_Output].
    destruct (is_stderr _); [done|]. destruct (is_stdout _); [done|]. case_bool_decide; [done|]. destruct (parseSyslogAddress _ _) as [[]|]; [done|].
    eapply sg_run; [unfold start_file; srun; cbn; rewrite He; reflexivity|]. done. }
  eexists. split_and!.
  - unfold logger_Reopen. eapply sg_run; [by apply lg_at_run|]. rewrite Hw, Hc, Hl. eapply sg_run; [by apply lg_mod_at|].
    eapply sg_run; [by apply Hs, list_lookup_insert_eq|]. reflexivity.
  - intros text. unfold Printf. eapply sg_run; [by apply lg_at_run, list_lookup_insert_eq|]. done.
  - intros e'. unfold logger_Reopen. eapply sg_run; [by apply lg_at_run, list_lookup_insert_eq|]. cbn [set_lg_locked lg_writer lg_locked]. by rewrite Hw, Hc.
Qed.

(** ** Outputs that can be opened *)

Definition openable (e : log_env) (o : string) : bool :=
  is_stderr o || is_stdout o ||
  (if bool_decide (o = "syslog"%string) then bool_decide (le_syslog e = None)
   else match parseSyslogAddress remoteSyslogPrefixes o with
        | Some (n, a) => bool_decide (le_dial e n a = None)
        | None => bool_decide (le_open e o = None)
        end).

Lemma lg_mod_stays i j f s : is_Some (lg_all s !! i) → ∃ s', lg_mod j f s = Ret (tt, s') ∧ is_Some (lg_all s' !! i).
Proof. intros [g Hg]. eexists. split; [reflexivity|]. cbn. rewrite list_lookup_alter. case_decide; simplify_eq; rewrite Hg; eauto. Qed.

Lemma choose_writer_returns e i g s : is_Some (lg_all s !! i) →
  ∃ err s', choose_writer e i g s = Ret (err, s') ∧ is_Some (lg_all s' !! i) ∧ (err = None ↔ openable e (lg_Output g) = true).
Proof.
  intros Hi. assert (∀ err w, ∃ s', start_syslog i err w s = Ret (err, s') ∧ is_Some (lg_all s' !! i)) as Hw.
  { intros err w. unfold start_syslog. destruct (lg_mod_stays i i (set_lg_writer (match err with None => Some w | Some _ => None end)) s Hi) as (s' & E & ?).
    exists s'. split; [by eapply sg_run; [exact E|]|done]. }
  unfold choose_writer, openable. destruct (is_stderr _); [destruct (Hw None WStderr) as (s' & ? & ?); by exists None, s'|].
  destruct (is_stdout _); [destruct (Hw None WStdout) as (s' & ? & ?); by exists None, s'|]. cbn [orb].
  case_bool_decide; [destruct (Hw (le_syslog e) WSyslog) as (s' & ? & ?); exists (le_syslog e), s'; by rewrite bool_decide_eq_true|].
  destruct (parseSyslogAddress _ _) as [[n a]|].
  { destruct (Hw (le_dial e n a) (WRemote n a)) as (s' & ? & ?). exists (le_dial e n a), s'. split_and!; [done..|by rewrite bool_decide_eq_true]. }
  unfold start_file. unfold mbind at 1, SG_bind, emit_line, sg_modify.
  destruct (le_open e (lg_Output g)) as [err|]; [by eexists (Some err), _|]. destruct (lg_Roller g) as [r|].
  - unfold mbind, SG_bind.
    match goal with |- context [lg_mod i ?f ?s] => destruct (lg_mod_stays i i f s Hi) as (s1 & -> & H1) end.
    unfold GetLogWriter, mbind, SG_bind, sg_modify, mret, SG_ret.
    match goal with |- context [lg_mod i ?f ?s] => destruct (lg_mod_stays i i f s H1) as (s2 & -> & H2) end. by exists None, s2.
  - unfold mbind, SG_bind, mret, SG_ret.
    match goal with |- context [lg_mod i ?f ?s] => destruct (lg_mod_stays i i f s Hi) as (s2 & -> & H2) end. by exists None, s2.
Qed.

Lemma logger_Start_returns e i s g : lg_all s !! i = Some g →
  ∃ err s', logger_Start e i s = Ret (err, s') ∧ (err = None ↔ openable e (lg_Output g) = true).
Proof.
  intros Hg. destruct (choose_writer_returns e i g s (mk_is_Some _ _ Hg)) as (err & s1 & E & [g1 Hg1] & Ho).
  destruct err as [err|].
  - exists (Some err), s1. split; [|done]. eapply sg_run; [by apply lg_at_run|]. by eapply sg_run; [exact E|].
  - eexists None, _. split; [|done]. eapply sg_run; [by apply lg_at_run|]. eapply sg_run; [exact E|].
    eapply sg_run; [by apply lg_at_run|]. by eapply sg_run.
Qed.

(** A logger is made in any case, without an error exactly when its output can be opened. *)
Lemma NewLogger_returns e o l s : ∃ i err s', NewLogger e o l s = Ret ((i, err), s') ∧ (err = None ↔ openable e o = true).
Proof.
  unfold NewLogger. destruct (logger_Start_returns e (length (lg_all s)) (mk_logs (lg_all s ++ [mk_logger o l (Some DefaultRoller) None None false])
    (lg_loggers s ++ [length (lg_all s)]) (lg_Default s) (lumberjacks s) (lg_written s)) (mk_logger o l (Some DefaultRoller) None None false)) as (err & s' & E & Ho).
  { cbn. by apply list_lookup_middle. }
  exists (length (lg_all s)), err, s'. split; [|done]. unfold new_logger, mbind, SG_bind, sg_get, sg_modify, mret, SG_ret. by rewrite E.
Qed.
Lemma InitDefaultLogger_returns e o l s : ∃ err s', InitDefaultLogger e o l s = Ret (err, s') ∧ (err = None ↔ openable e o = true).
Proof.
  unfold InitDefaultLogger. destruct (logger_Start_returns e (length (lg_all s)) (mk_logs (lg_all s ++ [mk_logger o l (Some DefaultRoller) None None false])
    (lg_loggers s ++ [length (lg_all s)]) (Some (length (lg_all s))) (lumberjacks s) (lg_written s)) (mk_logger o l (Some DefaultRoller) None None false)) as (err & s' & E & Ho).
  { cbn. by apply list_lookup_middle. }
  exists err, s'. split; [|done]. exact E.
Qed.
Lemma GetLoggerInstance_returns e o l s : ∃ i err s', GetLoggerInstance e o l s = Ret ((i, err), s') ∧ (openable e o = true → err = None).
Proof.
  unfold GetLoggerInstance. destruct (find_logger o l (lg_all s) (lg_loggers s)) as [i|] eqn:F.
  - exists i, None, s. split; [|done]. eapply sg_run; [reflexivity|]. by rewrite F.
  - destruct (NewLogger_returns e o l s) as (i & err & s' & E & Ho). exists i, err, s'. split; [|tauto]. eapply sg_run; [reflexivity|]. by rewrite F.
Qed.
