(* ===== verification/Connection.v ===== *)
(** * Connections: pkg/network (connection.go, filtermanager.go)

    A connection with its buffers, its filters and its listeners, over a socket
    that does what a script says.  The two goroutines of a connection are the
    iterations of their loops, [read_iteration] and [write_iteration]; other
    goroutines call the remaining operations.  The hand-over of a connection to
    a new process (transfer.go) is left out.

    Filters and listeners are parameters: computations on the connection and on
    the rest of the world [W], so that they may write, close or disable reading
    themselves. *)

From S2P Require Import Prelude IoBuffer StateGo.

Local Open Scope Z_scope.

(** ** Events and statuses (pkg/types/network.go) *)

Inductive ConnectionEvent :=
  | RemoteClose | LocalClose | OnReadErrClose | OnWriteErrClose | OnConnect | Connected | ConnectTimeout | ConnectFailed.
#[export] Instance ConnectionEvent_eq_dec : EqDecision ConnectionEvent.
Proof. solve_decision. Defined.

Definition IsClose (e : ConnectionEvent) : bool :=
  match e with LocalClose | RemoteClose | OnReadErrClose | OnWriteErrClose => true | _ => false end.
Definition ConnectFailure (e : ConnectionEvent) : bool :=
  match e with ConnectFailed | ConnectTimeout => true | _ => false end.

Inductive ConnectionCloseType := FlushWrite | NoFlush.
Inductive FilterStatus := Continue | StopIteration.

(** ** The socket

    The bytes that come in, in the pieces the network delivers, then what ends
    them; how many bytes each write takes, and its error. *)
Record socket := mk_sock {
  sk_in : list bytes; sk_end : io_error;
  sk_writes : list (nat * option io_error); sk_sent : bytes;
}.
Definition sock_read (k : socket) (n : Z) : socket * bytes * option io_error :=
  match sk_in k with
  | [] => (k, [], Some (sk_end k))
  | c :: rest =>
    let d := take (Z.to_nat n) c in
    let rest := if bool_decide (length c ≤ Z.to_nat n)%nat then rest else drop (Z.to_nat n) c :: rest in
    (mk_sock rest (sk_end k) (sk_writes k) (sk_sent k), d, None)
  end.
(** A write takes all the bytes when the script has nothing else to say. *)
Definition sock_write (k : socket) (p : bytes) : socket * Z * option io_error :=
  let '(m, e, rest) := match sk_writes k with [] => (length p, None, []) | (m, e) :: rest => (m, e, rest) end in
  let d := take m p in
  (mk_sock (sk_in k) (sk_end k) rest (sk_sent k ++ d), Z.of_nat (length d), e).

(** ** The state *)

(** What [rawConnection] holds: no interface value, a nil [*net.TCPConn] (after a
    failed dial), or a socket. *)
Inductive raw_conn := RawNil | RawNilTCP | Raw.

Record activeReadFilter := mk_arf { arf_filter : nat; arf_index : nat; arf_initialized : bool }.

Record ConnectionStats := mk_stats { ReadTotal : Z; ReadCurrent : Z; WriteTotal : Z; WriteCurrent : Z }.

(** [readEnabledChan] and [writeBufferChan] have room for one value; [stopped] is
    whether [internalStopChan] is closed. *)
Record connection := mk_conn {
  rawConnection : raw_conn; sock : socket;
  readEnabled : bool; readDisableCount : Z; readEnabledChan : bool;
  bufferLimit : Z; aboveHighWatermark : bool; closeWithFlush : bool;
  connCallbacks : list nat; bytesReadCallbacks : list nat; bytesSendCallbacks : list nat;
  upstreamFilters : list activeReadFilter; downstreamFilters : list nat;
  curWriteBufferData : list (option IoBuffer); readBuffer : option IoBuffer; writeBuffer : option IoBuffer;
  writeBufferChan : bool; internalLoopStarted : bool; stopped : bool;
  stats : option ConnectionStats; lastBytesSizeRead : Z; lastWriteSizeWrite : Z;
  closed : bool; connected_once : bool;
}.
Definition set_rawConnection (v : raw_conn) (s : connection) : connection :=
  mk_conn v (sock s) (readEnabled s) (readDisableCount s) (readEnabledChan s) (bufferLimit s)
    (aboveHighWatermark s) (closeWithFlush s) (connCallbacks s) (bytesReadCallbacks s)
    (bytesSendCallbacks s) (upstreamFilters s) (downstreamFilters s) (curWriteBufferData s)
    (readBuffer s) (writeBuffer s) (writeBufferChan s) (internalLoopStarted s) (stopped s) (stats s)
    (lastBytesSizeRead s) (lastWriteSizeWrite s) (closed s) (connected_once s).
Definition set_sock (v : socket) (s : connection) : connection :=
  mk_conn (rawConnection s) v (readEnabled s) (readDisableCount s) (readEnabledChan s)
    (bufferLimit s) (aboveHighWatermark s) (closeWithFlush s) (connCallbacks s)
    (bytesReadCallbacks s) (bytesSendCallbacks s) (upstreamFilters s) (downstreamFilters s)
    (curWriteBufferData s) (readBuffer s) (writeBuffer s) (writeBufferChan s)
    (internalLoopStarted s) (stopped s) (stats s) (lastBytesSizeRead s) (lastWriteSizeWrite s)
    (closed s) (connected_once s).
Definition set_readEnabled (v : bool) (s : connection) : connection :=
  mk_conn (rawConnection s) (sock s) v (readDisableCount s) (readEnabledChan s) (bufferLimit s)
    (aboveHighWatermark s) (closeWithFlush s) (connCallbacks s) (bytesReadCallbacks s)
    (bytesSendCallbacks s) (upstreamFilters s) (downstreamFilters s) (curWriteBufferData s)
    (readBuffer s) (writeBuffer s) (writeBufferChan s) (internalLoopStarted s) (stopped s) (stats s)
    (lastBytesSizeRead s) (lastWriteSizeWrite s) (closed s) (connected_once s).
Definition set_readDisableCount (v : Z) (s : connection) : connection :=
  mk_conn (rawConnection s) (sock s) (readEnabled s) v (readEnabledChan s) (bufferLimit s)
    (aboveHighWatermark s) (closeWithFlush s) (connCallbacks s) (bytesReadCallbacks s)
    (bytesSendCallbacks s) (upstreamFilters s) (downstreamFilters s) (curWriteBufferData s)
    (readBuffer s) (writeBuffer s) (writeBufferChan s) (internalLoopStarted s) (stopped s) (stats s)
    (lastBytesSizeRead s) (lastWriteSizeWrite s) (closed s) (connected_once s).
Definition set_readEnabledChan (v : bool) (s : connection) : connection :=
  mk_conn (rawConnection s) (sock s) (readEnabled s) (readDisableCount s) v (bufferLimit s)
    (aboveHighWatermark s) (closeWithFlush s) (connCallbacks s) (bytesReadCallbacks s)
    (bytesSendCallbacks s) (upstreamFilters s) (downstreamFilters s) (curWriteBufferData s)
    (readBuffer s) (writeBuffer s) (writeBufferChan s) (internalLoopStarted s) (stopped s) (stats s)
    (lastBytesSizeRead s) (lastWriteSizeWrite s) (closed s) (connected_once s).
Definition set_bufferLimit (v : Z) (s : connection) : connection :=
  mk_conn (rawConnection s) (sock s) (readEnabled s) (readDisableCount s) (readEnabledChan s) v
    (aboveHighWatermark s) (closeWithFlush s) (connCallbacks s) (bytesReadCallbacks s)
    (bytesSendCallbacks s) (upstreamFilters s) (downstreamFilters s) (curWriteBufferData s)
    (readBuffer s) (writeBuffer s) (writeBufferChan s) (internalLoopStarted s) (stopped s) (stats s)
    (lastBytesSizeRead s) (lastWriteSizeWrite s) (closed s) (connected_once s).
Definition set_aboveHighWatermark (v : bool) (s : connection) : connection :=
  mk_conn (rawConnection s) (sock s) (readEnabled s) (readDisableCount s) (readEnabledChan s)
    (bufferLimit s) v (closeWithFlush s) (connCallbacks s) (bytesReadCallbacks s)
    (bytesSendCallbacks s) (upstreamFilters s) (downstreamFilters s) (curWriteBufferData s)
    (readBuffer s) (writeBuffer s) (writeBufferChan s) (internalLoopStarted s) (stopped s) (stats s)
    (lastBytesSizeRead s) (lastWriteSizeWrite s) (closed s) (connected_once s).
Definition set_closeWithFlush (v : bool) (s : connection) : connection :=
  mk_conn (rawConnection s) (sock s) (readEnabled s) (readDisableCount s) (readEnabledChan s)
    (bufferLimit s) (aboveHighWatermark s) v (connCallbacks s) (bytesReadCallbacks s)
    (bytesSendCallbacks s) (upstreamFilters s) (downstreamFilters s) (curWriteBufferData s)
    (readBuffer s) (writeBuffer s) (writeBufferChan s) (internalLoopStarted s) (stopped s) (stats s)
    (lastBytesSizeRead s) (lastWriteSizeWrite s) (closed s) (connected_once s).
Definition set_connCallbacks (v : list nat) (s : connection) : connection :=
  mk_conn (rawConnection s) (sock s) (readEnabled s) (readDisableCount s) (readEnabledChan s)
    (bufferLimit s) (aboveHighWatermark s) (closeWithFlush s) v (bytesReadCallbacks s)
    (bytesSendCallbacks s) (upstreamFilters s) (downstreamFilters s) (curWriteBufferData s)
    (readBuffer s) (writeBuffer s) (writeBufferChan s) (internalLoopStarted s) (stopped s) (stats s)
    (lastBytesSizeRead s) (lastWriteSizeWrite s) (closed s) (connected_once s).
Definition set_bytesReadCallbacks (v : list nat) (s : connection) : connection :=
  mk_conn (rawConnection s) (sock s) (readEnabled s) (readDisableCount s) (readEnabledChan s)
    (bufferLimit s) (aboveHighWatermark s) (closeWithFlush s) (connCallbacks s) v
    (bytesSendCallbacks s) (upstreamFilters s) (downstreamFilters s) (curWriteBufferData s)
    (readBuffer s) (writeBuffer s) (writeBufferChan s) (internalLoopStarted s) (stopped s) (stats s)
    (lastBytesSizeRead s) (lastWriteSizeWrite s) (closed s) (connected_once s).
Definition set_bytesSendCallbacks (v : list nat) (s : connection) : connection :=
  mk_conn (rawConnection s) (sock s) (readEnabled s) (readDisableCount s) (readEnabledChan s)
    (bufferLimit s) (aboveHighWatermark s) (closeWithFlush s) (connCallbacks s)
    (bytesReadCallbacks s) v (upstreamFilters s) (downstreamFilters s) (curWriteBufferData s)
    (readBuffer s) (writeBuffer s) (writeBufferChan s) (internalLoopStarted s) (stopped s) (stats s)
    (lastBytesSizeRead s) (lastWriteSizeWrite s) (closed s) (connected_once s).
Definition set_upstreamFilters (v : list activeReadFilter) (s : connection) : connection :=
  mk_conn (rawConnection s) (sock s) (readEnabled s) (readDisableCount s) (readEnabledChan s)
    (bufferLimit s) (aboveHighWatermark s) (closeWithFlush s) (connCallbacks s)
    (bytesReadCallbacks s) (bytesSendCallbacks s) v (downstreamFilters s) (curWriteBufferData s)
    (readBuffer s) (writeBuffer s) (writeBufferChan s) (internalLoopStarted s) (stopped s) (stats s)
    (lastBytesSizeRead s) (lastWriteSizeWrite s) (closed s) (connected_once s).
Definition set_downstreamFilters (v : list nat) (s : connection) : connection :=
  mk_conn (rawConnection s) (sock s) (readEnabled s) (readDisableCount s) (readEnabledChan s)
    (bufferLimit s) (aboveHighWatermark s) (closeWithFlush s) (connCallbacks s)
    (bytesReadCallbacks s) (bytesSendCallbacks s) (upstreamFilters s) v (curWriteBufferData s)
    (readBuffer s) (writeBuffer s) (writeBufferChan s) (internalLoopStarted s) (stopped s) (stats s)
    (lastBytesSizeRead s) (lastWriteSizeWrite s) (closed s) (connected_once s).
Definition set_curWriteBufferData (v : list (option IoBuffer)) (s : connection) : connection :=
  mk_conn (rawConnection s) (sock s) (readEnabled s) (readDisableCount s) (readEnabledChan s)
    (bufferLimit s) (aboveHighWatermark s) (closeWithFlush s) (connCallbacks s)
    (bytesReadCallbacks s) (bytesSendCallbacks s) (upstreamFilters s) (downstreamFilters s) v
    (readBuffer s) (writeBuffer s) (writeBufferChan s) (internalLoopStarted s) (stopped s) (stats s)
    (lastBytesSizeRead s) (lastWriteSizeWrite s) (closed s) (connected_once s).
Definition set_readBuffer (v : option IoBuffer) (s : connection) : connection :=
  mk_conn (rawConnection s) (sock s) (readEnabled s) (readDisableCount s) (readEnabledChan s)
    (bufferLimit s) (aboveHighWatermark s) (closeWithFlush s) (connCallbacks s)
    (bytesReadCallbacks s) (bytesSendCallbacks s) (upstreamFilters s) (downstreamFilters s)
    (curWriteBufferData s) v (writeBuffer s) (writeBufferChan s) (internalLoopStarted s) (stopped s)
    (stats s) (lastBytesSizeRead s) (lastWriteSizeWrite s) (closed s) (connected_once s).
Definition set_writeBuffer (v : option IoBuffer) (s : connection) : connection :=
  mk_conn (rawConnection s) (sock s) (readEnabled s) (readDisableCount s) (readEnabledChan s)
    (bufferLimit s) (aboveHighWatermark s) (closeWithFlush s) (connCallbacks s)
    (bytesReadCallbacks s) (bytesSendCallbacks s) (upstreamFilters s) (downstreamFilters s)
    (curWriteBufferData s) (readBuffer s) v (writeBufferChan s) (internalLoopStarted s) (stopped s)
    (stats s) (lastBytesSizeRead s) (lastWriteSizeWrite s) (closed s) (connected_once s).
Definition set_writeBufferChan (v : bool) (s : connection) : connection :=
  mk_conn (rawConnection s) (sock s) (readEnabled s) (readDisableCount s) (readEnabledChan s)
    (bufferLimit s) (aboveHighWatermark s) (closeWithFlush s) (connCallbacks s)
    (bytesReadCallbacks s) (bytesSendCallbacks s) (upstreamFilters s) (downstreamFilters s)
    (curWriteBufferData s) (readBuffer s) (writeBuffer s) v (internalLoopStarted s) (stopped s)
    (stats s) (lastBytesSizeRead s) (lastWriteSizeWrite s) (closed s) (connected_once s).
Definition set_internalLoopStarted (v : bool) (s : connection) : connection :=
  mk_conn (rawConnection s) (sock s) (readEnabled s) (readDisableCount s) (readEnabledChan s)
    (bufferLimit s) (aboveHighWatermark s) (closeWithFlush s) (connCallbacks s)
    (bytesReadCallbacks s) (bytesSendCallbacks s) (upstreamFilters s) (downstreamFilters s)
    (curWriteBufferData s) (readBuffer s) (writeBuffer s) (writeBufferChan s) v (stopped s)
    (stats s) (lastBytesSizeRead s) (lastWriteSizeWrite s) (closed s) (connected_once s).
Definition set_stopped (v : bool) (s : connection) : connection :=
  mk_conn (rawConnection s) (sock s) (readEnabled s) (readDisableCount s) (readEnabledChan s)
    (bufferLimit s) (aboveHighWatermark s) (closeWithFlush s) (connCallbacks s)
    (bytesReadCallbacks s) (bytesSendCallbacks s) (upstreamFilters s) (downstreamFilters s)
    (curWriteBufferData s) (readBuffer s) (writeBuffer s) (writeBufferChan s)
    (internalLoopStarted s) v (stats s) (lastBytesSizeRead s) (lastWriteSizeWrite s) (closed s)
    (connected_once s).
Definition set_stats (v : option ConnectionStats) (s : connection) : connection :=
  mk_conn (rawConnection s) (sock s) (readEnabled s) (readDisableCount s) (readEnabledChan s)
    (bufferLimit s) (aboveHighWatermark s) (closeWithFlush s) (connCallbacks s)
    (bytesReadCallbacks s) (bytesSendCallbacks s) (upstreamFilters s) (downstreamFilters s)
    (curWriteBufferData s) (readBuffer s) (writeBuffer s) (writeBufferChan s)
    (internalLoopStarted s) (stopped s) v (lastBytesSizeRead s) (lastWriteSizeWrite s) (closed s)
    (connected_once s).
Definition set_lastBytesSizeRead (v : Z) (s : connection) : connection :=
  mk_conn (rawConnection s) (sock s) (readEnabled s) (readDisableCount s) (readEnabledChan s)
    (bufferLimit s) (aboveHighWatermark s) (closeWithFlush s) (connCallbacks s)
    (bytesReadCallbacks s) (bytesSendCallbacks s) (upstreamFilters s) (downstreamFilters s)
    (curWriteBufferData s) (readBuffer s) (writeBuffer s) (writeBufferChan s)
    (internalLoopStarted s) (stopped s) (stats s) v (lastWriteSizeWrite s) (closed s)
    (connected_once s).
Definition set_lastWriteSizeWrite (v : Z) (s : connection) : connection :=
  mk_conn (rawConnection s) (sock s) (readEnabled s) (readDisableCount s) (readEnabledChan s)
    (bufferLimit s) (aboveHighWatermark s) (closeWithFlush s) (connCallbacks s)
    (bytesReadCallbacks s) (bytesSendCallbacks s) (upstreamFilters s) (downstreamFilters s)
    (curWriteBufferData s) (readBuffer s) (writeBuffer s) (writeBufferChan s)
    (internalLoopStarted s) (stopped s) (stats s) (lastBytesSizeRead s) v (closed s)
    (connected_once s).
Definition set_closed (v : bool) (s : connection) : connection :=
  mk_conn (rawConnection s) (sock s) (readEnabled s) (readDisableCount s) (readEnabledChan s)
    (bufferLimit s) (aboveHighWatermark s) (closeWithFlush s) (connCallbacks s)
    (bytesReadCallbacks s) (bytesSendCallbacks s) (upstreamFilters s) (downstreamFilters s)
    (curWriteBufferData s) (readBuffer s) (writeBuffer s) (writeBufferChan s)
    (internalLoopStarted s) (stopped s) (stats s) (lastBytesSizeRead s) (lastWriteSizeWrite s) v
    (connected_once s).
Definition set_connected_once (v : bool) (s : connection) : connection :=
  mk_conn (rawConnection s) (sock s) (readEnabled s) (readDisableCount s) (readEnabledChan s)
    (bufferLimit s) (aboveHighWatermark s) (closeWithFlush s) (connCallbacks s)
    (bytesReadCallbacks s) (bytesSendCallbacks s) (upstreamFilters s) (downstreamFilters s)
    (curWriteBufferData s) (readBuffer s) (writeBuffer s) (writeBufferChan s)
    (internalLoopStarted s) (stopped s) (stats s) (lastBytesSizeRead s) (lastWriteSizeWrite s)
    (closed s) v.

(** ** Operations *)

Section connection.
  Context {W : Type}.
  Abbreviation st := (connection * W)%type.
  Abbreviation M := (SG st).

Definition cn {A} (f : connection → A) : M A := λ s, Ret (f s.1, s).
Definition mod_cn (f : connection → connection) : M unit := sg_modify (λ s, (f s.1, s.2)).

(** *** The environment: listeners, filters, and what [sync.Pool] hands out *)

  Context (OnEvent : nat → ConnectionEvent → M unit) (onBytesRead onBytesSent : nat → Z → M unit)
          (OnNewConnection OnData OnWrite : nat → M FilterStatus) (pool_get : option IoBuffer).

Fixpoint for_each (l : list nat) (f : nat → M unit) : M unit :=
  match l with [] => mret tt | x :: l => _ ← f x; for_each l f end.

Definition DefaultBufferCapacity : Z := 4096.
Definition Take : Go IoBuffer := match pool_get with Some b => Ret b | None => NewIoBuffer DefaultBufferCapacity end.
(** What the pool is given back. *)
Definition Give (b : IoBuffer) : Go IoBuffer := Reset b.

(** *** Filters (filtermanager.go) *)

Definition AddReadFilter (rf : nat) : M unit := mod_cn (λ c, set_upstreamFilters (upstreamFilters c ++ [mk_arf rf 0 false])%list c).
Definition AddWriteFilter (wf : nat) : M unit := mod_cn (λ c, set_downstreamFilters (downstreamFilters c ++ [wf])%list c).
Definition ListReadFilter : M (list nat) := cn (λ c, arf_filter <$> upstreamFilters c).
Definition ListWriteFilters : M (list nat) := cn downstreamFilters.

Definition GetReadBuffer (c : connection) : option IoBuffer := readBuffer c.

(** The loop of [onContinueReading] over the filters from [index] on; filters may
    be added meanwhile, hence the fuel. *)
Fixpoint read_filters (fuel index : nat) : M unit :=
  match fuel with
  | O => sg_panic OutOfFuel
  | S fuel =>
    fs ← cn upstreamFilters;
    match fs !! index with
    | None => mret tt
    | Some uf =>
      _ ← mod_cn (λ c, set_upstreamFilters (<[index := mk_arf (arf_filter uf) index true]> (upstreamFilters c)) c);
      status ← (if arf_initialized uf then mret Continue else OnNewConnection (arf_filter uf));
      match status with
      | StopIteration => mret tt
      | Continue =>
        buffer ← cn GetReadBuffer;
        status ← (if match buffer with Some b => bool_decide (0 < Len b) | None => false end
                  then OnData (arf_filter uf) else mret Continue);
        match status with StopIteration => mret tt | Continue => read_filters fuel (S index) end
      end
    end
  end.

(** [filter] is the index of the filter that continues. *)
Definition onContinueReading (fuel : nat) (filter : option nat) : M unit :=
  read_filters fuel (match filter with Some i => S i | None => O end).
Definition ContinueReading (fuel i : nat) : M unit :=
  fs ← cn upstreamFilters;
  match fs !! i with Some uf => onContinueReading fuel (Some (arf_index uf)) | None => mret tt end.
Definition InitializeReadFilters (fuel : nat) : M bool :=
  fs ← cn upstreamFilters;
  match fs with [] => mret false | _ => _ ← onContinueReading fuel None; mret true end.
Definition OnRead (fuel : nat) : M unit := onContinueReading fuel None.

Fixpoint write_filters (l : list nat) : M FilterStatus :=
  match l with
  | [] => mret Continue
  | df :: l =>
    status ← OnWrite df;
    match status with StopIteration => mret StopIteration | Continue => write_filters l end
  end.
Definition fm_OnWrite : M FilterStatus := l ← cn downstreamFilters; write_filters l.

(** *** Reading *)

Definition updateReadBufStats (bytesRead bytesBufSize : Z) : M unit :=
  st ← cn stats;
  match st with
  | None => mret tt
  | Some st =>
    last ← cn lastBytesSizeRead;
    let st := if bool_decide (0 < bytesRead) then mk_stats (ReadTotal st + bytesRead) (ReadCurrent st) (WriteTotal st) (WriteCurrent st) else st in
    if bool_decide (bytesBufSize ≠ last)
    then mod_cn (λ c, set_lastBytesSizeRead bytesBufSize
                        (set_stats (Some (mk_stats (ReadTotal st) bytesBufSize (WriteTotal st) (WriteCurrent st))) c))
    else mod_cn (set_stats (Some st))
  end.

Definition onRead (fuel : nat) (bytesRead : Z) : M unit :=
  en ← cn readEnabled;
  if negb en then mret tt
  else if bool_decide (bytesRead = 0) then mret tt
  else OnRead fuel.

(** [ReadOnce] never needs more than 129 iterations; its timeouts are no errors. *)
Definition doRead (fuel : nat) : M (option io_error) :=
  rb ← cn readBuffer;
  b ← sg_lift (match rb with Some b => Ret b | None => Take end);
  k ← cn sock;
  '(k, b, n, err) ← sg_lift (ReadOnce sock_read 129 k b true);
  _ ← mod_cn (λ c, set_sock k (set_readBuffer (Some b) c));
  match err with
  | Some RTimeout => mret err
  | Some _ =>
    _ ← sg_lift (Give b);
    _ ← mod_cn (set_readBuffer None);
    mret err
  | None =>
    _ ← updateReadBufStats n (Len b);
    cbs ← cn bytesReadCallbacks;
    _ ← for_each cbs (λ cb, onBytesRead cb n);
    _ ← onRead fuel n;
    mret None
  end.

(** *** Writing *)

Definition writeBufLen (c : connection) : Z := match writeBuffer c with Some b => Len b | None => 0 end.

(** [buf.WriteTo(c.writeBuffer.Br)]: a buffer is drained into another one. *)
Definition buffer_writer (st : Go IoBuffer) (p : bytes) : Go IoBuffer * Z * option io_error :=
  match st ≫= λ b, Write b p with
  | Ret (b, n) => (Ret b, n, None)
  | Panic k => (Panic k, 0, None)
  end.
(** The buffers as they are afterwards: the caller shares them. *)
Fixpoint write_buffers (w : IoBuffer) (l : list (option IoBuffer)) : Go (IoBuffer * list (option IoBuffer)) :=
  match l with
  | [] => Ret (w, [])
  | None :: l => '(w, l) ← write_buffers w l; Ret (w, None :: l)
  | Some b :: l =>
    '(w, b, _, _) ← WriteTo buffer_writer (Ret w) b;
    w ← w;
    '(w, l) ← write_buffers w l;
    Ret (w, Some b :: l)
  end.

(** The filters see the buffers, and may change them. *)
Definition conn_Write (buffers : list (option IoBuffer)) : M (list (option IoBuffer)) :=
  _ ← mod_cn (set_curWriteBufferData buffers);
  fs ← fm_OnWrite;
  buffers ← cn curWriteBufferData;
  _ ← mod_cn (set_curWriteBufferData []);
  match fs with
  | StopIteration => mret buffers
  | Continue =>
    wb ← cn writeBuffer;
    w ← sg_lift (match wb with Some b => Ret b | None => Take end);
    '(w, buffers) ← sg_lift (write_buffers w buffers);
    _ ← mod_cn (λ c, set_writeBufferChan true (set_writeBuffer (Some w) c));
    mret buffers
  end.

(** The loop ends when the buffer is empty or a write fails; timeouts are retried. *)
Fixpoint doWriteIo (fuel : nat) (bytesSent : Z) (err : option io_error) : M (Z * option io_error) :=
  match fuel with
  | O => sg_panic OutOfFuel
  | S fuel =>
    n ← cn writeBufLen;
    if bool_decide (0 < n) then
      o ← cn writeBuffer;
      w ← sg_deref o;
      k ← cn sock;
      '(k, w, m, err) ← sg_lift (WriteTo sock_write k w);
      _ ← mod_cn (λ c, set_sock k (set_writeBuffer (Some w) c));
      match err with
      | None | Some RTimeout => doWriteIo fuel (bytesSent + m) err
      | Some _ => mret (bytesSent + m, err)
      end
    else mret (bytesSent, err)
  end.

Definition updateWriteBuffStats (bytesWrite bytesBufSize : Z) : M unit :=
  st ← cn stats;
  match st with
  | None => mret tt
  | Some st =>
    last ← cn lastWriteSizeWrite;
    let st := if bool_decide (0 < bytesWrite) then mk_stats (ReadTotal st) (ReadCurrent st) (WriteTotal st + bytesWrite) (WriteCurrent st) else st in
    if bool_decide (bytesBufSize ≠ last)
    then mod_cn (λ c, set_lastWriteSizeWrite bytesBufSize
                        (set_stats (Some (mk_stats (ReadTotal st) (ReadCurrent st) (WriteTotal st) bytesBufSize)) c))
    else mod_cn (set_stats (Some st))
  end.

Definition doWrite (fuel : nat) : M (Z * option io_error) :=
  '(bytesSent, err) ← doWriteIo fuel 0 None;
  n ← cn writeBufLen;
  _ ← updateWriteBuffStats bytesSent n;
  cbs ← cn bytesSendCallbacks;
  _ ← for_each cbs (λ cb, onBytesSent cb bytesSent);
  mret (bytesSent, err).

(** *** Closing *)

Fixpoint flush (fuel : nat) : M unit :=
  match fuel with
  | O => sg_panic OutOfFuel
  | S fuel' =>
    '(bytesSent, err) ← doWrite fuel;
    match err with
    | None | Some RTimeout => if bool_decide (bytesSent = 0) then mret tt else flush fuel'
    | Some _ => mret tt
    end
  end.

(** The address of a nil [*net.TCPConn] is asked for when one is closed; closing
    a closed channel panics; the totals are read for a log message. *)
Definition Close (fuel : nat) (ccType : ConnectionCloseType) (eventType : ConnectionEvent) : M unit :=
  cl ← cn closed;
  if cl : bool then mret tt
  else
  _ ← mod_cn (set_closed true);
  raw ← cn rawConnection;
  match raw with
  | RawNil => mret tt
  | RawNilTCP => sg_panic NilDeref
  | Raw =>
    n ← cn writeBufLen;
    _ ← match ccType with
        | FlushWrite => sg_when (bool_decide (0 < n)) (_ ← mod_cn (set_closeWithFlush true); flush fuel)
        | NoFlush => mret tt
        end;
    started ← cn internalLoopStarted;
    stop ← cn stopped;
    _ ← sg_when started (_ ← sg_lift (go_assert (negb stop) (UserPanic "close of closed channel")); mod_cn (set_stopped true));
    st ← cn stats;
    _ ← sg_deref st;
    _ ← updateReadBufStats 0 0;
    _ ← updateWriteBuffStats 0 0;
    cbs ← cn connCallbacks;
    for_each cbs (λ cb, OnEvent cb eventType)
  end.

(** *** The loops: one iteration; whether the loop goes on *)

Definition read_iteration (fuel : nat) : M bool :=
  stop ← cn stopped;
  if stop : bool then mret false
  else
  ch ← cn readEnabledChan;
  if ch : bool then _ ← mod_cn (set_readEnabledChan false); mret true
  else
  en ← cn readEnabled;
  if en : bool then
    err ← doRead fuel;
    match err with
    | None => mret true
    | Some EOF => _ ← Close fuel NoFlush RemoteClose; mret false
    | Some _ => _ ← Close fuel NoFlush OnReadErrClose; mret false
    end
  else mret true.

(** Without a value in the channel the loop waits. *)
Definition write_iteration (fuel : nat) : M bool :=
  stop ← cn stopped;
  if stop : bool then mret false
  else
  ch ← cn writeBufferChan;
  if negb ch then mret true
  else
  _ ← mod_cn (set_writeBufferChan false);
  '(_, err) ← doWrite fuel;
  match err with
  | None | Some RTimeout => mret true
  | Some EOF => _ ← Close fuel NoFlush RemoteClose; mret false
  | Some _ => _ ← Close fuel NoFlush OnWriteErrClose; mret false
  end.

(** *** Settings *)

(** The addresses of two variables are compared, so every listener is added. *)
Definition AddConnectionEventListener (cb : nat) : M unit := mod_cn (λ c, set_connCallbacks (connCallbacks c ++ [cb])%list c).
Definition AddBytesReadListener (cb : nat) : M unit := mod_cn (λ c, set_bytesReadCallbacks (bytesReadCallbacks c ++ [cb])%list c).
Definition AddBytesSentListener (cb : nat) : M unit := mod_cn (λ c, set_bytesSendCallbacks (bytesSendCallbacks c ++ [cb])%list c).

(** Whether the caller has to wait for the read loop to take a value. *)
Definition SetReadDisable (disable : bool) : M bool :=
  en ← cn readEnabled;
  n ← cn readDisableCount;
  if disable then
    if negb en then _ ← mod_cn (set_readDisableCount (n + 1)); mret false
    else _ ← mod_cn (set_readEnabled false); mret false
  else if bool_decide (0 < n) then _ ← mod_cn (set_readDisableCount (n - 1)); mret false
  else
    full ← cn readEnabledChan;
    _ ← mod_cn (λ c, set_readEnabledChan true (set_readEnabled true c));
    mret full.

Definition SetBufferLimit (limit : Z) : M unit := sg_when (bool_decide (0 < limit)) (mod_cn (set_bufferLimit limit)).
Definition SetStats (s : option ConnectionStats) : M unit := mod_cn (set_stats s).
Definition OnHighWatermark : M unit := mod_cn (set_aboveHighWatermark true).
Definition OnLowWatermark : M unit := mod_cn (set_aboveHighWatermark false).

Definition Start : M unit := mod_cn (set_internalLoopStarted true).

(** *** Client connections: [dial] is the outcome of the dial *)

Definition Connect (dial : option io_error) (ioEnabled : bool) : M (option io_error) :=
  once ← cn connected_once;
  if once : bool then mret None
  else
  _ ← mod_cn (set_connected_once true);
  _ ← match dial with
      | Some _ => mod_cn (set_rawConnection RawNilTCP)
      | None => _ ← mod_cn (set_rawConnection Raw); sg_when ioEnabled Start
      end;
  let event := match dial with
               | Some EOF => RemoteClose | Some RTimeout => ConnectTimeout | Some _ => ConnectFailed | None => Connected end in
  cbs ← cn connCallbacks;
  _ ← for_each cbs (λ cb, OnEvent cb event);
  mret dial.
End connection.

(** New connections over a socket. *)
Definition new_stats : ConnectionStats := mk_stats 0 0 0 0.
Definition NewServerConnection (k : socket) : connection :=
  mk_conn Raw k true 0 false 0 false false [] [] [] [] [] [] None None false false false (Some new_stats) 0 0 false false.
Definition NewClientConnection (k : socket) : connection :=
  mk_conn RawNil k true 0 false 0 false false [] [] [] [] [] [] None None false false false (Some new_stats) 0 0 false false.
