(* ===== verification/ConnectionProps.v ===== *)
(** * Properties of connections

    The order in which filters are called; bytes written arrive once and in
    order; a connection is closed once. *)

From S2P Require Import Prelude IoBuffer StateGo Connection.

Local Open Scope Z_scope.

(** ** Read filters are opened once, and in order *)

Section filters.
  Context {W : Type}.

(** What the manager calls, the latest last. *)
Inductive filter_call := CallNew (f : nat) | CallData (f : nat).
Definition new_calls (l : list filter_call) : list nat := omap (λ c, match c with CallNew f => Some f | CallData _ => None end) l.
Definition data_after_new (l : list filter_call) : Prop :=
  ∀ l1 f l2, l = (l1 ++ CallData f :: l2)%list → CallNew f ∈ l1.

  Abbreviation st := (connection * (W * list filter_call))%type.

(** Filters do what they like; their calls are recorded. *)
  Context (new_conn data : nat → SG st FilterStatus).
Definition record (c : filter_call) : SG st unit := sg_modify (λ s, (s.1, (s.2.1, s.2.2 ++ [c])%list)).
Definition on_new (f : nat) : SG st FilterStatus := _ ← record (CallNew f); new_conn f.
Definition on_data (f : nat) : SG st FilterStatus := _ ← record (CallData f); data f.

(** At least [k] filters, and only the first ones, are open; the calls start
    with [pre]. *)
Definition in_order (k : nat) (pre : list filter_call) (s : st) : Prop := ∃ n,
  let fs := upstreamFilters s.1 in
  (k ≤ n ≤ length fs)%nat ∧
  (∀ i uf, fs !! i = Some uf → arf_initialized uf = bool_decide (i < n)%nat ∧ ((i < n)%nat → arf_index uf = i)) ∧
  new_calls s.2.2 = take n (arf_filter <$> fs) ∧ data_after_new s.2.2 ∧ pre `prefix_of` s.2.2.

Lemma new_calls_app l c : new_calls (l ++ [c]) = (new_calls l ++ match c with CallNew f => [f] | CallData _ => [] end)%list.
Proof. unfold new_calls. rewrite omap_app. by destruct c. Qed.

Lemma data_after_new_snoc l c : data_after_new l → match c with CallNew _ => True | CallData f => CallNew f ∈ l end →
  data_after_new (l ++ [c]).
Proof.
  intros Hl Hc l1 f l2 E. destruct l2 as [|x l2 _] using rev_ind.
  - apply app_inj_tail in E as [-> ->]. done.
  - rewrite app_comm_cons, app_assoc in E. apply app_inj_tail in E as [E _]. by eapply Hl.
Qed.

Lemma in_new_calls l f : f ∈ new_calls l → CallNew f ∈ l.
Proof. unfold new_calls. rewrite list_elem_of_omap. by intros ([g|g] & ? & [= ->]). Qed.

Lemma in_order_weaken k k' pre pre' s : (k' ≤ k)%nat → pre' `prefix_of` pre → in_order k pre s → in_order k' pre' s.
Proof. intros ? ? (n & ? & ? & ? & ? & ?). exists n. split_and!; [lia|lia|done|done|done|by etrans]. Qed.

Definition mark (index : nat) (uf : activeReadFilter) (c : connection) : connection :=
  set_upstreamFilters (<[index := mk_arf (arf_filter uf) index true]> (upstreamFilters c)) c.

(** A filter that was opened may be given data. *)
Lemma data_call k pre f s : in_order k pre s → CallNew f ∈ pre →
  in_order k pre (s.1, (s.2.1, s.2.2 ++ [CallData f])%list).
Proof.
  intros (n & Hk & Hf & Hc & Hd & Hp) Hin. exists n. cbn. split_and!; [lia|lia|done|by rewrite new_calls_app, app_nil_r| |].
  - apply data_after_new_snoc; [done|]. destruct Hp as [l ->]. apply elem_of_app. by left.
  - by apply prefix_app_r.
Qed.

(** An open filter is marked already, and its call is recorded. *)
Lemma mark_open k pre index uf s : in_order k pre s → upstreamFilters s.1 !! index = Some uf → arf_initialized uf = true →
  mark index uf s.1 = s.1 ∧ in_order (Nat.max k (S index)) s.2.2 s ∧ CallNew (arf_filter uf) ∈ s.2.2.
Proof.
  intros (n & Hk & Hf & Hc & Hd & Hp) Hi Hb. destruct (Hf _ _ Hi) as [Ht Hx]. rewrite Hb in Ht. symmetry in Ht.
  apply bool_decide_eq_true in Ht. specialize (Hx Ht). split_and!.
  - unfold mark. rewrite list_insert_id; [by destruct (s.1)|]. rewrite Hi. f_equal. destruct uf. cbn in *. by subst.
  - exists n. cbn in *. by split_and!; [lia|lia|..].
  - apply in_new_calls. rewrite Hc.
    apply (list_elem_of_lookup_2 _ index). rewrite lookup_take_lt by done. by rewrite list_lookup_fmap, Hi.
Qed.

(** The first one that is not open is opened. *)
Lemma mark_next k pre index uf s : in_order k pre s → (index ≤ k)%nat → upstreamFilters s.1 !! index = Some uf →
  arf_initialized uf = false → let log := (s.2.2 ++ [CallNew (arf_filter uf)])%list in
  in_order (Nat.max k (S index)) log (mark index uf s.1, (s.2.1, log)).
Proof.
  intros (n & Hk & Hf & Hc & Hd & Hp) Hle Hi Hb. destruct (Hf _ _ Hi) as [Ht _]. rewrite Hb in Ht. symmetry in Ht.
  apply bool_decide_eq_false in Ht. cbn in Hk. assert (index = n ∧ k = n) as [-> ->] by lia.
  pose proof (lookup_lt_Some _ _ _ Hi) as Hlt. exists (S n). cbn. rewrite length_insert. split_and!; [lia|lia| | | |done].
  - intros j uf' Hj. destruct (decide (j = n)) as [->|].
    + rewrite list_lookup_insert_eq in Hj by done. injection Hj as <-. cbn. by rewrite bool_decide_true by lia.
    + rewrite list_lookup_insert_ne in Hj by done. destruct (Hf _ _ Hj) as [-> Hx]. split; [apply bool_decide_ext; lia|].
      intros ?. apply Hx. lia.
  - rewrite new_calls_app, Hc. rewrite list_fmap_insert. cbn. rewrite list_insert_id by by rewrite list_lookup_fmap, Hi.
    symmetry. apply take_S_r. by rewrite list_lookup_fmap, Hi.
  - by apply data_after_new_snoc.
Qed.

(** What a filter may do: anything that keeps this order. *)
Definition orderly (m : SG st FilterStatus) : Prop := ∀ k pre, keeps (in_order k pre) m.
  Hypothesis (Hnew : ∀ f, orderly (new_conn f)) (Hdata : ∀ f, orderly (data f)).

Lemma read_filters_in_order fuel index k pre :
  (index ≤ k)%nat → keeps (in_order k pre) (read_filters on_new on_data fuel index).
Proof.
  revert index k pre. induction fuel as [|fuel IH]; intros index k pre Hle s a s' Hs E; [done|]. cbn [read_filters] in E.
  apply sg_bind_Ret_inv in E as (fs & s0 & [= <- <-] & E).
  destruct (upstreamFilters s.1 !! index) as [uf|] eqn:Hi; [|by injection E as _ <-].
  apply sg_bind_Ret_inv in E as (u & s1 & [= <- <-] & E). fold (mark index uf s.1) in E.
  assert (pre `prefix_of` s.2.2) as Hpre by (by destruct Hs as (? & ? & ? & ? & ? & ?)).
  assert (∀ log s1 s2, pre `prefix_of` log → CallNew (arf_filter uf) ∈ log → in_order (Nat.max k (S index)) log s1 →
    (buffer ← cn GetReadBuffer;
     status ← (if match buffer with Some b => bool_decide (0 < Len b) | None => false end
               then on_data (arf_filter uf) else mret Continue);
     match status with StopIteration => mret tt | Continue => read_filters on_new on_data fuel (S index) end : SG st unit) s1
      = Ret (a, s2) → in_order k pre s2) as Hbuf.
  { intros log s1 s2 Hl Hin H1 E1. apply sg_bind_Ret_inv in E1 as (b & ? & [= <- <-] & E1).
    apply sg_bind_Ret_inv in E1 as (x & s3 & E2 & E1). assert (in_order (Nat.max k (S index)) log s3) as H3.
    { destruct (match GetReadBuffer s1.1 with Some b => bool_decide (0 < Len b) | None => false end); [|by injection E2 as _ <-].
      unfold on_data in E2. apply sg_bind_Ret_inv in E2 as (? & s4 & [= <- <-] & E2). eapply Hdata; [|exact E2]. by apply data_call. }
    eapply (in_order_weaken (Nat.max k (S index)) _ log); [lia|done|].
    destruct x; [|by injection E1 as _ <-]. eapply IH; [|exact H3|exact E1]. lia. }
  apply sg_bind_Ret_inv in E as (x & s2 & E2 & E). destruct (arf_initialized uf) eqn:Hb.
  - injection E2 as <- <-. destruct (mark_open k pre index uf s Hs Hi Hb) as (Em & H1 & H2). rewrite Em in E.
    eapply Hbuf; [exact Hpre|exact H2| |exact E]. by destruct s.
  - unfold on_new in E2. apply sg_bind_Ret_inv in E2 as (? & s3 & [= <- <-] & E2).
    pose proof (mark_next k pre index uf s Hs Hle Hi Hb) as H1. cbn in E2, H1.
    set (log := (s.2.2 ++ [CallNew (arf_filter uf)])%list) in *.
    assert (pre `prefix_of` log) as Hl by by apply prefix_app_r. pose proof (Hnew _ (Nat.max k (S index)) log _ _ _ H1 E2) as H2.
    destruct x; [|injection E as _ <-; eapply in_order_weaken; [|exact Hl|exact H2]; lia].
    eapply Hbuf; [exact Hl| |exact H2|exact E]. apply elem_of_app. right. by left.
Qed.

(** What happens to a connection's filters: they are added, data comes in, and a
    filter that was opened continues reading. *)
Inductive filter_op := FAdd (f : nat) | FInit | FRead | FContinue (i : nat).
Definition run_filter_op (fuel : nat) (op : filter_op) : SG st unit :=
  match op with
  | FAdd f => AddReadFilter f
  | FInit => _ ← InitializeReadFilters on_new on_data fuel; mret tt
  | FRead => OnRead on_new on_data fuel
  | FContinue i =>
    fs ← cn upstreamFilters;
    if match fs !! i with Some uf => arf_initialized uf | None => false end then ContinueReading on_new on_data fuel i else mret tt
  end.
Fixpoint run_filter_ops (fuel : nat) (l : list filter_op) : SG st unit :=
  match l with [] => mret tt | op :: l => _ ← run_filter_op fuel op; run_filter_ops fuel l end.

Lemma run_filter_op_in_order fuel op k pre : keeps (in_order k pre) (run_filter_op fuel op).
Proof.
  destruct op as [f| | |i]; cbn [run_filter_op].
  - apply keeps_modify. intros s (n & Hk & Hf & Hc & Hd). exists n. cbn. rewrite length_app. cbn. split_and!; [lia|lia| | |apply Hd|apply Hd].
    + intros j uf [Hj|[Hj Huf]]%lookup_app_Some; [by apply Hf|]. apply list_lookup_singleton_Some in Huf as [Hj0 <-]. cbn.
      rewrite bool_decide_false by lia. split; [done|lia].
    + rewrite fmap_app, take_app_le; [done|]. rewrite length_fmap. lia.
  - unfold InitializeReadFilters. apply keeps_bind; [|intros; apply keeps_ret]. apply keeps_bind; [by intros s a s' Hs [= _ <-]|].
    intros [|]; [apply keeps_ret|]. apply keeps_bind; [|intros; apply keeps_ret]. apply read_filters_in_order. lia.
  - apply read_filters_in_order. lia.
  - intros s a s' Hs E. apply sg_bind_Ret_inv in E as (fs & ? & [= <- <-] & E).
    destruct (upstreamFilters s.1 !! i) as [uf|] eqn:Hi; [|by injection E as _ <-].
    destruct (arf_initialized uf) eqn:Hb; [|by injection E as _ <-].
    destruct (mark_open k pre i uf s Hs Hi Hb) as (_ & H1 & _).
    assert (pre `prefix_of` s.2.2) as Hpre by (by destruct Hs as (? & ? & ? & ? & ? & ?)).
    unfold ContinueReading in E. apply sg_bind_Ret_inv in E as (fs & ? & [= <- <-] & E). rewrite Hi in E.
    assert (arf_index uf = i) as Hx.
    { destruct Hs as (n & _ & Hf & _). destruct (Hf _ _ Hi) as [Ht Hx]. apply Hx. rewrite Hb in Ht. symmetry in Ht.
      by apply bool_decide_eq_true in Ht. }
    rewrite Hx in E. eapply (in_order_weaken (Nat.max k (S i)) _ s.2.2); [lia|done|].
    eapply (read_filters_in_order fuel (S i)); [|exact H1|exact E]. lia.
Qed.

(** However data comes in and filters continue, also from within their own
    callbacks, the filters of a connection are opened each once and in the order
    they were added, and a filter is given data only after it was opened. *)
Theorem filters_open_in_order fuel l c w s : upstreamFilters c = [] → run_filter_ops fuel l (c, (w, [])) = Ret (tt, s) →
  ∃ n, new_calls s.2.2 = take n (arf_filter <$> upstreamFilters s.1) ∧ data_after_new s.2.2 ∧
    ∀ i uf, upstreamFilters s.1 !! i = Some uf → arf_initialized uf = bool_decide (i < n)%nat.
Proof.
  intros Hc E. assert (in_order 0 [] (c, (w, []))) as H0.
  { exists 0%nat. cbn. rewrite Hc. split_and!; cbn; try done. by intros [|] ? ? ?. }
  assert (∀ l s0, in_order 0 [] s0 → run_filter_ops fuel l s0 = Ret (tt, s) → in_order 0 [] s) as Hrun.
  { clear E H0. intros l0. induction l0 as [|op l' IH]; intros s0 H0 E; [by injection E as <-|].
    cbn [run_filter_ops] in E. apply sg_bind_Ret_inv in E as (? & s1 & E1 & E). eapply IH; [|exact E].
    eapply run_filter_op_in_order; [exact H0|exact E1]. }
  destruct (Hrun l _ H0 E) as (n & _ & Hf & Hn & Hd & _). exists n. split_and!; [done..|]. intros i uf Hi. by apply Hf.
Qed.
End filters.

(** Three filters: the second stops when it is opened, and continues later from
    its data callback. *)
Definition tw : Type := connection * (unit * list filter_call).
Definition demo_new (f : nat) : SG tw FilterStatus := mret (if bool_decide (f = 1%nat) then StopIteration else Continue).
Definition demo_data (f : nat) : SG tw FilterStatus := mret Continue.
Definition demo_conn : connection := set_readBuffer (Some (NewIoBufferString "abc")) (NewServerConnection (mk_sock [] EOF [] [])).
Definition demo_ops : list filter_op := [FAdd 0; FAdd 1; FAdd 2; FInit; FRead; FContinue 1; FRead].

Lemma filters_open_in_order_witness :
  match run_filter_ops demo_new demo_data 5 demo_ops (demo_conn, (tt, [])) with
  | Ret (_, s) =>
    s.2.2 = [CallNew 0; CallData 0; CallNew 1; CallData 0; CallData 1; CallNew 2; CallData 2; CallData 2; CallData 0; CallData 1; CallData 2] ∧
    data_after_new s.2.2
  | Panic _ => False
  end.
Proof.
  destruct (run_filter_ops demo_new demo_data 5 demo_ops (demo_conn, (tt, []))) as [[[] s]|] eqn:E; [|vm_compute in E; discriminate].
  destruct (filters_open_in_order demo_new demo_data (λ f k pre, keeps_ret _ _) (λ f k pre, keeps_ret _ _) 5 demo_ops demo_conn tt s
    eq_refl E) as (n & _ & Hd & _).
  split; [|exact Hd]. vm_compute in E. injection E as <-. reflexivity.
Defined.

(** ** Bytes are written once, and in order *)

Definition pending (c : connection) : bytes := match writeBuffer c with Some b => contents b | None => [] end.
Definition history (c : connection) : bytes := sk_sent (sock c) ++ pending c.
Definition soft (e : option io_error) : Prop := e = None ∨ e = Some RTimeout.
#[local] Instance soft_dec e : Decision (soft e).
Proof. unfold soft. apply _. Defined.

(** What writing to the socket does: bytes move from the buffer to the socket, and
    the script is used up. *)
Lemma sock_write_ok : writer_ok sock_write.
Proof.
  intros k p. unfold sock_write. destruct (sk_writes k) as [|[m e] rest]; cbn; rewrite length_take; lia.
Qed.

Lemma sock_write_spec k q k' m e : sock_write k q = (k', m, e) →
  sk_sent k' ++ drop (Z.to_nat m) q = sk_sent k ++ q ∧
  match sk_writes k with
  | [] => sk_writes k' = [] ∧ e = None ∧ m = Z.of_nat (length q)
  | (_, e') :: rest => sk_writes k' = rest ∧ e = e'
  end.
Proof.
  unfold sock_write. destruct (sk_writes k) as [|[n e'] rest]; intros [= <- <- <-]; cbn.
  - rewrite firstn_all, Nat2Z.id, drop_all, app_nil_r. done.
  - split; [|done]. rewrite <- app_assoc. f_equal. rewrite length_take, Nat2Z.id.
    destruct (decide (n ≤ length q)%nat); [rewrite Nat.min_l by done; apply take_drop|].
    rewrite Nat.min_r, take_ge, drop_all by lia. by rewrite app_nil_r.
Qed.

Lemma wr_run_history k q k' r e : wr_run sock_write k q k' r e →
  sk_sent k' ++ r = sk_sent k ++ q ∧ (length (sk_writes k') ≤ length (sk_writes k))%nat ∧
  (r ≠ [] → (length (sk_writes k') < length (sk_writes k))%nat) ∧
  (Forall (λ o, soft o.2) (sk_writes k) → soft e ∧ Forall (λ o, soft o.2) (sk_writes k')) ∧
  (¬ soft e → (length (sk_writes k') < length (sk_writes k))%nat).
Proof.
  induction 1 as [k|k q k' m e Hq E|k q k' Hq E|k q k' Hq E|k q k1 m k' r e Hq E Hm H IH].
  - split_and!; [done|done|done|by split; [left|]|]. intros H. destruct H. by left.
  - destruct (sock_write_spec _ _ _ _ _ E) as [Hs Hw]. destruct (sk_writes k) as [|[n e'] rest].
    + by destruct Hw as (_ & ? & _).
    + destruct Hw as [-> <-]. cbn. split_and!; [done|lia|lia| |lia]. intros Hf. by apply Forall_cons in Hf as [? ?].
  - destruct (sock_write_spec _ _ _ _ _ E) as [Hs Hw]. rewrite drop_0 in Hs. destruct (sk_writes k) as [|[n e'] rest].
    + destruct Hw as (_ & _ & Hl). destruct q; [done|]. cbn in Hl. lia.
    + destruct Hw as [-> <-]. cbn. split_and!; [done|lia|lia| |lia]. intros Hf. apply Forall_cons in Hf as [? ?]. by split; [left|].
  - destruct (sock_write_spec _ _ _ _ _ E) as [Hs Hw]. rewrite Nat2Z.id, drop_all in Hs. destruct (sk_writes k) as [|[n e'] rest].
    + destruct Hw as (-> & _ & _). split_and!; try done; [by intros; split; [left|]|]. intros Hn. destruct Hn. by left.
    + destruct Hw as [-> <-]. cbn. split_and!; [done|lia|done| |]. { intros Hf. apply Forall_cons in Hf as [? ?]. by split; [left|]. } lia.
  - destruct (sock_write_spec _ _ _ _ _ E) as [Hs Hw]. destruct IH as (I1 & I2 & I3 & I4 & I5). rewrite Hs in I1.
    destruct (sk_writes k) as [|[n e'] rest].
    + destruct Hw as (_ & _ & ->). lia.
    + destruct Hw as [Hw <-]. rewrite Hw in *. cbn. split_and!; [done|lia|lia| |lia].
      intros Hf. apply Forall_cons in Hf as [? ?]. by apply I4.
Qed.

Lemma WriteTo_history k b : wf b → ∃ k' b' m e, WriteTo sock_write k b = Ret (k', b', m, e) ∧ wf b' ∧
  m = Len b - Len b' ∧ wr_run sock_write k (contents b) k' (contents b') e.
Proof.
  intros Hw. unfold WriteTo. pose proof (length_contents b Hw).
  destruct (writeTo_loop_ok sock_write sock_write_ok (S (Z.to_nat (Len b))) k b 0 Hw) as (k' & b' & m & e & -> & ? & -> & ?); [lia|].
  by eexists _, _, _, _.
Qed.

(** A buffer is drained into another one whole. *)
Definition same_shape (o o' : option IoBuffer) : Prop :=
  match o, o' with Some _, Some b' => wf b' ∧ contents b' = [] | None, None => True | _, _ => False end.

Lemma write_buffers_ok l w : wf w → Forall (λ o, match o with Some b => wf b | None => True end) l →
  ∃ w' l', write_buffers w l = Ret (w', l') ∧ wf w' ∧ contents w' = contents w ++ concat ((λ o, from_option contents [] o) <$> l) ∧
    Forall2 same_shape l l'.
Proof.
  revert w. induction l as [|[b|] l IH]; intros w Hw Hl; cbn [write_buffers fmap list_fmap concat from_option].
  - exists w, []. by rewrite app_nil_r.
  - apply Forall_cons in Hl as [Hb Hl]. pose proof (length_contents b Hb) as HL.
    assert (∃ w1 b', WriteTo buffer_writer (Ret w) b = Ret (Ret w1, b', Len b, None) ∧ wf w1 ∧ contents w1 = contents w ++ contents b ∧
      wf b' ∧ contents b' = []) as (w1 & b' & -> & Hw1 & Hc1 & Hwb & Hcb).
    { unfold WriteTo. cbn [writeTo_loop]. case_bool_decide as Hlt.
      - rewrite (buf_from_ok b Hb), bind_Ret. destruct (Write_ok w (contents b) Hw) as (w1 & E & Hw1 & Hc1).
        unfold buffer_writer at 1. rewrite bind_Ret, E, HL. rewrite (bool_decide_true (Len b ≤ Len b)) by lia. unfold go_assert.
        rewrite bind_Ret. rewrite (bool_decide_true (Len b = Len b)) by done. rewrite orb_true_r. exists w1. eexists. split_and!; [done..| |].
        + destruct Hb. unfold wf, Len in *. cbn. split; [lia|done].
        + unfold contents. cbn. apply drop_ge. unfold Len, s_len in *. destruct Hb. lia.
      - assert (Len b = 0) as E0 by (unfold Len in *; destruct Hb; lia). rewrite E0. exists w, b. rewrite (len0_contents b Hb E0). by rewrite app_nil_r. }
    rewrite !bind_Ret. destruct (IH w1 Hw1 Hl) as (w' & l' & -> & Hw' & Hc' & Hs). exists w', (Some b' :: l'). split_and!; [done..| |by constructor].
    by rewrite Hc', Hc1, app_assoc.
  - apply Forall_cons in Hl as [_ Hl]. destruct (IH w Hw Hl) as (w' & l' & -> & Hw' & Hc' & Hs). exists w', (None :: l'). by split_and!; [..|constructor].
Qed.

Section writes.
  Context {W : Type} (OnEvent : nat → ConnectionEvent → SG (connection * W) unit)
          (onBytesRead onBytesSent : nat → Z → SG (connection * W) unit)
          (OnWrite : nat → SG (connection * W) FilterStatus) (pool_get : option IoBuffer).
  Abbreviation st := (connection * W)%type.

(** Listeners that leave the connection alone; buffers that were given back. *)
Definition passive (m : SG st unit) : Prop := ∀ s, ∃ w, m s = Ret (tt, (s.1, w)).
Definition given (o : option IoBuffer) : Prop := ∀ b, o = Some b → wf b ∧ contents b = [].
  Hypothesis (Hev : ∀ cb e, passive (OnEvent cb e)) (Hsent : ∀ cb n, passive (onBytesSent cb n)) (Hpool : given pool_get).

Lemma for_each_passive l f : (∀ x, passive (f x)) → passive (for_each l f).
Proof.
  intros Hf. induction l as [|x l IH]; intros s; cbn [for_each]; [by exists s.2; destruct s|].
  destruct (Hf x s) as [w E]. destruct (IH (s.1, w)) as [w' E']. exists w'. by eapply sg_run; [exact E|].
Qed.

Lemma Take_ok : ∃ b, Take pool_get = Ret b ∧ wf b ∧ contents b = [].
Proof.
  unfold Take. destruct pool_get as [b|] eqn:E; [destruct (Hpool b) as [? ?]; [done|]; by exists b|].
  unfold NewIoBuffer. destruct (fresh_iobuf_ok DefaultBufferCapacity) as [? ?]. by eexists.
Qed.

Record conn_ok (c : connection) : Prop := {
  ok_raw : rawConnection c = Raw; ok_stats : is_Some (stats c); ok_open : closed c = false → stopped c = false;
  ok_filters : downstreamFilters c = []; ok_buffer : ∀ b, writeBuffer c = Some b → wf b;
}.

(** [c'] is [c] after writing: nothing else has changed. *)
Record after_write (c c' : connection) : Prop := {
  aw_history : history c' = history c;
  aw_ok : conn_ok c → conn_ok c';
  aw_script : (length (sk_writes (sock c')) ≤ length (sk_writes (sock c)))%nat;
  aw_soft : Forall (λ o, soft o.2) (sk_writes (sock c)) → Forall (λ o, soft o.2) (sk_writes (sock c'));
  aw_closed : closed c' = closed c;
  aw_same : connCallbacks c' = connCallbacks c ∧ internalLoopStarted c' = internalLoopStarted c ∧ stopped c' = stopped c;
}.

Lemma after_write_refl c : after_write c c.
Proof. by split. Qed.
Lemma after_write_trans c1 c2 c3 : after_write c1 c2 → after_write c2 c3 → after_write c1 c3.
Proof.
  intros [H1 H2 H3 H4 H5 (H6 & H7 & H8)] [G1 G2 G3 G4 G5 (G6 & G7 & G8)]. split; [congruence|auto|lia|auto|congruence|].
  split_and!; congruence.
Qed.

Definition more (c : connection) : nat := length (sk_writes (sock c)) + (if bool_decide (pending c = []) then 0 else 1).

Lemma pending_len c : conn_ok c → writeBufLen c = Z.of_nat (length (pending c)).
Proof.
  intros []. unfold writeBufLen, pending. destruct (writeBuffer c) as [b|]; [|done]. symmetry. by apply length_contents, ok_buffer0.
Qed.

Lemma doWriteIo_run fuel n e0 c (w : W) : conn_ok c → (more c < fuel)%nat → soft e0 →
  ∃ m e c', doWriteIo fuel n e0 (c, w) = Ret ((n + m, e), (c', w)) ∧ after_write c c' ∧ (soft e → pending c' = []) ∧
    (Forall (λ o, soft o.2) (sk_writes (sock c)) → soft e) ∧ (pending c = [] → m = 0).
Proof.
  revert n e0 c. induction fuel as [|fuel IH]; intros n e0 c Hok Hf He0; [lia|].
  destruct (decide (pending c = [])) as [Hp|Hp].
  { exists 0, e0, c. rewrite Z.add_0_r. split_and!; try done. cbn [doWriteIo]. srun. by rewrite (pending_len c Hok), Hp. }
  assert (∀ r, (o ← cn writeBuffer; w ← sg_deref o; k ← cn sock; '(k, w, m, err) ← sg_lift (WriteTo sock_write k w);
     _ ← mod_cn (λ c, set_sock k (set_writeBuffer (Some w) c));
     match err with None | Some RTimeout => doWriteIo fuel (n + m) err | Some _ => mret (n + m, err) end) (c, w) = r →
     doWriteIo (S fuel) n e0 (c, w) = r) as Hstep.
  { intros r Er. cbn [doWriteIo]. srun. rewrite (pending_len c Hok), bool_decide_true by (destruct (pending c); [done|cbn; lia]). done. }
  unfold pending in Hp. destruct (writeBuffer c) as [b|] eqn:Hb; [|done].
  destruct (WriteTo_history (sock c) b (ok_buffer c Hok b Hb)) as (k' & b' & m & e & E & Hb' & Hm & Hrun).
  destruct (wr_run_history _ _ _ _ _ Hrun) as (R1 & R2 & R3 & R4 & R5).
  set (c1 := set_sock k' (set_writeBuffer (Some b') c)).
  assert (after_write c c1) as Ha.
  { split; cbn; try done; [|intros []; split; cbn; try done; by intros ? [= <-]|by intros; apply R4].
    unfold history, pending. cbn. by rewrite Hb. }
  assert (pending c ≠ []) as Hne by (unfold pending; by rewrite Hb).
  destruct (decide (soft e)) as [Hs|Hs].
  - destruct (IH (n + m) e c1) as (m2 & e2 & c2 & E2 & Ha2 & Hp2 & Hs2 & _); [by apply Ha| |done|].
    { unfold more in *. rewrite bool_decide_false in Hf by done. cbn. unfold pending. cbn. case_bool_decide as Hr; [lia|].
      specialize (R3 Hr). lia. }
    exists (m + m2), e2, c2. rewrite Z.add_assoc. split_and!; try done; [|by eapply after_write_trans|].
    + apply Hstep. srun. rewrite Hb. do 2 srun. eapply sg_run; [unfold sg_lift; rewrite E; reflexivity|]. cbn [fst snd]. srun. fold c1.
      rewrite <- E2. by destruct Hs as [->| ->].
    + intros Hf2. apply Hs2. by apply (aw_soft _ _ Ha).
  - exists m, e, c1. split_and!; try done; [|intros Hf2; by apply R4].
    apply Hstep. srun. rewrite Hb. do 2 srun. eapply sg_run; [unfold sg_lift; rewrite E; reflexivity|]. cbn [fst snd]. srun. fold c1.
    destruct e as [[]|]; try done; destruct Hs; by (left + right).
Qed.

(** Statistics and listeners. *)
Definition quiet (m : SG st unit) : Prop := ∀ c w, ∃ c' w', m (c, w) = Ret (tt, (c', w')) ∧ after_write c c' ∧
  sock c' = sock c ∧ writeBuffer c' = writeBuffer c.

Lemma stats_quiet c c' o n : c' = set_stats o c ∨ c' = set_lastWriteSizeWrite n (set_stats o c) ∨ c' = set_lastBytesSizeRead n (set_stats o c) →
  is_Some o → after_write c c' ∧ sock c' = sock c ∧ writeBuffer c' = writeBuffer c.
Proof. intros [->|[->| ->]] Ho; (split; [|done]); (split; try done); intros []; by split. Qed.

Lemma updateWriteBuffStats_quiet a b : quiet (updateWriteBuffStats a b).
Proof.
  intros c w. destruct (stats c) as [v|] eqn:Hs.
  - set (v' := if bool_decide (0 < a) then mk_stats (ReadTotal v) (ReadCurrent v) (WriteTotal v + a) (WriteCurrent v) else v).
    destruct (decide (b = lastWriteSizeWrite c)) as [Hb|Hb]; eexists _, w; (split; [unfold updateWriteBuffStats; srun; rewrite Hs; srun; fold v'|]).
    + rewrite bool_decide_false by by intros []. reflexivity.
    + eapply (stats_quiet c _ _ 0); [by left|done].
    + rewrite bool_decide_true by done. reflexivity.
    + eapply stats_quiet; [by right; left|done].
  - exists c, w. split_and!; try done. unfold updateWriteBuffStats. srun. by rewrite Hs.
Qed.
Lemma updateReadBufStats_quiet a b : quiet (updateReadBufStats a b).
Proof.
  intros c w. destruct (stats c) as [v|] eqn:Hs.
  - set (v' := if bool_decide (0 < a) then mk_stats (ReadTotal v + a) (ReadCurrent v) (WriteTotal v) (WriteCurrent v) else v).
    destruct (decide (b = lastBytesSizeRead c)) as [Hb|Hb]; eexists _, w; (split; [unfold updateReadBufStats; srun; rewrite Hs; srun; fold v'|]).
    + rewrite bool_decide_false by by intros []. reflexivity.
    + eapply (stats_quiet c _ _ 0); [by left|done].
    + rewrite bool_decide_true by done. reflexivity.
    + eapply stats_quiet; [by right; right|done].
  - exists c, w. split_and!; try done. unfold updateReadBufStats. srun. by rewrite Hs.
Qed.

Lemma quiet_pending c c' : writeBuffer c' = writeBuffer c → pending c' = pending c.
Proof. unfold pending. by intros ->. Qed.

Lemma doWrite_run fuel c w : conn_ok c → (more c < fuel)%nat →
  ∃ m e c' w', doWrite onBytesSent fuel (c, w) = Ret ((m, e), (c', w')) ∧ after_write c c' ∧ (soft e → pending c' = []) ∧
    (Forall (λ o, soft o.2) (sk_writes (sock c)) → soft e) ∧ (pending c = [] → m = 0).
Proof.
  intros Hok Hf. destruct (doWriteIo_run fuel 0 None c w Hok Hf) as (m & e & c1 & E1 & Ha1 & Hp1 & Hs1 & Hm1); [by left|].
  destruct (updateWriteBuffStats_quiet m (writeBufLen c1) c1 w) as (c2 & w2 & E2 & Ha2 & Hk2 & Hb2).
  destruct (for_each_passive (bytesSendCallbacks c2) (λ cb, onBytesSent cb m) (λ x, Hsent x m) (c2, w2)) as [w3 E3].
  exists m, e, c2, w3. split_and!; try done.
  - unfold doWrite. eapply sg_run; [exact E1|]. cbn [fst snd]. srun. eapply sg_run; [exact E2|]. srun. by eapply sg_run; [exact E3|].
  - by eapply after_write_trans.
  - intros Hs. rewrite (quiet_pending c1 c2 Hb2). auto.
Qed.

Lemma flush_run fuel c w : conn_ok c → (more c + 2 < fuel)%nat →
  ∃ c' w', flush onBytesSent fuel (c, w) = Ret (tt, (c', w')) ∧ after_write c c' ∧
    (Forall (λ o, soft o.2) (sk_writes (sock c)) → pending c' = []).
Proof.
  revert c w. induction fuel as [|fuel IH]; intros c w Hok Hf; [lia|].
  destruct (doWrite_run (S fuel) c w Hok) as (m & e & c1 & w1 & E1 & Ha1 & Hp1 & Hs1 & Hm1); [lia|].
  destruct (decide (soft e)) as [Hs|Hs].
  - specialize (Hp1 Hs). assert (more c1 ≤ more c)%nat as Hmore.
    { unfold more. rewrite Hp1. pose proof (aw_script _ _ Ha1). cbn. case_bool_decide; lia. }
    destruct (decide (m = 0)) as [->|Hm].
    + exists c1, w1. split_and!; [|done|done]. cbn [flush]. eapply sg_run; [exact E1|]. by destruct Hs as [->| ->].
    + assert (more c1 < more c ∨ pending c = [])%nat as [Hlt|Hnil].
      { unfold more. rewrite Hp1. pose proof (aw_script _ _ Ha1). cbn. case_bool_decide; [by right|left; lia]. }
      2: { by rewrite (Hm1 Hnil) in Hm. }
      destruct (IH c1 w1) as (c2 & w2 & E2 & Ha2 & Hp2); [by apply Ha1|lia|].
      exists c2, w2. split_and!; [|by eapply after_write_trans|].
      * cbn [flush]. eapply sg_run; [exact E1|]. rewrite <- E2. destruct Hs as [->| ->]; by rewrite bool_decide_false.
      * intros Hf2. apply Hp2. by apply (aw_soft _ _ Ha1).
  - exists c1, w1. split_and!; [|done|]; [|intros Hf2; by destruct Hs; apply Hs1].
    cbn [flush]. eapply sg_run; [exact E1|]. destruct e as [[]|]; try done; destruct Hs; by (left + right).
Qed.

(** ** Runs: writes, iterations of the write loop, and closing *)

Record wrote (extra : bytes) (c c' : connection) : Prop := {
  w_history : history c' = history c ++ extra; w_ok : conn_ok c';
  w_script : (length (sk_writes (sock c')) ≤ length (sk_writes (sock c)))%nat;
  w_soft : Forall (λ o, soft o.2) (sk_writes (sock c)) → Forall (λ o, soft o.2) (sk_writes (sock c'));
  w_closed : closed c = true → closed c' = true;
}.

Lemma wrote_trans e1 e2 c1 c2 c3 : wrote e1 c1 c2 → wrote e2 c2 c3 → wrote (e1 ++ e2) c1 c3.
Proof. intros [H1 H2 H3 H4 H5] [G1 G2 G3 G4 G5]. split; [by rewrite G1, H1, app_assoc|done|lia|auto|auto]. Qed.
Lemma after_write_wrote c c' : conn_ok c → after_write c c' → wrote [] c c'.
Proof. intros Hok []. split; [by rewrite app_nil_r|auto|done|done|congruence]. Qed.

Lemma more_bound c : (more c ≤ length (sk_writes (sock c)) + 1)%nat.
Proof. unfold more. case_bool_decide; lia. Qed.

Lemma Close_run fuel ty ev c w : conn_ok c → (length (sk_writes (sock c)) + 3 < fuel)%nat →
  ∃ c' w', Close OnEvent onBytesSent fuel ty ev (c, w) = Ret (tt, (c', w')) ∧ wrote [] c c' ∧ closed c' = true ∧
    (closed c = false → ty = FlushWrite → Forall (λ o, soft o.2) (sk_writes (sock c)) → pending c' = []).
Proof.
  intros Hok Hf. pose proof (more_bound c). destruct (closed c) eqn:Hcl.
  { exists c, w. split_and!; try done; [|by apply after_write_wrote]. unfold Close. srun. by rewrite Hcl. }
  set (c0 := set_closed true c). assert (conn_ok c0) as Hok0 by by destruct Hok; split.
  assert (∃ c1 w1, match ty with
        | FlushWrite => sg_when (bool_decide (0 < writeBufLen c0)) (_ ← mod_cn (set_closeWithFlush true); flush onBytesSent fuel)
        | NoFlush => mret tt end (c0, w) = Ret (tt, (c1, w1)) ∧ after_write c0 c1 ∧
        (ty = FlushWrite → Forall (λ o, soft o.2) (sk_writes (sock c)) → pending c1 = [])) as (c1 & w1 & E1 & Ha1 & Hp1).
  { destruct ty; [|by exists c0, w]. rewrite (pending_len c0 Hok0). case_bool_decide as Hp; cbn [sg_when].
    - destruct (flush_run fuel (set_closeWithFlush true c0) w) as (c1 & w1 & E1 & Ha1 & Hp1); [by destruct Hok0; split|change (more _) with (more c); lia|].
      exists c1, w1. split_and!; [by srun| |done]. eapply after_write_trans; [|exact Ha1]. split; try done. intros []; by split.
    - exists c0, w. split_and!; try done. intros _ _. destruct (pending c0); [done|cbn in Hp; lia]. }
  assert (stopped c1 = false) as Hst.
  { destruct (aw_same _ _ Ha1) as (_ & _ & ->). cbn. by apply (ok_open c Hok). }
  set (c2 := if internalLoopStarted c1 then set_stopped true c1 else c1).
  assert (conn_ok c2 ∧ closed c2 = true ∧ history c2 = history c1 ∧ sock c2 = sock c1 ∧ pending c2 = pending c1) as (Hok2 & Hcl2 & Hh2 & Hk2 & Hp2).
  { pose proof (aw_ok _ _ Ha1 Hok0) as Hok1. pose proof (aw_closed _ _ Ha1) as Hc1. cbn in Hc1. unfold c2. destruct (internalLoopStarted c1); [|done].
    split_and!; try done. destruct Hok1; split; try done. cbn. by rewrite Hc1. }
  destruct (updateReadBufStats_quiet 0 0 c2 w1) as (c3 & w3 & E3 & Ha3 & Hk3 & Hb3).
  destruct (updateWriteBuffStats_quiet 0 0 c3 w3) as (c4 & w4 & E4 & Ha4 & Hk4 & Hb4).
  destruct (for_each_passive (connCallbacks c4) (λ cb, OnEvent cb ev) (λ x, Hev x ev) (c4, w4)) as [w5 E5].
  exists c4, w5. pose proof (after_write_trans _ _ _ Ha3 Ha4) as Ha. split_and!.
  - unfold Close. srun. rewrite Hcl. do 2 srun. cbn [rawConnection set_closed]. rewrite (ok_raw c Hok). fold c0. srun.
    eapply sg_run; [exact E1|]. do 2 srun. rewrite Hst.
    eapply sg_run; [instantiate (1 := (c2, w1)); instantiate (1 := tt); unfold c2; by destruct (internalLoopStarted c1)|].
    srun. destruct (ok_stats _ Hok2) as [v Hv]. rewrite Hv. srun. eapply sg_run; [exact E3|]. eapply sg_run; [exact E4|]. srun. exact E5.
  - split.
    + rewrite app_nil_r, (aw_history _ _ Ha), Hh2, (aw_history _ _ Ha1). done.
    + by apply (aw_ok _ _ Ha).
    + etrans; [exact (aw_script _ _ Ha)|]. rewrite Hk2. exact (aw_script _ _ Ha1).
    + intros Hs. apply (aw_soft _ _ Ha). rewrite Hk2. by apply (aw_soft _ _ Ha1).
    + congruence.
  - by rewrite (aw_closed _ _ Ha).
  - intros _ Hty Hs. rewrite (quiet_pending c3 c4 Hb4), (quiet_pending c2 c3 Hb3), Hp2. auto.
Qed.

Inductive wop := OWrite (buffers : list (option IoBuffer)) | OLoop | OClose (ty : ConnectionCloseType) (ev : ConnectionEvent).
Definition run_wop (fuel : nat) (op : wop) : SG st unit :=
  match op with
  | OWrite l => _ ← conn_Write OnWrite pool_get l; mret tt
  | OLoop => _ ← write_iteration OnEvent onBytesSent fuel; mret tt
  | OClose ty ev => Close OnEvent onBytesSent fuel ty ev
  end.
Fixpoint run_wops (fuel : nat) (l : list wop) : SG st unit :=
  match l with [] => mret tt | op :: l => _ ← run_wop fuel op; run_wops fuel l end.
Definition written (op : wop) : bytes :=
  match op with OWrite l => concat ((λ o, from_option contents [] o) <$> l) | _ => [] end.
Definition wop_ok (op : wop) : Prop :=
  match op with OWrite l => Forall (λ o, match o with Some b => wf b | None => True end) l | _ => True end.

Lemma run_wop_spec fuel op c w : conn_ok c → wop_ok op → (length (sk_writes (sock c)) + 3 < fuel)%nat →
  ∃ c' w', run_wop fuel op (c, w) = Ret (tt, (c', w')) ∧ wrote (written op) c c'.
Proof.
  intros Hok Hop Hf. destruct op as [l| |ty ev]; cbn [run_wop written].
  - assert (∃ b, (match writeBuffer c with Some b => Ret b | None => Take pool_get end) = Ret b ∧ wf b ∧ contents b = pending c)
      as (b & Eb & Hb & Hp).
    { unfold pending. destruct (writeBuffer c) as [b|] eqn:E; [exists b; by split_and!; [|apply (ok_buffer c Hok)|]|apply Take_ok]. }
    destruct (write_buffers_ok l b Hb Hop) as (b' & l' & E & Hb' & Hc & _).
    eexists _, w. split.
    { eapply sg_run; [|reflexivity]. unfold conn_Write. srun. eapply sg_run; [unfold fm_OnWrite; srun; cbn [downstreamFilters set_curWriteBufferData]; rewrite (ok_filters c Hok); reflexivity|].
      do 3 srun. eapply sg_run; [unfold sg_lift; cbn [writeBuffer set_curWriteBufferData]; rewrite Eb; reflexivity|].
      eapply sg_run; [unfold sg_lift; cbn [curWriteBufferData set_curWriteBufferData]; rewrite E; reflexivity|]. srun. reflexivity. }
    split; try done.
    + unfold history at 1, pending. cbn. by rewrite Hc, Hp, app_assoc.
    + destruct Hok. split; try done. by intros ? [= <-].
  - unfold write_iteration. destruct (stopped c) eqn:Hst; [|destruct (writeBufferChan c) eqn:Hch].
    + exists c, w. split; [|by apply after_write_wrote]. eapply sg_run; [srun; rewrite Hst; reflexivity|]. reflexivity.
    + set (c0 := set_writeBufferChan false c). assert (conn_ok c0) as Hok0 by by destruct Hok; split.
      assert (wrote [] c c0) as Hw0 by by split; [rewrite app_nil_r|..].
      destruct (doWrite_run fuel c0 w Hok0) as (m & e & c1 & w1 & E1 & Ha1 & _); [pose proof (more_bound c0); cbn in *; lia|].
      pose proof (after_write_wrote _ _ Hok0 Ha1) as Hw1. pose proof (wrote_trans _ _ _ _ _ Hw0 Hw1) as Hw.
      assert (∀ ev, ∃ c' w', (_ ← Close OnEvent onBytesSent fuel NoFlush ev; mret false) (c1, w1) = Ret (false, (c', w')) ∧ wrote [] c c') as Hclose.
      { intros ev. destruct (Close_run fuel NoFlush ev c1 w1) as (c2 & w2 & E2 & Hw2 & _); [apply Hw|pose proof (w_script _ _ _ Hw); lia|].
        exists c2, w2. split; [by eapply sg_run; [exact E2|]|]. by apply (wrote_trans [] [] c c1). }
      destruct e as [[| |n]|].
      * destruct (Hclose RemoteClose) as (c2 & w2 & E2 & ?). exists c2, w2. split; [|done].
        eapply sg_run; [srun; rewrite Hst; srun; rewrite Hch; cbn [negb]; srun; eapply sg_run; [exact E1|]; exact E2|]. done.
      * exists c1, w1. split; [|done]. eapply sg_run; [srun; rewrite Hst; srun; rewrite Hch; cbn [negb]; srun; eapply sg_run; [exact E1|]; reflexivity|]. done.
      * destruct (Hclose OnWriteErrClose) as (c2 & w2 & E2 & ?). exists c2, w2. split; [|done].
        eapply sg_run; [srun; rewrite Hst; srun; rewrite Hch; cbn [negb]; srun; eapply sg_run; [exact E1|]; exact E2|]. done.
      * exists c1, w1. split; [|done]. eapply sg_run; [srun; rewrite Hst; srun; rewrite Hch; cbn [negb]; srun; eapply sg_run; [exact E1|]; reflexivity|]. done.
    + exists c, w. split; [|by apply after_write_wrote]. eapply sg_run; [srun; rewrite Hst; srun; rewrite Hch; reflexivity|]. reflexivity.
  - destruct (Close_run fuel ty ev c w Hok Hf) as (c' & w' & E & Hw & _). by exists c', w'.
Qed.

Lemma run_wops_spec fuel l c w : conn_ok c → Forall wop_ok l → (length (sk_writes (sock c)) + 3 < fuel)%nat →
  ∃ c' w', run_wops fuel l (c, w) = Ret (tt, (c', w')) ∧ wrote (concat (written <$> l)) c c'.
Proof.
  revert c w. induction l as [|op l IH]; intros c w Hok Hl Hf; cbn [run_wops fmap list_fmap concat].
  { exists c, w. split; [done|]. by apply after_write_wrote. }
  apply Forall_cons in Hl as [Hop Hl]. destruct (run_wop_spec fuel op c w Hok Hop Hf) as (c1 & w1 & E1 & Hw1).
  destruct (IH c1 w1) as (c2 & w2 & E2 & Hw2); [apply Hw1|done|pose proof (w_script _ _ _ Hw1); lia|].
  exists c2, w2. split; [by eapply sg_run; [exact E1|]|]. by eapply wrote_trans.
Qed.

(** C8. Whatever the network does, the bytes a connection is given to write
    arrive once and in order: after any writes, iterations of the write loop and
    closes, with partial writes, timeouts and errors, what was sent followed by
    what is still buffered is exactly what was written; and closing a connection
    with a flush sends everything before it closes, unless a write fails. *)
Theorem bytes_sent_in_order fuel l c w : conn_ok c → Forall wop_ok l → (length (sk_writes (sock c)) + 3 < fuel)%nat →
  ∃ c' w', run_wops fuel l (c, w) = Ret (tt, (c', w')) ∧
    sk_sent (sock c') ++ pending c' = sk_sent (sock c) ++ pending c ++ concat (written <$> l) ∧
    ∀ ev, closed c' = false → Forall (λ o, soft o.2) (sk_writes (sock c)) →
      ∃ c2 w2, Close OnEvent onBytesSent fuel FlushWrite ev (c', w') = Ret (tt, (c2, w2)) ∧
        sk_sent (sock c2) = sk_sent (sock c) ++ pending c ++ concat (written <$> l) ∧ closed c2 = true.
Proof.
  intros Hok Hl Hf. destruct (run_wops_spec fuel l c w Hok Hl Hf) as (c' & w' & E & Hw). exists c', w'.
  pose proof (w_history _ _ _ Hw) as Hh. unfold history in Hh. rewrite <- app_assoc in Hh. split_and!; [done..|].
  intros ev Hcl Hs. destruct (Close_run fuel FlushWrite ev c' w') as (c2 & w2 & E2 & Hw2 & Hcl2 & Hp2);
    [apply Hw|pose proof (w_script _ _ _ Hw); lia|]. exists c2, w2. split_and!; [done| |done].
  pose proof (w_history _ _ _ Hw2) as Hh2. unfold history in Hh2. rewrite app_nil_r in Hh2.
  rewrite Hp2, app_nil_r in Hh2 by (done || by apply (w_soft _ _ _ Hw)). by rewrite Hh2, Hh.
Qed.
End writes.

(** A write to a connection whose filters let everything pass. *)
Lemma conn_Write_run {W} (OnWrite : nat → SG (connection * W) FilterStatus) pool_get l c (r : W) :
  (∀ f s, OnWrite f s = Ret (Continue, s)) → given pool_get → (∀ b, writeBuffer c = Some b → wf b) →
  Forall (λ o, match o with Some b => wf b | None => True end) l →
  ∃ v l', conn_Write OnWrite pool_get l (c, r) =
      Ret (l', (set_writeBufferChan true (set_writeBuffer (Some v) (set_curWriteBufferData [] c)), r)) ∧
    wf v ∧ contents v = pending c ++ concat ((λ o, from_option contents [] o) <$> l) ∧ Forall2 same_shape l l'.
Proof.
  intros Hwrite Hpool Hb Hl.
  assert (∃ w, match writeBuffer c with Some b => Ret b | None => Take pool_get end = Ret w ∧ wf w ∧ contents w = pending c) as (w & Ew & Hww & Hcw).
  { unfold pending. destruct (writeBuffer c) as [b0|] eqn:E; [exists b0; by auto|]. apply (Take_ok pool_get Hpool). }
  destruct (write_buffers_ok l w Hww Hl) as (v & l' & Ev & Hv & Hcv & Hsh). exists v, l'. rewrite Hcw in Hcv. split_and!; [|done..].
  assert (∀ fs s, write_filters OnWrite fs s = Ret (Continue, s)) as Hfs.
  { intros fs s. induction fs as [|f fs IH]; cbn [write_filters]; [done|]. eapply sg_run; [apply Hwrite|exact IH]. }
  unfold conn_Write. srun. eapply sg_run; [unfold fm_OnWrite; srun; apply Hfs|]. do 3 srun.
  eapply sg_run; [unfold sg_lift; cbn [writeBuffer set_curWriteBufferData]; rewrite Ew; reflexivity|].
  eapply sg_run; [unfold sg_lift; cbn [curWriteBufferData set_curWriteBufferData]; rewrite Ev; reflexivity|]. srun. reflexivity.
Qed.

(** A write of two buffers that the network takes in three pieces, with a timeout
    in between. *)
Definition quiet_event (cb : nat) (e : ConnectionEvent) : SG (connection * unit) unit := mret tt.
Definition quiet_bytes (cb : nat) (n : Z) : SG (connection * unit) unit := mret tt.
Definition quiet_filter (f : nat) : SG (connection * unit) FilterStatus := mret Continue.
Definition slow_conn : connection :=
  NewServerConnection (mk_sock [] EOF [(2%nat, None); (1%nat, Some RTimeout); (0%nat, None)] []).
Definition slow_ops : list wop := [OWrite [Some (NewIoBufferString "abc"); None]; OWrite [Some (NewIoBufferString "de")]; OLoop].

Lemma bytes_sent_in_order_witness :
  ∃ c' w', run_wops quiet_event quiet_bytes quiet_filter None 8 slow_ops (slow_conn, tt) = Ret (tt, (c', w')) ∧
    sk_sent (sock c') ++ pending c' = str_bytes "abcde" ∧
    ∃ c2 w2, Close quiet_event quiet_bytes 8 FlushWrite LocalClose (c', w') = Ret (tt, (c2, w2)) ∧
      sk_sent (sock c2) = str_bytes "abcde" ∧ closed c2 = true.
Proof.
  destruct (bytes_sent_in_order quiet_event quiet_bytes quiet_filter None) with (fuel := 8%nat) (l := slow_ops) (c := slow_conn) (w := tt)
    as (c' & w' & E & Hh & Hc).
  - intros cb e s. exists s.2. by destruct s.
  - intros cb n s. exists s.2. by destruct s.
  - intros b Hb. discriminate.
  - by split; [|eexists|..].
  - repeat constructor; vm_compute; (discriminate || lia).
  - vm_compute. lia.
  - exists c', w'. split; [exact E|]. split; [exact Hh|]. apply Hc.
    + vm_compute in E. injection E as <- _. reflexivity.
    + repeat constructor; (by left) || (by right).
Defined.

(** ** What only a close changes

    A predicate on states that does not look at more of a connection than whether
    it is closed, who listens and whether it has a socket is kept by everything
    that does not close. *)
Definition minor (f : connection → connection) : Prop :=
  ∀ c, closed (f c) = closed c ∧ connCallbacks (f c) = connCallbacks c ∧ rawConnection (f c) = rawConnection c.

Section calm.
  Context {W : Type} (I : connection * W → Prop).
  Hypothesis (Hmod : ∀ f, minor f → keeps I (mod_cn f)).

Lemma calm_cn {A} (f : connection → A) : keeps I (cn f).
Proof. by intros s a s' Hs [= _ <-]. Qed.
Lemma calm_for_each l (f : nat → SG (connection * W) unit) : (∀ x, keeps I (f x)) → keeps I (for_each l f).
Proof. intros Hf. induction l; cbn [for_each]; [apply keeps_ret|]. apply keeps_bind; [apply Hf|done]. Qed.

(** Prove that a computation keeps the predicate by its steps. *)
Ltac calm := repeat first
  [ solve [auto] | apply keeps_bind; [|intros ?] | apply keeps_ret | apply calm_cn | apply keeps_lift | apply keeps_deref
  | apply keeps_panic | apply keeps_when | apply calm_for_each; intros ? | (apply Hmod; by intros [])
  | match goal with |- keeps _ (match ?x with _ => _ end) => destruct x end ].

Lemma calm_updateRead a b : keeps I (updateReadBufStats a b).
Proof. unfold updateReadBufStats. calm. Qed.
Lemma calm_updateWrite a b : keeps I (updateWriteBuffStats a b).
Proof. unfold updateWriteBuffStats. calm. Qed.
Lemma calm_doWriteIo fuel n e : keeps I (doWriteIo fuel n e).
Proof. revert n e. induction fuel as [|fuel IH]; intros n e; cbn [doWriteIo]; calm. Qed.
Hint Resolve calm_updateRead calm_updateWrite calm_doWriteIo : core.

  Context (onBytesRead onBytesSent : nat → Z → SG (connection * W) unit)
          (OnNewConnection OnData OnWrite : nat → SG (connection * W) FilterStatus) (pool_get : option IoBuffer).
  Hypothesis (Hsent : ∀ cb n, keeps I (onBytesSent cb n)).
Lemma calm_doWrite fuel : keeps I (doWrite onBytesSent fuel).
Proof. unfold doWrite. calm. Qed.
Hint Resolve calm_doWrite : core.
Lemma calm_flush fuel : keeps I (flush onBytesSent fuel).
Proof. induction fuel as [|fuel IH]; cbn [flush]; calm. Qed.
  Hypothesis (Hread : ∀ cb n, keeps I (onBytesRead cb n)) (Hnew : ∀ f, keeps I (OnNewConnection f))
    (Hdata : ∀ f, keeps I (OnData f)) (Hwrite : ∀ f, keeps I (OnWrite f)).
Lemma calm_read_filters fuel i : keeps I (read_filters OnNewConnection OnData fuel i).
Proof. revert i. induction fuel as [|fuel IH]; intros i; cbn [read_filters]; calm. Qed.
Lemma calm_write_filters l : keeps I (write_filters OnWrite l).
Proof. induction l as [|f l IH]; cbn [write_filters]; calm. Qed.
Hint Resolve calm_flush calm_read_filters calm_write_filters : core.
Lemma calm_doRead fuel : keeps I (doRead onBytesRead OnNewConnection OnData pool_get fuel).
Proof. unfold doRead, onRead, OnRead, onContinueReading. calm. Qed.
Lemma calm_conn_Write l : keeps I (conn_Write OnWrite pool_get l).
Proof. unfold conn_Write, fm_OnWrite. calm. Qed.
Lemma calm_SetReadDisable b : keeps I (SetReadDisable b).
Proof. unfold SetReadDisable. calm. Qed.
Lemma calm_InitializeReadFilters fuel : keeps I (InitializeReadFilters OnNewConnection OnData fuel).
Proof. unfold InitializeReadFilters, onContinueReading. calm. Qed.

(** What [Close] does before it tells the listeners. *)
Lemma calm_closing fuel ty : keeps I (
    n ← cn writeBufLen;
    _ ← match ty with
        | FlushWrite => sg_when (bool_decide (0 < n)) (_ ← mod_cn (set_closeWithFlush true); flush onBytesSent fuel)
        | NoFlush => mret tt
        end;
    started ← cn internalLoopStarted;
    stop ← cn stopped;
    _ ← sg_when started (_ ← sg_lift (go_assert (negb stop) (UserPanic "close of closed channel")); mod_cn (set_stopped true));
    st ← cn stats;
    _ ← sg_deref st;
    _ ← updateReadBufStats 0 0;
    updateWriteBuffStats 0 0).
Proof. calm. Qed.

(** The loops keep it when closing does. *)
  Context (OnEvent : nat → ConnectionEvent → SG (connection * W) unit).
  Hypothesis (Hclose : ∀ fuel ty ev, IsClose ev = true → keeps I (Close OnEvent onBytesSent fuel ty ev)).
Hint Resolve calm_doRead : core.
Lemma calm_read_iteration fuel : keeps I (read_iteration OnEvent onBytesRead onBytesSent OnNewConnection OnData pool_get fuel).
Proof. unfold read_iteration. calm; by apply Hclose. Qed.
Lemma calm_write_iteration fuel : keeps I (write_iteration OnEvent onBytesSent fuel).
Proof. unfold write_iteration. calm; by apply Hclose. Qed.
End calm.

(** A close, when it returns: nothing, when the connection was closed before;
    else a close of the connection, everything [calm_closing] talks about, and
    the listeners in order. *)
Lemma Close_inv {W} (OnEvent : nat → ConnectionEvent → SG (connection * W) unit) onBytesSent fuel ty ev s a s' :
  Close OnEvent onBytesSent fuel ty ev s = Ret (a, s') →
  (closed s.1 = true ∧ s' = s) ∨
  (closed s.1 = false ∧ rawConnection s.1 = RawNil ∧ s' = (set_closed true s.1, s.2)) ∨
  (closed s.1 = false ∧ rawConnection s.1 = Raw ∧ ∃ s1,
    (∀ I, (∀ f, minor f → keeps I (mod_cn f)) →
       (∀ cb n, keeps I (onBytesSent cb n)) → I (set_closed true s.1, s.2) → I s1) ∧
    for_each (connCallbacks s1.1) (λ cb, OnEvent cb ev) s1 = Ret (a, s')).
Proof.
  intros E. unfold Close in E. apply sg_bind_Ret_inv in E as (? & ? & [= <- <-] & E).
  destruct (closed s.1) eqn:Hcl; [by injection E as _ <-; left|right].
  apply sg_bind_Ret_inv in E as (? & s0 & [= <- <-] & E). apply sg_bind_Ret_inv in E as (raw & ? & [= <- <-] & E).
  change (rawConnection (set_closed true s.1, s.2).1) with (rawConnection s.1) in E.
  destruct (rawConnection s.1) eqn:Hraw; [by injection E as _ <-; left|done|right].
  do 2 (split; [done|]).
  apply sg_bind_Ret_inv in E as (n & ? & [= <- <-] & E). apply sg_bind_Ret_inv in E as (? & s2 & E2 & E).
  apply sg_bind_Ret_inv in E as (? & ? & [= <- <-] & E). apply sg_bind_Ret_inv in E as (? & ? & [= <- <-] & E).
  apply sg_bind_Ret_inv in E as (? & s3 & E3 & E). apply sg_bind_Ret_inv in E as (? & ? & [= <- <-] & E).
  apply sg_bind_Ret_inv in E as (? & s4 & E4 & E). apply sg_bind_Ret_inv in E as (? & s5 & E5 & E).
  apply sg_bind_Ret_inv in E as ([] & s6 & E6 & E). apply sg_bind_Ret_inv in E as (? & ? & [= <- <-] & E).
  exists s6. split; [|done]. intros I Hmod Hsent H1.
  eapply (calm_closing I Hmod onBytesSent Hsent fuel ty); [exact H1|].
  do 2 (eapply sg_run; [first [exact E2|reflexivity]|]). do 2 (eapply sg_run; [reflexivity|]).
  eapply sg_run; [exact E3|]. eapply sg_run; [reflexivity|]. eapply sg_run; [exact E4|]. eapply sg_run; [exact E5|]. exact E6.
Qed.

(** ** A connection is closed once *)

Section closes.
  Context {W : Type}.
  Abbreviation log := (list (nat * ConnectionEvent)).
  Abbreviation st := (connection * (W * log))%type.

(** The calls of the listeners are recorded; what listeners, filters and the
    callbacks for bytes do besides is up to them. *)
  Context (listener : nat → ConnectionEvent → SG st unit) (onBytesRead onBytesSent : nat → Z → SG st unit)
          (OnNewConnection OnData OnWrite : nat → SG st FilterStatus) (pool_get : option IoBuffer).
Definition on_event (cb : nat) (e : ConnectionEvent) : SG st unit :=
  _ ← sg_modify (λ s, (s.1, (s.2.1, s.2.2 ++ [(cb, e)])%list));
  listener cb e.

(** The connection has a socket and, first of all, the listeners [b].  It is closed and
    the listeners were told [l]; or it is either open, and they were told nothing, or
    closed, and the listeners of some moment, with [b] among them, were told the same,
    each once and in order. *)
Definition told (b : list nat) (o : option log) (s : st) : Prop :=
  rawConnection s.1 = Raw ∧ b `prefix_of` connCallbacks s.1 ∧
  match o with
  | Some l => closed s.1 = true ∧ s.2.2 = l
  | None => if closed s.1 then ∃ e cbs, s.2.2 = (λ cb, (cb, e)) <$> cbs ∧ b `prefix_of` cbs ∧ cbs `prefix_of` connCallbacks s.1
            else s.2.2 = []
  end.

(** Computations may add listeners, and do not speak for the connection. *)
Definition fair {A} (m : SG st A) : Prop := ∀ b o, keeps (told b o) m.
  Hypothesis (Hlistener : ∀ cb e b l, keeps (told b (Some l)) (listener cb e)) (Hread : ∀ cb n, fair (onBytesRead cb n))
    (Hsent : ∀ cb n, fair (onBytesSent cb n)) (Hnew : ∀ f, fair (OnNewConnection f)) (Hdata : ∀ f, fair (OnData f))
    (Hwrite : ∀ f, fair (OnWrite f)).

Lemma fair_ret {A} (a : A) : fair (mret a).
Proof. intros b o. apply keeps_ret. Qed.
Lemma fair_bind {A B} (m : SG st A) (f : A → SG st B) : fair m → (∀ a, fair (f a)) → fair (m ≫= f).
Proof. intros Hm Hf b o. apply keeps_bind; [apply Hm|]. intros a. apply Hf. Qed.
Lemma fair_cn {A} (f : connection → A) : fair (cn f).
Proof. by intros b o s a s' Hs [= _ <-]. Qed.
Lemma fair_mod f : (∀ c, closed (f c) = closed c ∧ connCallbacks c `prefix_of` connCallbacks (f c) ∧ rawConnection (f c) = rawConnection c) → fair (mod_cn f).
Proof.
  intros Hf b o. apply keeps_modify. intros [c w] (Hr & Hb & Ho). destruct (Hf c) as (Hcl & Hp & Hraw). cbn [fst snd] in *.
  split_and!; cbn; [congruence|by etrans|]. rewrite Hcl. destruct o; [done|]. destruct (closed c); [|done].
  destruct Ho as (e & cbs & ? & ? & ?). exists e, cbs. split_and!; [done..|by etrans].
Qed.
Lemma fair_lift {A} (m : Go A) : fair (sg_lift m).
Proof. intros b o. apply keeps_lift. Qed.
Lemma fair_deref {A} (x : option A) : fair (sg_deref x).
Proof. intros b o. apply keeps_deref. Qed.
Lemma fair_panic {A} k : fair (sg_panic k : SG st A).
Proof. intros b o. apply keeps_panic. Qed.
Lemma fair_when b m : fair m → fair (sg_when b m).
Proof. intros Hm b' o. apply keeps_when, Hm. Qed.
Lemma fair_for_each l f : (∀ x, fair (f x)) → fair (for_each l f).
Proof. intros Hf. induction l; cbn [for_each]; [apply fair_ret|]. apply fair_bind; [apply Hf|done]. Qed.

(** Prove a computation fair by its steps. *)
Ltac fair := repeat first
  [ solve [auto] | apply fair_bind; [|intros ?] | apply fair_ret | apply fair_cn | apply fair_lift | apply fair_deref | apply fair_panic | apply fair_when
  | apply fair_for_each; intros ? | (apply fair_mod; by intros [])
  | match goal with |- fair (match ?x with _ => _ end) => destruct x end ].

(** Telling the listeners, one after the other. *)
Lemma tell_listeners b cbs e l s s' : told b (Some l) s → for_each cbs (λ cb, on_event cb e) s = Ret (tt, s') →
  told b (Some (l ++ ((λ cb, (cb, e)) <$> cbs))%list) s'.
Proof.
  revert l s. induction cbs as [|cb cbs IH]; intros l s Hs E; cbn [for_each fmap list_fmap] in *.
  { injection E as <-. by rewrite app_nil_r. }
  apply sg_bind_Ret_inv in E as ([] & s1 & E1 & E). unfold on_event in E1. apply sg_bind_Ret_inv in E1 as ([] & s2 & [= <-] & E1).
  rewrite (cons_middle _ l), app_assoc. eapply IH; [|exact E]. eapply Hlistener; [|exact E1]. destruct Hs as (? & ? & ? & <-). by split_and!.
Qed.

Lemma fair_mods b o f : minor f → keeps (told b o) (mod_cn f).
Proof. intros Hf. apply fair_mod. intros c. by destruct (Hf c) as (? & -> & ?). Qed.

Lemma fair_Close fuel ty ev : fair (Close on_event onBytesSent fuel ty ev).
Proof.
  intros b o s a s' Hs E. assert (closed s.1 = false → o = None ∧ s.2.2 = []) as Ho.
  { intros Hcl. destruct Hs as (_ & _ & Hs). destruct o; cbn in Hs; rewrite Hcl in Hs; [by destruct Hs|done]. }
  destruct (Close_inv _ _ _ _ _ _ _ _ E) as [[_ ->]|[(_ & Hraw & _)|(Hcl & _ & s1 & Hs1 & E1)]]; [done|by destruct Hs as (? & _); congruence|].
  destruct (Ho Hcl) as [-> Hnil]. destruct Hs as (Hr & Hb & _).
  assert (told b (Some []) s1) as (Hr1 & Hb1 & Hc1 & Hl1) by (apply Hs1; [apply fair_mods|intros; apply Hsent|by split_and!]).
  destruct a. destruct (tell_listeners (connCallbacks s1.1) _ _ [] _ _ (conj Hr1 (conj (reflexivity _) (conj Hc1 Hl1))) E1) as (H6 & H7 & H8 & H9).
  split_and!; [done|by etrans|]. rewrite H8. by eexists _, _.
Qed.

Lemma fair_calm {A} (m : SG st A) :
  (∀ I, (∀ f, minor f → keeps I (mod_cn f)) →
    (∀ cb n, keeps I (onBytesSent cb n)) → (∀ cb n, keeps I (onBytesRead cb n)) → (∀ f, keeps I (OnNewConnection f)) →
    (∀ f, keeps I (OnData f)) → (∀ f, keeps I (OnWrite f)) →
    (∀ fuel ty ev, IsClose ev = true → keeps I (Close on_event onBytesSent fuel ty ev)) → keeps I m) → fair m.
Proof. intros Hm b o. apply Hm; intros; first [by apply fair_mods|apply Hsent|apply Hread|apply Hnew|apply Hdata|apply Hwrite|apply fair_Close]. Qed.

(** Everything that may happen to a connection. *)
Inductive conn_op :=
  | CRead | CWriteLoop | CWrite (l : list (option IoBuffer)) | CClose (ty : ConnectionCloseType) (ev : ConnectionEvent)
  | CDisable (b : bool) | CListen (cb : nat) | CFilter (f : nat) | CContinue (i : nat) | CStart.
Definition run_conn_op (fuel : nat) (op : conn_op) : SG st unit :=
  match op with
  | CRead => _ ← read_iteration on_event onBytesRead onBytesSent OnNewConnection OnData pool_get fuel; mret tt
  | CWriteLoop => _ ← write_iteration on_event onBytesSent fuel; mret tt
  | CWrite l => _ ← conn_Write OnWrite pool_get l; mret tt
  | CClose ty ev => Close on_event onBytesSent fuel ty ev
  | CDisable b => _ ← SetReadDisable b; mret tt
  | CListen cb => AddConnectionEventListener cb
  | CFilter f => AddReadFilter f
  | CContinue i => ContinueReading OnNewConnection OnData fuel i
  | CStart => Start
  end.
Fixpoint run_conn_ops (fuel : nat) (l : list conn_op) : SG st unit :=
  match l with [] => mret tt | op :: l => _ ← run_conn_op fuel op; run_conn_ops fuel l end.

Lemma fair_run_conn_op fuel op : fair (run_conn_op fuel op).
Proof.
  destruct op; cbn [run_conn_op].
  - apply fair_bind; [|intros; apply fair_ret]. apply fair_calm. intros. by apply calm_read_iteration.
  - apply fair_bind; [|intros; apply fair_ret]. apply fair_calm. intros. by apply calm_write_iteration.
  - apply fair_bind; [|intros; apply fair_ret]. apply fair_calm. intros. by apply calm_conn_Write.
  - apply fair_Close.
  - apply fair_bind; [|intros; apply fair_ret]. apply fair_calm. intros. by apply calm_SetReadDisable.
  - apply fair_mod. intros []. split_and!; [done|by eexists|done].
  - unfold AddReadFilter. fair.
  - unfold ContinueReading, onContinueReading. fair. apply fair_calm. intros. by apply calm_read_filters.
  - unfold Start. fair.
Qed.

(** C24. A connection is closed at most once: whatever its loops, its users, its
    filters and its listeners do, also from within their callbacks, from any moment at
    which it is open, either it stays open and nobody is told of a close, or its
    listeners are told of one close, with one reason: those that it has at that moment,
    and those that were added until it is closed, each once and in the order they were
    added. *)
Theorem closed_once fuel l l' k w s s' : run_conn_ops fuel l (NewServerConnection k, (w, [])) = Ret (tt, s) →
  closed s.1 = false → run_conn_ops fuel l' s = Ret (tt, s') →
  s.2.2 = [] ∧
  ((closed s'.1 = false ∧ s'.2.2 = []) ∨
   (closed s'.1 = true ∧ ∃ e cbs, s'.2.2 = (λ cb, (cb, e)) <$> cbs ∧ connCallbacks s.1 `prefix_of` cbs ∧ cbs `prefix_of` connCallbacks s'.1)).
Proof.
  intros E Ho E'. assert (∀ l, fair (run_conn_ops fuel l)) as Hf.
  { clear E E'. induction l0 as [|op l0 IH]; cbn [run_conn_ops]; [apply fair_ret|]. apply fair_bind; [apply fair_run_conn_op|done]. }
  assert (told [] None (NewServerConnection k, (w, []))) as H0 by by split_and!.
  destruct (Hf l _ _ _ _ _ H0 E) as (Hr & _ & Hl). cbn in Hl. rewrite Ho in Hl. split; [done|].
  assert (told (connCallbacks s.1) None s) as H1 by (split_and!; [done..|]; by rewrite Ho).
  destruct (Hf l' _ _ _ _ _ H1 E') as (_ & _ & Hl'). cbn in Hl'. destruct (closed s'.1); [by right|by left].
Qed.
End closes.

(** The peer ends a connection with a listener that closes it again. *)
Definition lw : Type := connection * (unit * list (nat * ConnectionEvent)).
Definition closing_listener (cb : nat) (e : ConnectionEvent) : SG lw unit :=
  Close (λ _ _, mret tt) (λ _ _, mret tt) 5 FlushWrite LocalClose.
Definition lw_run (l : list conn_op) : SG lw unit :=
  run_conn_ops closing_listener (λ _ _, mret tt) (λ _ _, mret tt) (λ _, mret Continue) (λ _, mret Continue) (λ _, mret Continue) None 5 l.
Lemma closed_once_witness :
  match lw_run [CListen 0; CListen 1; CStart] (NewServerConnection (mk_sock [] EOF [] []), (tt, [])) with
  | Ret (_, s) => match lw_run [CListen 2; CRead; CClose NoFlush LocalClose; CRead] s with
                  | Ret (_, s') => s'.2.2 = [(0%nat, RemoteClose); (1%nat, RemoteClose); (2%nat, RemoteClose)] ∧ s.2.2 = []
                  | Panic _ => False
                  end
  | Panic _ => False
  end.
Proof.
  destruct (lw_run [CListen 0; CListen 1; CStart] _) as [[[] s]|] eqn:E; [|vm_compute in E; discriminate].
  destruct (lw_run [CListen 2; CRead; CClose NoFlush LocalClose; CRead] s) as [[[] s']|] eqn:E'; [|vm_compute in E; injection E as <-; vm_compute in E'; discriminate].
  split; [vm_compute in E; injection E as <-; vm_compute in E'; by injection E' as <-|].
  refine (proj1 (closed_once closing_listener (λ _ _, mret tt) (λ _ _, mret tt) (λ _, mret Continue) (λ _, mret Continue) (λ _, mret Continue) None
    _ (λ _ _ _ _, keeps_ret _ _) (λ _ _ _ _, keeps_ret _ _) (λ _ _ _, keeps_ret _ _) (λ _ _ _, keeps_ret _ _) (λ _ _ _, keeps_ret _ _) _ _ _ _ _ _ _ E _ E')).
  - intros cb e b l0 s0 a s1 (H0 & H1 & H2 & H3) E0. unfold closing_listener, Close in E0.
    apply sg_bind_Ret_inv in E0 as (? & ? & [= <- <-] & E0). rewrite H2 in E0. injection E0 as _ <-. by split_and!.
  - vm_compute in E. by injection E as <-.
Defined.

(** ** Bytes that arrive together with the end of a connection

    A read that fills the buffer is followed by another one; when that one finds
    the end, the bytes of the first are thrown away with the buffer. *)
Definition filled : list bytes := [replicate 4096 (byte_of_Z 120)].
Definition data_log (f : nat) : SG lw FilterStatus := λ s, Ret (Continue, (s.1, (tt, s.2.2 ++ [(f, Connected)])%list)).
Definition log_event (cb : nat) (e : ConnectionEvent) : SG lw unit := λ s, Ret (tt, (s.1, (tt, s.2.2 ++ [(cb, e)])%list)).

Lemma last_bytes_lost :
  match (_ ← AddConnectionEventListener 7; _ ← AddReadFilter 1;
         read_iteration log_event (λ _ _, mret tt) (λ _ _, mret tt) (λ _, mret Continue) data_log None 5)
        (NewServerConnection (mk_sock filled EOF [] []), (tt, [])) with
  | Ret (more, s) => more = false ∧ sk_in (sock s.1) = [] ∧ readBuffer s.1 = None ∧ s.2.2 = [(7%nat, RemoteClose)]
  | Panic _ => False
  end.
Proof. vm_compute. done. Qed.

(** One byte less is delivered. *)
Lemma fewer_bytes_delivered :
  match (_ ← AddConnectionEventListener 7; _ ← AddReadFilter 1;
         read_iteration log_event (λ _ _, mret tt) (λ _ _, mret tt) (λ _, mret Continue) data_log None 5)
        (NewServerConnection (mk_sock [replicate 4095 (byte_of_Z 120)] EOF [] []), (tt, [])) with
  | Ret (more, s) => more = true ∧ option_map Len (readBuffer s.1) = Some 4095 ∧ s.2.2 = [(1%nat, Connected)]
  | Panic _ => False
  end.
Proof. vm_compute. done. Qed.

(** ** A read, step by step *)

Definition unread (c : connection) : bytes := from_option contents [] (readBuffer c).

Lemma sock_read_reader : reader_ok sock_read.
Proof. intros k n Hn. unfold sock_read. destruct (sk_in k); cbn; rewrite ?length_take; lia. Qed.

Lemma sock_run k data k1 : rd_run sock_read k data k1 → concat (sk_in k) = (data ++ concat (sk_in k1))%list ∧ sk_sent k1 = sk_sent k.
Proof.
  induction 1 as [|k n k1 d data k2 E _ [IH1 IH2]]; [done|]. unfold sock_read in E. destruct (sk_in k) as [|c cs] eqn:Ek; [done|].
  injection E as <- <-. cbn in *. split; [|done]. rewrite <- app_assoc, <- IH1. case_bool_decide; cbn; [by rewrite take_ge|].
  by rewrite app_assoc, take_drop.
Qed.

(** What follows a read that brought [n] bytes, [q] being the length of the buffer. *)
Definition handed {W} (onBytesRead : nat → Z → SG (connection * W) unit) (new data : nat → SG (connection * W) FilterStatus)
    (fuel : nat) (n q : Z) : SG (connection * W) unit :=
  _ ← updateReadBufStats n q;
  cbs ← cn bytesReadCallbacks;
  _ ← for_each cbs (λ cb, onBytesRead cb n);
  onRead new data fuel n.

Lemma keeps_handed {W} (I : connection * W → Prop) onBytesRead new data fuel n q :
  keeps I (updateReadBufStats n q) → (∀ cb, keeps I (onBytesRead cb n)) → keeps I (onRead new data fuel n) →
  keeps I (handed onBytesRead new data fuel n q).
Proof.
  intros H1 H2 H3. unfold handed. apply keeps_bind; [done|intros _]. apply keeps_bind; [by intros ? ? ? ? [= _ <-]|intros cbs].
  apply keeps_bind; [|by intros]. induction cbs; cbn [for_each]; [apply keeps_ret|by apply keeps_bind].
Qed.

(** A read brings bytes from the socket into the buffer, behind the ones that are
    there; it then hands the buffer to the filters, or ends and may throw the
    buffer away. *)
Lemma doRead_split {W} onBytesRead new data pool_get fuel (c : connection) (w : W) err s' :
  given pool_get → (∀ b, readBuffer c = Some b → wf b) → doRead onBytesRead new data pool_get fuel (c, w) = Ret (err, s') →
  ∃ b1 k1 d, wf b1 ∧ contents b1 = unread c ++ d ∧ concat (sk_in (sock c)) = d ++ concat (sk_in k1) ∧ sk_sent k1 = sk_sent (sock c) ∧
    let c1 := set_sock k1 (set_readBuffer (Some b1) c) in
    match err with
    | None => ∃ q, handed onBytesRead new data fuel (Z.of_nat (length d)) q (c1, w) = Ret (tt, s')
    | Some _ => s' = (c1, w) ∨ s' = (set_readBuffer None c1, w)
    end.
Proof.
  intros Hpool Hc E. unfold doRead in E. apply sg_bind_Ret_inv in E as (rb & ? & [= <- <-] & E). cbn [fst] in E.
  assert (∃ b0, match readBuffer c with Some b => Ret b | None => Take pool_get end = Ret b0 ∧ wf b0 ∧ contents b0 = unread c) as (b0 & Eb0 & Hb0 & Hc0).
  { unfold unread. destruct (readBuffer c) as [b1|] eqn:Er; [exists b1; split_and!; try done; by apply Hc|]. apply (Take_ok pool_get Hpool). }
  apply sg_bind_Ret_inv in E as (? & s1 & Et & E). unfold sg_lift in Et. rewrite Eb0 in Et. injection Et as <- <-.
  apply sg_bind_Ret_inv in E as (k & ? & [= <- <-] & E). cbn [fst] in E.
  destruct (ReadOnce_ok sock_read (sock c) b0 sock_read_reader Hb0) as (k' & b1 & e & d & k1 & Er & Hb1 & Hc1 & Hrun & Hend).
  apply sg_bind_Ret_inv in E as (q & s2 & Eq & E). unfold sg_lift in Eq. rewrite Er in Eq. injection Eq as <- <-.
  apply sg_bind_Ret_inv in E as ([] & s3 & [= <-] & E). destruct (sock_run _ _ _ Hrun) as [Hin Hsent].
  assert (k' = k1) as ->.
  { destruct Hend as [[-> ->]|(n & d' & e' & Erd & _)]; [done|]. unfold sock_read in Erd. destruct (sk_in k1); [|done]. by injection Erd as <-. }
  exists b1, k1, d. split_and!; [done|by rewrite Hc1, Hc0|done|done|].
  cbn [fst snd] in E. destruct e as [er|].
  - destruct er; first
      [ injection E as <- <-; by left
      | apply sg_bind_Ret_inv in E as (? & s1 & E1 & E); apply sg_bind_Ret_inv in E as ([] & s2 & [= <-] & E); injection E as <- <-; right;
        unfold sg_lift in E1; destruct (Give b1); [by injection E1 as _ <-|done] ].
  - apply sg_bind_Ret_inv in E as (? & s1 & E1 & E). apply sg_bind_Ret_inv in E as (cbs & ? & [= <- <-] & E).
    apply sg_bind_Ret_inv in E as (? & s2 & E2 & E). apply sg_bind_Ret_inv in E as ([] & s4 & E3 & E). injection E as <- <-.
    eexists _. unfold handed. eapply sg_run; [exact E1|]. srun. eapply sg_run; [exact E2|]. exact E3.
Qed.
