(* ===== verification/Pools.v ===== *)
(** * Connection pools and codec clients

    pkg/stream/codecclient.go and the pools of pkg/stream: sofarpc/connpool.go,
    http2/connpool.go, xprotocol/connpool.go, http/connpool.go with its
    http/codecclient.go.

    A pool has clients: a codec client, the pool's [activeClient] that listens to
    it, and a connection of [Connection], whose callbacks these two are.  The
    streams of the requests are known by their listeners.  What the pool's users
    are told is recorded in [out]; they act on it later.  The lock of a pool is a
    flag: taking it twice never returns. *)

From S2P Require Import Prelude IoBuffer StateGo Cluster ProxyState Connection.

Local Open Scope Z_scope.

Inductive pool_kind := KSofa | KHTTP2 | KXprotocol | KHTTP1.

(** ** State *)

(** A request of a codec client, and its stream's listeners: the request itself
    ([ar_listening]) and those that were added later. *)
Record activeRequest := mk_ar {
  ar_client : nat; ar_receiver : nat; ar_deleted : bool; ar_listening : bool; ar_listeners : list nat;
}.

(** [ac_takes] is whether the HTTP/2 connection takes new requests; the activeClient
    of a pool is the codec client's [CodecClientCallbacks]. *)
Record codecClient := mk_cc {
  cc_conn : connection; ActiveRequests : list nat; ConnectedFlag : bool; RemoteCloseFlag : bool;
  totalStream : Z; closeWithActiveReq : bool; isGoneAway : bool; ac_takes : bool;
}.

Inductive told :=
  | OnFailure (streamID : string) (reason : PoolFailureReason)
  | OnReady (streamID : string) (request : nat)
  | ToReceiver (receiver : nat) (endStream : bool)
  | ToListener (listener : nat) (reason : string).

Record pools := mk_pools {
  clients : gmap nat codecClient; next_client : nat; reqs : gmap nat activeRequest; next_req : nat;
  Requests : resource; pool_stats : gmap string Z; out : list told; mux : bool;
  (* of the SofaRPC, the HTTP/2, the x-protocol and the HTTP/1 pool *)
  activeClient : option nat; activeClients : list nat; primaryClient : option nat; drainingClient : option nat;
  h1_client : option nat; initClient : bool;
}.
Definition set_clients (v : gmap nat codecClient) (s : pools) : pools :=
  mk_pools v (next_client s) (reqs s) (next_req s) (Requests s) (pool_stats s) (out s) (mux s)
    (activeClient s) (activeClients s) (primaryClient s) (drainingClient s) (h1_client s)
    (initClient s).
Definition set_next_client (v : nat) (s : pools) : pools :=
  mk_pools (clients s) v (reqs s) (next_req s) (Requests s) (pool_stats s) (out s) (mux s)
    (activeClient s) (activeClients s) (primaryClient s) (drainingClient s) (h1_client s)
    (initClient s).
Definition set_reqs (v : gmap nat activeRequest) (s : pools) : pools :=
  mk_pools (clients s) (next_client s) v (next_req s) (Requests s) (pool_stats s) (out s) (mux s)
    (activeClient s) (activeClients s) (primaryClient s) (drainingClient s) (h1_client s)
    (initClient s).
Definition set_next_req (v : nat) (s : pools) : pools :=
  mk_pools (clients s) (next_client s) (reqs s) v (Requests s) (pool_stats s) (out s) (mux s)
    (activeClient s) (activeClients s) (primaryClient s) (drainingClient s) (h1_client s)
    (initClient s).
Definition set_Requests (v : resource) (s : pools) : pools :=
  mk_pools (clients s) (next_client s) (reqs s) (next_req s) v (pool_stats s) (out s) (mux s)
    (activeClient s) (activeClients s) (primaryClient s) (drainingClient s) (h1_client s)
    (initClient s).
Definition set_pool_stats (v : gmap string Z) (s : pools) : pools :=
  mk_pools (clients s) (next_client s) (reqs s) (next_req s) (Requests s) v (out s) (mux s)
    (activeClient s) (activeClients s) (primaryClient s) (drainingClient s) (h1_client s)
    (initClient s).
Definition set_out (v : list told) (s : pools) : pools :=
  mk_pools (clients s) (next_client s) (reqs s) (next_req s) (Requests s) (pool_stats s) v (mux s)
    (activeClient s) (activeClients s) (primaryClient s) (drainingClient s) (h1_client s)
    (initClient s).
Definition set_mux (v : bool) (s : pools) : pools :=
  mk_pools (clients s) (next_client s) (reqs s) (next_req s) (Requests s) (pool_stats s) (out s) v
    (activeClient s) (activeClients s) (primaryClient s) (drainingClient s) (h1_client s)
    (initClient s).
Definition set_activeClient (v : option nat) (s : pools) : pools :=
  mk_pools (clients s) (next_client s) (reqs s) (next_req s) (Requests s) (pool_stats s) (out s)
    (mux s) v (activeClients s) (primaryClient s) (drainingClient s) (h1_client s) (initClient s).
Definition set_activeClients (v : list nat) (s : pools) : pools :=
  mk_pools (clients s) (next_client s) (reqs s) (next_req s) (Requests s) (pool_stats s) (out s)
    (mux s) (activeClient s) v (primaryClient s) (drainingClient s) (h1_client s) (initClient s).
Definition set_primaryClient (v : option nat) (s : pools) : pools :=
  mk_pools (clients s) (next_client s) (reqs s) (next_req s) (Requests s) (pool_stats s) (out s)
    (mux s) (activeClient s) (activeClients s) v (drainingClient s) (h1_client s) (initClient s).
Definition set_drainingClient (v : option nat) (s : pools) : pools :=
  mk_pools (clients s) (next_client s) (reqs s) (next_req s) (Requests s) (pool_stats s) (out s)
    (mux s) (activeClient s) (activeClients s) (primaryClient s) v (h1_client s) (initClient s).
Definition set_h1_client (v : option nat) (s : pools) : pools :=
  mk_pools (clients s) (next_client s) (reqs s) (next_req s) (Requests s) (pool_stats s) (out s)
    (mux s) (activeClient s) (activeClients s) (primaryClient s) (drainingClient s) v (initClient s).
Definition set_initClient (v : bool) (s : pools) : pools :=
  mk_pools (clients s) (next_client s) (reqs s) (next_req s) (Requests s) (pool_stats s) (out s)
    (mux s) (activeClient s) (activeClients s) (primaryClient s) (drainingClient s) (h1_client s) v.
Definition set_cc_conn (v : connection) (s : codecClient) : codecClient :=
  mk_cc v (ActiveRequests s) (ConnectedFlag s) (RemoteCloseFlag s) (totalStream s)
    (closeWithActiveReq s) (isGoneAway s) (ac_takes s).
Definition set_ActiveRequests (v : list nat) (s : codecClient) : codecClient :=
  mk_cc (cc_conn s) v (ConnectedFlag s) (RemoteCloseFlag s) (totalStream s) (closeWithActiveReq s)
    (isGoneAway s) (ac_takes s).
Definition set_ConnectedFlag (v : bool) (s : codecClient) : codecClient :=
  mk_cc (cc_conn s) (ActiveRequests s) v (RemoteCloseFlag s) (totalStream s) (closeWithActiveReq s)
    (isGoneAway s) (ac_takes s).
Definition set_RemoteCloseFlag (v : bool) (s : codecClient) : codecClient :=
  mk_cc (cc_conn s) (ActiveRequests s) (ConnectedFlag s) v (totalStream s) (closeWithActiveReq s)
    (isGoneAway s) (ac_takes s).
Definition set_totalStream (v : Z) (s : codecClient) : codecClient :=
  mk_cc (cc_conn s) (ActiveRequests s) (ConnectedFlag s) (RemoteCloseFlag s) v
    (closeWithActiveReq s) (isGoneAway s) (ac_takes s).
Definition set_closeWithActiveReq (v : bool) (s : codecClient) : codecClient :=
  mk_cc (cc_conn s) (ActiveRequests s) (ConnectedFlag s) (RemoteCloseFlag s) (totalStream s) v
    (isGoneAway s) (ac_takes s).
Definition set_isGoneAway (v : bool) (s : codecClient) : codecClient :=
  mk_cc (cc_conn s) (ActiveRequests s) (ConnectedFlag s) (RemoteCloseFlag s) (totalStream s)
    (closeWithActiveReq s) v (ac_takes s).
Definition set_ac_takes (v : bool) (s : codecClient) : codecClient :=
  mk_cc (cc_conn s) (ActiveRequests s) (ConnectedFlag s) (RemoteCloseFlag s) (totalStream s)
    (closeWithActiveReq s) (isGoneAway s) v.
Definition set_ar_client (v : nat) (s : activeRequest) : activeRequest :=
  mk_ar v (ar_receiver s) (ar_deleted s) (ar_listening s) (ar_listeners s).
Definition set_ar_receiver (v : nat) (s : activeRequest) : activeRequest :=
  mk_ar (ar_client s) v (ar_deleted s) (ar_listening s) (ar_listeners s).
Definition set_ar_deleted (v : bool) (s : activeRequest) : activeRequest :=
  mk_ar (ar_client s) (ar_receiver s) v (ar_listening s) (ar_listeners s).
Definition set_ar_listening (v : bool) (s : activeRequest) : activeRequest :=
  mk_ar (ar_client s) (ar_receiver s) (ar_deleted s) v (ar_listeners s).
Definition set_ar_listeners (v : list nat) (s : activeRequest) : activeRequest :=
  mk_ar (ar_client s) (ar_receiver s) (ar_deleted s) (ar_listening s) v.

Abbreviation M := (SG pools).
Definition gets {A} (f : pools → A) : M A := λ s, Ret (f s, s).
Definition mods (f : pools → pools) : M unit := sg_modify f.
Definition tell (t : told) : M unit := mods (λ s, set_out (out s ++ [t])%list s).
(** A counter of the host and the same one of its cluster. *)
Definition add_stat (name : string) (n : Z) : M unit :=
  mods (λ s, set_pool_stats (<[name := default 0 (pool_stats s !! name) + n]> (pool_stats s)) s).
Definition inc (name : string) : M unit := add_stat name 1.

Definition lock : M unit := held ← gets mux; if held : bool then sg_panic Deadlock else mods (set_mux true).
Definition unlock : M unit := mods (set_mux false).

Definition get_client (i : nat) : M codecClient := o ← gets (λ s, clients s !! i); sg_deref o.
Definition mod_client (i : nat) (f : codecClient → codecClient) : M unit := mods (λ s, set_clients (alter f i (clients s)) s).
Definition mod_req (r : nat) (f : activeRequest → activeRequest) : M unit := mods (λ s, set_reqs (alter f r (reqs s)) s).

(** ** What a pool does when its clients' streams end *)

Definition sofa_onStreamDestroy : M unit := mods (λ s, set_Requests (Decrease (Requests s)) s).
Definition http_onStreamDestroy : M unit :=
  _ ← add_stat "UpstreamRequestActive" (-1);
  mods (λ s, set_Requests (Decrease (Requests s)) s).
Definition onStreamDestroy (k : pool_kind) : M unit :=
  match k with KSofa => sofa_onStreamDestroy | _ => http_onStreamDestroy end.

Definition http_onStreamReset (i : nat) (reason : string) : M unit :=
  if bool_decide (reason = StreamConnectionTermination ∨ reason = StreamConnectionFailed) then
    _ ← inc "UpstreamRequestFailureEject";
    mod_client i (set_closeWithActiveReq true)
  else if bool_decide (reason = StreamLocalReset) then inc "UpstreamRequestLocalReset"
  else if bool_decide (reason = StreamRemoteReset) then inc "UpstreamRequestRemoteReset"
  else mret tt.
Definition onStreamReset (k : pool_kind) (i : nat) (reason : string) : M unit :=
  match k with KSofa => mret tt | _ => http_onStreamReset i reason end.

(** ** Requests of a codec client (codecclient.go) *)

Definition deleteRequest (k : pool_kind) (r : nat) : M unit :=
  o ← gets (λ s, reqs s !! r);
  ar ← sg_deref o;
  if ar_deleted ar then mret tt
  else
  _ ← mod_req r (set_ar_deleted true);
  _ ← mod_client (ar_client ar) (λ c, set_ActiveRequests (filter (λ x, x ≠ r) (ActiveRequests c)) c);
  onStreamDestroy k.

Definition onReset (k : pool_kind) (r : nat) (reason : string) : M unit :=
  o ← gets (λ s, reqs s !! r);
  ar ← sg_deref o;
  _ ← onStreamReset k (ar_client ar) reason;
  deleteRequest k r.

Definition responseDecodeComplete (k : pool_kind) (r : nat) : M unit :=
  _ ← deleteRequest k r;
  mod_req r (set_ar_listening false).

Definition ar_OnReceiveHeaders (k : pool_kind) (r : nat) (endStream : bool) : M unit :=
  _ ← sg_when endStream (responseDecodeComplete k r);
  o ← gets (λ s, reqs s !! r);
  ar ← sg_deref o;
  tell (ToReceiver (ar_receiver ar) endStream).
Definition ar_OnReceiveData := ar_OnReceiveHeaders.
Definition ar_OnReceiveTrailers (k : pool_kind) (r : nat) : M unit :=
  _ ← responseDecodeComplete k r;
  o ← gets (λ s, reqs s !! r);
  ar ← sg_deref o;
  tell (ToReceiver (ar_receiver ar) true).

(** [ResetStream] of the request's stream calls the listeners in order. *)
Fixpoint tell_all (l : list nat) (reason : string) : M unit :=
  match l with [] => mret tt | x :: l => _ ← tell (ToListener x reason); tell_all l reason end.
Definition pool_ResetStream (k : pool_kind) (r : nat) (reason : string) : M unit :=
  o ← gets (λ s, reqs s !! r);
  ar ← sg_deref o;
  _ ← sg_when (ar_listening ar) (onReset k r reason);
  tell_all (ar_listeners ar) reason.
Definition pool_AddEventListener (r listener : nat) : M unit :=
  mod_req r (λ ar, set_ar_listeners (ar_listeners ar ++ [listener])%list ar).

(** The request listens to its stream from the start. *)
Definition cc_NewStream (i receiver : nat) : M nat :=
  r ← gets next_req;
  _ ← mods (λ s, set_next_req (S r) (set_reqs (<[r := mk_ar i receiver false true []]> (reqs s)) s));
  _ ← mod_client i (λ c, set_ActiveRequests (ActiveRequests c ++ [r])%list c);
  mret r.

Fixpoint reset_requests (k : pool_kind) (i : nat) (l : list nat) : M unit :=
  match l with
  | [] => mret tt
  | r :: l =>
    c ← get_client i;
    _ ← pool_ResetStream k r (if ConnectedFlag c then StreamConnectionTermination else StreamConnectionFailed);
    reset_requests k i l
  end.

(** The HTTP/1 codec client has no connection and gets no events. *)
Definition cc_OnEvent (k : pool_kind) (i : nat) (event : ConnectionEvent) : M unit :=
  _ ← match event with
      | Connected => mod_client i (set_ConnectedFlag true)
      | RemoteClose => mod_client i (set_RemoteCloseFlag true)
      | _ => mret tt
      end;
  if IsClose event || ConnectFailure event then
    c ← get_client i;
    reset_requests k i (ActiveRequests c)
  else mret tt.

(** [CodecCallbacks] is never set. *)
Definition cc_OnGoAway : M unit := sg_panic NilDeref.

(** ** Connection events *)

Section events.
  Context (close : nat → M unit).

Definition sofa_onConnectionEvent (i : nat) (event : ConnectionEvent) : M unit :=
  if IsClose event || ConnectFailure event then mods (set_activeClient None)
  else if bool_decide (event = ConnectTimeout) then close i
  else mret tt.

Definition count_close (i : nat) (event : ConnectionEvent) : M unit :=
  c ← get_client i;
  if closeWithActiveReq c then
    match event with
    | LocalClose => inc "UpstreamConnectionLocalCloseWithActiveRequest"
    | RemoteClose => inc "UpstreamConnectionRemoteCloseWithActiveRequest"
    | _ => mret tt
    end
  else mret tt.

(** What the pool forgets when a client is closed; the lock of the HTTP/2 and the
    x-protocol pool is taken for it. *)
Definition forget (k : pool_kind) (i : nat) : M unit :=
  match k with
  | KSofa => mods (set_activeClient None)
  | KHTTP2 => _ ← lock; _ ← mods (set_activeClients []); unlock
  | KXprotocol =>
    _ ← lock;
    _ ← mods (λ s, if bool_decide (primaryClient s = Some i) then set_primaryClient None s else s);
    unlock
  | KHTTP1 => mods (λ s, if bool_decide (h1_client s = Some i) then set_h1_client None s else s)
  end.

Definition http_onConnectionEvent (k : pool_kind) (i : nat) (event : ConnectionEvent) : M unit :=
  if IsClose event then
    _ ← count_close i event;
    forget k i
  else match event with
       | ConnectTimeout => _ ← inc "UpstreamRequestTimeout"; close i
       | ConnectFailed => inc "UpstreamConnectionConFail"
       | _ => mret tt
       end.

(** The listeners of a client's connection: 0 is the codec client, 1 the pool's
    [activeClient]. *)
Definition client_event (k : pool_kind) (i cb : nat) (event : ConnectionEvent) : M unit :=
  match cb with
  | O => cc_OnEvent k i event
  | _ => match k with KSofa => sofa_onConnectionEvent i event | _ => http_onConnectionEvent k i event end
  end.

(** A listener of connection [i] runs on the pools that hold the connection. *)
Definition put_conn (i : nat) (c : connection) (s : pools) : pools := set_clients (alter (set_cc_conn c) i (clients s)) s.
Definition conn_of (i : nat) (c : connection) (s : pools) : connection := from_option cc_conn c (clients s !! i).
Definition conn_event (k : pool_kind) (i cb : nat) (event : ConnectionEvent) : SG (connection * pools) unit := λ cs,
  match client_event k i cb event (put_conn i cs.1 cs.2) with
  | Ret (_, s) => Ret (tt, (conn_of i cs.1 s, s))
  | Panic p => Panic p
  end.
Definition with_conn {A} (i : nat) (m : SG (connection * pools) A) : M A := λ s,
  match clients s !! i with
  | None => Panic NilDeref
  | Some cc =>
    match m (cc_conn cc, s) with
    | Ret (a, (c, s)) => Ret (a, put_conn i c s)
    | Panic p => Panic p
    end
  end.
Definition no_bytes (cb : nat) (n : Z) : SG (connection * pools) unit := mret tt.
End events.

(** Closing the connection of client [i]; a listener may close again, hence the
    depth, of which 2 is enough. *)
Fixpoint close_conn (depth : nat) (k : pool_kind) (ev : ConnectionEvent) (i : nat) : M unit :=
  match depth with
  | O => sg_panic OutOfFuel
  | S depth => with_conn i (Connection.Close (conn_event (close_conn depth k LocalClose) k i) no_bytes 0 NoFlush ev)
  end.
Definition codec_Close (k : pool_kind) (i : nat) : M unit := close_conn 2 k LocalClose i.

(** ** New clients

    [dial] is the outcome of the connection attempt, [h2] whether the HTTP/2
    transport accepts the connection. *)

Definition add_client (callbacks : list nat) : M nat :=
  i ← gets next_client;
  let c := set_connCallbacks callbacks (NewClientConnection (mk_sock [] EOF [] [])) in
  _ ← mods (λ s, set_next_client (S i) (set_clients (<[i := mk_cc c [] false false 0 false false true]> (clients s)) s));
  mret i.
Definition connect (k : pool_kind) (dial : option io_error) (ioEnabled : bool) (i : nat) : M (option io_error) :=
  with_conn i (Connection.Connect (conn_event (codec_Close k) k i) dial ioEnabled).
Definition count_client (total : string) : M unit :=
  _ ← inc "UpstreamConnectionTotal";
  _ ← inc "UpstreamConnectionActive";
  inc total.

Definition sofa_newActiveClient (dial : option io_error) : M (option nat) :=
  i ← add_client [0; 1]%nat;
  err ← connect KSofa dial true i;
  match err with Some _ => mret None | None => mret (Some i) end.

(** The listeners are added once the connection is there. *)
Definition http2_newActiveClient (dial : option io_error) (h2 : bool) : M (option nat) :=
  i ← add_client [];
  err ← connect KHTTP2 dial false i;
  match err with
  | Some _ => mret None
  | None =>
    if negb h2 then _ ← codec_Close KHTTP2 i; mret None
    else
    _ ← mod_client i (λ c, set_cc_conn (set_connCallbacks [0; 1]%nat (cc_conn c)) c);
    _ ← count_client "UpstreamConnectionTotalHTTP2";
    mret (Some i)
  end.

(** The outcome of the attempt is not looked at. *)
Definition x_newActiveClient (dial : option io_error) : M (option nat) :=
  i ← add_client [];
  _ ← connect KXprotocol dial true i;
  _ ← mod_client i (λ c, set_cc_conn (set_connCallbacks [0; 1]%nat (cc_conn c)) c);
  _ ← count_client "UpstreamConnectionTotalHTTP2";
  mret (Some i).

Definition http1_newActiveClient : M (option nat) :=
  i ← add_client [];
  _ ← count_client "UpstreamConnectionTotalHTTP1";
  mret (Some i).

(** ** The pools' operations *)

(** A stream on client [i], if the cluster admits another request. *)
Definition sofa_stream (i : nat) (streamID : string) (receiver : nat) : M unit :=
  res ← gets Requests;
  if negb (CanCreate res) then tell (OnFailure streamID Overflow)
  else
  _ ← mod_client i (λ c, set_totalStream (totalStream c + 1) c);
  _ ← mods (λ s, set_Requests (Increase (Requests s)) s);
  r ← cc_NewStream i receiver;
  tell (OnReady streamID r).
Definition http_stream (i : nat) (streamID : string) (receiver : nat) : M unit :=
  res ← gets Requests;
  if negb (CanCreate res) then
    _ ← tell (OnFailure streamID Overflow);
    inc "UpstreamRequestPendingOverflow"
  else
  _ ← mod_client i (λ c, set_totalStream (totalStream c + 1) c);
  _ ← inc "UpstreamRequestTotal";
  _ ← inc "UpstreamRequestActive";
  _ ← mods (λ s, set_Requests (Increase (Requests s)) s);
  r ← cc_NewStream i receiver;
  tell (OnReady streamID r).

Definition sofa_NewStream (dial : option io_error) (streamID : string) (receiver : nat) : M unit :=
  _ ← lock;
  ac ← gets activeClient;
  _ ← match ac with
      | Some _ => mret tt
      | None => nac ← sofa_newActiveClient dial; mods (set_activeClient nac)
      end;
  _ ← unlock;
  ac ← gets activeClient;
  match ac with
  | None => tell (OnFailure streamID ConnectionFailure)
  | Some i => sofa_stream i streamID receiver
  end.

(** The first client that takes requests. *)
Fixpoint find_taking (cs : gmap nat codecClient) (l : list nat) : option nat :=
  match l with
  | [] => None
  | i :: l => if match cs !! i with Some c => ac_takes c | None => false end then Some i else find_taking cs l
  end.
Definition getOrInitActiveClient (dial : option io_error) (h2 : bool) : M (option nat) :=
  _ ← lock;
  s ← sg_get;
  match find_taking (clients s) (activeClients s) with
  | Some i => _ ← unlock; mret (Some i)
  | None =>
    nac ← http2_newActiveClient dial h2;
    _ ← match nac with Some i => mods (λ s, set_activeClients (activeClients s ++ [i])%list s) | None => mret tt end;
    _ ← unlock;
    mret nac
  end.
Definition http2_NewStream (dial : option io_error) (h2 : bool) (streamID : string) (receiver : nat) : M unit :=
  ac ← getOrInitActiveClient dial h2;
  match ac with
  | None => tell (OnFailure streamID ConnectionFailure)
  | Some i => http_stream i streamID receiver
  end.

Definition x_NewStream (dial : option io_error) (streamID : string) (receiver : nat) : M unit :=
  _ ← lock;
  ac ← gets primaryClient;
  _ ← match ac with
      | Some _ => mret tt
      | None => nac ← x_newActiveClient dial; mods (set_primaryClient nac)
      end;
  _ ← unlock;
  ac ← gets primaryClient;
  match ac with
  | None => tell (OnFailure streamID ConnectionFailure)
  | Some i => http_stream i streamID receiver
  end.

(** A client is made once; the limit is checked before the client is used. *)
Definition http1_NewStream (streamID : string) (receiver : nat) : M unit :=
  ac ← gets h1_client;
  once ← gets initClient;
  _ ← match ac with
      | Some _ => mret tt
      | None =>
        sg_when (negb once) (_ ← mods (set_initClient true); nac ← http1_newActiveClient; mods (set_h1_client nac))
      end;
  ac ← gets h1_client;
  res ← gets Requests;
  if negb (CanCreate res) then
    _ ← tell (OnFailure streamID Overflow);
    inc "UpstreamRequestPendingOverflow"
  else
  _ ← inc "UpstreamRequestTotal";
  _ ← inc "UpstreamRequestActive";
  _ ← mods (λ s, set_Requests (Increase (Requests s)) s);
  i ← sg_deref ac;
  r ← cc_NewStream i receiver;
  tell (OnReady streamID r).

Definition sofa_Close : M unit := ac ← gets activeClient; match ac with Some i => codec_Close KSofa i | None => mret tt end.
Fixpoint close_all (l : list nat) : M unit :=
  match l with [] => mret tt | i :: l => _ ← codec_Close KHTTP2 i; close_all l end.
Definition http2_Close : M unit := _ ← lock; l ← gets activeClients; _ ← close_all l; unlock.
Definition x_Close : M unit :=
  _ ← lock; ac ← gets primaryClient; _ ← match ac with Some i => codec_Close KXprotocol i | None => mret tt end; unlock.
Definition http1_Close : M unit := mods (set_h1_client None).

(** The HTTP/2 transport gives up a connection. *)
Definition MarkDead (i : nat) : M unit :=
  _ ← lock;
  l ← gets activeClients;
  let found := bool_decide (i ∈ l) in
  _ ← mods (set_activeClients (filter (λ x, x ≠ i) l));
  _ ← unlock;
  sg_when found (codec_Close KHTTP2 i).

(** The pools' reactions to a peer that goes away. *)
Definition http2_onGoAway (i : nat) : M unit :=
  c ← get_client i;
  if isGoneAway c then mret tt
  else
  _ ← mod_client i (set_isGoneAway true);
  _ ← inc "UpstreamConnectionCloseNotify";
  _ ← lock; _ ← mods (set_activeClients []); unlock.
Definition movePrimaryToDraining : M unit :=
  d ← gets drainingClient;
  _ ← match d with Some j => codec_Close KXprotocol j | None => mret tt end;
  p ← gets primaryClient;
  i ← sg_deref p;
  c ← get_client i;
  match ActiveRequests c with
  | [] => codec_Close KXprotocol i
  | _ => mods (λ s, set_primaryClient None (set_drainingClient (Some i) s))
  end.
Definition x_onGoAway (i : nat) : M unit :=
  _ ← inc "UpstreamConnectionCloseNotify";
  _ ← lock;
  p ← gets primaryClient;
  _ ← sg_when (bool_decide (p = Some i)) movePrimaryToDraining;
  unlock.

Definition new_pool (res : resource) : pools := mk_pools ∅ 0 ∅ 0 res ∅ [] false None [] None None None false.
