(* ===== verification/PoolsProps.v ===== *)
(** * Properties of connection pools

    The count of a cluster's requests is exact; a closed connection resets its
    requests and its pool recovers; how pools break. *)

From S2P Require Import Prelude IoBuffer StateGo Cluster ProxyState Connection ConnectionProps Pools.

Local Open Scope Z_scope.

(** ** Predicates that pools keep while connections are used *)

Section lifted.
  Context (I : pools → Prop).
Definition lifted (cs : connection * pools) : Prop := I cs.2.

Lemma lifted_cn {A} (f : connection → A) : keeps lifted (cn f).
Proof. by intros s a s' Hs [= _ <-]. Qed.
Lemma lifted_mod f : keeps lifted (mod_cn f).
Proof. by apply keeps_modify. Qed.
Lemma lifted_for_each l f : (∀ x, keeps lifted (f x)) → keeps lifted (for_each l f).
Proof. intros Hf. induction l; cbn [for_each]; [apply keeps_ret|]. by apply keeps_bind. Qed.

Ltac lift_steps := repeat first
  [ solve [auto] | apply keeps_bind; [|intros ?] | apply keeps_ret | apply lifted_cn | apply lifted_mod | apply keeps_lift | apply keeps_deref
  | apply keeps_panic | apply keeps_when | apply lifted_for_each; intros ?
  | match goal with |- keeps _ (match ?x with _ => _ end) => destruct x end ].

Lemma lifted_stats a b : keeps lifted (updateReadBufStats a b) ∧ keeps lifted (updateWriteBuffStats a b).
Proof. unfold updateReadBufStats, updateWriteBuffStats. split; lift_steps. Qed.

Lemma lifted_Close OnEvent ev : (∀ cb e, keeps lifted (OnEvent cb e)) → keeps lifted (Connection.Close OnEvent no_bytes 0 NoFlush ev).
Proof.
  intros Hev. destruct (lifted_stats 0 0). unfold Connection.Close. lift_steps.
Qed.
Lemma lifted_Connect OnEvent dial io : (∀ cb e, keeps lifted (OnEvent cb e)) → keeps lifted (Connection.Connect OnEvent dial io).
Proof. intros Hev. unfold Connection.Connect, Start. lift_steps. Qed.

(** Connections may change whenever the predicate does not look at them. *)
  Hypothesis Hconn : ∀ i c s, I s → I (put_conn i c s).

Lemma keeps_with_conn {A} i (m : SG (connection * pools) A) : keeps lifted m → keeps I (with_conn i m).
Proof.
  intros Hm s a s' Hs E. unfold with_conn in E. destruct (clients s !! i) as [cc|]; [|done].
  destruct (m (cc_conn cc, s)) as [[a1 [c s1]]|] eqn:Em; [|done]. injection E as _ <-. apply Hconn. by apply (Hm (cc_conn cc, s) _ _ Hs Em).
Qed.
Lemma lifted_conn_event close k i cb e : keeps I (client_event close k i cb e) → keeps lifted (conn_event close k i cb e).
Proof.
  intros He [c s] a s' Hs E. unfold conn_event in E. cbn [fst snd] in E.
  destruct (client_event close k i cb e (put_conn i c s)) as [[a1 s1]|] eqn:Em; [|done]. injection E as _ <-. cbn.
  eapply He; [|exact Em]. by apply Hconn.
Qed.

  Context (k : pool_kind).
  Hypothesis Hevent : ∀ close i cb e, (∀ j, keeps I (close j)) → keeps I (client_event close k i cb e).
Lemma keeps_close_conn depth ev i : keeps I (close_conn depth k ev i).
Proof.
  revert ev i. induction depth as [|depth IH]; intros ev i; cbn [close_conn]; [apply keeps_panic|].
  apply keeps_with_conn, lifted_Close. intros cb e. apply lifted_conn_event, Hevent. intros j. apply IH.
Qed.
Lemma keeps_connect dial io i : keeps I (connect k dial io i).
Proof. apply keeps_with_conn, lifted_Connect. intros cb e. apply lifted_conn_event, Hevent. intros j. apply keeps_close_conn. Qed.
End lifted.

(** ** The requests are counted *)

Section counted.
  Context (k : pool_kind) (r0 : Z).

Definition live (s : pools) : nat := size (filter (λ p : nat * activeRequest, ar_deleted p.2 = false) (reqs s)).
Definition active_stat (s : pools) : Z := default 0 (pool_stats s !! "UpstreamRequestActive"%string).

(** The clients a pool refers to. *)
Definition slot (s : pools) (i : nat) : Prop :=
  activeClient s = Some i ∨ i ∈ activeClients s ∨ primaryClient s = Some i ∨ drainingClient s = Some i ∨ h1_client s = Some i.

Record counted (s : pools) : Prop := {
  c_count : current (Requests s) = to_int64 (r0 + Z.of_nat (live s));
  c_stat : k ≠ KSofa → active_stat s = Z.of_nat (live s);
  c_fresh : ∀ r ar, reqs s !! r = Some ar → (r < next_req s)%nat ∧ is_Some (clients s !! ar_client ar) ∧
    (ar_deleted ar = false → ar_listening ar = true);
  c_listed : ∀ i c, clients s !! i = Some c → (i < next_client s)%nat ∧ NoDup (ActiveRequests c) ∧
    ∀ r, r ∈ ActiveRequests c ↔ ∃ ar, reqs s !! r = Some ar ∧ ar_client ar = i ∧ ar_deleted ar = false;
  c_slots : ∀ i, slot s i → is_Some (clients s !! i);
}.

Lemma to_int64_add a b : to_int64 (to_int64 a + b) = to_int64 (a + b).
Proof.
  unfold to_int64, swrap. f_equal. set (m := 2 ^ 64). set (h := 2 ^ (64 - 1)).
  replace ((a + h) mod m - h + b + h) with ((a + h) mod m + b) by lia. rewrite Zplus_mod_idemp_l. f_equal. lia.
Qed.

(** A request that is made, and one that is deleted. *)
Lemma live_new s r ar : reqs s !! r = None → ar_deleted ar = false →
  size (filter (λ p : nat * activeRequest, ar_deleted p.2 = false) (<[r := ar]> (reqs s))) = S (live s).
Proof.
  intros Hr Ha. rewrite map_filter_insert_True by done. apply map_size_insert_None. by apply map_lookup_filter_None_2; left.
Qed.
Lemma live_delete s r ar : reqs s !! r = Some ar → ar_deleted ar = false →
  S (size (filter (λ p : nat * activeRequest, ar_deleted p.2 = false) (alter (set_ar_deleted true) r (reqs s)))) = live s.
Proof.
  intros Hr Ha. assert (alter (set_ar_deleted true) r (reqs s) = <[r := set_ar_deleted true ar]> (reqs s)) as ->.
  { apply map_eq. intros j. destruct (decide (j = r)) as [->|]; [by rewrite lookup_alter_eq, lookup_insert_eq, Hr|].
    by rewrite lookup_alter_ne, lookup_insert_ne by done. }
  rewrite map_filter_insert_False by done. unfold live. rewrite map_filter_delete.
  assert (filter (λ p : nat * activeRequest, ar_deleted p.2 = false) (reqs s) !! r = Some ar) as Hf by by apply map_lookup_filter_Some_2.
  rewrite map_size_delete, Hf. assert (0 < size (filter (λ p : nat * activeRequest, ar_deleted p.2 = false) (reqs s)))%nat; [|lia].
  apply Nat.neq_0_lt_0. rewrite map_size_non_empty_iff. intros E. rewrite E in Hf. done.
Qed.

(** Changes that the count does not see. *)
Lemma counted_ext s s' : Requests s' = Requests s → active_stat s' = active_stat s → next_req s' = next_req s →
  next_client s' = next_client s → reqs s' = reqs s →
  (∀ i, ActiveRequests <$> clients s' !! i = ActiveRequests <$> clients s !! i) → (∀ i, slot s' i → slot s i) → counted s → counted s'.
Proof.
  intros H1 H2 H3 H4 H5 H6 H7 [C1 C2 C3 C4 C5]. split.
  - unfold live. by rewrite H1, H5.
  - intros Hk. unfold live. rewrite H2, H5. by apply C2.
  - intros r ar Hr. rewrite H5 in Hr. rewrite H3. destruct (C3 r ar Hr) as (? & [c Hc] & ?). split_and!; [done| |done].
    specialize (H6 (ar_client ar)). rewrite Hc in H6. by destruct (clients s' !! ar_client ar).
  - intros i c Hc. specialize (H6 i). rewrite Hc in H6. destruct (clients s !! i) as [c0|] eqn:Hc0; [|done]. injection H6 as H6.
    rewrite H4, H5, H6. by apply C4.
  - intros i [c Hc]%H7%C5. specialize (H6 i). rewrite Hc in H6. by destruct (clients s' !! i).
Qed.

Lemma alter_same i f (cs : gmap nat codecClient) : (∀ c, ActiveRequests (f c) = ActiveRequests c) →
  ∀ j, ActiveRequests <$> alter f i cs !! j = ActiveRequests <$> cs !! j.
Proof.
  intros Hf j. destruct (decide (j = i)) as [->|]; [|by rewrite lookup_alter_ne]. rewrite lookup_alter_eq.
  destruct (cs !! i); [|done]. cbn. by rewrite Hf.
Qed.

Lemma counted_put_conn i c s : counted s → counted (put_conn i c s).
Proof. apply counted_ext; try done. by apply alter_same. Qed.

Lemma keeps_mods f : (∀ s, Requests (f s) = Requests s ∧ active_stat (f s) = active_stat s ∧ next_req (f s) = next_req s ∧
    next_client (f s) = next_client s ∧ reqs (f s) = reqs s ∧ clients (f s) = clients s ∧ ∀ i, slot (f s) i → slot s i) → keeps counted (mods f).
Proof.
  intros Hf. apply keeps_modify. intros s. destruct (Hf s) as (? & ? & ? & ? & ? & Hc & ?). apply counted_ext; try done. intros i. by rewrite Hc.
Qed.
Lemma keeps_mod_client i f : (∀ c, ActiveRequests (f c) = ActiveRequests c) → keeps counted (mod_client i f).
Proof. intros Hf. apply keeps_modify. intros s. apply counted_ext; try done. by apply alter_same. Qed.
Lemma keeps_add_stat name n : name ≠ "UpstreamRequestActive"%string → keeps counted (add_stat name n).
Proof. intros Hn. apply keeps_mods. intros s. split_and!; try done. unfold active_stat. cbn. by rewrite lookup_insert_ne. Qed.
Lemma keeps_gets {A} (f : pools → A) : keeps counted (gets f).
Proof. by intros s a s' Hs [= _ <-]. Qed.

(** Prove that a computation keeps the count, by its steps. *)
Ltac count := repeat first
  [ solve [auto] | apply keeps_bind; [|intros ?] | apply keeps_ret | apply keeps_gets | apply keeps_deref | apply keeps_lift | apply keeps_panic
  | apply keeps_when | apply keeps_get | (apply keeps_add_stat; discriminate) | (apply keeps_mod_client; by intros [])
  | (apply keeps_mods; intros s0; by repeat case_match; unfold slot; cbn; split_and!; try done; try (intros ? ?; set_solver))
  | match goal with |- keeps _ (match ?x with _ => _ end) => destruct x end ].

Lemma keeps_lock : keeps counted lock.
Proof. unfold lock. count. Qed.
Lemma keeps_tell t : keeps counted (tell t).
Proof. unfold tell. count. Qed.
Hint Resolve keeps_lock keeps_tell : core.
Lemma keeps_onStreamReset i reason : keeps counted (onStreamReset k i reason).
Proof. unfold onStreamReset, http_onStreamReset, inc. count. Qed.
Hint Resolve keeps_onStreamReset : core.

(** A request's end is counted once. *)
Lemma keeps_deleteRequest r : keeps counted (deleteRequest k r).
Proof.
  intros s a s' Hs E. unfold deleteRequest in E. apply sg_bind_Ret_inv in E as (o & ? & [= <- <-] & E).
  destruct (reqs s !! r) as [ar|] eqn:Hr; [|done]. apply sg_bind_Ret_inv in E as (? & ? & [= <- <-] & E).
  destruct (ar_deleted ar) eqn:Hd; [by injection E as _ <-|].
  apply sg_bind_Ret_inv in E as (? & ? & [= <- <-] & E). apply sg_bind_Ret_inv in E as (? & ? & [= <- <-] & E).
  pose proof (live_delete s r ar Hr Hd) as Hlive. destruct Hs as [C1 C2 C3 C4 C5].
  set (cs := alter (λ c, set_ActiveRequests (filter (λ x, x ≠ r) (ActiveRequests c)) c) (ar_client ar) (clients s)).
  assert (∀ s', Requests s' = Decrease (Requests s) → (k ≠ KSofa → active_stat s' = active_stat s - 1) → next_req s' = next_req s →
    next_client s' = next_client s → reqs s' = alter (set_ar_deleted true) r (reqs s) → clients s' = cs → (∀ i, slot s' i → slot s i) → counted s') as Hdone.
  { intros s1 H1 H2 H3 H4 H5 H6 H7. split.
    - unfold live. rewrite H1, H5. cbn. rewrite C1, <- Hlive. rewrite <- Z.add_opp_r, to_int64_add. f_equal. lia.
    - intros Hk. unfold live. rewrite H2, H5, C2 by done. lia.
    - intros r1 ar1 Hr1. rewrite H5 in Hr1. rewrite H3, H6.
      assert (∃ ar2, reqs s !! r1 = Some ar2 ∧ ar_client ar2 = ar_client ar1 ∧ (ar_deleted ar1 = false → ar_listening ar1 = ar_listening ar2 ∧ ar_deleted ar2 = false))
        as (ar2 & Hr2 & Hcl & Hli).
      { destruct (decide (r1 = r)) as [->|]; [|rewrite lookup_alter_ne in Hr1 by done; by exists ar1].
        rewrite lookup_alter_eq, Hr in Hr1. injection Hr1 as <-. by exists ar. }
      destruct (C3 r1 ar2 Hr2) as (? & ? & Hl). rewrite <- Hcl. split_and!; [done| |].
      + unfold cs. destruct (decide (ar_client ar2 = ar_client ar)) as [->|]; [|by rewrite lookup_alter_ne].
        rewrite lookup_alter_eq, fmap_is_Some. by destruct (C3 r ar Hr) as (_ & ? & _).
      + intros Hd1. destruct (Hli Hd1) as [-> ?]. auto.
    - intros i c Hc. rewrite H6 in Hc. rewrite H4, H5. unfold cs in Hc.
      assert (∃ c0, clients s !! i = Some c0 ∧ ∀ x, x ∈ ActiveRequests c ↔ x ∈ ActiveRequests c0 ∧ (i = ar_client ar → x ≠ r)) as (c0 & Hc0 & Hx).
      { destruct (decide (i = ar_client ar)) as [->|].
        - rewrite lookup_alter_eq in Hc. destruct (clients s !! ar_client ar) as [c0|]; [|done]. injection Hc as <-. exists c0. split; [done|].
          intros x. cbn. rewrite list_elem_of_filter. naive_solver.
        - rewrite lookup_alter_ne in Hc by done. exists c. split; [done|]. naive_solver. }
      destruct (C4 i c0 Hc0) as (? & Hnd & Hin). split_and!; [done| |].
      + destruct (decide (i = ar_client ar)) as [->|].
        * rewrite lookup_alter_eq, Hc0 in Hc. injection Hc as <-. by apply NoDup_filter.
        * rewrite lookup_alter_ne, Hc0 in Hc by done. by injection Hc as <-.
      + intros x. rewrite Hx, Hin. destruct (decide (x = r)) as [->|].
        * rewrite lookup_alter_eq, Hr. split; [|by intros (? & [= <-] & _ & ?)].
          intros [(ar1 & [= <-] & Hi & _) Hne]. by destruct Hne.
        * rewrite lookup_alter_ne by done. naive_solver.
    - intros i Hi%H7%C5. rewrite H6. unfold cs. destruct (decide (i = ar_client ar)) as [->|]; [|by rewrite lookup_alter_ne].
      by rewrite lookup_alter_eq, fmap_is_Some. }
  destruct k eqn:Hk; cbn [onStreamDestroy] in E; unfold sofa_onStreamDestroy, http_onStreamDestroy, add_stat in E;
    repeat (apply sg_bind_Ret_inv in E as (? & ? & [= <- <-] & E)); injection E as _ <-; apply Hdone; try done;
    intros _; unfold active_stat; cbn; rewrite lookup_insert_eq; cbn; lia.
Qed.
Hint Resolve keeps_deleteRequest : core.

Lemma deleteRequest_deleted r s a s' : deleteRequest k r s = Ret (a, s') → ∃ ar, reqs s' !! r = Some ar ∧ ar_deleted ar = true.
Proof.
  intros E. unfold deleteRequest in E. apply sg_bind_Ret_inv in E as (o & ? & [= <- <-] & E).
  destruct (reqs s !! r) as [ar|] eqn:Hr; [|done]. apply sg_bind_Ret_inv in E as (? & ? & [= <- <-] & E).
  destruct (ar_deleted ar) eqn:Hd; [injection E as _ <-; by exists ar|].
  apply sg_bind_Ret_inv in E as (? & ? & [= <- <-] & E). apply sg_bind_Ret_inv in E as (? & ? & [= <- <-] & E).
  exists (set_ar_deleted true ar). split; [|done].
  destruct k; cbn [onStreamDestroy] in E; unfold sofa_onStreamDestroy, http_onStreamDestroy, add_stat in E;
    repeat (apply sg_bind_Ret_inv in E as (? & ? & [= <- <-] & E)); injection E as _ <-; cbn; by rewrite lookup_alter_eq, Hr.
Qed.

Lemma live_same s (f : activeRequest → activeRequest) r : (∀ ar, ar_deleted (f ar) = ar_deleted ar) →
  size (filter (λ p : nat * activeRequest, ar_deleted p.2 = false) (alter f r (reqs s))) = live s.
Proof.
  intros Hf. unfold live. rewrite <- !(size_dom (D := gset nat)). f_equal. apply set_eq. intros x.
  rewrite !elem_of_dom. unfold is_Some. setoid_rewrite map_lookup_filter_Some. destruct (decide (x = r)) as [->|].
  - rewrite lookup_alter_eq. destruct (reqs s !! r) as [ar|]; cbn; [|naive_solver]. split.
    + intros (y & [= <-] & Hy). cbn in Hy. rewrite Hf in Hy. by exists ar.
    + intros (y & [= <-] & Hy). exists (f ar). cbn in *. by rewrite Hf.
  - by rewrite lookup_alter_ne.
Qed.
Lemma counted_mod_req s (f : activeRequest → activeRequest) r : (∀ ar, ar_client (f ar) = ar_client ar ∧ ar_deleted (f ar) = ar_deleted ar) →
  (∀ ar, reqs s !! r = Some ar → ar_deleted ar = false → ar_listening (f ar) = ar_listening ar) →
  counted s → counted (set_reqs (alter f r (reqs s)) s).
Proof.
  intros Hf Hl [C1 C2 C3 C4 C5]. assert (live (set_reqs (alter f r (reqs s)) s) = live s) as Hlive by (apply live_same; apply Hf).
  assert (∀ x ar, alter f r (reqs s) !! x = Some ar → ∃ ar0, reqs s !! x = Some ar0 ∧ ar_client ar = ar_client ar0 ∧ ar_deleted ar = ar_deleted ar0 ∧
    (ar_deleted ar0 = false → ar_listening ar = ar_listening ar0)) as Hinv.
  { intros x ar Hx. destruct (decide (x = r)) as [->|]; [|rewrite lookup_alter_ne in Hx by done; by exists ar].
    rewrite lookup_alter_eq in Hx. destruct (reqs s !! r) as [ar0|]; [|done]. injection Hx as <-. exists ar0. destruct (Hf ar0). auto 10. }
  split; cbn.
  - by rewrite Hlive.
  - intros Hk. rewrite Hlive. by apply C2.
  - intros x ar Hx. destruct (Hinv x ar Hx) as (ar0 & Hx0 & -> & -> & Hli). destruct (C3 x ar0 Hx0) as (? & ? & ?).
    split_and!; [done..|]. intros Hd. rewrite Hli; auto.
  - intros i c Hc. destruct (C4 i c Hc) as (? & ? & Hin). split_and!; [done..|]. intros x. rewrite Hin. split.
    + intros (ar & Hx & Hi & Hd). destruct (decide (x = r)) as [->|]; [|rewrite lookup_alter_ne by done; by exists ar].
      exists (f ar). rewrite lookup_alter_eq, Hx. destruct (Hf ar) as [-> ->]. done.
    + intros (ar & Hx & Hi & Hd). destruct (Hinv x ar Hx) as (ar0 & Hx0 & Hc0 & Hd0 & _). exists ar0. split_and!; congruence.
  - exact C5.
Qed.

Lemma keeps_responseDecodeComplete r : keeps counted (responseDecodeComplete k r).
Proof.
  intros s a s' Hs E. apply sg_bind_Ret_inv in E as (? & s1 & E1 & E). injection E as _ <-.
  pose proof (keeps_deleteRequest _ _ _ _ Hs E1) as H1. destruct (deleteRequest_deleted _ _ _ _ E1) as (ar & Hr & Hd).
  apply counted_mod_req; [done| |done]. intros ar1 Hr1 Hd1. rewrite Hr in Hr1. injection Hr1 as <-. congruence.
Qed.
Lemma keeps_AddEventListener r x : keeps counted (pool_AddEventListener r x).
Proof. apply keeps_modify. intros s. by apply counted_mod_req. Qed.
Lemma keeps_tell_all l reason : keeps counted (tell_all l reason).
Proof. induction l; cbn [tell_all]; count. Qed.
Hint Resolve keeps_responseDecodeComplete keeps_AddEventListener keeps_tell_all : core.
Lemma keeps_ResetStream r reason : keeps counted (pool_ResetStream k r reason).
Proof. unfold pool_ResetStream, onReset. count. Qed.
Hint Resolve keeps_ResetStream : core.
Lemma keeps_reset_requests i l : keeps counted (reset_requests k i l).
Proof. induction l; cbn [reset_requests]; unfold get_client; count. Qed.
Hint Resolve keeps_reset_requests : core.

Lemma keeps_client_event close i cb e : (∀ j, keeps counted (close j)) → keeps counted (client_event close k i cb e).
Proof.
  intros Hc. unfold client_event, cc_OnEvent, sofa_onConnectionEvent, http_onConnectionEvent, count_close, forget, get_client, inc, unlock. count.
Qed.
Lemma keeps_close depth ev i : keeps counted (close_conn depth k ev i).
Proof. apply keeps_close_conn; [apply counted_put_conn|apply keeps_client_event]. Qed.
Lemma keeps_conn dial io i : keeps counted (connect k dial io i).
Proof. apply keeps_connect; [apply counted_put_conn|apply keeps_client_event]. Qed.
Hint Resolve keeps_close keeps_conn : core.

Lemma keeps_add_client cbs : keeps counted (add_client cbs).
Proof.
  intros s a s' [C1 C2 C3 C4 C5] E. apply sg_bind_Ret_inv in E as (? & ? & [= <- <-] & E). apply sg_bind_Ret_inv in E as (? & ? & [= <- <-] & E).
  injection E as _ <-. assert (clients s !! next_client s = None) as Hn.
  { destruct (clients s !! next_client s) as [c|] eqn:Hc; [|done]. apply C4 in Hc as (? & _). lia. }
  split; cbn; [done|done| | |].
  - intros r ar Hr. destruct (C3 r ar Hr) as (? & Hcl & ?). split_and!; [done| |done].
    rewrite lookup_insert_ne; [done|]. intros Heq. rewrite <- Heq, Hn in Hcl. by destruct Hcl.
  - intros i c Hc. destruct (decide (i = next_client s)) as [->|].
    + rewrite lookup_insert_eq in Hc. injection Hc as <-. cbn. split_and!; [lia|constructor|]. intros r. split; [by intros ?%not_elem_of_nil|].
      intros (ar & Hr & Hi & _). destruct (C3 r ar Hr) as (_ & [c Hc] & _). congruence.
    + rewrite lookup_insert_ne in Hc by done. destruct (C4 i c Hc) as (? & ?). split; [lia|done].
  - intros i Hi%C5. rewrite lookup_insert_ne; [done|]. intros Heq. rewrite <- Heq, Hn in Hi. by destruct Hi.
Qed.
Hint Resolve keeps_add_client : core.

(** A request's beginning is counted once: the counters and the new request
    together. *)
Lemma stream_counted i receiver s : counted s → is_Some (clients s !! i) →
  ∀ s1 r s2, Requests s1 = Increase (Requests s) → (k ≠ KSofa → active_stat s1 = active_stat s + 1) → next_req s1 = next_req s →
    next_client s1 = next_client s → reqs s1 = reqs s → (∀ j, ActiveRequests <$> clients s1 !! j = ActiveRequests <$> clients s !! j) →
    (∀ j, slot s1 j → slot s j) → cc_NewStream i receiver s1 = Ret (r, s2) → counted s2.
Proof.
  intros [C1 C2 C3 C4 C5] [c Hc] s1 r s2 H1 H2 H3 H4 H5 H6 H7 E.
  apply sg_bind_Ret_inv in E as (? & ? & [= <- <-] & E). apply sg_bind_Ret_inv in E as (? & ? & [= <- <-] & E).
  apply sg_bind_Ret_inv in E as (? & ? & [= <- <-] & E). injection E as _ <-.
  set (n := next_req s1). set (ar := mk_ar i receiver false true []).
  assert (reqs s !! n = None) as Hn.
  { destruct (reqs s !! n) as [a|] eqn:Ha; [|done]. apply C3 in Ha as (? & _). unfold n in *. lia. }
  assert (∀ j, is_Some (clients s !! j) → is_Some (clients s1 !! j)) as Hsome.
  { intros j [c0 Hj]. specialize (H6 j). rewrite Hj in H6. by destruct (clients s1 !! j). }
  pose proof (live_new s n ar Hn eq_refl) as Hlive. split; cbn.
  - unfold live. cbn. rewrite H1, H5. fold n ar. rewrite Hlive. cbn. rewrite C1, to_int64_add. f_equal. lia.
  - intros Hk. unfold live. cbn. rewrite H5. fold n ar. rewrite Hlive. change (active_stat _) with (active_stat s1). rewrite H2, C2 by done. lia.
  - rewrite H5. fold n ar. intros x ax Hx. destruct (decide (x = n)) as [->|].
    + rewrite lookup_insert_eq in Hx. injection Hx as <-. cbn. split_and!; [lia| |done]. rewrite lookup_alter_eq, fmap_is_Some. apply Hsome. eauto.
    + rewrite lookup_insert_ne in Hx by done. destruct (C3 x ax Hx) as (? & ? & ?). split_and!; [unfold n; lia| |done].
      destruct (decide (ar_client ax = i)) as [->|]; [rewrite lookup_alter_eq, fmap_is_Some|rewrite lookup_alter_ne by done]; auto.
  - rewrite H5. fold n ar. intros j cj Hj.
    assert (∃ c0, clients s !! j = Some c0 ∧ ActiveRequests cj = (ActiveRequests c0 ++ if bool_decide (j = i) then [n] else [])%list) as (c0 & Hc0 & Hcj).
    { specialize (H6 j). destruct (decide (j = i)) as [->|].
      - rewrite lookup_alter_eq in Hj. rewrite Hc in *. destruct (clients s1 !! i) as [c1|]; [|done]. injection H6 as H6. injection Hj as <-.
        exists c. rewrite bool_decide_true by done. cbn. by rewrite H6.
      - rewrite lookup_alter_ne in Hj by done. rewrite Hj in H6. destruct (clients s !! j) as [c0|]; [|done]. injection H6 as H6.
        exists c0. rewrite bool_decide_false by done. by rewrite app_nil_r. }
    destruct (C4 j c0 Hc0) as (? & Hnd & Hin). rewrite Hcj. split_and!; [lia| |].
    + apply NoDup_app. split_and!; [done| |case_bool_decide; repeat constructor; by intros ?%not_elem_of_nil].
      intros x Hx Hx2. apply Hin in Hx as (ax & Hx & _). case_bool_decide; [|by apply not_elem_of_nil in Hx2].
      apply list_elem_of_singleton in Hx2 as ->. congruence.
    + intros x. rewrite elem_of_app, Hin. destruct (decide (x = n)) as [->|].
      * rewrite lookup_insert_eq, Hn. split.
        -- intros [(? & ? & _)|Hx]; [done|]. case_bool_decide as Hji; [|by apply not_elem_of_nil in Hx]. exists ar. by subst.
        -- intros (? & [= <-] & <- & _). right. rewrite bool_decide_true by done. by left.
      * rewrite lookup_insert_ne by done. split; [|by left]. intros [?|Hx]; [done|].
        case_bool_decide; [apply list_elem_of_singleton in Hx|apply not_elem_of_nil in Hx]; done.
  - intros j Hj%H7%C5%Hsome. destruct (decide (j = i)) as [->|]; [by rewrite lookup_alter_eq, fmap_is_Some|by rewrite lookup_alter_ne].
Qed.

(** Clients stay. *)
Definition known (i : nat) (s : pools) : Prop := is_Some (clients s !! i).
Lemma known_alter i j f s : known i s → known i (set_clients (alter f j (clients s)) s).
Proof. unfold known. cbn. intros Hi. destruct (decide (i = j)) as [->|]; [by rewrite lookup_alter_eq, fmap_is_Some|by rewrite lookup_alter_ne]. Qed.
Ltac stays := repeat first
  [ solve [auto] | apply keeps_bind; [|intros ?] | apply keeps_ret | apply keeps_deref | apply keeps_lift | apply keeps_panic
  | apply keeps_when | apply keeps_get | (apply keeps_modify; by apply known_alter) | (by intros ? ? ? ? [= _ <-])
  | (apply keeps_modify; intros s0; unfold known; by repeat case_match)
  | match goal with |- keeps _ (match ?x with _ => _ end) => destruct x end ].
Lemma known_tell_all i l reason : keeps (known i) (tell_all l reason).
Proof. induction l; cbn [tell_all]; unfold tell, mods; stays. Qed.
Hint Resolve known_tell_all : core.
Lemma known_reset_requests i j l : keeps (known i) (reset_requests k j l).
Proof.
  induction l; cbn [reset_requests]; unfold get_client, gets, pool_ResetStream, onReset, onStreamReset, http_onStreamReset, deleteRequest,
    mod_req, mod_client, onStreamDestroy, sofa_onStreamDestroy, http_onStreamDestroy, inc, add_stat, mods; stays.
Qed.
Hint Resolve known_reset_requests : core.
Lemma known_client_event i close j cb e : (∀ x, keeps (known i) (close x)) → keeps (known i) (client_event close k j cb e).
Proof.
  intros Hc. unfold client_event, cc_OnEvent, sofa_onConnectionEvent, http_onConnectionEvent, count_close, forget, get_client, inc, unlock, lock,
    add_stat, mod_client, gets, mods. stays.
Qed.
Lemma known_close i depth ev j : keeps (known i) (close_conn depth k ev j).
Proof. apply keeps_close_conn; [intros ? ? ?; apply known_alter|apply known_client_event]. Qed.
Lemma known_connect i dial io j : keeps (known i) (connect k dial io j).
Proof. apply keeps_connect; [intros ? ? ?; apply known_alter|apply known_client_event]. Qed.
Hint Resolve known_close known_connect : core.

Lemma add_client_known cbs s i s' : add_client cbs s = Ret (i, s') → known i s'.
Proof.
  intros E. apply sg_bind_Ret_inv in E as (? & ? & [= <- <-] & E). apply sg_bind_Ret_inv in E as (? & ? & [= <- <-] & E).
  injection E as <- <-. unfold known. cbn. by rewrite lookup_insert_eq.
Qed.

(** A new client of a pool is known, and the count is kept. *)
Definition makes (m : M (option nat)) : Prop := ∀ s o s', counted s → m s = Ret (o, s') → counted s' ∧ ∀ i, o = Some i → known i s'.
Lemma makes_client cbs (f : nat → M (option nat)) :
  (∀ i, keeps counted (f i) ∧ keeps (known i) (f i) ∧ ∀ s o s' j, f i s = Ret (o, s') → o = Some j → j = i) →
  makes (i ← add_client cbs; f i).
Proof.
  intros Hf s o s' Hs E. apply sg_bind_Ret_inv in E as (i & s1 & E1 & E). destruct (Hf i) as (H1 & H2 & H3). split.
  - eapply H1; [|exact E]. by eapply keeps_add_client.
  - intros j ->. rewrite (H3 _ _ _ _ E eq_refl). eapply H2; [|exact E]. by eapply add_client_known.
Qed.
Ltac invert := repeat match goal with
  | H : (_ ≫= _) _ = Ret _ |- _ => apply sg_bind_Ret_inv in H as (? & ? & ? & H)
  | H : (match ?x with _ => _ end) _ = Ret _ |- _ => destruct x
  | H : mret _ _ = Ret _ |- _ => injection H as <- <-
  end.

Lemma makes_sofa dial : k = KSofa → makes (sofa_newActiveClient dial).
Proof.
  intros Hk. apply makes_client. intros i. split_and!.
  - rewrite <- Hk. count.
  - rewrite <- Hk. stays.
  - intros s o s' j E ->. invert; try done; by simplify_eq.
Qed.
Lemma makes_http2 dial h2 : k = KHTTP2 → makes (http2_newActiveClient dial h2).
Proof.
  intros Hk. apply makes_client. intros i. unfold codec_Close, count_client, inc. rewrite <- Hk. split_and!.
  - count.
  - unfold add_stat, mod_client, mods. stays.
  - intros s o s' j E ->. invert; try done; by simplify_eq.
Qed.
Lemma makes_x dial : k = KXprotocol → makes (x_newActiveClient dial).
Proof.
  intros Hk. apply makes_client. intros i. unfold count_client, inc. rewrite <- Hk. split_and!.
  - count.
  - unfold add_stat, mod_client, mods. stays.
  - intros s o s' j E ->. invert; try done; by simplify_eq.
Qed.
Lemma makes_http1 : makes http1_newActiveClient.
Proof.
  apply makes_client. intros i. unfold count_client, inc. split_and!.
  - count.
  - unfold add_stat, mods. stays.
  - intros s o s' j E ->. invert; try done; by simplify_eq.
Qed.

Lemma keeps_sofa_stream i sid rcv s a s' : k = KSofa → counted s → known i s → sofa_stream i sid rcv s = Ret (a, s') → counted s'.
Proof.
  intros Hk Hs Hi E. unfold sofa_stream in E. apply sg_bind_Ret_inv in E as (? & ? & [= <- <-] & E). destruct (negb _).
  { by apply keeps_tell in E. }
  apply sg_bind_Ret_inv in E as (? & ? & [= <- <-] & E). apply sg_bind_Ret_inv in E as (? & ? & [= <- <-] & E).
  apply sg_bind_Ret_inv in E as (r & s2 & E2 & E). eapply keeps_tell; [|exact E].
  eapply stream_counted; [exact Hs|exact Hi|..|exact E2]; try done. by apply alter_same.
Qed.
Lemma keeps_http_stream i sid rcv s a s' : counted s → known i s → http_stream i sid rcv s = Ret (a, s') → counted s'.
Proof.
  intros Hs Hi E. unfold http_stream in E. apply sg_bind_Ret_inv in E as (? & ? & [= <- <-] & E). destruct (negb _).
  { eapply (keeps_bind counted (tell (OnFailure sid Overflow))); [auto| |exact Hs|exact E]. intros; unfold inc; count. }
  unfold inc, add_stat in E. do 4 (apply sg_bind_Ret_inv in E as (? & ? & [= <- <-] & E)).
  apply sg_bind_Ret_inv in E as (r & s2 & E2 & E). eapply keeps_tell; [|exact E].
  eapply stream_counted; [exact Hs|exact Hi|..|exact E2]; try done; [|by apply alter_same].
  intros _. unfold active_stat. cbn. rewrite lookup_insert_eq. cbn. by rewrite lookup_insert_ne.
Qed.

(** Referring to a known client. *)
Lemma counted_slot s s' i : Requests s' = Requests s → active_stat s' = active_stat s → next_req s' = next_req s →
  next_client s' = next_client s → reqs s' = reqs s → clients s' = clients s → (∀ j, slot s' j → slot s j ∨ j = i) →
  counted s → known i s → counted s'.
Proof.
  intros H1 H2 H3 H4 H5 H6 H7 [C1 C2 C3 C4 C5] Hi. split.
  - unfold live. by rewrite H1, H5.
  - intros Hk. unfold live. rewrite H2, H5. by apply C2.
  - intros r ar Hr. rewrite H5 in Hr. rewrite H3, H6. by apply C3.
  - intros j c Hc. rewrite H6 in Hc. rewrite H4, H5. by apply C4.
  - intros j Hj. rewrite H6. apply H7 in Hj as [?| ->]; [by apply C5|done].
Qed.

Lemma keeps_set_slot (set : option nat → pools → pools) (m : M (option nat)) :
  (∀ o s, Requests (set o s) = Requests s ∧ active_stat (set o s) = active_stat s ∧ next_req (set o s) = next_req s ∧
    next_client (set o s) = next_client s ∧ reqs (set o s) = reqs s ∧ clients (set o s) = clients s ∧
    ∀ j, slot (set o s) j → slot s j ∨ o = Some j) →
  makes m → keeps counted (nac ← m; mods (set nac)).
Proof.
  intros Hset Hm s a s' Hs E. apply sg_bind_Ret_inv in E as (o & s1 & E1 & E). injection E as _ <-. destruct (Hm _ _ _ Hs E1) as [H1 Hk].
  destruct (Hset o s1) as (? & ? & ? & ? & ? & Hc & Hsl). destruct o as [i|].
  - eapply (counted_slot s1 _ i); try done; [|by apply Hk]. intros j Hj. destruct (Hsl j Hj) as [?|[= ->]]; auto.
  - apply (counted_ext s1); try done; [by intros; rewrite Hc|]. intros j Hj. by destruct (Hsl j Hj).
Qed.

Lemma find_taking_in cs l i : find_taking cs l = Some i → i ∈ l.
Proof.
  induction l as [|j l IH]; cbn; [done|]. destruct (match cs !! j with Some c => ac_takes c | None => false end).
  - intros [= ->]. by left.
  - intros ?. right. auto.
Qed.

(** ** Runs of a pool *)

Inductive pop :=
  | PNew (dial : option io_error) (h2 : bool) (streamID : string) (receiver : nat)
  | PReceive (r : nat) (endStream : bool) | PTrailers (r : nat) | PReset (r : nat) (reason : string) | PListen (r x : nat)
  | PClosed (i : nat) (ev : ConnectionEvent) | PClose | PMarkDead (i : nat) | PGoAway (i : nat)
  | PTakes (i : nat) (b : bool). (* the HTTP/2 connection does, or does not, take requests *)
Definition run_pop (op : pop) : M unit :=
  match op with
  | PNew dial h2 sid rcv =>
    match k with
    | KSofa => sofa_NewStream dial sid rcv | KHTTP2 => http2_NewStream dial h2 sid rcv
    | KXprotocol => x_NewStream dial sid rcv | KHTTP1 => http1_NewStream sid rcv
    end
  | PReceive r e => ar_OnReceiveHeaders k r e
  | PTrailers r => ar_OnReceiveTrailers k r
  | PReset r reason => pool_ResetStream k r reason
  | PListen r x => pool_AddEventListener r x
  | PClosed i ev => close_conn 2 k ev i
  | PClose => match k with KSofa => sofa_Close | KHTTP2 => http2_Close | KXprotocol => x_Close | KHTTP1 => http1_Close end
  | PMarkDead i => match k with KHTTP2 => MarkDead i | _ => mret tt end
  | PGoAway i => match k with KHTTP2 => http2_onGoAway i | KXprotocol => x_onGoAway i | _ => mret tt end
  | PTakes i b => mod_client i (set_ac_takes b)
  end.
Fixpoint run_pops (l : list pop) : M unit :=
  match l with [] => mret tt | op :: l => _ ← run_pop op; run_pops l end.

(** A pool with one client: it is made if there is none, and used. *)
Lemma keeps_one_client (get : pools → option nat) (set : option nat → pools → pools) (make : M (option nat)) (use : nat → M unit) sid :
  (∀ o s, Requests (set o s) = Requests s ∧ active_stat (set o s) = active_stat s ∧ next_req (set o s) = next_req s ∧
    next_client (set o s) = next_client s ∧ reqs (set o s) = reqs s ∧ clients (set o s) = clients s ∧
    ∀ j, slot (set o s) j → slot s j ∨ o = Some j) →
  (∀ s i, get s = Some i → slot s i) → makes make →
  (∀ i s a s', counted s → known i s → use i s = Ret (a, s') → counted s') →
  keeps counted (_ ← lock; ac ← gets get; _ ← match ac with Some _ => mret tt | None => nac ← make; mods (set nac) end; _ ← unlock;
    ac ← gets get; match ac with None => tell (OnFailure sid ConnectionFailure) | Some i => use i end).
Proof.
  intros Hset Hget Hmake Huse s a s' Hs E. apply sg_bind_Ret_inv in E as (? & s1 & E1 & E). apply keeps_lock in E1; [|done].
  apply sg_bind_Ret_inv in E as (? & ? & [= <- <-] & E). apply sg_bind_Ret_inv in E as (? & s2 & E2 & E).
  assert (counted s2) as H2.
  { destruct (get s1); [by injection E2 as _ <-|]. eapply keeps_set_slot; [exact Hset|exact Hmake|exact E1|exact E2]. }
  apply sg_bind_Ret_inv in E as (? & s3 & E3 & E). assert (counted s3) as H3.
  { eapply (keeps_mods (set_mux false)); [|exact H2|exact E3]. done. }
  apply sg_bind_Ret_inv in E as (? & ? & [= <- <-] & E). destruct (get s3) as [i|] eqn:Hi.
  - eapply Huse; [exact H3| |exact E]. by apply (c_slots _ H3), Hget.
  - by apply keeps_tell in E.
Qed.

Lemma keeps_sofa_NewStream dial sid rcv : k = KSofa → keeps counted (sofa_NewStream dial sid rcv).
Proof.
  intros Hk. apply (keeps_one_client activeClient set_activeClient (sofa_newActiveClient dial) (λ i, sofa_stream i sid rcv) sid).
  - intros o s. split_and!; try done. unfold slot. cbn. naive_solver.
  - intros s i Hi. by left.
  - by apply makes_sofa.
  - intros i s a s' Hs Hi E. by eapply keeps_sofa_stream.
Qed.
Lemma keeps_x_NewStream dial sid rcv : k = KXprotocol → keeps counted (x_NewStream dial sid rcv).
Proof.
  intros Hk. apply (keeps_one_client primaryClient set_primaryClient (x_newActiveClient dial) (λ i, http_stream i sid rcv) sid).
  - intros o s. split_and!; try done. unfold slot. cbn. naive_solver.
  - intros s i Hi. right. right. by left.
  - by apply makes_x.
  - intros i s a s' Hs Hi E. by eapply keeps_http_stream.
Qed.

Lemma keeps_http2_NewStream dial h2 sid rcv : k = KHTTP2 → keeps counted (http2_NewStream dial h2 sid rcv).
Proof.
  intros Hk s a s' Hs E. apply sg_bind_Ret_inv in E as (ac & s1 & E1 & E).
  assert (counted s1 ∧ ∀ i, ac = Some i → known i s1) as [H1 Hknown].
  { unfold getOrInitActiveClient in E1. apply sg_bind_Ret_inv in E1 as (? & s2 & E2 & E1). apply keeps_lock in E2; [|done].
    apply sg_bind_Ret_inv in E1 as (? & ? & [= <- <-] & E1). destruct (find_taking _ _) as [i|] eqn:Hi.
    - apply find_taking_in in Hi. apply sg_bind_Ret_inv in E1 as (? & ? & [= <- <-] & E1). injection E1 as <- <-. split.
      + by apply (counted_ext s2).
      + intros j [= <-]. apply (c_slots _ E2). right. by left.
    - apply sg_bind_Ret_inv in E1 as (o & s3 & E3 & E1). destruct (makes_http2 dial h2 Hk _ _ _ E2 E3) as [H3 Hn].
      apply sg_bind_Ret_inv in E1 as (? & s4 & E4 & E1). apply sg_bind_Ret_inv in E1 as (? & ? & [= <- <-] & E1). injection E1 as <- <-.
      assert (counted s4 ∧ ∀ i, o = Some i → known i s4) as [H4 Hn4].
      { destruct o as [i|]; injection E4 as _ <-; [|done]. split; [|intros j [= <-]; by apply Hn].
        eapply (counted_slot s3 _ i); try done; [|by apply Hn]. intros j. unfold slot. cbn. rewrite elem_of_app, list_elem_of_singleton. naive_solver. }
      split; [by apply (counted_ext s4)|done]. }
  destruct ac as [i|]; [|by apply keeps_tell in E]. eapply keeps_http_stream; [exact H1|by apply Hknown|exact E].
Qed.

Lemma keeps_http1_NewStream sid rcv : keeps counted (http1_NewStream sid rcv).
Proof.
  intros s a s' Hs E. unfold http1_NewStream in E. apply sg_bind_Ret_inv in E as (? & ? & [= <- <-] & E).
  apply sg_bind_Ret_inv in E as (? & ? & [= <- <-] & E). apply sg_bind_Ret_inv in E as (? & s1 & E1 & E). assert (counted s1) as H1.
  { destruct (h1_client s); [by injection E1 as _ <-|]. destruct (initClient s); [by injection E1 as _ <-|]. cbn [negb sg_when] in E1.
    apply sg_bind_Ret_inv in E1 as (? & ? & [= <- <-] & E1).
    eapply (keeps_set_slot set_h1_client); [| |by apply (counted_ext s (set_initClient true s)) in Hs; [exact Hs|..]|exact E1].
    - intros o s0. split_and!; try done. unfold slot. cbn. naive_solver.
    - apply makes_http1. }
  clear Hs E1. do 2 (apply sg_bind_Ret_inv in E as (? & ? & [= <- <-] & E)). destruct (negb _).
  { eapply (keeps_bind counted (tell (OnFailure sid Overflow))); [auto| |exact H1|exact E]. intros; unfold inc; count. }
  unfold inc, add_stat in E. do 3 (apply sg_bind_Ret_inv in E as (? & ? & [= <- <-] & E)).
  apply sg_bind_Ret_inv in E as (i & s2 & E2 & E). destruct (h1_client s1) as [j|] eqn:Hj; [|done]. injection E2 as <- <-.
  apply sg_bind_Ret_inv in E as (r & s2 & E2 & E). eapply keeps_tell; [|exact E].
  eapply stream_counted; [exact H1| |..|exact E2]; try done.
  - apply (c_slots _ H1). unfold slot. naive_solver.
  - intros _. unfold active_stat. cbn. rewrite lookup_insert_eq. cbn. by rewrite lookup_insert_ne.
Qed.

Lemma keeps_close_all l : k = KHTTP2 → keeps counted (close_all l).
Proof. intros Hk. induction l; cbn [close_all]; unfold codec_Close; rewrite <- ?Hk; count. Qed.
Hint Resolve keeps_sofa_NewStream keeps_x_NewStream keeps_http2_NewStream keeps_http1_NewStream keeps_close_all : core.

Lemma keeps_draining : k = KXprotocol → keeps counted movePrimaryToDraining.
Proof.
  intros Hk. unfold movePrimaryToDraining, codec_Close, get_client. rewrite <- Hk. 
  intros s a s' Hs E.
  apply sg_bind_Ret_inv in E as (? & ? & [= <- <-] & E). apply sg_bind_Ret_inv in E as (? & s1 & E1 & E). assert (counted s1) as H1.
  { destruct (drainingClient s); [by eapply keeps_close|by injection E1 as _ <-]. }
  apply sg_bind_Ret_inv in E as (? & ? & [= <- <-] & E). destruct (primaryClient s1) as [i|] eqn:Hp; [|done].
  apply sg_bind_Ret_inv in E as (? & ? & [= <- <-] & E). apply sg_bind_Ret_inv in E as (c & s2 & E2 & E).
  apply sg_bind_Ret_inv in E2 as (? & ? & [= <- <-] & E2). destruct (clients s1 !! i) as [c0|]; [|done]. injection E2 as <- <-.
  destruct (ActiveRequests c0); [by eapply keeps_close|]. injection E as _ <-. apply (counted_ext s1); try done.
  intros j. unfold slot. cbn. rewrite Hp. naive_solver.
Qed.
Hint Resolve keeps_draining : core.

Lemma keeps_MarkDead i : k = KHTTP2 → keeps counted (MarkDead i).
Proof.
  intros Hk s a s' Hs E. unfold MarkDead, codec_Close in E. rewrite <- Hk in E. apply sg_bind_Ret_inv in E as (? & s1 & E1 & E).
  apply keeps_lock in E1; [|done]. apply sg_bind_Ret_inv in E as (? & ? & [= <- <-] & E).
  apply sg_bind_Ret_inv in E as (? & ? & [= <- <-] & E). apply sg_bind_Ret_inv in E as (? & ? & [= <- <-] & E).
  eapply (keeps_when counted); [apply keeps_close| |exact E]. apply (counted_ext s1); try done.
  intros j. unfold slot. cbn. rewrite list_elem_of_filter. naive_solver.
Qed.
Hint Resolve keeps_MarkDead : core.

Lemma keeps_run_pop op : keeps counted (run_pop op).
Proof.
  destruct op; cbn [run_pop]; [by destruct k eqn:Hk; auto|..];
    unfold ar_OnReceiveHeaders, ar_OnReceiveTrailers; [count..|destruct k eqn:Hk|destruct k eqn:Hk|destruct k eqn:Hk|count];
    unfold sofa_Close, http2_Close, x_Close, http1_Close, http2_onGoAway, x_onGoAway, codec_Close, get_client, inc, unlock;
    rewrite <- ?Hk; count.
Qed.

Lemma run_counted l res s : in_s 64 (current res) → r0 = current res → run_pops l (new_pool res) = Ret (tt, s) → counted s.
Proof.
  intros Hres Hr0 E. assert (keeps counted (run_pops l)) as Hk.
  { clear E. induction l as [|op l IH]; cbn [run_pops]; [apply keeps_ret|]. apply keeps_bind; [apply keeps_run_pop|done]. }
  eapply Hk; [|exact E]. split; cbn; try done.
  - rewrite Hr0. unfold live. cbn. rewrite map_filter_empty, map_size_empty, Z.add_0_r. symmetry. by apply swrap_id.
  - intros i Hi. unfold slot in Hi. cbn in Hi. destruct Hi as [?|[Hi|[?|[?|?]]]]; try done. by apply not_elem_of_nil in Hi.
Qed.
End counted.

(** C14. The requests of a cluster are counted exactly: through any run of a pool
    of any protocol (streams made, answered, reset or refused, connections that
    fail or close, pools closed) that does not panic, the cluster's count of
    requests, and its statistic of active ones, is the number of requests that
    were handed out and have not ended; each of these is in the list of its
    client, and no other is. *)
Theorem requests_counted k l res s : in_s 64 (current res) → run_pops k l (new_pool res) = Ret (tt, s) → counted k (current res) s.
Proof. intros Hres E. by eapply run_counted. Qed.

(** ** A connection that closes *)

Section closing.
  Context (k : pool_kind).

(** What resetting requests leaves alone. *)
Record after_resets (s s' : pools) : Prop := {
  ar_mux : mux s' = mux s;
  ar_slots : activeClient s' = activeClient s ∧ activeClients s' = activeClients s ∧ primaryClient s' = primaryClient s ∧ h1_client s' = h1_client s;
  ar_reqs : ∀ r ar, reqs s !! r = Some ar → ∃ ar', reqs s' !! r = Some ar' ∧ ar_listeners ar' = ar_listeners ar ∧
    ar_listening ar' = ar_listening ar ∧ (ar_deleted ar = true → ar_deleted ar' = true);
  ar_back : ∀ r ar', reqs s' !! r = Some ar' → ∃ ar, reqs s !! r = Some ar ∧ ar_client ar' = ar_client ar ∧
    (ar_deleted ar = true → ar_deleted ar' = true);
  ar_clients : ∀ j c, clients s !! j = Some c → ∃ c', clients s' !! j = Some c' ∧ cc_conn c' = cc_conn c ∧ ConnectedFlag c' = ConnectedFlag c;
}.

Lemma after_resets_refl s : after_resets s s.
Proof. split; try done; [intros r ar Hr; by exists ar|intros r ar Hr; by exists ar|intros j c Hc; by exists c]. Qed.
Lemma after_resets_trans s1 s2 s3 : after_resets s1 s2 → after_resets s2 s3 → after_resets s1 s3.
Proof.
  intros [H1 (H2 & H3 & H4 & H5) H6 HB H7] [G1 (G2 & G3 & G4 & G5) G6 GB G7]. split.
  - congruence.
  - split_and!; congruence.
  - intros r ar (ar1 & Hr1 & ? & ? & ?)%H6. destruct (G6 _ _ Hr1) as (ar2 & ? & ? & ? & ?). exists ar2. split_and!; [done|congruence|congruence|auto].
  - intros r ar (ar1 & Hr1 & ? & ?)%GB. destruct (HB _ _ Hr1) as (ar2 & ? & ? & ?). exists ar2. split_and!; [done|congruence|auto].
  - intros j c (c1 & Hc1 & ? & ?)%H7. destruct (G7 _ _ Hc1) as (c2 & ? & ? & ?). exists c2. split_and!; congruence.
Qed.

Lemma after_alter_client s j f : (∀ c, cc_conn (f c) = cc_conn c ∧ ConnectedFlag (f c) = ConnectedFlag c) →
  after_resets s (set_clients (alter f j (clients s)) s).
Proof.
  intros Hf. split; try done; [intros r ar Hr; by exists ar|intros r ar Hr; by exists ar|]. intros i c Hc. cbn. destruct (decide (i = j)) as [->|].
  - exists (f c). rewrite lookup_alter_eq, Hc. by destruct (Hf c).
  - exists c. by rewrite lookup_alter_ne.
Qed.
Lemma after_delete s r : after_resets s (set_reqs (alter (set_ar_deleted true) r (reqs s)) s).
Proof.
  split; try done; [| |intros j c Hc; by exists c]; intros x ar Hx; cbn in *; destruct (decide (x = r)) as [->|].
  - exists (set_ar_deleted true ar). by rewrite lookup_alter_eq, Hx.
  - exists ar. by rewrite lookup_alter_ne.
  - rewrite lookup_alter_eq in Hx. destruct (reqs s !! r) as [ar0|]; [|done]. injection Hx as <-. by exists ar0.
  - rewrite lookup_alter_ne in Hx by done. by exists ar.
Qed.

Lemma tell_all_run l reason s : tell_all l reason s = Ret (tt, set_out (out s ++ ((λ x, ToListener x reason) <$> l))%list s).
Proof.
  revert s. induction l as [|x l IH]; intros s; cbn [tell_all fmap list_fmap].
  { rewrite app_nil_r. by destruct s. }
  srun. rewrite IH. cbn. by rewrite <- app_assoc.
Qed.

Lemma onStreamReset_run i reason s : ∃ s', onStreamReset k i reason s = Ret (tt, s') ∧ after_resets s s' ∧ reqs s' = reqs s ∧ out s' = out s.
Proof.
  assert (∀ v, after_resets s (set_pool_stats v s)) as Hst.
  { intros v. split; try done; [intros r ar Hr; by exists ar|intros r ar Hr; by exists ar|intros j c Hc; by exists c]. }
  assert (∃ s', http_onStreamReset i reason s = Ret (tt, s') ∧ after_resets s s' ∧ reqs s' = reqs s ∧ out s' = out s) as Hh.
  { unfold http_onStreamReset, inc, add_stat. case_bool_decide; [|case_bool_decide; [|case_bool_decide]]; eexists; (split; [reflexivity|]); split; try done;
      first [apply after_resets_refl|apply Hst|eapply after_resets_trans; [apply Hst|]; by apply after_alter_client]. }
  destruct k; cbn [onStreamReset]; try done. exists s. split_and!; try done. apply after_resets_refl.
Qed.

Lemma onStreamDestroy_run s : ∃ s', onStreamDestroy k s = Ret (tt, s') ∧ after_resets s s' ∧ reqs s' = reqs s ∧ out s' = out s.
Proof.
  destruct k; cbn [onStreamDestroy]; eexists; (split; [reflexivity|]); split; try done;
    (split; try done; [intros r ar Hr; by exists ar|intros r ar Hr; by exists ar|intros j c Hc; by exists c]).
Qed.

(** A live request is reset: it is deleted, and its listeners are told. *)
Lemma ResetStream_run r ar reason s : reqs s !! r = Some ar → ar_deleted ar = false → ar_listening ar = true →
  ∃ s', pool_ResetStream k r reason s = Ret (tt, s') ∧ after_resets s s' ∧ reqs s' = alter (set_ar_deleted true) r (reqs s) ∧
    out s' = (out s ++ ((λ x, ToListener x reason) <$> ar_listeners ar))%list.
Proof.
  intros Hr Hd Hl. destruct (onStreamReset_run (ar_client ar) reason s) as (s1 & E1 & Ha1 & Hr1 & Ho1).
  set (s2 := set_reqs (alter (set_ar_deleted true) r (reqs s1)) s1).
  set (s3 := set_clients (alter (λ c, set_ActiveRequests (filter (λ x, x ≠ r) (ActiveRequests c)) c) (ar_client ar) (clients s2)) s2).
  destruct (onStreamDestroy_run s3) as (s4 & E4 & Ha4 & Hr4 & Ho4).
  eexists. split.
  { unfold pool_ResetStream. srun. rewrite Hr. srun. rewrite Hl. cbn [sg_when].
    eapply sg_run; [unfold onReset; srun; rewrite Hr; srun; eapply sg_run; [exact E1|]; unfold deleteRequest; srun; rewrite Hr1, Hr; srun; rewrite Hd;
      do 2 srun; exact E4|]. apply tell_all_run. }
  split_and!.
  - eapply after_resets_trans; [exact Ha1|]. eapply after_resets_trans; [apply (after_delete s1 r)|].
    assert (after_resets s2 s3) as H23 by by apply after_alter_client. eapply after_resets_trans; [exact H23|].
    eapply after_resets_trans; [exact Ha4|]. split; try done; [intros x ax Hx; by exists ax|intros x ax Hx; by exists ax|intros j c Hc; by exists c].
  - cbn. rewrite Hr4. cbn. by rewrite Hr1.
  - cbn. by rewrite Ho4, <- Ho1.
Qed.

(** The requests of a client are reset one after the other. *)
Lemma reset_requests_run i c l s : clients s !! i = Some c → NoDup l →
  (∀ r, r ∈ l → ∃ ar, reqs s !! r = Some ar ∧ ar_deleted ar = false ∧ ar_listening ar = true) →
  ∃ s', reset_requests k i l s = Ret (tt, s') ∧ after_resets s s' ∧
    (∀ r, r ∈ l → ∃ ar', reqs s' !! r = Some ar' ∧ ar_deleted ar' = true) ∧
    out s' = (out s ++ (l ≫= λ r, (λ x, ToListener x (if ConnectedFlag c then StreamConnectionTermination else StreamConnectionFailed)) <$>
                         from_option ar_listeners [] (reqs s !! r)))%list.
Proof.
  revert s c. induction l as [|r l IH]; intros s c Hc Hnd Hl; cbn [reset_requests mbind list_bind].
  { exists s. split_and!; try done; [apply after_resets_refl|by intros r ?%not_elem_of_nil|by rewrite app_nil_r]. }
  apply NoDup_cons in Hnd as [Hnr Hnd]. destruct (Hl r) as (ar & Hr & Hd & Hli); [by left|].
  set (reason := if ConnectedFlag c then StreamConnectionTermination else StreamConnectionFailed).
  destruct (ResetStream_run r ar reason s Hr Hd Hli) as (s1 & E1 & Ha1 & Hr1 & Ho1).
  destruct (ar_clients _ _ Ha1 i c Hc) as (c1 & Hc1 & _ & Hf1).
  assert (∀ x, x ∈ l → reqs s1 !! x = reqs s !! x) as Hsame by (intros x Hx; rewrite Hr1, lookup_alter_ne; [done|]; by intros ->).
  destruct (IH s1 c1 Hc1 Hnd) as (s2 & E2 & Ha2 & Hdel & Ho2).
  { intros x Hx. rewrite Hsame by done. apply Hl. by right. }
  exists s2. split_and!.
  - unfold get_client. eapply sg_run; [srun; rewrite Hc; reflexivity|]. fold reason. eapply sg_run; [exact E1|]. exact E2.
  - by eapply after_resets_trans.
  - intros x Hx. apply elem_of_cons in Hx as [->|Hx]; [|by apply Hdel].
    destruct (ar_reqs _ _ Ha2 r (set_ar_deleted true ar)) as (ar' & ? & _ & _ & Hd'); [by rewrite Hr1, lookup_alter_eq, Hr|]. exists ar'. auto.
  - rewrite Ho2, Ho1, <- app_assoc, Hr, Hf1. cbn [from_option]. f_equal. f_equal. fold reason.
    apply Forall_bind_ext, Forall_forall. intros x Hx. by rewrite Hsame.
Qed.

(** A client whose connection is open and has its listeners. *)
Record open_client (c : codecClient) : Prop := {
  oc_raw : rawConnection (cc_conn c) = Raw; oc_closed : closed (cc_conn c) = false; oc_stopped : stopped (cc_conn c) = false;
  oc_stats : is_Some (Connection.stats (cc_conn c)); oc_callbacks : connCallbacks (cc_conn c) = [0; 1]%nat;
}.

(** Closing an open connection tells its listeners. *)
Lemma Close_tells (OnEvent : nat → ConnectionEvent → SG (connection * pools) unit) ev c s : open_client c →
  ∃ c', closed c' = true ∧
    ∀ r, for_each [0; 1]%nat (λ cb, OnEvent cb ev) (c', s) = r → Connection.Close OnEvent no_bytes 0 NoFlush ev (cc_conn c, s) = r.
Proof.
  intros [H1 H2 H3 [v H4] H5]. set (c0 := set_closed true (cc_conn c)).
  set (c1 := if internalLoopStarted c0 then set_stopped true c0 else c0).
  set (v1 := if bool_decide (0 ≠ lastBytesSizeRead (cc_conn c)) then mk_stats (ReadTotal v) 0 (WriteTotal v) (WriteCurrent v) else v).
  set (v2 := if bool_decide (0 ≠ lastWriteSizeWrite (cc_conn c)) then mk_stats (ReadTotal v1) (ReadCurrent v1) (WriteTotal v1) 0 else v1).
  set (c2 := if bool_decide (0 ≠ lastBytesSizeRead (cc_conn c)) then set_lastBytesSizeRead 0 (set_stats (Some v1) c1) else set_stats (Some v1) c1).
  set (c3 := if bool_decide (0 ≠ lastWriteSizeWrite (cc_conn c)) then set_lastWriteSizeWrite 0 (set_stats (Some v2) c2) else set_stats (Some v2) c2).
  assert (Connection.stats c1 = Some v ∧ lastBytesSizeRead c1 = lastBytesSizeRead (cc_conn c) ∧ lastWriteSizeWrite c1 = lastWriteSizeWrite (cc_conn c)
    ∧ connCallbacks c1 = [0; 1]%nat ∧ closed c1 = true) as (G1 & G2 & G3 & G4 & G5) by (unfold c1; by destruct (internalLoopStarted c0)).
  assert (Connection.stats c2 = Some v1 ∧ lastWriteSizeWrite c2 = lastWriteSizeWrite (cc_conn c) ∧ connCallbacks c2 = [0; 1]%nat ∧ closed c2 = true)
    as (K1 & K2 & K3 & K4) by (unfold c2; by case_bool_decide).
  assert (connCallbacks c3 = [0; 1]%nat ∧ closed c3 = true) as [L1 L2] by (unfold c3; by case_bool_decide).
  exists c3. split_and!; [done..|]. intros r Er. unfold Connection.Close. srun. rewrite H2. do 2 srun.
  cbn [rawConnection set_closed]. rewrite H1. fold c0. do 4 srun. change (stopped c0) with (stopped (cc_conn c)). rewrite H3.
  eapply sg_run; [instantiate (1 := (c1, s)); instantiate (1 := tt); unfold c1; by destruct (internalLoopStarted c0)|].
  srun. rewrite G1. srun. eapply sg_run; [instantiate (1 := (c2, s)); instantiate (1 := tt)|].
  { unfold updateReadBufStats. srun. rewrite G1. srun. rewrite G2. unfold c2, v1. by case_bool_decide. }
  eapply sg_run; [instantiate (1 := (c3, s)); instantiate (1 := tt)|].
  { unfold updateWriteBuffStats. srun. rewrite K1. srun. rewrite K2. unfold c3, v2. by case_bool_decide. }
  srun. rewrite L1. exact Er.
Qed.

(** The pool has forgotten client [i]. *)
Definition forgotten (i : nat) (s : pools) : Prop :=
  match k with
  | KSofa => activeClient s = None | KHTTP2 => activeClients s = []
  | KXprotocol => primaryClient s ≠ Some i | KHTTP1 => h1_client s ≠ Some i
  end.

Lemma forget_run close i c ev s : IsClose ev = true → clients s !! i = Some c → mux s = false →
  ∃ s', client_event close k i 1 ev s = Ret (tt, s') ∧ forgotten i s' ∧ reqs s' = reqs s ∧ out s' = out s ∧ clients s' = clients s ∧
    mux s' = false ∧ next_req s' = next_req s ∧ next_client s' = next_client s.
Proof.
  intros Hev Hc Hm. assert (∃ s', count_close i ev s = Ret (tt, s') ∧ mux s' = false ∧ reqs s' = reqs s ∧ out s' = out s ∧
    clients s' = clients s ∧ next_req s' = next_req s ∧ next_client s' = next_client s) as (s1 & E1 & Hm1 & Hr1 & Ho1 & Hc1 & Hq1 & Hn1).
  { unfold count_close, get_client. destruct (closeWithActiveReq c) eqn:Hcw; [destruct ev|]; eexists;
      (split; [eapply sg_run; [srun; rewrite Hc; reflexivity|]; rewrite Hcw; reflexivity|done]). }
  unfold forgotten, client_event, sofa_onConnectionEvent, http_onConnectionEvent. rewrite Hev. cbn [orb].
  assert (∀ A (m : M A) s r, mux s = false → m (set_mux true s) = r → (_ ← lock; m) s = r) as Hlock.
  { intros A m s0 r H0 E0. unfold lock. eapply sg_run; [srun; rewrite H0; reflexivity|]. exact E0. }
  destruct k.
  - eexists. split; [reflexivity|done].
  - eexists. split; [eapply sg_run; [exact E1|]; apply Hlock; [done|]; reflexivity|done].
  - destruct (decide (primaryClient s1 = Some i)) as [Hp|Hp]; eexists;
      (split; [eapply sg_run; [exact E1|]; apply Hlock; [done|]; srun; cbn [primaryClient set_mux]; reflexivity|]).
    + rewrite bool_decide_true by done. done.
    + rewrite bool_decide_false by done. done.
  - destruct (decide (h1_client s1 = Some i)) as [Hp|Hp]; eexists; (split; [eapply sg_run; [exact E1|]; reflexivity|]).
    + rewrite bool_decide_true by done. done.
    + rewrite bool_decide_false by done. done.
Qed.

Lemma close_conn_run r0 ev i c s : counted k r0 s → clients s !! i = Some c → open_client c → mux s = false → IsClose ev = true →
  ∃ s', close_conn 2 k ev i s = Ret (tt, s') ∧ forgotten i s' ∧ mux s' = false ∧
    (∀ r, r ∈ ActiveRequests c → ∃ ar', reqs s' !! r = Some ar' ∧ ar_deleted ar' = true) ∧
    (∃ c', clients s' !! i = Some c' ∧ closed (cc_conn c') = true) ∧
    (∀ r ar', reqs s' !! r = Some ar' → ∃ ar, reqs s !! r = Some ar ∧ ar_client ar' = ar_client ar ∧ (ar_deleted ar = true → ar_deleted ar' = true)) ∧
    out s' = (out s ++ (ActiveRequests c ≫= λ r,
      (λ x, ToListener x (if ConnectedFlag c then StreamConnectionTermination else StreamConnectionFailed)) <$>
        from_option ar_listeners [] (reqs s !! r)))%list.
Proof.
  intros Hcnt Hc Hopen Hm Hev. set (cl := close_conn 1 k LocalClose).
  destruct (Close_tells (conn_event cl k i) ev c s Hopen) as (cn & Hcl & Hrun).
  (* the codec client *)
  set (s0 := put_conn i cn s). set (c0 := set_cc_conn cn c).
  assert (clients s0 !! i = Some c0) as Hc0 by (unfold s0, put_conn; cbn; by rewrite lookup_alter_eq, Hc).
  assert (∃ s1 c1, match ev with Connected => mod_client i (set_ConnectedFlag true) | RemoteClose => mod_client i (set_RemoteCloseFlag true)
      | _ => mret tt end s0 = Ret (tt, s1) ∧ clients s1 !! i = Some c1 ∧ cc_conn c1 = cn ∧ ConnectedFlag c1 = ConnectedFlag c ∧
      ActiveRequests c1 = ActiveRequests c ∧ reqs s1 = reqs s ∧ out s1 = out s ∧ mux s1 = mux s) as (s1 & c1 & E1 & Hc1 & Hcn1 & Hf1 & Ha1 & Hr1 & Ho1 & Hm1).
  { destruct ev; try done; [eexists _, (set_RemoteCloseFlag true c0); split; [reflexivity|]; split; [|done]; change (alter (set_RemoteCloseFlag true) i (clients s0) !! i = Some (set_RemoteCloseFlag true c0)); by rewrite lookup_alter_eq, Hc0|..];
      (eexists _, c0; split; [reflexivity|done]). }
  destruct (reset_requests_run i c1 (ActiveRequests c) s1 Hc1) as (s2 & E2 & Har2 & Hdel2 & Ho2).
  { by apply (c_listed _ _ _ Hcnt i c Hc). }
  { intros r Hr. rewrite Hr1. apply (c_listed _ _ _ Hcnt i c Hc) in Hr as (ar & Hr & _ & Hd). exists ar. split_and!; [done..|].
    by apply (c_fresh _ _ _ Hcnt r ar Hr). }
  destruct (ar_clients _ _ Har2 i c1 Hc1) as (c2 & Hc2 & Hcn2 & _).
  (* the pool's client *)
  set (s2' := put_conn i cn s2). assert (clients s2' !! i = Some (set_cc_conn cn c2)) as Hc2' by (unfold s2', put_conn; cbn; by rewrite lookup_alter_eq, Hc2).
  destruct (forget_run cl i _ ev s2' Hev Hc2') as (s3 & E3 & Hfg & Hr3 & Ho3 & Hc3 & Hm3 & _).
  { change (mux s2' = false). unfold s2'. cbn. by rewrite (ar_mux _ _ Har2), Hm1. }
  exists (put_conn i cn s3). split_and!.
  - change (close_conn 2 k ev i s) with (with_conn i (Connection.Close (conn_event cl k i) no_bytes 0 NoFlush ev) s).
    unfold with_conn. rewrite Hc. rewrite (Hrun (Ret (tt, (cn, s3)))); [reflexivity|]. cbn [for_each].
    eapply sg_run; [unfold conn_event; cbn [fst snd]; fold s0; cbn [client_event]; unfold cc_OnEvent|].
    { erewrite sg_bind_run by exact E1. rewrite Hev. cbn [orb]. unfold get_client. erewrite sg_bind_run by (srun; rewrite Hc1; reflexivity).
      rewrite Ha1, E2. reflexivity. }
    unfold conn_of at 1. rewrite Hc2. cbn [from_option]. rewrite Hcn2, Hcn1.
    eapply sg_run; [unfold conn_event; cbn [fst snd]; fold s2'; rewrite E3; reflexivity|].
    unfold conn_of. rewrite Hc3, Hc2'. reflexivity.
  - done.
  - done.
  - intros r Hr. cbn. rewrite Hr3. by apply Hdel2.
  - eexists. split; [unfold put_conn; cbn; rewrite lookup_alter_eq, Hc3, Hc2'; reflexivity|]. done.
  - intros r ar' Hr'. rewrite <- Hr1. apply (ar_back _ _ Har2). rewrite <- Hr'. cbn. by rewrite Hr3.
  - cbn. rewrite Ho3. unfold s2'. cbn. by rewrite Ho2, Ho1, Hf1, Hr1.
Qed.
End closing.

(** ** A SofaRPC pool connects anew *)

Lemma sofa_new_client s : clients s !! next_client s = None → ∃ s' c,
  sofa_newActiveClient None s = Ret (Some (next_client s), s') ∧ clients s' = <[next_client s := c]> (clients s) ∧ open_client c ∧
  ConnectedFlag c = true ∧ ActiveRequests c = [] ∧ reqs s' = reqs s ∧ out s' = out s ∧ mux s' = mux s ∧ next_req s' = next_req s ∧
  Requests s' = Requests s.
Proof.
  intros Hn. set (i := next_client s).
  set (cn0 := set_connCallbacks [0; 1]%nat (NewClientConnection (mk_sock [] EOF [] []))).
  set (cn1 := set_internalLoopStarted true (set_rawConnection Raw (set_connected_once true cn0))).
  set (s1 := set_next_client (S i) (set_clients (<[i := mk_cc cn0 [] false false 0 false false true]> (clients s)) s)).
  set (c := mk_cc cn1 [] true false 0 false false true).
  set (s2 := set_clients (<[i := c]> (clients s)) s1).
  assert (∀ (cs : gmap nat codecClient) f c0, alter f i (<[i := c0]> cs) = <[i := f c0]> cs) as Hal.
  { intros cs f c0. apply map_eq. intros j. destruct (decide (j = i)) as [->|].
    - by rewrite lookup_alter_eq, !lookup_insert_eq.
    - by rewrite lookup_alter_ne, !lookup_insert_ne by done. }
  exists s2, c. split_and!; try done.
  assert (add_client [0; 1]%nat s = Ret (i, s1)) as E1 by done.
  assert (∀ cb close, (cb = 0 ∨ cb = 1)%nat → conn_event close KSofa i cb Connected (cn1, if bool_decide (cb = 0%nat) then s1 else s2) = Ret (tt, (cn1, s2))) as Ev.
  { intros cb close [->| ->]; unfold conn_event, put_conn; cbn [fst snd].
    - rewrite bool_decide_true by done. unfold s1 at 1. cbn [clients set_next_client set_clients]. rewrite Hal. cbn [client_event cc_OnEvent].
      unfold cc_OnEvent, mod_client. erewrite sg_bind_run by reflexivity. cbn [IsClose ConnectFailure orb clients set_clients]. rewrite Hal.
      cbn [mret SG_ret]. unfold mret, SG_ret, conn_of. cbn [clients set_clients]. by rewrite lookup_insert_eq.
    - rewrite bool_decide_false by done. unfold s2 at 1. cbn [clients set_clients]. rewrite Hal. cbn [client_event].
      unfold sofa_onConnectionEvent. cbn [IsClose ConnectFailure orb]. rewrite bool_decide_false by done.
      unfold mret, SG_ret, conn_of. cbn [clients set_clients]. by rewrite lookup_insert_eq. }
  assert (Connection.Connect (conn_event (codec_Close KSofa) KSofa i) None true (cn0, s1) = Ret (None, (cn1, s2))) as E2.
  { unfold Connection.Connect. srun. cbn [connected_once cn0 set_connCallbacks NewClientConnection]. srun.
    eapply sg_run; [instantiate (1 := (cn1, s1)); instantiate (1 := tt); reflexivity|]. srun.
    eapply sg_run; [instantiate (1 := (cn1, s2)); instantiate (1 := tt)|reflexivity]. cbn [connCallbacks cn1 cn0 set_internalLoopStarted set_rawConnection
      set_connected_once set_connCallbacks for_each].
    eapply sg_run; [apply (Ev 0%nat); by left|]. eapply sg_run; [apply (Ev 1%nat); by right|]. reflexivity. }
  unfold sofa_newActiveClient. eapply sg_run; [exact E1|].
  eapply sg_run; [unfold connect, with_conn|].
  { unfold s1 at 1. cbn [clients set_next_client set_clients]. rewrite lookup_insert_eq. cbn [cc_conn]. rewrite E2. reflexivity. }
  cbn. unfold put_conn, mret, SG_ret. cbn [clients set_clients s2]. do 2 f_equal. unfold s2. cbn [clients set_clients]. rewrite Hal. done.
Qed.

Lemma sofa_reconnects sid rcv s : clients s !! next_client s = None → mux s = false → activeClient s = None → CanCreate (Requests s) = true →
  ∃ s', sofa_NewStream None sid rcv s = Ret (tt, s') ∧ out s' = (out s ++ [OnReady sid (next_req s)])%list ∧
    activeClient s' = Some (next_client s) ∧
    reqs s' = <[next_req s := mk_ar (next_client s) rcv false true []]> (reqs s).
Proof.
  intros Hn Hm Ha Hcan. set (s0 := set_mux true s).
  destruct (sofa_new_client s0) as (s1 & c & E1 & Hc1 & _ & _ & _ & Hr1 & Ho1 & _ & Hq1 & Hres1); [done|].
  eexists. split.
  { unfold sofa_NewStream. eapply sg_run; [unfold lock; srun; rewrite Hm; reflexivity|]. fold s0. srun.
    change (activeClient s0) with (activeClient s). rewrite Ha. eapply sg_run; [eapply sg_run; [exact E1|]; reflexivity|].
    do 2 srun. cbn [activeClient set_activeClient set_mux]. unfold sofa_stream. srun. cbn [Requests set_activeClient set_mux].
    rewrite Hres1. change (Requests s0) with (Requests s). rewrite Hcan. cbn [negb]. do 2 srun.
    eapply sg_run; [unfold cc_NewStream; do 3 srun; reflexivity|]. reflexivity. }
  cbn. rewrite Ho1, Hr1, Hq1. done.
Qed.

(** A SofaRPC pool survives its connection.  When the connection of a client
    that has requests closes, for whatever reason, each of them ends: its
    listeners are told once that the connection was terminated, in the order the
    requests were made, and it is counted no more.  The next stream then gets a
    new connection. *)
Theorem pool_survives_close l res s i c ev sid rcv : in_s 64 (current res) → run_pops KSofa l (new_pool res) = Ret (tt, s) →
  clients s !! i = Some c → open_client c → mux s = false → IsClose ev = true →
  ∃ s1, close_conn 2 KSofa ev i s = Ret (tt, s1) ∧
    out s1 = (out s ++ (ActiveRequests c ≫= λ r,
      (λ x, ToListener x (if ConnectedFlag c then StreamConnectionTermination else StreamConnectionFailed)) <$>
        from_option ar_listeners [] (reqs s !! r)))%list ∧
    (∀ r ar, reqs s1 !! r = Some ar → ar_client ar = i → ar_deleted ar = true) ∧
    current (Requests s1) = to_int64 (current res + Z.of_nat (live s1)) ∧
    (CanCreate (Requests s1) = true →
     ∃ s2, sofa_NewStream None sid rcv s1 = Ret (tt, s2) ∧ out s2 = (out s1 ++ [OnReady sid (next_req s1)])%list ∧
       reqs s2 !! next_req s1 = Some (mk_ar (next_client s1) rcv false true []) ∧ next_client s1 ≠ i).
Proof.
  intros Hres E Hc Ho Hm Hev. pose proof (run_counted KSofa (current res) l res s Hres eq_refl E) as Hcnt.
  destruct (close_conn_run KSofa (current res) ev i c s Hcnt Hc Ho Hm Hev) as (s1 & E1 & Hf & Hm1 & Hdel & (c1 & Hc1 & _) & Hback & Hout).
  pose proof (keeps_close KSofa (current res) 2 ev i s _ s1 Hcnt E1) as Hcnt1. exists s1. split_and!; [done|done| |by apply Hcnt1|].
  - intros r ar Hr Hi. destruct (ar_deleted ar) eqn:Hd; [done|]. exfalso.
    destruct (Hback r ar Hr) as (ar0 & Hr0 & Hi0 & Hd0). destruct (ar_deleted ar0) eqn:Hd1; [by rewrite Hd0 in Hd|].
    assert (r ∈ ActiveRequests c) as Hin by (apply (c_listed _ _ _ Hcnt i c Hc); exists ar0; split_and!; congruence).
    destruct (Hdel r Hin) as (ar' & Hr' & Hd'). congruence.
  - intros Hcan. assert (clients s1 !! next_client s1 = None) as Hn.
    { destruct (clients s1 !! next_client s1) as [c2|] eqn:Hc2; [|done]. apply (c_listed _ _ _ Hcnt1) in Hc2 as (? & _). lia. }
    destruct (sofa_reconnects sid rcv s1 Hn Hm1 Hf Hcan) as (s2 & E2 & Ho2 & _ & Hr2). exists s2. split_and!; [done|done| |].
    + by rewrite Hr2, lookup_insert_eq.
    + intros Heq. rewrite Heq in Hn. congruence.
Qed.

(** ** Runs *)

Definition some_res : resource := mk_res 0 10.
(** Two requests, listened to; one is answered, then the connection closes. *)
Definition two_requests : list pop :=
  [PNew None true "1" 7; PListen 0 70; PNew None true "2" 8; PListen 1 80; PNew None true "3" 9; PListen 2 90; PReceive 1 true].
Definition after_two : pools := match run_pops KSofa two_requests (new_pool some_res) with Ret (_, s) => s | Panic _ => new_pool some_res end.

Lemma requests_counted_witness :
  in_s 64 (current some_res) ∧ counted KSofa 0 after_two ∧ live after_two = 2%nat ∧ current (Requests after_two) = 2.
Proof.
  assert (in_s 64 (current some_res)) as Hres by done. split; [exact Hres|]. split; [|split; vm_compute; reflexivity].
  apply (requests_counted KSofa two_requests some_res after_two Hres). vm_compute. reflexivity.
Defined.

Lemma pool_survives_close_witness :
  match clients after_two !! 0%nat with
  | Some c => ∃ s1, close_conn 2 KSofa RemoteClose 0 after_two = Ret (tt, s1) ∧
      out s1 = (out after_two ++ [ToListener 70 StreamConnectionTermination; ToListener 90 StreamConnectionTermination])%list
  | None => False
  end.
Proof.
  destruct (clients after_two !! 0%nat) as [c|] eqn:Hc; [|vm_compute in Hc; discriminate].
  destruct (pool_survives_close two_requests some_res after_two 0 c RemoteClose "4" 10) as (s1 & E & Ho & _).
  - done.
  - vm_compute. reflexivity.
  - exact Hc.
  - vm_compute in Hc. injection Hc as <-. split; try reflexivity. eexists. reflexivity.
  - vm_compute. reflexivity.
  - reflexivity.
  - exists s1. split; [exact E|]. rewrite Ho. f_equal. vm_compute in Hc. injection Hc as <-. vm_compute. reflexivity.
Defined.

(** A connection closed from its pool's [Close] asks for the lock that [Close]
    holds. *)
Example http2_close_deadlocks : run_pops KHTTP2 [PNew None true "1" 7; PClose] (new_pool some_res) = Panic Deadlock.
Proof. vm_compute. reflexivity. Qed.
Example xprotocol_close_deadlocks : run_pops KXprotocol [PNew None true "1" 7; PClose] (new_pool some_res) = Panic Deadlock.
Proof. vm_compute. reflexivity. Qed.

(** An x-protocol client whose connection attempt failed is handed out, again and
    again. *)
Example xprotocol_uses_dead_client :
  match run_pops KXprotocol [PNew (Some (IoOther 0)) true "1" 7; PNew None true "2" 8] (new_pool some_res) with
  | Ret (_, s) => out s = [OnReady "1" 0; OnReady "2" 1] ∧ (ar_client <$> reqs s !! 1%nat) = Some 0%nat ∧
      (rawConnection ∘ cc_conn <$> clients s !! 0%nat) = Some RawNilTCP
  | Panic _ => False
  end.
Proof. vm_compute. done. Qed.

(** When one HTTP/2 connection closes, the pool also forgets those that are open. *)
Example http2_forgets_open_clients :
  match run_pops KHTTP2 [PNew None true "1" 7; PTakes 0 false; PNew None true "2" 8; PTakes 0 true; PClosed 1 RemoteClose] (new_pool some_res) with
  | Ret (_, s) => activeClients s = [] ∧ (closed ∘ cc_conn <$> clients s !! 0%nat) = Some false
  | Panic _ => False
  end.
Proof. vm_compute. done. Qed.

(** The client of an HTTP/1 pool is made once only: a pool that was closed
    panics, after it has counted the request. *)
Lemma http1_reuse_panics sid rcv s : initClient s = true → CanCreate (Requests s) = true →
  (_ ← http1_Close; http1_NewStream sid rcv) s = Panic NilDeref.
Proof.
  intros Hi Hc. unfold http1_Close. srun. unfold http1_NewStream. do 2 srun. cbn [h1_client initClient set_h1_client]. rewrite Hi.
  do 3 srun. cbn [Requests set_h1_client]. rewrite Hc. reflexivity.
Qed.
