(* ===== verification/Handler.v ===== *)
(** * Listeners and the connections they accept

    pkg/server (handler.go, server.go, configuration.go), pkg/network/listener.go
    and the accept filter pkg/filter/accept/originaldst.  The connections are those
    of [Connection], kept in a list and taken out of it while one of their
    operations runs ([focus]); the callbacks of a connection change the handler.

    Network filters are a parameter: computations on a connection.  The listeners
    that filters register on a connection are left out.  Sockets are the scripts
    of [Connection]; what the operating system says about a socket that was
    redirected is part of the accepted socket ([raw]).  A listener opens its log and
    its access logs, so that adding one changes the loggers of [Logger]; a listener's
    TLS settings are in [Tls]. *)

From Stdlib Require Import Ascii.
From S2P Require Import Prelude Strconv GoStrings IoBuffer StateGo Connection AccessLog Logger.

Local Open Scope Z_scope.

(** ** Listeners (pkg/network/listener.go) *)

(** The socket of a listener: whether its deadline has passed, whether it is closed. *)
Record tcp_listener := mk_tl { tl_deadline : bool; tl_closed : bool }.

Record listener := mk_lis {
  l_name : string; l_network : string; l_addr : string; l_bindToPort : bool; l_tag : Z;
  l_bufferLimit : Z; l_handOff : bool; l_rawl : option tcp_listener;
}.
Definition set_rawl (v : option tcp_listener) (l : listener) : listener :=
  mk_lis (l_name l) (l_network l) (l_addr l) (l_bindToPort l) (l_tag l) (l_bufferLimit l) (l_handOff l) v.

(** The parts of [v2.AccessLog] and [v2.ListenerConfig] that are used here. *)
Record AccessLogConfig := mk_alc { alc_path : string; alc_format : string }.
Record ListenerConfig := mk_lc {
  lc_name : string; lc_network : string; lc_addr : string; lc_bindToPort : bool; lc_tag : Z;
  lc_bufferLimit : Z; lc_handOff : bool; lc_inherit : bool; lc_disableConnIo : bool;
  lc_logPath : string; lc_logLevel : Z; lc_accessLogs : list AccessLogConfig;
}.

Definition NewListener (lc : ListenerConfig) : listener :=
  mk_lis (lc_name lc) (lc_network lc) (lc_addr lc) (lc_bindToPort lc) (lc_tag lc) (lc_bufferLimit lc) (lc_handOff lc)
    (if lc_inherit lc then Some (mk_tl false false) else None).

(** What [Accept] returns: a connection, or an error, by what the code tells apart
    of it (a timeout, another [*net.OpError], anything else). *)
Inductive accept_result (R : Type) := AConn (r : R) | ATimeout | AOpError | AOther.
Arguments AConn {_} _.
Arguments ATimeout {_}.
Arguments AOpError {_}.
Arguments AOther {_}.

(** The loop of [Start], over what [Accept] returns: the connections it hands to
    [OnAccept], and whether it still accepts. *)
Fixpoint accept_loop {R} (script : list (accept_result R)) : list R * bool :=
  match script with
  | [] => ([], true)
  | AConn r :: script => let '(rs, on) := accept_loop script in (r :: rs, on)
  | ATimeout :: _ => ([], false)
  | AOpError :: _ => ([], false)
  | AOther :: script => accept_loop script
  end.

(** [listen_ok]: whether the system lets the listener listen; the process ends
    when it does not. *)
Definition listen_Start {R} (listen_ok : bool) (script : list (accept_result R)) (l : listener) : Go (listener * list R * bool) :=
  if negb (l_bindToPort l) then Ret (l, [], false)
  else
  l ← match l_rawl l with
      | Some _ => Ret l
      | None => if listen_ok then Ret (set_rawl (Some (mk_tl false false)) l) else Panic (UserPanic "listen failed")
      end;
  let '(rs, on) := accept_loop script in
  Ret (l, rs, on).

(** Setting a deadline on or closing a nil [*net.TCPListener] returns an error. *)
Definition listen_Stop (l : listener) : listener :=
  set_rawl ((λ t, mk_tl true (tl_closed t)) <$> l_rawl l) l.
Definition listen_Close (l : listener) : listener :=
  set_rawl ((λ t, mk_tl (tl_deadline t) true) <$> l_rawl l) l.

(** ** The handler (pkg/server/handler.go) *)

Record ListenerStats := mk_ls {
  ls_total : Z; ls_destroy : Z; ls_active : Z;
  ls_bytesRead : Z; ls_bytesReadCurrent : Z; ls_bytesWrite : Z; ls_bytesWriteCurrent : Z;
}.
Definition newListenerStats : ListenerStats := mk_ls 0 0 0 0 0 0 0.

(** An access log: the logger of its path, which other logs may share, and its
    formatter. *)
Record access_log := mk_acl { acl_logger : nat; acl_log : accesslog }.

(** [al_conns] is the list of active connections; [al_stopped] whether [stopChan]
    is closed; [al_logger] and [al_accessLogs] are pointers to loggers. *)
Record activeListener := mk_al {
  al_disableConnIo : bool; al_listener : listener; al_factory : nat; al_listenIP : string; al_listenPort : Z;
  al_conns : list nat; al_stopped : bool; al_stats : ListenerStats; al_logger : nat; al_accessLogs : list access_log;
}.
Definition set_al_listener (v : listener) (l : activeListener) : activeListener :=
  mk_al (al_disableConnIo l) v (al_factory l) (al_listenIP l) (al_listenPort l) (al_conns l) (al_stopped l) (al_stats l) (al_logger l) (al_accessLogs l).
Definition set_al_conns (v : list nat) (l : activeListener) : activeListener :=
  mk_al (al_disableConnIo l) (al_listener l) (al_factory l) (al_listenIP l) (al_listenPort l) v (al_stopped l) (al_stats l) (al_logger l) (al_accessLogs l).
Definition set_al_stopped (v : bool) (l : activeListener) : activeListener :=
  mk_al (al_disableConnIo l) (al_listener l) (al_factory l) (al_listenIP l) (al_listenPort l) (al_conns l) v (al_stats l) (al_logger l) (al_accessLogs l).
Definition set_al_stats (v : ListenerStats) (l : activeListener) : activeListener :=
  mk_al (al_disableConnIo l) (al_listener l) (al_factory l) (al_listenIP l) (al_listenPort l) (al_conns l) (al_stopped l) v (al_logger l) (al_accessLogs l).

(** [ac_element]: whether the connection has its element of the list. *)
Record activeConnection := mk_ac { ac_element : bool; ac_listener : nat; ac_conn : nat }.

(** The objects are numbered as they are created; [listeners] is the handler's
    slice of listeners, the others are memory; [ch_logger] is the default logger
    at the time the handler was made, or nil. *)
Record connHandler := mk_ch {
  numConnections : Z; listeners : list nat;
  als : list activeListener; acs : list activeConnection; conns : list connection; ch_logger : option nat;
}.
Definition NewHandler (logger : option nat) : connHandler := mk_ch 0 [] [] [] [] logger.

Definition set_numConnections (v : Z) (h : connHandler) : connHandler := mk_ch v (listeners h) (als h) (acs h) (conns h) (ch_logger h).
Definition set_listeners (v : list nat) (h : connHandler) : connHandler := mk_ch (numConnections h) v (als h) (acs h) (conns h) (ch_logger h).
Definition set_als (v : list activeListener) (h : connHandler) : connHandler := mk_ch (numConnections h) (listeners h) v (acs h) (conns h) (ch_logger h).
Definition set_acs (v : list activeConnection) (h : connHandler) : connHandler := mk_ch (numConnections h) (listeners h) (als h) v (conns h) (ch_logger h).
Definition set_conns (v : list connection) (h : connHandler) : connHandler := mk_ch (numConnections h) (listeners h) (als h) (acs h) v (ch_logger h).

Abbreviation H := (SG connHandler).
Abbreviation HC := (SG (connection * connHandler)).

Definition hd_get {A} (f : connHandler → A) : H A := λ h, Ret (f h, h).
Definition get_al (i : nat) : H activeListener := o ← hd_get (λ h, als h !! i); sg_deref o.
Definition mod_al (i : nat) (f : activeListener → activeListener) : H unit := sg_modify (λ h, set_als (alter f i (als h)) h).
Definition mod_lis (i : nat) (f : listener → listener) : H unit := mod_al i (λ l, set_al_listener (f (al_listener l)) l).

(** An operation of a connection, and what it does to the handler. *)
Definition focus {A} (i : nat) (m : HC A) : H A := λ h,
  match conns h !! i with
  | None => Panic NilDeref
  | Some c => match m (c, h) with
              | Ret (a, (c', h')) => Ret (a, set_conns (<[i := c']> (conns h')) h')
              | Panic k => Panic k
              end
  end.
Definition on_handler {A} (m : H A) : HC A := λ s,
  match m s.2 with Ret (a, h) => Ret (a, (s.1, h)) | Panic k => Panic k end.
Definition on_conn {A} (m : SG connection A) : HC A := λ s,
  match m s.1 with Ret (a, c) => Ret (a, (c, s.2)) | Panic k => Panic k end.

Definition NumConnections (h : connHandler) : Z := to_uint64 (numConnections h).

(** *** Listeners come and go *)

Definition MosnLogBasePath : string := "/home/admin/mosn/logs".

(** The files a listener logs to, with their defaults. *)
Definition log_path (lc : ListenerConfig) : string :=
  if bool_decide (lc_logPath lc = "")%string then MosnLogBasePath +:+ "/" +:+ lc_name lc +:+ ".log" else lc_logPath lc.
Definition access_log_path (lc : ListenerConfig) (c : AccessLogConfig) : string :=
  if bool_decide (alc_path c = "")%string then MosnLogBasePath +:+ "/" +:+ lc_name lc +:+ "_access.log" else alc_path c.

Definition newActiveListener (l : listener) (logger : nat) (accessLoggers : list access_log) (factory : nat) (disableConnIo : bool) : activeListener :=
  let temps := Split (l_addr l) ":"%char in
  mk_al disableConnIo l factory (default EmptyString (head temps)) (Atoi (default EmptyString (last temps))) [] false newListenerStats logger accessLoggers.

(** [NewAccessLog]; none for an error. *)
Definition OpenAccessLog (e : log_env) (output format : string) : SG logs (option access_log) :=
  '(logger, err) ← GetLoggerInstance e output FATAL;
  match err with
  | Some _ => mret None
  | None => al ← sg_lift (NewAccessLog None format); mret (Some (mk_acl logger al))
  end.
(** The process ends when an access log cannot be opened. *)
Fixpoint open_access_logs (e : log_env) (lc : ListenerConfig) (l : list AccessLogConfig) : SG logs (list access_log) :=
  match l with
  | [] => mret []
  | c :: l =>
    o ← OpenAccessLog e (access_log_path lc c) (alc_format c);
    match o with
    | Some al => als ← open_access_logs e lc l; mret (al :: als)
    | None => sg_panic Exit
    end
  end.
(** The handler's logger writes that the listener's could not be opened, whatever
    the name of [Fatalf], and the listener goes on with it. *)
Definition open_logs (e : log_env) (ch_logger : option nat) (lc : ListenerConfig) : SG logs (nat * list access_log) :=
  '(logger, err) ← NewLogger e (log_path lc) (lc_logLevel lc);
  _ ← match err with
      | Some err => i ← sg_deref ch_logger; Fatalf i ("initialize listener logger failed : " +:+ err)
      | None => mret tt
      end;
  als ← open_access_logs e lc (lc_accessLogs lc);
  mret (logger, als).

(** The loggers and the handler. *)
Definition AddListener (e : log_env) (lc : ListenerConfig) (factory : nat) : SG (logs * connHandler) nat := λ '(lg, h),
  '((logger, acls), lg) ← open_logs e (ch_logger h) lc lg;
  Ret (length (als h), (lg, set_listeners (listeners h ++ [length (als h)])
                         (set_als (als h ++ [newActiveListener (NewListener lc) logger acls factory (lc_disableConnIo lc)]) h))).

Definition tag_of (h : connHandler) (i : nat) : option Z := (λ l, l_tag (al_listener l)) <$> als h !! i.

(** Ranging over [n] places of the array from [i] on, while a listener that is
    found is taken out of the slice of length [len] over the same array. *)
Fixpoint remove_listeners (tag : Z) (h : connHandler) (n i : nat) (arr : list nat) (len : nat) : Go (list nat * nat) :=
  match n with
  | O => Ret (arr, len)
  | S n =>
    match arr !! i with
    | Some l =>
      if bool_decide (tag_of h l = Some tag) then
        if bool_decide (S i ≤ len)%nat
        then remove_listeners tag h n (S i) (take i arr ++ drop (S i) (take len arr) ++ drop (len - 1) arr) (len - 1)
        else Panic SliceBounds
      else remove_listeners tag h n (S i) arr len
    | None => Panic SliceBounds
    end
  end.
Definition RemoveListeners (tag : Z) : H unit :=
  h ← sg_get;
  '(arr, len) ← sg_lift (remove_listeners tag h (length (listeners h)) 0 (listeners h) (length (listeners h)));
  sg_modify (set_listeners (take len arr)).

Fixpoint each_listener (l : list nat) (f : nat → H unit) : H unit :=
  match l with [] => mret tt | i :: l => _ ← f i; each_listener l f end.

Definition StopListener (tag : Z) : H unit :=
  ls ← hd_get listeners;
  each_listener ls (λ i, l ← get_al i;
    sg_when (bool_decide (l_tag (al_listener l) = tag)) (mod_lis i listen_Stop)).
Definition StopListeners (close : bool) : H unit :=
  ls ← hd_get listeners;
  each_listener ls (λ i, mod_lis i (if close then listen_Close else listen_Stop)).

(** Closing a channel twice panics. *)
Definition StopConnection : H unit :=
  ls ← hd_get listeners;
  each_listener ls (λ i, l ← get_al i;
    _ ← sg_lift (go_assert (negb (al_stopped l)) (UserPanic "close of closed channel"));
    mod_al i (set_al_stopped true)).

Fixpoint find_listener (ok : activeListener → bool) (h : connHandler) (l : list nat) : option nat :=
  match l with
  | [] => None
  | i :: l => match als h !! i with
              | Some al => if ok al then Some i else find_listener ok h l
              | None => find_listener ok h l
              end
  end.
Definition findActiveListenerByAddress (network addr : string) (h : connHandler) : option nat :=
  find_listener (λ al, bool_decide (l_network (al_listener al) = network ∧ l_addr (al_listener al) = addr)) h (listeners h).
Definition FindListenerByAddress (network addr : string) (h : connHandler) : option listener :=
  i ← findActiveListenerByAddress network addr h; al_listener <$> als h !! i.

(** The descriptors of all listeners, or none when one has no socket. *)
Definition ListListenersFD (fd : nat → Z) (h : connHandler) : option (list Z) :=
  mapM (λ i, al ← als h !! i; t ← l_rawl (al_listener al); if tl_closed t : bool then None else Some (fd i)) (listeners h).

(** Clusters are updated one after the other, until one fails. *)
Fixpoint UpdateClusterConfig {S C} (AddOrUpdatePrimaryCluster : C → SG S bool) (clusters : list C) : SG S bool :=
  match clusters with
  | [] => mret true
  | c :: clusters => ok ← AddOrUpdatePrimaryCluster c;
                     if ok : bool then UpdateClusterConfig AddOrUpdatePrimaryCluster clusters else mret false
  end.

(** *** Connections come and go *)

Definition OnClose : H unit := mret tt.

(** Removing a nil element panics. *)
Definition removeConnection (a : nat) : H unit :=
  o ← hd_get (λ h, acs h !! a);
  ac ← sg_deref o;
  _ ← sg_lift (go_assert (ac_element ac) NilDeref);
  _ ← mod_al (ac_listener ac) (λ l, set_al_conns (filter (λ x, x ≠ a) (al_conns l)) l);
  _ ← mod_al (ac_listener ac) (λ l, let s := al_stats l in
        set_al_stats (mk_ls (ls_total s) (ls_destroy s + 1) (ls_active s - 1) (ls_bytesRead s) (ls_bytesReadCurrent s)
                        (ls_bytesWrite s) (ls_bytesWriteCurrent s)) l);
  sg_modify (λ h, set_numConnections (numConnections h - 1) h).

Definition ac_OnEvent (a : nat) (event : ConnectionEvent) : HC unit :=
  on_handler (sg_when (IsClose event) (removeConnection a)).

Definition count_read (a : nat) (n : Z) : HC unit :=
  on_handler (o ← hd_get (λ h, acs h !! a); ac ← sg_deref o;
    mod_al (ac_listener ac) (λ l, let s := al_stats l in
      set_al_stats (mk_ls (ls_total s) (ls_destroy s) (ls_active s) (if bool_decide (0 < n) then ls_bytesRead s + n else ls_bytesRead s) n
                      (ls_bytesWrite s) (ls_bytesWriteCurrent s)) l)).
Definition count_sent (a : nat) (n : Z) : HC unit :=
  on_handler (o ← hd_get (λ h, acs h !! a); ac ← sg_deref o;
    mod_al (ac_listener ac) (λ l, let s := al_stats l in
      set_al_stats (mk_ls (ls_total s) (ls_destroy s) (ls_active s) (ls_bytesRead s) (ls_bytesReadCurrent s)
                      (if bool_decide (0 < n) then ls_bytesWrite s + n else ls_bytesWrite s) n) l)).

(** The accepted socket: whether TLS wraps it, whether its file can be had, the
    address it was redirected from (a [syscall.IPv6Mreq], or nil), and what was
    read from it before it was handed over by another process. *)
Record raw := mk_raw { raw_sock : socket; raw_tls : bool; raw_file : bool; raw_mreq : option (list Z); raw_buf : option bytes }.

Definition getOriginalAddr (r : raw) : Go (option (list Z * Z)) :=
  if raw_tls r then Panic TypeAssertion
  else if negb (raw_file r) then Ret None
  else match raw_mreq r with
       | None => Panic NilDeref
       | Some addr => Ret (Some (take 4 (drop 4 addr), nth 2 addr 0 * 256 + nth 3 addr 0))
       end.
Definition dotted (ip : list Z) : string :=
  FormatUint (nth 0 ip 0) +:+ "." +:+ FormatUint (nth 1 ip 0) +:+ "." +:+ FormatUint (nth 2 ip 0) +:+ "." +:+ FormatUint (nth 3 ip 0).
(** What the filter sets as the original address, if anything. *)
Definition originalDst_OnAccept (r : raw) : Go (option (string * Z)) :=
  o ← getOriginalAddr r;
  Ret (match o with Some (ip, port) => Some (dotted ip, port) | None => None end).

Section handler.
(** The filter chain of a factory, read and write filters, and the filters. *)
  Context (chain : nat → list nat * list nat)
          (OnNewConnection OnData OnWrite : nat → SG connection FilterStatus) (pool_get : option IoBuffer) (fuel : nat).

Definition f_new (f : nat) : HC FilterStatus := on_conn (OnNewConnection f).
Definition f_data (f : nat) : HC FilterStatus := on_conn (OnData f).
Definition f_write (f : nat) : HC FilterStatus := on_conn (OnWrite f).

Definition buildFilterChain (i factory : nat) : H bool :=
  focus i (let '(rf, wf) := chain factory in
    _ ← for_each rf AddReadFilter;
    _ ← for_each wf AddWriteFilter;
    InitializeReadFilters f_new f_data fuel).

Definition newActiveConnection (al i : nat) : H nat :=
  a ← hd_get (λ h, length (acs h));
  _ ← sg_modify (λ h, set_acs (acs h ++ [mk_ac false al i]) h);
  _ ← focus i (AddConnectionEventListener a);
  _ ← focus i (AddBytesReadListener a);
  _ ← focus i (AddBytesSentListener a);
  mret a.

(** [started] and [registered]: what the loops of the connection, which run by
    then, do in the meantime. *)
Definition al_OnNewConnection (started registered : H unit) (al i : nat) : H unit :=
  l ← get_al al;
  _ ← buildFilterChain i (al_factory l);
  _ ← sg_when (negb (al_disableConnIo l)) (focus i Start);
  _ ← started;
  rs ← focus i ListReadFilter;
  ws ← focus i ListWriteFilters;
  if bool_decide (length rs = 0 ∧ length ws = 0)%nat then focus i (Close ac_OnEvent count_sent fuel NoFlush LocalClose)
  else
  a ← newActiveConnection al i;
  _ ← registered;
  _ ← mod_al al (λ l, set_al_conns (al_conns l ++ [a]) l);
  _ ← sg_modify (λ h, set_acs (alter (λ ac, mk_ac true (ac_listener ac) (ac_conn ac)) a (acs h)) h);
  _ ← mod_al al (λ l, let s := al_stats l in
        set_al_stats (mk_ls (ls_total s + 1) (ls_destroy s) (ls_active s + 1) (ls_bytesRead s) (ls_bytesReadCurrent s)
                        (ls_bytesWrite s) (ls_bytesWriteCurrent s)) l);
  sg_modify (λ h, set_numConnections (numConnections h + 1) h).

(** [NewServerConnection] with the context of an accepted socket. *)
Definition new_server_conn (r : raw) : Go connection :=
  let conn := NewServerConnection (raw_sock r) in
  match raw_buf r with
  | None => Ret conn
  | Some buf => b ← Take pool_get; '(b, _) ← Write b buf; Ret (set_readBuffer (Some b) conn)
  end.

Definition newConnection (started registered : H unit) (al : nat) (r : raw) : H unit :=
  i ← hd_get (λ h, length (conns h));
  c ← sg_lift (new_server_conn r);
  _ ← sg_modify (λ h, set_conns (conns h ++ [c]) h);
  l ← get_al al;
  _ ← focus i (SetBufferLimit (l_bufferLimit (al_listener l)));
  al_OnNewConnection started registered al i.

(** The exact listener of an address stops the search; a listener of all
    addresses that was passed before is kept as well. *)
Fixpoint find_original (ip : string) (port : Z) (h : connHandler) (local : option nat) (l : list nat) : option nat * option nat :=
  match l with
  | [] => (None, local)
  | i :: l =>
    match als h !! i with
    | None => find_original ip port h local l
    | Some lst =>
      if bool_decide (al_listenIP lst = ip ∧ al_listenPort lst = port) then (Some i, local)
      else find_original ip port h
             (if bool_decide (al_listenPort lst = port ∧ al_listenIP lst = "0.0.0.0"%string) then Some i else local) l
    end
  end.

(** [OnAccept] without and with the hand-over to the original destination; the
    receiving listeners do not hand over again. *)
Definition HandOffRestoredDestinationConnectionsHandler (ip : string) (port : Z) (r : raw) : H unit :=
  h ← sg_get;
  let '(lst, local) := find_original ip port h None (listeners h) in
  _ ← match lst with Some l => newConnection (mret tt) (mret tt) l r | None => mret tt end;
  match local with Some l => newConnection (mret tt) (mret tt) l r | None => mret tt end.

(** The accept filters in order, each of which may set the original address. *)
Fixpoint accept_filters (fs : list (raw → Go (option (string * Z)))) (r : raw) (orig : string * Z) : Go (string * Z) :=
  match fs with
  | [] => Ret orig
  | f :: fs => o ← f r; accept_filters fs r (default orig o)
  end.
Definition ContinueFilterChain (al : nat) (handOff : bool) (fs : list (raw → Go (option (string * Z)))) (r : raw) : H unit :=
  '(ip, port) ← sg_lift (accept_filters fs r (EmptyString, 0));
  if handOff then HandOffRestoredDestinationConnectionsHandler ip port r else newConnection (mret tt) (mret tt) al r.

Definition OnAccept (al : nat) (handOff : bool) (r : raw) : H unit :=
  ContinueFilterChain al handOff (if handOff then [originalDst_OnAccept] else []) r.

(** The goroutine of an accepted connection: a panic ends it alone.  Only the
    original address panics, before anything changed. *)
Definition accepted (al : nat) (r : raw) : H unit := λ h,
  match (l ← get_al al; OnAccept al (l_handOff (al_listener l)) r) h with
  | Ret x => Ret x
  | Panic k => match k with TypeAssertion | NilDeref => Ret (tt, h) | _ => Panic k end
  end.

Fixpoint accept_all (al : nat) (rs : list raw) : H unit :=
  match rs with [] => mret tt | r :: rs => _ ← accepted al r; accept_all al rs end.

(** The goroutine of a listener, over what its socket accepts. *)
Definition run_listener (listen_ok : bool) (script : list (accept_result raw)) (al : nat) : H unit :=
  l ← get_al al;
  '(l, rs, _) ← sg_lift (listen_Start listen_ok script (al_listener l));
  _ ← mod_lis al (λ _, l);
  accept_all al rs.
Definition StartListeners (listen_ok : bool) (script : nat → list (accept_result raw)) : H unit :=
  ls ← hd_get listeners;
  each_listener ls (λ i, run_listener listen_ok (script i) i).
Definition StartListener (listen_ok : bool) (script : nat → list (accept_result raw)) (tag : Z) : H unit :=
  ls ← hd_get listeners;
  each_listener ls (λ i, l ← get_al i;
    if bool_decide (l_tag (al_listener l) = tag) then run_listener listen_ok (script i) i else mret tt).

(** *** What happens to connections *)

Definition conn_close (i : nat) (ty : ConnectionCloseType) (ev : ConnectionEvent) : H unit :=
  focus i (Close ac_OnEvent count_sent fuel ty ev).
Definition conn_read (i : nat) : H unit :=
  focus i (_ ← read_iteration ac_OnEvent count_read count_sent f_new f_data pool_get fuel; mret tt).
Definition conn_write_loop (i : nat) : H unit := focus i (_ ← write_iteration ac_OnEvent count_sent fuel; mret tt).
Definition conn_write (i : nat) (l : list (option IoBuffer)) : H unit := focus i (_ ← conn_Write f_write pool_get l; mret tt).

(** ** The server (pkg/server/server.go) *)

Record server := mk_srv { srv_stopped : bool; ListenerInMap : gset string; srv_handler : connHandler }.
Definition srv_run {A} (m : H A) : SG server A := λ s,
  match m (srv_handler s) with
  | Ret (a, h) => Ret (a, mk_srv (srv_stopped s) (ListenerInMap s) h)
  | Panic k => Panic k
  end.

(** A listener's name is taken for ever. *)
Definition srv_AddListener (e : log_env) (lc : ListenerConfig) (factory : nat) : SG (logs * server) (option nat) := λ '(lg, s),
  if bool_decide (lc_name lc ∈ ListenerInMap s) then Ret (None, (lg, s))
  else
  '(al, (lg, h)) ← AddListener e lc factory (lg, srv_handler s);
  Ret (Some al, (lg, mk_srv (srv_stopped s) ({[lc_name lc]} ∪ ListenerInMap s) h)).
Definition AddListenerAndStart (e : log_env) (lc : ListenerConfig) (factory : nat) (listen_ok : bool) (script : list (accept_result raw))
  : SG (logs * server) unit := λ s,
  '(o, (lg, s)) ← srv_AddListener e lc factory s;
  match o with
  | Some al => '(_, s) ← srv_run (run_listener listen_ok script al) s; Ret (tt, (lg, s))
  | None => Ret (tt, (lg, s))
  end.
Definition srv_Close : SG server unit :=
  _ ← srv_run (StopListeners true);
  s ← sg_get;
  _ ← sg_lift (go_assert (negb (srv_stopped s)) (UserPanic "close of closed channel"));
  sg_modify (λ s, mk_srv true (ListenerInMap s) (srv_handler s)).
End handler.
