(* ===== verification/HandlerProps.v ===== *)
(** * Theorems on [Handler]

    The connections of a handler are counted exactly, as long as none closes
    while it is being set up; one that does is counted for ever.  Then the slice
    of listeners, and connections handed over to their original destination. *)

From stdpp Require Import list.
From S2P Require Import Prelude Strconv GoStrings IoBuffer StateGo Connection ConnectionProps Logger Handler.

Local Open Scope Z_scope.

(** ** What the accounting looks at *)

Definition core_al (l : activeListener) : activeListener :=
  let s := al_stats l in set_al_stats (mk_ls (ls_total s) (ls_destroy s) (ls_active s) 0 0 0 0) l.
Definition cview (c : connection) : bool * list nat * raw_conn := (closed c, connCallbacks c, rawConnection c).
Definition hview (h : connHandler) := (numConnections h, listeners h, core_al <$> als h, acs h, cview <$> conns h).
Definition sview (s : connection * connHandler) := (cview s.1, (numConnections s.2, listeners s.2, core_al <$> als s.2, acs s.2, conns s.2)).

(** Computations on a connection that change nothing of that. *)
Definition calm {A} (m : HC A) : Prop := ∀ v, keeps (λ s, sview s = v) m.

Lemma calm_mods v f : minor f → keeps (λ s, sview s = v) (mod_cn f).
Proof.
  intros Hf. apply keeps_modify. intros [c h] <-. unfold sview, cview. cbn [fst snd].
  destruct (Hf c) as (-> & -> & ->). done.
Qed.

Lemma fmap_alter_id {A B} (g : A → B) f i (l : list A) : (∀ x, g (f x) = g x) → g <$> alter f i l = g <$> l.
Proof. intros Hf. apply list_eq. intros j. rewrite !list_lookup_fmap, list_lookup_alter. case_decide; [subst|done]. destruct (l !! j); cbn; by rewrite ?Hf. Qed.

Lemma calm_stats a f : (∀ l, core_al (f l) = core_al l) →
  calm (on_handler (o ← hd_get (λ h, acs h !! a); ac ← sg_deref o; mod_al (ac_listener ac) f)).
Proof.
  intros Hf v [c h] [] s' Hs E. unfold on_handler in E. cbn [fst snd] in E.
  destruct ((o ← hd_get (λ h, acs h !! a); ac ← sg_deref o; mod_al (ac_listener ac) f) h) as [[[] h']|] eqn:E1; [|done].
  injection E as <-. apply sg_bind_Ret_inv in E1 as (? & ? & [= <- <-] & E1).
  apply sg_bind_Ret_inv in E1 as (ac & h1 & E2 & [= <-]). destruct (acs h !! a); [|done]. injection E2 as <- <-.
  rewrite <- Hs. unfold sview. cbn. by rewrite (fmap_alter_id core_al).
Qed.
Lemma calm_count_read a n : calm (count_read a n).
Proof. by apply calm_stats. Qed.
Lemma calm_count_sent a n : calm (count_sent a n).
Proof. by apply calm_stats. Qed.

(** A calm operation leaves the view of the handler alone. *)
Lemma focus_calm {A} i (m : HC A) h a h' : calm m → focus i m h = Ret (a, h') → hview h' = hview h.
Proof.
  intros Hm E. unfold focus in E. destruct (conns h !! i) as [c|] eqn:Hc; [|done].
  destruct (m (c, h)) as [[a0 [c' h1]]|] eqn:Em; [|done]. injection E as -> <-.
  pose proof (Hm (sview (c, h)) _ _ _ eq_refl Em) as Hv. unfold sview in Hv. cbn [fst snd] in Hv.
  injection Hv as Hc1 Hr Hk Hn Hl Ha Hac Hcs. unfold hview, set_conns. cbn. rewrite Hn, Hl, Ha, Hac, Hcs.
  f_equal. apply list_eq. intros j. rewrite !list_lookup_fmap.
  destruct (decide (i = j)) as [<-|]; [|by rewrite list_lookup_insert_ne].
  rewrite list_lookup_insert_eq by (by eapply lookup_lt_Some). rewrite Hc. cbn. unfold cview. by rewrite Hc1, Hr, Hk.
Qed.

(** ** The invariant

    [ex] is a connection that is being set up. *)
Definition live (c : connection) : bool := negb (closed c) && bool_decide (connCallbacks c ≠ []).
Definition live_conns (l : list connection) : nat := length (filter (λ c, live c = true) l).

Record counted (ex : option nat) (h : connHandler) : Prop := {
  k_count : numConnections h = Z.of_nat (live_conns (conns h));
  k_listener al l : als h !! al = Some l →
    NoDup (al_conns l) ∧ ls_active (al_stats l) = Z.of_nat (length (al_conns l)) ∧
    ls_total (al_stats l) = ls_active (al_stats l) + ls_destroy (al_stats l) ∧
    ∀ a, a ∈ al_conns l → ∃ i, acs h !! a = Some (mk_ac true al i);
  k_active a e al i : acs h !! a = Some (mk_ac e al i) → e = true ∧
    ∃ l c, als h !! al = Some l ∧ conns h !! i = Some c ∧ connCallbacks c = [a] ∧ (a ∈ al_conns l ↔ closed c = false);
  k_conn i c : conns h !! i = Some c → rawConnection c = Raw ∧
    (connCallbacks c = [] ∨ ∃ a al, connCallbacks c = [a] ∧ acs h !! a = Some (mk_ac true al i));
  k_shut i c : conns h !! i = Some c → connCallbacks c = [] → ex ≠ Some i → closed c = true;
}.

Lemma lookup_view {A B} (g : A → B) (l l' : list A) i x :
  g <$> l' = g <$> l → l' !! i = Some x → ∃ y, l !! i = Some y ∧ g x = g y.
Proof.
  intros E Hx. assert ((g <$> l') !! i = Some (g x)) as H1 by (by rewrite list_lookup_fmap, Hx).
  rewrite E, list_lookup_fmap in H1. destruct (l !! i) as [y|]; [|done]. injection H1 as H1. by exists y.
Qed.

Lemma live_view l l' : cview <$> l' = cview <$> l → live_conns l' = live_conns l.
Proof.
  unfold live_conns. revert l'. induction l as [|c l IH]; intros [|c' l'] E; cbn [fmap list_fmap] in E; [done..|]. rewrite !filter_cons.
  assert (cview c' = cview c ∧ cview <$> l' = cview <$> l) as [Hc Hl].
  { pose proof (f_equal head E) as E1. pose proof (f_equal tail E) as E2. cbn in E1, E2. split; [by apply (inj Some)|done]. }
  assert (live c' = live c) as ->. { injection Hc as H1 H2 _. unfold live. by rewrite H1, H2. }
  case_decide; cbn; by rewrite IH.
Qed.

Lemma core_al_inv l l' : core_al l = core_al l' →
  al_conns l = al_conns l' ∧ ls_active (al_stats l) = ls_active (al_stats l') ∧
  ls_total (al_stats l) = ls_total (al_stats l') ∧ ls_destroy (al_stats l) = ls_destroy (al_stats l').
Proof. destruct l, l'. unfold core_al. cbn. by intros [=]. Qed.

(** The invariant depends on the view only. *)
Lemma counted_view ex h h' : hview h' = hview h → counted ex h → counted ex h'.
Proof.
  unfold hview. intros [= Hn Hl Ha Hac Hcs] [K1 K2 K3 K4 K5]. split.
  - by rewrite Hn, K1, (live_view _ _ Hcs).
  - intros al l' Hl'. destruct (lookup_view core_al _ _ _ _ Ha Hl') as (l & Hlk & Hv).
    destruct (core_al_inv _ _ Hv) as (-> & -> & -> & ->). rewrite Hac. by apply K2.
  - intros a e al i Ha'. rewrite Hac in Ha'. destruct (K3 _ _ _ _ Ha') as (He & l & c & Hlk & Hc & Hcb & Hiff). split; [done|].
    destruct (lookup_view core_al (als h') (als h) al l) as (l' & Hlk' & Hv); [done..|].
    destruct (lookup_view cview (conns h') (conns h) i c) as (c' & Hc' & Hcv); [done..|].
    destruct (core_al_inv _ _ Hv) as (H0 & _). injection Hcv as H1 H2 H3. exists l', c'. by rewrite <- H0, <- H1, <- H2.
  - intros i c' Hc'. destruct (lookup_view cview _ _ _ _ Hcs Hc') as (c & Hc & [= H1 H2 H3]). rewrite H2, H3, Hac. by apply K4.
  - intros i c' Hc'. destruct (lookup_view cview _ _ _ _ Hcs Hc') as (c & Hc & [= H1 H2 H3]). rewrite H1, H2. by apply K5.
Qed.

(** ** A connection closes *)


Lemma counted_weaken ex h : counted None h → counted ex h.
Proof. intros [? ? ? ? K5]. split; try done. intros. by eapply K5. Qed.

Lemma live_insert l i c c' : l !! i = Some c →
  (live_conns (<[i := c']> l) + (if live c then 1 else 0) = live_conns l + (if live c' then 1 else 0))%nat.
Proof.
  unfold live_conns. revert i. induction l as [|x l IH]; intros [|i] Hi; cbn [lookup list_lookup insert list_insert] in *; [done..| |].
  - injection Hi as ->. rewrite !filter_cons. destruct (live c), (live c'); repeat case_decide; try done; cbn; lia.
  - specialize (IH i Hi). rewrite !filter_cons. case_decide; [cbn; f_equal|]; exact IH.
Qed.

Definition drop_conn (a : nat) (l : activeListener) : activeListener :=
  let s := al_stats l in
  set_al_stats (mk_ls (ls_total s) (ls_destroy s + 1) (ls_active s - 1) (ls_bytesRead s) (ls_bytesReadCurrent s)
                  (ls_bytesWrite s) (ls_bytesWriteCurrent s)) (set_al_conns (filter (λ x, x ≠ a) (al_conns l)) l).
Definition removed (a al : nat) (h : connHandler) : connHandler :=
  set_numConnections (numConnections h - 1) (set_als (alter (drop_conn a) al (als h)) h).

Lemma removeConnection_run a al i h : acs h !! a = Some (mk_ac true al i) → removeConnection a h = Ret (tt, removed a al h).
Proof.
  intros Ha. unfold removeConnection. srun. rewrite Ha. repeat srun. unfold sg_modify, removed, set_numConnections, set_als. cbn.
  by rewrite list_alter_alter_eq.
Qed.

Section shut.
  Context (i : nat) (c c1 : connection) (h : connHandler).
  Hypothesis (Hc : conns h !! i = Some c) (Hopen : closed c = false) (Hcl : closed c1 = true)
    (Hcb : connCallbacks c1 = connCallbacks c) (Hraw : rawConnection c1 = rawConnection c).

Lemma shut_lookup j x : <[i := c1]> (conns h) !! j = Some x → (j = i ∧ x = c1) ∨ (j ≠ i ∧ conns h !! j = Some x).
Proof.
  intros Hx. destruct (decide (i = j)) as [<-|]; [|right; split; [done|by rewrite list_lookup_insert_ne in Hx]].
  rewrite list_lookup_insert_eq in Hx by (by eapply lookup_lt_Some). injection Hx as <-. by left.
Qed.

(** A connection nobody listens to. *)
Lemma counted_shut_unheard : counted (Some i) h → connCallbacks c = [] → counted None (set_conns (<[i := c1]> (conns h)) h).
Proof.
  intros [K1 K2 K3 K4 K5] Hnil. pose proof (live_insert _ _ _ c1 Hc) as Hn. unfold live in Hn. rewrite Hopen, Hcl, Hnil in Hn. cbn in Hn.
  split; cbn [numConnections conns als acs set_conns].
  - rewrite K1. f_equal. lia.
  - done.
  - intros a e al j Ha. destruct (K3 _ _ _ _ Ha) as (-> & l & x & Hl & Hx & Hxa & Hiff). split; [done|]. exists l, x.
    split_and!; [done| |done..]. destruct (decide (i = j)) as [->|]; [congruence|by rewrite list_lookup_insert_ne].
  - intros j x [[-> ->]|[_ Hx]]%shut_lookup; [rewrite Hcb, Hraw|]; by apply K4.
  - intros j x [[-> ->]|[Hj Hx]]%shut_lookup ? _; [done|]. eapply K5; [done..|congruence].
Qed.

(** The connection of [a]. *)
Lemma counted_shut a al : counted (Some i) h → connCallbacks c = [a] → acs h !! a = Some (mk_ac true al i) →
  counted None (set_conns (<[i := c1]> (conns h)) (removed a al h)).
Proof.
  intros [K1 K2 K3 K4 K5] Hcbs Ha. pose proof (live_insert _ _ _ c1 Hc) as Hn. unfold live in Hn. rewrite Hopen, Hcl, Hcbs in Hn. cbn in Hn.
  destruct (K3 _ _ _ _ Ha) as (_ & l & x & Hl & Hx & _ & Hin). rewrite Hc in Hx. injection Hx as <-.
  split; cbn [numConnections conns als acs set_conns removed set_numConnections set_als].
  - rewrite K1. lia.
  - intros al' l' Hl'. rewrite list_lookup_alter in Hl'. case_decide as Hal; [|by apply K2]. subst al'. rewrite Hl in Hl'. injection Hl' as <-.
    destruct (K2 _ _ Hl) as (H1 & H2 & H3 & H4). cbn. split_and!; [by apply NoDup_filter| |lia|].
    + assert (Permutation (al_conns l) (a :: filter (λ x, x ≠ a) (al_conns l))) as Hp%Permutation_length.
      { apply NoDup_Permutation; [done|constructor; [|by apply NoDup_filter]|].
        - rewrite list_elem_of_filter. naive_solver.
        - intros y. rewrite elem_of_cons, list_elem_of_filter. destruct (decide (y = a)); naive_solver. }
      rewrite H2, Hp. cbn. lia.
    + intros b [_ Hb]%list_elem_of_filter. by apply H4.
  - intros b e al' j Hb. destruct (K3 _ _ _ _ Hb) as (-> & l' & x & Hl' & Hx & Hxb & Hiff). split; [done|].
    destruct (decide (b = a)) as [->|Hba].
    + rewrite Ha in Hb. injection Hb as <- <-. exists (drop_conn a l), c1. rewrite list_lookup_alter, decide_True, Hl by done.
      rewrite list_lookup_insert_eq by (by eapply lookup_lt_Some). rewrite Hcb. do 3 (split; [done|]). cbn. rewrite list_elem_of_filter, Hcl. naive_solver.
    + assert (i ≠ j) as Hij by congruence. rewrite list_lookup_insert_ne by done. rewrite list_lookup_alter.
      case_decide as Hal; [|by exists l', x]. rewrite Hal, Hl'. exists (drop_conn a l'), x. do 3 (split; [done|]). cbn. rewrite list_elem_of_filter. naive_solver.
  - intros j x [[-> ->]|[_ Hx]]%shut_lookup; [rewrite Hcb, Hraw|]; by apply K4.
  - intros j x [[-> ->]|[Hj Hx]]%shut_lookup ? _; [done|]. eapply K5; [done..|congruence].
Qed.
End shut.

Lemma counted_closed_conn i c h : counted (Some i) h → conns h !! i = Some c → closed c = true → counted None h.
Proof.
  intros [K1 K2 K3 K4 K5] Hc Hcl. split; try done. intros j x Hx Hnil _.
  destruct (decide (i = j)) as [->|]; [congruence|]. eapply K5; [done..|congruence].
Qed.

(** The handler with a connection that is being worked on put back. *)
Definition put (i : nat) (c : connection) (h : connHandler) : connHandler := set_conns (<[i := c]> (conns h)) h.
Definition kept (ex : option nat) (i : nat) (s : connection * connHandler) : Prop :=
  (i < length (conns s.2))%nat ∧ counted ex (put i s.1 s.2).

Lemma put_id i c h : conns h !! i = Some c → put i c h = h.
Proof. intros Hc. destruct h. unfold put, set_conns. cbn in *. by rewrite list_insert_id. Qed.
Lemma put_put i c c' h : put i c' (put i c h) = put i c' h.
Proof. unfold put, set_conns. cbn. by rewrite list_insert_insert_eq. Qed.

Lemma kept_view ex i c h c' h' : sview (c', h') = sview (c, h) → kept ex i (c, h) → kept ex i (c', h').
Proof.
  unfold sview, kept. cbn [fst snd]. intros E [Hi Hk]. apply pair_equal_spec in E as [Hc E]. injection E as Hn Hl Ha Hac Hcs. split; [by rewrite Hcs|].
  eapply counted_view; [|exact Hk]. unfold hview, put, set_conns. cbn. rewrite Hn, Hl, Ha, Hac, Hcs. f_equal. by rewrite !list_fmap_insert, Hc.
Qed.
Lemma calm_kept {A} ex i (m : HC A) : calm m → keeps (kept ex i) m.
Proof. intros Hm [c h] a [c' h'] Hk E. eapply kept_view; [|exact Hk]. by eapply Hm; [|exact E]. Qed.

Lemma close_kept fuel ty ev i s u s' : IsClose ev = true → kept (Some i) i s →
  Close ac_OnEvent count_sent fuel ty ev s = Ret (u, s') → kept None i s'.
Proof.
  intros Hev [Hi Hk] Ec. destruct s as [c h], s' as [c' h']. unfold kept. cbn [fst snd] in *.
  assert (∀ h, (i < length (conns h))%nat → conns (put i c h) !! i = Some c) as Hput by (intros; by apply list_lookup_insert_eq).
  destruct (k_conn _ _ Hk _ _ (Hput h Hi)) as [Hraw Hcbs].
  destruct (Close_inv _ _ _ _ _ _ _ _ Ec) as [[Hcl [= -> ->]]|[(_ & Hr & _)|(Hcl & _ & [c1 h2] & Hs1 & E1)]]; cbn [fst snd] in *.
  - split; [done|]. eapply counted_closed_conn; [done|by apply Hput|done].
  - congruence.
  - assert (sview (c1, h2) = sview (set_closed true c, h)) as Hv.
    { apply (Hs1 (λ s, sview s = sview (set_closed true c, h))); [intros f Hf; by apply calm_mods|intros; apply calm_count_sent|done]. }
    assert (kept (Some i) i (c, h2)) as [Hi2 Hk2]. { eapply kept_view; [|by split]. unfold sview in *. cbn [fst snd] in *. congruence. }
    cbn [fst snd] in *. unfold sview, cview in Hv. cbn [fst snd] in Hv. injection Hv as Hv1 Hv2 Hv3 Hn Hl Ha Hac Hcs.
    change (closed c1 = true) in Hv1. change (connCallbacks c1 = connCallbacks c) in Hv2. change (rawConnection c1 = rawConnection c) in Hv3.
    rewrite Hv2 in E1. destruct Hcbs as [Hnil|(a & al & Hone & Hac1)]; [rewrite Hnil in E1|rewrite Hone in E1]; cbn [for_each] in E1.
    + injection E1 as _ <- <-. split; [done|]. rewrite <- (put_put i c). by apply (counted_shut_unheard i c); [apply Hput|..].
    + change (acs h !! a = Some (mk_ac true al i)) in Hac1. rewrite <- Hac in Hac1.
      apply sg_bind_Ret_inv in E1 as ([] & s3 & E2 & E1). injection E1 as _ ->.
      unfold ac_OnEvent, on_handler in E2. cbn [fst snd] in E2. rewrite Hev in E2. cbn [sg_when] in E2. rewrite (removeConnection_run _ _ _ _ Hac1) in E2.
      injection E2 as <- <-. split; [done|]. pose proof (counted_shut i c c1 (put i c h2) (Hput h2 Hi2) Hcl Hv1 Hv2 Hv3 a al Hk2 Hone Hac1) as Hend.
      unfold put, removed, set_conns, set_als, set_numConnections in *. cbn in *. by rewrite list_insert_insert_eq in Hend.
Qed.

(** From the operations of a connection to those of the handler. *)
Lemma focus_kept {A} ex ex' i (m : HC A) h a h' : (∀ s a s', kept ex i s → m s = Ret (a, s') → kept ex' i s') →
  counted ex h → focus i m h = Ret (a, h') → counted ex' h'.
Proof.
  intros Hm Hk E. unfold focus in E. destruct (conns h !! i) as [c|] eqn:Hc; [|done].
  destruct (m (c, h)) as [[b [c' h1]]|] eqn:Ec; [|done]. injection E as -> <-.
  destruct (Hm (c, h) a (c', h1)) as [_ Hend]; [|exact Ec|exact Hend]. split; [by eapply lookup_lt_Some|]. cbn. by rewrite put_id.
Qed.

Lemma close_counted fuel ty ev i h u h' : IsClose ev = true → counted (Some i) h →
  focus i (Close ac_OnEvent count_sent fuel ty ev) h = Ret (u, h') → counted None h'.
Proof. intros Hev Hk. apply focus_kept with (ex := Some i); [|done]. intros s b s'. by apply close_kept. Qed.

(** ** A connection is set up *)

Lemma focus_mod i f h c : conns h !! i = Some c → focus i (mod_cn f) h = Ret (tt, set_conns (<[i := f c]> (conns h)) h).
Proof. intros Hc. unfold focus. by rewrite Hc. Qed.

Definition add_conn (a : nat) (l : activeListener) : activeListener :=
  let s := al_stats l in
  set_al_stats (mk_ls (ls_total s + 1) (ls_destroy s) (ls_active s + 1) (ls_bytesRead s) (ls_bytesReadCurrent s)
                  (ls_bytesWrite s) (ls_bytesWriteCurrent s)) (set_al_conns (al_conns l ++ [a])%list l).
Definition heard (a : nat) (c : connection) : connection :=
  set_bytesSendCallbacks (bytesSendCallbacks c ++ [a]) (set_bytesReadCallbacks (bytesReadCallbacks c ++ [a]) (set_connCallbacks (connCallbacks c ++ [a]) c)).
Definition registered (al i : nat) (c : connection) (h : connHandler) : connHandler :=
  mk_ch (numConnections h + 1) (listeners h) (alter (add_conn (length (acs h))) al (als h)) (acs h ++ [mk_ac true al i])
    (<[i := heard (length (acs h)) c]> (conns h)) (ch_logger h).

Lemma counted_registered al l i c h : counted (Some i) h → als h !! al = Some l → conns h !! i = Some c →
  closed c = false → connCallbacks c = [] → counted None (registered al i c h).
Proof.
  intros [K1 K2 K3 K4 K5] Hl Hc Hopen Hnil. set (a := length (acs h)).
  pose proof (live_insert _ _ _ (heard a c) Hc) as Hn. unfold live in Hn. cbn in Hn. rewrite Hopen, Hnil in Hn. cbn in Hn.
  assert (∀ b x, acs h !! b = Some x → (acs h ++ [mk_ac true al i])%list !! b = Some x) as Hold by (intros; by apply lookup_app_l_Some).
  assert ((acs h ++ [mk_ac true al i])%list !! a = Some (mk_ac true al i)) as Hnew by by apply list_lookup_middle.
  split; cbn [numConnections conns als acs registered]; fold a.
  - rewrite K1. lia.
  - intros al' l' Hl'. rewrite list_lookup_alter in Hl'. case_decide as Hal.
    + subst al'. rewrite Hl in Hl'. injection Hl' as <-. destruct (K2 _ _ Hl) as (H1 & H2 & H3 & H4). cbn.
      assert (a ∉ al_conns l) as Hfresh. { intros (j & Hj%lookup_lt_Some)%H4. unfold a in *. lia. }
      rewrite length_app. cbn. split_and!; [|lia|lia|].
      * apply NoDup_app. split_and!; [done| |apply NoDup_singleton]. intros x Hx ->%list_elem_of_singleton. done.
      * intros b [Hb| ->%list_elem_of_singleton]%elem_of_app; [|by eexists]. destruct (H4 b Hb) as [j Hj]. eauto.
    + destruct (K2 _ _ Hl') as (H1 & H2 & H3 & H4). split_and!; [done..|]. intros b Hb. destruct (H4 b Hb) as [j Hj]. eauto.
  - intros b e al' j Hb. apply lookup_app_Some in Hb as [Hb|[Hlen Hb]].
    + destruct (K3 _ _ _ _ Hb) as (-> & l' & x & Hl' & Hx & Hxb & Hiff). split; [done|].
      assert (i ≠ j) as Hij by congruence. rewrite list_lookup_insert_ne by done. rewrite list_lookup_alter.
      case_decide as Hal; [|by exists l', x]. rewrite Hal, Hl'. exists (add_conn a l'), x. do 3 (split; [done|]). cbn.
      rewrite elem_of_app, list_elem_of_singleton. assert (b ≠ a); [|naive_solver]. apply lookup_lt_Some in Hb. unfold a. lia.
    + apply list_lookup_singleton_Some in Hb as [Hz [= <- <- <-]]. assert (b = a) as -> by (unfold a; lia). split; [done|].
      exists (add_conn a l), (heard a c). rewrite list_lookup_alter_eq, Hl. rewrite list_lookup_insert_eq by (by eapply lookup_lt_Some).
      do 2 (split; [done|]). split; [cbn; by rewrite Hnil|]. cbn. rewrite elem_of_app, list_elem_of_singleton. naive_solver.
  - intros j x Hx. apply (shut_lookup i c (heard a c) h Hc) in Hx as [[-> ->]|[Hj Hx]].
    + cbn. destruct (K4 _ _ Hc) as [? _]. split; [done|right]. exists a, al. by rewrite Hnil.
    + destruct (K4 _ _ Hx) as [? [?|(b & al' & ? & ?)]]; split; [done|by left|done|right]. eauto.
  - intros j x Hx Hxn _. apply (shut_lookup i c (heard a c) h Hc) in Hx as [[-> ->]|[Hj Hx]].
    + cbn in Hxn. by rewrite Hnil in Hxn.
    + eapply K5; [done..|congruence].
Qed.

(** A filter that does what filters may do to a connection, but neither closes
    it nor registers listeners. *)
Definition well_behaved (m : SG connection FilterStatus) : Prop := ∀ c a c', m c = Ret (a, c') → cview c' = cview c.

Section handler.
  Context (chain : nat → list nat * list nat)
          (OnNewConnection OnData OnWrite : nat → SG connection FilterStatus) (pool_get : option IoBuffer) (fuel : nat).

Lemma calm_on_conn (m : SG connection FilterStatus) : well_behaved m → calm (on_conn m).
Proof.
  intros Hm v [c h] a s' Hs E. unfold on_conn in E. cbn [fst snd] in E. destruct (m c) as [[a0 c']|] eqn:Em; [|done].
  injection E as <- <-. rewrite <- Hs. unfold sview. cbn [fst snd]. by rewrite (Hm _ _ _ Em).
Qed.

Lemma new_server_conn_view r c : new_server_conn pool_get r = Ret c → cview c = (false, [], Raw).
Proof.
  unfold new_server_conn. destruct (raw_buf r); [|by intros [= <-]]. destruct (Take pool_get) as [b'|]; [|done]. rewrite bind_Ret.
  destruct (Write b' _) as [[b2 n]|]; [|done]. by intros [= <-].
Qed.

Lemma counted_new_conn h c0 : cview c0 = (false, [], Raw) → counted None h →
  counted (Some (length (conns h))) (set_conns (conns h ++ [c0]) h).
Proof.
  intros Hv [K1 K2 K3 K4 K5]. injection Hv as Hv1 Hv2 Hv3. split; cbn [numConnections als acs conns set_conns].
  - unfold live_conns. rewrite filter_app, filter_cons_False by (unfold live; by rewrite Hv1, Hv2). cbn. rewrite app_nil_r. exact K1.
  - done.
  - intros a e al i Ha. destruct (K3 _ _ _ _ Ha) as (-> & l & c & Hl & Hc & ?). split; [done|]. exists l, c. split; [done|]. split; [by apply lookup_app_l_Some|done].
  - intros i c [Hc|[_ [? [= <-]]%list_lookup_singleton_Some]]%lookup_app_Some; [by apply K4|]. split; [done|by left].
  - intros i c [Hc|[Hi [Hz [= <-]]%list_lookup_singleton_Some]]%lookup_app_Some Hnil Hne; [by eapply K5|]. exfalso. apply Hne. f_equal. lia.
Qed.

  Hypothesis (Hnew : ∀ f, well_behaved (OnNewConnection f)) (Hdata : ∀ f, well_behaved (OnData f)) (Hwrite : ∀ f, well_behaved (OnWrite f)).

Lemma calm_minor f : minor f → calm (mod_cn f).
Proof. intros Hf v. by apply calm_mods. Qed.
Lemma calm_bind {A B} (m : HC A) (f : A → HC B) : calm m → (∀ a, calm (f a)) → calm (m ≫= f).
Proof. intros Hm Hf v. apply keeps_bind; [apply Hm|intros; apply Hf]. Qed.
Lemma calm_init : calm (InitializeReadFilters (f_new OnNewConnection) (f_data OnData) fuel).
Proof.
  intros v. apply calm_InitializeReadFilters; intros; [by apply calm_mods|by apply calm_on_conn..].
Qed.
Lemma calm_filters l g : (∀ x, calm (g x)) → calm (for_each l g).
Proof. intros Hg v. apply calm_for_each. intros. apply Hg. Qed.
Lemma calm_read {A} (f : connection → A) : calm (cn f).
Proof. intros v. apply calm_cn. Qed.

Lemma get_al_inv al h l h' : get_al al h = Ret (l, h') → h' = h ∧ als h !! al = Some l.
Proof.
  unfold get_al. intros E. apply sg_bind_Ret_inv in E as (? & ? & [= <- <-] & E). destruct (als h !! al); [|done]. by injection E as -> ->.
Qed.

(** A connection that was just made, seen from its set-up. *)
Definition setting_up (al i : nat) (h : connHandler) : Prop :=
  counted (Some i) h ∧ is_Some (als h !! al) ∧ ∃ c, conns h !! i = Some c ∧ closed c = false ∧ connCallbacks c = [].

Lemma setting_up_view al i h h' : hview h' = hview h → setting_up al i h → setting_up al i h'.
Proof.
  intros Hv (Hk & [l Hl] & c & Hc & Hcl & Hcb). split; [by eapply counted_view|]. unfold hview in Hv. injection Hv as Hn Hls Ha Hac Hcs.
  destruct (lookup_view core_al (als h') (als h) al l) as (l' & Hl' & _); [done..|].
  destruct (lookup_view cview (conns h') (conns h) i c) as (c' & Hc' & Hcv); [done..|]. injection Hcv as H1 H2 H3.
  split; [by exists l'|]. exists c'. by rewrite <- H1, <- H2.
Qed.
Lemma setting_up_focus {A} al i (m : HC A) : calm m → keeps (setting_up al i) (focus i m).
Proof. intros Hm h a h' Hs E. eapply setting_up_view; [|exact Hs]. by eapply focus_calm. Qed.

Lemma newActiveConnection_run al i c h : conns h !! i = Some c →
  newActiveConnection al i h = Ret (length (acs h),
    mk_ch (numConnections h) (listeners h) (als h) (acs h ++ [mk_ac false al i]) (<[i := heard (length (acs h)) c]> (conns h)) (ch_logger h)).
Proof.
  intros Hc. unfold newActiveConnection. do 2 srun. assert (∀ c', <[i := c']> (conns h) !! i = Some c') as Hi.
  { intros c'. apply list_lookup_insert_eq. by eapply lookup_lt_Some. }
  do 3 (eapply sg_run; [unfold AddConnectionEventListener, AddBytesReadListener, AddBytesSentListener;
    apply focus_mod; first [exact Hc|cbn; rewrite ?list_insert_insert_eq; apply Hi]|]).
  unfold mret, SG_ret, set_conns. cbn. by rewrite !list_insert_insert_eq.
Qed.

Lemma OnNewConnection_counted al i h u h' : setting_up al i h →
  al_OnNewConnection chain OnNewConnection OnData fuel (mret tt) (mret tt) al i h = Ret (u, h') → counted None h'.
Proof.
  intros Hs E. unfold al_OnNewConnection in E. apply sg_bind_Ret_inv in E as (l0 & h0 & E0 & E).
  apply get_al_inv in E0 as [-> _].
  apply sg_bind_Ret_inv in E as (b & h1 & E1 & E). assert (setting_up al i h1) as H1.
  { eapply setting_up_focus; [|exact Hs|exact E1]. destruct (chain (al_factory l0)) as [rf wf].
    apply calm_bind; [apply calm_filters; intros; by apply calm_minor|intros _].
    apply calm_bind; [apply calm_filters; intros; by apply calm_minor|intros _]. apply calm_init. }
  apply sg_bind_Ret_inv in E as (? & h2 & E2 & E). assert (setting_up al i h2) as H2.
  { eapply (keeps_when _ (negb (al_disableConnIo l0))); [|exact H1|exact E2]. by apply setting_up_focus, calm_minor. }
  apply sg_bind_Ret_inv in E as (? & ? & [= <- <-] & E).
  apply sg_bind_Ret_inv in E as (rs & h3 & E3 & E). pose proof (setting_up_focus al i _ (calm_read _) _ _ _ H2 E3) as H3.
  apply sg_bind_Ret_inv in E as (ws & h4 & E4 & E). pose proof (setting_up_focus al i _ (calm_read _) _ _ _ H3 E4) as (Hk & [l Hl] & c & Hc & Hcl & Hcb).
  case_bool_decide as Hno; [eapply close_counted; [|exact Hk|exact E]; reflexivity|]. clear Hno.
  apply sg_bind_Ret_inv in E as (a & h5 & E5 & E). rewrite (newActiveConnection_run _ _ c) in E5 by done. injection E5 as <- <-.
  apply sg_bind_Ret_inv in E as (? & ? & [= <- <-] & E). do 3 (apply sg_bind_Ret_inv in E as (? & ? & [= <- <-] & E)). injection E as _ <-.
  match goal with |- counted None ?x => replace x with (registered al i c h4); [by eapply counted_registered|] end.
  unfold registered, set_numConnections, set_als, set_acs. cbn. f_equal.
  - by rewrite list_alter_alter_eq.
  - rewrite alter_app_r_alt by lia. by rewrite Nat.sub_diag.
Qed.

Lemma newConnection_counted al r : keeps (counted None) (newConnection chain OnNewConnection OnData pool_get fuel (mret tt) (mret tt) al r).
Proof.
  intros h u h' Hk E. unfold newConnection in E. apply sg_bind_Ret_inv in E as (? & ? & [= <- <-] & E).
  apply sg_bind_Ret_inv in E as (c0 & h0 & E0 & E). unfold sg_lift in E0. destruct (new_server_conn pool_get r) as [c|] eqn:Ec; [|done].
  injection E0 as <- <-. apply new_server_conn_view in Ec. apply sg_bind_Ret_inv in E as (? & ? & [= <- <-] & E).
  set (h1 := set_conns _ h) in E. apply sg_bind_Ret_inv in E as (l & h2 & E2 & E).
  apply get_al_inv in E2 as [-> Hl].
  apply sg_bind_Ret_inv in E as (? & h3 & E3 & E). eapply OnNewConnection_counted; [|exact E].
  eapply setting_up_focus; [|split_and!|exact E3].
  - unfold SetBufferLimit. case_bool_decide; [by apply calm_minor|intros v; apply keeps_ret].
  - by apply counted_new_conn.
  - by exists l.
  - injection Ec as H1 H2 H3. exists c. split; [by apply list_lookup_middle|done].
Qed.

Lemma accepted_counted al r : keeps (counted None) (accepted chain OnNewConnection OnData pool_get fuel al r).
Proof.
  intros h u h' Hk E. unfold accepted in E.
  destruct ((l ← get_al al; OnAccept chain OnNewConnection OnData pool_get fuel al (l_handOff (al_listener l)) r) h) as [[[] h1]|k] eqn:E1.
  - injection E as _ <-. revert E1. revert h Hk. assert (∀ b, keeps (counted None) (OnAccept chain OnNewConnection OnData pool_get fuel al b r)) as Ho.
    { intros b. unfold OnAccept, ContinueFilterChain. apply keeps_bind; [apply keeps_lift|]. intros [ip port].
      destruct b; [|apply newConnection_counted].
      unfold HandOffRestoredDestinationConnectionsHandler. apply keeps_bind; [apply keeps_get|]. intros h0.
      destruct (find_original ip port h0 None (listeners h0)) as [a b].
      apply keeps_bind; [destruct a; [apply newConnection_counted|apply keeps_ret]|intros _; destruct b; [apply newConnection_counted|apply keeps_ret]]. }
    intros h Hk E1. eapply (keeps_bind (counted None)); [|intros l; apply (Ho (l_handOff (al_listener l)))|exact Hk|exact E1].
    unfold get_al. apply keeps_bind; [by intros ? ? ? ? [= _ <-]|intros; apply keeps_deref].
  - destruct k; try done; by injection E as _ <-.
Qed.

(** ** Runs of a handler *)

(** A listener that is added, with the loggers there are by then. *)
Definition handler_adds (e : log_env) (lg : logs) (lc : ListenerConfig) (f : nat) : H unit := λ h,
  '(_, (_, h)) ← AddListener e lc f (lg, h); Ret (tt, h).
Lemma AddListener_Ret e lc f lg h i s : AddListener e lc f (lg, h) = Ret (i, s) →
  ∃ logger acls, open_logs e (ch_logger h) lc lg = Ret ((logger, acls), s.1) ∧ i = length (als h) ∧
    s.2 = set_listeners (listeners h ++ [length (als h)])
            (set_als (als h ++ [newActiveListener (NewListener lc) logger acls f (lc_disableConnIo lc)]) h).
Proof.
  unfold AddListener. destruct (open_logs e (ch_logger h) lc lg) as [[[logger acls] lg']|k]; [|done]. cbn.
  intros [= <- <-]. by exists logger, acls.
Qed.

Inductive hop :=
  | HAdd (e : log_env) (lg : logs) (lc : ListenerConfig) (factory : nat) | HRemove (tag : Z) | HStop (tag : Z) | HStopAll (close : bool)
  | HAccept (al : nat) (listen_ok : bool) (script : list (accept_result raw))
  | HClose (i : nat) (ty : ConnectionCloseType) (ev : ConnectionEvent)
  | HRead (i : nat) | HWriteLoop (i : nat) | HWrite (i : nat) (l : list (option IoBuffer)).
Definition run_hop (op : hop) : H unit :=
  match op with
  | HAdd e lg lc f => handler_adds e lg lc f
  | HRemove tag => RemoveListeners tag
  | HStop tag => StopListener tag
  | HStopAll close => StopListeners close
  | HAccept al ok script => run_listener chain OnNewConnection OnData pool_get fuel ok script al
  | HClose i ty ev => conn_close fuel i ty ev
  | HRead i => conn_read OnNewConnection OnData pool_get fuel i
  | HWriteLoop i => conn_write_loop fuel i
  | HWrite i l => conn_write OnWrite pool_get i l
  end.
Fixpoint run_hops (l : list hop) : H unit :=
  match l with [] => mret tt | op :: l => _ ← run_hop op; run_hops l end.
Definition closes_ok (op : hop) : Prop := match op with HClose _ _ ev => IsClose ev = true | _ => True end.

Lemma counted_setting ex h v : counted ex h → counted ex (set_listeners v h).
Proof. by intros []; split. Qed.
Lemma counted_lis al f : keeps (counted None) (mod_lis al f).
Proof.
  apply keeps_modify. intros h [K1 K2 K3 K4 K5]. split; cbn [numConnections als acs conns set_als]; try done.
  - intros al' l. rewrite list_lookup_alter. case_decide; [subst|apply K2]. destruct (als h !! al') as [l0|] eqn:Hl; [|done]. intros [= <-]. cbn. by apply K2.
  - intros a e al' i Ha. destruct (K3 _ _ _ _ Ha) as (-> & l & c & Hl & Hc & Hcb & Hiff). split; [done|]. rewrite list_lookup_alter.
    case_decide as Hal; [|by exists l, c]. rewrite Hal, Hl. eexists _, c. by split.
Qed.
Lemma keeps_each I l f : (∀ i, keeps I (f i)) → keeps I (each_listener l f).
Proof. intros Hf. induction l; cbn [each_listener]; [apply keeps_ret|]. by apply keeps_bind. Qed.
Lemma keeps_hd_get {A} I (f : connHandler → A) : keeps I (hd_get f).
Proof. by intros h a h' Hh [= _ <-]. Qed.
Lemma keeps_get_al I al : keeps I (get_al al).
Proof. unfold get_al. apply keeps_bind; [apply keeps_hd_get|intros; apply keeps_deref]. Qed.


Lemma kept_loops i : (∀ f, minor f → keeps (kept None i) (mod_cn f)) ∧ (∀ a n, keeps (kept None i) (count_sent a n)) ∧
  (∀ a n, keeps (kept None i) (count_read a n)) ∧ (∀ f, keeps (kept None i) (f_new OnNewConnection f)) ∧
  (∀ f, keeps (kept None i) (f_data OnData f)) ∧ (∀ f, keeps (kept None i) (f_write OnWrite f)) ∧
  (∀ fuel ty ev, IsClose ev = true → keeps (kept None i) (Close ac_OnEvent count_sent fuel ty ev)).
Proof.
  split_and!; intros; try (apply calm_kept; first [by apply calm_minor|apply calm_count_sent|apply calm_count_read|by apply calm_on_conn]).
  intros s a s' [Hi Hk]. apply close_kept; [done|]. split; [done|by apply counted_weaken].
Qed.

Lemma run_hop_counted op : closes_ok op → keeps (counted None) (run_hop op).
Proof.
  assert (∀ A i (m : HC A), keeps (kept None i) m → keeps (counted None) (focus i m)) as Hfocus.
  { intros A i m Hm h a h' Hk E. by eapply focus_kept. }
  destruct op; cbn [run_hop closes_ok]; intros Hok.
  - intros h a h' [K1 K2 K3 K4 K5] E. unfold handler_adds in E. destruct (AddListener e lc factory (lg, h)) as [[i s]|k] eqn:Ea; [|done].
    apply AddListener_Ret in Ea as (logger & acls & _ & _ & Es). destruct s as [lg' h1]. cbn in E, Es. subst h1. injection E as _ <-. apply counted_setting.
    split; cbn [numConnections als acs conns set_als]; try done.
    + intros al l [Hl|[_ [_ [= <-]]%list_lookup_singleton_Some]]%lookup_app_Some; [by apply K2|]. cbn. split_and!; [constructor|done..|]. by intros a0 ?%elem_of_nil.
    + intros b el al i0 Hb. destruct (K3 _ _ _ _ Hb) as (-> & l & c & Hl & ?). split; [done|]. exists l, c. split; [by apply lookup_app_l_Some|done].
  - apply keeps_bind; [apply keeps_get|intros h0]. apply keeps_bind; [apply keeps_lift|intros [arr len]]. apply keeps_modify. intros. by apply counted_setting.
  - apply keeps_bind; [apply keeps_hd_get|intros ls]. apply keeps_each. intros i. apply keeps_bind; [apply keeps_get_al|intros l]. apply keeps_when, counted_lis.
  - apply keeps_bind; [apply keeps_hd_get|intros ls]. apply keeps_each. intros i. apply counted_lis.
  - apply keeps_bind; [apply keeps_get_al|intros l]. apply keeps_bind; [apply keeps_lift|intros [[l' rs] on]]. apply keeps_bind; [apply counted_lis|intros _].
    induction rs as [|r rs IH]; cbn [accept_all]; [apply keeps_ret|]. apply keeps_bind; [apply accepted_counted|intros _; exact IH].
  - apply Hfocus, kept_loops; done.
  - destruct (kept_loops i) as (? & ? & ? & ? & ? & ? & ?). apply Hfocus, keeps_bind; [by apply calm_read_iteration|intros; apply keeps_ret].
  - destruct (kept_loops i) as (? & ? & ? & ? & ? & ? & ?). apply Hfocus, keeps_bind; [by apply calm_write_iteration|intros; apply keeps_ret].
  - destruct (kept_loops i) as (? & ? & ? & ? & ? & ? & ?). apply Hfocus, keeps_bind; [by apply calm_conn_Write|intros; apply keeps_ret].
Qed.

Lemma run_hops_counted l : Forall closes_ok l → keeps (counted None) (run_hops l).
Proof. induction 1; cbn [run_hops]; [apply keeps_ret|]. apply keeps_bind; [by apply run_hop_counted|intros _; done]. Qed.

Lemma counted_new lg : counted None (NewHandler lg).
Proof. split; cbn; try done; intros *; by rewrite lookup_nil. Qed.

(** C15. The number of connections is exact, as long as no connection closes
    while it is set up: its loops do nothing before the handler listens to it
    ([closed_before_registration] shows a closed connection that is counted for
    ever when they do), and filters neither close connections nor listen to
    them ([well_behaved]).  Then, whatever listeners come, go and accept, also
    on behalf of others, and whatever the connections read, write and are
    closed with a closing event ([closes_ok]), the handler's count is the number
    of its connections that are open; a listener lists exactly its open
    connections, its gauge counts them, and its total counts them and the ones
    destroyed. *)
Theorem connections_counted l lg h : Forall closes_ok l → run_hops l (NewHandler lg) = Ret (tt, h) →
  numConnections h = Z.of_nat (length (filter (λ c, closed c = false) (conns h))) ∧
  ∀ al x, als h !! al = Some x →
    NoDup (al_conns x) ∧ ls_active (al_stats x) = Z.of_nat (length (al_conns x)) ∧
    ls_total (al_stats x) = ls_active (al_stats x) + ls_destroy (al_stats x) ∧
    ∀ a, a ∈ al_conns x ↔ ∃ i c, acs h !! a = Some (mk_ac true al i) ∧ conns h !! i = Some c ∧ closed c = false.
Proof.
  intros Hl E. pose proof (run_hops_counted l Hl _ _ _ (counted_new lg) E) as [K1 K2 K3 K4 K5]. split.
  - rewrite K1. unfold live_conns. f_equal. f_equal. apply filter_ext_elem. intros c [i Hi]%list_elem_of_lookup.
    unfold live. destruct (closed c) eqn:Hcl; cbn; [done|]. rewrite bool_decide_eq_true. split; [done|]. intros _ Hnil. rewrite (K5 _ _ Hi Hnil) in Hcl; done.
  - intros al x Hx. destruct (K2 _ _ Hx) as (H1 & H2 & H3 & H4). split_and!; try done. intros a. split.
    + intros Ha. destruct (H4 _ Ha) as [i Hi]. destruct (K3 _ _ _ _ Hi) as (_ & x' & c & Hx' & Hc & _ & Hiff). exists i, c. split_and!; [done..|]. apply Hiff. congruence.
    + intros (i & c & Ha & Hc & Hcl). destruct (K3 _ _ _ _ Ha) as (_ & x' & c' & Hx' & Hc' & _ & Hiff). rewrite Hx in Hx'. injection Hx' as <-. apply Hiff. congruence.
Qed.
End handler.

(** Every file can be opened; one logger, of the standard error output. *)
Definition all_open : log_env := mk_log_env (λ _, None) (λ _, None) None (λ _ _, None) (λ _, None) Some.
Definition start_logs : logs := mk_logs [mk_logger "" DEBUG None (Some WStderr) (Some WStderr) false] [] None ∅ [].
Definition add_demo : ListenerConfig → nat → H unit := handler_adds all_open start_logs.
Abbreviation new_handler := (NewHandler (Some 0%nat)).
(** Filters that let everything pass. *)
Definition pass (f : nat) : SG connection FilterStatus := mret Continue.
Definition one_filter (factory : nat) : list nat * list nat := ([0%nat], []).
Definition lis_cfg (name addr : string) (tag : Z) (handOff : bool) : ListenerConfig :=
  mk_lc name "tcp" addr true tag 0 handOff false false "" INFO [].
Definition peer (k : socket) : raw := mk_raw k false true None None.
Definition silent : socket := mk_sock [] EOF [] [].

(** Two connections are accepted; the peer of the first ends it, the second is
    closed after it was written to. *)
Definition two_conns : list hop :=
  [HAdd all_open start_logs (lis_cfg "a" "1.2.3.4:80" 1 false) 0; HAccept 0 true [AConn (peer silent); AOther; AConn (peer silent); AConn (peer silent); ATimeout];
   HRead 0; HWrite 1 [Some (NewIoBufferString "bye")]; HClose 1 FlushWrite LocalClose; HClose 0 NoFlush LocalClose; HRemove 1].
Lemma connections_counted_witness :
  match run_hops one_filter pass pass pass None 8 two_conns new_handler with
  | Ret (_, h) => numConnections h = 1 ∧ numConnections h = Z.of_nat (length (filter (λ c, closed c = false) (conns h)))
  | Panic _ => False
  end.
Proof.
  destruct (run_hops one_filter pass pass pass None 8 two_conns new_handler) as [[[] h]|] eqn:E; [|vm_compute in E; discriminate].
  split; [by vm_compute in E; injection E as <-|].
  apply (connections_counted one_filter pass pass pass None 8) with (l := two_conns) (lg := Some 0%nat); [by intros f c a c' [= _ <-]..|repeat constructor|done].
Defined.

(** ** Connections that close while they are set up

    The loops of a connection run before the handler listens to it.  When the
    read loop finds the end of the connection first, the connection stays listed
    and counted, and closing it again changes nothing. *)
Definition accepted_one (started registered : H unit) : H unit :=
  _ ← add_demo (lis_cfg "a" "1.2.3.4:80" 1 false) 0;
  newConnection one_filter pass pass None 8 started registered 0 (peer silent).
Example closed_before_registration :
  match accepted_one (conn_read pass pass None 8 0) (mret tt) new_handler with
  | Ret (_, h) => numConnections h = 1 ∧ closed <$> conns h = [true] ∧ al_conns <$> als h = [[0%nat]] ∧
                  conn_close 8 0 NoFlush LocalClose h = Ret (tt, h)
  | Panic _ => False
  end.
Proof. vm_compute. done. Qed.

(** A little later the close panics: the element of the list is not there yet. *)
Example closed_before_listed : accepted_one (mret tt) (conn_read pass pass None 8 0) new_handler = Panic NilDeref.
Proof. vm_compute. done. Qed.

(** The same without a race: a filter that refuses a new connection closes it
    before the handler listens. *)
Definition refuse (f : nat) : SG connection FilterStatus := λ c,
  match Close (λ _ _, mret tt) (λ _ _, mret tt) 8 NoFlush LocalClose (c, tt) with
  | Ret (_, (c', _)) => Ret (StopIteration, c')
  | Panic k => Panic k
  end.
Example refused_connection_counted :
  match (_ ← add_demo (lis_cfg "a" "1.2.3.4:80" 1 false) 0;
         run_listener one_filter refuse pass None 8 true [AConn (peer silent)] 0) new_handler with
  | Ret (_, h) => numConnections h = 1 ∧ closed <$> conns h = [true]
  | Panic _ => False
  end.
Proof. vm_compute. done. Qed.

(** ** The slice of listeners *)

Lemma remove_none tag h n i arr len : (i + n ≤ length arr)%nat →
  (∀ j x, (i ≤ j)%nat → arr !! j = Some x → tag_of h x ≠ Some tag) → remove_listeners tag h n i arr len = Ret (arr, len).
Proof.
  revert i. induction n as [|n IH]; intros i Hlen Hno; cbn [remove_listeners]; [done|].
  destruct (lookup_lt_is_Some_2 arr i) as [x Hx]; [lia|]. rewrite Hx, bool_decide_false by (by eapply Hno; [|exact Hx]).
  apply IH; [lia|]. intros j y Hj. apply Hno. lia.
Qed.

Lemma remove_skip tag h n pre l arr len : (∀ x, x ∈ l → tag_of h x ≠ Some tag) →
  remove_listeners tag h (length l + n) (length pre) (pre ++ l ++ arr) len =
  remove_listeners tag h n (length pre + length l) (pre ++ l ++ arr) len.
Proof.
  revert pre. induction l as [|x l IH]; intros pre Hno; cbn [length app Nat.add]; [by rewrite Nat.add_0_r|].
  cbn [remove_listeners]. rewrite list_lookup_middle by done. rewrite bool_decide_false by (apply Hno; by constructor).
  specialize (IH (pre ++ [x])). rewrite length_app, <- !app_assoc in IH. cbn in IH.
  rewrite Nat.add_1_r in IH. rewrite IH by (intros; apply Hno; by constructor). by rewrite Nat.add_succ_r.
Qed.

(** Removing the only listener with a tag removes it and nothing else. *)
Theorem RemoveListeners_only tag h l1 l l2 : listeners h = (l1 ++ l :: l2)%list → tag_of h l = Some tag →
  (∀ x, x ∈ (l1 ++ l2)%list → tag_of h x ≠ Some tag) →
  RemoveListeners tag h = Ret (tt, set_listeners (l1 ++ l2) h).
Proof.
  intros Hls Hl Hno. unfold RemoveListeners. srun. rewrite Hls.
  assert (remove_listeners tag h (length (l1 ++ l :: l2)) 0 (l1 ++ l :: l2) (length (l1 ++ l :: l2)) =
    Ret ((l1 ++ l2 ++ [default l (last l2)])%list, length (l1 ++ l2))) as E.
  { rewrite length_app at 1. rewrite (remove_skip tag h _ [] l1 (l :: l2)) by (intros x Hx; apply Hno, elem_of_app; by left).
    cbn [length Nat.add remove_listeners app]. rewrite list_lookup_middle, bool_decide_true by done.
    rewrite bool_decide_true by (rewrite length_app; cbn; lia).
    rewrite (take_ge (l1 ++ l :: l2) (length (l1 ++ l :: l2))), take_app_length by done.
    replace (drop (S (length l1)) (l1 ++ l :: l2)) with l2 by (by rewrite cons_middle, app_assoc, drop_app_length' by (rewrite length_app; cbn; lia)).
    replace (length (l1 ++ l :: l2) - 1)%nat with (length (l1 ++ l2)) by (rewrite !length_app; cbn; lia).
    replace (drop (length (l1 ++ l2)) (l1 ++ l :: l2)) with [default l (last l2)]; [apply remove_none|].
    - rewrite !length_app. cbn. lia.
    - intros j x Hj Hx. rewrite app_assoc in Hx. apply lookup_app_Some in Hx as [Hx|[_ Hx]]; [by eapply Hno, list_elem_of_lookup_2|].
      apply list_lookup_singleton_Some in Hx as [Hz <-]. destruct l2 as [|y l2 _] using rev_ind; [rewrite app_nil_r in Hz; lia|].
      rewrite last_snoc. apply Hno. cbn. rewrite !elem_of_app. right. right. by apply list_elem_of_singleton.
    - destruct l2 as [|y l2 _] using rev_ind; [by rewrite app_nil_r, drop_app_length|]. rewrite last_snoc. cbn.
      rewrite app_comm_cons, (app_assoc l1 (l :: l2)). rewrite drop_app_length'; [done|]. rewrite !length_app. cbn. lia. }
  eapply sg_run; [unfold sg_lift; by rewrite E|]. cbn [fst snd]. unfold sg_modify. by rewrite app_assoc, take_app_length.
Qed.

(** No configuration sets a tag, so that listeners share one: removing them
    reads beyond the shortened slice. *)
Example remove_same_tag_panics :
  (_ ← add_demo (lis_cfg "a" "1.2.3.4:80" 0 false) 0; _ ← add_demo (lis_cfg "b" "1.2.3.4:81" 0 false) 0;
   RemoveListeners 0) new_handler = Panic SliceBounds.
Proof. vm_compute. done. Qed.

(** ** Handing over to the original destination *)

(** A listener of the address gets a redirected connection, the listener of all
    addresses gets it if there is none; when it comes first in the slice and
    there is one, both get it, and two connections read from one socket. *)
Definition redirected : raw := mk_raw silent false true (Some [0; 0; 31; 144; 10; 0; 0; 9; 0; 0; 0; 0; 0; 0; 0; 0]) None.
Definition redirect (addrs : list string) : H unit :=
  _ ← add_demo (lis_cfg "in" "127.0.0.1:15001" 0 true) 0;
  _ ← (fix add l := match l with [] => mret tt | a :: l => _ ← add_demo (lis_cfg a a 0 false) 0; add l end) addrs;
  run_listener one_filter pass pass None 8 true [AConn redirected] 0.
Example handed_to_address :
  match redirect ["10.0.0.9:8080"; "0.0.0.0:8080"] new_handler with
  | Ret (_, h) => al_conns <$> als h = [[]; [0%nat]; []] | Panic _ => False end.
Proof. vm_compute. done. Qed.
Example handed_to_all :
  match redirect ["10.0.0.9:81"; "0.0.0.0:8080"] new_handler with
  | Ret (_, h) => al_conns <$> als h = [[]; []; [0%nat]] | Panic _ => False end.
Proof. vm_compute. done. Qed.
Example handed_over_twice :
  match redirect ["0.0.0.0:8080"; "10.0.0.9:8080"] new_handler with
  | Ret (_, h) => al_conns <$> als h = [[]; [1%nat]; [0%nat]] ∧ numConnections h = 2 | Panic _ => False end.
Proof. vm_compute. done. Qed.

(** A listener of an IPv6 address is never found by it: its address is cut at the
    first colon. *)
Example ipv6_address : al_listenIP (newActiveListener (NewListener (lis_cfg "a" "[::1]:80" 0 false)) 0 [] 0 false) = "["%string.
Proof. vm_compute. done. Qed.

(** ** Logs that cannot be opened *)

(** The listener's own log: the handler writes that it failed and adds the
    listener, whose first line in it panics. *)
Definition env_without (path : string) : log_env :=
  mk_log_env (λ n, if bool_decide (n = path) then Some "permission denied"%string else None) (λ _, None) None (λ _ _, None) (λ _, None) Some.
Definition with_access_log (path format : string) : ListenerConfig :=
  mk_lc "a" "tcp" "1.2.3.4:80" true 1 0 false false false "a.log" INFO [mk_alc path format].
Example listener_log_failed :
  match AddListener (env_without "a.log") (with_access_log "b.log" "") 0 (start_logs, new_handler) with
  | Ret (_, (lg, h)) =>
    al_logger <$> als h = [1%nat] ∧ last (lg_written lg) = Some (WStdout, "<nil>"%string) ∧
    (WStderr, "[Fatal]initialize listener logger failed : permission denied"%string) ∈ lg_written lg ∧ Infof 1 "started" lg = Panic NilDeref
  | Panic _ => False
  end.
Proof. vm_compute. split_and!; [done|done|right; by left|done]. Qed.
(** An access log: the process ends. *)
Example access_log_failed :
  AddListener (env_without "b.log") (with_access_log "b.log" "") 0 (start_logs, new_handler) = Panic Exit.
Proof. vm_compute. done. Qed.
(** A format with two spaces in a row. *)
Example access_log_malformed :
  AddListener all_open (with_access_log "b.log" "%StartTime%  %Duration%") 0 (start_logs, new_handler) = Panic SliceBounds.
Proof. vm_compute. done. Qed.
