(* ===== verification/Transfer.v ===== *)
(** * Handing connections over to a new process: pkg/network/transfer.go

    When a process is replaced, the read loop of each of its connections sends the
    descriptor and the bytes it has read but not used to the new process, over a
    Unix socket, and gets the id of the new connection back; from then on the
    write loop sends what is written to the connection to the new process.

    A Unix socket is a [socket] of [Connection]; descriptors travel beside the
    bytes.  The new process is the handler of [Handler] with the map of the
    connections it took over; its server gives each transfer a goroutine of its own, in
    any order ([transfer_step]).  A handler works on its own transfer, and on what
    handlers share only at its end, so it is one step.  Dialling, the files of sockets and the connections
    behind descriptors are parameters. *)

From S2P Require Import Prelude Strconv IoBuffer StateGo Connection Handler.

Local Open Scope Z_scope.

Definition transferErr : Z := 0.
Definition transferNotify : Z := 1.

(** ** Messages: length and connection id, four bytes each, then the data *)

Definition transferBuildHead (size id : Z) : bytes := be_put 4 size ++ be_put 4 id.

(** The socket, what is left of the buffer, and whether it was sent. *)
Definition transferSendIoBuffer (uc : socket) (buf : IoBuffer) : Go (socket * IoBuffer * bool) :=
  if bool_decide (Len buf = 0) then Ret (uc, buf, true)
  else '(uc, buf, _, err) ← WriteTo sock_write uc buf; Ret (uc, buf, bool_decide (err = None)).

Definition transferSendMsg (uc : socket) (buf : bytes) : Go (socket * bool) :=
  match buf with
  | [] => Ret (uc, true)
  | _ => '(uc, _, ok) ← transferSendIoBuffer uc (NewIoBufferBytes (slice_of buf) false); Ret (uc, ok)
  end.

Definition transferSendHead (uc : socket) (size id : Z) : Go (socket * bool) := transferSendMsg uc (transferBuildHead size id).

Definition transferSendData (uc : socket) (id : Z) (buf : IoBuffer) : Go (socket * IoBuffer * bool) :=
  '(uc, ok) ← transferSendHead uc (to_uint32 (Len buf)) (to_uint32 id);
  if ok : bool then transferSendIoBuffer uc buf else Ret (uc, buf, false).

Definition transferSendID (uc : socket) (id : Z) : Go (socket * bool) := transferSendMsg uc (be_put 4 (to_uint32 id)).

(** Reads until [size] bytes are there; a read for every piece that comes in is
    enough. *)
Fixpoint recv_loop (fuel : nat) (uc : socket) (size : Z) (got : bytes) : Go (socket * option bytes) :=
  match fuel with
  | O => Panic OutOfFuel
  | S fuel =>
    let '(uc, d, err) := sock_read uc (size - Z.of_nat (length got)) in
    match err with
    | Some _ => Ret (uc, None)
    | None => let got := (got ++ d)%list in
              if bool_decide (Z.of_nat (length got) = size) then Ret (uc, Some got) else recv_loop fuel uc size got
    end
  end.
Definition transferRecvMsg (uc : socket) (size : Z) : Go (socket * option bytes) :=
  if bool_decide (size = 0) then Ret (uc, Some []) else recv_loop (S (length (sk_in uc))) uc size [].

Definition transferRecvHead (uc : socket) : Go (socket * option (Z * Z)) :=
  '(uc, o) ← transferRecvMsg uc 8;
  Ret (uc, match o with Some b => Some (be_get (take 4 b), be_get (drop 4 b)) | None => None end).

Definition transferRecvData (uc : socket) : Go (socket * option (Z * bytes)) :=
  '(uc, o) ← transferRecvHead uc;
  match o with
  | None => Ret (uc, None)
  | Some (size, id) =>
    '(uc, o) ← transferRecvMsg uc size;
    Ret (uc, match o with Some buf => Some (id, buf) | None => None end)
  end.

Definition transferRecvID (uc : socket) : Go (socket * Z) :=
  '(uc, o) ← transferRecvMsg uc 4;
  Ret (uc, match o with Some b => be_get b | None => transferErr end).

(** ** The type of a transfer, with the descriptor

    The bytes, and the control messages with their descriptors. *)
Record unix := mk_unix { u_sock : socket; u_oob : list (list nat) }.

(** Handing over the read side sends the byte 0 with a descriptor, the write side
    the byte 1. *)
Definition transferSendFD (uc : unix) (fd : option nat) : Go (unix * bool) :=
  match fd with
  | None => Ret (uc, false)
  | Some fd =>
    let '(k, n, err) := sock_write (u_sock uc) [byte_of_Z 0] in
    Ret (mk_unix k [[fd]], bool_decide (err = None ∧ n = 1))
  end.
Definition transferSendType (uc : unix) (conn : option (option nat)) : Go (unix * bool) :=
  match conn with
  | None => '(k, ok) ← transferSendMsg (u_sock uc) [byte_of_Z 1]; Ret (mk_unix k (u_oob uc), ok)
  | Some fd => transferSendFD uc fd
  end.

Inductive recv_type (C : Type) := RecvErr | RecvWrite | RecvRead (conn : C).
Arguments RecvErr {_}.
Arguments RecvWrite {_}.
Arguments RecvRead {_} _.

(** [FileConn]: the connection behind a descriptor. *)
Definition transferRecvFD {C} (FileConn : nat → option C) (oob : list (list nat)) : recv_type C :=
  match oob with
  | [[fd]] => match FileConn fd with Some c => RecvRead c | None => RecvErr end
  | _ => RecvErr
  end.
Definition transferRecvType {C} (FileConn : nat → option C) (uc : unix) : unix * recv_type C :=
  let '(k, d, err) := sock_read (u_sock uc) 1 in
  (mk_unix k (u_oob uc),
   match err with
   | Some _ => RecvErr
   | None => if bool_decide (default (byte_of_Z 0) (head d) = byte_of_Z 1) then RecvWrite else transferRecvFD FileConn (u_oob uc)
   end).

(** ** The old process *)

(** [fd]: the file of the connection, when it is a TCP connection that has one.
    The id is 0 when something failed. *)
Definition transferRead (dial : bool) (uc : unix) (fd : option nat) (buf : IoBuffer) : Go (unix * IoBuffer * Z) :=
  if negb dial then Ret (uc, buf, transferErr)
  else
  '(uc, ok) ← transferSendType uc (Some fd);
  if negb ok then Ret (uc, buf, transferErr)
  else
  '(k, buf, ok) ← transferSendData (u_sock uc) 0 buf;
  if negb ok then Ret (mk_unix k (u_oob uc), buf, transferErr)
  else
  '(k, id) ← transferRecvID k;
  Ret (mk_unix k (u_oob uc), buf, id).

Definition transferWrite (dial : bool) (uc : unix) (buf : IoBuffer) (id : Z) : Go (unix * IoBuffer) :=
  if negb dial then Ret (uc, buf)
  else
  '(uc, ok) ← transferSendType uc None;
  if negb ok then Ret (uc, buf)
  else
  '(k, buf, _) ← transferSendData (u_sock uc) id buf;
  Ret (mk_unix k (u_oob uc), buf).

(** The end of the read loop of a connection ([startReadLoop] from [transfer] on):
    the id that the write loop is told.  Nothing reads the connection any more,
    whatever the id. *)
Definition transfer_reading {W} (dial : bool) (uc : unix) (fd : option nat) : SG (connection * W) (unix * Z) :=
  o ← cn readBuffer;
  b ← sg_deref o;
  '(uc, b, id) ← sg_lift (transferRead dial uc fd b);
  _ ← mod_cn (set_readBuffer (Some b));
  mret (uc, id).

(** An iteration of the write loop of a connection that was handed over. *)
Definition transfer_writing {W} (dial : bool) (uc : unix) (id : Z) : SG (connection * W) unix :=
  ch ← cn writeBufferChan;
  if negb ch then mret uc
  else
  _ ← mod_cn (set_writeBufferChan false);
  n ← cn writeBufLen;
  if bool_decide (n = 0) then mret uc
  else
  o ← cn writeBuffer;
  b ← sg_deref o;
  '(uc, b) ← sg_lift (transferWrite dial uc b id);
  _ ← mod_cn (set_writeBuffer (Some b));
  mret uc.

(** ** The new process

    [transferMap] finds connections by their ids; [idCounter] is the last id. *)
Record newproc := mk_np { np_handler : connHandler; transferMap : gmap Z nat; idCounter : Z }.

Section newproc.
  Context (chain : nat → list nat * list nat)
          (OnNewConnection OnData OnWrite : nat → SG connection FilterStatus) (pool_get : option IoBuffer) (fuel : nat).
(** A connection behind a descriptor, and its local port. *)
  Context (FileConn : nat → option (socket * Z)).

Definition np_run {A} (m : H A) : SG newproc A := λ n,
  match m (np_handler n) with
  | Ret (a, h) => Ret (a, mk_np h (transferMap n) (idCounter n))
  | Panic k => Panic k
  end.

Definition transferFindConnection (m : gmap Z nat) (id : Z) : option nat := m !! id.

(** Only listeners of all addresses are looked for. *)
Definition find_wildcard (port : Z) (h : connHandler) : option nat :=
  match findActiveListenerByAddress "tcp" ("[::]:" +:+ FormatUint port) h with
  | Some l => Some l
  | None => findActiveListenerByAddress "tcp" ("0.0.0.0:" +:+ FormatUint port) h
  end.

Definition transferNewConn (conn : socket) (port : Z) (buf : bytes) : SG newproc (option Z) :=
  n ← sg_get;
  match find_wildcard port (np_handler n) with
  | None => mret None
  | Some al =>
    let i := length (conns (np_handler n)) in
    let id := to_uint64 (idCounter n + 1) in
    _ ← np_run (OnAccept chain OnNewConnection OnData pool_get fuel al false (mk_raw conn false true None (Some buf)));
    _ ← sg_modify (λ n, mk_np (np_handler n) (<[id := i]> (transferMap n)) id);
    mret (Some id)
  end.

Definition transferWriteBuffer (i : nat) (buf : bytes) : SG newproc unit :=
  np_run (conn_write OnWrite pool_get i [Some (NewIoBufferBytes (slice_of buf) false)]).

(** What was received is used even if receiving failed. *)
Definition transferHandler (uc : unix) : SG newproc unix :=
  let '(uc, t) := transferRecvType FileConn uc in
  match t with
  | RecvErr => mret uc
  | _ =>
    '(k, d) ← sg_lift (transferRecvData (u_sock uc));
    let '(id, buf) := default (0, []) d in
    match t with
    | RecvRead (conn, port) =>
      o ← transferNewConn conn port buf;
      '(k, _) ← sg_lift (transferSendID k (default transferErr o));
      mret (mk_unix k (u_oob uc))
    | _ =>
      n ← sg_get;
      _ ← match transferFindConnection (transferMap n) (to_uint64 id) with
          | None => mret tt
          | Some i => transferWriteBuffer i buf
          end;
      mret (mk_unix k (u_oob uc))
    end
  end.

(** The server: transfers arrive in the order in which the old process dialled, and each
    gets a goroutine of its own, of which any may run next; nobody waits for one.
    [ts_done] keeps the order in which they ran. *)
Record transfer_server := mk_ts { ts_incoming : list unix; ts_running : list unix; ts_done : list unix; ts_proc : newproc }.
Inductive transfer_step : transfer_server → transfer_server → Prop :=
  | step_accept u incoming running done n :
      transfer_step (mk_ts (u :: incoming) running done n) (mk_ts incoming (running ++ [u]) done n)
  | step_handler u u' l1 l2 incoming done n n' : transferHandler u n = Ret (u', n') →
      transfer_step (mk_ts incoming (l1 ++ u :: l2) done n) (mk_ts incoming (l1 ++ l2) (done ++ [u]) n').
End newproc.
