(* ===== verification/TransferProps.v ===== *)
(** * Theorems on [Transfer]

    What one side sends is what the other side receives, however the stream is
    cut into pieces; a connection that is handed over keeps the bytes it had read
    and gets every write to it whole and once, in the order in which the new process
    handles them. *)

From S2P Require Import Prelude Strconv IoBuffer StateGo Connection ConnectionProps Handler HandlerProps Transfer.

Local Open Scope Z_scope.

(** ** Receiving *)

(** The socket after reading from it: less to read, nothing else changed. *)
Definition after_read (k k' : socket) (rest : bytes) : Prop :=
  concat (sk_in k') = rest ∧ sk_sent k' = sk_sent k ∧ sk_writes k' = sk_writes k.

Lemma sock_read_cons k c cs n : sk_in k = c :: cs → sock_read k n =
  (mk_sock (if bool_decide (length c ≤ Z.to_nat n)%nat then cs else drop (Z.to_nat n) c :: cs) (sk_end k) (sk_writes k) (sk_sent k),
   take (Z.to_nat n) c, None).
Proof. intros E. unfold sock_read. by rewrite E. Qed.

Lemma recv_loop_exact fuel k size got l rest : concat (sk_in k) = (l ++ rest)%list → l ≠ [] →
  size = Z.of_nat (length got + length l) → (length (sk_in k) < fuel)%nat →
  ∃ k', recv_loop fuel k size got = Ret (k', Some (got ++ l)%list) ∧ after_read k k' rest.
Proof.
  revert k got l. induction fuel as [|fuel IH]; intros k got l Hin Hl Hsz Hf; [lia|]. cbn [recv_loop].
  destruct (sk_in k) as [|c cs] eqn:Ek; [by destruct l|]. rewrite (sock_read_cons _ _ _ _ Ek). cbn [concat] in Hin.
  replace (Z.to_nat (size - Z.of_nat (length got))) with (length l) by lia. destruct (decide (length c ≤ length l)%nat) as [Hc|Hc].
  - rewrite take_ge by done. apply app_eq_inv in Hin as [(x & -> & Hr)|(x & -> & Hr)].
    + rewrite length_app in Hc. assert (x = []) as -> by (destruct x; [done|cbn in Hc; lia]). rewrite app_nil_r in *. cbn in Hr.
      rewrite !bool_decide_true by (rewrite ?length_app; lia). eexists. split; [done|]. by split.
    + rewrite length_app in Hc, Hsz. rewrite (bool_decide_true (length c ≤ _)%nat) by (rewrite length_app; lia). destruct x as [|y x].
      * rewrite app_nil_r in *. cbn in *. rewrite bool_decide_true by (rewrite length_app; lia). eexists. split; [done|]. by split.
      * rewrite bool_decide_false by (rewrite length_app; cbn in *; lia).
        destruct (IH (mk_sock cs (sk_end k) (sk_writes k) (sk_sent k)) (got ++ c)%list (y :: x)) as (k' & E & ? & ? & ?);
          [done|done|rewrite length_app; cbn in *; lia|cbn in *; lia|].
        exists k'. rewrite E, <- app_assoc. done.
  - apply app_eq_inv in Hin as [(x & -> & Hr)|(x & -> & Hr)]; rewrite length_app in Hc; [|lia].
    rewrite take_app_length. rewrite (bool_decide_true (Z.of_nat _ = _)) by (rewrite length_app; lia).
    rewrite bool_decide_false, drop_app_length by (rewrite length_app; lia).
    eexists. split; [done|]. split; [cbn; by rewrite Hr|done].
Qed.

Lemma recv_loop_short fuel k size got : Z.of_nat (length got + length (concat (sk_in k))) < size → (length (sk_in k) < fuel)%nat →
  ∃ k', recv_loop fuel k size got = Ret (k', None).
Proof.
  revert k got. induction fuel as [|fuel IH]; intros k got Hsz Hf; [lia|]. cbn [recv_loop].
  destruct (sk_in k) as [|c cs] eqn:Ek; [unfold sock_read; rewrite Ek; by eexists|]. rewrite (sock_read_cons _ _ _ _ Ek). cbn in Hsz. rewrite length_app in Hsz.
  rewrite take_ge by lia. rewrite bool_decide_false by (rewrite length_app; lia). rewrite bool_decide_true by lia.
  apply IH; cbn in *; [rewrite length_app|]; lia.
Qed.

Lemma transferRecvMsg_exact k l rest : concat (sk_in k) = (l ++ rest)%list →
  ∃ k', transferRecvMsg k (Z.of_nat (length l)) = Ret (k', Some l) ∧ after_read k k' rest.
Proof.
  intros Hin. unfold transferRecvMsg. destruct l as [|x l]; [exists k; by split_and!|]. rewrite bool_decide_false by (cbn; lia).
  destruct (recv_loop_exact (S (length (sk_in k))) k (Z.of_nat (length (x :: l))) [] (x :: l) rest) as (k' & E & ?); [done|done|done|lia|]. by exists k'.
Qed.

(** Receiving always ends. *)
Lemma transferRecvMsg_total k n : 0 ≤ n → ∃ k' o, transferRecvMsg k n = Ret (k', o).
Proof.
  intros Hn. destruct (decide (n ≤ Z.of_nat (length (concat (sk_in k))))) as [Hle|Hlt].
  - destruct (transferRecvMsg_exact k (take (Z.to_nat n) (concat (sk_in k))) (drop (Z.to_nat n) (concat (sk_in k)))) as (k' & E & _); [by rewrite take_drop|].
    rewrite length_take, Nat.min_l, Z2Nat.id in E by lia. by eexists _, _.
  - unfold transferRecvMsg. case_bool_decide; [by eexists _, _|]. destruct (recv_loop_short (S (length (sk_in k))) k n []) as [k' E]; [cbn; lia|lia|]. by eexists _, _.
Qed.

(** ** Sending over a socket that takes everything *)

Definition sent (k : socket) (l : bytes) : socket := mk_sock (sk_in k) (sk_end k) [] (sk_sent k ++ l).

Lemma send_buffer k b : wf b → sk_writes k = [] →
  ∃ b', transferSendIoBuffer k b = Ret (sent k (contents b), b', true) ∧ wf b' ∧ contents b' = [].
Proof.
  intros Hb Hk. unfold transferSendIoBuffer. case_bool_decide as H0.
  { exists b. rewrite (len0_contents b Hb H0). unfold sent. rewrite app_nil_r, <- Hk. by destruct k. }
  destruct (WriteTo_history k b Hb) as (k' & b' & m & e & -> & Hb' & _ & Hrun). rewrite bind_Ret. exists b'.
  assert (∀ q, sock_write k q = (sent k q, Z.of_nat (length q), None)) as Hw.
  { intros q. unfold sock_write. rewrite Hk. cbn. by rewrite firstn_all. }
  assert (k' = sent k (contents b) ∧ contents b' = [] ∧ e = None) as (-> & ? & ->); [|by split_and!].
  inversion Hrun as [|k0 q0 k1 m0 e0 Hq E0|k0 q0 k1 Hq E0|k0 q0 k1 Hq E0|k0 q0 k1 m1 k2 r0 e0 Hq E0 Hm Hr]; subst.
  - pose proof (length_contents b Hb). exfalso. apply H0. replace (contents b) with ([] : bytes) in *. cbn in *. lia.
  - rewrite Hw in E0. done.
  - rewrite Hw in E0. injection E0 as _ Hz. destruct (contents b); [done|]. cbn in Hz. lia.
  - rewrite Hw in E0. by injection E0 as <-.
  - rewrite Hw in E0. injection E0 as _ <-. lia.
Qed.

Lemma bytes_buffer l : wf (NewIoBufferBytes (slice_of l) false) ∧ contents (NewIoBufferBytes (slice_of l) false) = l.
Proof. split; [|by unfold contents]. unfold wf, NewIoBufferBytes, s_len, slice_of. cbn. lia. Qed.

Lemma send_msg k l : sk_writes k = [] → transferSendMsg k l = Ret (sent k l, true).
Proof.
  intros Hk. destruct l as [|x l]; cbn [transferSendMsg].
  { unfold sent. rewrite app_nil_r, <- Hk. by destruct k. }
  destruct (bytes_buffer (x :: l)) as [Hw Hc]. destruct (send_buffer k _ Hw Hk) as (b' & -> & _). by rewrite bind_Ret, Hc.
Qed.

(** ** Frames *)

Definition frame (id : Z) (l : bytes) : bytes := transferBuildHead (to_uint32 (Z.of_nat (length l))) (to_uint32 id) ++ l.

Lemma sent_sent k l l' : sent (sent k l) l' = sent k (l ++ l').
Proof. unfold sent. cbn. by rewrite <- app_assoc. Qed.

Lemma send_data k id b : wf b → sk_writes k = [] →
  ∃ b', transferSendData k id b = Ret (sent k (frame id (contents b)), b', true) ∧ wf b' ∧ contents b' = [].
Proof.
  intros Hb Hk. unfold transferSendData, transferSendHead. rewrite send_msg, bind_Ret by done.
  destruct (send_buffer (sent k (transferBuildHead (to_uint32 (Len b)) (to_uint32 id))) b Hb) as (b' & -> & ?); [done|].
  exists b'. rewrite sent_sent. unfold frame. by rewrite (length_contents b Hb).
Qed.

Lemma after_read_trans k k1 k2 r1 r2 : after_read k k1 r1 → after_read k1 k2 r2 → after_read k k2 r2.
Proof. intros (? & ? & ?) (? & ? & ?). split_and!; congruence. Qed.

(** What a frame carries comes out of it, and nothing of what follows. *)
Lemma recv_data k id l rest : Z.of_nat (length l) < 2 ^ 32 → 0 ≤ id < 2 ^ 32 → concat (sk_in k) = (frame id l ++ rest)%list →
  ∃ k', transferRecvData k = Ret (k', Some (id, l)) ∧ after_read k k' rest.
Proof.
  intros Hl Hid Hin. unfold frame in Hin. rewrite <- app_assoc in Hin. set (size := to_uint32 (Z.of_nat (length l))) in Hin.
  destruct (transferRecvMsg_exact k _ _ Hin) as (k1 & E1 & H1). unfold transferRecvData, transferRecvHead.
  assert (Z.of_nat (length (transferBuildHead size (to_uint32 id))) = 8) as E8 by (unfold transferBuildHead; by rewrite length_app, !length_be_put).
  rewrite E8 in E1. rewrite E1, !bind_Ret.
  assert (be_get (take 4 (transferBuildHead size (to_uint32 id))) = Z.of_nat (length l)) as ->.
  { unfold transferBuildHead. rewrite take_app_length' by (by rewrite length_be_put). rewrite be_get_put. unfold size, to_uint32, uwrap. change (256 ^ Z.of_nat 4) with (2 ^ 32). rewrite Z.mod_mod by lia. apply Z.mod_small. lia. }
  assert (be_get (drop 4 (transferBuildHead size (to_uint32 id))) = id) as ->.
  { unfold transferBuildHead. rewrite drop_app_length' by (by rewrite length_be_put). rewrite be_get_put. unfold to_uint32, uwrap. change (256 ^ Z.of_nat 4) with (2 ^ 32). rewrite Z.mod_mod by lia. by apply Z.mod_small. }
  destruct (transferRecvMsg_exact k1 l rest) as (k2 & -> & H2); [by destruct H1|]. rewrite bind_Ret. exists k2. split; [done|]. by eapply after_read_trans.
Qed.

Lemma recv_id k id rest : 0 ≤ id < 2 ^ 32 → concat (sk_in k) = (be_put 4 (to_uint32 id) ++ rest)%list →
  ∃ k', transferRecvID k = Ret (k', id) ∧ after_read k k' rest.
Proof.
  intros Hid Hin. unfold transferRecvID. destruct (transferRecvMsg_exact k _ _ Hin) as (k' & E & ?). rewrite length_be_put in E. change (Z.of_nat 4) with 4 in E.
  rewrite E, bind_Ret. exists k'. split; [|done]. rewrite be_get_put. unfold to_uint32, uwrap. change (256 ^ Z.of_nat 4) with (2 ^ 32). rewrite Z.mod_mod by lia. by rewrite Z.mod_small.
Qed.

(** ** Connections with filters that leave them alone *)

Definition inert (m : nat → SG connection FilterStatus) : Prop := ∀ f c, ∃ s, m f c = Ret (s, c).

(** The state of a connection that hand-overs and filters do not share. *)
Definition dview (c : connection) := (sock c, readBuffer c, writeBuffer c, downstreamFilters c, closed c, connCallbacks c).

Section handed.
  Context (chain : nat → list nat * list nat)
          (OnNewConnection OnData OnWrite : nat → SG connection FilterStatus) (pool_get : option IoBuffer) (fuel : nat).
  Hypothesis (Hnew : inert OnNewConnection) (Hdata : inert OnData) (Hwrite : ∀ f c, OnWrite f c = Ret (Continue, c)).
  Hypothesis (Hpool : given pool_get).

Lemma read_filters_inert n i c (h : connHandler) : (length (upstreamFilters c) < i + n)%nat → (0 < n)%nat →
  ∃ fs, read_filters (f_new OnNewConnection) (f_data OnData) n i (c, h) = Ret (tt, (set_upstreamFilters fs c, h)) ∧
    arf_filter <$> fs = arf_filter <$> upstreamFilters c.
Proof.
  revert i c. induction n as [|n IH]; intros i c Hi Hn; [lia|]. cbn [read_filters].
  assert (set_upstreamFilters (upstreamFilters c) c = c) as Hid by by destruct c.
  destruct (upstreamFilters c !! i) as [uf|] eqn:Huf.
  2: { exists (upstreamFilters c). split; [|done]. srun. rewrite Huf. by rewrite Hid. }
  set (fs1 := <[i := mk_arf (arf_filter uf) i true]> (upstreamFilters c)).
  assert (arf_filter <$> fs1 = arf_filter <$> upstreamFilters c) as Hfs1.
  { unfold fs1. rewrite list_fmap_insert. apply list_insert_id. by rewrite list_lookup_fmap, Huf. }
  assert (∀ (b : bool) g, inert g → ∃ s, (if b then on_conn (g (arf_filter uf)) else mret Continue) (set_upstreamFilters fs1 c, h) = Ret (s, (set_upstreamFilters fs1 c, h))) as Hrun.
  { intros [] g Hg; [|by eexists]. destruct (Hg (arf_filter uf) (set_upstreamFilters fs1 c)) as [s E]. exists s. unfold on_conn. cbn [fst snd]. by rewrite E. }
  assert (∃ fs, read_filters (f_new OnNewConnection) (f_data OnData) n (S i) (set_upstreamFilters fs1 c, h) = Ret (tt, (set_upstreamFilters fs c, h)) ∧
    arf_filter <$> fs = arf_filter <$> upstreamFilters c) as (fs2 & E2 & Hfs2).
  { pose proof (lookup_lt_Some _ _ _ Huf). assert (length fs1 = length (upstreamFilters c)) as Hlen by by unfold fs1; rewrite length_insert.
    destruct (IH (S i) (set_upstreamFilters fs1 c)) as (fs & E & Hfs); [cbn; lia|lia|]. exists fs. split; [exact E|]. rewrite Hfs. exact Hfs1. }
  destruct (Hrun (negb (arf_initialized uf)) OnNewConnection Hnew) as [s1 E1].
  destruct (Hrun (match GetReadBuffer (set_upstreamFilters fs1 c) with Some b => bool_decide (0 < Len b) | None => false end) OnData Hdata) as [s3 E3].
  exists (match s1, s3 with Continue, Continue => fs2 | _, _ => fs1 end). split; [|by destruct s1, s3].
  srun. rewrite Huf. srun. eapply sg_run; [destruct (arf_initialized uf); exact E1|]. destruct s1; [|done].
  srun. eapply sg_run; [exact E3|]. destruct s3; [exact E2|done].
Qed.

Lemma add_read_filters rf c (h : connHandler) : for_each rf AddReadFilter (c, h) =
  Ret (tt, (set_upstreamFilters (upstreamFilters c ++ ((λ f, mk_arf f 0 false) <$> rf))%list c, h)).
Proof.
  revert c. induction rf as [|f rf IH]; intros c; cbn [for_each fmap list_fmap]; [rewrite app_nil_r; by destruct c|].
  srun. etransitivity; [apply IH|]. cbn. by rewrite <- app_assoc.
Qed.
Lemma add_write_filters wf c (h : connHandler) : for_each wf AddWriteFilter (c, h) =
  Ret (tt, (set_downstreamFilters (downstreamFilters c ++ wf)%list c, h)).
Proof.
  revert c. induction wf as [|f wf IH]; intros c; cbn [for_each]; [rewrite app_nil_r; by destruct c|].
  srun. etransitivity; [apply IH|]. cbn. by rewrite <- app_assoc.
Qed.

Lemma focus_run {A} i (m : HC A) h c a c' : conns h !! i = Some c → m (c, h) = Ret (a, (c', h)) →
  focus i m h = Ret (a, put i c' h).
Proof. intros Hc E. unfold focus. by rewrite Hc, E. Qed.

Definition with_last (h : connHandler) (c : connection) : connHandler := set_conns (conns h ++ [c]) h.

Lemma last_lookup h c : conns (with_last h c) !! length (conns h) = Some c.
Proof. by apply list_lookup_middle. Qed.
Lemma focus_last {A} (m : HC A) h c a c' : m (c, with_last h c) = Ret (a, (c', with_last h c)) →
  focus (length (conns h)) m (with_last h c) = Ret (a, with_last h c').
Proof.
  intros E. rewrite (focus_run _ _ _ _ _ _ (last_lookup h c) E). unfold put, with_last, set_conns. cbn.
  by rewrite insert_app_r_alt, Nat.sub_diag by lia.
Qed.
Lemma get_al_run al l h : als h !! al = Some l → get_al al h = Ret (l, h).
Proof. intros Hl. unfold get_al. srun. by rewrite Hl. Qed.

(** Setting up the filters of a connection. *)
Lemma buildFilterChain_run h c factory rf wfs : chain factory = (rf, wfs) → (length rf < fuel)%nat →
  upstreamFilters c = [] → downstreamFilters c = [] →
  ∃ b fs, buildFilterChain chain OnNewConnection OnData fuel (length (conns h)) factory (with_last h c) =
      Ret (b, with_last h (set_upstreamFilters fs (set_downstreamFilters wfs c))) ∧ arf_filter <$> fs = rf.
Proof.
  intros Hch Hf Hu Hd. unfold buildFilterChain. rewrite Hch.
  set (c1 := set_downstreamFilters wfs (set_upstreamFilters ((λ f, mk_arf f 0 false) <$> rf) c)).
  assert (arf_filter <$> upstreamFilters c1 = rf) as Hrf. { cbn. rewrite <- list_fmap_compose. apply list_fmap_id. }
  destruct (read_filters_inert fuel 0 c1 (with_last h c)) as (fs & E & Hfs); [cbn; rewrite length_fmap; lia|lia|].
  assert (∃ b fs', InitializeReadFilters (f_new OnNewConnection) (f_data OnData) fuel (c1, with_last h c) = Ret (b, (set_upstreamFilters fs' c1, with_last h c)) ∧
    arf_filter <$> fs' = rf) as (b & fs' & E' & Hfs').
  { unfold InitializeReadFilters. destruct (upstreamFilters c1) as [|x l] eqn:Ex.
    - exists false, []. split; [|exact Hrf]. srun. rewrite Ex. unfold mret, SG_ret. do 3 f_equal. rewrite <- Ex. by destruct c1.
    - exists true, fs. split; [|by rewrite Hfs]. srun. rewrite Ex. by eapply sg_run; [exact E|]. }
  exists b, fs'. split; [|done]. apply focus_last. eapply sg_run; [apply add_read_filters|]. eapply sg_run; [apply add_write_filters|].
  cbn [upstreamFilters downstreamFilters set_upstreamFilters]. rewrite Hu, Hd. cbn [app]. exact E'.
Qed.

(** A connection that arrives with bytes keeps them for its filters. *)
Lemma newConnection_run al l h k buf rf wfs : als h !! al = Some l → chain (al_factory l) = (rf, wfs) → rf ≠ [] →
  (length rf < fuel)%nat →
  ∃ h' c', newConnection chain OnNewConnection OnData pool_get fuel (mret tt) (mret tt) al (mk_raw k false true None (Some buf)) h = Ret (tt, h') ∧
    conns h' = (conns h ++ [c'])%list ∧ sock c' = k ∧ writeBuffer c' = None ∧ closed c' = false ∧ downstreamFilters c' = wfs ∧
    ∃ b, readBuffer c' = Some b ∧ wf b ∧ contents b = buf.
Proof.
  intros Hl Hch Hrf Hfuel. unfold newConnection, new_server_conn. cbn [raw_buf raw_sock].
  destruct (Take_ok pool_get Hpool) as (b0 & Eb0 & Hb0 & Hc0). destruct (Write_ok b0 buf Hb0) as (b & Eb & Hb & Hcb).
  set (c0 := set_readBuffer (Some b) (NewServerConnection k)).
  set (c1 := if bool_decide (0 < l_bufferLimit (al_listener l)) then set_bufferLimit (l_bufferLimit (al_listener l)) c0 else c0).
  destruct (buildFilterChain_run h c1 (al_factory l) rf wfs) as (ok & fs & Efs & Hfs); [done..|by unfold c1; case_bool_decide|by unfold c1; case_bool_decide|].
  set (c2 := set_upstreamFilters fs (set_downstreamFilters wfs c1)) in Efs.
  set (c3 := if negb (al_disableConnIo l) then set_internalLoopStarted true c2 else c2).
  assert (newConnection_spec : ∀ h', (al_OnNewConnection chain OnNewConnection OnData fuel (mret tt) (mret tt) al (length (conns h)) (with_last h c1) = Ret (tt, h')) →
    newConnection chain OnNewConnection OnData pool_get fuel (mret tt) (mret tt) al (mk_raw k false true None (Some buf)) h = Ret (tt, h')).
  { intros h' E. unfold newConnection, new_server_conn. cbn [raw_buf raw_sock]. srun. eapply sg_run; [rewrite Eb0, bind_Ret, Eb; reflexivity|].
    srun. eapply sg_run; [by apply get_al_run|]. eapply sg_run; [|exact E]. apply (focus_last _ h c0). unfold SetBufferLimit, c1. by case_bool_decide. }
  assert (upstreamFilters c3 = fs ∧ downstreamFilters c3 = wfs ∧ dview c3 = (k, Some b, None, wfs, false, [])) as (Hu3 & Hd3 & Hv3).
  { unfold c3, c2, c1. destruct (negb _); case_bool_decide; done. }
  eexists _, (heard (length (acs h)) c3). split_and!.
  - apply newConnection_spec. unfold al_OnNewConnection. eapply sg_run; [by apply get_al_run|]. eapply sg_run; [exact Efs|].
    eapply sg_run; [instantiate (2 := tt); instantiate (1 := with_last h c3); unfold c3; destruct (negb (al_disableConnIo l)); [by apply focus_last|done]|].
    srun. eapply sg_run; [by apply (focus_last _ h c3)|]. eapply sg_run; [by apply (focus_last _ h c3)|]. rewrite bool_decide_false.
    2: { intros [H0 _]. apply Hrf, length_zero_iff_nil. rewrite <- Hfs, <- Hu3. exact H0. }
    eapply sg_run; [apply (newActiveConnection_run _ _ c3), last_lookup|]. do 4 srun. reflexivity.
  - cbn. by rewrite insert_app_r_alt, Nat.sub_diag by lia.
  - cbn. by injection Hv3.
  - cbn. by injection Hv3.
  - cbn. by injection Hv3.
  - done.
  - exists b. split_and!; [cbn; by injection Hv3|done|by rewrite Hcb, Hc0].
Qed.

Definition buffered (c : connection) : Prop := ∀ b, writeBuffer c = Some b → wf b.

Lemma conn_write_run i c h buf : conns h !! i = Some c → buffered c →
  ∃ c', conn_write OnWrite pool_get i [Some (NewIoBufferBytes (slice_of buf) false)] h = Ret (tt, put i c' h) ∧
    pending c' = (pending c ++ buf)%list ∧ buffered c' ∧ sock c' = sock c ∧ readBuffer c' = readBuffer c.
Proof.
  intros Hc Hb. destruct (bytes_buffer buf) as [Hw Hcont].
  destruct (conn_Write_run (f_write OnWrite) pool_get [Some (NewIoBufferBytes (slice_of buf) false)] c h) as (v & l' & E & Hv & Hcv & _);
    [|done..|by apply Forall_singleton|].
  { intros f [c0 h0]. unfold f_write, on_conn. cbn [fst snd]. by rewrite Hwrite. }
  cbn [fmap list_fmap from_option concat] in Hcv. rewrite Hcont, app_nil_r in Hcv. eexists. split; [apply (focus_run _ _ _ c); [done|]|].
  - by eapply sg_run; [exact E|].
  - unfold pending at 1. cbn. split_and!; [done| |done..]. by intros b [= <-].
Qed.

  Context (FileConn : nat → option (socket * Z)).
Abbreviation handle := (transferHandler chain OnNewConnection OnData OnWrite pool_get fuel FileConn).

(** The stream of a transfer in whatever pieces it arrives. *)
Definition carries (u : unix) (t : Z) (id : Z) (l : bytes) : Prop :=
  concat (sk_in (u_sock u)) = (byte_of_Z t :: frame id l)%list ∧ sk_writes (u_sock u) = [] ∧ Z.of_nat (length l) < 2 ^ 32.

(** The type of a transfer is its first byte, when no piece is empty. *)
Lemma recv_type_spec u t rest : 0 ≤ t < 256 → concat (sk_in (u_sock u)) = byte_of_Z t :: rest → Forall (λ c, c ≠ []) (sk_in (u_sock u)) →
  ∃ k, transferRecvType FileConn u = (mk_unix k (u_oob u), if bool_decide (t = 1) then RecvWrite else transferRecvFD FileConn (u_oob u)) ∧ after_read (u_sock u) k rest.
Proof.
  intros Ht Hin Hp. unfold transferRecvType. destruct (sk_in (u_sock u)) as [|c cs] eqn:E; [done|]. rewrite (sock_read_cons _ _ _ _ E).
  apply Forall_cons in Hp as [Hc _]. destruct c as [|x c]; [done|]. cbn in Hin. injection Hin as -> Hr. eexists. split.
  - f_equal. cbn. assert (byte_of_Z t = byte_of_Z 1 ↔ t = 1) as Hiff.
    { split; [|by intros ->]. intros Hb%(f_equal byte_to_Z). rewrite !byte_to_of_Z in Hb. rewrite !Z.mod_small in Hb by lia. done. }
    destruct (decide (t = 1)); [by rewrite !bool_decide_true by tauto|by rewrite !bool_decide_false by tauto].
  - split_and!; [|done..]. cbn [sk_in]. change (Z.to_nat 1) with 1%nat. case_bool_decide as Hlen; [|exact Hr].
    destruct c; [exact Hr|]. cbn in Hlen. lia.
Qed.

(** The connection of a descriptor is taken over with its bytes and answered with
    its new id. *)
Lemma handle_read u n fd k port al l buf rf wfs : carries u 0 0 buf → Forall (λ c, c ≠ []) (sk_in (u_sock u)) →
  u_oob u = [[fd]] → FileConn fd = Some (k, port) → find_wildcard port (np_handler n) = Some al →
  als (np_handler n) !! al = Some l → chain (al_factory l) = (rf, wfs) → rf ≠ [] → (length rf < fuel)%nat →
  0 ≤ idCounter n → idCounter n + 1 < 2 ^ 32 →
  ∃ u' n' c' b, handle u n = Ret (u', n') ∧ idCounter n' = idCounter n + 1 ∧
    sk_sent (u_sock u') = (sk_sent (u_sock u) ++ be_put 4 (to_uint32 (idCounter n + 1)))%list ∧
    transferMap n' = <[idCounter n + 1 := length (conns (np_handler n))]> (transferMap n) ∧
    conns (np_handler n') = (conns (np_handler n) ++ [c'])%list ∧ sock c' = k ∧ writeBuffer c' = None ∧
    readBuffer c' = Some b ∧ wf b ∧ contents b = buf.
Proof.
  intros (Hin & Hwr & Hlen) Hp Hoob Hfd Hal Hl Hch Hrf Hfuel Hid0 Hid.
  destruct (recv_type_spec u 0 _ ltac:(lia) Hin Hp) as (k1 & Et & Hk1). unfold transferHandler. rewrite Et, Hoob, bool_decide_false by lia.
  cbn [transferRecvFD]. rewrite Hfd. destruct Hk1 as (Hk1 & Hs1 & Hw1). rewrite <- (app_nil_r (frame _ _)) in Hk1.
  destruct (recv_data k1 0 buf [] Hlen ltac:(lia) Hk1) as (k2 & E2 & _ & Hs2 & Hw2).
  destruct (newConnection_run al l (np_handler n) k buf rf wfs Hl Hch Hrf Hfuel) as (h' & c' & Ec & Hcs & Hk & Hwb & _ & _ & b & Hrb & Hbw & Hbc).
  assert (to_uint64 (idCounter n + 1) = idCounter n + 1) as Hu64 by (unfold to_uint64; apply uwrap_id; unfold in_u; lia).
  set (n' := mk_np h' (<[idCounter n + 1 := length (conns (np_handler n))]> (transferMap n)) (idCounter n + 1)).
  assert (transferNewConn chain OnNewConnection OnData pool_get fuel k port buf n = Ret (Some (idCounter n + 1), n')) as En.
  { unfold transferNewConn. srun. rewrite Hal, Hu64. eapply sg_run; [unfold np_run, OnAccept, ContinueFilterChain, sg_lift; cbn [accept_filters]|].
    - unfold mbind, SG_bind. rewrite Ec. reflexivity.
    - srun. reflexivity. }
  eexists _, n', c', b. split_and!; try done.
  - cbn [u_sock]. eapply sg_run; [unfold sg_lift; rewrite E2; reflexivity|]. cbn [default from_option]. eapply sg_run; [exact En|].
    eapply sg_run; [unfold sg_lift; cbn [default from_option]; unfold transferSendID; rewrite send_msg by congruence; reflexivity|]. reflexivity.
  - cbn. congruence.
Qed.

Lemma handle_write u n id i c buf : carries u 1 id buf → Forall (λ c, c ≠ []) (sk_in (u_sock u)) → 0 ≤ id < 2 ^ 32 →
  transferMap n !! id = Some i → conns (np_handler n) !! i = Some c → buffered c →
  ∃ u' c', handle u n = Ret (u', mk_np (put i c' (np_handler n)) (transferMap n) (idCounter n)) ∧
    pending c' = (pending c ++ buf)%list ∧ buffered c' ∧ sock c' = sock c ∧ readBuffer c' = readBuffer c.
Proof.
  intros (Hin & Hwr & Hlen) Hp Hid Hm Hc Hb. destruct (recv_type_spec u 1 _ ltac:(lia) Hin Hp) as (k1 & Et & Hk1). unfold transferHandler. rewrite Et, bool_decide_true by done.
  destruct Hk1 as (Hk1 & _). rewrite <- (app_nil_r (frame _ _)) in Hk1. destruct (recv_data k1 id buf [] Hlen Hid Hk1) as (k2 & E2 & _).
  destruct (conn_write_run i c (np_handler n) buf Hc Hb) as (c' & Ew & Hc'). eexists _, c'. split; [|exact Hc'].
  cbn [u_sock]. eapply sg_run; [unfold sg_lift; rewrite E2; reflexivity|]. cbn [default from_option]. srun.
  assert (to_uint64 id = id) as -> by (unfold to_uint64; apply uwrap_id; unfold in_u; lia). unfold transferFindConnection. rewrite Hm.
  eapply sg_run; [unfold transferWriteBuffer, np_run; rewrite Ew; reflexivity|]. reflexivity.
Qed.

Abbreviation step := (transfer_step chain OnNewConnection OnData OnWrite pool_get fuel FileConn).

(** A write that is on its way, with the stream that carries it. *)
Definition sent_write (id : Z) (w : IoBuffer * unix) : Prop := carries w.2 1 id (contents w.1) ∧ Forall (λ c, c ≠ []) (sk_in (u_sock w.2)).
(** A server that got some of the writes: the connection is there, and has the writes
    that were handled, in the order of their handlers. *)
Definition got (id : Z) (i : nat) (c0 : connection) (ws : list (IoBuffer * unix)) (s : transfer_server) (handled : list (IoBuffer * unix)) : Prop :=
  ∃ c running incoming, ts_incoming s = snd <$> incoming ∧ ts_running s = snd <$> running ∧ ts_done s = snd <$> handled ∧
    handled ++ running ++ incoming ≡ₚ ws ∧
    transferMap (ts_proc s) !! id = Some i ∧ conns (np_handler (ts_proc s)) !! i = Some c ∧ buffered c ∧
    pending c = (pending c0 ++ concat (contents ∘ fst <$> handled))%list ∧ sock c = sock c0 ∧ readBuffer c = readBuffer c0.

Lemma got_step id i c0 ws s handled s' : Forall (sent_write id) ws → 0 ≤ id < 2 ^ 32 → got id i c0 ws s handled → step s s' →
  ∃ handled', got id i c0 ws s' handled'.
Proof.
  intros Hws Hid (c & running & incoming & Hi & Hr & Hd & Hp & Hm & Hc & Hb & Hpd & Hs & Hrb) Hstep.
  destruct Hstep as [u inc run done_ n|u u' l1 l2 inc done_ n n' E]; cbn in *.
  - destruct incoming as [|w incoming]; [done|]. cbn in Hi. injection Hi as -> ->. exists handled, c, (running ++ [w]), incoming. cbn.
    rewrite fmap_app, Hr. split_and!; try done. by rewrite <- Hp, <- (assoc_L (++) running).
  - symmetry in Hr. apply fmap_app_inv in Hr as (r1 & r2 & -> & Hr2 & ->). symmetry in Hr2. apply fmap_cons_inv in Hr2 as (w & r2' & -> & -> & ->).
    assert (sent_write id w) as [Hc1 Hp1]. { eapply Forall_forall; [exact Hws|]. rewrite <- Hp. set_solver. }
    destruct (handle_write w.2 n id i c (contents w.1) Hc1 Hp1 Hid Hm Hc Hb) as (u1 & c1 & E1 & Hpd1 & Hb1 & Hs1 & Hr1).
    rewrite E1 in E. injection E as _ <-. exists (handled ++ [w]), c1, (r1 ++ r2'), incoming. cbn. rewrite !fmap_app, Hd. split_and!; try done.
    + rewrite <- Hp, <- !app_assoc. apply Permutation_app_head. cbn. apply (Permutation_middle r1 (r2' ++ incoming) w).
    + apply list_lookup_insert_eq. by eapply lookup_lt_Some.
    + rewrite Hpd1, Hpd, concat_app. cbn. by rewrite app_nil_r, <- app_assoc.
    + congruence.
    + congruence.
Qed.

(** What is left to do, and that something can always be done. *)
Definition ts_left (s : transfer_server) : nat := (2 * length (ts_incoming s) + length (ts_running s))%nat.
Lemma step_left s s' : step s s' → ts_left s = S (ts_left s').
Proof. intros []; unfold ts_left; cbn; rewrite !length_app; cbn; lia. Qed.
Lemma steps_left m s s' : nsteps step m s s' → (m + ts_left s' = ts_left s)%nat.
Proof. induction 1 as [|m s1 s2 s3 H1 _ IH]; [done|]. apply step_left in H1. lia. Qed.

Lemma got_goes_on id i c0 ws s handled : Forall (sent_write id) ws → 0 ≤ id < 2 ^ 32 → got id i c0 ws s handled →
  (∃ s', step s s') ∨ (ts_left s = 0%nat ∧ handled ≡ₚ ws).
Proof.
  intros Hws Hid (c & running & incoming & Hi & Hr & Hd & Hp & Hm & Hc & Hb & _). destruct s as [inc run done_ n]. cbn in *. subst inc run done_.
  destruct incoming as [|w incoming]; [|left; cbn; eexists; apply step_accept]. destruct running as [|w running].
  - right. split; [done|]. by rewrite !app_nil_r in Hp.
  - left. assert (sent_write id w) as [Hc1 Hp1]. { eapply Forall_forall; [exact Hws|]. rewrite <- Hp. set_solver. }
    destruct (handle_write w.2 n id i c (contents w.1) Hc1 Hp1 Hid Hm Hc Hb) as (u1 & c1 & E1 & _). cbn.
    eexists. by apply (step_handler _ _ _ _ _ _ _ w.2 u1 [] (snd <$> running)).
Qed.

Lemma handle_writes ws n id i c : Forall (sent_write id) ws → 0 ≤ id < 2 ^ 32 → transferMap n !! id = Some i → conns (np_handler n) !! i = Some c → buffered c →
  ∀ m s, nsteps step m (mk_ts (snd <$> ws) [] [] n) s →
    (m ≤ 2 * length ws)%nat ∧ ∃ handled, got id i c ws s handled ∧ ((∃ s', step s s') ∨ (m = (2 * length ws)%nat ∧ handled ≡ₚ ws)).
Proof.
  intros Hws Hid Hm Hc Hb k s Hk. pose proof (steps_left _ _ _ Hk) as Hleft. unfold ts_left at 2 in Hleft. cbn in Hleft. rewrite length_fmap in Hleft.
  split; [lia|]. assert (∃ handled, got id i c ws s handled) as [handled Hg].
  { clear Hleft. apply rtc_nsteps_2 in Hk. revert s Hk. apply (rtc_ind_r (λ s, ∃ handled, got id i c ws s handled)).
    - exists [], c, [], ws. by rewrite app_nil_r.
    - intros s1 s2 _ Hstep [h1 H1]. by eapply got_step. }
  exists handled. split; [done|]. destruct (got_goes_on _ _ _ _ _ _ Hws Hid Hg) as [?|[Hz ?]]; [by left|right]. split; [unfold ts_left in Hz; lia|done].
Qed.
End handed.

(** ** The old process *)

Lemma old_read k fd b id rest : wf b → sk_writes k = [] → 0 ≤ id < 2 ^ 32 → concat (sk_in k) = (be_put 4 (to_uint32 id) ++ rest)%list →
  ∃ k' b', transferRead true (mk_unix k []) (Some fd) b = Ret (mk_unix k' [[fd]], b', id) ∧
    sk_sent k' = (sk_sent k ++ byte_of_Z 0 :: frame 0 (contents b))%list.
Proof.
  intros Hb Hk Hid Hin. unfold transferRead. cbn [negb transferSendType transferSendFD u_sock].
  assert (sock_write k [byte_of_Z 0] = (sent k [byte_of_Z 0], 1, None)) as -> by (unfold sock_write; by rewrite Hk).
  rewrite bind_Ret, bool_decide_true by done. cbn [negb u_sock u_oob].
  destruct (send_data (sent k [byte_of_Z 0]) 0 b Hb) as (b' & -> & _); [done|]. rewrite bind_Ret. cbn [negb].
  destruct (recv_id (sent (sent k [byte_of_Z 0]) (frame 0 (contents b))) id rest Hid Hin) as (k' & -> & _ & Hs & _). rewrite bind_Ret.
  exists k', b'. split; [done|]. rewrite Hs, sent_sent. done.
Qed.

Lemma old_write k b id : wf b → sk_writes k = [] →
  ∃ k' b', transferWrite true (mk_unix k []) b id = Ret (mk_unix k' [], b') ∧ contents b' = [] ∧
    sk_sent k' = (sk_sent k ++ byte_of_Z 1 :: frame id (contents b))%list.
Proof.
  intros Hb Hk. unfold transferWrite. cbn [negb transferSendType u_sock]. rewrite send_msg, !bind_Ret by done. cbn [negb u_sock u_oob].
  destruct (send_data (sent k [byte_of_Z 1]) id b Hb) as (b' & -> & _ & Hb'); [done|]. rewrite bind_Ret. eexists _, b'. split; [done|]. split; [done|].
  by rewrite sent_sent.
Qed.

(** C19. A connection survives the replacement of its process.  The old process
    sends the bytes it has read but not used, the new one makes a connection over
    the same socket with exactly these bytes in front of its filters, and answers
    with the id of the connection.  What the old process still writes to the
    connection is carried in transfers of their own, whose handlers the new process
    runs in any order: however they are scheduled, the new process gets through them,
    and then has buffered every write for the socket, whole and once, in the order in
    which the handlers ran, which is the order of the writes when each handler runs
    before the next ([writes_out_of_order] shows a run where it is not).  All this in
    whatever pieces the streams between the processes arrive. *)
Theorem connection_handed_over chain OnNewConnection OnData OnWrite pool_get fuel FileConn b n u fd k port al l rf wfs :
  inert OnNewConnection → inert OnData → (∀ f c, OnWrite f c = Ret (Continue, c)) → given pool_get →
  FileConn fd = Some (k, port) → find_wildcard port (np_handler n) = Some al → als (np_handler n) !! al = Some l →
  chain (al_factory l) = (rf, wfs) → rf ≠ [] → (length rf < fuel)%nat → 0 ≤ idCounter n → idCounter n + 1 < 2 ^ 32 →
  wf b → carries u 0 0 (contents b) → Forall (λ c, c ≠ []) (sk_in (u_sock u)) → u_oob u = [[fd]] → sk_sent (u_sock u) = [] →
  ∃ u1 n1 id, id = idCounter n + 1 ∧ transferHandler chain OnNewConnection OnData OnWrite pool_get fuel FileConn u n = Ret (u1, n1) ∧
    (∀ ko, sk_writes ko = [] → concat (sk_in ko) = sk_sent (u_sock u1) → ∃ ko' b',
       transferRead true (mk_unix ko []) (Some fd) b = Ret (mk_unix ko' (u_oob u), b', id) ∧
       sk_sent ko' = (sk_sent ko ++ concat (sk_in (u_sock u)))%list) ∧
    ∀ ws, Forall (λ w : IoBuffer * unix, wf w.1 ∧ sent_write id w) ws →
      (∀ w ko, w ∈ ws → sk_writes ko = [] → ∃ ko' b', transferWrite true (mk_unix ko []) w.1 id = Ret (mk_unix ko' [], b') ∧
         contents b' = [] ∧ sk_sent ko' = (sk_sent ko ++ concat (sk_in (u_sock w.2)))%list) ∧
      let step := transfer_step chain OnNewConnection OnData OnWrite pool_get fuel FileConn in
      ∀ m s, nsteps step m (mk_ts (snd <$> ws) [] [] n1) s →
        (m ≤ 2 * length ws)%nat ∧
        ∃ handled i c b2, ts_done s = snd <$> handled ∧ handled ⊆+ ws ∧
          ((∃ s', step s s') ∨ (m = (2 * length ws)%nat ∧ handled ≡ₚ ws)) ∧
          transferMap (ts_proc s) !! id = Some i ∧ conns (np_handler (ts_proc s)) !! i = Some c ∧ sock c = k ∧
          readBuffer c = Some b2 ∧ contents b2 = contents b ∧ pending c = concat (contents ∘ fst <$> handled).
Proof.
  intros Hnew Hdata Hwrite Hpool Hfd Hal Hl Hch Hrf Hfuel Hid0 Hid Hb Hu Hp Hoob Hsent.
  destruct (handle_read chain OnNewConnection OnData OnWrite pool_get fuel Hnew Hdata Hpool FileConn u n fd k port al l (contents b) rf wfs)
    as (u1 & n1 & c1 & b1 & E & Hn1 & Hs & Hm & Hcs & Hk & Hwb & Hrb & Hbw & Hbc); [done..|].
  rewrite Hsent in Hs. cbn in Hs. destruct Hu as (Hin & _ & _).
  exists u1, n1, (idCounter n + 1). do 2 (split; [done|]). split.
  - intros ko Hko Hans. rewrite Hs, <- (app_nil_r (be_put _ _)) in Hans.
    destruct (old_read ko fd b (idCounter n + 1) [] Hb Hko ltac:(lia) Hans) as (k' & b' & Er & Hr). exists k', b'. rewrite Hoob, Hin. done.
  - intros ws Hws. split.
    + intros w ko Hw Hko. rewrite Forall_forall in Hws. destruct (Hws w Hw) as (Hw1 & (Hw2 & _) & _). rewrite Hw2. by apply old_write.
    + intros step m s Hsteps.
      destruct (handle_writes chain OnNewConnection OnData OnWrite pool_get fuel Hnew Hdata Hwrite Hpool FileConn ws n1 (idCounter n + 1) (length (conns (np_handler n))) c1)
        with (m := m) (s := s) as (Hle & handled & (c & running & incoming & _ & _ & Hd & Hpm & Hm2 & Hc2 & _ & Hp2 & Hs2 & Hr2) & Hend).
      * eapply Forall_impl; [exact Hws|]. by intros w [_ ?].
      * lia.
      * rewrite Hm. apply lookup_insert_eq.
      * rewrite Hcs. by apply list_lookup_middle.
      * intros b2. congruence.
      * exact Hsteps.
      * split; [done|]. exists handled, (length (conns (np_handler n))), c, b1. split_and!; try done; [|congruence..|].
        -- rewrite <- Hpm. apply submseteq_inserts_r. done.
        -- rewrite Hp2. unfold pending. by rewrite Hwb.
Qed.

(** A process that listens on a port of all addresses, and a connection whose old
    process had read "abc" and still writes "de"; the streams come in pieces. *)
Definition np_at (addr : string) : newproc :=
  match add_demo (lis_cfg "in" addr 0 false) 0 new_handler with Ret (_, h) => mk_np h ∅ 1 | Panic _ => mk_np new_handler ∅ 1 end.
Definition files (fd : nat) : option (socket * Z) := Some (silent, 8080).
Definition cut (n : nat) (l : bytes) : list bytes := [take n l; drop n l].
Definition stream_of (n : nat) (oob : list (list nat)) (l : bytes) : unix := mk_unix (mk_sock (cut n l) EOF [] []) oob.
Definition read_stream : unix := stream_of 6 [[7%nat]] (byte_of_Z 0 :: frame 0 (str_bytes "abc")).
Definition write_stream : unix := stream_of 10 [] (byte_of_Z 1 :: frame 2 (str_bytes "de")).

Definition next_write : unix := stream_of 4 [] (byte_of_Z 1 :: frame 2 (str_bytes "fg")).
Abbreviation demo_step := (transfer_step one_filter pass pass pass None 8 files).
(** After the hand-over, with both writes accepted. *)
Definition both_accepted : option (transfer_server) :=
  match transferHandler one_filter pass pass pass None 8 files read_stream (np_at "[::]:8080") with
  | Ret (_, n1) => Some (mk_ts [] [write_stream; next_write] [] n1)
  | Panic _ => None
  end.
Definition pending_of (n : newproc) (id : Z) : option bytes := i ← transferMap n !! id; pending <$> conns (np_handler n) !! i.

Lemma connection_handed_over_witness :
  ∃ s0 s, both_accepted = Some s0 ∧ rtc demo_step s0 s ∧ ts_left s = 0%nat ∧ ∃ handled i c b2, ts_done s = snd <$> handled ∧
    handled ≡ₚ [(NewIoBufferString "de", write_stream); (NewIoBufferString "fg", next_write)] ∧
    transferMap (ts_proc s) !! 2 = Some i ∧ conns (np_handler (ts_proc s)) !! i = Some c ∧ readBuffer c = Some b2 ∧ contents b2 = str_bytes "abc" ∧
    pending c = concat (contents ∘ fst <$> handled).
Proof.
  assert (inert pass) as Hpass by (intros f c; by exists Continue).
  destruct (connection_handed_over one_filter pass pass pass None 8 files (NewIoBufferString "abc") (np_at "[::]:8080") read_stream 7 silent 8080 0
    (newActiveListener (NewListener (lis_cfg "in" "[::]:8080" 0 false)) 1 [] 0 false) [0%nat] []) as (u1 & n1 & id & -> & E & _ & Hw);
    try (done || (vm_compute; done) || (cbn; lia)).
  - repeat constructor; vm_compute; discriminate.
  - set (ws := [(NewIoBufferString "de", write_stream); (NewIoBufferString "fg", next_write)]).
    assert (Forall (λ w : IoBuffer * unix, wf w.1 ∧ sent_write (idCounter (np_at "[::]:8080") + 1) w) ws) as Hws.
    { repeat constructor; vm_compute; discriminate. }
    destruct (Hw ws Hws) as [_ Hrun]. clear Hw.
    assert (transferHandler one_filter pass pass pass None 8 files read_stream (np_at "[::]:8080") =
      Ret (u1, n1)) as E0 by exact E. clear E.
    assert (∃ ua na, transferHandler one_filter pass pass pass None 8 files write_stream n1 = Ret (ua, na) ∧
            ∃ ub nb, transferHandler one_filter pass pass pass None 8 files next_write na = Ret (ub, nb)) as (ua & na & Ea & ub & nb & Eb).
    { vm_compute in E0. injection E0 as _ <-. eexists _, _. split; [vm_compute; reflexivity|]. eexists _, _. vm_compute. reflexivity. }
    set (s0 := mk_ts [] [write_stream; next_write] [] n1). set (s := mk_ts [] [] [write_stream; next_write] nb).
    assert (nsteps demo_step 2 s0 s) as Hs.
    { eapply nsteps_l; [by apply (step_handler _ _ _ _ _ _ _ write_stream ua [] [next_write])|].
      eapply nsteps_l; [by apply (step_handler _ _ _ _ _ _ _ next_write ub [] [])|]. apply nsteps_O. }
    assert (nsteps demo_step 4 (mk_ts (snd <$> ws) [] [] n1) s) as H4.
    { eapply nsteps_l; [apply step_accept|]. eapply nsteps_l; [apply step_accept|]. exact Hs. }
    destruct (Hrun 4%nat s H4) as (_ & handled & i & c & b2 & Hd & Hsub & Hend & Hm & Hc & _ & Hrb & Hcb & Hpd).
    exists s0, s. split; [unfold both_accepted; by rewrite E0|]. split; [by eapply rtc_nsteps_2|]. split; [done|].
    exists handled, i, c, b2. split_and!; try done. destruct Hend as [[s' Hs']|[_ Hend]]; [|exact Hend].
    exfalso. apply step_left in Hs'. vm_compute in Hs'. discriminate.
Defined.

(** The handler of the second write may run first. *)
Example writes_out_of_order :
  match both_accepted with
  | Some s0 => ∃ s, rtc demo_step s0 s ∧ ts_left s = 0%nat ∧ pending_of (ts_proc s) 2 = Some (str_bytes "fgde")
  | None => False
  end.
Proof.
  destruct both_accepted as [s0|] eqn:E; [|by vm_compute in E]. vm_compute in E. injection E as <-.
  eexists. split.
  - eapply rtc_l; [eapply (step_handler _ _ _ _ _ _ _ next_write _ [write_stream] []); vm_compute; reflexivity|].
    eapply rtc_l; [eapply (step_handler _ _ _ _ _ _ _ write_stream _ [] []); vm_compute; reflexivity|]. apply rtc_refl.
  - split; [done|]. vm_compute. reflexivity.
Qed.

(** ** Hand-overs that fail *)

(** A listener bound to one address is not found: the old process is answered
    with 0, and its read loop has ended all the same. *)
Example specific_address_not_found :
  match transferHandler one_filter pass pass pass None 8 files read_stream (np_at "10.0.0.9:8080") with
  | Ret (u, n) => sk_sent (u_sock u) = be_put 4 transferErr ∧ conns (np_handler n) = []
  | Panic _ => False
  end.
Proof. vm_compute. done. Qed.

(** When the stream breaks off after the descriptor, the connection is made
    without its bytes. *)
Example bytes_lost_in_transfer :
  match transferHandler one_filter pass pass pass None 8 files
          (mk_unix (mk_sock [take 10 (byte_of_Z 0 :: frame 0 (str_bytes "abc"))] EOF [] []) [[7%nat]]) (np_at "[::]:8080") with
  | Ret (u, n) => sk_sent (u_sock u) = be_put 4 2 ∧ (λ c, contents <$> readBuffer c) <$> conns (np_handler n) = [Some []]
  | Panic _ => False
  end.
Proof. vm_compute. done. Qed.

(** A connection that has not read yet has no buffer to hand over. *)
Example nothing_read_panics :
  transfer_reading true (mk_unix silent []) (Some 7%nat) (NewServerConnection silent, tt) = Panic NilDeref.
Proof. vm_compute. done. Qed.
