(* ===== verification/TcpProxy.v ===== *)
(** * The TCP proxy: pkg/filter/network/tcpproxy/proxy.go

    A read filter that connects a client to a host of a cluster and copies bytes
    both ways.  Both connections are those of [Connection]: a state is one of
    them, which an operation is about, with the other one and the proxy beside
    it; [swapped] changes sides.  Closing one side closes the other from within
    its callbacks; how deep callbacks may nest is the argument [n] (three levels
    are enough).

    The cluster manager is a parameter: for the name of a cluster nothing, a
    cluster without a healthy host, or the socket of a host with the outcome of
    dialling it.  No other filters are on the two connections. *)

From S2P Require Import Prelude IoBuffer StateGo Cluster Connection.

Local Open Scope Z_scope.

(** ** Routes *)

Record route := mk_route { sourceAddrs : list string; destinationAddrs : list string; clusterName : string }.

(** [Addresses.Contains], on the strings of addresses. *)
Definition Contains (as_ : list string) (addr : string) : bool := bool_decide (addr ∈ as_).

(** The code skips a route whose destination addresses do contain the address. *)
Fixpoint GetRouteFromEntries (routes : list route) (remote local : string) : string :=
  match routes with
  | [] => EmptyString
  | r :: routes =>
    if bool_decide (sourceAddrs r ≠ []) && negb (Contains (sourceAddrs r) remote) then GetRouteFromEntries routes remote local
    else if bool_decide (destinationAddrs r ≠ []) && Contains (destinationAddrs r) local then GetRouteFromEntries routes remote local
    else clusterName r
  end.

(** ** The proxy *)

Inductive response_flag := FNoRouteFound | FUpstreamOverflow | FNoHealthyUpstream | FUpstreamConnectionFailure.

(** [hasUpstream], [hasHost]: whether there is an upstream connection and a chosen
    host; [logged] counts the entries of access logs. *)
Record proxy := mk_proxy {
  hasUpstream : bool; hasHost : bool; bytesReceived : Z; bytesSent : Z; flags : list response_flag;
  accessLogs : nat; logged : nat; connResource : resource;
}.
Definition set_hasUpstream (v : bool) (p : proxy) : proxy :=
  mk_proxy v (hasHost p) (bytesReceived p) (bytesSent p) (flags p) (accessLogs p) (logged p) (connResource p).
Definition set_hasHost (v : bool) (p : proxy) : proxy :=
  mk_proxy (hasUpstream p) v (bytesReceived p) (bytesSent p) (flags p) (accessLogs p) (logged p) (connResource p).
Definition set_bytesReceived (v : Z) (p : proxy) : proxy :=
  mk_proxy (hasUpstream p) (hasHost p) v (bytesSent p) (flags p) (accessLogs p) (logged p) (connResource p).
Definition set_bytesSent (v : Z) (p : proxy) : proxy :=
  mk_proxy (hasUpstream p) (hasHost p) (bytesReceived p) v (flags p) (accessLogs p) (logged p) (connResource p).
Definition add_flag (v : response_flag) (p : proxy) : proxy :=
  mk_proxy (hasUpstream p) (hasHost p) (bytesReceived p) (bytesSent p) (flags p ++ [v]) (accessLogs p) (logged p) (connResource p).
Definition set_logged (v : nat) (p : proxy) : proxy :=
  mk_proxy (hasUpstream p) (hasHost p) (bytesReceived p) (bytesSent p) (flags p) (accessLogs p) v (connResource p).
Definition set_connResource (v : resource) (p : proxy) : proxy :=
  mk_proxy (hasUpstream p) (hasHost p) (bytesReceived p) (bytesSent p) (flags p) (accessLogs p) (logged p) v.

Definition NewProxy (logs : nat) (res : resource) : proxy := mk_proxy false false 0 0 [] logs 0 res.

(** One side, the other side, the proxy. *)
Abbreviation st := (connection * (connection * proxy))%type.
Abbreviation M := (SG st).

Definition flip_st (s : st) : st := (s.2.1, (s.1, s.2.2)).
Definition swapped {A} (m : M A) : M A := λ s,
  match m (flip_st s) with Ret (a, s') => Ret (a, flip_st s') | Panic k => Panic k end.
Definition px {A} (f : proxy → A) : M A := λ s, Ret (f s.2.2, s).
Definition mod_px (f : proxy → proxy) : M unit := sg_modify (λ s, (s.1, (s.2.1, f s.2.2))).

Section tcpproxy.
  Context (routes : list route) (remote local : string)
          (cluster : string → option (option (socket * option io_error)))
          (pool_get : option IoBuffer) (fuel : nat).

Definition no_bytes (cb : nat) (n : Z) : M unit := mret tt.
Definition no_filter (f : nat) : M FilterStatus := mret Continue.

(** *** Data: the buffer of one connection is written to the other *)

Definition copy_buffer : M unit :=
  o ← cn readBuffer;
  l ← swapped (conn_Write no_filter pool_get [o]);
  mod_cn (set_readBuffer (default o (head l))).

Definition buffer_len (c : connection) : Z := match readBuffer c with Some b => Len b | None => 0 end.

(** On the client's side. *)
Definition OnData (f : nat) : M FilterStatus :=
  n ← cn buffer_len;
  _ ← mod_px (λ p, set_bytesReceived (to_uint64 (bytesReceived p + n)) p);
  up ← px hasUpstream;
  _ ← sg_lift (go_assert up NilDeref);
  _ ← copy_buffer;
  mret StopIteration.
(** On the host's side. *)
Definition onUpstreamData (f : nat) : M FilterStatus :=
  n ← cn buffer_len;
  _ ← mod_px (λ p, set_bytesSent (to_uint64 (bytesSent p + n)) p);
  _ ← copy_buffer;
  mret StopIteration.

(** *** Events *)

(** Through the chosen host. *)
Definition finalizeUpstreamConnectionStats : M unit :=
  h ← px hasHost;
  _ ← sg_lift (go_assert h NilDeref);
  mod_px (λ p, set_connResource (Decrease (connResource p)) p).

Section events.
(** The events of the other connection, and connecting anew, one level deeper. *)
  Context (other_OnEvent : nat → ConnectionEvent → M unit).

(** An event of the client's connection. *)
Definition onDownstreamEvent (cb : nat) (event : ConnectionEvent) : M unit :=
  up ← px hasUpstream;
  _ ← sg_when up (match event with
        | RemoteClose => swapped (Close other_OnEvent no_bytes fuel FlushWrite LocalClose)
        | LocalClose => swapped (Close other_OnEvent no_bytes fuel NoFlush LocalClose)
        | _ => mret tt
        end);
  sg_when (IsClose event) (mod_px (λ p, set_logged (logged p + accessLogs p) p)).

(** An event of the host's connection; [self] are its own events, [again] is
    [initializeUpstreamConnection]. *)
Definition onUpstreamEvent (self : nat → ConnectionEvent → M unit) (again : M FilterStatus) (event : ConnectionEvent) : M unit :=
  match event with
  | RemoteClose =>
    _ ← finalizeUpstreamConnectionStats;
    swapped (Close other_OnEvent no_bytes fuel FlushWrite LocalClose)
  | LocalClose => finalizeUpstreamConnectionStats
  | Connected => _ ← swapped (SetReadDisable false); mret tt
  | ConnectTimeout =>
    _ ← finalizeUpstreamConnectionStats;
    _ ← mod_px (add_flag FUpstreamConnectionFailure);
    _ ← Close self no_bytes fuel NoFlush LocalClose;
    _ ← swapped again;
    mret tt
  | ConnectFailed => mod_px (add_flag FUpstreamConnectionFailure)
  | _ => mret tt
  end.

(** [upstreamCallbacks.OnEvent]. *)
Definition uc_OnEvent (self : nat → ConnectionEvent → M unit) (again : M FilterStatus) (cb : nat) (event : ConnectionEvent) : M unit :=
  _ ← (match event with Connected => _ ← SetReadDisable false; mret tt | _ => mret tt end);
  onUpstreamEvent self again event.
End events.

Definition onInitFailure (down_OnEvent : nat → ConnectionEvent → M unit) : M unit :=
  Close down_OnEvent no_bytes fuel NoFlush LocalClose.

(** On the client's side; the new connection replaces the one beside it. *)
Definition initializeUpstreamConnection (down_OnEvent up_OnEvent : nat → ConnectionEvent → M unit) : M FilterStatus :=
  let name := GetRouteFromEntries routes remote local in
  res ← px connResource;
  match cluster name with
  | None => _ ← mod_px (add_flag FNoRouteFound); _ ← onInitFailure down_OnEvent; mret StopIteration
  | Some hosts =>
    if negb (CanCreate res) then _ ← mod_px (add_flag FUpstreamOverflow); _ ← onInitFailure down_OnEvent; mret StopIteration
    else
    match hosts with
    | None => _ ← mod_px (add_flag FNoHealthyUpstream); _ ← onInitFailure down_OnEvent; mret StopIteration
    | Some (k, dial) =>
      _ ← mod_px (set_hasHost true);
      _ ← mod_px (λ p, set_connResource (Increase (connResource p)) p);
      _ ← sg_modify (λ s, (s.1, (NewClientConnection k, s.2.2)));
      _ ← swapped (AddConnectionEventListener 0);
      _ ← swapped (AddReadFilter 0);
      _ ← mod_px (set_hasUpstream true);
      _ ← swapped (Connect up_OnEvent dial true);
      mret Continue
    end
  end.

(** The callbacks of both connections, [n] levels deep. *)
Fixpoint down_OnEvent (n : nat) (cb : nat) (event : ConnectionEvent) : M unit :=
  match n with
  | O => sg_panic OutOfFuel
  | S n => onDownstreamEvent (up_OnEvent n) cb event
  end
with up_OnEvent (n : nat) (cb : nat) (event : ConnectionEvent) : M unit :=
  match n with
  | O => sg_panic OutOfFuel
  | S n => uc_OnEvent (down_OnEvent n) (up_OnEvent n) (initializeUpstreamConnection (down_OnEvent n) (up_OnEvent n)) cb event
  end.

Definition depth : nat := 4.
Definition OnNewConnection (f : nat) : M FilterStatus := initializeUpstreamConnection (down_OnEvent depth) (up_OnEvent depth).

(** [InitializeReadFilterCallbacks], which [AddReadFilter] calls, then the rest of
    accepting a client. *)
Definition InitializeReadFilterCallbacks : M unit :=
  _ ← AddConnectionEventListener 0;
  _ ← SetReadDisable true;
  mret tt.
Definition accept_client : M bool :=
  _ ← InitializeReadFilterCallbacks;
  _ ← AddReadFilter 0;
  b ← Connection.InitializeReadFilters OnNewConnection OnData fuel;
  _ ← Start;
  mret b.

(** *** The loops of the two connections *)

Definition down_read : M bool := read_iteration (down_OnEvent depth) no_bytes no_bytes OnNewConnection OnData pool_get fuel.
Definition down_write : M bool := write_iteration (down_OnEvent depth) no_bytes fuel.
Definition up_read : M bool := swapped (read_iteration (up_OnEvent depth) no_bytes no_bytes no_filter onUpstreamData pool_get fuel).
Definition up_write : M bool := swapped (write_iteration (up_OnEvent depth) no_bytes fuel).
End tcpproxy.
