(* ===== verification/TcpProxyProps.v ===== *)
(** * Theorems on [TcpProxy]

    The bytes of each side reach the other side once and in order. *)

From S2P Require Import Prelude IoBuffer StateGo Cluster Connection ConnectionProps TcpProxy.

Local Open Scope Z_scope.

(** ** What is on its way from one connection to the other *)

(** Sent, waiting to be sent, not yet copied, lost, and not yet read. *)
Definition conserved (total lost : bytes) (a b : connection) : Prop :=
  (sk_sent (sock b) ++ pending b ++ unread a ++ lost ++ concat (sk_in (sock a)) = total)%list.
Definition flow (loose : bool) (total : bytes) (a b : connection) : Prop :=
  ∃ lost, conserved total lost a b ∧ (lost = [] ∨ stopped a = true ∨ loose = true).

(** A side: whether its filters have to be open, whether it may just have lost
    bytes, whether it is just closing, and the bytes that come in on it. *)
Record side := mk_side { ready : bool; loose : bool; closing : bool; total : bytes }.

Record side_ok (x : side) (c : connection) : Prop := {
  so_read b : readBuffer c = Some b → wf b;
  so_write b : writeBuffer c = Some b → wf b;
  so_raw : rawConnection c = Raw;
  so_started : internalLoopStarted c = true;
  so_closed : closing x = false → closed c = true → stopped c = true;
  so_ready : ready x = true → Forall (λ f, arf_initialized f = true) (upstreamFilters c);
}.

Definition relay (x y : side) (s : st) : Prop :=
  side_ok x s.1 ∧ side_ok y s.2.1 ∧ flow (loose x) (total x) s.1 s.2.1 ∧ flow (loose y) (total y) s.2.1 s.1.

Lemma relay_flip x y s : relay x y s → relay y x (flip_st s).
Proof. by intros (? & ? & ? & ?). Qed.
Lemma keeps_swapped {A} x y (m : M A) : keeps (relay y x) m → keeps (relay x y) (swapped m).
Proof.
  intros Hm s a s' Hs E. unfold swapped in E. destruct (m (flip_st s)) as [[b s1]|] eqn:Em; [|done]. injection E as <- <-.
  apply relay_flip. eapply Hm; [|exact Em]. by apply relay_flip.
Qed.

(** Changes of a connection that concern no bytes. *)
Definition harmless (f : connection → connection) : Prop :=
  ∀ c, sock (f c) = sock c ∧ readBuffer (f c) = readBuffer c ∧ writeBuffer (f c) = writeBuffer c ∧
    stopped (f c) = stopped c ∧ (∀ x, side_ok x c → side_ok x (f c)).

Lemma relay_harmless x y f : harmless f → keeps (relay x y) (mod_cn f).
Proof.
  intros Hf. apply keeps_modify. intros [a [b p]] (Ha & Hb & (l1 & E1 & H1) & (l2 & E2 & H2)). cbn [fst snd] in *.
  destruct (Hf a) as (Hs & Hr & Hw & Hc & Hok). split_and!; cbn [fst snd]; [by apply Hok|done|exists l1|exists l2].
  - unfold conserved, unread, pending in *. by rewrite Hs, Hr, Hc.
  - unfold conserved, unread, pending in *. by rewrite Hs, Hw.
Qed.

Lemma relay_px x y f : keeps (relay x y) (mod_px f).
Proof. by apply keeps_modify. Qed.
Lemma relay_cn {A} x y (f : connection → A) : keeps (relay x y) (cn f).
Proof. by intros s a s' Hs [= _ <-]. Qed.
Lemma relay_get {A} x y (f : proxy → A) : keeps (relay x y) (px f).
Proof. by intros s a s' Hs [= _ <-]. Qed.
Lemma relay_for_each x y l f : (∀ i, keeps (relay x y) (f i)) → keeps (relay x y) (for_each l f).
Proof. intros Hf. induction l; cbn [for_each]; [apply keeps_ret|]. by apply keeps_bind. Qed.

Ltac harmless := intros []; split_and!; try done; intros ? []; by split.

(** Prove that a computation keeps [relay] by its steps. *)
Ltac relay := repeat first
  [ solve [auto] | apply keeps_bind; [|intros ?] | apply keeps_ret | apply relay_cn | apply relay_get | apply relay_px | apply keeps_lift | apply keeps_deref
  | apply keeps_panic | apply keeps_when | apply relay_for_each; intros ? | (apply relay_harmless; harmless)
  | match goal with |- keeps _ (match ?x with _ => _ end) => destruct x end ].

(** ** Sending *)

Lemma relay_doWriteIo x y fuel n e : keeps (relay x y) (doWriteIo fuel n e).
Proof.
  revert n e. induction fuel as [|fuel IH]; intros n e; cbn [doWriteIo]; [apply keeps_panic|].
  intros [a [b p]] r s' Hs E. pose proof Hs as (Ha & Hb & Hf & (l2 & E2 & H2)). cbn [fst snd] in *. apply sg_bind_Ret_inv in E as (m & ? & [= <- <-] & E). cbn [fst] in E.
  case_bool_decide; [|by injection E as _ <-]. apply sg_bind_Ret_inv in E as (o & ? & [= <- <-] & E). cbn [fst] in E.
  apply sg_bind_Ret_inv in E as (w & s1 & E1 & E). destruct (writeBuffer a) as [w0|] eqn:Hw; [|done]. injection E1 as <- <-.
  apply sg_bind_Ret_inv in E as (k & ? & [= <- <-] & E). cbn [fst] in E.
  destruct (WriteTo_history (sock a) w0) as (k' & w' & m & er & Ew & Hw' & _ & Hrun); [exact (so_write _ _ Ha _ Hw)|].
  apply sg_bind_Ret_inv in E as (q & s2 & E3 & E). unfold sg_lift in E3. rewrite Ew in E3. injection E3 as <- <-.
  apply sg_bind_Ret_inv in E as (? & s3 & [= <- <-] & E). destruct (wr_run_history _ _ _ _ _ Hrun) as (Hhist & _).
  assert (sk_in k' = sk_in (sock a)) as Hin.
  { clear -Hrun. induction Hrun as [|? ? ? ? ? ? E|? ? ? ? E|? ? ? ? E|? ? ? ? ? ? ? ? E ? ? IH]; try done; try rewrite IH; unfold sock_write in E;
      destruct (sk_writes _) as [|[]]; by injection E as <-. }
  assert (relay x y (set_sock k' (set_writeBuffer (Some w') a), (b, p))) as Hr.
  { split_and!; cbn [fst snd]; [|done| |].
    - destruct Ha as [Ha1 Ha2 ? ? ? ?]. split; cbn; [exact Ha1|by intros ? [= <-]|done..].
    - destruct Hf as (l1 & E1 & H1). exists l1. split; [|done]. unfold conserved, unread, pending in *. cbn. by rewrite Hin.
    - exists l2. split; [|done]. unfold conserved, unread, pending in *. cbn. rewrite Hw in E2. rewrite (app_assoc (sk_sent k')), Hhist, <- app_assoc. exact E2. }
  destruct er as [[]|]; first [by injection E as _ <- | by eapply IH].
Qed.
#[local] Hint Resolve relay_doWriteIo : core.

Lemma relay_updateRead x y a b : keeps (relay x y) (updateReadBufStats a b).
Proof. unfold updateReadBufStats. relay. Qed.
Lemma relay_updateWrite x y a b : keeps (relay x y) (updateWriteBuffStats a b).
Proof. unfold updateWriteBuffStats. relay. Qed.
#[local] Hint Resolve relay_updateRead relay_updateWrite : core.
Lemma relay_no_bytes x y i n : keeps (relay x y) (no_bytes i n).
Proof. apply keeps_ret. Qed.
#[local] Hint Resolve relay_no_bytes : core.
Lemma relay_doWrite x y fuel : keeps (relay x y) (doWrite no_bytes fuel).
Proof. unfold doWrite. relay. Qed.
#[local] Hint Resolve relay_doWrite : core.
Lemma relay_flush x y fuel : keeps (relay x y) (flush no_bytes fuel).
Proof. induction fuel as [|fuel IH]; cbn [flush]; relay. Qed.
#[local] Hint Resolve relay_flush : core.
Lemma relay_SetReadDisable x y b : keeps (relay x y) (SetReadDisable b).
Proof. unfold SetReadDisable. relay. Qed.
#[local] Hint Resolve relay_SetReadDisable : core.

(** ** Closing *)

Definition set_closing (v : bool) (x : side) : side := mk_side (ready x) (loose x) v (total x).
Definition set_loose (v : bool) (x : side) : side := mk_side (ready x) v (closing x) (total x).

(** After a close nothing is read any more: what was lost stays lost. *)
Lemma relay_stopped x y s : relay x y s → stopped s.1 = true → relay (set_loose false (set_closing false x)) y s.
Proof.
  intros (Ha & ? & (l & E & _) & ?) Hst. split_and!; try done; [destruct Ha; by split|]. exists l. split; [done|]. by right; left.
Qed.

Lemma relay_Close x y ev OnEvent fuel ty v s a s' : closing x = false → loose x = false → (∀ cb, keeps (relay x y) (OnEvent cb ev)) →
  relay (set_loose v x) y s → Close OnEvent no_bytes fuel ty ev s = Ret (a, s') → relay x y s'.
Proof.
  intros Hcx Hlx Hev Hs E. assert (set_loose false (set_closing false x) = x) as Hx by (destruct x; cbn in *; by subst).
  destruct s as [c [b p]]. unfold Close in E. apply sg_bind_Ret_inv in E as (cl & ? & [= <- <-] & E). cbn [fst] in E.
  destruct (closed c) eqn:Hc.
  { injection E as _ <-. rewrite <- Hx. apply (relay_stopped (set_loose v x)); [done|]. destruct Hs as ([] & _). by auto. }
  apply sg_bind_Ret_inv in E as (? & s1 & [= <- <-] & E). cbn [fst snd] in E.
  assert (relay (set_closing true (set_loose v x)) y (set_closed true c, (b, p))) as H1.
  { destruct Hs as ([] & ? & ? & ?). by split_and!. }
  revert E. generalize (set_closed true c, (b, p)), H1. clear -Hev Hx. intros s1 H1 E.
  apply sg_bind_Ret_inv in E as (raw & ? & [= <- <-] & E). rewrite (so_raw _ _ (proj1 H1)) in E.
  apply sg_bind_Ret_inv in E as (n & ? & [= <- <-] & E). apply sg_bind_Ret_inv in E as (? & s2 & E2 & E).
  assert (relay (set_closing true (set_loose v x)) y s2) as H2.
  { assert (keeps (relay (set_closing true (set_loose v x)) y) (match ty with
        | FlushWrite => sg_when (bool_decide (0 < writeBufLen s1.1)) (_ ← mod_cn (set_closeWithFlush true); flush no_bytes fuel)
        | NoFlush => mret tt end)) as Hk by relay.
    by eapply Hk; [exact H1|exact E2]. }
  apply sg_bind_Ret_inv in E as (? & ? & [= <- <-] & E). apply sg_bind_Ret_inv in E as (? & ? & [= <- <-] & E).
  rewrite (so_started _ _ (proj1 H2)) in E. cbn [sg_when] in E. apply sg_bind_Ret_inv in E as (? & s3 & E3 & E).
  apply sg_bind_Ret_inv in E3 as ([] & s4 & E4 & [= <- <-]). assert (s4 = s2) as -> by (unfold sg_lift in E4; destruct (go_assert _ _); [by injection E4|done]).
  assert (relay x y (set_stopped true s2.1, s2.2)) as H3.
  { rewrite <- Hx. apply (relay_stopped (set_closing true (set_loose v x))); [|done]. destruct H2 as ([] & ? & (l & ? & ?) & ?). split_and!; try done. exists l. split; [done|]. by right; left. }
  revert E. generalize (set_stopped true s2.1, s2.2), H3. clear -Hev. intros s H. revert s a s' H.
  change (keeps (relay x y) (st ← cn stats; _ ← sg_deref st; _ ← updateReadBufStats 0 0; _ ← updateWriteBuffStats 0 0;
      cbs ← cn connCallbacks; for_each cbs (λ cb, OnEvent cb ev))). relay.
Qed.

Section proxy.
  Context (routes : list route) (remote local : string)
          (cluster : string → option (option (socket * option io_error)))
          (pool_get : option IoBuffer) (fuel : nat).
  Hypothesis (Hpool : given pool_get).
Abbreviation downEvent := (down_OnEvent routes remote local cluster fuel).
Abbreviation upEvent := (up_OnEvent routes remote local cluster fuel).

(** A side that is neither just closing nor just losing bytes. *)
Definition settled (x : side) : Prop := closing x = false ∧ loose x = false.

Lemma relay_Close_settled x y ev OnEvent ty : settled x → (∀ cb, keeps (relay x y) (OnEvent cb ev)) →
  keeps (relay x y) (Close OnEvent no_bytes fuel ty ev).
Proof.
  intros [Hc Hl] Hev s a s' Hs E. eapply (relay_Close x y ev OnEvent fuel ty false); [done..| |exact E]. destruct x. cbn in *. by subst.
Qed.

(** Closes, passed on from side to side, keep the bytes in place. *)
Lemma relay_events n : ∀ x y cb ev, settled x → settled y → IsClose ev = true →
  keeps (relay x y) (downEvent n cb ev) ∧ keeps (relay x y) (upEvent n cb ev).
Proof.
  induction n as [|n IH]; intros x y cb ev Hx Hy Hev; [split; apply keeps_panic|].
  assert (∀ ty, keeps (relay x y) (swapped (Close (upEvent n) no_bytes fuel ty LocalClose))) as H1.
  { intros ty. apply keeps_swapped, relay_Close_settled; [done|]. intros cb'. by apply IH. }
  assert (∀ ty, keeps (relay x y) (swapped (Close (downEvent n) no_bytes fuel ty LocalClose))) as H2.
  { intros ty. apply keeps_swapped, relay_Close_settled; [done|]. intros cb'. by apply IH. }
  assert (keeps (relay x y) finalizeUpstreamConnectionStats) as H3 by (unfold finalizeUpstreamConnectionStats; relay).
  split; cbn [down_OnEvent up_OnEvent]; unfold onDownstreamEvent, uc_OnEvent, onUpstreamEvent; destruct ev; try done; relay.
Qed.

(** ** Reading and copying *)

(** The buffer of one side moves to the other side. *)
Lemma copy_run a b p x y : side_ok x a → side_ok y b →
  ∃ a' b', copy_buffer pool_get (a, (b, p)) = Ret (tt, (a', (b', p))) ∧
    a' = set_readBuffer (readBuffer a') a ∧ unread a' = [] ∧ (∀ w, readBuffer a' = Some w → wf w) ∧
    (∃ w, b' = set_writeBufferChan true (set_writeBuffer (Some w) (set_curWriteBufferData [] b)) ∧ wf w ∧ contents w = (pending b ++ unread a)%list).
Proof.
  intros [Ha _ _ _ _ _] [_ Hb _ _ _ _]. unfold copy_buffer.
  destruct (conn_Write_run no_filter pool_get [readBuffer a] b (a, p)) as (w & l' & E & Hw & Hcw & Hsh); [done..| |].
  { apply Forall_singleton. destruct (readBuffer a) eqn:Er; [by apply Ha|done]. }
  apply Forall2_cons_inv_l in Hsh as (o & l'' & Ho & Hl & ->). apply Forall2_nil_inv_l in Hl as ->.
  eexists (set_readBuffer o a), _. split_and!.
  - srun. eapply sg_run; [unfold swapped, flip_st; cbn [fst snd]; rewrite E; reflexivity|]. reflexivity.
  - by destruct a.
  - unfold unread. cbn. unfold same_shape in Ho. destruct (readBuffer a), o; try done. by destruct Ho.
  - cbn. intros w0 ->. unfold same_shape in Ho. destruct (readBuffer a); try done. by destruct Ho.
  - exists w. split_and!; [done..|]. rewrite Hcw. cbn. by rewrite app_nil_r.
Qed.

Lemma relay_copy x y : keeps (relay x y) (copy_buffer pool_get).
Proof.
  intros [a [b p]] [] s' (Ha & Hb & (l1 & E1 & H1) & (l2 & E2 & H2)) E. cbn [fst snd] in *.
  destruct (copy_run a b p x y Ha Hb) as (a' & b' & E' & Ea & Hua & Hwa & w & -> & Hw & Hcw).
  rewrite E' in E. injection E as <-. rewrite Ea in *. split_and!; cbn [fst snd].
  - destruct Ha as [? Ha2 ? ? ? ?]. split; cbn; [exact Hwa|done..].
  - destruct Hb as [Hb1 ? ? ? ? ?]. split; cbn; [exact Hb1|by intros ? [= <-]|done..].
  - exists l1. split; [|done]. unfold conserved, pending in *. rewrite Hua. cbn. rewrite Hcw. rewrite <- app_assoc. exact E1.
  - exists l2. split; [|done]. exact E2.
Qed.
Hint Resolve relay_copy : core.
Lemma relay_OnData x y f : keeps (relay x y) (OnData pool_get f).
Proof. unfold OnData. relay. Qed.
Lemma relay_onUpstreamData x y f : keeps (relay x y) (onUpstreamData pool_get f).
Proof. unfold onUpstreamData. relay. Qed.

Lemma open_filter i f c b : side_ok b c → side_ok b (set_upstreamFilters (<[i := mk_arf f i true]> (upstreamFilters c)) c).
Proof. intros [H1 H2 ? ? ? H3]. split; cbn; [done..|]. intros Hb. by apply Forall_insert; [apply H3|]. Qed.
Lemma relay_open x y i f : keeps (relay x y) (mod_cn (λ c, set_upstreamFilters (<[i := mk_arf f i true]> (upstreamFilters c)) c)).
Proof. apply relay_harmless. intros c. split_and!; try done. intros b. apply open_filter. Qed.
Hint Resolve relay_open : core.

(** A new connection is only seen by filters that are not open. *)
Lemma relay_read_filters x y new data n i : (ready x = true ∨ ∀ f, keeps (relay x y) (new f)) → (∀ f, keeps (relay x y) (data f)) →
  keeps (relay x y) (read_filters new data n i).
Proof.
  intros Hnew Hdata. revert i. induction n as [|n IH]; intros i; cbn [read_filters]; [apply keeps_panic|].
  intros s a s' Hs E. apply sg_bind_Ret_inv in E as (fs & ? & [= <- <-] & E). destruct (upstreamFilters s.1 !! i) as [uf|] eqn:Huf; [|by injection E as _ <-].
  assert (arf_initialized uf = true ∨ ∀ f, keeps (relay x y) (new f)) as Hinit.
  { destruct Hnew as [Hr|]; [left|by right]. destruct Hs as ([_ _ _ _ _ H3] & _). specialize (H3 Hr). rewrite Forall_forall in H3. by eapply H3, list_elem_of_lookup_2. }
  clear Huf. revert s a s' Hs E. match goal with |- ∀ s a s', _ → ?m s = _ → _ => change (keeps (relay x y) m) end.
  destruct Hinit as [->|Hn]; relay.
Qed.

Lemma relay_set_loose x y s : relay x y s → relay (set_loose true x) y s.
Proof. intros ([] & ? & (l & ? & ?) & ?). split_and!; try done. exists l. split; [done|]. by right; right. Qed.
(** The buffer is thrown away. *)
Lemma relay_drop x y s : relay x y s → relay (set_loose true x) y (set_readBuffer None s.1, s.2).
Proof.
  intros ([] & ? & (l & E & _) & ?). split_and!; try done. exists (unread s.1 ++ l)%list. split; [|by right; right].
  unfold conserved in *. cbn. by rewrite <- app_assoc.
Qed.

(** A read brings bytes into the buffer, or ends and throws the buffer away. *)
Lemma relay_doRead x y new data s err s' : settled x → stopped s.1 = false →
  (ready x = true ∨ ∀ f, keeps (relay x y) (new f)) → (∀ f, keeps (relay x y) (data f)) →
  relay x y s → doRead no_bytes new data pool_get fuel s = Ret (err, s') →
  match err with None => relay x y s' | Some _ => relay (set_loose true x) y s' end.
Proof.
  intros [_ Hlx] Hst Hnew Hdata Hs E. destruct s as [a [b p]]. pose proof Hs as (Ha & Hb & (l1 & E1 & H1) & (l2 & E2 & H2)). cbn [fst snd] in *.
  assert (l1 = []) as -> by (rewrite Hst, Hlx in H1; by destruct H1 as [?|[?|?]]).
  destruct (doRead_split _ _ _ _ _ _ _ _ _ Hpool (so_read _ _ Ha) E) as (b1 & k1 & d & Hb1 & Hc1 & Hin & Hsent & Hend).
  assert (relay x y (set_sock k1 (set_readBuffer (Some b1) a), (b, p))) as Hr.
  { split_and!; cbn [fst snd]; [|done| |].
    - destruct Ha as [? Ha2 ? ? ? ?]. split; cbn; [by intros ? [= <-]|done..].
    - exists []. split; [|by left]. unfold conserved in *. unfold unread at 1. cbn in *. rewrite Hc1, <- app_assoc, <- Hin. exact E1.
    - exists l2. split; [|done]. unfold conserved, unread, pending in *. cbn. by rewrite Hsent. }
  destruct err as [er|].
  - destruct Hend as [-> | ->]; [by apply relay_set_loose|]. by apply (relay_drop x y (set_sock k1 (set_readBuffer (Some b1) a), (b, p))).
  - destruct Hend as (q & Hend). clear E. revert s' Hend. generalize (set_sock k1 (set_readBuffer (Some b1) a), (b, p)), Hr. clear -Hnew Hdata. intros s Hs s' E.
    eapply (keeps_handed (relay x y)); [| | |exact Hs|exact E].
    + apply relay_updateRead.
    + intros. apply relay_no_bytes.
    + unfold onRead, OnRead, onContinueReading. relay. by apply relay_read_filters.
Qed.

(** ** Runs *)

Lemma relay_read_iteration x y new data ev : settled x → (ready x = true ∨ ∀ f, keeps (relay x y) (new f)) → (∀ f, keeps (relay x y) (data f)) →
  (∀ cb e, IsClose e = true → keeps (relay x y) (ev cb e)) → keeps (relay x y) (read_iteration ev no_bytes no_bytes new data pool_get fuel).
Proof.
  intros Hx Hnew Hdata Hev s a s' Hs E. unfold read_iteration in E. apply sg_bind_Ret_inv in E as (stp & ? & [= <- <-] & E).
  destruct (stopped s.1) eqn:Hst; [by injection E as _ <-|]. apply sg_bind_Ret_inv in E as (ch & ? & [= <- <-] & E). destruct (readEnabledChan s.1).
  { apply sg_bind_Ret_inv in E as (? & s1 & E1 & E). injection E as _ <-. eapply relay_harmless; [|exact Hs|exact E1]. harmless. }
  apply sg_bind_Ret_inv in E as (en & ? & [= <- <-] & E). destruct (readEnabled s.1); [|by injection E as _ <-].
  apply sg_bind_Ret_inv in E as (err & s1 & E1 & E). pose proof (relay_doRead x y new data s err s1 Hx Hst Hnew Hdata Hs E1) as H1.
  destruct err as [er|]; [|by injection E as _ <-]. destruct Hx as [Hc Hl].
  destruct er; apply sg_bind_Ret_inv in E as (? & s2 & E2 & E); injection E as _ <-;
    (eapply (relay_Close x y); [done|done| |exact H1|exact E2]; intros; by apply Hev).
Qed.
Lemma relay_write_iteration x y ev : settled x → (∀ cb e, IsClose e = true → keeps (relay x y) (ev cb e)) →
  keeps (relay x y) (write_iteration ev no_bytes fuel).
Proof.
  intros Hx Hev. assert (∀ ty e, IsClose e = true → keeps (relay x y) (Close ev no_bytes fuel ty e)) as Hcl.
  { intros ty e He. apply relay_Close_settled; [done|]. intros. by apply Hev. }
  unfold write_iteration. relay; by apply Hcl.
Qed.

(** What may happen once a client is connected: an iteration of one of the four
    loops, or a close of one of the connections. *)
Inductive top := TDownRead | TDownWrite | TUpRead | TUpWrite | TDownClose (ty : ConnectionCloseType) (ev : ConnectionEvent) | TUpClose (ty : ConnectionCloseType) (ev : ConnectionEvent).
Definition run_top (op : top) : M unit :=
  match op with
  | TDownRead => _ ← down_read routes remote local cluster pool_get fuel; mret tt
  | TDownWrite => _ ← down_write routes remote local cluster fuel; mret tt
  | TUpRead => _ ← up_read routes remote local cluster pool_get fuel; mret tt
  | TUpWrite => _ ← up_write routes remote local cluster fuel; mret tt
  | TDownClose ty ev => Close (downEvent depth) no_bytes fuel ty ev
  | TUpClose ty ev => swapped (Close (upEvent depth) no_bytes fuel ty ev)
  end.
Fixpoint run_tops (l : list top) : M unit :=
  match l with [] => mret tt | op :: l => _ ← run_top op; run_tops l end.
Definition top_ok (op : top) : Prop := match op with TDownClose _ ev | TUpClose _ ev => IsClose ev = true | _ => True end.

Lemma relay_down n x y : settled x → settled y → ∀ cb e, IsClose e = true → keeps (relay x y) (downEvent n cb e).
Proof. intros Hx Hy cb e He. exact (proj1 (relay_events n x y cb e Hx Hy He)). Qed.
Lemma relay_up n x y : settled x → settled y → ∀ cb e, IsClose e = true → keeps (relay x y) (upEvent n cb e).
Proof. intros Hx Hy cb e He. exact (proj2 (relay_events n x y cb e Hx Hy He)). Qed.

Lemma relay_run_top x y op : settled x → settled y → ready x = true → top_ok op → keeps (relay x y) (run_top op).
Proof.
  intros Hx Hy Hr Hop. pose proof (relay_down depth x y Hx Hy) as Hd. pose proof (relay_up depth y x Hy Hx) as Hu.
  destruct op; cbn [run_top]; unfold down_read, down_write, up_read, up_write; revert Hd Hu; generalize (downEvent depth), (upEvent depth); intros D U Hd Hu.
  - apply keeps_bind; [|intros; apply keeps_ret]. exact (relay_read_iteration x y _ _ D Hx (or_introl Hr) (relay_OnData x y) Hd).
  - apply keeps_bind; [|intros; apply keeps_ret]. exact (relay_write_iteration x y D Hx Hd).
  - apply keeps_bind; [|intros; apply keeps_ret]. apply keeps_swapped.
    exact (relay_read_iteration y x _ _ U Hy (or_intror (λ f, keeps_ret _ _)) (relay_onUpstreamData y x) Hu).
  - apply keeps_bind; [|intros; apply keeps_ret]. apply keeps_swapped. exact (relay_write_iteration y x U Hy Hu).
  - apply relay_Close_settled; [done|]. intros. by apply Hd.
  - apply keeps_swapped, relay_Close_settled; [done|]. intros. by apply Hu.
Qed.

Lemma relay_run_tops x y l : settled x → settled y → ready x = true → Forall top_ok l → keeps (relay x y) (run_tops l).
Proof.
  intros Hx Hy Hr. induction 1 as [|op l Hop _ IH]; cbn [run_tops]; [apply keeps_ret|].
  apply keeps_bind; [by apply relay_run_top|by intros].
Qed.

(** ** Accepting a client *)

Definition connected (logs : nat) (res : resource) : proxy :=
  set_hasUpstream true (set_connResource (Increase res) (set_hasHost true (NewProxy logs res))).

Lemma connect_run kd ku c0 logs res k :
  cluster (GetRouteFromEntries routes remote local) = Some (Some (ku, None)) → CanCreate res = true →
  OnNewConnection routes remote local cluster fuel k
    (mk_conn Raw kd false 0 false 0 false false [0%nat] [] [] [mk_arf 0 0 true] [] [] None None false false false (Some new_stats) 0 0 false false, (c0, NewProxy logs res)) =
  Ret (Continue, (mk_conn Raw kd true 0 true 0 false false [0%nat] [] [] [mk_arf 0 0 true] [] [] None None false false false (Some new_stats) 0 0 false false,
    (mk_conn Raw ku true 0 true 0 false false [0%nat] [] [] [mk_arf 0 0 false] [] [] None None false true false (Some new_stats) 0 0 false true,
    connected logs res))).
Proof.
  intros Hc Hres. unfold OnNewConnection, initializeUpstreamConnection. rewrite Hc. eapply sg_run; [reflexivity|]. cbn [snd connResource NewProxy].
  rewrite Hres. reflexivity.
Qed.
Lemma accept_run kd ku c0 logs res :
  cluster (GetRouteFromEntries routes remote local) = Some (Some (ku, None)) → CanCreate res = true → (2 ≤ fuel)%nat →
  accept_client routes remote local cluster pool_get fuel (NewServerConnection kd, (c0, NewProxy logs res)) =
  Ret (true, (mk_conn Raw kd true 0 true 0 false false [0%nat] [] [] [mk_arf 0 0 true] [] [] None None false true false (Some new_stats) 0 0 false false,
    (mk_conn Raw ku true 0 true 0 false false [0%nat] [] [] [mk_arf 0 0 false] [] [] None None false true false (Some new_stats) 0 0 false true,
    connected logs res))).
Proof.
  intros Hc Hres Hf. unfold accept_client. destruct fuel as [|[|f]] eqn:Ef; [lia..|].
  eapply sg_run; [reflexivity|]. eapply sg_run; [reflexivity|]. eapply sg_run.
  - eapply sg_run; [reflexivity|]. eapply sg_run.
    + cbn [read_filters onContinueReading]. eapply sg_run; [reflexivity|]. eapply sg_run; [reflexivity|].
      eapply sg_run; [rewrite <- Ef; exact (connect_run kd ku c0 logs res _ Hc Hres)|]. reflexivity.
    + reflexivity.
  - reflexivity.
Qed.

(** A connected client and host, before any byte has moved. *)
Lemma accept_relay kd ku c0 logs res b s :
  cluster (GetRouteFromEntries routes remote local) = Some (Some (ku, None)) → CanCreate res = true → (2 ≤ fuel)%nat →
  sk_sent kd = [] → sk_sent ku = [] →
  accept_client routes remote local cluster pool_get fuel (NewServerConnection kd, (c0, NewProxy logs res)) = Ret (b, s) →
  relay (mk_side true false false (concat (sk_in kd))) (mk_side false false false (concat (sk_in ku))) s.
Proof.
  intros Hc Hres Hf Hd Hu E. rewrite (accept_run kd ku c0 logs res Hc Hres Hf) in E. injection E as _ <-.
  split_and!; cbn [fst snd total loose]; [by split; cbn; auto|by split; cbn|exists []..]; (split; [|by left]);
    unfold conserved, unread, pending; cbn; by rewrite ?Hd, ?Hu.
Qed.

(** C9. A TCP proxy relays: after a client has been accepted and connected to a host, in
    whatever order the read and write loops of the two connections run and whichever
    side is closed, the bytes sent to the host, those waiting to be sent to it, those
    read and not yet copied, and those the client's socket still holds are the bytes
    that the client sends, in that order, and likewise from the host to the client.
    Bytes are lost only behind the ones read, and on a connection that has been closed. *)
Theorem tcp_proxy_relays kd ku c0 logs res l b s s' :
  cluster (GetRouteFromEntries routes remote local) = Some (Some (ku, None)) → CanCreate res = true → (2 ≤ fuel)%nat →
  sk_sent kd = [] → sk_sent ku = [] → Forall top_ok l →
  accept_client routes remote local cluster pool_get fuel (NewServerConnection kd, (c0, NewProxy logs res)) = Ret (b, s) →
  run_tops l s = Ret (tt, s') →
  let down := s'.1 in let up := s'.2.1 in
  (∃ lost, sk_sent (sock up) ++ pending up ++ unread down ++ lost ++ concat (sk_in (sock down)) = concat (sk_in kd) ∧
     (lost = [] ∨ stopped down = true))%list ∧
  (∃ lost, sk_sent (sock down) ++ pending down ++ unread up ++ lost ++ concat (sk_in (sock up)) = concat (sk_in ku) ∧
     (lost = [] ∨ stopped up = true))%list.
Proof.
  intros Hc Hres Hf Hd Hu Hl Ea Er. pose proof (accept_relay _ _ _ _ _ _ _ Hc Hres Hf Hd Hu Ea) as H.
  unshelve epose proof (relay_run_tops _ _ l _ _ _ Hl s tt s' H Er) as (_ & _ & (l1 & E1 & H1) & (l2 & E2 & H2)); [done..|].
  cbn in H1, H2. split; [exists l1|exists l2]; (split; [done|]); [destruct H1 as [?|[?|?]]|destruct H2 as [?|[?|?]]]; auto; done.
Qed.
End proxy.

(** ** Examples *)

Definition all_routes : list route := [mk_route [] [] "c"].
Definition cluster_of (hosts : option (socket * option io_error)) (name : string) : option (option (socket * option io_error)) :=
  if bool_decide (name = "c") then Some hosts else None.

(** A client and a host with what they send, the outcome of the dial, and a run. *)
Definition tcp_session (client host : socket) (dial : option io_error) (l : list top) : Go (bool * st) :=
  (b ← accept_client all_routes "" "" (cluster_of (Some (host, dial))) None 4;
   _ ← run_tops all_routes "" "" (cluster_of (Some (host, dial))) None 4 l;
   mret b) (NewServerConnection client, (NewServerConnection client, NewProxy 1 (mk_res 0 8))).

Definition client_sock : socket := mk_sock [str_bytes "pi"; str_bytes "ng"] EOF [] [].
Definition host_sock : socket := mk_sock [str_bytes "pong"] EOF [] [].
(** The first iteration of a read loop only takes the signal that reading is enabled. *)
Definition wake : list top := [TDownRead; TUpRead].

(** What reached the host and the client, whether the client's and the host's
    connections are closed, the connections counted, and the entries logged. *)
Definition outcome (r : Go (bool * st)) : option (bytes * bytes * bool * bool * Z * nat) :=
  match r with
  | Ret (_, (d, (u, p))) => Some (sk_sent (sock u), sk_sent (sock d), closed d, closed u, current (connResource p), logged p)
  | Panic _ => None
  end.

Example relayed : outcome (tcp_session client_sock host_sock None (wake ++ [TDownRead; TUpWrite; TUpRead; TDownRead; TDownWrite; TUpWrite])) =
  Some (str_bytes "ping", str_bytes "pong", false, false, 1, 0%nat).
Proof. vm_compute. reflexivity. Qed.
(** The client closes: what is waiting for the host is sent, the host's connection is
    closed, and it is no longer counted. *)
Example client_closes : outcome (tcp_session client_sock host_sock None (wake ++ [TDownRead; TDownRead; TDownRead])) =
  Some (str_bytes "ping", [], true, true, 0, 1%nat).
Proof. vm_compute. reflexivity. Qed.
Example host_closes : outcome (tcp_session client_sock host_sock None (wake ++ [TUpRead; TUpRead])) =
  Some ([], str_bytes "pong", true, true, 0, 1%nat).
Proof. vm_compute. reflexivity. Qed.
(** A read error of the client leaves the host's connection open and counted. *)
Example client_error_keeps_host : outcome (tcp_session (mk_sock [] (IoOther 0) [] []) host_sock None (wake ++ [TDownRead])) =
  Some ([], [], true, false, 1, 1%nat).
Proof. vm_compute. reflexivity. Qed.
(** A dial that fails leaves the client's connection open, with reading disabled, and
    the host's connection counted. *)
Example failed_dial_hangs : outcome (tcp_session client_sock host_sock (Some (IoOther 0)) [TDownRead; TDownRead]) =
  Some ([], [], false, false, 1, 0%nat).
Proof. vm_compute. reflexivity. Qed.
(** A dial that times out panics: the connection that it closes has no socket. *)
Example timed_out_dial_panics : ∃ k, tcp_session client_sock host_sock (Some RTimeout) [] = Panic k.
Proof. eexists. vm_compute. reflexivity. Qed.
(** A route for some destinations is taken for every other destination. *)
Example destinations_inverted : GetRouteFromEntries [mk_route [] ["10.0.0.1:80"] "c"] "" "10.0.0.1:80" = "" ∧
  GetRouteFromEntries [mk_route [] ["10.0.0.1:80"] "c"] "" "10.0.0.2:80" = "c".
Proof. split; reflexivity. Qed.

Lemma tcp_proxy_relays_witness : ∃ b down up p,
  tcp_session client_sock host_sock None (wake ++ [TDownRead; TUpWrite; TUpRead]) = Ret (b, (down, (up, p))) ∧
  (∃ lost, sk_sent (sock up) ++ pending up ++ unread down ++ lost ++ concat (sk_in (sock down)) = str_bytes "ping" ∧
     (lost = [] ∨ stopped down = true))%list ∧
  (∃ lost, sk_sent (sock down) ++ pending down ++ unread up ++ lost ++ concat (sk_in (sock up)) = str_bytes "pong" ∧
     (lost = [] ∨ stopped up = true))%list.
Proof.
  eexists _, _, _, _. split; [vm_compute; reflexivity|].
  refine (tcp_proxy_relays all_routes "" "" (cluster_of (Some (host_sock, None))) None 4 _ client_sock host_sock
    (NewServerConnection client_sock) 1 (mk_res 0 8) (wake ++ [TDownRead; TUpWrite; TUpRead]) _ _ (_, (_, _))
    eq_refl eq_refl _ eq_refl eq_refl _ _ _); [done|lia|by repeat constructor| |].
  - vm_compute. reflexivity.
  - vm_compute. reflexivity.
Defined.
