(* ===== verification/FaultInject.v ===== *)
(** * Delayed connections: pkg/filter/network/faultinject/faultinject.go

    The fault injector is a read filter of [Connection] that now and then holds
    back the filters behind it until a timer fires.  Here it is the first of two
    filters; the second one takes all the bytes it is given, and [taken] is what
    it took.  A delay that was started is [in_delaying] until its timer fires,
    an operation of its own ([delay_fires]).  The numbers that the random
    generator draws are the injector's [in_draws], and 0 after them. *)

From S2P Require Import Prelude IoBuffer StateGo Connection ConnectionProps.

Local Open Scope Z_scope.

Record faultInjector := mk_injector {
  in_percent : Z; in_duration : Z; in_delaying : bool; in_draws : list Z;
}.
Definition NewFaultInjector (percent duration : Z) (draws : list Z) : faultInjector := mk_injector percent duration false draws.

Definition in_getDelayDuration (f : faultInjector) : faultInjector * Z :=
  if bool_decide (in_percent f = 0) then (f, 0)
  else
  let n := default 0 (head (in_draws f)) in
  let f := mk_injector (in_percent f) (in_duration f) (in_delaying f) (tail (in_draws f)) in
  if bool_decide (in_percent f < to_uint32 (to_uint32 n + 1)) then (f, 0) else (f, in_duration f).

Definition in_tryInjectDelay (f : faultInjector) : faultInjector :=
  if in_delaying f then f
  else
  let '(f, duration) := in_getDelayDuration f in
  if bool_decide (0 < duration) then mk_injector (in_percent f) (in_duration f) true (in_draws f) else f.

(** A connection, the injector on it, and what the filter behind it took. *)
Abbreviation ist := (connection * (faultInjector * bytes))%type.
Abbreviation I := (SG ist).

Definition in_get {A} (f : faultInjector → A) : I A := λ s, Ret (f s.2.1, s).
Definition in_mod (f : faultInjector → faultInjector) : I unit := sg_modify (λ s, (s.1, (f s.2.1, s.2.2))).

Definition in_OnData : I FilterStatus :=
  _ ← in_mod in_tryInjectDelay;
  d ← in_get in_delaying;
  mret (if d : bool then StopIteration else Continue).
Definition in_OnNewConnection : I FilterStatus := mret Continue.

(** The filter behind. *)
Definition take_all : I FilterStatus :=
  o ← cn readBuffer;
  b ← sg_deref o;
  _ ← sg_modify (λ s : ist, (s.1, (s.2.1, s.2.2 ++ contents b)%list));
  _ ← mod_cn (set_readBuffer (Some (Drain b (Len b))));
  mret StopIteration.

Definition chain_OnData (f : nat) : I FilterStatus := match f with O => in_OnData | S _ => take_all end.
Definition chain_OnNewConnection (f : nat) : I FilterStatus := match f with O => in_OnNewConnection | S _ => mret Continue end.

Section run.
  Context (pool_get : option IoBuffer) (fuel : nat).

(** The goroutine of a delay, when it is over. *)
Definition delay_fires : I unit :=
  d ← in_get in_delaying;
  if negb d then mret tt
  else
  _ ← in_mod (λ f, mk_injector (in_percent f) (in_duration f) false (in_draws f));
  ContinueReading chain_OnNewConnection chain_OnData fuel 0.

Definition in_read : I bool :=
  read_iteration (λ _ _, mret tt) (λ _ _, mret tt) (λ _ _, mret tt) chain_OnNewConnection chain_OnData pool_get fuel.

Inductive iop := IRead | IFire.
Definition run_iop (o : iop) : I unit := match o with IRead => _ ← in_read; mret tt | IFire => delay_fires end.
Fixpoint run_iops (l : list iop) : I unit := match l with [] => mret tt | o :: l => _ ← run_iop o; run_iops l end.

(** A connection with the two filters, started. *)
Definition injected : I bool :=
  _ ← AddReadFilter 0;
  _ ← AddReadFilter 1;
  b ← InitializeReadFilters chain_OnNewConnection chain_OnData fuel;
  _ ← Start;
  mret b.
End run.
