(* ===== verification/FaultInjectProps.v ===== *)
(** * Theorems on [FaultInject]

    A delay holds bytes back and loses none of them. *)

From S2P Require Import Prelude IoBuffer StateGo Connection ConnectionProps FaultInject.

Local Open Scope Z_scope.

(** ** The invariant *)

Definition both_open : list activeReadFilter := [mk_arf 0 0 true; mk_arf 1 1 true].

(** Taken, waiting in the buffer, lost, and not yet read; [loose] right after a
    read that failed. *)
Record passing (loose : bool) (total : bytes) (s : ist) : Prop := {
  ps_buffer b : readBuffer s.1 = Some b → wf b;
  ps_filters : upstreamFilters s.1 = both_open;
  ps_raw : rawConnection s.1 = Raw;
  ps_started : internalLoopStarted s.1 = true;
  ps_enabled : readEnabled s.1 = true;
  ps_callbacks : connCallbacks s.1 = [];
  ps_closed : closed s.1 = stopped s.1;
  ps_flow : ∃ lost, (s.2.2 ++ unread s.1 ++ lost ++ concat (sk_in (sock s.1)) = total)%list ∧ (lost = [] ∨ stopped s.1 = true ∨ loose = true);
}.
(** Only a delay keeps bytes in the buffer of an open connection. *)
Definition held (s : ist) : Prop := in_delaying s.2.1 = false → unread s.1 = [] ∨ stopped s.1 = true.

(** Changes of a connection that concern neither. *)
Definition aside (f : connection → connection) : Prop :=
  ∀ c, sock (f c) = sock c ∧ readBuffer (f c) = readBuffer c ∧ upstreamFilters (f c) = upstreamFilters c ∧
    rawConnection (f c) = rawConnection c ∧ internalLoopStarted (f c) = internalLoopStarted c ∧ readEnabled (f c) = readEnabled c ∧
    connCallbacks (f c) = connCallbacks c ∧ closed (f c) = closed c ∧ stopped (f c) = stopped c.

Definition fine (total : bytes) (s : ist) : Prop := passing false total s ∧ held s.

Lemma passing_aside l total f : aside f → keeps (passing l total) (mod_cn f).
Proof.
  intros Hf. apply keeps_modify. intros [c w] []. destruct (Hf c) as (H1 & H2 & H3 & H4 & H5 & H6 & H7 & H8 & H9). cbn [fst snd] in *.
  split; cbn [fst snd]; unfold unread in *; by rewrite ?H1, ?H2, ?H3, ?H4, ?H5, ?H6, ?H7, ?H8, ?H9.
Qed.
Lemma fine_aside total f : aside f → keeps (fine total) (mod_cn f).
Proof.
  intros Hf s a s' [Hp Hh] E. split; [by eapply passing_aside|]. injection E as _ <-. destruct (Hf s.1) as (_ & Hb & _ & _ & _ & _ & _ & _ & Hst). unfold held, unread in *. cbn. by rewrite Hb, Hst.
Qed.

Lemma passing_stats l total a b : keeps (passing l total) (updateReadBufStats a b).
Proof.
  unfold updateReadBufStats. apply keeps_bind; [by intros ? ? ? ? [= _ <-]|intros [st|]]; [|apply keeps_ret].
  apply keeps_bind; [by intros ? ? ? ? [= _ <-]|intros ?]. case_bool_decide; case_bool_decide; apply passing_aside; by intros [].
Qed.

Lemma stats_aside {W} a b (s : connection * W) u s' : updateReadBufStats a b s = Ret (u, s') →
  readBuffer s'.1 = readBuffer s.1 ∧ stopped s'.1 = stopped s.1 ∧ s'.2 = s.2.
Proof.
  unfold updateReadBufStats. intros E. apply sg_bind_Ret_inv in E as (st & ? & [= <- <-] & E). destruct (stats s.1); [|by injection E as _ <-].
  apply sg_bind_Ret_inv in E as (? & ? & [= <- <-] & E). repeat case_bool_decide; by injection E as _ <-.
Qed.

(** ** The filters *)

Lemma drain_all b : wf b → wf (Drain b (Len b)) ∧ contents (Drain b (Len b)) = [].
Proof.
  intros Hwf. unfold Drain. rewrite bool_decide_false by (unfold Len; lia).
  destruct (advance b (Z.to_nat (Len b)) ResetOffMark Hwf) as [Hw Hc].
  { pose proof (length_contents b Hwf). lia. }
  rewrite Z2Nat.id in Hw, Hc by (pose proof (length_contents b Hwf); lia). split; [done|]. rewrite Hc.
  apply drop_ge. pose proof (length_contents b Hwf). lia.
Qed.

Lemma reopened c : upstreamFilters c = both_open → set_upstreamFilters both_open c = c.
Proof. intros H. destruct c. cbn in *. by subst. Qed.

(** The filter behind the injector takes everything, when there is something. *)
Definition taken_from (c : connection) (fi : faultInjector) (t : bytes) : ist :=
  match readBuffer c with
  | Some b => if bool_decide (0 < Len b) then (set_readBuffer (Some (Drain b (Len b))) c, (fi, t ++ contents b)%list) else (c, (fi, t))
  | None => (c, (fi, t))
  end.

Lemma take_all_run c fi t b : readBuffer c = Some b →
  take_all (c, (fi, t)) = Ret (StopIteration, (set_readBuffer (Some (Drain b (Len b))) c, (fi, t ++ contents b)%list)).
Proof. intros Hb. unfold take_all. srun. rewrite Hb. reflexivity. Qed.

Lemma behind_run fuel c fi t : upstreamFilters c = both_open →
  read_filters chain_OnNewConnection chain_OnData (S (S fuel)) 1 (c, (fi, t)) = Ret (tt, taken_from c fi t).
Proof.
  intros Hf. cbn [read_filters]. srun. rewrite Hf. cbn [lookup both_open list_lookup]. srun. cbn [arf_filter]. rewrite Hf.
  change (<[1%nat:=_]> both_open) with both_open. rewrite (reopened c Hf). srun. srun. unfold GetReadBuffer, taken_from.
  destruct (readBuffer c) as [b|] eqn:Hb; [case_bool_decide|].
  - eapply sg_run; [by apply take_all_run|]. reflexivity.
  - srun. srun. rewrite Hf. reflexivity.
  - srun. srun. rewrite Hf. reflexivity.
Qed.

(** The injector first. *)
Lemma chain_run fuel c fi t b : upstreamFilters c = both_open → readBuffer c = Some b → 0 < Len b →
  OnRead chain_OnNewConnection chain_OnData (S (S (S fuel))) (c, (fi, t)) =
  Ret (tt, let fi := in_tryInjectDelay fi in if in_delaying fi then (c, (fi, t)) else taken_from c fi t).
Proof.
  intros Hf Hb Hlen. unfold OnRead, onContinueReading. cbn [read_filters]. srun. rewrite Hf. cbn [lookup both_open list_lookup]. srun. cbn [arf_filter]. rewrite Hf.
  change (<[0%nat:=_]> both_open) with both_open. rewrite (reopened c Hf). srun. srun. unfold GetReadBuffer. rewrite Hb, bool_decide_true by done.
  eapply sg_run; [reflexivity|]. cbn [fst snd]. destruct (in_delaying (in_tryInjectDelay fi)); [done|]. by apply behind_run.
Qed.

Lemma taken_cases c fi t : (∀ b, readBuffer c = Some b → wf b) →
  (taken_from c fi t = (c, (fi, t)) ∧ unread c = []) ∨
  ∃ b, wf b ∧ contents b = [] ∧ taken_from c fi t = (set_readBuffer (Some b) c, (fi, t ++ unread c)%list).
Proof.
  intros Hw. unfold taken_from, unread. destruct (readBuffer c) as [b|]; [|by left]. pose proof (Hw b eq_refl) as Hwf. destruct (drain_all b Hwf) as [Hd Hc].
  case_bool_decide as Hlen; [right; by eexists|]. left. split; [done|]. apply len0_contents; [done|]. pose proof (length_contents b Hwf). lia.
Qed.

Lemma taken_passing total c fi t : passing false total (c, (fi, t)) → passing false total (taken_from c fi t) ∧ unread (taken_from c fi t).1 = [] ∧
  (taken_from c fi t).2.1 = fi.
Proof.
  intros Hp. destruct (taken_cases c fi t (ps_buffer _ _ _ Hp)) as [[-> ?]|(b & Hb & Hc & ->)]; [done|]. split_and!; [|done..].
  destruct Hp as [? ? ? ? ? ? ? (lost & E & Hl)]. split; try done; [by intros ? [= <-]|]. exists lost. split; [|done].
  unfold unread at 1. cbn. rewrite Hc, <- app_assoc. exact E.
Qed.

Lemma passing_injector total c fi fi' t : passing false total (c, (fi, t)) → passing false total (c, (fi', t)).
Proof. intros []. by split. Qed.

Lemma onRead_fine total fuel n c fi t s' a : passing false total (c, (fi, t)) → (n = 0 → held (c, (fi, t))) → (n ≠ 0 → unread c ≠ []) → (3 ≤ fuel)%nat →
  onRead chain_OnNewConnection chain_OnData fuel n (c, (fi, t)) = Ret (a, s') → fine total s'.
Proof.
  intros Hp H0 Hn Hfuel E. unfold onRead in E. apply sg_bind_Ret_inv in E as (en & ? & [= <- <-] & E). pose proof (ps_enabled _ _ _ Hp) as Hen. cbn [fst] in E, Hen. rewrite Hen in E. cbn [negb] in E.
  case_bool_decide as Hz; [injection E as _ <-; split; by auto|]. specialize (Hn Hz). unfold unread in Hn. destruct (readBuffer c) as [b|] eqn:Hb; [|done]. cbn in Hn.
  destruct fuel as [|[|[|fuel]]]; try lia. rewrite (chain_run fuel c fi t b) in E; [|by destruct Hp|done|].
  2:{ pose proof (length_contents b (ps_buffer _ _ _ Hp b Hb)). destruct (contents b); [done|]. cbn in *. lia. }
  injection E as <- <-. apply (passing_injector _ _ _ (in_tryInjectDelay fi)) in Hp. cbv zeta. destruct (in_delaying (in_tryInjectDelay fi)) eqn:Hd.
  - split; [done|]. unfold held. cbn. by rewrite Hd.
  - destruct (taken_passing _ _ _ _ Hp) as (? & ? & ?). split; [done|]. by left.
Qed.

(** ** Reads, delays and their ends *)

Lemma write_stats_aside total a b : keeps (fine total) (updateReadBufStats a b) ∧ keeps (fine total) (updateWriteBuffStats a b).
Proof.
  split; [unfold updateReadBufStats|unfold updateWriteBuffStats]; (apply keeps_bind; [by intros ? ? ? ? [= _ <-]|intros [st|]]; [|apply keeps_ret]);
    (apply keeps_bind; [by intros ? ? ? ? [= _ <-]|intros ?]); repeat case_bool_decide; apply fine_aside; by intros [].
Qed.

(** Nobody listens: a close stops the loops and changes nothing else. *)
Lemma close_stops l total ev fuel s a s' : passing l total s → stopped s.1 = false →
  Close (λ _ _, mret tt) (λ _ _, mret tt) fuel NoFlush ev s = Ret (a, s') → fine total s'.
Proof.
  intros Hp Hst E. unfold Close in E. apply sg_bind_Ret_inv in E as (cl & ? & [= <- <-] & E). rewrite (ps_closed _ _ _ Hp), Hst in E.
  apply sg_bind_Ret_inv in E as (? & s1 & [= <- <-] & E). apply sg_bind_Ret_inv in E as (raw & ? & [= <- <-] & E).
  cbn [fst rawConnection set_closed] in E. rewrite (ps_raw _ _ _ Hp) in E. do 2 apply sg_bind_Ret_inv in E as (? & ? & [= <- <-] & E).
  do 2 apply sg_bind_Ret_inv in E as (? & ? & [= <- <-] & E). cbn [fst internalLoopStarted set_closed stopped] in E. rewrite (ps_started _ _ _ Hp), Hst in E.
  apply sg_bind_Ret_inv in E as (? & ? & [= <- <-] & E).
  assert (fine total (set_stopped true (set_closed true s.1), s.2)) as H1.
  { split; [|by right]. destruct Hp as [? ? ? ? ? ? ? (lost & ? & ?)]. split; try done. exists lost. split; [done|]. by right; left. }
  revert a s' E. generalize (set_stopped true (set_closed true s.1), s.2), H1. clear. intros s Hs a s' E. cbn [fst snd] in E.
  revert s a s' Hs E. match goal with |- ∀ s a s', _ → ?m s = _ → _ => change (keeps (fine total) m) end.
  apply keeps_bind; [by intros ? ? ? ? [= _ <-]|intros st]. apply keeps_bind; [apply keeps_deref|intros _].
  apply keeps_bind; [apply write_stats_aside|intros _]. apply keeps_bind; [apply write_stats_aside|intros _].
  apply keeps_bind; [by intros ? ? ? ? [= _ <-]|intros cbs]. induction cbs; cbn [for_each]; [apply keeps_ret|]. by apply keeps_bind; [apply keeps_ret|].
Qed.

Section run.
  Context (pool_get : option IoBuffer) (fuel : nat).
  Hypothesis (Hpool : given pool_get) (Hfuel : (3 ≤ fuel)%nat).

Lemma read_passing total c fi t b1 k1 d : passing false total (c, (fi, t)) → stopped c = false → wf b1 →
  contents b1 = (unread c ++ d)%list → concat (sk_in (sock c)) = (d ++ concat (sk_in k1))%list →
  passing false total (set_sock k1 (set_readBuffer (Some b1) c), (fi, t)) ∧
  passing true total (set_readBuffer None (set_sock k1 (set_readBuffer (Some b1) c)), (fi, t)).
Proof.
  intros [H1 H2 H3 H4 H5 H6 H7 (lost & E & Hl)] Hst Hb Hc Hin. cbn [fst snd] in *. assert (lost = []) as -> by (rewrite Hst in Hl; by destruct Hl as [?|[?|?]]).
  cbn in E. rewrite Hin in E. split.
  - split; try done; [by intros ? [= <-]|]. exists []. split; [|by left]. unfold unread at 1. cbn. rewrite Hc, <- app_assoc. exact E.
  - split; try done. exists (contents b1). split; [|by right; right]. cbn. rewrite Hc, <- app_assoc. exact E.
Qed.
Lemma passing_loose total s : passing false total s → passing true total s.
Proof. intros [? ? ? ? ? ? ? (lost & ? & ?)]. split; try done. exists lost. split; [done|]. by right; right. Qed.

Lemma in_read_fine total : keeps (fine total) (in_read pool_get fuel).
Proof.
  intros s a s' Hs E. unfold in_read, read_iteration in E. apply sg_bind_Ret_inv in E as (stp & ? & [= <- <-] & E).
  destruct (stopped s.1) eqn:Hst; [by injection E as _ <-|]. apply sg_bind_Ret_inv in E as (ch & ? & [= <- <-] & E). destruct (readEnabledChan s.1).
  { apply sg_bind_Ret_inv in E as (? & s1 & E1 & E). injection E as _ <-. eapply fine_aside; [|exact Hs|exact E1]. by intros []. }
  apply sg_bind_Ret_inv in E as (en & ? & [= <- <-] & E). destruct (readEnabled s.1); [|by injection E as _ <-].
  apply sg_bind_Ret_inv in E as (err & s1 & E1 & E). destruct s as [c [fi t]], Hs as [Hp Hh]. cbn [fst] in *.
  destruct (doRead_split _ _ _ _ _ _ _ _ _ Hpool (ps_buffer _ _ _ Hp) E1) as (b1 & k1 & d & Hb1 & Hc1 & Hin & _ & Hend).
  destruct (read_passing _ _ _ _ _ _ _ Hp Hst Hb1 Hc1 Hin) as [Hr Hl]. cbn [fst] in Hc1, Hend. cbv zeta in Hend. destruct err as [er|].
  - assert (passing true total s1 ∧ stopped s1.1 = false) as [H1 H2] by (destruct Hend as [-> | ->]; split; [by apply passing_loose|done..]).
    destruct er; (apply sg_bind_Ret_inv in E as (? & s2 & E2 & E); injection E as _ <-; by eapply close_stops).
  - injection E as _ <-. destruct Hend as [q E]. unfold handed in E. apply sg_bind_Ret_inv in E as (? & s2 & E2 & E).
    assert (passing false total s2 ∧ unread s2.1 = contents b1 ∧ s2.2 = (fi, t)) as (H1 & H2 & H3).
    { assert (keeps (λ s, passing false total s ∧ unread s.1 = contents b1 ∧ s.2 = (fi, t)) (updateReadBufStats (Z.of_nat (length d)) q)) as Hk.
      { intros s0 u s0' (? & Hu & ?) Es. split; [by eapply passing_stats|]. rewrite <- Hu.
        destruct (stats_aside _ _ _ _ _ Es) as (? & ? & ?). unfold unread. split; congruence. }
      by eapply Hk; [|exact E2]. }
    apply sg_bind_Ret_inv in E as (cbs & ? & [= <- <-] & E). apply sg_bind_Ret_inv in E as (? & s3 & E3 & E).
    assert (s3 = s2) as -> by (clear -E3; revert E3; generalize (bytesReadCallbacks s2.1); intros l; induction l; cbn; [by intros [= _ <-]|]; done).
    destruct s2 as [c2 w2]. cbn in H2, H3. subst w2. eapply (onRead_fine total fuel (Z.of_nat (length d))); [exact H1| | |done|exact E].
    + intros Hd. destruct d; [|done]. intros Hdel. left. cbn. rewrite H2, Hc1, app_nil_r. destruct (Hh Hdel) as [?|?]; [done|]. cbn in *. congruence.
    + intros Hd. rewrite H2, Hc1. destruct d; [done|]. by destruct (unread c).
Qed.

Lemma fire_run total s : fine total s → ∃ s', delay_fires fuel s = Ret (tt, s') ∧ fine total s' ∧ in_delaying s'.2.1 = false.
Proof.
  intros [Hp Hh]. destruct s as [c [fi t]]. unfold delay_fires. destruct (in_delaying fi) eqn:Hd.
  2:{ exists (c, (fi, t)). split_and!; [|by split|done]. eapply sg_run; [reflexivity|]. cbn. by rewrite Hd. }
  set (fi' := mk_injector (in_percent fi) (in_duration fi) false (in_draws fi)).
  apply (passing_injector _ _ _ fi') in Hp. destruct (taken_passing _ _ _ _ Hp) as (H1 & H2 & H3).
  exists (taken_from c fi' t). split; [|split; [split; [done|]|by rewrite H3]].
  - eapply sg_run; [reflexivity|]. cbn [fst snd]. rewrite Hd. cbn [negb]. eapply sg_run; [reflexivity|]. unfold ContinueReading. srun.
    pose proof (ps_filters _ _ _ Hp) as Hf. cbn [fst] in Hf. rewrite Hf. cbn. destruct fuel as [|[|[|f]]]; try lia. by apply behind_run.
  - intros _. by left.
Qed.

Lemma run_iops_fine total l : keeps (fine total) (run_iops pool_get fuel l).
Proof.
  induction l as [|[] l IH]; cbn [run_iops run_iop]; [apply keeps_ret|..]; (apply keeps_bind; [|by intros]).
  - apply keeps_bind; [apply in_read_fine|intros; apply keeps_ret].
  - intros s a s' Hs E. destruct (fire_run total s Hs) as (s1 & E1 & H1 & _). congruence.
Qed.

(** A new connection with the injector and a filter behind it. *)
Lemma injected_run k percent duration draws :
  injected fuel (NewServerConnection k, (NewFaultInjector percent duration draws, [])) =
  Ret (true, (set_internalLoopStarted true (set_upstreamFilters both_open (NewServerConnection k)), (NewFaultInjector percent duration draws, []))).
Proof. destruct fuel as [|[|[|f]]]; try lia. reflexivity. Qed.

(** C25. A fault injector only delays.  Whatever the configuration and the numbers drawn,
    and in whatever order reads and the ends of delays come, the filter behind the
    injector gets the bytes of the connection once and in order, none is kept back
    on an open connection without a delay, and when the delay is over the filter
    has all the bytes that were read; bytes are lost only with a connection that has
    ended. *)
Theorem delays_lose_nothing k percent duration draws l b s s' :
  injected fuel (NewServerConnection k, (NewFaultInjector percent duration draws, [])) = Ret (b, s) →
  run_iops pool_get fuel l s = Ret (tt, s') →
  (∃ lost, (s'.2.2 ++ unread s'.1 ++ lost ++ concat (sk_in (sock s'.1)) = concat (sk_in k))%list ∧ (lost = [] ∨ stopped s'.1 = true)) ∧
  (in_delaying s'.2.1 = false → unread s'.1 = [] ∨ stopped s'.1 = true) ∧
  ∃ s2, delay_fires fuel s' = Ret (tt, s2) ∧ in_delaying s2.2.1 = false ∧
    (stopped s2.1 = false → s2.2.2 ++ concat (sk_in (sock s2.1)) = concat (sk_in k))%list.
Proof.
  intros Ei E. rewrite injected_run in Ei. injection Ei as _ <-.
  assert (fine (concat (sk_in k)) s') as Hf.
  { eapply run_iops_fine; [|exact E]. split; [|by left]. split; try done. exists []. split; [done|]. by left. }
  destruct (fire_run _ s' Hf) as (s2 & E2 & [Hp2 Hh2] & Hd). destruct Hf as [Hp Hh].
  split_and!; [|done|].
  - destruct (ps_flow _ _ _ Hp) as (lost & ? & [?|[?|?]]); eauto; done.
  - exists s2. split_and!; [done..|]. intros Hst. destruct (ps_flow _ _ _ Hp2) as (lost & <- & [->|[?|?]]); [|congruence|done].
    destruct (Hh2 Hd) as [-> |?]; [done|congruence].
Qed.
End run.

(** ** Examples *)

Definition slow_client : socket := mk_sock [str_bytes "ab"; str_bytes "cd"] EOF [] [].
Definition injected_session (percent : Z) (draws : list Z) (l : list iop) : Go (unit * ist) :=
  (_ ← injected 4; run_iops None 4 l) (NewServerConnection slow_client, (NewFaultInjector percent 5 draws, [])).

(** Two reads during one delay, then its end. *)
Example held_and_released : match injected_session 100 [] [IRead; IRead; IFire] with
  | Ret (_, s) => s.2.2 = str_bytes "abcd" | Panic _ => False end.
Proof. vm_compute. reflexivity. Qed.
(** The end of the connection during a delay takes the delayed bytes with it. *)
Example end_during_delay : match injected_session 100 [] [IRead; IRead; IRead; IFire] with
  | Ret (_, s) => s.2.2 = [] ∧ stopped s.1 = true | Panic _ => False end.
Proof. vm_compute. done. Qed.
(** The first draw is above the percentage, the second is not. *)
Example drawn : match injected_session 30 [30; 29] [IRead; IRead] with
  | Ret (_, s) => s.2.2 = str_bytes "ab" ∧ in_delaying s.2.1 = true | Panic _ => False end.
Proof. vm_compute. done. Qed.

Lemma delays_lose_nothing_witness : ∃ s s', injected 4 (NewServerConnection slow_client, (NewFaultInjector 100 5 [], [])) = Ret (true, s) ∧
  run_iops None 4 [IRead; IRead] s = Ret (tt, s') ∧ unread s'.1 = str_bytes "abcd" ∧
  ∃ s2, delay_fires 4 s' = Ret (tt, s2) ∧ (stopped s2.1 = false → s2.2.2 ++ concat (sk_in (sock s2.1)) = str_bytes "abcd")%list.
Proof.
  eexists _, _. split; [vm_compute; reflexivity|]. split; [vm_compute; reflexivity|]. split; [vm_compute; reflexivity|].
  edestruct (delays_lose_nothing None 4 ltac:(done) ltac:(lia) slow_client 100 5 [] [IRead; IRead] true) as (_ & _ & s2 & E & _ & H);
    [vm_compute; reflexivity|vm_compute; reflexivity|]. exists s2. split; [exact E|exact H].
Defined.
