(* ===== verification/StreamFilters.v ===== *)
(** * Stream filters: pkg/filter/stream

    The filters of health checks (healthcheck/sofarpc/healthcheck.go) and of
    injected delays (faultinject/faultinject.go), as instances of the interface
    [StreamReceiverFilter] that the proxy calls.  A number drawn by the random
    generator is taken from the filter's own supply; a delay that was started is
    [delaying] until its timer fires, which is an operation of its own
    ([delay_over]). *)

From S2P Require Import Prelude Strconv Serialize BoltTypes BoltCodec Stream Cluster StateGo ProxyState Proxy.

Local Open Scope Z_scope.

(** ** Health checks *)

Record healthCheckFilter := mk_hc {
  passThrough : bool; intercept : bool; hc_protocol : Z; hc_requestID : Z; healthCheckReq : bool;
}.
Definition NewHealthCheckFilter (pass : bool) : healthCheckFilter := mk_hc pass false 0 0 false.

(** Answers, as the commands to the stream. *)
Definition handleIntercept (f : healthCheckFilter) : list filter_command :=
  let resp := if bool_decide (hc_protocol f = PROTOCOL_CODE_V1) || bool_decide (hc_protocol f = PROTOCOL_CODE_V2)
              then MResp (NewBoltHeartbeatAck (hc_requestID f)) else MNil in
  [CmdAppendHeaders resp true].

(** A header that is missing reads as the empty string. *)
Definition header (k : string) (headers : header_map) : string := default EmptyString (headers !! SofaPropertyHeader k).
Definition is_heartbeat (headers : header_map) : bool :=
  match headers !! SofaPropertyHeader HeaderCmdCode with
  | Some code => bool_decide (ConvertPropertyValue code KInt16 = PInt16 HEARTBEAT)
  | None => false
  end.

Definition hc_OnDecodeHeaders (f : healthCheckFilter) (headers : option header_map) (endStream : bool) :
    Go (healthCheckFilter * option header_map * list filter_command * FilterHeadersStatus) :=
  let h := default ∅ headers in
  '(f, cmds, endStream) ← (if is_heartbeat h then
      proto ← as_byte (ConvertPropertyValue (header HeaderProtocolCode h) KUint8);
      id ← as_uint32 (ConvertPropertyValue (header HeaderReqID h) KUint32);
      Ret (mk_hc (passThrough f) (intercept f || negb (passThrough f)) proto id true, [CmdSetHealthCheck true], true)
    else Ret (f, [], endStream));
  let cmds := (cmds ++ if endStream && intercept f then handleIntercept f else [])%list in
  Ret (f, headers, cmds, if intercept f then FilterHeadersStatusStopIteration else FilterHeadersStatusContinue).

Definition hc_OnDecodeData (f : healthCheckFilter) (buf : bytes) (endStream : bool) :
    Go (healthCheckFilter * bytes * list filter_command * FilterDataStatus) :=
  Ret (f, buf, if endStream && intercept f then handleIntercept f else [],
       if intercept f then FilterDataStatusStopIterationNoBuffer else FilterDataStatusContinue).

Definition hc_OnDecodeTrailers (f : healthCheckFilter) (trailers : option header_map) :
    Go (healthCheckFilter * option header_map * list filter_command * FilterTrailersStatus) :=
  Ret (f, trailers, if intercept f then handleIntercept f else [],
       if intercept f then FilterTrailersStatusStopIteration else FilterTrailersStatusContinue).

#[export] Instance healthCheck_filter : StreamReceiverFilter healthCheckFilter :=
  {| rf_OnDecodeHeaders := hc_OnDecodeHeaders; rf_OnDecodeData := hc_OnDecodeData; rf_OnDecodeTrailers := hc_OnDecodeTrailers |}.

(** ** Injected delays *)

(** [draws] are the numbers that [rand.Intn(100)] returns from now on; the
    generator gives 0 after them. *)
Record faultInjectFilter := mk_fi {
  delayPercent : Z; delayDuration : Z; delaying : bool; draws : list Z;
}.
Definition NewFaultInjectFilter (percent duration : Z) (rands : list Z) : faultInjectFilter := mk_fi percent duration false rands.

Definition getDelayDuration (f : faultInjectFilter) : faultInjectFilter * Z :=
  if bool_decide (delayPercent f = 0) then (f, 0)
  else
  let n := default 0 (head (draws f)) in
  let f := mk_fi (delayPercent f) (delayDuration f) (delaying f) (tail (draws f)) in
  if bool_decide (delayPercent f < to_uint32 (to_uint32 n + 1)) then (f, 0) else (f, delayDuration f).

Definition tryInjectDelay (f : faultInjectFilter) : faultInjectFilter :=
  if delaying f then f
  else
  let '(f, duration) := getDelayDuration f in
  if bool_decide (0 < duration) then mk_fi (delayPercent f) (delayDuration f) true (draws f) else f.

(** The time that the goroutine sleeps, in nanoseconds; not positive: not at all. *)
Definition delay_time (duration : Z) : Z := to_int64 (to_int64 duration * 1000000).

Definition fi_OnDecodeHeaders (f : faultInjectFilter) (headers : option header_map) (endStream : bool) :
    Go (faultInjectFilter * option header_map * list filter_command * FilterHeadersStatus) :=
  let f := tryInjectDelay f in
  Ret (f, headers, [], if delaying f then FilterHeadersStatusStopIteration else FilterHeadersStatusContinue).
Definition fi_OnDecodeData (f : faultInjectFilter) (buf : bytes) (endStream : bool) :
    Go (faultInjectFilter * bytes * list filter_command * FilterDataStatus) :=
  let f := tryInjectDelay f in
  Ret (f, buf, [], if delaying f then FilterDataStatusStopIterationAndBuffer else FilterDataStatusContinue).
Definition fi_OnDecodeTrailers (f : faultInjectFilter) (trailers : option header_map) :
    Go (faultInjectFilter * option header_map * list filter_command * FilterTrailersStatus) :=
  let f := tryInjectDelay f in
  Ret (f, trailers, [], if delaying f then FilterTrailersStatusStopIteration else FilterTrailersStatusContinue).

#[export] Instance faultInject_filter : StreamReceiverFilter faultInjectFilter :=
  {| rf_OnDecodeHeaders := fi_OnDecodeHeaders; rf_OnDecodeData := fi_OnDecodeData; rf_OnDecodeTrailers := fi_OnDecodeTrailers |}.

(** The goroutine of the [i]-th filter, a delay that is over: it continues the
    request. *)
Section delay.
  Context {SF : Type} `{!StreamSenderFilter SF}.
  Context (Continue_ : nat → SG (downStream SF faultInjectFilter * world) unit).

Definition delay_over (i : nat) : SG (downStream SF faultInjectFilter * world) unit :=
  fs ← ds receiverFilters;
  match fs !! i with
  | Some f =>
    if delaying (af_filter f) then
      _ ← mod_rf i (λ f, set_af_filter (mk_fi (delayPercent (af_filter f)) (delayDuration (af_filter f)) false (draws (af_filter f))) f);
      Continue_ i
    else mret tt
  | None => mret tt
  end.
End delay.
