(* ===== verification/StreamFiltersProps.v ===== *)
(** * Theorems on [StreamFilters]

    Heartbeats are answered by the proxy itself; runs of a request that is
    delayed. *)

From S2P Require Import Prelude Strconv Serialize BoltTypes BoltCodec Stream Cluster StateGo ProxyState Proxy ProxyProps ProxyRuns StreamFilters.

Local Open Scope Z_scope.

(** ** Heartbeats *)

(** The headers of a heartbeat request, as the codec makes them. *)
Record heartbeat (proto id : Z) (h : header_map) : Prop := {
  hb_code : h !! SofaPropertyHeader HeaderCmdCode = Some (FormatUint HEARTBEAT);
  hb_proto : h !! SofaPropertyHeader HeaderProtocolCode = Some (FormatUint proto);
  hb_id : h !! SofaPropertyHeader HeaderReqID = Some (FormatUint id);
}.

Lemma byte_property n : 0 ≤ n < 2 ^ 8 → ConvertPropertyValue (FormatUint n) KUint8 = PByte n.
Proof. intros. cbn [ConvertPropertyValue]. rewrite ParseUint_FormatUint by lia. unfold to_uint8. by rewrite uwrap_id. Qed.
Lemma uint32_property n : 0 ≤ n < 2 ^ 32 → ConvertPropertyValue (FormatUint n) KUint32 = PUint32 n.
Proof. intros. cbn [ConvertPropertyValue]. rewrite ParseUint_FormatUint by lia. unfold to_uint32. by rewrite uwrap_id. Qed.

(** What the filter does to a heartbeat: it marks the request, and answers unless
    heartbeats pass through. *)
Lemma hc_heartbeat f proto id h e : heartbeat proto id h → 0 ≤ proto < 2 ^ 8 → 0 ≤ id < 2 ^ 32 →
  let on := intercept f || negb (passThrough f) in
  let f' := mk_hc (passThrough f) on proto id true in
  hc_OnDecodeHeaders f (Some h) e =
  Ret (f', Some h, CmdSetHealthCheck true :: (if on then handleIntercept f' else []),
    if on then FilterHeadersStatusStopIteration else FilterHeadersStatusContinue).
Proof.
  intros [Hc Hp Hi] Hproto Hid on f'. unfold hc_OnDecodeHeaders.
  assert (is_heartbeat h = true) as Hh by (unfold is_heartbeat; by rewrite Hc).
  assert (header HeaderProtocolCode h = FormatUint proto) as Hp' by (unfold header; by rewrite Hp).
  assert (header HeaderReqID h = FormatUint id) as Hi' by (unfold header; by rewrite Hi).
  change (default ∅ (Some h)) with h. cbv beta zeta. rewrite Hh, Hp', Hi', byte_property, uint32_property by done. reflexivity.
Qed.

Section proxy.
  Context {SF : Type} `{!StreamSenderFilter SF}.
  Context (Route : option header_map → option RouteRule)
          (clusterGet : string → bool)
          (connPoolFor : string → string → bool → nat → option nat)
          (poolNewStream : nat → string → nat → poolOutcome)
          (UpstreamProtocol : string) (conn_local conn_remote : string)
          (sentHeaders : header_map → header_map)
          (rand : nat → nat) (accessLogs : nat).

(** The answer of a filter, on a stream without sender filters that has no answer
    yet: it ends the response, and the worker is told of a reset. *)
Lemma answer_run (d : downStream SF healthCheckFilter) w resp : senderFilters d = [] → upstreamProcessDone d = false →
  run_commands accessLogs [CmdSetHealthCheck true; CmdAppendHeaders resp true] (d, w) =
  Ret (tt, (set_upstreamProcessDone true (set_downstreamRespHeaders resp (set_request_info (SetHealthCheck true (request_info d)) d)),
    set_ctrlChan (ctrlChan w ++ [resetEvent Downstream StreamLocalReset])
      (set_actions (actions w ++ [ARespHeaders resp true; ARespReset StreamLocalReset]) w))).
Proof.
  intros Hsf Hdone. cbn [run_commands run_command]. srun. eapply sg_run; [|reflexivity]. srun. unfold doAppendHeaders.
  eapply sg_run; [unfold runAppendHeaderFilters; srun; cbn [senderFilters set_downstreamRespHeaders set_request_info]; rewrite Hsf; reflexivity|].
  srun. unfold endStream. cbn [sg_when]. srun. srun. cbn [downstreamRecvDone upstreamProcessDone set_downstreamRespHeaders set_request_info]. rewrite Hdone.
  replace (negb (downstreamRecvDone d) || negb false) with true by (by destruct (downstreamRecvDone d)).
  srun. srun. destruct w. cbn. by rewrite <- app_assoc.
Qed.

(** A proxy answers heartbeats itself.  The headers of a heartbeat request of either
    version, on a stream whose first receiver filter checks health, are answered with
    a heartbeat acknowledgement that carries the id of the request; the answer ends
    the response, the request is marked as a health check, and it is neither routed
    nor sent to any host. *)
Theorem heartbeat_answered (d : downStream SF healthCheckFilter) w f rest proto id h e :
  heartbeat proto id h → proto = PROTOCOL_CODE_V1 ∨ proto = PROTOCOL_CODE_V2 → 0 ≤ id < 2 ^ 32 →
  senderFilters d = [] → receiverFilters d = f :: rest → passThrough (af_filter f) = false →
  upstreamProcessDone d = false →
  ∃ d' w', ReceiveHeaders Route clusterGet connPoolFor poolNewStream UpstreamProtocol conn_local conn_remote sentHeaders accessLogs
      (Some h) e (d, w) = Ret (tt, (d', w')) ∧
    actions w' = (actions w ++ [ARespHeaders (MResp (NewBoltHeartbeatAck id)) true; ARespReset StreamLocalReset])%list ∧
    upstream_request d' = upstream_request d ∧ upstreamProcessDone d' = true ∧ isHealthCheckRequest (request_info d') = true ∧
    receiverFilters d' = mk_asf (mk_hc false true proto id true) true (af_stoppedNoBuf f) (af_headersContinued f) :: rest.
Proof.
  intros Hh Hproto Hid Hsf Hrf Hpass Hdone.
  assert (0 ≤ proto < 2 ^ 8) as Hp8 by (by destruct Hproto as [-> | ->]).
  assert (intercept (af_filter f) || negb (passThrough (af_filter f)) = true) as Hon by (rewrite Hpass; by destruct (intercept _)).
  pose proof (hc_heartbeat (af_filter f) proto id h e Hh Hp8 Hid) as Hrun. cbv zeta in Hrun. rewrite Hon, Hpass in Hrun.
  assert (handleIntercept (mk_hc false true proto id true) = [CmdAppendHeaders (MResp (NewBoltHeartbeatAck id)) true]) as Ha
    by (by destruct Hproto as [-> | ->]).
  rewrite Ha in Hrun. unfold ReceiveHeaders. eexists _, _. split.
  - srun. srun. unfold doReceiveHeaders. eapply sg_run.
    + unfold runReceiveHeadersFilters. cbn [next_index]. srun. cbn [receiverFilters set_downstreamReqHeaders set_downstreamRecvDone]. rewrite Hrf. cbn [lookup list_lookup].
      srun. srun. eapply sg_run; [unfold sg_lift; cbn [rf_OnDecodeHeaders healthCheck_filter downstreamReqHeaders set_filterStage set_downstreamReqHeaders]; rewrite Hrun; reflexivity|].
      cbv beta iota. srun. srun. eapply sg_run; [by apply answer_run|]. srun. srun. reflexivity.
    + reflexivity.
  - destruct w. cbn. rewrite Hrf. cbn. split_and!; done.
Qed.
End proxy.

(** ** Runs *)

Section filter.
  Context {RF : Type} `{!StreamReceiverFilter RF}.
Definition filtered_run : list input → SG (downStream ES RF * world) unit :=
  exec_all (SF := ES) (RF := RF) demo_route demo_cluster demo_pool demo_stream "SofaRpc" "10.0.0.2:2045" "10.0.0.3:4000" id (λ _, 3%nat) 1.
Definition filtered_continue : nat → SG (downStream ES RF * world) unit :=
  ContinueDecoding (SF := ES) (RF := RF) demo_route demo_cluster demo_pool demo_stream "SofaRpc" "10.0.0.2:2045" "10.0.0.3:4000" id 1.
End filter.

Definition demo_heartbeat : header_map :=
  list_to_map [(HeaderCmdCode, FormatUint 0); (HeaderProtocolCode, FormatUint 1); (HeaderReqID, FormatUint 77)].

Lemma heartbeat_answered_witness : ∃ d' w',
  ReceiveHeaders (SF := ES) demo_route demo_cluster demo_pool demo_stream "SofaRpc" "10.0.0.2:2045" "10.0.0.3:4000" id 1 (Some demo_heartbeat) true
    (proxy_NewStream (SF := ES) 0 [] [NewHealthCheckFilter false] demo_stats demo_res) = Ret (tt, (d', w')) ∧
  actions w' = [ARespHeaders (MResp (NewBoltHeartbeatAck 77)) true; ARespReset StreamLocalReset].
Proof.
  destruct (heartbeat_answered (SF := ES) demo_route demo_cluster demo_pool demo_stream "SofaRpc" "10.0.0.2:2045" "10.0.0.3:4000" id 1
    (newActiveStream 0 [] [NewHealthCheckFilter false]) (proxy_NewStream (SF := ES) 0 [] [NewHealthCheckFilter false] demo_stats demo_res).2
    (mk_asf (NewHealthCheckFilter false) false false false) [] 1 77 demo_heartbeat true) as (d' & w' & E & Ha & _);
    [by split|by left|lia|reflexivity..|]. exists d', w'. split; [exact E|exact Ha].
Defined.

(** The stream of an answered heartbeat is never cleaned up: the answer marks it as
    done, and the worker drops the reset of a stream that is done. *)
Example heartbeat_stream_stays :
  match filtered_run [InHeaders (Some demo_heartbeat) true; Worker false; Worker false; Worker false]
    (proxy_NewStream 0 [] [NewHealthCheckFilter false] demo_stats demo_res) with
  | Ret (_, (d, w)) => downstreamCleaned d = false ∧ requestActive w = 1 ∧ ctrlChan w = [] ∧ jobChan w = []
  | Panic _ => False
  end.
Proof. vm_compute. done. Qed.
(** A command code that is no number reads as that of a heartbeat. *)
Example any_code_is_heartbeat : is_heartbeat {[HeaderCmdCode := "invoke"%string]} = true.
Proof. vm_compute. reflexivity. Qed.

(** ** Delays *)

Definition delayed_actions (m : SG (downStream ES faultInjectFilter * world) unit) : option (list action) :=
  match m (proxy_NewStream 0 [] [NewFaultInjectFilter 100 5 []] demo_stats demo_res) with
  | Ret (_, (_, w)) => Some (actions w)
  | Panic _ => None
  end.
Definition body_in_time : list input :=
  [InHeaders demo_request false; InData [Byte.x01] true; Worker false; Worker false; Worker false].

(** Headers and body wait for the delay, and go on together. *)
Example delayed_request : delayed_actions (filtered_run body_in_time) = Some [] ∧
  delayed_actions (_ ← filtered_run body_in_time; delay_over filtered_continue 0) =
    Some [ANewStream 7 ""; AReqAddListener 1; AReqHeaders 1 demo_request false; AReqData 1 [Byte.x01] true].
Proof. split; vm_compute; reflexivity. Qed.
(** A body that has arrived when the delay ends, and that the worker handles after it,
    is handed on twice. *)
Example body_handed_on_twice :
  delayed_actions (_ ← filtered_run [InHeaders demo_request false; Worker false; Worker false; InData [Byte.x01] true];
                   _ ← delay_over filtered_continue 0; _ ← filtered_run [Worker false]; delay_over filtered_continue 0) =
    Some [ANewStream 7 ""; AReqAddListener 1; AReqHeaders 1 demo_request false; AReqData 1 [Byte.x01] false; AReqData 1 [Byte.x01] true].
Proof. vm_compute. reflexivity. Qed.
(** A delay of more than about 292 years is none. *)
Example endless_delay : delay_time 9223372036855 < 0.
Proof. vm_compute. reflexivity. Qed.
