(* ===== verification/BasicRouter.v ===== *)
(** * The basic router: pkg/router/basic/router.go

    A table of services, searched from the front.  A table that [NewRouters] made
    has no lock: [rMutex] says whether there is one.  Routes are never changed, so
    sharing a policy between them is copying it. *)

From S2P Require Import Prelude Serialize.

Local Open Scope Z_scope.

Record routerPolicy := mk_policy { bp_retryOn : bool; bp_retryTimeout : Z; bp_numRetries : Z }.
Record basicRouter := mk_basic {
  br_name : string; br_service : string; br_cluster : string; br_globalTimeout : Z; br_policy : routerPolicy;
}.
Record Routers := mk_routers { rMutex : bool; routers : list basicRouter }.

(** A route of the configuration; a retry policy may be missing. *)
Record BasicServiceRoute := mk_bsr {
  bs_Name : string; bs_Service : string; bs_Cluster : string; bs_GlobalTimeout : Z; bs_RetryPolicy : option routerPolicy;
}.

Definition no_retries : routerPolicy := mk_policy false 0 0.
Definition new_basic (r : BasicServiceRoute) : basicRouter :=
  mk_basic (bs_Name r) (bs_Service r) (bs_Cluster r) (bs_GlobalTimeout r) (default no_retries (bs_RetryPolicy r)).
Definition NewRouters (BasicRoutes : list BasicServiceRoute) : Routers := mk_routers false (new_basic <$> BasicRoutes).

(** A nil map matches nothing. *)
Definition basic_Match (srr : basicRouter) (headers : option header_map) : option basicRouter :=
  match headers with
  | None => None
  | Some h =>
    match (match h !! "Service"%string with Some s => Some s | None => h !! "service"%string end) with
    | None => None
    | Some service => if bool_decide (br_service srr = service) then Some srr else None
    end
  end.

Fixpoint route_in (l : list basicRouter) (headers : option header_map) : option basicRouter :=
  match l with
  | [] => None
  | r :: l => match basic_Match r headers with Some rule => Some rule | None => route_in l headers end
  end.
Definition basic_Route (rc : Routers) (headers : option header_map) : option basicRouter := route_in (routers rc) headers.

Definition DefaultGlobalTimeout : Z := 60000000000.
Definition AddRouter (rc : Routers) (routerName : string) : Go Routers :=
  _ ← go_assert (rMutex rc) NilDeref;
  if bool_decide (routerName ∈ br_name <$> routers rc) then Ret rc
  else
  let '(timeout, policy) := match routers rc with
    | r :: _ => (br_globalTimeout r, br_policy r)
    | [] => (DefaultGlobalTimeout, no_retries)
    end in
  Ret (mk_routers (rMutex rc) (routers rc ++ [mk_basic routerName routerName routerName timeout policy])%list).

Fixpoint delete_first (name : string) (l : list basicRouter) : list basicRouter :=
  match l with
  | [] => []
  | r :: l => if bool_decide (br_name r = name) then l else r :: delete_first name l
  end.
Definition DelRouter (rc : Routers) (routerName : string) : Go Routers :=
  _ ← go_assert (rMutex rc) NilDeref;
  Ret (mk_routers (rMutex rc) (delete_first routerName (routers rc))).

(** ** The table as a map from names *)

Inductive rop := RAdd (name : string) | RDel (name : string).
Definition run_rop (rc : Routers) (o : rop) : Go Routers :=
  match o with RAdd n => AddRouter rc n | RDel n => DelRouter rc n end.
Fixpoint run_rops (rc : Routers) (l : list rop) : Go Routers :=
  match l with [] => Ret rc | o :: l => rc ← run_rop rc o; run_rops rc l end.

(** Which names are there after the operations. *)
Definition names_step (s : gset string) (o : rop) : gset string :=
  match o with RAdd n => {[n]} ∪ s | RDel n => s ∖ {[n]} end.

Lemma delete_first_names n l : NoDup (br_name <$> l) → NoDup (br_name <$> delete_first n l) ∧
  ∀ x, x ∈ br_name <$> delete_first n l ↔ x ∈ br_name <$> l ∧ x ≠ n.
Proof.
  induction l as [|r l IH]; cbn [delete_first fmap list_fmap]; intros Hnd; [by split; [|set_solver]|]. apply NoDup_cons in Hnd as [Hr Hnd].
  destruct (IH Hnd) as [IH1 IH2]. case_bool_decide as Hn; [split; [done|]; intros x; set_solver|].
  cbn [fmap list_fmap]. split; [apply NoDup_cons; split; [|done]; rewrite IH2; tauto|]. intros x. rewrite !elem_of_cons, IH2. set_solver.
Qed.

(** Names stay distinct, and are those added and not deleted since. *)
Lemma run_rops_names l rc : rMutex rc = true → NoDup (br_name <$> routers rc) →
  ∃ rc', run_rops rc l = Ret rc' ∧ rMutex rc' = true ∧ NoDup (br_name <$> routers rc') ∧
    list_to_set (br_name <$> routers rc') = foldl names_step (list_to_set (br_name <$> routers rc) : gset string) l.
Proof.
  revert rc. induction l as [|o l IH]; intros rc Hm Hnd; [by exists rc|]. cbn [run_rops foldl].
  assert (∃ rc1, run_rop rc o = Ret rc1 ∧ rMutex rc1 = true ∧ NoDup (br_name <$> routers rc1) ∧
    list_to_set (br_name <$> routers rc1) = names_step (list_to_set (br_name <$> routers rc) : gset string) o) as (rc1 & -> & H1 & H2 & <-).
  { destruct o as [n|n]; cbn [run_rop names_step].
    - unfold AddRouter. rewrite Hm. cbn [go_assert]. rewrite bind_Ret. case_bool_decide as Hn.
      + exists rc. split_and!; [done..|]. set_solver.
      + destruct (match routers rc with [] => _ | _ => _ end) as [t p]. eexists. split; [done|]. cbn. split; [done|]. rewrite fmap_app. cbn.
        split; [|rewrite list_to_set_app_L; set_solver]. apply NoDup_app. split_and!; [done| |apply NoDup_singleton].
        by intros x Hx ->%list_elem_of_singleton.
    - unfold DelRouter. rewrite Hm. cbn [go_assert]. rewrite bind_Ret. destruct (delete_first_names n _ Hnd) as [H1 H2].
      eexists. split; [done|]. cbn. split_and!; [done..|]. apply set_eq. intros x. rewrite elem_of_difference, !elem_of_list_to_set, H2. set_solver. }
  by apply IH.
Qed.

(** A route that is found is the first one of the requested service. *)
Theorem basic_route_first rc h r : basic_Route rc h = Some r → ∃ hm s, h = Some hm ∧
  (hm !! "Service"%string = Some s ∨ hm !! "Service"%string = None ∧ hm !! "service"%string = Some s) ∧
  ∃ l1 l2, routers rc = (l1 ++ r :: l2)%list ∧ br_service r = s ∧ Forall (λ q, br_service q ≠ s) l1.
Proof.
  unfold basic_Route. generalize (routers rc). induction l as [|q l IH]; cbn [route_in]; [done|]. destruct (basic_Match q h) as [r'|] eqn:Hq.
  - intros [= ->]. unfold basic_Match in Hq. destruct h as [hm|]; [|done]. exists hm. destruct (hm !! "Service"%string) as [s|] eqn:E1.
    + exists s. case_bool_decide; [|done]. injection Hq as ->. split_and!; [done|by left|]. by exists [], l.
    + destruct (hm !! "service"%string) as [s|] eqn:E2; [|done]. exists s. case_bool_decide; [|done]. injection Hq as ->. split_and!; [done|by right|]. by exists [], l.
  - intros Hr. destruct (IH Hr) as (hm & s & -> & Hs & l1 & l2 & -> & Hsv & Hl1). exists hm, s. split_and!; [done..|]. exists (q :: l1), l2. split_and!; [done..|].
    constructor; [|done]. unfold basic_Match in Hq. destruct Hs as [Hs|[Hs1 Hs2]]; [rewrite Hs in Hq|rewrite Hs1, Hs2 in Hq]; by case_bool_decide.
Qed.

(** No table can be changed: the tables of [NewRouters] have no lock. *)
Example tables_are_fixed l n : AddRouter (NewRouters l) n = Panic NilDeref ∧ DelRouter (NewRouters l) n = Panic NilDeref.
Proof. done. Qed.
