(* ===== verification/XStream.v ===== *)
(** * The streams of x-protocol: pkg/stream/xprotocol/stream.go

    Whatever arrives on a connection in one piece is one message.  On the server's
    side it is a request on a new stream, numbered by a counter that all
    connections share; on the client's side it is the response of the stream
    whose id is empty, which is the id that the proxy gives to every x-protocol
    request.

    As in [Stream], receivers, listeners and the network connection belong to
    other layers: what they are told is the trace of the connection, and what
    they do in turn are later operations.  The map of streams holds copies, the
    heap the streams that the senders point to. *)

From S2P Require Import Prelude Strconv GoStrings IoBuffer Serialize.

Local Open Scope Z_scope.

Inductive XDirection := XServerStream | XClientStream.
#[export] Instance XDirection_eq_dec : EqDecision XDirection.
Proof. solve_decision. Defined.

Section xstream.
  Context {D : Type}.

Record xstream := mk_xs {
  xs_streamID : string; xs_direction : XDirection; xs_decoder : D; xs_streamCbs : list nat; xs_encodedData : option IoBuffer;
}.

Inductive xevent :=
  | XNewStream (streamID : string) (sender : nat)
  | XReceiveHeaders (d : D) (headers : header_map) (endStream : bool)
  | XReceiveData (d : D) (data : IoBuffer) (endStream : bool)
  | XWrite (sender : nat) (data : option IoBuffer)
  | XResetStream (cb : nat) (reason : string)
  | XSetReadDisable (disable : bool).

(** [xc_server]: whether there are server callbacks. *)
Record xconn := mk_xc {
  xc_server : bool; xc_streams : gmap string xstream; xc_heap : list xstream; xc_trace : list xevent;
}.
Definition x_newStreamConnection (server : bool) : xconn := mk_xc server ∅ [] [].
Definition x_emit (e : xevent) (c : xconn) : xconn := mk_xc (xc_server c) (xc_streams c) (xc_heap c) (xc_trace c ++ [e]).
Definition x_store (p : nat) (s : xstream) (c : xconn) : xconn := mk_xc (xc_server c) (xc_streams c) (<[p := s]> (xc_heap c)) (xc_trace c).

(** ** The map *)

Definition x_Has (c : xconn) (streamID : string) : bool := bool_decide (is_Some (xc_streams c !! streamID)).
Definition x_Get (c : xconn) (streamID : string) : option xstream := xc_streams c !! streamID.
Definition x_Remove (streamID : string) (c : xconn) : xconn := mk_xc (xc_server c) (delete streamID (xc_streams c)) (xc_heap c) (xc_trace c).
Definition x_Set (streamID : string) (s : xstream) (c : xconn) : xconn :=
  mk_xc (xc_server c) (<[streamID := s]> (xc_streams c)) (xc_heap c) (xc_trace c).

(** ** What arrives *)

(** [receiver] is what the server callbacks answer to [NewStream], for the sender of
    that number; [remote] is the address of the peer. *)
  Context (receiver : string → nat → D) (remote : string).

Definition x_onNewStreamDetected (streamID : string) (c : xconn) : xconn :=
  if x_Has c streamID then c
  else
  let p := length (xc_heap c) in
  let s := mk_xs streamID XServerStream (receiver streamID p) [] None in
  x_Set streamID s (mk_xc (xc_server c) (xc_streams c) (xc_heap c ++ [s]) (xc_trace c ++ [XNewStream streamID p])).

Definition x_OnReceiveHeaders (streamID : string) (headers : header_map) (c : xconn) : xconn :=
  let c := if xc_server c then x_onNewStreamDetected streamID c else c in
  match x_Get c streamID with Some s => x_emit (XReceiveHeaders (xs_decoder s) headers false) c | None => c end.

Definition x_OnReceiveData (streamID : string) (data : IoBuffer) (c : xconn) : xconn :=
  match x_Get c streamID with
  | Some s =>
    let c := x_emit (XReceiveData (xs_decoder s) data true) c in
    match xs_direction s with XClientStream => x_Remove (xs_streamID s) c | XServerStream => c end
  | None => c
  end.

(** [count] is the counter of streams. *)
Definition x_Dispatch (buffer : IoBuffer) (st : Z * xconn) : Z * xconn :=
  let '(count, c) := st in
  let '(count, streamID) := if xc_server c then let n := to_uint32 (count + 1) in (n, FormatUint n) else (count, EmptyString) in
  let headers : header_map := <[ToLower "path" := "/"%string]> {[ToLower "host" := remote]} in
  (count, x_OnReceiveData streamID buffer (x_OnReceiveHeaders streamID headers c)).

(** ** What is sent *)

Definition x_NewStream (streamID : string) (responseDecoder : D) (c : xconn) : xconn :=
  let s := mk_xs streamID XClientStream responseDecoder [] None in
  x_Set streamID s (mk_xc (xc_server c) (xc_streams c) (xc_heap c ++ [s]) (xc_trace c)).

(** The operations of a sender; [p] is its number. *)
Definition on_sender (p : nat) (f : xstream → xconn → xconn) (c : xconn) : xconn :=
  match xc_heap c !! p with Some s => f s c | None => c end.

Definition x_endStream (p : nat) (s : xstream) (c : xconn) : xconn :=
  let c := match x_Get c (xs_streamID s) with Some _ => x_emit (XWrite p (xs_encodedData s)) c | None => c end in
  match xs_direction s with XServerStream => x_Remove (xs_streamID s) c | XClientStream => c end.

Definition x_AppendHeaders (p : nat) (endStream : bool) : xconn → xconn :=
  on_sender p (λ s c, if endStream then x_endStream p s c else c).
Definition x_AppendData (p : nat) (data : IoBuffer) (endStream : bool) : xconn → xconn :=
  on_sender p (λ s c,
    let s := mk_xs (xs_streamID s) (xs_direction s) (xs_decoder s) (xs_streamCbs s) (Some data) in
    let c := x_store p s c in
    if endStream then x_endStream p s c else c).
Definition x_AppendTrailers (p : nat) : xconn → xconn := on_sender p (x_endStream p).

Definition set_xs_streamCbs (v : list nat) (s : xstream) : xstream := mk_xs (xs_streamID s) (xs_direction s) (xs_decoder s) v (xs_encodedData s).
Definition x_AddEventListener (p cb : nat) : xconn → xconn :=
  on_sender p (λ s, x_store p (set_xs_streamCbs (xs_streamCbs s ++ [cb])%list s)).
Fixpoint remove_cb (cb : nat) (l : list nat) : list nat :=
  match l with [] => [] | x :: l => if bool_decide (x = cb) then l else x :: remove_cb cb l end.
Definition x_RemoveEventListener (p cb : nat) : xconn → xconn :=
  on_sender p (λ s, x_store p (set_xs_streamCbs (remove_cb cb (xs_streamCbs s)) s)).
Definition x_ResetStream (p : nat) (reason : string) : xconn → xconn :=
  on_sender p (λ s c, foldl (λ c cb, x_emit (XResetStream cb reason) c) c (xs_streamCbs s)).
Definition x_ReadDisable (disable : bool) : xconn → xconn := x_emit (XSetReadDisable disable).

(** ** Runs *)

(** [XElsewhere]: a request on another connection takes a number. *)
Inductive xop :=
  | XDispatch (buffer : IoBuffer) | XElsewhere
  | XHeaders (p : nat) (endStream : bool) | XData (p : nat) (data : IoBuffer) (endStream : bool) | XTrailers (p : nat)
  | XListen (p cb : nat) | XUnlisten (p cb : nat) | XReset (p : nat) (reason : string) | XPause (disable : bool)
  | XRequest (streamID : string) (d : D).
Definition x_step (st : Z * xconn) (o : xop) : Z * xconn :=
  match o with
  | XDispatch b => x_Dispatch b st
  | XElsewhere => (to_uint32 (st.1 + 1), st.2)
  | XHeaders p e => (st.1, x_AppendHeaders p e st.2)
  | XData p d e => (st.1, x_AppendData p d e st.2)
  | XTrailers p => (st.1, x_AppendTrailers p st.2)
  | XListen p cb => (st.1, x_AddEventListener p cb st.2)
  | XUnlisten p cb => (st.1, x_RemoveEventListener p cb st.2)
  | XReset p r => (st.1, x_ResetStream p r st.2)
  | XPause d => (st.1, x_ReadDisable d st.2)
  | XRequest id d => (st.1, x_NewStream id d st.2)
  end.
Definition x_run (l : list xop) (st : Z * xconn) : Z * xconn := foldl x_step st l.
End xstream.
Arguments xstream : clear implicits.
Arguments xevent : clear implicits.
Arguments xconn : clear implicits.
Arguments xop : clear implicits.
