(* ===== verification/XStreamProps.v ===== *)
(** * Theorems on [XStream]

    Requests of a server's connection, and what happens to concurrent requests of
    a client's. *)

From S2P Require Import Prelude Strconv GoStrings IoBuffer Serialize XStream.

Local Open Scope Z_scope.

Section server.
  Context {D : Type} (receiver : string → nat → D) (remote : string).

(** What a sender has written. *)
Definition writes (p : nat) (l : list (xevent D)) : list (option IoBuffer) :=
  omap (λ e, match e with XWrite q d => if bool_decide (q = p) then Some d else None | _ => None end) l.
#[local] Arguments writes : simpl never.
(** Its stream is active. *)
Definition active (c : xconn D) (p : nat) : Prop := ∃ s, xc_heap c !! p = Some s ∧ is_Some (xc_streams c !! xs_streamID s).

(** What does not concern the streams. *)
Definition silent (e : xevent D) : Prop := match e with XWrite _ _ => False | _ => True end.
Lemma writes_silent p l e : silent e → writes p (l ++ [e]) = writes p l.
Proof. intros He. unfold writes. rewrite omap_app. destruct e; try done; cbn; by rewrite app_nil_r. Qed.
Lemma writes_silent_all p l k : Forall silent k → writes p (l ++ k) = writes p l.
Proof.
  intros Hk. revert l. induction Hk as [|e k He _ IH]; intros l; [by rewrite app_nil_r|].
  change (e :: k) with ([e] ++ k)%list. rewrite app_assoc, IH. by apply writes_silent.
Qed.

Lemma writes_other p q l (b : bool) d : q ≠ p → writes q (l ++ if b then [XWrite p d] else []) = writes q l.
Proof. intros Hq. destruct b; [|by rewrite app_nil_r]. unfold writes. rewrite omap_app. cbn. rewrite bool_decide_false by done. by rewrite app_nil_r. Qed.

(** Ids are numbers up to [count], each of one sender; an active stream has not been
    answered, any other one once. *)
Record served (count : Z) (c : xconn D) : Prop := {
  sv_server : xc_server c = true;
  sv_count : 0 ≤ count;
  sv_heap p s : xc_heap c !! p = Some s → xs_direction s = XServerStream ∧ ∃ n, 0 < n ≤ count ∧ xs_streamID s = FormatUint n;
  sv_unique p q s t : xc_heap c !! p = Some s → xc_heap c !! q = Some t → xs_streamID s = xs_streamID t → p = q;
  sv_streams id x : xc_streams c !! id = Some x →
    xs_direction x = XServerStream ∧ xs_streamID x = id ∧ ∃ p s, xc_heap c !! p = Some s ∧ xs_streamID s = id;
  sv_writes p s : xc_heap c !! p = Some s → length (writes p (xc_trace c)) = if bool_decide (is_Some (xc_streams c !! xs_streamID s)) then O else 1%nat;
  sv_none p : (length (xc_heap c) ≤ p)%nat → writes p (xc_trace c) = [];
}.

Lemma served_new count : 0 ≤ count → served count (x_newStreamConnection true).
Proof. intros. by split. Qed.
Lemma served_later count count' c : count ≤ count' → served count c → served count' c.
Proof.
  intros Hc [? ? Hh ? ? ? ?]. split; try done; [lia|]. intros p s Hs. destruct (Hh p s Hs) as (? & n & ? & ?). split; [done|]. exists n. split; [lia|done].
Qed.

Lemma FormatUint_inj n m : 0 ≤ n < 2 ^ 64 → 0 ≤ m < 2 ^ 64 → FormatUint n = FormatUint m → n = m.
Proof. intros Hn Hm E. rewrite <- (ParseUint_FormatUint n 64), <- (ParseUint_FormatUint m 64) by lia. by rewrite E. Qed.

(** Events that are no writes. *)
Lemma served_emit count c e : silent e → served count c → served count (x_emit e c).
Proof. intros He []. split; cbn; eauto; intros; rewrite writes_silent by done; eauto. Qed.
(** Changes of a sender that keep its id and direction. *)
Lemma served_store count c p s t : xc_heap c !! p = Some s → xs_streamID t = xs_streamID s → xs_direction t = xs_direction s →
  served count c → served count (x_store p t c).
Proof.
  intros Hs Hid Hdir [? ? Hh Hu Hst Hw Hn].
  assert (∀ q u, <[p := t]> (xc_heap c) !! q = Some u → ∃ u', xc_heap c !! q = Some u' ∧ xs_streamID u = xs_streamID u' ∧ xs_direction u = xs_direction u') as Hl.
  { intros q u. destruct (decide (q = p)) as [->|Hq]; [|rewrite list_lookup_insert_ne by done; eauto].
    rewrite list_lookup_insert_eq by (by eapply lookup_lt_Some). intros [= <-]. by exists s. }
  split; cbn; try done.
  - intros q u Hq. destruct (Hl _ _ Hq) as (u' & Hq' & -> & ->). eauto.
  - intros q r u v Hq Hr E. destruct (Hl _ _ Hq) as (u' & Hq' & Eu & _), (Hl _ _ Hr) as (v' & Hr' & Ev & _). eapply Hu; [exact Hq'|exact Hr'|congruence].
  - intros id x Hx. destruct (Hst id x Hx) as (? & ? & q & u & Hq & Hid'). split_and!; [done..|]. destruct (decide (q = p)) as [->|Hqp].
    + exists p, t. rewrite list_lookup_insert_eq by (by eapply lookup_lt_Some). split; [done|]. congruence.
    + exists q, u. by rewrite list_lookup_insert_ne.
  - intros q u Hq. destruct (Hl _ _ Hq) as (u' & Hq' & -> & _). by apply Hw.
  - intros q. rewrite length_insert. apply Hn.
Qed.

(** The end of a stream: an active one is answered and goes away. *)
Lemma end_run count c p s : served count c → xc_heap c !! p = Some s →
  x_endStream p s c = mk_xc true (delete (xs_streamID s) (xc_streams c)) (xc_heap c)
    (xc_trace c ++ if bool_decide (is_Some (xc_streams c !! xs_streamID s)) then [XWrite p (xs_encodedData s)] else [])%list.
Proof.
  intros [? ? Hh ? ? ? ?] Hs. unfold x_endStream, x_Get. rewrite (proj1 (Hh p s Hs)). destruct (xc_streams c !! xs_streamID s) as [x|] eqn:Hx.
  - rewrite bool_decide_true by done. unfold x_Remove, x_emit. cbn. congruence.
  - rewrite bool_decide_false by (by intros []). unfold x_Remove. cbn. rewrite app_nil_r. congruence.
Qed.
Lemma served_end count c p s : served count c → xc_heap c !! p = Some s → served count (x_endStream p s c).
Proof.
  intros Hsv Hs. rewrite (end_run count) by done. destruct Hsv as [? ? Hh Hu Hst Hw Hn]. split; try done; cbn.
  - intros id x [Hne Hx]%lookup_delete_Some. by apply Hst.
  - intros q t Hq. specialize (Hw q t Hq). destruct (decide (q = p)) as [->|Hqp].
    + rewrite Hs in Hq. injection Hq as ->. rewrite lookup_delete_eq, (bool_decide_false (is_Some None)) by (by intros []). destruct (bool_decide (is_Some _)).
      * unfold writes in *. rewrite omap_app, length_app, Hw. cbn. by rewrite bool_decide_true.
      * by rewrite app_nil_r.
    + rewrite lookup_delete_ne by (intros E; apply Hqp; by eapply Hu). by rewrite writes_other.
  - intros q Hq. rewrite writes_other; [by apply Hn|]. apply lookup_lt_Some in Hs. lia.
Qed.

(** The next number is new. *)
Lemma fresh_id count c : served count c → count + 1 < 2 ^ 32 → xc_streams c !! FormatUint (count + 1) = None.
Proof.
  intros Hsv Hc. destruct (xc_streams c !! _) as [x|] eqn:Hx; [|done]. destruct (sv_streams _ _ Hsv _ _ Hx) as (_ & _ & q & t & Hq & Ht).
  destruct (sv_heap _ _ Hsv _ _ Hq) as (_ & n & Hn & Hi). assert (n = count + 1) by (apply FormatUint_inj; [lia..|]; by rewrite <- Hi, Ht). lia.
Qed.

(** A message is a request on a new stream. *)
Definition x_headers : header_map := <[ToLower "path" := "/"%string]> {[ToLower "host" := remote]}.
Lemma dispatch_run count c b : served count c → count + 1 < 2 ^ 32 →
  let id := FormatUint (count + 1) in let p := length (xc_heap c) in
  let s := mk_xs id XServerStream (receiver id p) [] None in
  x_Dispatch receiver remote b (count, c) =
  (count + 1, mk_xc true (<[id := s]> (xc_streams c)) (xc_heap c ++ [s])
    (xc_trace c ++ [XNewStream id p; XReceiveHeaders (receiver id p) x_headers false; XReceiveData (receiver id p) b true])).
Proof.
  intros Hsv Hc id p s. unfold x_Dispatch. rewrite (sv_server _ _ Hsv). unfold to_uint32. rewrite uwrap_id by (unfold in_u; pose proof (sv_count _ _ Hsv); lia).
  fold id. unfold x_OnReceiveHeaders. rewrite (sv_server _ _ Hsv). unfold x_onNewStreamDetected, x_Has.
  pose proof (fresh_id count c Hsv Hc) as Hid. fold id in Hid.
  rewrite Hid, bool_decide_false by (by intros []). unfold x_Get, x_Set. cbn. rewrite lookup_insert_eq. unfold x_OnReceiveData, x_Get, x_emit. cbn.
  rewrite lookup_insert_eq. cbn. rewrite (sv_server _ _ Hsv), <- !app_assoc. done.
Qed.

Lemma served_dispatch count c b : served count c → count + 1 < 2 ^ 32 →
  served (x_Dispatch receiver remote b (count, c)).1 (x_Dispatch receiver remote b (count, c)).2.
Proof.
  intros Hsv Hc. rewrite dispatch_run by done. destruct Hsv as [? ? Hh Hu Hst Hw Hn]. cbn [fst snd].
  set (id := FormatUint (count + 1)). set (p := length (xc_heap c)). set (s := mk_xs id XServerStream (receiver id p) [] None).
  assert (∀ q t, xc_heap c !! q = Some t → xs_streamID t ≠ id) as Hfresh.
  { intros q t Hq E. destruct (Hh q t Hq) as (_ & n & Hn' & Ei). assert (n = count + 1) by (apply FormatUint_inj; [lia..|]; by rewrite <- Ei, E). lia. }
  assert (∀ q t, (xc_heap c ++ [s])%list !! q = Some t → (xc_heap c !! q = Some t ∧ q ≠ p) ∨ (q = p ∧ t = s)) as Hl.
  { intros q t [Hq|[Hle Hq]]%lookup_app_Some; [left; split; [done|]; apply lookup_lt_Some in Hq; unfold p; lia|right].
    apply list_lookup_singleton_Some in Hq as [Hq <-]. unfold p. split; [lia|done]. }
  split; cbn; try done; [lia|..].
  - intros q t [[Hq _]|[-> ->]]%Hl; [destruct (Hh q t Hq) as (? & n & ? & ?); split; [done|]; exists n; split; [lia|done]|].
    split; [done|]. exists (count + 1). split; [lia|done].
  - intros q r t u [[Hq ?]|[-> ->]]%Hl [[Hr ?]|[-> ->]]%Hl E; [by eapply Hu| | |done]; exfalso; [by apply (Hfresh _ _ Hq)|by apply (Hfresh _ _ Hr)].
  - intros i x [[<- <-]|[Hne Hx]]%lookup_insert_Some.
    + split_and!; [done..|]. exists p, s. split; [|done]. apply lookup_app_Some. right. unfold p. split; [lia|]. by rewrite Nat.sub_diag.
    + destruct (Hst i x Hx) as (? & ? & q & t & Hq & ?). split_and!; [done..|]. exists q, t. split; [|done]. by apply lookup_app_l_Some.
  - intros q t [[Hq ?]|[-> ->]]%Hl; rewrite writes_silent_all by (by repeat constructor).
    + rewrite lookup_insert_ne by (intros E; by apply (Hfresh q t Hq)). by apply Hw.
    + cbn. rewrite lookup_insert_eq, bool_decide_true by done. by rewrite Hn.
  - intros q. rewrite length_app. cbn. intros Hq. rewrite writes_silent_all by (by repeat constructor). apply Hn. lia.
Qed.

(** Requests, and what a server does with its senders. *)
Definition server_op (o : xop D) : Prop := match o with XRequest _ _ => False | _ => True end.
Definition numbers (o : xop D) : Z := match o with XDispatch _ | XElsewhere => 1 | _ => 0 end.

Lemma served_on_sender count c p f : served count c → (∀ s, xc_heap c !! p = Some s → served count (f s c)) → served count (on_sender p f c).
Proof. intros Hc Hf. unfold on_sender. destruct (xc_heap c !! p) eqn:E; by auto. Qed.
Lemma served_step count c o : served count c → server_op o → count + numbers o < 2 ^ 32 →
  (x_step receiver remote (count, c) o).1 = count + numbers o ∧ served (count + numbers o) (x_step receiver remote (count, c) o).2.
Proof.
  intros Hsv Ho Hn. destruct o as [b| |p e|p d e|p|p cb|p cb|p r|d|id d]; cbn [x_step numbers fst snd] in *; rewrite ?Z.add_0_r; try (split; [done|]).
  - pose proof (served_dispatch count c b Hsv Hn) as H. pose proof (dispatch_run count c b Hsv Hn) as E. cbv zeta in E. by rewrite E in *.
  - unfold to_uint32. rewrite uwrap_id by (unfold in_u; pose proof (sv_count _ _ Hsv); lia). split; [done|]. eapply served_later; [|done]. lia.
  - apply served_on_sender; [done|]. intros s Hs. destruct e; [by apply served_end|done].
  - apply served_on_sender; [done|]. intros s Hs. assert (served count (x_store p (mk_xs (xs_streamID s) (xs_direction s) (xs_decoder s) (xs_streamCbs s) (Some d)) c)) as H1
      by (by eapply served_store). destruct e; [|done]. apply served_end; [done|]. cbn. apply list_lookup_insert_eq. by eapply lookup_lt_Some.
  - apply served_on_sender; [done|]. intros s Hs. by apply served_end.
  - apply served_on_sender; [done|]. intros s Hs. by eapply served_store.
  - apply served_on_sender; [done|]. intros s Hs. by eapply served_store.
  - apply served_on_sender; [done|]. intros s Hs. clear Hs. generalize (xs_streamCbs s). clear s. intros l. revert c Hsv. induction l as [|cb l IH]; intros c Hsv; [done|].
    cbn. apply IH. by apply served_emit.
  - by apply served_emit.
  - done.
Qed.
Lemma served_run l count c : served count c → Forall server_op l → count + foldr Z.add 0 (numbers <$> l) < 2 ^ 32 →
  (x_run receiver remote l (count, c)).1 = count + foldr Z.add 0 (numbers <$> l) ∧
  served (x_run receiver remote l (count, c)).1 (x_run receiver remote l (count, c)).2.
Proof.
  revert count c. induction l as [|o l IH]; intros count c Hsv Hl Hn; [cbn; rewrite Z.add_0_r; done|]. apply Forall_cons in Hl as [Ho Hl]. cbn in Hn.
  assert (0 ≤ foldr Z.add 0 (numbers <$> l)) by (clear; induction l as [|o l IH]; cbn; [lia|]; destruct o; cbn; lia).
  destruct (served_step count c o Hsv Ho ltac:(lia)) as [E1 H1]. cbn [x_run foldl]. fold (x_run receiver remote l).
  destruct (x_step receiver remote (count, c) o) as [n c']. cbn in E1, H1. subst n. destruct (IH (count + numbers o) c' H1 Hl ltac:(lia)) as [E2 H2]. split; [|done]. unfold x_run in E2. rewrite E2. cbn. lia.
Qed.

(** C21. An x-protocol server answers every request at most once, with what its sender
    was given.  After any requests and any operations of their senders, as long as
    fewer than 2^32 streams have been numbered, a stream is active exactly while its
    sender has not written; the next message is a request on a stream of its own,
    given to its own receiver once, headers first; and an answer to it is written as
    it is and ends the stream. *)
Theorem x_requests_answered l count b d :
  0 ≤ count → Forall server_op l → count + foldr Z.add 0 (numbers <$> l) + 1 < 2 ^ 32 →
  let st := x_run receiver remote l (count, x_newStreamConnection true) in
  (∀ p s, xc_heap st.2 !! p = Some s →
     length (writes p (xc_trace st.2)) = if bool_decide (is_Some (xc_streams st.2 !! xs_streamID s)) then O else 1%nat) ∧
  let st1 := x_Dispatch receiver remote b st in
  let p := length (xc_heap st.2) in
  ∃ id, xc_streams st.2 !! id = None ∧ active st1.2 p ∧
    xc_trace st1.2 = (xc_trace st.2 ++ [XNewStream id p; XReceiveHeaders (receiver id p) x_headers false; XReceiveData (receiver id p) b true])%list ∧
    let c2 := x_AppendData p d true st1.2 in
    xc_trace c2 = (xc_trace st1.2 ++ [XWrite p (Some d)])%list ∧ ¬ active c2 p ∧ xc_streams c2 = xc_streams st.2.
Proof.
  intros Hc Hl Hn st. destruct (served_run l count _ (served_new count Hc) Hl ltac:(lia)) as [Hst Hsv]. fold st in Hst, Hsv. clearbody st.
  split; [apply (sv_writes _ _ Hsv)|]. destruct st as [n c]. cbn [fst snd] in *.
  assert (n + 1 < 2 ^ 32) as Hn1 by lia. pose proof (dispatch_run n c b Hsv Hn1) as E. pose proof (served_dispatch n c b Hsv Hn1) as Hsv1.
  cbv zeta in *. rewrite E in *. cbn [fst snd] in *.
  pose proof (fresh_id n c Hsv Hn1) as Hid. set (p := length (xc_heap c)) in *. set (id := FormatUint (n + 1)) in *. clear Hsv1. clearbody id.
  set (s := mk_xs id XServerStream (receiver id p) [] None) in *.
  assert ((xc_heap c ++ [s])%list !! p = Some s) as Hp by (apply lookup_app_Some; right; unfold p; split; [lia|]; by rewrite Nat.sub_diag).
  exists id. split_and!; [done| |done|..].
  - exists s. split; [done|]. cbn. by rewrite lookup_insert_eq.
  - unfold x_AppendData, on_sender. cbn [xc_heap]. rewrite Hp. unfold x_endStream, x_Get. cbn. by rewrite lookup_insert_eq.
  - intros (t & Ht & [x Hx]). revert Ht Hx. unfold x_AppendData, on_sender. cbn [xc_heap]. rewrite Hp. unfold x_endStream, x_Get. cbn. rewrite lookup_insert_eq. cbn.
    rewrite list_lookup_insert_eq by (by eapply lookup_lt_Some). intros [= <-]. cbn. by rewrite lookup_delete_eq.
  - unfold x_AppendData, on_sender. cbn [xc_heap]. rewrite Hp. unfold x_endStream, x_Get. cbn. rewrite lookup_insert_eq. cbn. by apply delete_insert_id.
Qed.
End server.

(** ** Examples *)

Definition x_demo (l : list (xop nat)) : Z * xconn nat := x_run (λ _ p, p) "10.0.0.3:4000" l (0, x_newStreamConnection true).
Definition x_client (l : list (xop nat)) : Z * xconn nat := x_run (λ _ p, p) "10.0.0.3:4000" l (0, x_newStreamConnection false).
Definition piece (s : string) : IoBuffer := NewIoBufferString s.

(** Two requests, answered in the other order; the second answer of a sender is not sent. *)
Example x_two_requests : xc_trace (x_demo [XDispatch (piece "a"); XDispatch (piece "b"); XData 1 (piece "B") true; XData 0 (piece "A") true; XTrailers 0]).2 =
  [XNewStream "1" 0; XReceiveHeaders 0%nat (x_headers "10.0.0.3:4000") false; XReceiveData 0%nat (piece "a") true;
   XNewStream "2" 1; XReceiveHeaders 1%nat (x_headers "10.0.0.3:4000") false; XReceiveData 1%nat (piece "b") true;
   XWrite 1 (Some (piece "B")); XWrite 0 (Some (piece "A"))].
Proof. vm_compute. reflexivity. Qed.

(** Two requests of a client at the same time have the same, empty id: the answer to the
    first goes to the receiver of the second, and the second answer to nobody. *)
Example x_answers_mixed : omap (λ e, match e with XReceiveData d b _ => Some (d, b) | _ => None end)
    (xc_trace (x_client [XRequest "" 7%nat; XRequest "" 8%nat; XDispatch (piece "answer 7"); XDispatch (piece "answer 8")]).2) =
  [(8%nat, piece "answer 7")].
Proof. vm_compute. reflexivity. Qed.
(** A message that arrives in two pieces is two requests. *)
Example x_pieces : length (xc_heap (x_demo [XDispatch (piece "first half, "); XDispatch (piece "second half")]).2) = 2%nat.
Proof. vm_compute. reflexivity. Qed.

Lemma x_requests_answered_witness : let st := x_demo [XDispatch (piece "a"); XData 0 (piece "A") true] in
  writes 0 (xc_trace st.2) = [Some (piece "A")] ∧
  (∀ p s, xc_heap st.2 !! p = Some s →
     length (writes p (xc_trace st.2)) = if bool_decide (is_Some (xc_streams st.2 !! xs_streamID s)) then O else 1%nat) ∧
  ∃ id, xc_streams st.2 !! id = None ∧ active (x_Dispatch (λ _ p, p) "10.0.0.3:4000" (piece "b") st).2 1.
Proof.
  split; [vm_compute; reflexivity|].
  destruct (x_requests_answered (λ (_ : string) (p : nat), p) "10.0.0.3:4000" [XDispatch (piece "a"); XData 0 (piece "A") true] 0 (piece "b") (piece "B"))
    as (H1 & id & H2 & H3 & _); [lia|by repeat constructor|vm_compute; reflexivity|].
  split; [exact H1|]. exists id. split; [exact H2|exact H3].
Defined.
