(* ===== verification/Http2Stream.v ===== *)
(** * The streams of HTTP/2: pkg/stream/http2/stream.go

    The frames, the connection and its multiplexing are those of the http2
    package, outside of the sources; a stream here is one exchange.  [RoundTrip]
    of a client is an operation of its own, with its outcome as argument; a
    server stream writes to the [http.ResponseWriter] of its request.  What the
    receiver, the listeners, the connection and the writer are told is the trace of
    the stream.

    An [http.Header] is a map of lists of values.  A URL is the text given to
    [url.Parse].  A body is the pieces that arrive, up to its end.  Maps are ranged
    over in the order [range_h]. *)

From S2P Require Import Prelude Strconv GoStrings IoBuffer Serialize BoltTypes Stream Cluster StateGo ProxyState Connection.
From Stdlib Require Import Ascii.

Local Open Scope Z_scope.

Abbreviation http_header := (gmap string (list string)).

Definition MosnHeaderHostKey : string := "host".
Definition MosnHeaderPathKey : string := "path".
Definition MosnHeaderQueryStringKey : string := "querystring".
Definition MosnHeaderMethod : string := "method".

(** ** Headers *)

(** [strings.Join(l, ",")]. *)
Fixpoint Join (l : list string) : string :=
  match l with
  | [] => EmptyString
  | [v] => v
  | v :: l => (v +:+ "," +:+ Join l)%string
  end.

Definition encodeHeader (h : header_map) : http_header := (λ v, Split v ","%char) <$> h.

Section headers.
  Context (range_h : http_header → list (string * list string)).

Definition decodeHeader (h : http_header) : header_map :=
  foldl (λ out kv, <[ToLower kv.1 := Join kv.2]> out) ∅ (range_h h).

Record http_response := mk_hresp { hr_status : Z; hr_header : http_header; hr_body : list bytes; hr_trailer : http_header }.
Definition decodeRespHeader (r : http_response) : header_map := <[HeaderStatus := FormatUint (hr_status r)]> (decodeHeader (hr_header r)).

(** The path and the query of a request. *)
Definition parsePathFromURI (uri : string) : string * string :=
  if bool_decide (uri = EmptyString) then (EmptyString, EmptyString)
  else match Split uri "?"%char with
       | p :: q :: _ => (p, q)
       | [p] => (p, EmptyString)
       | [] => (EmptyString, EmptyString)
       end.

(** The whole body, read into an empty buffer. *)
Definition zero_buffer : IoBuffer := mk_iobuf (mk_slice [] []) true 0 0.
Definition read_body (body : list bytes) : Go IoBuffer :=
  '(_, b, _, _) ← ReadFrom chunk_reader (S (chunks_left body)) body zero_buffer;
  Ret b.

(** An [IoBufferReadCloser]: reading the body that was given as a buffer. *)
Definition buffer_reader (st : Go IoBuffer) (n : Z) : Go IoBuffer * bytes * option io_error :=
  match st ≫= λ b, Read b (Z.to_nat n) with
  | Ret (b, d, e) => (Ret b, d, e)
  | Panic k => (Panic k, [], None)
  end.

Inductive h2event :=
  | HReceiveHeaders (h : header_map) (endStream : bool)
  | HReceiveData (data : IoBuffer) (endStream : bool)
  | HReceiveTrailers (t : header_map)
  | HResetStream (cb : nat) (reason : string)
  | HGoAway
  | HClose (ty : ConnectionCloseType) (ev : ConnectionEvent)
  | HNewStream (streamID : string)
  | HWriteHeader (status : Z) (h : http_header)
  | HWriteBody (d : bytes)
  | HDone.

(** ** A client's stream *)

Record http_request := mk_hreq {
  hq_method : string; hq_url : string; hq_host : string; hq_header : http_header; hq_body : option IoBuffer; hq_trailer : http_header;
}.
(** [cs_sending]: the goroutines in [RoundTrip], with what they send. *)
Record clientStream := mk_cs {
  cs_readDisableCount : Z; cs_request : option http_request; cs_response : option http_response; cs_streamCbs : list nat;
  cs_sending : list http_request; cs_trace : list h2event;
}.
Definition new_clientStream : clientStream := mk_cs 0 None None [] [] [].
Definition set_cs_request (v : option http_request) (s : clientStream) : clientStream :=
  mk_cs (cs_readDisableCount s) v (cs_response s) (cs_streamCbs s) (cs_sending s) (cs_trace s).
Definition set_cs_response (v : option http_response) (s : clientStream) : clientStream :=
  mk_cs (cs_readDisableCount s) (cs_request s) v (cs_streamCbs s) (cs_sending s) (cs_trace s).
Definition cs_emit (l : list h2event) (s : clientStream) : clientStream :=
  mk_cs (cs_readDisableCount s) (cs_request s) (cs_response s) (cs_streamCbs s) (cs_sending s) (cs_trace s ++ l).

(** [remote] is the address of the host. *)
  Context (remote : string).

Definition cs_endStream (s : clientStream) : Go clientStream :=
  q ← match cs_request s with Some q => Ret q | None => Panic NilDeref end;
  Ret (mk_cs (cs_readDisableCount s) (cs_request s) (cs_response s) (cs_streamCbs s) (cs_sending s ++ [q]) (cs_trace s)).

(** Headers that are no map of strings read as none.  The map that was given loses
    the headers of the proxy; it is returned. *)
Definition cs_AppendHeaders (headers : option header_map) (endStream : bool) (s : clientStream) : Go (clientStream * option header_map) :=
  let h := default ∅ headers in
  let q := match cs_request s with
           | Some q => q
           | None => mk_hreq "GET" ("http://" +:+ remote +:+ "/")%string "" ∅ None ∅
           end in
  let '(q, h) := match h !! MosnHeaderPathKey with
                 | Some path => (mk_hreq (hq_method q) ("http://" +:+ remote +:+ path)%string (hq_host q) (hq_header q) (hq_body q) (hq_trailer q),
                                 delete MosnHeaderPathKey h)
                 | None => (q, h)
                 end in
  let '(q, h) := match h !! "Host"%string with
                 | Some _ => (mk_hreq (hq_method q) (hq_url q) remote (hq_header q) (hq_body q) (hq_trailer q), <["Host"%string := remote]> h)
                 | None => (q, h)
                 end in
  let h := delete MosnHeaderHostKey (delete MosnHeaderMethod (delete MosnHeaderQueryStringKey h)) in
  let q := mk_hreq (hq_method q) (hq_url q) (hq_host q) (encodeHeader h) (hq_body q) (hq_trailer q) in
  let s := set_cs_request (Some q) s in
  s ← (if endStream then cs_endStream s else Ret s);
  Ret (s, (λ _, h) <$> headers).

Definition empty_request : http_request := mk_hreq "" "" "" ∅ None ∅.
Definition cs_AppendData (data : IoBuffer) (endStream : bool) (s : clientStream) : Go clientStream :=
  let q := default empty_request (cs_request s) in
  let s := set_cs_request (Some (mk_hreq "POST" (hq_url q) (hq_host q) (hq_header q) (Some data) (hq_trailer q))) s in
  if endStream then cs_endStream s else Ret s.

Definition cs_AppendTrailers (trailers : header_map) (s : clientStream) : Go clientStream :=
  match cs_request s with
  | None => Panic NilDeref
  | Some q => cs_endStream (set_cs_request (Some (mk_hreq (hq_method q) (hq_url q) (hq_host q) (hq_header q) (hq_body q) (encodeHeader trailers))) s)
  end.

Definition cs_handleResponse (s : clientStream) : Go clientStream :=
  match cs_response s with
  | None => Ret s
  | Some r =>
    b ← read_body (hr_body r);
    Ret (set_cs_response None (cs_emit [HReceiveHeaders (decodeRespHeader r) false; HReceiveData b false; HReceiveTrailers (decodeHeader (hr_trailer r))] s))
  end.

Definition cs_ReadDisable (disable : bool) (s : clientStream) : Go clientStream :=
  let n := to_int32 (cs_readDisableCount s + if disable then 1 else -1) in
  let s := mk_cs n (cs_request s) (cs_response s) (cs_streamCbs s) (cs_sending s) (cs_trace s) in
  if negb disable && bool_decide (n ≤ 0) then cs_handleResponse s else Ret s.

Definition cs_AddEventListener (cb : nat) (s : clientStream) : clientStream :=
  mk_cs (cs_readDisableCount s) (cs_request s) (cs_response s) (cs_streamCbs s ++ [cb]) (cs_sending s) (cs_trace s).
(** The loop variable hides the argument: the first listener goes, whichever it is. *)
Definition cs_RemoveEventListener (cb : nat) (s : clientStream) : clientStream :=
  mk_cs (cs_readDisableCount s) (cs_request s) (cs_response s) (tail (cs_streamCbs s)) (cs_sending s) (cs_trace s).
Definition cs_ResetStream (reason : string) (s : clientStream) : clientStream :=
  cs_emit ((λ cb, HResetStream cb reason) <$> cs_streamCbs s) s.
Definition CleanStream (s : clientStream) : clientStream := set_cs_response None s.

(** The errors of [RoundTrip], by their types and texts. *)
Inductive h2error :=
  | H2StreamError | H2GoAwayError | H2EOF | H2ConnClosed | H2NotUsable | H2GracefulGoAway | H2GoAwayBodyWritten
  | H2HeadersTimeout | H2Canceled | H2Other.

(** The end of the [RoundTrip] of one of the goroutines, the first. *)
Definition cs_doSend (outcome : http_response + h2error) (s : clientStream) : Go clientStream :=
  match cs_sending s with
  | [] => Ret s
  | _ :: rest =>
    let s := mk_cs (cs_readDisableCount s) (cs_request s) (cs_response s) (cs_streamCbs s) rest (cs_trace s) in
    match outcome with
    | inl resp =>
      let s := set_cs_response (Some resp) s in
      if bool_decide (cs_readDisableCount s ≤ 0) then cs_handleResponse s else Ret s
    | inr e =>
      let s := match e with
               | H2StreamError => cs_ResetStream StreamRemoteReset s
               | H2GoAwayError | H2GracefulGoAway => cs_emit [HGoAway] s
               | H2EOF | H2Other => cs_emit [HClose NoFlush RemoteClose] s
               | H2ConnClosed => cs_emit [HClose NoFlush LocalClose] s
               | H2NotUsable => cs_ResetStream StreamOverflow s
               | H2GoAwayBodyWritten => s
               | H2HeadersTimeout => cs_ResetStream StreamConnectionFailed s
               | H2Canceled => cs_ResetStream StreamLocalReset s
               end in
      Ret (CleanStream s)
    end
  end.

(** ** A server's stream *)

Record server_request := mk_sreq { sq_header : http_header; sq_host : string; sq_uri : string; sq_body : list bytes; sq_trailer : http_header }.
Record out_response := mk_out { or_status : Z; or_header : http_header; or_body : option IoBuffer; or_trailer : http_header }.
Definition empty_response : out_response := mk_out 0 ∅ None ∅.

(** [ss_writer]: whether there is a [responseWriter]. *)
Record serverStream := mk_ss {
  ss_readDisableCount : Z; ss_request : server_request; ss_response : option out_response; ss_streamCbs : list nat;
  ss_writer : bool; ss_responseDone : bool; ss_trace : list h2event;
}.
Definition ss_emit (l : list h2event) (s : serverStream) : serverStream :=
  mk_ss (ss_readDisableCount s) (ss_request s) (ss_response s) (ss_streamCbs s) (ss_writer s) (ss_responseDone s) (ss_trace s ++ l).
Definition set_ss_response (v : option out_response) (s : serverStream) : serverStream :=
  mk_ss (ss_readDisableCount s) (ss_request s) v (ss_streamCbs s) (ss_writer s) (ss_responseDone s) (ss_trace s).
Definition set_ss_request (v : server_request) (s : serverStream) : serverStream :=
  mk_ss (ss_readDisableCount s) v (ss_response s) (ss_streamCbs s) (ss_writer s) (ss_responseDone s) (ss_trace s).

Definition add_missing (k v : string) (h : header_map) : header_map := match h !! k with Some _ => h | None => <[k := v]> h end.
(** The headers of a request as the proxy sees them. *)
Definition request_headers (q : server_request) : header_map :=
  let '(path, query) := parsePathFromURI (sq_uri q) in
  add_missing MosnHeaderQueryStringKey query (add_missing MosnHeaderPathKey path (add_missing MosnHeaderHostKey (sq_host q) (decodeHeader (sq_header q)))).

(** The body is used up. *)
Definition ss_handleRequest (s : serverStream) : Go serverStream :=
  let q := ss_request s in
  b ← read_body (sq_body q);
  Ret (set_ss_request (mk_sreq (sq_header q) (sq_host q) (sq_uri q) [] (sq_trailer q))
    (ss_emit [HReceiveHeaders (request_headers q) false; HReceiveData b false; HReceiveTrailers (decodeHeader (sq_trailer q))] s)).

(** The connection of a server's stream has no logger, and the first thing that is done
    is to write to it. *)
Definition ss_ReadDisable (disable : bool) (s : serverStream) : Go serverStream := Panic NilDeref.

(** A new request. *)
Definition ServeHTTP (streamID : string) (q : server_request) : Go serverStream :=
  let s := mk_ss 0 q None [] true false [HNewStream streamID] in
  if bool_decide (ss_readDisableCount s ≤ 0) then ss_handleRequest s else Ret s.
(** What is left of a stream whose receiver panicked: it has no writer any more. *)
Definition ss_recovered (s : serverStream) : serverStream :=
  mk_ss (ss_readDisableCount s) (ss_request s) (ss_response s) (ss_streamCbs s) false (ss_responseDone s) (ss_trace s).

(** The body goes through a new buffer; the writer takes all of it.  Without a writer a
    warning is written, to the logger there is not. *)
Definition ss_doSend (s : serverStream) : Go serverStream :=
  if negb (ss_writer s) then Panic NilDeref
  else
  r ← match ss_response s with Some r => Ret r | None => Panic NilDeref end;
  let s := ss_emit [HWriteHeader (or_status r) (or_header r)] s in
  match or_body r with
  | None => Ret s
  | Some b =>
    '(b, c, _, _) ← ReadFrom buffer_reader (S (Z.to_nat (Len b))) (Ret b) zero_buffer;
    b ← b;
    d ← Bytes c;
    Ret (ss_emit [HWriteBody d] (set_ss_response (Some (mk_out (or_status r) (or_header r) (Some b) (or_trailer r))) s))
  end.

Definition finish (s : serverStream) : serverStream :=
  if ss_responseDone s then s
  else mk_ss (ss_readDisableCount s) (ss_request s) (ss_response s) (ss_streamCbs s) (ss_writer s) true (ss_trace s ++ [HDone]).

Definition ss_endStream (s : serverStream) : Go serverStream := s ← ss_doSend s; Ret (finish s).

Definition ss_AppendHeaders (headers : option header_map) (endStream : bool) (s : serverStream) : Go (serverStream * option header_map) :=
  let h := default ∅ headers in
  let r := default empty_response (ss_response s) in
  let '(status, h) := match h !! HeaderStatus with Some v => (Atoi v, delete HeaderStatus h) | None => (200, h) end in
  let s := set_ss_response (Some (mk_out status (encodeHeader h) (or_body r) (or_trailer r))) s in
  s ← (if endStream then ss_endStream s else Ret s);
  Ret (s, (λ _, h) <$> headers).
Definition ss_AppendData (data : IoBuffer) (endStream : bool) (s : serverStream) : Go serverStream :=
  let r := default empty_response (ss_response s) in
  let s := set_ss_response (Some (mk_out (or_status r) (or_header r) (Some data) (or_trailer r))) s in
  if endStream then ss_endStream s else Ret s.
Definition ss_AppendTrailers (trailers : header_map) (s : serverStream) : Go serverStream :=
  match ss_response s with
  | None => Panic NilDeref
  | Some r => ss_endStream (set_ss_response (Some (mk_out (or_status r) (or_header r) (or_body r) (encodeHeader trailers))) s)
  end.

Definition ss_ResetStream (reason : string) (s : serverStream) : serverStream :=
  let s := finish s in ss_emit ((λ cb, HResetStream cb reason) <$> ss_streamCbs s) s.
Definition ss_AddEventListener (cb : nat) (s : serverStream) : serverStream :=
  mk_ss (ss_readDisableCount s) (ss_request s) (ss_response s) (ss_streamCbs s ++ [cb]) (ss_writer s) (ss_responseDone s) (ss_trace s).
End headers.
