(* ===== verification/Http2StreamProps.v ===== *)
(** * Theorems on [Http2Stream]

    Headers survive the encoding; an exchange on a server's stream; responses on a
    client's. *)

From S2P Require Import Prelude Strconv GoStrings IoBuffer Serialize BoltTypes Stream Cluster StateGo ProxyState Connection ConnectionProps Http2Stream.
From Stdlib Require Import Ascii.

Local Open Scope Z_scope.

(** ** Headers *)

Lemma Join_Split v : Join (Split v ","%char) = v.
Proof.
  induction v as [|c v IH]; [done|]. cbn [Split]. destruct (Split v ","%char) as [|p ps] eqn:E.
  { exfalso. clear -E. destruct v; cbn in E; [done|]. destruct (bool_decide _); [done|]. by destruct (Split v _). }
  case_bool_decide as Hc.
  - subst c. change (Join (EmptyString :: p :: ps)) with (String.String ","%char (Join (p :: ps))). by rewrite IH.
  - destruct ps as [|q ps]; cbn [Join] in *; [by subst|]. by rewrite <- IH.
Qed.

(** A lower-case map. *)
Definition lower (h : header_map) : Prop := ∀ k v, h !! k = Some v → ToLower k = k.

Section order.
  Context (range_h : http_header → list (string * list string)).
  Hypothesis (Hrange : ∀ m, range_h m ≡ₚ map_to_list m).

Lemma foldl_insert (l : list (string * list string)) (m : header_map) : NoDup (ToLower ∘ fst <$> l) →
  ∀ k, foldl (λ out kv, <[ToLower kv.1 := Join kv.2]> out) m l !! k =
    match list_find (λ kv, ToLower kv.1 = k) l with Some (_, kv) => Some (Join kv.2) | None => m !! k end.
Proof.
  revert m. induction l as [|kv l IH]; intros m Hnd k; [done|]. cbn [fmap list_fmap] in Hnd. apply NoDup_cons in Hnd as [Hn Hnd]. cbn [foldl]. rewrite IH by done.
  cbn [list_find]. case_decide as Hk.
  - destruct (list_find _ l) as [[i kv']|] eqn:E; cbn.
    + apply list_find_Some in E as (Hi & Hk' & _). exfalso. apply Hn. apply list_elem_of_fmap. exists kv'. split; [by cbn; congruence|]. by eapply list_elem_of_lookup_2.
    + by rewrite Hk, lookup_insert_eq.
  - destruct (list_find _ l) as [[i kv']|]; cbn; [done|]. by rewrite lookup_insert_ne.
Qed.

(** What is encoded is decoded, when its names are in lower case. *)
Lemma header_roundtrip h : lower h → decodeHeader range_h (encodeHeader h) = h.
Proof.
  intros Hl. apply map_eq. intros k. unfold decodeHeader.
  assert (∀ kv, kv ∈ range_h (encodeHeader h) ↔ encodeHeader h !! kv.1 = Some kv.2) as Hin.
  { intros [a b]. by rewrite Hrange, elem_of_map_to_list. }
  assert (∀ kv, kv ∈ range_h (encodeHeader h) → ToLower kv.1 = kv.1) as Hlow.
  { intros kv Hkv%Hin. unfold encodeHeader in Hkv. rewrite lookup_fmap, fmap_Some in Hkv. destruct Hkv as (v & Hv & _). by eapply Hl. }
  rewrite foldl_insert.
  - destruct (list_find _ _) as [[i kv]|] eqn:E.
    + apply list_find_Some in E as (Hi & Hk & _). pose proof (list_elem_of_lookup_2 _ _ _ Hi) as Hkv. rewrite Hlow in Hk by done. subst k.
      apply Hin in Hkv. unfold encodeHeader in Hkv. rewrite lookup_fmap, fmap_Some in Hkv. destruct Hkv as (v & Hv & ->). by rewrite Join_Split.
    + apply list_find_None in E. rewrite lookup_empty. destruct (h !! k) as [v|] eqn:Hk; [|done]. exfalso.
      rewrite Forall_forall in E. apply (E (k, Split v ","%char)); [|cbn; by eapply Hl]. apply Hin. unfold encodeHeader. cbn. by rewrite lookup_fmap, Hk.
  - assert (ToLower ∘ fst <$> range_h (encodeHeader h) = fst <$> range_h (encodeHeader h)) as ->.
    { apply list_fmap_ext. intros i kv Hi. cbn. apply Hlow. by eapply list_elem_of_lookup_2. }
    rewrite Hrange. apply NoDup_fst_map_to_list.
Qed.

(** *** Which headers there are after decoding *)

Lemma Join_concat l : Join l = String.concat "," l.
Proof. induction l as [|v l IH]; [done|]. destruct l as [|w l]; [done|]. cbn [Join String.concat] in *. by rewrite IH. Qed.

(** Names that differ, differ in more than case. *)
Definition names_distinct (h : http_header) : Prop := ∀ a b, is_Some (h !! a) → is_Some (h !! b) → ToLower a = ToLower b → a = b.
(** The value under a name in lower case: the values joined by commas. *)
Definition header_is (h : http_header) (k v : string) : Prop := ∃ name vs, h !! name = Some vs ∧ ToLower name = k ∧ v = String.concat "," vs.

Lemma decode_lookup h k v : names_distinct h → decodeHeader range_h h !! k = Some v ↔ header_is h k v.
Proof.
  intros Hd. unfold decodeHeader.
  assert (∀ kv, kv ∈ range_h h ↔ h !! kv.1 = Some kv.2) as Hin. { intros [a b]. by rewrite Hrange, elem_of_map_to_list. }
  assert (NoDup (range_h h).*1) as Hn1 by (rewrite Hrange; apply NoDup_fst_map_to_list).
  assert (NoDup (ToLower ∘ fst <$> range_h h)) as Hnd.
  { rewrite (list_fmap_compose fst ToLower). apply NoDup_fmap_2_strong; [|done]. intros a b (x & -> & Hx)%list_elem_of_fmap (y & -> & Hy)%list_elem_of_fmap.
    apply Hin in Hx, Hy. apply Hd; eauto. }
  rewrite foldl_insert by done. rewrite lookup_empty. split.
  - destruct (list_find _ _) as [[i kv]|] eqn:E; [|done]. intros [= <-]. apply list_find_Some in E as (Hi & Hk & _).
    exists kv.1, kv.2. split_and!; [by apply Hin; eapply list_elem_of_lookup_2|done|apply Join_concat].
  - intros (name & vs & Hv & Hk & ->). destruct (list_find _ _) as [[i kv]|] eqn:E.
    + apply list_find_Some in E as (Hi & Hk' & _). apply list_elem_of_lookup_2, Hin in Hi. destruct kv as [a b]. cbn in *.
      assert (a = name) as -> by (apply Hd; [eauto..|congruence]). rewrite Hv in Hi. injection Hi as ->. by rewrite Join_concat.
    + apply list_find_None in E. rewrite Forall_forall in E. exfalso. apply (E (name, vs)); [by apply Hin|done].
Qed.
Lemma decode_none h k : names_distinct h → decodeHeader range_h h !! k = None ↔ ∀ v, ¬ header_is h k v.
Proof.
  intros Hd. rewrite eq_None_not_Some. split.
  - intros Hn v Hv%decode_lookup; [|done]. apply Hn. eauto.
  - intros Hn [v Hv]. apply decode_lookup in Hv; [|done]. by eapply Hn.
Qed.
End order.

(** *** Texts without a character, and the parts of a URI *)

Fixpoint without (c : ascii) (s : string) : bool :=
  match s with EmptyString => true | String.String d s => negb (bool_decide (d = c)) && without c s end.

Lemma Split_first sep s : ∃ p ps, Split s sep = p :: ps ∧ without sep p = true ∧
  ((ps = [] ∧ s = p) ∨ ∃ t, s = (p +:+ String.String sep t)%string ∧ Split t sep = ps).
Proof.
  induction s as [|d s (p & ps & E & Hp & IH)]; [by exists EmptyString, []; split_and!; [..|left]|]. cbn [Split]. rewrite E. case_bool_decide as Hd.
  - subst d. exists EmptyString, (p :: ps). split_and!; [done..|]. right. by exists s.
  - exists (String.String d p), ps. split; [done|]. split; [cbn; by rewrite bool_decide_false|].
    destruct IH as [[-> ->]|(t & -> & Et)]; [by left|right]. by exists t.
Qed.
Lemma Split_without sep s : Split s sep ≠ [] ∧ Forall (λ p, without sep p = true) (Split s sep).
Proof.
  remember (String.length s) as n eqn:Hn. revert s Hn. induction (lt_wf n) as [n _ IH]. intros s Hn.
  destruct (Split_first sep s) as (p & ps & E & Hp & [[-> _]|(t & Hs & <-)]); rewrite E; (split; [done|]); [by repeat constructor|].
  constructor; [done|]. eapply IH; [|reflexivity]. subst n s. change (slen t < slen (p +:+ String.String sep t))%nat. rewrite slen_app. unfold slen. cbn. lia.
Qed.

(** The path is what is in front of the first question mark, the query what is between
    it and the next, if there is one. *)
Definition uri_parts (uri path query : string) : Prop :=
  without "?"%char path = true ∧ without "?"%char query = true ∧
  ((uri = path ∧ query = EmptyString) ∨
   ∃ rest, uri = (path +:+ String.String "?"%char (query +:+ rest))%string ∧ (rest = EmptyString ∨ ∃ t, rest = String.String "?"%char t)).
Lemma parsed_parts uri : uri_parts uri (parsePathFromURI uri).1 (parsePathFromURI uri).2.
Proof.
  unfold parsePathFromURI. case_bool_decide as He; [subst; by split_and!; [..|left]|].
  destruct (Split_first "?"%char uri) as (p & ps & -> & Hp & Hps). destruct Hps as [[-> ->]|(t & -> & <-)]; [by split_and!; [..|left]|].
  destruct (Split_first "?"%char t) as (q & qs & -> & Hq & Hqs). cbn. split_and!; [done..|right].
  destruct Hqs as [[-> ->]|(u & -> & _)].
  - exists EmptyString. split; [|by left]. do 2 f_equal. clear. induction q as [|c q IHq]; [done|].
    change (String.String c q +:+ EmptyString)%string with (String.String c (q +:+ EmptyString)). by rewrite <- IHq.
  - exists (String.String "?"%char u). split; [done|right; by exists u].
Qed.

(** ** Bodies *)

Lemma zero_ok : wf zero_buffer ∧ contents zero_buffer = [].
Proof. split; [split; [vm_compute; split; discriminate|done]|done]. Qed.

Lemma chunk_run st d st1 : rd_run chunk_reader st d st1 → concat st = (d ++ concat st1)%list ∧ (Forall (λ c, c ≠ []) st → Forall (λ c, c ≠ []) st1).
Proof.
  induction 1 as [|st n st1 d data st2 E _ [IH1 IH2]]; [done|]. destruct st as [|c cs]; [done|]. cbn in E. case_bool_decide as Hn; injection E as <- <-.
  - split; [cbn; by rewrite <- app_assoc, <- IH1|]. intros [_ H]%Forall_cons. auto.
  - split; [cbn in *; by rewrite <- app_assoc, <- IH1, app_assoc, take_drop|]. intros [Hc H]%Forall_cons. apply IH2. constructor; [|done].
    intros Hd. apply (f_equal length) in Hd. rewrite length_drop in Hd. cbn in Hd. destruct c; [done|]. cbn in *. lia.
Qed.

Lemma read_body_ok body : Forall (λ c, c ≠ []) body → ∃ b, read_body body = Ret b ∧ wf b ∧ contents b = concat body.
Proof.
  intros Hb. destruct zero_ok as [Hz Hz0]. destruct (ReadFrom_correct chunk_reader chunks_left body zero_buffer chunk_reader_ok chunk_reader_finite Hz)
    as (st' & b & e & d & last & st1 & E & Hwf & Hc & Hrun & n & e' & Hn & Erd & Hend).
  exists b. unfold read_body. rewrite E. split; [done|]. split; [done|]. rewrite Hc, Hz0. destruct (chunk_run _ _ _ Hrun) as [-> Hne]. cbn. f_equal.
  specialize (Hne Hb). destruct st1 as [|c cs]; [cbn in Erd; by injection Erd as _ <- _|]. exfalso.
  apply Forall_cons in Hne as [Hne _]. cbn in Erd.
  assert (last ≠ [] ∧ e' = None) as [Hl ->].
  { case_bool_decide; injection Erd as _ <- <-; split; try done. destruct c; [done|]. by destruct (Z.to_nat n) eqn:En; [lia|]. }
  destruct Hend as [[? _]|[[? _]|(_ & _ & -> & ?)]]; done.
Qed.

(** The body of a response, read through its buffer. *)
Definition left_in (st : Go IoBuffer) : nat := match st with Ret b => Z.to_nat (Len b) | Panic _ => O end.

Lemma buffer_reader_ok : reader_ok buffer_reader.
Proof.
  intros st n Hn. unfold buffer_reader. destruct st as [b|]; cbn; [|lia]. unfold Read. case_bool_decide.
  - destruct (Reset b); cbn; lia.
  - destruct (buf_from b (off b)); cbn; [|lia]. rewrite length_take. lia.
Qed.
Lemma buffer_reader_step b n st d e : wf b → buffer_reader (Ret b) n = (st, d, e) →
  ∃ b', st = Ret b' ∧ wf b' ∧ contents b = (d ++ contents b')%list ∧ (0 < n → d = [] → contents b = []) ∧ (e = None ∨ e = Some EOF ∧ d = [] ∧ contents b = []).
Proof.
  intros Hwf E. unfold buffer_reader in E. cbn in E. destruct (Read_refines b (Z.to_nat n) Hwf) as (b' & d' & e' & Er & Hw & Hq). rewrite Er in E. injection E as <- <- <-.
  exists b'. split; [done|]. split; [done|]. cbn in Hq. destruct (contents b) as [|x q] eqn:Hb; injection Hq as <- <- <-.
  - split_and!; [done..|]. case_bool_decide; auto.
  - split_and!; [by rewrite <- Hb, take_drop| |by left]. intros Hn. destruct (Z.to_nat n) eqn:En; [lia|done].
Qed.
Lemma buffer_reader_finite : finite_source buffer_reader left_in.
Proof.
  intros st n st' d E Hd. unfold buffer_reader in E. destruct st as [b|]; cbn in E; [|by injection E as _ <-]. unfold Read in E. case_bool_decide as Hle.
  { destruct (Reset b); cbn in E; [by injection E as _ <- _|by injection E as _ <-]. }
  destruct (buf_from b (off b)) as [r|] eqn:Er; cbn in E; [|by injection E as _ <-]. injection E as <- <-. cbn. unfold Len. cbn. unfold s_len in *.
  assert (0 < length (take (Z.to_nat n) r))%nat by (destruct (take _ r); [done|cbn; lia]).
  lia.
Qed.

Lemma buffer_run st d st1 : rd_run buffer_reader st d st1 → ∀ b, st = Ret b → wf b → ∃ b1, st1 = Ret b1 ∧ wf b1 ∧ contents b = (d ++ contents b1)%list.
Proof.
  induction 1 as [|st n st1 d data st2 E _ IH]; intros b -> Hwf; [by exists b|]. destruct (buffer_reader_step _ _ _ _ _ Hwf E) as (b1 & -> & Hw1 & Hc & _).
  destruct (IH b1 eq_refl Hw1) as (b2 & -> & Hw2 & Hc2). exists b2. split_and!; [done..|]. by rewrite Hc, Hc2, app_assoc.
Qed.
(** A body given as a buffer is read to its end. *)
Lemma buffered_body b : wf b → ∃ b' c n e, ReadFrom buffer_reader (S (Z.to_nat (Len b))) (Ret b) zero_buffer = Ret (Ret b', c, n, e) ∧
  wf b' ∧ contents b' = [] ∧ wf c ∧ contents c = contents b.
Proof.
  intros Hwf. destruct zero_ok as [Hz Hz0]. destruct (ReadFrom_correct buffer_reader left_in (Ret b) zero_buffer buffer_reader_ok buffer_reader_finite Hz)
    as (st' & c & e & d & last & st1 & E & Hc & Hcc & Hrun & n & e' & Hn & Erd & Hend).
  destruct (buffer_run _ _ _ Hrun b eq_refl Hwf) as (b1 & -> & Hw1 & Hb). destruct (buffer_reader_step _ _ _ _ _ Hw1 Erd) as (b2 & -> & Hw2 & Hb1 & Hempty & He).
  assert (last = [] ∧ contents b1 = []) as [-> Hb0].
  { destruct He as [->|(_ & -> & ->)]; [|done]. destruct Hend as [[? _]|[[-> _]|(_ & _ & -> & ?)]]; [done|by auto|done]. }
  rewrite Hb0 in Hb1. exists b2, c. eexists _, e. split; [exact E|]. rewrite Hcc, Hz0, Hb, Hb0. cbn. by split_and!; [|by destruct (contents b2)| |].
Qed.

(** ** A server's stream *)

Section server.
  Context (range_h : http_header → list (string * list string)).

Hypothesis (Hrange : ∀ m, range_h m ≡ₚ map_to_list m).

(** The headers of a request as they are received: its own, and the host, the path and
    the query where it has none of these names. *)
Definition received_headers (q : server_request) (H : header_map) : Prop :=
  ∃ path query, uri_parts (sq_uri q) path query ∧
  ∀ k v, H !! k = Some v ↔
    header_is (sq_header q) k v ∨
    (∀ w, ¬ header_is (sq_header q) k w) ∧
      ((k = "host"%string ∧ v = sq_host q) ∨ (k = "path"%string ∧ v = path) ∨ (k = "querystring"%string ∧ v = query)).
(** The status and the headers that are written for those of an answer. *)
Definition written_headers (h : header_map) (status : Z) (w : http_header) : Prop :=
  (h !! HeaderStatus = None → status = 200) ∧ (∀ n, 0 ≤ n < 2 ^ 31 → h !! HeaderStatus = Some (FormatUint n) → status = n) ∧
  w !! HeaderStatus = None ∧
  ∀ k, k ≠ HeaderStatus →
    match h !! k with
    | Some v => ∃ vs, w !! k = Some vs ∧ vs ≠ [] ∧ Forall (λ p, without ","%char p = true) vs ∧ String.concat "," vs = v
    | None => w !! k = None
    end.

Lemma add_missing_lookup k v h x y : add_missing k v h !! x = Some y ↔ h !! x = Some y ∨ (h !! x = None ∧ x = k ∧ y = v).
Proof.
  unfold add_missing. destruct (h !! k) as [w|] eqn:E.
  - split; [by left|]. intros [?|(Hn & -> & ->)]; congruence.
  - destruct (decide (x = k)) as [->|Hx]; [rewrite lookup_insert_eq|rewrite lookup_insert_ne by done]; naive_solver.
Qed.
Lemma add_missing_None k v h x : add_missing k v h !! x = None ↔ h !! x = None ∧ x ≠ k.
Proof.
  unfold add_missing. destruct (h !! k) as [w|] eqn:E.
  - split; [|by intros [? _]]. intros Hx. split; [done|]. by intros ->; rewrite E in Hx.
  - destruct (decide (x = k)) as [->|Hx]; [rewrite lookup_insert_eq|rewrite lookup_insert_ne by done]; naive_solver.
Qed.
Lemma request_headers_received q : names_distinct (sq_header q) → received_headers q (request_headers range_h q).
Proof.
  intros Hd. unfold request_headers. pose proof (parsed_parts (sq_uri q)) as Hu. destruct (parsePathFromURI (sq_uri q)) as [path query].
  exists path, query. split; [done|]. intros k v. rewrite !add_missing_lookup, !add_missing_None.
  rewrite decode_lookup, decode_none by done. unfold MosnHeaderHostKey, MosnHeaderPathKey, MosnHeaderQueryStringKey. naive_solver.
Qed.

Lemma encode_written h status : status = default 200 (Atoi <$> h !! HeaderStatus) → written_headers h status (encodeHeader (delete HeaderStatus h)).
Proof.
  intros ->. unfold encodeHeader. split_and!.
  - by intros ->.
  - intros n Hn ->. cbn. unfold Atoi. apply ParseInt_FormatUint; lia.
  - by rewrite lookup_fmap, lookup_delete_eq.
  - intros k Hk. rewrite lookup_fmap, lookup_delete_ne by done. destruct (h !! k) as [v|]; [|done]. cbn. eexists. split; [done|].
    destruct (Split_without ","%char v) as [H1 H2]. split_and!; [done..|]. by rewrite <- Join_concat, Join_Split.
Qed.

(** C22. An HTTP/2 exchange.  A request is given to the receiver of its stream once: its
    headers, each under its name in lower case with its values joined by commas, with
    the host, the path in front of the first question mark of its URI and the query
    behind it (up to the next one) where the request has no headers of these names, and
    no others; the whole body; and the trailers.  Headers and a body that are then sent
    as the answer are written to the client once, with the status of the headers or
    200, every other header with its value in its comma-separated parts, and the whole
    body, and end the request.  Names of headers differ in more than case, as in the
    http package; no piece of a body is empty. *)
Theorem h2_exchange id q h d : Forall (λ c, c ≠ []) (sq_body q) → names_distinct (sq_header q) → names_distinct (sq_trailer q) → wf d →
  ∃ H b T s s1 s2 status w, ServeHTTP range_h id q = Ret s ∧
    ss_trace s = [HNewStream id; HReceiveHeaders H false; HReceiveData b false; HReceiveTrailers T] ∧
    received_headers q H ∧ contents b = concat (sq_body q) ∧ (∀ k v, T !! k = Some v ↔ header_is (sq_trailer q) k v) ∧
    ss_AppendHeaders (Some h) false s = Ret (s1, Some (delete HeaderStatus h)) ∧ ss_AppendData d true s1 = Ret s2 ∧
    ss_trace s2 = (ss_trace s ++ [HWriteHeader status w; HWriteBody (contents d); HDone])%list ∧
    written_headers h status w ∧ ss_responseDone s2 = true.
Proof.
  intros Hq Hqd Htd Hd. destruct (read_body_ok _ Hq) as (b & Eb & Hb & Hcb). destruct (buffered_body d Hd) as (d' & c & n & e & Ed & _ & _ & Hc & Hcd).
  assert (∀ s, ss_AppendHeaders (Some h) false s = Ret (set_ss_response (Some (mk_out (default 200 (Atoi <$> h !! HeaderStatus)) (encodeHeader (delete HeaderStatus h))
    (or_body (default empty_response (ss_response s))) (or_trailer (default empty_response (ss_response s))))) s, Some (delete HeaderStatus h))) as Hah.
  { intros s. unfold ss_AppendHeaders. change (default ∅ (Some h)) with h. destruct (h !! HeaderStatus) eqn:Eh; [reflexivity|].
    rewrite delete_id by done. reflexivity. }
  exists (request_headers range_h q), b, (decodeHeader range_h (sq_trailer q)). eexists _, _, _, (default 200 (Atoi <$> h !! HeaderStatus)), (encodeHeader (delete HeaderStatus h)).
  split_and!; [..|by apply request_headers_received|done|by intros; apply decode_lookup|apply Hah| | |by apply encode_written|].
  - unfold ServeHTTP. cbn. unfold ss_handleRequest. cbn [ss_request]. rewrite Eb. reflexivity.
  - reflexivity.
  - unfold ss_AppendData, ss_endStream, ss_doSend. cbn. rewrite Ed. cbn. unfold Bytes. rewrite buf_from_ok by done. reflexivity.
  - cbn. by rewrite Hcd.
  - reflexivity.
Qed.
End server.

(** ** A client's stream *)

Section client.
  Context (range_h : http_header → list (string * list string)) (remote : string).

Inductive cop :=
  | CoHeaders (h : option header_map) (endStream : bool) | CoData (d : IoBuffer) (endStream : bool) | CoTrailers (t : header_map)
  | CoPause (disable : bool) | CoOutcome (o : http_response + h2error) | CoListen (cb : nat) | CoUnlisten (cb : nat) | CoReset (reason : string).
Definition run_cop (s : clientStream) (o : cop) : Go clientStream :=
  match o with
  | CoHeaders h e => '(s, _) ← cs_AppendHeaders remote h e s; Ret s
  | CoData d e => cs_AppendData d e s
  | CoTrailers t => cs_AppendTrailers t s
  | CoPause b => cs_ReadDisable range_h b s
  | CoOutcome o => cs_doSend range_h o s
  | CoListen cb => Ret (cs_AddEventListener cb s)
  | CoUnlisten cb => Ret (cs_RemoveEventListener cb s)
  | CoReset r => Ret (cs_ResetStream r s)
  end.
Fixpoint run_cops (s : clientStream) (l : list cop) : Go clientStream :=
  match l with [] => Ret s | o :: l => s ← run_cop s o; run_cops s l end.

(** Responses that the receiver got, that wait, and that arrived. *)
Definition is_headers (e : h2event) : bool := match e with HReceiveHeaders _ _ => true | _ => false end.
Definition received (l : list h2event) : nat := length (filter (λ e, is_headers e = true) l).
#[local] Arguments received : simpl never.
Definition waiting (s : clientStream) : nat := match cs_response s with Some _ => 1%nat | None => O end.
Definition arrived (o : cop) : nat := match o with CoOutcome (inl _) => 1%nat | _ => O end.

Lemma received_app l k : received (l ++ k) = (received l + received k)%nat.
Proof. unfold received. by rewrite filter_app, length_app. Qed.
Lemma received_resets cbs r : received ((λ cb, HResetStream cb r) <$> cbs) = O.
Proof. induction cbs; [done|]. exact IHcbs. Qed.

Lemma received_response h e b e' t : received [HReceiveHeaders h e; HReceiveData b e'; HReceiveTrailers t] = 1%nat.
Proof. reflexivity. Qed.
Lemma received_other e : is_headers e = false → received [e] = O.
Proof. intros He. unfold received. rewrite filter_cons, He. done. Qed.

Lemma handle_received s s' : cs_handleResponse range_h s = Ret s' → (received (cs_trace s') + waiting s' = received (cs_trace s) + waiting s)%nat.
Proof.
  unfold cs_handleResponse, waiting. destruct (cs_response s) as [r|] eqn:Er; [|by intros [= <-]; rewrite Er].
  destruct (read_body (hr_body r)) as [b|]; [|done]. intros [= <-]. cbn. rewrite received_app, received_response. lia.
Qed.
Lemma end_received s s' : cs_endStream s = Ret s' → cs_trace s' = cs_trace s ∧ waiting s' = waiting s.
Proof. unfold cs_endStream. destruct (cs_request s); [|done]. by intros [= <-]. Qed.

Lemma headers_received h e s s' h' : cs_AppendHeaders remote h e s = Ret (s', h') → cs_trace s' = cs_trace s ∧ waiting s' = waiting s.
Proof.
  unfold cs_AppendHeaders. generalize (default ∅ h). intros h0. cbv zeta.
  destruct (h0 !! MosnHeaderPathKey) as [path|]; cbv beta iota; match goal with |- context [?m !! "Host"%string] => destruct (m !! "Host"%string) end; cbv beta iota;
    intros E; apply bind_Ret_inv in E as (s1 & E & [= -> _]); (destruct e; [apply end_received in E as [-> ->]|injection E as <-]); done.
Qed.

Lemma step_received o s s' : run_cop s o = Ret s' → (received (cs_trace s') + waiting s' ≤ received (cs_trace s) + waiting s + arrived o)%nat.
Proof.
  destruct o as [h e|d e|t|b|oc|cb|cb|r]; cbn [run_cop arrived].
  - intros E. apply bind_Ret_inv in E as ([s1 h1] & E & [= <-]). apply headers_received in E as [-> ->]. lia.
  - unfold cs_AppendData. destruct e; [|intros [= <-]; unfold waiting; cbn; lia]. intros [-> ->]%end_received. unfold waiting. cbn. lia.
  - unfold cs_AppendTrailers. destruct (cs_request s); [|done]. intros [-> ->]%end_received. unfold waiting. cbn. lia.
  - unfold cs_ReadDisable. destruct (negb b && _); [intros ->%handle_received|intros [= <-]]; unfold waiting; cbn; lia.
  - unfold cs_doSend. destruct (cs_sending s) as [|q rest]; [intros [= <-]; lia|]. destruct oc as [r|e].
    + case_bool_decide; [intros ->%handle_received|intros [= <-]]; unfold waiting; cbn; lia.
    + intros [= <-]. unfold waiting. cbn. destruct e; cbn; rewrite ?received_app, ?received_resets, ?received_other by done; lia.
  - intros [= <-]. unfold waiting. cbn. lia.
  - intros [= <-]. unfold waiting. cbn. lia.
  - intros [= <-]. unfold waiting. cbn. rewrite received_app, received_resets. lia.
Qed.

(** Whatever happens on a client's stream, its receiver gets every response that
    arrived at most once. *)
Theorem h2_responses_once l s : run_cops new_clientStream l = Ret s →
  (received (cs_trace s) + waiting s ≤ sum_list_with arrived l)%nat.
Proof.
  assert (∀ s0, run_cops s0 l = Ret s → received (cs_trace s) + waiting s ≤ received (cs_trace s0) + waiting s0 + sum_list_with arrived l)%nat as H; [|by apply (H new_clientStream)].
  induction l as [|o l IH]; intros s0 E; cbn in *; [injection E as <-; lia|]. destruct (run_cop s0 o) as [s1|] eqn:E1; [|done]. cbn in E.
  apply step_received in E1. specialize (IH _ E). lia.
Qed.

(** The request that a host gets: its headers are those of the proxy without the
    proxy's own, its path is theirs. *)
Theorem h2_request_sent h path d : h !! MosnHeaderPathKey = Some path → h !! "Host"%string = None →
  run_cops new_clientStream [CoHeaders (Some h) false; CoData d true] = Ret (mk_cs 0
    (Some (mk_hreq "POST" ("http://" +:+ remote +:+ path) ""
      (encodeHeader (delete MosnHeaderHostKey (delete MosnHeaderMethod (delete MosnHeaderQueryStringKey (delete MosnHeaderPathKey h))))) (Some d) ∅))
    None [] [mk_hreq "POST" ("http://" +:+ remote +:+ path) ""
      (encodeHeader (delete MosnHeaderHostKey (delete MosnHeaderMethod (delete MosnHeaderQueryStringKey (delete MosnHeaderPathKey h))))) (Some d) ∅] []).
Proof.
  intros Hp Hh. cbn [run_cops run_cop]. unfold cs_AppendHeaders. change (default ∅ (Some h)) with h. rewrite Hp. rewrite lookup_delete_ne by done. rewrite Hh. reflexivity.
Qed.
End client.

(** ** Examples *)

Definition demo_range (m : http_header) : list (string * list string) := map_to_list m.
Definition demo_uri (uri : string) (body : list bytes) : server_request := mk_sreq {["X-Id"%string := ["1"%string; "2"%string]]} "mosn" uri body ∅.

(** The query and the method of a request do not reach the host: what arrives as a GET with a
    query is sent as a POST without it. *)
Example query_and_method_lost :
  match run_cops demo_range "10.0.0.1:80" new_clientStream
    [CoHeaders (Some (request_headers demo_range (demo_uri "/a?b=c" []))) false; CoData (NewIoBufferString "") true] with
  | Ret s => (λ q, (hq_method q, hq_url q)) <$> cs_sending s = [("POST"%string, "http://10.0.0.1:80/a"%string)]
  | Panic _ => False
  end.
Proof. vm_compute. reflexivity. Qed.
(** An answer to a request whose receiver panicked, and the use of [ReadDisable], write to
    a logger there is not. *)
Example answer_after_panic :
  (s ← ServeHTTP demo_range "1" (demo_uri "/a" []); ss_AppendHeaders (Some ∅) true (ss_recovered s)) = Panic NilDeref.
Proof. vm_compute. reflexivity. Qed.
Example pausing_panics : (s ← ServeHTTP demo_range "1" (demo_uri "/a" []); ss_ReadDisable true s) = Panic NilDeref.
Proof. vm_compute. reflexivity. Qed.
(** The trailers of an answer are not written. *)
Example trailers_not_written :
  match (s ← ServeHTTP demo_range "1" (demo_uri "/a" []); '(s, _) ← ss_AppendHeaders (Some ∅) false s; ss_AppendTrailers {["t"%string := "v"%string]} s) with
  | Ret s => drop 4 (ss_trace s) = [HWriteHeader 200 ∅; HDone]
  | Panic _ => False
  end.
Proof. vm_compute. reflexivity. Qed.
(** The first listener is removed, not the one that is given. *)
Example other_listener_removed : cs_streamCbs (cs_RemoveEventListener 8 (cs_AddEventListener 8 (cs_AddEventListener 7 new_clientStream))) = [8%nat].
Proof. reflexivity. Qed.

Lemma h2_exchange_witness : ∃ H b T s s1 s2, ServeHTTP demo_range "1" (demo_uri "/a?b=c" [str_bytes "bo"; str_bytes "dy"]) = Ret s ∧
  ss_trace s = [HNewStream "1"; HReceiveHeaders H false; HReceiveData b false; HReceiveTrailers T] ∧
  contents b = str_bytes "body" ∧ H !! "x-id"%string = Some "1,2"%string ∧ H !! "host"%string = Some "mosn"%string ∧
  ss_AppendHeaders (Some {[HeaderStatus := "404"%string]}) false s = Ret (s1, Some ∅) ∧ ss_AppendData (NewIoBufferString "no") true s1 = Ret s2 ∧
  ∃ w, drop 4 (ss_trace s2) = [HWriteHeader 404 w; HWriteBody (str_bytes "no"); HDone].
Proof.
  assert (∀ a, is_Some (({["X-Id" := ["1"; "2"]]}%string : http_header) !! a) → a = "X-Id"%string) as Hone.
  { intros a [v Hv]. by apply lookup_singleton_Some in Hv as [<- _]. }
  destruct (h2_exchange demo_range (λ _, Permutation_refl _) "1" (demo_uri "/a?b=c" [str_bytes "bo"; str_bytes "dy"]) {[HeaderStatus := "404"%string]} (NewIoBufferString "no"))
    as (H & b & T & s & s1 & s2 & status & w & E & Ht & (path & query & _ & HH) & Hc & _ & E1 & E2 & Ht2 & (_ & Hst & _) & _).
  - by repeat constructor.
  - by intros a c ->%Hone ->%Hone.
  - intros a c [v Hv]. cbn in Hv. by rewrite lookup_empty in Hv.
  - split; [vm_compute; split; discriminate|done].
  - exists H, b, T, s, s1, s2. split_and!; [exact E|exact Ht|exact Hc|..].
    + apply HH. left. exists "X-Id"%string, ["1"; "2"]%string. split_and!; by vm_compute.
    + apply HH. right. split; [|by left]. intros v (name & vs & Hn & Hl & _). assert (name = "X-Id"%string) as -> by (apply Hone; eauto). by vm_compute in Hl.
    + rewrite E1. reflexivity.
    + exact E2.
    + exists w. rewrite Ht2, Ht. cbn [app drop]. rewrite (Hst 404); [done|lia|]. by vm_compute.
Defined.
