(* ===== verification/Http1Stream.v ===== *)
(** * The streams of HTTP/1: pkg/stream/http (stream.go, codecclient.go)

    Requests and responses are those of fasthttp, outside of the sources.  A message
    that is sent is the list of the calls that were made on it; a message that arrived
    is what its accessors return.  [fresh_response] is a response from fasthttp's pool
    before anything is written to it.

    A client's streams share one codec client and one wrapper.  [Do] of fasthttp takes
    two steps, its beginning and its end; in between other streams go on.  What
    receivers and callbacks are told is a trace.  A map is ranged over in the order
    [range_map]. *)

From S2P Require Import Prelude Strconv GoStrings IoBuffer Serialize BoltTypes Stream Cluster StateGo ProxyState Connection Http2Stream.

Local Open Scope Z_scope.

Definition HeaderMethod : string := "x-mosn-method".
Definition HeaderHost : string := "x-mosn-host".

(** ** Messages *)

Inductive req_call :=
  | SetMethod (m : string) | SetRequestURI (u : string) | SetHost (h : string) | ReqHeaderSet (k v : string) | ReqSetBody (d : bytes).
Inductive resp_call := SetStatusCode (n : Z) | RespHeaderSet (k v : string) | RespSetBody (d : bytes).

Record h1_response := mk_h1resp { h1r_status : Z; h1r_header : list (string * string); h1r_body : bytes }.
Record h1_request := mk_h1req { h1q_header : list (string * string); h1q_host : string; h1q_path : string; h1q_query : string; h1q_body : bytes }.

(** Keys in lower case; of equal ones the last counts. *)
Definition visit_all (l : list (string * string)) : header_map := foldl (λ out kv, <[ToLower kv.1 := kv.2]> out) ∅ l.
Definition h1_decodeReqHeader (q : h1_request) : header_map := visit_all (h1q_header q).
Definition h1_decodeRespHeader (r : h1_response) : header_map := <[HeaderStatus := FormatUint (h1r_status r)]> (visit_all (h1r_header r)).

Section http1.
  Context (range_map : header_map → list (string * string)).

Definition encodeReqHeader (h : header_map) : list req_call := (λ kv, ReqHeaderSet kv.1 kv.2) <$> range_map h.
Definition encodeRespHeader (h : header_map) : list resp_call := (λ kv, RespHeaderSet kv.1 kv.2) <$> range_map h.

(** ** A server's stream *)

Inductive h1event :=
  | H1NewStream (streamID : string)
  | H1ReceiveHeaders (h : header_map) (endStream : bool)
  | H1ReceiveData (d : bytes) (endStream : bool)
  | H1Reset (cb : nat) (reason : string).

(** [s1_ctx]: whether the stream has its context still; [s1_chan]: whether
    [responseDoneChan], of one place, is full; [s1_active]: whether the connection has
    an active stream. *)
Record serverStream1 := mk_s1 {
  s1_readDisableCount : Z; s1_request : h1_request; s1_ctx : bool; s1_response : list resp_call; s1_streamCbs : list nat;
  s1_chan : bool; s1_active : bool; s1_trace : list h1event;
}.
Abbreviation M1 := (SG serverStream1).
Definition s1_get {A} (f : serverStream1 → A) : M1 A := λ s, Ret (f s, s).
Definition s1_tell (e : h1event) : M1 unit := sg_modify (λ s,
  mk_s1 (s1_readDisableCount s) (s1_request s) (s1_ctx s) (s1_response s) (s1_streamCbs s) (s1_chan s) (s1_active s) (s1_trace s ++ [e])).
Definition s1_write (l : list resp_call) : M1 unit := sg_modify (λ s,
  mk_s1 (s1_readDisableCount s) (s1_request s) (s1_ctx s) (s1_response s ++ l) (s1_streamCbs s) (s1_chan s) (s1_active s) (s1_trace s)).
Definition s1_set_done (ctx chan active : bool) : M1 unit := sg_modify (λ s,
  mk_s1 (s1_readDisableCount s) (s1_request s) ctx (s1_response s) (s1_streamCbs s) chan active (s1_trace s)).
Definition s1_set_cbs (l : list nat) : M1 unit := sg_modify (λ s,
  mk_s1 (s1_readDisableCount s) (s1_request s) (s1_ctx s) (s1_response s) l (s1_chan s) (s1_active s) (s1_trace s)).
(** A use of a nil context panics. *)
Definition s1_need_ctx : M1 unit := c ← s1_get s1_ctx; sg_lift (go_assert c NilDeref).

(** A second value waits for the first to be received. *)
Definition s1_endStream : M1 unit :=
  full ← s1_get s1_chan;
  _ ← sg_lift (go_assert (negb full) Deadlock);
  c ← s1_get s1_ctx;
  s1_set_done c true false.

(** Headers that are no map of strings read as none; the map loses the status. *)
Definition s1_AppendHeaders (headers : option header_map) (endStream : bool) : M1 (option header_map) :=
  let h := default ∅ headers in
  h ← match h !! HeaderStatus with
      | Some status => _ ← s1_need_ctx; _ ← s1_write [SetStatusCode (Atoi status)]; mret (delete HeaderStatus h)
      | None => mret h
      end;
  _ ← s1_need_ctx;
  _ ← s1_write (encodeRespHeader h);
  _ ← sg_when endStream s1_endStream;
  mret ((λ _, h) <$> headers).
Definition s1_AppendData (data : bytes) (endStream : bool) : M1 unit :=
  _ ← s1_need_ctx;
  _ ← s1_write [RespSetBody data];
  sg_when endStream s1_endStream.
Definition s1_AppendTrailers (trailers : header_map) : M1 unit := s1_endStream.

Definition s1_AddEventListener (cb : nat) : M1 unit := l ← s1_get s1_streamCbs; s1_set_cbs (l ++ [cb]).
(** The loop variable hides the argument: the first listener goes, whichever it is. *)
Definition s1_RemoveEventListener (cb : nat) : M1 unit := l ← s1_get s1_streamCbs; s1_set_cbs (tail l).
Definition s1_ResetStream (reason : string) : M1 unit :=
  l ← s1_get s1_streamCbs;
  sg_modify (λ s, mk_s1 (s1_readDisableCount s) (s1_request s) (s1_ctx s) (s1_response s) (s1_streamCbs s) (s1_chan s) (s1_active s)
                    (s1_trace s ++ ((λ cb, H1Reset cb reason) <$> l))).

(** The logger of a connection is never set, and its method is called first. *)
Definition s1_ReadDisable (disable : bool) : M1 unit := sg_panic NilDeref.

(** The headers of a request as the proxy sees them. *)
Definition h1_request_headers (q : h1_request) : header_map :=
  add_missing MosnHeaderQueryStringKey (h1q_query q)
    (add_missing MosnHeaderPathKey (h1q_path q) (add_missing MosnHeaderHostKey (h1q_host q) (h1_decodeReqHeader q))).

(** What the receiver does when it is given the headers and the body. *)
  Context (on_headers on_data : M1 unit).

Definition s1_handleRequest : M1 unit :=
  c ← s1_get s1_ctx;
  sg_when c (
    q ← s1_get s1_request;
    _ ← s1_tell (H1ReceiveHeaders (h1_request_headers q) false);
    _ ← on_headers;
    active ← s1_get s1_active;
    sg_when active (_ ← s1_tell (H1ReceiveData (h1q_body q) true); on_data)).

(** [ServeHTTP] up to the wait for the response, and after it. *)
Definition s1_new (q : h1_request) : serverStream1 := mk_s1 0 q true [] [] false true [].
Definition s1_serve (streamID : string) (q : h1_request) : Go serverStream1 :=
  '(_, s) ← (_ ← s1_tell (H1NewStream streamID); n ← s1_get s1_readDisableCount; sg_when (bool_decide (n ≤ 0)) s1_handleRequest) (s1_new q);
  Ret s.
Definition s1_served : M1 unit :=
  full ← s1_get s1_chan;
  _ ← sg_lift (go_assert full Deadlock);
  s1_set_done false false false.

(** ** A client's streams *)

(** Listeners of a stream: an active request of the codec client, or another.  What is
    told of a request has its number; the pool, which is told of resets and of ends, is
    not given it. *)
Inductive h1_cb := CbRequest (r : nat) | CbOther (n : nat).
Inductive h1_told :=
  | ToldDo (stream : nat) (request : option (list req_call))
  | ToldHeaders (r receiver : nat) (h : header_map) (endStream : bool)
  | ToldData (r receiver : nat) (d : bytes) (endStream : bool)
  | ToldReset (n : nat) (reason : string)
  | ToldStreamReset (r : nat) (reason : string)
  | ToldStreamDestroy (r : nat).

Record clientStream1 := mk_c1 {
  c1_readDisableCount : Z; c1_request : option (list req_call); c1_response : option nat; c1_streamCbs : list h1_cb; c1_receiver : nat;
}.
(** Stream and active request of a number belong together.  [h1_starting] are the
    streams whose goroutine has not called [Do] yet, [h1_sending] those that are in it,
    with the response they will fill; [h1_responses] are the responses by number. *)
Record http1Client := mk_h1c {
  h1_streams : list clientStream1; h1_deleted : list bool; h1_activeStreams : list nat; h1_ActiveRequests : list nat;
  h1_Connected : bool; h1_RemoteClosed : bool; h1_responses : list h1_response; h1_starting : list nat; h1_sending : list (nat * nat);
  h1_trace : list h1_told;
}.
Abbreviation MC := (SG http1Client).
Definition h1_new : http1Client := mk_h1c [] [] [] [] false false [] [] [] [].

Definition h1_get {A} (f : http1Client → A) : MC A := λ s, Ret (f s, s).
Definition h1_tell (l : list h1_told) : MC unit := sg_modify (λ s,
  mk_h1c (h1_streams s) (h1_deleted s) (h1_activeStreams s) (h1_ActiveRequests s) (h1_Connected s) (h1_RemoteClosed s) (h1_responses s)
    (h1_starting s) (h1_sending s) (h1_trace s ++ l)).
Definition set_streams (l : list clientStream1) (s : http1Client) : http1Client :=
  mk_h1c l (h1_deleted s) (h1_activeStreams s) (h1_ActiveRequests s) (h1_Connected s) (h1_RemoteClosed s) (h1_responses s)
    (h1_starting s) (h1_sending s) (h1_trace s).
Definition set_actives (streams requests : list nat) (deleted : list bool) (s : http1Client) : http1Client :=
  mk_h1c (h1_streams s) deleted streams requests (h1_Connected s) (h1_RemoteClosed s) (h1_responses s) (h1_starting s) (h1_sending s) (h1_trace s).
Definition set_flags (connected remoteClosed : bool) (s : http1Client) : http1Client :=
  mk_h1c (h1_streams s) (h1_deleted s) (h1_activeStreams s) (h1_ActiveRequests s) connected remoteClosed (h1_responses s)
    (h1_starting s) (h1_sending s) (h1_trace s).
Definition set_sends (responses : list h1_response) (starting : list nat) (sending : list (nat * nat)) (s : http1Client) : http1Client :=
  mk_h1c (h1_streams s) (h1_deleted s) (h1_activeStreams s) (h1_ActiveRequests s) (h1_Connected s) (h1_RemoteClosed s) responses starting sending (h1_trace s).

Definition c1_get (i : nat) : MC clientStream1 := o ← h1_get (λ s, h1_streams s !! i); sg_deref o.
Definition c1_mod (i : nat) (f : clientStream1 → clientStream1) : MC unit := sg_modify (λ s, set_streams (alter f i (h1_streams s)) s).
Definition set_c1_request (v : option (list req_call)) (c : clientStream1) : clientStream1 :=
  mk_c1 (c1_readDisableCount c) v (c1_response c) (c1_streamCbs c) (c1_receiver c).
Definition set_c1_response (v : option nat) (c : clientStream1) : clientStream1 :=
  mk_c1 (c1_readDisableCount c) (c1_request c) v (c1_streamCbs c) (c1_receiver c).
Definition set_c1_cbs (v : list h1_cb) (c : clientStream1) : clientStream1 :=
  mk_c1 (c1_readDisableCount c) (c1_request c) (c1_response c) v (c1_receiver c).
Definition set_c1_count (v : Z) (c : clientStream1) : clientStream1 :=
  mk_c1 v (c1_request c) (c1_response c) (c1_streamCbs c) (c1_receiver c).

(** [NewStream] of the codec client and of the wrapper. *)
Definition h1_NewStream (receiver : nat) : MC nat :=
  i ← h1_get (λ s, length (h1_streams s));
  _ ← sg_modify (λ s, set_actives (h1_activeStreams s ++ [i]) (h1_ActiveRequests s ++ [i]) (h1_deleted s ++ [false])
        (set_streams (h1_streams s ++ [mk_c1 0 None None [CbRequest i] receiver]) s));
  mret i.

(** *** The codec client *)

Definition h1_deleteRequest (r : nat) : MC unit :=
  d ← h1_get (λ s, h1_deleted s !!! r);
  if d : bool then mret tt
  else
  _ ← sg_modify (λ s, set_actives (h1_activeStreams s) (filter (λ x, x ≠ r) (h1_ActiveRequests s)) (<[r := true]> (h1_deleted s)) s);
  h1_tell [ToldStreamDestroy r].
Definition h1_onReset (r : nat) (reason : string) : MC unit :=
  _ ← h1_tell [ToldStreamReset r reason];
  h1_deleteRequest r.

Definition c1_AddEventListener (i : nat) (cb : h1_cb) : MC unit := c1_mod i (λ c, set_c1_cbs (c1_streamCbs c ++ [cb]) c).
(** The first listener goes, whichever it is. *)
Definition c1_RemoveEventListener (i : nat) (cb : h1_cb) : MC unit := c1_mod i (λ c, set_c1_cbs (tail (c1_streamCbs c)) c).
Definition tell_reset (reason : string) (cb : h1_cb) : MC unit :=
  match cb with CbRequest r => h1_onReset r reason | CbOther n => h1_tell [ToldReset n reason] end.
Fixpoint reset_cbs (reason : string) (l : list h1_cb) : MC unit :=
  match l with [] => mret tt | cb :: l => _ ← tell_reset reason cb; reset_cbs reason l end.
Definition c1_ResetStream (i : nat) (reason : string) : MC unit := c ← c1_get i; reset_cbs reason (c1_streamCbs c).

Fixpoint reset_streams (reason : string) (l : list nat) : MC unit :=
  match l with [] => mret tt | r :: l => _ ← c1_ResetStream r reason; reset_streams reason l end.
(** A close resets every active request. *)
Definition h1_OnEvent (e : ConnectionEvent) : MC unit :=
  _ ← sg_modify (λ s, set_flags (h1_Connected s || bool_decide (e = Connected)) (h1_RemoteClosed s || bool_decide (e = RemoteClose)) s);
  sg_when (IsClose e) (
    connected ← h1_get h1_Connected;
    l ← h1_get h1_ActiveRequests;
    reset_streams (if connected : bool then StreamConnectionTermination else StreamConnectionFailed) l).

(** The active request passes on what it receives; the end of a response deletes it. *)
Definition r1_OnReceiveHeaders (r : nat) (h : header_map) (endStream : bool) : MC unit :=
  c ← c1_get r;
  _ ← sg_when endStream (_ ← h1_deleteRequest r; c1_RemoveEventListener r (CbRequest r));
  h1_tell [ToldHeaders r (c1_receiver c) h endStream].
Definition r1_OnReceiveData (r : nat) (d : bytes) (endStream : bool) : MC unit :=
  c ← c1_get r;
  _ ← sg_when endStream (_ ← h1_deleteRequest r; c1_RemoveEventListener r (CbRequest r));
  h1_tell [ToldData r (c1_receiver c) d endStream].

(** *** The streams *)

  Context (addr : string) (fresh_response : h1_response).

Definition c1_endStream (i : nat) : MC unit :=
  sg_modify (λ s, set_sends (h1_responses s) (h1_starting s ++ [i]) (h1_sending s) s).

Definition take_header (k : string) (f : string → list req_call) (a : list req_call * header_map) : list req_call * header_map :=
  match a.2 !! k with Some v => (a.1 ++ f v, delete k a.2) | None => a end.
(** The calls on the request and the headers that are left over. *)
Definition request_calls (q : option (list req_call)) (h : header_map) : list req_call * header_map :=
  let q := match q with Some q => q | None => [SetMethod "GET"; SetRequestURI ("http://" +:+ addr +:+ "/")] end in
  let '(q, h) := take_header MosnHeaderPathKey (λ path, [SetRequestURI ("http://" +:+ addr +:+ path)])
                   (take_header HeaderHost (λ host, [SetHost host]) (take_header HeaderMethod (λ m, [SetMethod m]) (q, h))) in
  (q ++ encodeReqHeader h, h).
Definition c1_AppendHeaders (i : nat) (headers : option header_map) (endStream : bool) : MC (option header_map) :=
  c ← c1_get i;
  let '(q, h) := request_calls (c1_request c) (default ∅ headers) in
  _ ← c1_mod i (set_c1_request (Some q));
  _ ← sg_when endStream (c1_endStream i);
  mret ((λ _, h) <$> headers).
Definition c1_AppendData (i : nat) (data : bytes) (endStream : bool) : MC unit :=
  c ← c1_get i;
  _ ← c1_mod i (set_c1_request (Some (default [] (c1_request c) ++ [ReqSetBody data])));
  sg_when endStream (c1_endStream i).
Definition c1_AppendTrailers (i : nat) (trailers : header_map) : MC unit := c1_endStream i.

Definition c1_handleResponse (i : nat) : MC unit :=
  c ← c1_get i;
  match c1_response c with
  | None => mret tt
  | Some p =>
    resp ← h1_get (λ s, nth p (h1_responses s) fresh_response);
    _ ← r1_OnReceiveHeaders i (h1_decodeRespHeader resp) false;
    _ ← r1_OnReceiveData i (h1r_body resp) true;
    _ ← c1_mod i (λ c, set_c1_request None (set_c1_response None c));
    sg_modify (λ s, set_actives (filter (λ x, x ≠ i) (h1_activeStreams s)) (h1_ActiveRequests s) (h1_deleted s) s)
  end.

Definition c1_ReadDisable (i : nat) (disable : bool) : MC unit :=
  c ← c1_get i;
  let n := to_int32 (c1_readDisableCount c + if disable then 1 else -1) in
  _ ← c1_mod i (set_c1_count n);
  sg_when (negb disable && bool_decide (n ≤ 0)) (c1_handleResponse i).

(** The goroutine [k] of those that start: a response is taken from the pool, unless the
    stream has one, and the request is handed to fasthttp. *)
Definition c1_doSend_begin (k : nat) : MC unit :=
  o ← h1_get (λ s, h1_starting s !! k);
  i ← sg_deref o;
  c ← c1_get i;
  s ← sg_get;
  let '(p, responses) := match c1_response c with
                         | Some p => (p, h1_responses s)
                         | None => (length (h1_responses s), h1_responses s ++ [fresh_response])
                         end in
  _ ← sg_modify (λ s, set_sends responses (delete k (h1_starting s)) (h1_sending s ++ [(i, p)]) s);
  _ ← c1_mod i (set_c1_response (Some p));
  h1_tell [ToldDo i (c1_request c)].
(** The end of [Do] of goroutine [k]: the response, or an error. *)
Definition c1_doSend_end (k : nat) (outcome : option h1_response) : MC unit :=
  o ← h1_get (λ s, h1_sending s !! k);
  '(i, p) ← sg_deref o;
  _ ← sg_modify (λ s, set_sends (match outcome with Some r => <[p := r]> (h1_responses s) | None => h1_responses s end)
                        (h1_starting s) (delete k (h1_sending s)) s);
  match outcome with
  | None => h1_OnEvent RemoteClose
  | Some _ => c ← c1_get i; sg_when (bool_decide (c1_readDisableCount c ≤ 0)) (c1_handleResponse i)
  end.
End http1.
