(* ===== verification/Http1StreamProps.v ===== *)
(** * Theorems about the streams of HTTP/1 *)

From S2P Require Import Prelude Strconv GoStrings IoBuffer Serialize BoltTypes Stream Cluster StateGo ProxyState Connection Http2Stream Http1Stream.

Local Open Scope Z_scope.

(** ** A client's streams under all operations *)

Section client.
  Context (range_map : header_map → list (string * string)) (addr : string) (fresh_response : h1_response).

(** Everything that is done to the streams of a client. *)
Inductive h1_op :=
  | ONew (receiver : nat)
  | OHeaders (i : nat) (h : option header_map) (endStream : bool)
  | OData (i : nat) (d : bytes) (endStream : bool)
  | OTrailers (i : nat) (t : header_map)
  | OReadDisable (i : nat) (disable : bool)
  | OListen (i n : nat) | OUnlisten (i n : nat)
  | OReset (i : nat) (reason : string)
  | OBegin (k : nat) | OEnd (k : nat) (outcome : option h1_response)
  | OEvent (e : ConnectionEvent).
Definition run_h1 (o : h1_op) : SG http1Client unit :=
  match o with
  | ONew r => _ ← h1_NewStream r; mret tt
  | OHeaders i h e => _ ← c1_AppendHeaders range_map addr i h e; mret tt
  | OData i d e => c1_AppendData i d e
  | OTrailers i t => c1_AppendTrailers i t
  | OReadDisable i b => c1_ReadDisable fresh_response i b
  | OListen i n => c1_AddEventListener i (CbOther n)
  | OUnlisten i n => c1_RemoveEventListener i (CbOther n)
  | OReset i reason => c1_ResetStream i reason
  | OBegin k => c1_doSend_begin fresh_response k
  | OEnd k r => c1_doSend_end fresh_response k r
  | OEvent e => h1_OnEvent e
  end.
Fixpoint run_h1s (l : list h1_op) : SG http1Client unit := match l with [] => mret tt | o :: l => _ ← run_h1 o; run_h1s l end.

Definition is_answer (i : nat) (e : h1_told) : bool := match e with ToldData r _ _ true => bool_decide (r = i) | _ => false end.
Definition is_do (i : nat) (e : h1_told) : bool := match e with ToldDo r _ => bool_decide (r = i) | _ => false end.
Definition is_destroy (i : nat) (e : h1_told) : bool := match e with ToldStreamDestroy r => bool_decide (r = i) | _ => false end.
(** What ends a request: the end of a response, or a reset. *)
Definition ends (i : nat) (e : h1_told) : bool :=
  match e with ToldData r _ _ true | ToldStreamReset r _ => bool_decide (r = i) | _ => false end.
Definition ended_in (i : nat) (l : list h1_told) : Prop := ∃ e, e ∈ l ∧ ends i e = true.
#[export] Instance ended_in_dec i l : Decision (ended_in i l).
Proof.
  refine (cast_if (decide (Exists (λ e, ends i e = true) l))); unfold ended_in; by rewrite <- Exists_exists.
Defined.
Definition times (f : h1_told → bool) (l : list h1_told) : nat := length (filter (λ e, f e = true) l).
Arguments times : simpl never.

(** The streams that have a response that was not handed on. *)
Definition pending (i : nat) (s : http1Client) : nat :=
  match h1_streams s !! i with Some c => match c1_response c with Some _ => 1 | None => 0 end | None => 0 end.

(** [x]: a request that is being ended. *)
Record h1_okx (x : option nat) (s : http1Client) : Prop := mk_h1_okx {
  ok_len : length (h1_deleted s) = length (h1_streams s);
  ok_active : h1_ActiveRequests s = filter (λ r, h1_deleted s !! r = Some false) (seq 0 (length (h1_deleted s)));
  ok_destroyed : ∀ r, times (is_destroy r) (h1_trace s) = if decide (h1_deleted s !! r = Some true) then 1%nat else 0%nat;
  ok_ended : ∀ r, Some r ≠ x → h1_deleted s !! r = Some true ↔ ended_in r (h1_trace s);
  ok_answers : ∀ i, (times (is_answer i) (h1_trace s) + pending i s ≤ times (is_do i) (h1_trace s))%nat;
  ok_cbs : ∀ i c r, h1_streams s !! i = Some c → CbRequest r ∈ c1_streamCbs c → r = i;
}.
Abbreviation h1_ok := (h1_okx None).
Lemma ended_app i l k : ended_in i (l ++ k) ↔ ended_in i l ∨ ended_in i k.
Proof. unfold ended_in. setoid_rewrite elem_of_app. naive_solver. Qed.
Lemma ended_one i e : ended_in i [e] ↔ ends i e = true.
Proof. unfold ended_in. setoid_rewrite list_elem_of_singleton. naive_solver. Qed.
Lemma ok_begins x s : h1_ok s → h1_okx x s.
Proof. intros []. split; try done. intros r _. by apply ok_ended0. Qed.
Lemma ok_finishes i s : h1_okx (Some i) s → h1_deleted s !! i = Some true → ended_in i (h1_trace s) → h1_ok s.
Proof.
  intros [] Hd He. split; try done. intros r _. destruct (decide (r = i)) as [->|Hr]; [done|]. apply ok_ended0. congruence.
Qed.

Lemma times_app f l k : times f (l ++ k) = (times f l + times f k)%nat.
Proof. unfold times. by rewrite filter_app, length_app. Qed.
Lemma times_one f e : times f [e] = if f e then 1%nat else 0%nat.
Proof. unfold times. cbn. destruct (f e) eqn:E; [by rewrite decide_True|by rewrite decide_False by congruence]. Qed.

Definition told (l : list h1_told) (s : http1Client) : http1Client :=
  mk_h1c (h1_streams s) (h1_deleted s) (h1_activeStreams s) (h1_ActiveRequests s) (h1_Connected s) (h1_RemoteClosed s) (h1_responses s)
    (h1_starting s) (h1_sending s) (h1_trace s ++ l).

(** Events that are neither answers, sends nor ends of requests. *)
Lemma ok_told x e s : (∀ i, is_answer i e = false) → (∀ i, is_do i e = false) → (∀ i, is_destroy i e = false) →
  (∀ i, ends i e = true → x = Some i) → h1_okx x s → h1_okx x (told [e] s).
Proof.
  intros Ha Hd Hx He []. split; try done; cbn.
  - intros r. rewrite times_app, times_one, Hx, Nat.add_0_r. apply ok_destroyed0.
  - intros r Hr. rewrite ended_app, ended_one, ok_ended0 by done. split; [by left|]. intros [?|H]; [done|]. by apply He in H.
  - intros i. rewrite !times_app, !times_one, Ha, Hd. specialize (ok_answers0 i). unfold pending in *. cbn. lia.
Qed.

Lemma ok_set_sends x a b c s : h1_okx x s → h1_okx x (set_sends a b c s).
Proof. by intros []. Qed.
Lemma ok_set_flags x a b s : h1_okx x s → h1_okx x (set_flags a b s).
Proof. by intros []. Qed.
Lemma ok_set_active_streams x l s : h1_okx x s → h1_okx x (set_actives l (h1_ActiveRequests s) (h1_deleted s) s).
Proof. by intros []. Qed.

(** A change of a stream that leaves its response and only takes listeners away, or adds
    others. *)
Lemma ok_alter x f i s : (∀ c, c1_response (f c) = c1_response c) → (∀ c r, CbRequest r ∈ c1_streamCbs (f c) → CbRequest r ∈ c1_streamCbs c) →
  h1_okx x s → h1_okx x (set_streams (alter f i (h1_streams s)) s).
Proof.
  intros Hr Hc []. split; try done; cbn.
  - by rewrite length_alter.
  - intros j. specialize (ok_answers0 j). unfold pending in *. cbn. destruct (decide (i = j)) as [->|].
    + rewrite list_lookup_alter_eq. destruct (h1_streams s !! j) as [c|]; cbn; [by rewrite Hr|done].
    + by rewrite list_lookup_alter_ne.
  - intros j c r. destruct (decide (i = j)) as [->|].
    + rewrite list_lookup_alter_eq. destruct (h1_streams s !! j) as [c'|] eqn:E; [|done]. cbn. intros [= <-] Hin. eauto.
    + rewrite list_lookup_alter_ne by done. apply ok_cbs0.
Qed.

Lemma filter_alive_insert (l : list bool) r : filter (λ x, <[r := true]> l !! x = Some false) (seq 0 (length l)) =
  filter (λ x, x ≠ r) (filter (λ x, l !! x = Some false) (seq 0 (length l))).
Proof.
  rewrite list_filter_filter. apply list_filter_iff. intros x. destruct (decide (x = r)) as [->|].
  - split; [|by intros []]. intros H. exfalso. destruct (decide (r < length l)%nat).
    + by rewrite list_lookup_insert_eq in H by done.
    + rewrite list_insert_ge in H by lia. by rewrite lookup_ge_None_2 in H by lia.
  - rewrite list_lookup_insert_ne by done. naive_solver.
Qed.
Definition dropped (r : nat) (s : http1Client) : http1Client :=
  if (h1_deleted s !!! r : bool) then s
  else told [ToldStreamDestroy r] (set_actives (h1_activeStreams s) (filter (λ x, x ≠ r) (h1_ActiveRequests s)) (<[r := true]> (h1_deleted s)) s).
Lemma delete_run r s : h1_deleteRequest r s = Ret (tt, dropped r s).
Proof. unfold h1_deleteRequest, dropped. srun. by destruct (h1_deleted s !!! r : bool). Qed.
Lemma ok_dropped r s : (r < length (h1_deleted s))%nat → h1_okx (Some r) s → h1_okx (Some r) (dropped r s).
Proof.
  intros Hr Hok. unfold dropped. destruct (lookup_lt_is_Some_2 _ _ Hr) as [b Hb]. rewrite (list_lookup_total_correct _ _ _ Hb). destruct b; [done|].
  destruct Hok. split; cbn.
  - by rewrite length_insert.
  - by rewrite length_insert, filter_alive_insert, <- ok_active0.
  - intros x. rewrite times_app, times_one, ok_destroyed0. cbn. destruct (decide (r = x)) as [<-|Hx].
    + rewrite list_lookup_insert_eq by done. rewrite (decide_True (P := Some true = Some true)) by done.
      rewrite decide_False by congruence. by rewrite bool_decide_true.
    + rewrite list_lookup_insert_ne, bool_decide_false by done. apply Nat.add_0_r.
  - intros x Hx. rewrite list_lookup_insert_ne by congruence. rewrite ended_app, ended_one. rewrite ok_ended0 by done. naive_solver.
  - intros i. rewrite !times_app, !times_one. specialize (ok_answers0 i). unfold pending in *. cbn. lia.
  - done.
Qed.
Lemma dropped_deleted r s : (r < length (h1_deleted s))%nat → h1_deleted (dropped r s) !! r = Some true.
Proof.
  intros Hr. unfold dropped. destruct (lookup_lt_is_Some_2 _ _ Hr) as [b Hb]. rewrite (list_lookup_total_correct _ _ _ Hb). destruct b; [done|].
  by apply list_lookup_insert_eq.
Qed.
Lemma dropped_same r s : h1_streams (dropped r s) = h1_streams s ∧ length (h1_deleted (dropped r s)) = length (h1_deleted s).
Proof. unfold dropped. destruct (h1_deleted s !!! r : bool); [done|]. cbn. by rewrite length_insert. Qed.

(** *** Responses and resets *)

Lemma ok_answer i c p v d s : h1_streams s !! i = Some c → c1_response c = Some p → h1_okx (Some i) s →
  h1_okx (Some i) (set_streams (alter (λ c, set_c1_request None (set_c1_response None c)) i (h1_streams s)) (told [ToldData i v d true] s)).
Proof.
  intros Hc Hp []. split; cbn; try done.
  - by rewrite length_alter.
  - intros r. by rewrite times_app, times_one, ok_destroyed0, Nat.add_0_r.
  - intros r Hr. rewrite ended_app, ended_one. cbn. rewrite bool_decide_false, ok_ended0 by congruence. naive_solver.
  - intros j. specialize (ok_answers0 j). rewrite !times_app, !times_one. unfold pending in *. cbn. destruct (decide (i = j)) as [<-|Hne].
    + rewrite list_lookup_alter_eq, Hc in *. cbn. rewrite Hp in ok_answers0. rewrite bool_decide_true by done. lia.
    + rewrite list_lookup_alter_ne by done. rewrite bool_decide_false by done. lia.
  - intros j c' r. destruct (decide (i = j)) as [<-|].
    + rewrite list_lookup_alter_eq, Hc. cbn. intros [= <-] Hin. eauto.
    + rewrite list_lookup_alter_ne by done. apply ok_cbs0.
Qed.

(** What a stream with a response does with it. *)
Definition answered (i : nat) (c : clientStream1) (resp : h1_response) (s : http1Client) : http1Client :=
  let s := dropped i (told [ToldHeaders i (c1_receiver c) (h1_decodeRespHeader resp) false] s) in
  let s := set_streams (alter (λ c, set_c1_cbs (tail (c1_streamCbs c)) c) i (h1_streams s)) s in
  let s := told [ToldData i (c1_receiver c) (h1r_body resp) true] s in
  let s := set_streams (alter (λ c, set_c1_request None (set_c1_response None c)) i (h1_streams s)) s in
  set_actives (filter (λ x, x ≠ i) (h1_activeStreams s)) (h1_ActiveRequests s) (h1_deleted s) s.
Lemma c1_get_run i c s : h1_streams s !! i = Some c → c1_get i s = Ret (c, s).
Proof. intros H. unfold c1_get. srun. by rewrite H. Qed.
Lemma handle_run i c p s : h1_streams s !! i = Some c → c1_response c = Some p →
  c1_handleResponse fresh_response i s = Ret (tt, answered i c (nth p (h1_responses s) fresh_response) s).
Proof.
  intros Hc Hp. unfold c1_handleResponse. eapply sg_run; [by apply c1_get_run|]. rewrite Hp. srun. set (resp := nth p (h1_responses s) fresh_response).
  set (s1 := told [ToldHeaders i (c1_receiver c) (h1_decodeRespHeader resp) false] s).
  eapply (sg_run _ _ _ tt s1).
  { unfold r1_OnReceiveHeaders. eapply sg_run; [by apply c1_get_run|]. by srun. }
  eapply sg_run.
  { unfold r1_OnReceiveData. eapply sg_run; [by apply c1_get_run|]. eapply sg_run; [eapply sg_run; [apply delete_run|reflexivity]|]. reflexivity. }
  srun. reflexivity.
Qed.
Lemma answered_deleted i c resp s r : (i < length (h1_deleted s))%nat →
  h1_deleted (answered i c resp s) !! r = if decide (r = i) then Some true else h1_deleted s !! r.
Proof.
  intros Hi. unfold answered. cbn. case_decide as Hr; [subst; by apply dropped_deleted|]. unfold dropped.
  destruct (h1_deleted _ !!! i : bool); cbn; [done|]. by rewrite list_lookup_insert_ne.
Qed.
Lemma ok_answered i c p resp s : h1_streams s !! i = Some c → c1_response c = Some p → h1_ok s → h1_ok (answered i c resp s).
Proof.
  intros Hc Hp Hok. assert (i < length (h1_deleted s))%nat as Hi by (rewrite (ok_len _ _ Hok); by eapply lookup_lt_Some).
  apply (ok_finishes i); [|rewrite answered_deleted by done; by rewrite decide_True|].
  2: { unfold answered. cbn. rewrite ended_app, ended_one. right. cbn. by apply bool_decide_true. }
  unfold answered. apply ok_set_active_streams.
  set (s1 := told [ToldHeaders i (c1_receiver c) (h1_decodeRespHeader resp) false] s).
  assert (h1_okx (Some i) (dropped i s1)) as H2 by (apply ok_dropped; [done|]; apply ok_told; [done..|]; by apply ok_begins).
  destruct (dropped_same i s1) as [Hs _].
  set (s3 := set_streams (alter (λ c, set_c1_cbs (tail (c1_streamCbs c)) c) i (h1_streams (dropped i s1))) (dropped i s1)).
  apply (ok_answer i (set_c1_cbs (tail (c1_streamCbs c)) c) p _ _ s3); [|exact Hp|].
  - cbn. rewrite list_lookup_alter_eq, Hs. change (h1_streams s1) with (h1_streams s). by rewrite Hc.
  - apply ok_alter; [done| |done]. intros c' r. cbn. destruct (c1_streamCbs c'); [done|]. by right.
Qed.
Lemma keeps_handle i : keeps h1_ok (c1_handleResponse fresh_response i).
Proof.
  intros s a s' Hok E. destruct (h1_streams s !! i) as [c|] eqn:Hc.
  2: { unfold c1_handleResponse in E. apply sg_bind_Ret_inv in E as (c & s1 & E1 & _). unfold c1_get in E1.
       apply sg_bind_Ret_inv in E1 as (o & s2 & [= <- <-] & E1). by rewrite Hc in E1. }
  destruct (c1_response c) as [p|] eqn:Hp.
  - rewrite (handle_run i c p s Hc Hp) in E. injection E as _ <-. by eapply ok_answered.
  - unfold c1_handleResponse in E. apply sg_bind_Ret_inv in E as (c' & s1 & E1 & E). rewrite (c1_get_run i c s Hc) in E1. injection E1 as <- <-.
    rewrite Hp in E. by injection E as _ <-.
Qed.

(** A reset of listeners that are requests of the client deletes them. *)
Lemma reset_cbs_ok reason l s : (∀ r, CbRequest r ∈ l → (r < length (h1_deleted s))%nat) → h1_ok s →
  ∃ s', reset_cbs reason l s = Ret (tt, s') ∧ h1_ok s' ∧ h1_streams s' = h1_streams s ∧
    ∀ r, h1_deleted s' !! r = Some false ↔ h1_deleted s !! r = Some false ∧ CbRequest r ∉ l.
Proof.
  revert s. induction l as [|cb l IH]; intros s Hl Hok; [exists s; split_and!; [done..|set_solver]|]. cbn [reset_cbs].
  assert (∃ s1, tell_reset reason cb s = Ret (tt, s1) ∧ h1_ok s1 ∧ h1_streams s1 = h1_streams s ∧ length (h1_deleted s1) = length (h1_deleted s) ∧
    ∀ r, h1_deleted s1 !! r = Some false ↔ h1_deleted s !! r = Some false ∧ CbRequest r ≠ cb) as (s1 & E1 & H1 & Hs1 & Hn1 & Hd1).
  { destruct cb as [r|n]; cbn [tell_reset].
    - set (s0 := told [ToldStreamReset r reason] s). exists (dropped r s0). destruct (dropped_same r s0) as [Hs Hn].
      assert (r < length (h1_deleted s))%nat as Hr by (apply Hl; by left). split_and!; [| |done|done|].
      + unfold h1_onReset. eapply (sg_run _ _ _ tt s0); [done|]. apply delete_run.
      + apply (ok_finishes r); [|by apply dropped_deleted|].
        * apply ok_dropped; [done|]. apply ok_told; [done..| |by apply ok_begins]. intros i. cbn. by intros ->%bool_decide_eq_true.
        * unfold dropped. destruct (h1_deleted s0 !!! r : bool); cbn; rewrite !ended_app, !ended_one; cbn; rewrite bool_decide_true by done; tauto.
      + intros x. unfold dropped. change (h1_deleted s0) with (h1_deleted s). destruct (lookup_lt_is_Some_2 _ _ Hr) as [b Hb].
        rewrite (list_lookup_total_correct _ _ _ Hb). destruct b; cbn; [naive_solver congruence|]. destruct (decide (x = r)) as [->|].
        * rewrite list_lookup_insert_eq by done. naive_solver.
        * rewrite list_lookup_insert_ne by done. naive_solver.
    - exists (told [ToldReset n reason] s). split_and!; [done|by apply ok_told|done|done|]. intros r. cbn. naive_solver. }
  destruct (IH s1) as (s2 & E2 & H2 & Hs2 & Hd2); [|done|].
  { intros r Hr. rewrite Hn1. apply Hl. by right. }
  exists s2. split_and!; [by eapply sg_run; [exact E1|]|done|by rewrite Hs2|]. intros r. rewrite Hd2, Hd1, not_elem_of_cons. naive_solver.
Qed.
Lemma reset_stream_ok i c reason s : h1_streams s !! i = Some c → h1_ok s →
  ∃ s', c1_ResetStream i reason s = Ret (tt, s') ∧ h1_ok s' ∧ h1_streams s' = h1_streams s ∧
    ∀ r, h1_deleted s' !! r = Some false ↔ h1_deleted s !! r = Some false ∧ CbRequest r ∉ c1_streamCbs c.
Proof.
  intros Hc Hok. unfold c1_ResetStream. destruct (reset_cbs_ok reason (c1_streamCbs c) s) as (s' & E & H); [|done|].
  { intros r Hr. rewrite (ok_cbs _ _ Hok i c r Hc Hr), (ok_len _ _ Hok). by eapply lookup_lt_Some. }
  exists s'. split; [|exact H]. eapply sg_run; [by apply c1_get_run|exact E].
Qed.
Lemma reset_streams_ok reason l s : Forall (λ i, (i < length (h1_streams s))%nat) l → h1_ok s →
  ∃ s', reset_streams reason l s = Ret (tt, s') ∧ h1_ok s' ∧ h1_streams s' = h1_streams s ∧
    ∀ r, h1_deleted s' !! r = Some false ↔ h1_deleted s !! r = Some false ∧ ∀ i c, i ∈ l → h1_streams s !! i = Some c → CbRequest r ∉ c1_streamCbs c.
Proof.
  revert s. induction l as [|i l IH]; intros s Hl Hok; [exists s; split_and!; [done..|set_solver]|]. apply Forall_cons in Hl as [Hi Hl].
  destruct (lookup_lt_is_Some_2 _ _ Hi) as [c Hc]. destruct (reset_stream_ok i c reason s Hc Hok) as (s1 & E1 & H1 & Hs1 & Hd1).
  destruct (IH s1) as (s2 & E2 & H2 & Hs2 & Hd2); [by rewrite Hs1|done|]. exists s2. cbn [reset_streams].
  split_and!; [by eapply sg_run; [exact E1|]|done|by rewrite Hs2|]. intros r. rewrite Hd2, Hd1, Hs1. split.
  - intros [[Hr Hn] H]. split; [done|]. intros j c' Hj Hc'. apply elem_of_cons in Hj as [->|Hj]; [congruence|by eapply H].
  - intros [Hr H]. split_and!; [done|eapply H; [by left|done]|]. intros j c' Hj. apply H. by right.
Qed.
Lemma active_elem s r : h1_ok s → r ∈ h1_ActiveRequests s ↔ h1_deleted s !! r = Some false.
Proof.
  intros Hok. rewrite (ok_active _ _ Hok), list_elem_of_filter, elem_of_seq. split; [by intros []|]. intros H. split; [done|].
  apply lookup_lt_Some in H. lia.
Qed.
Lemma active_valid s : h1_ok s → Forall (λ i, (i < length (h1_streams s))%nat) (h1_ActiveRequests s).
Proof. intros Hok. apply Forall_forall. intros r Hr%active_elem; [|done]. rewrite <- (ok_len _ _ Hok). by eapply lookup_lt_Some. Qed.

Lemma OnEvent_ok e s : h1_ok s → ∃ s', h1_OnEvent e s = Ret (tt, s') ∧ h1_ok s' ∧ h1_streams s' = h1_streams s ∧
  ∀ r, h1_deleted s' !! r = Some false ↔ h1_deleted s !! r = Some false ∧
    (IsClose e = true → ∀ i c, i ∈ h1_ActiveRequests s → h1_streams s !! i = Some c → CbRequest r ∉ c1_streamCbs c).
Proof.
  intros Hok. unfold h1_OnEvent. set (s1 := set_flags (h1_Connected s || bool_decide (e = Connected)) (h1_RemoteClosed s || bool_decide (e = RemoteClose)) s).
  destruct (reset_streams_ok (if h1_Connected s1 then StreamConnectionTermination else StreamConnectionFailed) (h1_ActiveRequests s) s1) as (s2 & E2 & H2 & Hs2 & Hd2);
    [by apply (active_valid s)|by apply ok_set_flags|].
  destruct (IsClose e).
  - exists s2. split_and!; [eapply (sg_run _ _ _ tt s1); [done|]; srun; by srun|done|done|]. intros r. rewrite Hd2. naive_solver.
  - exists s1. split_and!; [done|by apply ok_set_flags|done|]. intros r. cbn. naive_solver.
Qed.

Lemma ok_new_stream v s : h1_ok s → h1_ok (set_actives (h1_activeStreams s ++ [length (h1_streams s)]) (h1_ActiveRequests s ++ [length (h1_streams s)]) (h1_deleted s ++ [false])
  (set_streams (h1_streams s ++ [mk_c1 0 None None [CbRequest (length (h1_streams s))] v]) s)).
Proof.
  intros []. split; cbn.
  - rewrite !length_app. cbn. lia.
  - rewrite length_app. cbn [length]. rewrite seq_app, filter_app. f_equal.
    + rewrite ok_active0. apply filter_ext_elem. intros r Hr. apply elem_of_seq in Hr. rewrite lookup_app_l by lia. done.
    + cbn [seq]. rewrite filter_cons_True; [by rewrite ok_len0|]. rewrite lookup_app_r by lia. by rewrite Nat.sub_diag.
  - intros r. rewrite ok_destroyed0. destruct (decide (r < length (h1_deleted s))%nat); [by rewrite lookup_app_l|].
    rewrite lookup_app_r by lia. rewrite (lookup_ge_None_2 (h1_deleted s)) by lia. by destruct (r - _)%nat as [|[|k]].
  - intros r Hr. rewrite <- ok_ended0 by done. destruct (decide (r < length (h1_deleted s))%nat); [by rewrite lookup_app_l|].
    rewrite lookup_app_r by lia. rewrite (lookup_ge_None_2 (h1_deleted s)) by lia. by destruct (r - _)%nat as [|[|k]].
  - intros i. specialize (ok_answers0 i). unfold pending in *. cbn. destruct (decide (i < length (h1_streams s))%nat).
    + by rewrite lookup_app_l.
    + rewrite lookup_app_r by lia. rewrite (lookup_ge_None_2 (h1_streams s)) in ok_answers0 by lia. destruct (i - length (h1_streams s))%nat as [|[|k]]; cbn; lia.
  - intros i c r H Hr. apply lookup_app_Some in H as [H|[H1 H]]; [by eapply ok_cbs0|]. apply list_lookup_singleton_Some in H as [H <-].
    apply list_elem_of_singleton in Hr as [= ->]. lia.
Qed.

Lemma ok_begin i c p responses k s : h1_streams s !! i = Some c → h1_ok s →
  h1_ok (told [ToldDo i (c1_request c)] (set_streams (alter (set_c1_response (Some p)) i (h1_streams s)) (set_sends responses (delete k (h1_starting s)) (h1_sending s ++ [(i, p)]) s))).
Proof.
  intros Hc []. split; cbn; try done.
  - by rewrite length_alter.
  - intros r. by rewrite times_app, times_one, ok_destroyed0, Nat.add_0_r.
  - intros r Hr. rewrite ended_app, ended_one. rewrite ok_ended0 by done. naive_solver.
  - intros j. specialize (ok_answers0 j). rewrite !times_app, !times_one. unfold pending in *. cbn. destruct (decide (i = j)) as [<-|Hne].
    + rewrite list_lookup_alter_eq, Hc. cbn. rewrite Hc in ok_answers0. rewrite bool_decide_true by done. destruct (c1_response c); lia.
    + rewrite list_lookup_alter_ne by done. rewrite bool_decide_false by done. lia.
  - intros j c' r. destruct (decide (i = j)) as [<-|].
    + rewrite list_lookup_alter_eq, Hc. cbn. intros [= <-] Hin. eauto.
    + rewrite list_lookup_alter_ne by done. apply ok_cbs0.
Qed.

Lemma keeps_h1_get {A} (f : http1Client → A) : keeps h1_ok (h1_get f).
Proof. intros s a s' H [= <- <-]. done. Qed.
Lemma keeps_c1_get i : keeps h1_ok (c1_get i).
Proof. apply keeps_bind; [apply keeps_h1_get|intros; apply keeps_deref]. Qed.
Lemma keeps_end_stream i : keeps h1_ok (c1_endStream i).
Proof. apply keeps_modify. intros. by apply ok_set_sends. Qed.
Lemma keeps_c1_mod i f : (∀ c, c1_response (f c) = c1_response c) → (∀ c r, CbRequest r ∈ c1_streamCbs (f c) → CbRequest r ∈ c1_streamCbs c) → keeps h1_ok (c1_mod i f).
Proof. intros. apply keeps_modify. intros. by apply ok_alter. Qed.
Hint Resolve keeps_h1_get keeps_c1_get keeps_end_stream keeps_handle : keeps.

Lemma keeps_headers i h e : keeps h1_ok (c1_AppendHeaders range_map addr i h e).
Proof.
  unfold c1_AppendHeaders. apply keeps_bind; [apply keeps_c1_get|]. intros c. destruct (request_calls _ _ _ _) as [q h'].
  apply keeps_bind; [by apply keeps_c1_mod|]. intros _. auto with keeps.
Qed.
Lemma keeps_data i d e : keeps h1_ok (c1_AppendData i d e).
Proof. apply keeps_bind; [apply keeps_c1_get|]. intros c. apply keeps_bind; [by apply keeps_c1_mod|]. auto with keeps. Qed.
Lemma keeps_read_disable i b : keeps h1_ok (c1_ReadDisable fresh_response i b).
Proof. apply keeps_bind; [apply keeps_c1_get|]. intros c. apply keeps_bind; [by apply keeps_c1_mod|]. auto with keeps. Qed.
Lemma c1_get_inv i s c s1 : c1_get i s = Ret (c, s1) → h1_streams s !! i = Some c ∧ s1 = s.
Proof. unfold c1_get. intros E. apply sg_bind_Ret_inv in E as (o & s2 & [= <- <-] & E). destruct (h1_streams s !! i); [by injection E as <- <-|done]. Qed.
Lemma keeps_begin k : keeps h1_ok (c1_doSend_begin fresh_response k).
Proof.
  intros s a s' Hok E. unfold c1_doSend_begin in E. apply sg_bind_Ret_inv in E as (o & s1 & [= <- <-] & E).
  destruct (h1_starting s !! k) as [i|]; [|done]. apply sg_bind_Ret_inv in E as (j & s2 & [= <- <-] & E).
  apply sg_bind_Ret_inv in E as (c & s3 & E1 & E). apply c1_get_inv in E1 as [Hc ->]. apply sg_bind_Ret_inv in E as (t & s4 & [= <- <-] & E).
  destruct (c1_response c) as [p|]; injection E as _ <-; by apply ok_begin.
Qed.
Lemma keeps_end k r : keeps h1_ok (c1_doSend_end fresh_response k r).
Proof.
  apply keeps_bind; [apply keeps_h1_get|]. intros o. apply keeps_bind; [apply keeps_deref|]. intros [i p].
  apply keeps_bind; [apply keeps_modify; intros; by apply ok_set_sends|]. intros _. destruct r as [r|]; [auto with keeps|].
  intros s a s' Hok E. destruct (OnEvent_ok RemoteClose s Hok) as (s1 & E1 & H1 & _). rewrite E1 in E. by injection E as _ <-.
Qed.

Lemma keeps_run_h1 o : keeps h1_ok (run_h1 o).
Proof.
  destruct o as [v|i h e|i d e|i t|i b|i n|i n|i reason|k|k r|e]; cbn [run_h1].
  - intros s a s' Hok E. injection E as _ <-. by apply ok_new_stream.
  - apply keeps_bind; [apply keeps_headers|auto with keeps].
  - apply keeps_data.
  - apply keeps_end_stream.
  - apply keeps_read_disable.
  - apply keeps_c1_mod; [done|]. intros c r. cbn. set_solver.
  - apply keeps_c1_mod; [done|]. intros c r. cbn. destruct (c1_streamCbs c); [done|]. by right.
  - intros s a s' Hok E. unfold c1_ResetStream in E. apply sg_bind_Ret_inv in E as (c & s1 & E1 & E). apply c1_get_inv in E1 as [Hc ->].
    destruct (reset_stream_ok i c reason s Hc Hok) as (s2 & E2 & H2 & _). unfold c1_ResetStream in E2.
    apply sg_bind_Ret_inv in E2 as (c2 & s3 & E3 & E2). apply c1_get_inv in E3 as [Hc2 ->]. rewrite Hc in Hc2. injection Hc2 as <-. rewrite E2 in E. by injection E as _ <-.
  - apply keeps_begin.
  - apply keeps_end.
  - intros s a s' Hok E. destruct (OnEvent_ok e s Hok) as (s1 & E1 & H1 & _). rewrite E1 in E. by injection E as _ <-.
Qed.

(** *** Requests whose own listener was not taken off *)

(** [u]: the requests that nobody took a listener off.  One that is active still has its
    own, and its response is there when it is being waited for. *)
Record h1_held (u : nat → Prop) (s : http1Client) : Prop := mk_h1_held {
  hd_valid : ∀ r p, (r, p) ∈ h1_sending s → (r < length (h1_streams s))%nat;
  hd_len : length (h1_deleted s) = length (h1_streams s);
  hd_own : ∀ r, u r → h1_deleted s !! r = Some false → ∃ c, h1_streams s !! r = Some c ∧ CbRequest r ∈ c1_streamCbs c;
  hd_waits : ∀ r p, h1_deleted s !! r = Some false → (r, p) ∈ h1_sending s → ∃ c, h1_streams s !! r = Some c ∧ is_Some (c1_response c);
}.

Lemma held_dropped u r s : h1_held u s → h1_held u (dropped r s).
Proof.
  intros Hs. unfold dropped. destruct (h1_deleted s !!! r : bool); [done|]. destruct Hs.
  assert (∀ x, <[r:=true]> (h1_deleted s) !! x = Some false → h1_deleted s !! x = Some false) as H.
  { intros x. rewrite list_lookup_insert. case_decide; [done|auto]. }
  split; cbn; [done|by rewrite length_insert|intros; by apply hd_own0; [|apply H]|intros; eapply hd_waits0; [by apply H|done]].
Qed.
Lemma held_told u l s : h1_held u s → h1_held u (told l s).
Proof. by intros []. Qed.
(** A change of a stream that is alive keeps its listeners and its response. *)
Lemma held_alter u f i s : (∀ c, h1_deleted s !! i = Some false → c1_streamCbs c ⊆ c1_streamCbs (f c) ∨ ¬ u i) →
  (∀ c, h1_deleted s !! i = Some false → is_Some (c1_response c) → is_Some (c1_response (f c))) →
  h1_held u s → h1_held u (set_streams (alter f i (h1_streams s)) s).
Proof.
  intros Hc Hr []. split; cbn; [intros; rewrite length_alter; eauto|by rewrite length_alter|..].
  - intros r Hu Hd. destruct (hd_own0 r Hu Hd) as (c & Hs & Hin). rewrite list_lookup_alter. case_decide as Hi; [|eauto]. subst i.
    rewrite Hs. cbn. exists (f c). split; [done|]. destruct (Hc c Hd) as [Hsub|]; [by apply Hsub|done].
  - intros r p Hd Hp. destruct (hd_waits0 r p Hd Hp) as (c & Hs & Hrs). rewrite list_lookup_alter. case_decide as Hi; [|eauto]. subst i.
    rewrite Hs. cbn. exists (f c). split; [done|]. by apply Hr.
Qed.
Lemma held_keeps_mod u i f : (∀ c, c1_streamCbs c ⊆ c1_streamCbs (f c)) → (∀ c, c1_response (f c) = c1_response c) → keeps (h1_held u) (c1_mod i f).
Proof. intros Hc Hr. apply keeps_modify. intros s. apply held_alter; [by left|]. intros c _. by rewrite Hr. Qed.
Lemma held_keeps_get {A} u (f : http1Client → A) : keeps (h1_held u) (h1_get f).
Proof. intros s a s' H [= <- <-]. done. Qed.
Lemma held_keeps_c1 u i : keeps (h1_held u) (c1_get i).
Proof. apply keeps_bind; [apply held_keeps_get|intros; apply keeps_deref]. Qed.
Lemma held_reset_cbs u reason l : keeps (h1_held u) (reset_cbs reason l).
Proof.
  induction l as [|cb l IH]; [apply keeps_ret|]. apply keeps_bind; [|done]. destruct cb as [r|n]; [|apply keeps_modify; by intros s []].
  apply keeps_bind; [apply keeps_modify; by intros s []|]. intros _ s a s' Hs E. rewrite delete_run in E. injection E as _ <-. by apply held_dropped.
Qed.
Lemma held_reset_stream u i reason : keeps (h1_held u) (c1_ResetStream i reason).
Proof. apply keeps_bind; [apply held_keeps_c1|intros; apply held_reset_cbs]. Qed.
Lemma held_event u e : keeps (h1_held u) (h1_OnEvent e).
Proof.
  apply keeps_bind; [apply keeps_modify; by intros s []|]. intros _. apply keeps_when. apply keeps_bind; [apply held_keeps_get|]. intros b.
  apply keeps_bind; [apply held_keeps_get|]. intros l. generalize (if b then StreamConnectionTermination else StreamConnectionFailed). intros reason.
  induction l as [|r l IH]; [apply keeps_ret|]. apply keeps_bind; [apply held_reset_stream|done].
Qed.
Lemma held_handle u i : keeps (h1_held u) (c1_handleResponse fresh_response i).
Proof.
  intros s a s' Hs E. destruct (h1_streams s !! i) as [c|] eqn:Hc.
  2: { unfold c1_handleResponse in E. apply sg_bind_Ret_inv in E as (c & s1 & E1 & _). apply c1_get_inv in E1 as [E1 _]. congruence. }
  destruct (c1_response c) as [p|] eqn:Hp.
  - rewrite (handle_run i c p s Hc Hp) in E. injection E as _ <-. unfold answered.
    set (s1 := told _ s). assert (h1_held u (dropped i s1)) as H1 by by apply held_dropped, held_told.
    assert (h1_deleted (dropped i s1) !! i = Some true) as Hd. { apply dropped_deleted. cbn. rewrite (hd_len _ _ Hs). by eapply lookup_lt_Some. }
    set (s2 := set_streams _ (dropped i s1)). assert (h1_held u s2) as H2 by (apply held_alter; [intros; congruence..|done]).
    assert (h1_held u (set_streams (alter (λ c, set_c1_request None (set_c1_response None c)) i (h1_streams (told [ToldData i (c1_receiver c) (h1r_body (nth p (h1_responses s) fresh_response)) true] s2)))
      (told [ToldData i (c1_receiver c) (h1r_body (nth p (h1_responses s) fresh_response)) true] s2))) as []; [|by split].
    apply held_alter; [intros ? H; change (h1_deleted (dropped i s1) !! i = Some false) in H; congruence..|by apply held_told].
  - unfold c1_handleResponse in E. apply sg_bind_Ret_inv in E as (c' & s1 & E1 & E). rewrite (c1_get_run i c s Hc) in E1. injection E1 as <- <-.
    rewrite Hp in E. by injection E as _ <-.
Qed.
Lemma held_end_stream u i : keeps (h1_held u) (c1_endStream i).
Proof. apply keeps_modify. by intros s []. Qed.

Lemma held_run u o : (∀ r n, o = OUnlisten r n → ¬ u r) → keeps (h1_held u) (run_h1 o).
Proof.
  intros Hu. destruct o as [v|i h e|i d e|i t|i b|i n|i n|i reason|k|k r|e]; cbn [run_h1].
  - intros s a s' [] E. injection E as _ <-. split; cbn.
    + intros r p Hr. rewrite length_app. apply hd_valid0 in Hr. lia.
    + rewrite !length_app. cbn. lia.
    + intros r Hur [Hd|[Hr [Hz _]%list_lookup_singleton_Some]]%lookup_app_Some.
      * destruct (hd_own0 r Hur Hd) as (c & Hc & Hin). exists c. split; [by apply lookup_app_l_Some|done].
      * assert (r = length (h1_streams s)) as -> by lia. exists (mk_c1 0 None None [CbRequest (length (h1_streams s))] v).
        split; [by apply list_lookup_middle|by left].
    + intros r p [Hd|[Hr [Hz _]%list_lookup_singleton_Some]]%lookup_app_Some Hp.
      * destruct (hd_waits0 r p Hd Hp) as (c & Hc & Hrs). exists c. split; [by apply lookup_app_l_Some|done].
      * apply hd_valid0 in Hp. lia.
  - apply keeps_bind; [|intros; apply keeps_ret]. apply keeps_bind; [apply held_keeps_c1|]. intros c. destruct (request_calls _ _ _ _) as [q h'].
    apply keeps_bind; [by apply held_keeps_mod|]. intros _. apply keeps_bind; [apply keeps_when, held_end_stream|intros; apply keeps_ret].
  - apply keeps_bind; [apply held_keeps_c1|]. intros c. apply keeps_bind; [by apply held_keeps_mod|]. intros _. apply keeps_when, held_end_stream.
  - apply held_end_stream.
  - apply keeps_bind; [apply held_keeps_c1|]. intros c. apply keeps_bind; [by apply held_keeps_mod|]. intros _. apply keeps_when, held_handle.
  - apply held_keeps_mod; [|done]. intros c. cbn. set_solver.
  - apply keeps_modify. intros s. apply held_alter; [|done]. intros c _. right. by eapply Hu.
  - apply held_reset_stream.
  - intros s a s' Hs E. unfold c1_doSend_begin in E. apply sg_bind_Ret_inv in E as (o & s1 & [= <- <-] & E).
    destruct (h1_starting s !! k) as [i|]; [|done]. apply sg_bind_Ret_inv in E as (j & s2 & [= <- <-] & E).
    apply sg_bind_Ret_inv in E as (c & s3 & E1 & E). apply c1_get_inv in E1 as [Hc ->]. apply sg_bind_Ret_inv in E as (t & s4 & [= <- <-] & E).
    assert (∀ p responses, h1_held u (told [ToldDo i (c1_request c)] (set_streams (alter (set_c1_response (Some p)) i (h1_streams s))
      (set_sends responses (delete k (h1_starting s)) (h1_sending s ++ [(i, p)]) s)))) as H; [|by destruct (c1_response c); injection E as _ <-; apply H].
    clear E. intros p responses. apply held_told. destruct Hs. split; cbn.
    + intros r q. rewrite length_alter, elem_of_app, list_elem_of_singleton. intros [Hr|[= -> _]]; [eauto|]. by eapply lookup_lt_Some.
    + by rewrite length_alter.
    + intros r Hur Hd. destruct (hd_own0 r Hur Hd) as (c' & Hc' & Hin). rewrite list_lookup_alter. case_decide; [subst; rewrite Hc'; by eexists|eauto].
    + intros r q Hd. rewrite elem_of_app, list_elem_of_singleton, list_lookup_alter. intros Hr. case_decide as Hi.
      * subst r. rewrite Hc. by eexists.
      * destruct Hr as [Hr|[= -> _]]; [eauto|done].
  - apply keeps_bind; [apply held_keeps_get|]. intros o. apply keeps_bind; [apply keeps_deref|]. intros [i p].
    apply keeps_bind.
    { apply keeps_modify. intros s []. split; cbn; [|done|done|].
      - intros x q Hq. eapply hd_valid0, elem_of_submseteq; [exact Hq|apply submseteq_delete].
      - intros x q Hd Hq. eapply hd_waits0; [exact Hd|]. eapply elem_of_submseteq; [exact Hq|apply submseteq_delete]. }
    intros _. destruct r as [r|]; [|apply held_event]. apply keeps_bind; [apply held_keeps_c1|]. intros c. apply keeps_when, held_handle.
  - apply held_event.
Qed.

(** What must end request [r]: a reset of its stream, a close of the connection, the
    failure of any request, and the arrival of its response while it is not paused. *)
Definition closes (r : nat) (s : http1Client) (o : h1_op) : Prop :=
  match o with
  | OReset i _ => i = r
  | OEvent e => IsClose e = true
  | OEnd k None => True
  | OEnd k (Some _) => ∃ p c, h1_sending s !! k = Some (r, p) ∧ h1_streams s !! r = Some c ∧ c1_readDisableCount c ≤ 0
  | _ => False
  end.

Lemma closes_ends u o r s s' : h1_ok s → h1_held u s → u r → h1_deleted s !! r = Some false → closes r s o →
  run_h1 o s = Ret (tt, s') → h1_deleted s' !! r ≠ Some false.
Proof.
  intros Hok Hh Hu Hd Hcl E. destruct (hd_own _ _ Hh r Hu Hd) as (c & Hc & Hin).
  assert (∀ e s1 s2, h1_ok s1 → h1_streams s1 = h1_streams s → h1_deleted s1 = h1_deleted s → IsClose e = true → h1_OnEvent e s1 = Ret (tt, s2) → h1_deleted s2 !! r ≠ Some false) as Hevent.
  { intros e s1 s2 Hok1 Hst Hde He E1. destruct (OnEvent_ok e s1 Hok1) as (s3 & E3 & _ & _ & Hd3). rewrite E3 in E1. injection E1 as ->.
    rewrite Hd3. intros [_ H]. apply (H He r c); [by apply active_elem; [|rewrite Hde]|by rewrite Hst|done]. }
  destruct o as [| | | | | | |i reason| |k [resp|]|e]; try done; cbn [closes run_h1] in *.
  - subst i. destruct (reset_stream_ok r c reason s Hc Hok) as (s1 & E1 & _ & _ & Hd1). rewrite E1 in E. injection E as ->. rewrite Hd1. by intros [_ ?].
  - destruct Hcl as (p & c' & Hk & Hc' & Hn). rewrite Hc in Hc'. injection Hc' as <-.
    destruct (hd_waits _ _ Hh r p Hd (list_elem_of_lookup_2 _ _ _ Hk)) as (c1 & Hc1 & [q Hq]). rewrite Hc in Hc1. injection Hc1 as <-.
    unfold c1_doSend_end in E. apply sg_bind_Ret_inv in E as (o & s0 & [= <- <-] & E). rewrite Hk in E. apply sg_bind_Ret_inv in E as ([i q'] & s1 & [= <- <- <-] & E).
    apply sg_bind_Ret_inv in E as (? & s2 & [= _ <-] & E). apply sg_bind_Ret_inv in E as (c1 & s3 & E1 & E). rewrite (c1_get_run r c) in E1 by done. injection E1 as <- <-.
    rewrite bool_decide_true in E by done. cbn [sg_when] in E. rewrite (handle_run r c q) in E by done. injection E as <-.
    rewrite answered_deleted by (cbn; by eapply lookup_lt_Some). by rewrite decide_True.
  - unfold c1_doSend_end in E. apply sg_bind_Ret_inv in E as (o & s0 & [= <- <-] & E). apply sg_bind_Ret_inv in E as ([i p] & s1 & E1 & E).
    destruct (h1_sending s !! k); [|done]. injection E1 as -> <-. apply sg_bind_Ret_inv in E as (? & s2 & [= _ <-] & E).
    by eapply (Hevent RemoteClose _ s'); [by apply ok_set_sends|..|exact E].
  - by eapply Hevent.
Qed.

(** C23. The requests of an HTTP/1 client, however its streams are made, written to,
    paused, reset and answered.  A request is in the list of active requests, once and in
    the order in which they were made, from when it is made until its receiver is told
    the end of a response or the client is told that it was reset; with that its end is
    told to the pool, once, and never otherwise.  A request whose listeners nobody takes
    off is ended by a reset of its stream, by a close, by the failure of any request, and
    by the arrival of its response unless it is paused.  (Taking off a listener takes off
    the request's own: [h1_local_reset] shows a request that stays listed for ever when
    the proxy resets it.)  A receiver gets at most one whole response for each request
    handed to the transport. *)
Theorem h1_requests_accounted l s : run_h1s l h1_new = Ret (tt, s) →
  h1_ActiveRequests s = filter (λ r, ¬ ended_in r (h1_trace s)) (seq 0 (length (h1_streams s))) ∧
  (∀ r, (ended_in r (h1_trace s) → (r < length (h1_streams s))%nat ∧ times (is_destroy r) (h1_trace s) = 1%nat) ∧
        (¬ ended_in r (h1_trace s) → times (is_destroy r) (h1_trace s) = 0%nat)) ∧
  (∀ r o s', r ∈ h1_ActiveRequests s → (∀ n, OUnlisten r n ∉ l) → closes r s o → run_h1 o s = Ret (tt, s') → r ∉ h1_ActiveRequests s') ∧
  ∀ i, (times (is_answer i) (h1_trace s) ≤ times (is_do i) (h1_trace s))%nat.
Proof.
  intros E. assert (h1_ok s) as Hok.
  { assert (∀ l, keeps h1_ok (run_h1s l)) as H by (clear; induction l as [|o l IH]; cbn; [apply keeps_ret|apply keeps_bind; [apply keeps_run_h1|done]]).
    eapply H; [|exact E]. split; try done. intros r _. split; [done|]. intros (e & He & _). by apply elem_of_nil in He. }
  pose proof (ok_len _ _ Hok) as Hlen. split_and!.
  - rewrite (ok_active _ _ Hok), Hlen. apply filter_ext_elem. intros r Hr%elem_of_seq. rewrite <- (ok_ended _ _ Hok r) by done.
    destruct (lookup_lt_is_Some_2 (h1_deleted s) r) as [b Hb]; [lia|]. rewrite Hb. destruct b; (split; intros H; try done; by destruct H).
  - intros r. rewrite <- (ok_ended _ _ Hok r), (ok_destroyed _ _ Hok r) by done. split; intros Hd; case_decide; try done.
    split; [|done]. rewrite <- Hlen. by eapply lookup_lt_Some.
  - intros r o s' Hr Hl Hcl Eo Hr'. assert (h1_held (λ r, ∀ n, OUnlisten r n ∉ l) s) as Hh.
    { assert (∀ u k, (∀ r n, OUnlisten r n ∈ k → ¬ u r) → keeps (h1_held u) (run_h1s k)) as H.
      { clear. intros u k. induction k as [|o k IH]; intros Hu; [apply keeps_ret|]. apply keeps_bind; [|intros _; apply IH; intros r n Hn; eapply Hu; by right].
        apply held_run. intros r n ->. eapply Hu. by left. }
      refine (H _ l _ h1_new tt s _ E); [intros r0 n Hn Hno; by eapply Hno|]. split; [intros ? ? H0; by apply elem_of_nil in H0|done..]. }
    assert (h1_ok s') as Hok' by by eapply (keeps_run_h1 o s). apply active_elem in Hr, Hr'; [|done..].
    by eapply (closes_ends _ o r s s' Hok Hh).
  - intros i. pose proof (ok_answers _ _ Hok i). lia.
Qed.

(** An error of one request resets all requests of the client: afterwards none is
    active that still had its listener. *)
Theorem h1_error_resets_all k i p s : h1_ok s → h1_sending s !! k = Some (i, p) →
  (∀ r c, r ∈ h1_ActiveRequests s → h1_streams s !! r = Some c → CbRequest r ∈ c1_streamCbs c) →
  ∃ s', c1_doSend_end fresh_response k None s = Ret (tt, s') ∧ h1_ActiveRequests s' = [] ∧
    ∀ r, (r < length (h1_streams s))%nat → ended_in r (h1_trace s').
Proof.
  intros Hok Hk Hall. set (s1 := set_sends (h1_responses s) (h1_starting s) (delete k (h1_sending s)) s).
  destruct (OnEvent_ok RemoteClose s1) as (s2 & E2 & H2 & Hs2 & Hd2); [by apply ok_set_sends|].
  assert (∀ r, h1_deleted s2 !! r ≠ Some false) as Hnone.
  { intros r [Hr H]%Hd2. apply (active_elem s r Hok) in Hr as Ha. assert (is_Some (h1_streams s !! r)) as [c Hc].
    { apply lookup_lt_is_Some. rewrite <- (ok_len _ _ Hok). by eapply lookup_lt_Some. }
    exact (H eq_refl r c Ha Hc (Hall r c Ha Hc)). }
  exists s2. split_and!.
  - unfold c1_doSend_end. srun. rewrite Hk. srun. eapply (sg_run _ _ _ tt s1); [done|]. exact E2.
  - destruct (h1_ActiveRequests s2) as [|r l] eqn:E; [done|]. exfalso. apply (Hnone r). apply active_elem; [done|]. rewrite E. by left.
  - intros r Hr. apply (ok_ended _ _ H2); [done|]. destruct (lookup_lt_is_Some_2 (h1_deleted s2) r) as [b Hb].
    { rewrite (ok_len _ _ H2), Hs2. exact Hr. }
    destruct b; [done|]. by apply Hnone in Hb.
Qed.
End client.

(** ** A request and its answer on a server's stream *)

Section server.
  Context (range_map : header_map → list (string * string)).
  Hypothesis range_lists : ∀ h, range_map h ≡ₚ map_to_list h.

(** The proxy answers later: the receiver itself does nothing. *)
Definition h1_idle : SG serverStream1 unit := mret tt.
Definition h1_answer (h : header_map) (body : option bytes) : SG serverStream1 unit :=
  _ ← s1_AppendHeaders range_map (Some h) (bool_decide (body = None));
  _ ← match body with Some d => s1_AppendData d true | None => mret tt end;
  s1_served.

Definition wrote (l : list resp_call) (s : serverStream1) : serverStream1 :=
  mk_s1 (s1_readDisableCount s) (s1_request s) (s1_ctx s) (s1_response s ++ l) (s1_streamCbs s) (s1_chan s) (s1_active s) (s1_trace s).
Definition ended (s : serverStream1) : serverStream1 :=
  mk_s1 (s1_readDisableCount s) (s1_request s) (s1_ctx s) (s1_response s) (s1_streamCbs s) true false (s1_trace s).
Definition status_calls (h : header_map) : list resp_call := match h !! HeaderStatus with Some v => [SetStatusCode (Atoi v)] | None => [] end.

Lemma need_ctx_run s : s1_ctx s = true → s1_need_ctx s = Ret (tt, s).
Proof. intros Hc. unfold s1_need_ctx. srun. by rewrite Hc. Qed.
Lemma end_stream_run s : s1_chan s = false → s1_endStream s = Ret (tt, ended s).
Proof. intros Hc. unfold s1_endStream. srun. eapply (sg_run _ _ _ tt s); [by rewrite Hc|]. reflexivity. Qed.
Lemma s1_served_run s : s1_chan s = true → s1_served s = Ret (tt, mk_s1 (s1_readDisableCount s) (s1_request s) false (s1_response s) (s1_streamCbs s) false false (s1_trace s)).
Proof. intros Hc. unfold s1_served. srun. eapply (sg_run _ _ _ tt s); [by rewrite Hc|]. reflexivity. Qed.
Lemma append_data_run d s : s1_ctx s = true → s1_chan s = false → s1_AppendData d true s = Ret (tt, ended (wrote [RespSetBody d] s)).
Proof. intros Hc Hd. unfold s1_AppendData. eapply sg_run; [by apply need_ctx_run|]. eapply (sg_run _ _ _ tt (wrote [RespSetBody d] s)); [done|]. by apply end_stream_run. Qed.
Lemma append_headers_run h e s : s1_ctx s = true → s1_chan s = false →
  s1_AppendHeaders range_map (Some h) e s = Ret (Some (delete HeaderStatus h),
    let s := wrote (encodeRespHeader range_map (delete HeaderStatus h)) (wrote (status_calls h) s) in if e then ended s else s).
Proof.
  intros Hc Hd. unfold s1_AppendHeaders. cbn [default]. eapply (sg_run _ _ _ (delete HeaderStatus h) (wrote (status_calls h) s)).
  { unfold status_calls. change (id h) with h. destruct (h !! HeaderStatus) as [v|] eqn:Hv.
    - eapply sg_run; [by apply need_ctx_run|]. by srun.
    - rewrite delete_id by done. destruct s. unfold wrote. cbn. by rewrite app_nil_r. }
  set (s1 := wrote (status_calls h) s). eapply sg_run; [by apply need_ctx_run|].
  eapply (sg_run _ _ _ tt (wrote (encodeRespHeader range_map (delete HeaderStatus h)) s1)); [done|].
  destruct e; [eapply sg_run; [by apply end_stream_run|]|eapply sg_run; [done|]]; done.
Qed.

(** A request on an HTTP/1 server stream reaches its receiver once, with its headers,
    host, path, query and body, and the answer is written as it was given: the status,
    every other header and the body, and then the stream is done. *)
Theorem h1_exchange id q h body :
  ∃ s s' sets, s1_serve h1_idle h1_idle id q = Ret s ∧ h1_answer h body s = Ret (tt, s') ∧
    s1_trace s' = [H1NewStream id; H1ReceiveHeaders (h1_request_headers q) false; H1ReceiveData (h1q_body q) true] ∧
    s1_response s' = match h !! HeaderStatus with Some v => [SetStatusCode (Atoi v)] | None => [] end ++ sets ++
                     match body with Some d => [RespSetBody d] | None => [] end ∧
    sets ≡ₚ (λ kv, RespHeaderSet kv.1 kv.2) <$> map_to_list (delete HeaderStatus h) ∧
    s1_ctx s' = false ∧ s1_active s' = false.
Proof.
  set (s0 := mk_s1 0 q true [] [] false true [H1NewStream id; H1ReceiveHeaders (h1_request_headers q) false; H1ReceiveData (h1q_body q) true]).
  exists s0. pose proof (append_headers_run h (bool_decide (body = None)) s0 eq_refl eq_refl) as E.
  eexists. exists (encodeRespHeader range_map (delete HeaderStatus h)). split; [reflexivity|]. unfold h1_answer. split.
  { eapply sg_run; [exact E|]. instantiate (1 := mk_s1 0 q false (status_calls h ++ encodeRespHeader range_map (delete HeaderStatus h) ++
      match body with Some d => [RespSetBody d] | None => [] end) [] false false (s1_trace s0)).
    destruct body as [d|]; cbn [bool_decide decide]; [rewrite bool_decide_false by done|].
    - eapply sg_run; [by apply append_data_run|]. rewrite s1_served_run by done. unfold wrote, ended. cbn [s1_response s1_request s1_readDisableCount s1_streamCbs s1_trace s0].
      by rewrite <- !app_assoc.
    - rewrite bool_decide_true by done. srun. rewrite s1_served_run by done. unfold wrote, ended. cbn [s1_response s1_request s1_readDisableCount s1_streamCbs s1_trace s0].
      by rewrite app_nil_r. }
  split_and!; try done. unfold encodeRespHeader. by rewrite range_lists.
Qed.

(** Headers of a request that the client sent and the proxy does not add itself. *)
Theorem h1_headers_seen q k v : k ≠ MosnHeaderQueryStringKey → k ≠ MosnHeaderPathKey → k ≠ MosnHeaderHostKey →
  h1_request_headers q !! k = Some v ↔ visit_all (h1q_header q) !! k = Some v.
Proof.
  intros H1 H2 H3. unfold h1_request_headers, add_missing.
  repeat match goal with |- context [match ?m with Some _ => _ | None => _ end] => destruct m end; by rewrite ?lookup_insert_ne.
Qed.
End server.

(** ** Examples *)

Definition h1_fresh : h1_response := mk_h1resp 200 [("Content-Type", "text/plain; charset=utf-8")]%string [].
Definition h1_ok_response : h1_response := mk_h1resp 204 [("X-A", "1")]%string [byte_of_Z 104].
Abbreviation demo_h1 l := (run_h1s map_to_list "10.0.0.1:80"%string h1_fresh l h1_new).

Definition h1_demo : list h1_op :=
  [ONew 7; ONew 8; OHeaders 0 (Some {["path" := "/a"]}%string) false; OData 0 [byte_of_Z 98] true; OBegin 0; OHeaders 1 None true; OBegin 0;
   OEnd 0 (Some h1_ok_response); OEnd 0 None].
Lemma h1_requests_accounted_witness : ∃ s, demo_h1 h1_demo = Ret (tt, s) ∧ h1_ActiveRequests s = [] ∧
  times (is_destroy 0) (h1_trace s) = 1%nat ∧ times (is_destroy 1) (h1_trace s) = 1%nat.
Proof.
  destruct (demo_h1 h1_demo) as [[[] s]|] eqn:E; [|by vm_compute in E]. exists s.
  destruct (h1_requests_accounted _ _ _ _ s E) as (Ha & H & _). split; [done|].
  assert (h1_ActiveRequests s = []) as Hn by (clear -E; vm_compute in E; by injection E as <-).
  assert (length (h1_streams s) = 2%nat) as Hlen by (clear -E; vm_compute in E; by injection E as <-). clear E. split; [done|].
  rewrite Hn, Hlen in Ha. assert (∀ r, r ∈ seq 0 2 → ended_in r (h1_trace s)) as Hend.
  { intros r Hr. destruct (decide (ended_in r (h1_trace s))) as [|Hno]; [done|]. exfalso. assert (r ∈ ([] : list nat)) as H0; [|by apply elem_of_nil in H0].
    rewrite Ha. by apply list_elem_of_filter. }
  split; apply H, Hend; apply elem_of_seq; lia.
Defined.

Lemma h1_exchange_witness : ∃ s s' sets,
  s1_serve h1_idle h1_idle "5" (mk_h1req [("Host", "a")]%string "a" "/x" "k=v" [byte_of_Z 98]) = Ret s ∧
  h1_answer map_to_list {[HeaderStatus := "404"]}%string (Some [byte_of_Z 99]) s = Ret (tt, s') ∧
  s1_response s' = [SetStatusCode (Atoi "404")] ++ sets ++ [RespSetBody [byte_of_Z 99]].
Proof.
  destruct (h1_exchange map_to_list (λ h, Permutation_refl _) "5" (mk_h1req [("Host", "a")]%string "a" "/x" "k=v" [byte_of_Z 98])
    {[HeaderStatus := "404"]}%string (Some [byte_of_Z 99])) as (s & s' & sets & E1 & E2 & _ & H & _).
  exists s, s', sets. split_and!; [exact E1|exact E2|exact H].
Defined.

(** A request that the proxy passes on: it is a GET, and its query is a header. *)
Example h1_query_is_header : ∃ s, demo_h1 [ONew 7; OHeaders 0 (Some (h1_request_headers (mk_h1req [] "h" "/x" "k=v" []))) true; OBegin 0] = Ret (tt, s) ∧
  h1_trace s = [ToldDo 0 (Some [SetMethod "GET"; SetRequestURI "http://10.0.0.1:80/"; SetRequestURI "http://10.0.0.1:80/x"; ReqHeaderSet "querystring" "k=v"; ReqHeaderSet "host" "h"])]%string.
Proof. eexists. split; [vm_compute; reflexivity|]. vm_compute. reflexivity. Qed.

(** Reading that is enabled again before the response is there gives the receiver the
    empty response of the pool, and the real one is dropped. *)
Example h1_response_lost : ∃ s, demo_h1 [ONew 7; OHeaders 0 None true; OReadDisable 0 true; OBegin 0; OReadDisable 0 false; OEnd 0 (Some h1_ok_response)] = Ret (tt, s) ∧
  (λ e, match e with ToldHeaders _ _ h _ => h !! HeaderStatus | _ => None end) <$> h1_trace s = [None; Some "200"%string; None; None].
Proof. eexists. split; [vm_compute; reflexivity|]. vm_compute. reflexivity. Qed.

(** One failed request resets the other. *)
Example h1_failure_spreads : ∃ s, demo_h1 [ONew 7; OListen 0 70; ONew 8; OListen 1 80; OHeaders 0 None true; OBegin 0; OEnd 0 None] = Ret (tt, s) ∧
  h1_trace s = [ToldDo 0 (Some [SetMethod "GET"; SetRequestURI "http://10.0.0.1:80/"]%string);
    ToldStreamReset 0 StreamConnectionFailed; ToldStreamDestroy 0; ToldReset 70 StreamConnectionFailed;
    ToldStreamReset 1 StreamConnectionFailed; ToldStreamDestroy 1; ToldReset 80 StreamConnectionFailed] ∧ h1_activeStreams s = [0; 1]%nat.
Proof. eexists. split; [vm_compute; reflexivity|]. by vm_compute. Qed.

(** A proxy that gives up a request takes off its own listener, but the request's goes: the
    request stays active for ever, and the proxy is told of its own reset. *)
Example h1_local_reset : ∃ s, demo_h1 [ONew 7; OListen 0 70; OUnlisten 0 70; OReset 0 StreamLocalReset] = Ret (tt, s) ∧
  h1_trace s = [ToldReset 70 StreamLocalReset] ∧ h1_ActiveRequests s = [0]%nat.
Proof. eexists. split; [vm_compute; reflexivity|]. by vm_compute. Qed.

(** Data after the end of a response panics; a second end waits for ever. *)
Example h1_after_end : ∃ s, s1_serve h1_idle h1_idle "5" (mk_h1req [] "a" "/" "" []) = Ret s ∧
  (_ ← s1_AppendData [] true; s1_AppendData [] true) s = Panic Deadlock ∧
  (_ ← s1_AppendData [] true; _ ← s1_served; s1_AppendData [] true) s = Panic NilDeref.
Proof. eexists. split; [reflexivity|]. by split. Qed.
