(* ===== verification/GoNet.v ===== *)
(** * Addresses of Go's net package

    [IP.String], [TCPAddr.String], [ParseIP] and [IP.Equal], as the standard library
    of Go defines them. *)

From S2P Require Import Prelude Strconv GoTime.

Local Open Scope Z_scope.

(** An IP address: none (nil), four bytes, or eight groups of sixteen bits.  The
    groups of an IPv4 address are the four bytes. *)
Inductive IP := IPNil | IPv4 (a b c d : Z) | IPv6 (g0 g1 g2 g3 g4 g5 g6 g7 : Z).
#[export] Instance IP_eq_dec : EqDecision IP.
Proof. solve_decision. Defined.

Record TCPAddr := mk_tcp { tcp_IP : IP; tcp_Port : Z; tcp_Zone : string }.

(** ** Printing *)

Definition itoa (n : Z) : bytes := if bool_decide (n < 0) then byte_of_Z 45 :: fmt_digits 20 (- n) else fmt_digits 20 n.

Definition dot : byte := byte_of_Z 46.
Definition colon : byte := byte_of_Z 58.
Definition hex_char (d : Z) : byte := if bool_decide (d < 10) then byte_of_Z (48 + d) else byte_of_Z (97 + d - 10).
(** A group in lower case, without zeros in front. *)
Fixpoint hex_digits (fuel : nat) (n : Z) : bytes :=
  match fuel with
  | O => []
  | S fuel => if bool_decide (n < 16) then [hex_char n] else hex_digits fuel (n / 16) ++ [hex_char (n mod 16)]
  end.

(** The number of groups at the beginning that are zero. *)
Fixpoint zeros (l : list Z) : nat := match l with 0 :: l => S (zeros l) | _ => O end.
(** The longest run of zeros: where it starts and how long it is; the scan goes on
    after the group behind a run. *)
Fixpoint longest_run (fuel : nat) (i : nat) (l : list Z) (best : nat * nat) : nat * nat :=
  match fuel with
  | O => best
  | S fuel =>
    match l with
    | [] => best
    | _ =>
      let n := zeros l in
      if (best.2 <? n)%nat then longest_run fuel (i + n + 1) (drop (n + 1) l) (i, n) else longest_run fuel (i + 1) (drop 1 l) best
    end
  end.
Fixpoint groups_text (sep : bool) (l : list Z) : bytes :=
  match l with [] => [] | g :: l => (if sep then [colon] else []) ++ hex_digits 4 g ++ groups_text true l end.
Definition v6_text (l : list Z) : bytes :=
  let '(start, n) := longest_run 8 0 l (0, 0)%nat in
  if (n <=? 1)%nat then groups_text false l
  else groups_text false (take start l) ++ [colon; colon] ++ groups_text false (drop (start + n) l).

Definition IP_String (ip : IP) : bytes :=
  match ip with
  | IPNil => str_bytes "<nil>"
  | IPv4 a b c d => itoa a ++ [dot] ++ itoa b ++ [dot] ++ itoa c ++ [dot] ++ itoa d
  | IPv6 g0 g1 g2 g3 g4 g5 g6 g7 => v6_text [g0; g1; g2; g3; g4; g5; g6; g7]
  end.
Definition ipEmptyString (ip : IP) : bytes := match ip with IPNil => [] | _ => IP_String ip end.

Definition JoinHostPort (host port : bytes) : bytes :=
  if bool_decide (colon ∈ host) then [byte_of_Z 91] ++ host ++ [byte_of_Z 93; colon] ++ port
  else host ++ [colon] ++ port.

Definition TCPAddr_bytes (a : TCPAddr) : bytes :=
  let ip := ipEmptyString (tcp_IP a) in
  JoinHostPort (if bool_decide (tcp_Zone a = ""%string) then ip else ip ++ [byte_of_Z 37] ++ str_bytes (tcp_Zone a)) (itoa (tcp_Port a)).
Definition TCPAddr_String (a : TCPAddr) : string := bytes_str (TCPAddr_bytes a).

(** ** Parsing; [None] is nil *)

Definition big : Z := 16777215.

(** The digits at the beginning: their number and what follows, or nothing when
    there is none or the number is too large. *)
Fixpoint dtoi_loop (n : Z) (some : bool) (s : bytes) : option (Z * bytes) :=
  match s with
  | c :: r =>
    if is_digit c then
      let n := n * 10 + digit_val c in if bool_decide (big ≤ n) then None else dtoi_loop n true r
    else if some then Some (n, s) else None
  | [] => if some then Some (n, []) else None
  end.
Definition dtoi : bytes → option (Z * bytes) := dtoi_loop 0 false.

Definition hex_val (c : byte) : option Z :=
  let z := byte_to_Z c in
  if bool_decide (48 ≤ z ≤ 57) then Some (z - 48)
  else if bool_decide (97 ≤ z ≤ 102) then Some (z - 97 + 10)
  else if bool_decide (65 ≤ z ≤ 70) then Some (z - 65 + 10) else None.
Fixpoint xtoi_loop (n : Z) (some : bool) (s : bytes) : option (Z * bytes) :=
  match s with
  | c :: r =>
    match hex_val c with
    | Some h => let n := n * 16 + h in if bool_decide (big ≤ n) then None else xtoi_loop n true r
    | None => if some then Some (n, s) else None
    end
  | [] => if some then Some (n, []) else None
  end.
Definition xtoi : bytes → option (Z * bytes) := xtoi_loop 0 false.

(** The remaining [k] numbers of an IPv4 address. *)
Fixpoint v4_numbers (k : nat) (first : bool) (s : bytes) : option (list Z) :=
  match k with
  | O => match s with [] => Some [] | _ => None end
  | S k =>
    s ← match s with
        | [] => None
        | c :: r => if first then Some s else if bool_decide (c = dot) then Some r else None
        end;
    '(n, s) ← dtoi s;
    if bool_decide (255 < n) then None else l ← v4_numbers k false s; Some (n :: l)
  end.
Definition parseIPv4 (s : bytes) : option IP :=
  match v4_numbers 4 true s with Some [a; b; c; d] => Some (IPv4 a b c d) | _ => None end.

(** The loop of [parseIPv6]: the groups so far, where the ellipsis is, and the end of
    the address in dotted form. *)
Fixpoint v6_loop (fuel : nat) (l : list Z) (ellipsis : option nat) (s : bytes) : option (list Z * option nat) :=
  match fuel with
  | O => match s with [] => Some (l, ellipsis) | _ => None end
  | S fuel =>
    '(n, r) ← xtoi s;
    if bool_decide (65535 < n) then None
    else
    if bool_decide (head r = Some dot) then
      if bool_decide (ellipsis = None) && negb (bool_decide (length l = 6%nat)) then None
      else if bool_decide (6 < length l)%nat then None
      else
      match parseIPv4 s with Some (IPv4 a b c d) => Some (l ++ [a * 256 + b; c * 256 + d], ellipsis) | _ => None end
    else
    let l := l ++ [n] in
    match r with
    | [] => Some (l, ellipsis)
    | c :: r =>
      if negb (bool_decide (c = colon)) then None
      else
      match r with
      | [] => None
      | c :: r' =>
        if bool_decide (c = colon) then
          match ellipsis with
          | Some _ => None
          | None => match r' with [] => Some (l, Some (length l)) | _ => v6_loop fuel l (Some (length l)) r' end
          end
        else v6_loop fuel l ellipsis r
      end
    end
  end.

Definition of_groups (l : list Z) : option IP :=
  match l with
  | [0; 0; 0; 0; 0; 65535; x; y] => Some (IPv4 (x / 256) (x mod 256) (y / 256) (y mod 256))
  | [g0; g1; g2; g3; g4; g5; g6; g7] => Some (IPv6 g0 g1 g2 g3 g4 g5 g6 g7)
  | _ => None
  end.
Definition parseIPv6 (s : bytes) : option IP :=
  let '(ellipsis, s) :=
    match s with
    | c1 :: c2 :: r => if bool_decide (c1 = colon ∧ c2 = colon) then (Some 0%nat, r) else (None, s)
    | _ => (None, s)
    end in
  if bool_decide (ellipsis = Some 0%nat ∧ s = []) then of_groups (replicate 8 0)
  else
  '(l, ellipsis) ← v6_loop 8 [] ellipsis s;
  if bool_decide (length l < 8)%nat then
    match ellipsis with
    | Some e => of_groups (take e l ++ replicate (8 - length l) 0 ++ drop e l)
    | None => None
    end
  else if bool_decide (ellipsis = None) then of_groups l else None.

Fixpoint parse_kind (s : bytes) : option bool :=
  match s with [] => None | c :: s => if bool_decide (c = dot) then Some true else if bool_decide (c = colon) then Some false else parse_kind s end.
Definition ParseIP (s : bytes) : option IP :=
  match parse_kind s with Some true => parseIPv4 s | Some false => parseIPv6 s | None => None end.

(** [IP.Equal]; two nil addresses are equal. *)
Definition IP_Equal (a b : option IP) : bool := bool_decide (a = b).

Example addresses :
  (bytes_str <$> [IP_String (IPv6 8193 3512 0 0 0 0 0 1); IP_String (IPv6 0 0 0 0 0 0 0 0); IP_String (IPv6 1 0 2 0 0 3 0 0); IP_String (IPv4 10 0 0 255)]) =
    ["2001:db8::1"; "::"; "1:0:2::3:0:0"; "10.0.0.255"]%string ∧
  (ParseIP ∘ str_bytes <$> ["2001:db8::1"; "::"; "::ffff:1.2.3.4"; "1.2.3.4"; "1.2.3.4:80"; "1.2.3.256"; "1:2:3:4:5:6:7:8"; "1::2::3"; "[::1]:80"; "host"])%string =
    [Some (IPv6 8193 3512 0 0 0 0 0 1); Some (IPv6 0 0 0 0 0 0 0 0); Some (IPv4 1 2 3 4); Some (IPv4 1 2 3 4); None; None; Some (IPv6 1 2 3 4 5 6 7 8); None; None; None] ∧
  TCPAddr_String (mk_tcp (IPv6 0 0 0 0 0 0 0 1) 80 "") = "[::1]:80"%string ∧ TCPAddr_String (mk_tcp IPNil 2045 "") = ":2045"%string.
Proof. split_and!; vm_compute; reflexivity. Qed.

(** ** The text of an address with a port is no IP address *)

Definition v4_char (c : byte) : Prop := is_digit c = true ∨ c = dot.
Lemma v4_char_colon : ¬ v4_char colon.
Proof. intros [H|H]; by vm_compute in H. Qed.

Lemma dtoi_loop_chars n some s m r : dtoi_loop n some s = Some (m, r) → ∃ ds, s = ds ++ r ∧ Forall v4_char ds.
Proof.
  revert n some. induction s as [|c s IH]; intros n some; cbn [dtoi_loop].
  - destruct some; [|done]. intros [= <- <-]. by exists [].
  - destruct (is_digit c) eqn:Hc; [|destruct some; [|done]; intros [= <- <-]; by exists []].
    cbv zeta. case_bool_decide; [done|]. intros (ds & -> & Hds)%IH. exists (c :: ds). split; [done|]. constructor; [by left|done].
Qed.
Lemma v4_numbers_chars k first s l : v4_numbers k first s = Some l → Forall v4_char s.
Proof.
  revert first s l. induction k as [|k IH]; intros first s l; cbn [v4_numbers]; [by destruct s|].
  intros (s1 & E1 & ([n s2] & E2 & E3)%bind_Some)%bind_Some. case_bool_decide; [done|]. apply bind_Some in E3 as (l' & E3 & _).
  apply dtoi_loop_chars in E2 as (ds & -> & Hds). apply IH in E3. assert (Forall v4_char (ds ++ s2)) as Hall by (by apply Forall_app).
  destruct s as [|c s]; [done|]. destruct first; [by injection E1 as ->|]. case_bool_decide as Hc; [|done]. injection E1 as ->. constructor; [by right|done].
Qed.
Lemma parseIPv4_colon s : colon ∈ s → parseIPv4 s = None.
Proof.
  intros Hin. unfold parseIPv4. destruct (v4_numbers 4 true s) as [l|] eqn:E; [|done]. apply v4_numbers_chars in E.
  rewrite Forall_forall in E. by apply E, v4_char_colon in Hin.
Qed.

Lemma parseIPv6_head c s : hex_val c = None → c ≠ colon → parseIPv6 (c :: s) = None.
Proof.
  intros Hh Hc. unfold parseIPv6. assert ((match s with c2 :: r => if bool_decide (c = colon ∧ c2 = colon) then (Some 0%nat, r) else (None, c :: s) | [] => (None, c :: s) end) = (None, c :: s)) as E.
  { destruct s; [done|]. by rewrite bool_decide_false by naive_solver. }
  destruct s as [|c2 s]; [|rewrite E]; rewrite bool_decide_false by naive_solver; cbn [v6_loop]; unfold xtoi; cbn [xtoi_loop]; by rewrite Hh.
Qed.
Lemma itoa_head n : ∃ c l, itoa n = c :: l ∧ c ≠ colon.
Proof.
  unfold itoa. case_bool_decide; [by eexists _, _|]. destruct (fmt_digits_cons 20 n) as (d & l & -> & Hd); [lia..|]. eexists _, _. split; [done|].
  intros E. apply (f_equal byte_to_Z) in E. rewrite digit_char_val in E by done. change (byte_to_Z colon) with 58 in E. lia.
Qed.
Lemma digits_kind fuel n s : 0 ≤ n → parse_kind (fmt_digits fuel n ++ s) = parse_kind s.
Proof.
  revert n s. induction fuel as [|fuel IH]; intros n s Hn; [done|]. cbn [fmt_digits].
  assert (∀ d s, 0 ≤ d < 10 → parse_kind (digit_char d :: s) = parse_kind s) as Hd.
  { intros d s' Hd. cbn [parse_kind]. rewrite !bool_decide_false; [done|..]; intros E; apply (f_equal byte_to_Z) in E; rewrite digit_char_val in E by done;
      [change (byte_to_Z colon) with 58 in E|change (byte_to_Z dot) with 46 in E]; lia. }
  case_bool_decide; [by apply Hd|]. rewrite <- app_assoc, IH by (apply Z.div_pos; lia). apply Hd, Z.mod_pos_bound. lia.
Qed.
Lemma itoa_kind n s : parse_kind (itoa n ++ s) = parse_kind s.
Proof. unfold itoa. case_bool_decide; [|apply digits_kind; lia]. cbn [app parse_kind]. rewrite !bool_decide_false by (by intros [=]). apply digits_kind. lia. Qed.

Lemma v6_text_colon l : (2 ≤ length l)%nat → colon ∈ v6_text l.
Proof.
  intros Hl. unfold v6_text. destruct (longest_run _ _ _ _) as [start n]. destruct (n <=? 1)%nat; [|set_solver].
  destruct l as [|a [|b l]]; [cbn in Hl; lia..|]. cbn [groups_text app]. rewrite !elem_of_app. right. left.
Qed.

Lemma TCPAddr_not_IP a : ParseIP (TCPAddr_bytes a) = None.
Proof.
  unfold ParseIP, TCPAddr_bytes. set (z := if bool_decide (tcp_Zone a = ""%string) then [] else [byte_of_Z 37] ++ str_bytes (tcp_Zone a)).
  replace (if bool_decide (tcp_Zone a = ""%string) then _ else _) with (ipEmptyString (tcp_IP a) ++ z) by (unfold z; case_bool_decide; [by rewrite app_nil_r|done]).
  unfold JoinHostPort. case_bool_decide as Hcolon.
  { rewrite parseIPv4_colon by set_solver. cbn [app]. rewrite parseIPv6_head by done. by destruct (parse_kind _) as [[]|]. }
  rewrite parseIPv4_colon by set_solver. destruct (tcp_IP a) as [|a1 b1 c1 d1|g0 g1 g2 g3 g4 g5 g6 g7]; cbn [ipEmptyString IP_String app] in *.
  - destruct (parse_kind _) as [[]|]; [done| |done]. unfold z. case_bool_decide; [|by apply parseIPv6_head].
    destruct (itoa_head (tcp_Port a)) as (c & l & -> & Hc). cbn [app]. unfold parseIPv6. rewrite bool_decide_false by naive_solver. by rewrite bool_decide_false by naive_solver.
  - rewrite <- !app_assoc, itoa_kind. by cbn.
  - destruct Hcolon. apply elem_of_app. left. apply v6_text_colon. cbn. lia.
Qed.
