(* ===== verification/ConfigTypes.v ===== *)
(** * The structs of a configuration: pkg/config/config.go and pkg/api/v2/types.go

    The file of the configuration is read into the structs of pkg/config ([cf_...]);
    the program works with those of pkg/api/v2 ([api_...]), which the parser makes.
    A pointer that may be nil is an [option]; an [interface{}] holds a [value],
    which is what the JSON decoder puts there.  Numbers of an [interface{}] are
    float64; durations are nanoseconds. *)

From Stdlib Require Import SpecFloat.
From S2P Require Import Prelude.

Local Open Scope Z_scope.

Inductive value :=
  | VNull | VBool (b : bool) | VNum (f : spec_float) | VStr (s : string)
  | VList (l : list value) | VMap (m : gmap string value).
Abbreviation Metadata := (gmap string value).

(** ** pkg/config/config.go *)

Record cf_HeaderMatcher := mk_cf_hm { chm_Name : string; chm_Value : string; chm_Regex : bool }.
Record cf_RuntimeUInt32 := mk_cf_rt { crt_DefaultValue : Z; crt_RuntimeKey : string }.
Record cf_RouterMatch := mk_cf_match {
  cm_Prefix : string; cm_Path : string; cm_Regex : string; cm_CaseSensitive : bool;
  cm_Runtime : cf_RuntimeUInt32; cm_Headers : list cf_HeaderMatcher;
}.
Record cf_ClusterWeight := mk_cf_cw { ccw_Name : string; ccw_Weight : Z; ccw_MetadataMatch : Metadata }.
Record cf_WeightedCluster := mk_cf_wc { cwc_Clusters : cf_ClusterWeight; cwc_RuntimeKeyPrefix : string }.
Record cf_RetryPolicy := mk_cf_rp { crp_RetryOn : bool; crp_RetryTimeout : Z; crp_NumRetries : Z }.
Record cf_RouteAction := mk_cf_ra {
  cra_ClusterName : string; cra_ClusterHeader : string; cra_WeightedClusters : list cf_WeightedCluster;
  cra_MetadataMatch : Metadata; cra_Timeout : Z; cra_RetryPolicy : cf_RetryPolicy;
}.
Record cf_RedirectAction := mk_cf_rd { crd_HostRedirect : string; crd_PathRedirect : string; crd_ResponseCode : Z }.
Record cf_Router := mk_cf_router {
  cr_Match : cf_RouterMatch; cr_Route : cf_RouteAction; cr_Redirect : cf_RedirectAction;
  cr_Metadata : Metadata; cr_Decorator : string;
}.
Record cf_VirtualCluster := mk_cf_vc { cvc_Pattern : string; cvc_Name : string; cvc_Method : string }.
Record cf_VirtualHost := mk_cf_vh {
  cvh_Name : string; cvh_Domains : list string; cvh_Routers : list cf_Router; cvh_RequireTLS : string;
  cvh_VirtualClusters : list cf_VirtualCluster;
}.
(** Its field BasicRoutes is not read. *)
Record cf_Proxy := mk_cf_proxy {
  cp_Name : string; cp_DownstreamProtocol : string; cp_UpstreamProtocol : string; cp_SupportDynamicRoute : bool;
  cp_VirtualHosts : list (option cf_VirtualHost); cp_ValidateClusters : bool;
}.

Record cf_FilterConfig := mk_cf_filter { cfc_Type : string; cfc_Config : gmap string value }.
Record cf_TLSConfig := mk_cf_tls {
  ct_Status : bool; ct_Inspector : bool; ct_ServerName : string; ct_CACert : string; ct_CertChain : string;
  ct_PrivateKey : string; ct_VerifyClient : bool; ct_VerifyServer : bool; ct_CipherSuites : string;
  ct_EcdhCurves : string; ct_MinVersion : string; ct_MaxVersion : string; ct_ALPN : string; ct_Ticket : string;
}.
Record cf_FilterChain := mk_cf_chain { cfch_Match : string; cfch_TLS : cf_TLSConfig; cfch_Filters : list cf_FilterConfig }.
Record cf_AccessLogConfig := mk_cf_al { cal_LogPath : string; cal_LogFormat : string }.
Record cf_ListenerConfig := mk_cf_listener {
  cln_Name : string; cln_Address : string; cln_BindToPort : bool; cln_FilterChains : list cf_FilterChain;
  cln_StreamFilters : list cf_FilterConfig; cln_LogPath : string; cln_LogLevel : string;
  cln_HandOffRestoredDestinationConnections : bool; cln_AccessLogs : list cf_AccessLogConfig;
}.
Record cf_ServerConfig := mk_cf_server {
  cs_DefaultLogPath : string; cs_DefaultLogLevel : string; cs_GracefulTimeout : Z; cs_Processor : Z;
  cs_Listeners : list cf_ListenerConfig;
}.

Record cf_HostConfig := mk_cf_host { ch_Address : string; ch_Hostname : string; ch_Weight : Z; ch_MetaData : Metadata }.
Record cf_HealthCheckConfig := mk_cf_hc {
  chc_Protocol : string; chc_Timeout : Z; chc_Interval : Z; chc_IntervalJitter : Z;
  chc_HealthyThreshold : Z; chc_UnhealthyThreshold : Z; chc_CheckPath : string; chc_ServiceName : string;
}.
Record cf_LBSubsetConfig := mk_cf_lbs {
  cls_FallBackPolicy : Z; cls_DefaultSubset : gmap string string; cls_SubsetSelectors : list (list string);
}.
Record cf_CircuitBreakerConfig := mk_cf_cb {
  ccb_Priority : string; ccb_MaxConnections : Z; ccb_MaxPendingRequests : Z; ccb_MaxRequests : Z; ccb_MaxRetries : Z;
}.
(** The field SubType is not read; the services subscribed to are their names. *)
Record cf_ClusterConfig := mk_cf_cluster {
  cc_Name : string; cc_Type : string; cc_LbType : string; cc_MaxRequestPerConn : Z; cc_ConnBufferLimitBytes : Z;
  cc_CircuitBreakers : list (option cf_CircuitBreakerConfig); cc_HealthCheck : cf_HealthCheckConfig;
  cc_ClusterSpecConfig : list string; cc_Hosts : list cf_HostConfig; cc_LBSubsetConfig : cf_LBSubsetConfig;
  cc_TLS : cf_TLSConfig;
}.
Record cf_ClusterManagerConfig := mk_cf_cm { ccm_AutoDiscovery : bool; ccm_RegistryUseHealthCheck : bool; ccm_Clusters : list cf_ClusterConfig }.

Record cf_ServiceAppInfo := mk_cf_app { cap_AntShareCloud : bool; cap_DataCenter : string; cap_AppName : string }.
Record cf_ServicePubInfo := mk_cf_pub { cpb_ServiceName : string; cpb_PubData : string }.
Record cf_ServiceRegistry := mk_cf_sr { csr_ServiceAppInfo : cf_ServiceAppInfo; csr_ServicePubInfo : list cf_ServicePubInfo }.

(** The raw resources are the bytes of the file. *)
Record MOSNConfig := mk_mosn {
  mc_Servers : list cf_ServerConfig; mc_ClusterManager : cf_ClusterManagerConfig; mc_ServiceRegistry : cf_ServiceRegistry;
  mc_RawDynamicResources : bytes; mc_RawStaticResources : bytes;
}.

(** ** pkg/api/v2/types.go *)

Record api_HeaderMatcher := mk_api_hm { ahm_Name : string; ahm_Value : string; ahm_Regex : bool }.
Record api_RuntimeUInt32 := mk_api_rt { art_DefaultValue : Z; art_RuntimeKey : string }.
Record api_RouterMatch := mk_api_match {
  am_Prefix : string; am_Path : string; am_Regex : string; am_CaseSensitive : bool;
  am_Runtime : api_RuntimeUInt32; am_Headers : list api_HeaderMatcher;
}.
Record api_ClusterWeight := mk_api_cw { acw_Name : string; acw_Weight : Z; acw_MetadataMatch : Metadata }.
Record api_WeightedCluster := mk_api_wc { awc_Clusters : api_ClusterWeight; awc_RuntimeKeyPrefix : string }.
Record api_RetryPolicy := mk_api_rp { arp_RetryOn : bool; arp_RetryTimeout : Z; arp_NumRetries : Z }.
Record api_RouteAction := mk_api_ra {
  ara_ClusterName : string; ara_ClusterHeader : string; ara_WeightedClusters : list api_WeightedCluster;
  ara_MetadataMatch : Metadata; ara_Timeout : Z; ara_RetryPolicy : option api_RetryPolicy;
}.
Record api_RedirectAction := mk_api_rd { ard_HostRedirect : string; ard_PathRedirect : string; ard_ResponseCode : Z }.
Record api_Router := mk_api_router {
  ar_Match : api_RouterMatch; ar_Route : api_RouteAction; ar_Redirect : api_RedirectAction;
  ar_Metadata : Metadata; ar_Decorator : string;
}.
Record api_VirtualCluster := mk_api_vc { avc_Pattern : string; avc_Name : string; avc_Method : string }.
Record api_VirtualHost := mk_api_vh {
  avh_Name : string; avh_Domains : list string; avh_Routers : list api_Router; avh_RequireTLS : string;
  avh_VirtualClusters : list api_VirtualCluster;
}.
Record api_BasicServiceRoute := mk_api_bsr { abs_Name : string; abs_Service : string; abs_Cluster : string }.
Record api_Proxy := mk_api_proxy {
  ap_Name : string; ap_DownstreamProtocol : string; ap_UpstreamProtocol : string; ap_SupportDynamicRoute : bool;
  ap_BasicRoutes : list (option api_BasicServiceRoute); ap_VirtualHosts : list api_VirtualHost; ap_ValidateClusters : bool;
}.

Record api_Filter := mk_api_filter { af_Name : string; af_Config : option (gmap string value) }.
Record api_TLSConfig := mk_api_tls {
  at_Status : bool; at_Inspector : bool; at_ServerName : string; at_CACert : string; at_CertChain : string;
  at_PrivateKey : string; at_VerifyClient : bool; at_VerifyServer : bool; at_CipherSuites : string;
  at_EcdhCurves : string; at_MinVersion : string; at_MaxVersion : string; at_ALPN : string; at_Ticket : string;
}.
Definition no_tls : api_TLSConfig :=
  mk_api_tls false false "" "" "" "" false false "" "" "" "" "" "".
Record api_FilterChain := mk_api_chain { afc_Match : string; afc_TLS : api_TLSConfig; afc_Filters : list api_Filter }.
Record api_AccessLog := mk_api_al { aal_Path : string; aal_Format : string }.

Record api_Host := mk_api_host { ah_Address : string; ah_Hostname : string; ah_Weight : Z; ah_MetaData : Metadata }.
Record api_HealthCheck := mk_api_hc {
  ahc_Protocol : string; ahc_Timeout : Z; ahc_Interval : Z; ahc_IntervalJitter : Z;
  ahc_HealthyThreshold : Z; ahc_UnhealthyThreshold : Z; ahc_CheckPath : string; ahc_ServiceName : string;
}.
Definition no_health_check : api_HealthCheck := mk_api_hc "" 0 0 0 0 0 "" "".
Record api_Thresholds := mk_api_thr {
  ath_Priority : string; ath_MaxConnections : Z; ath_MaxPendingRequests : Z; ath_MaxRequests : Z; ath_MaxRetries : Z;
}.
Record api_OutlierDetection := mk_api_od {
  aod_Consecutive5xx : Z; aod_Interval : Z; aod_BaseEjectionTime : Z; aod_MaxEjectionPercent : Z;
  aod_ConsecutiveGatewayFailure : Z; aod_EnforcingConsecutive5xx : Z; aod_EnforcingConsecutiveGatewayFailure : Z;
  aod_EnforcingSuccessRate : Z; aod_SuccessRateMinimumHosts : Z; aod_SuccessRateRequestVolume : Z;
  aod_SuccessRateStdevFactor : Z;
}.
Definition no_outlier_detection : api_OutlierDetection := mk_api_od 0 0 0 0 0 0 0 0 0 0 0.
Record api_LBSubsetConfig := mk_api_lbs {
  als_FallBackPolicy : Z; als_DefaultSubset : gmap string string; als_SubsetSelectors : list (list string);
}.
(** Types of clusters and of balancers are strings. *)
Record api_Cluster := mk_api_cluster {
  ac_Name : string; ac_ClusterType : string; ac_LbType : string; ac_MaxRequestPerConn : Z; ac_ConnBufferLimitBytes : Z;
  ac_CirBreThresholds : list api_Thresholds; ac_OutlierDetection : api_OutlierDetection; ac_HealthCheck : api_HealthCheck;
  ac_Spec : list string; ac_LBSubSetConfig : api_LBSubsetConfig; ac_TLS : api_TLSConfig; ac_Hosts : list api_Host;
}.

Record api_FaultInject := mk_api_fi { afi_DelayPercent : Z; afi_DelayDuration : Z }.
Record api_HealthCheckFilter := mk_api_hcf {
  ahf_PassThrough : bool; ahf_CacheTime : Z; ahf_Endpoint : string; ahf_ClusterMinHealthyPercentage : gmap string spec_float;
}.
Record api_ApplicationInfo := mk_api_app { aap_AntShareCloud : bool; aap_DataCenter : string; aap_AppName : string; aap_Zone : string }.
Record api_PublishContent := mk_api_pub { apb_ServiceName : string; apb_PubData : string }.
Record api_ServiceRegistryInfo := mk_api_sri { asr_ServiceAppInfo : api_ApplicationInfo; asr_ServicePubInfo : list api_PublishContent }.
