(* ===== verification/Config.v ===== *)
(** * Reading a configuration: pkg/config/parser.go and pkg/config/config.go

    From the structs of the file to those of pkg/api/v2.  A configuration that is
    refused ends the process ([Exit]), or panics where the code does.  The decoder of
    JSON and the resolver of addresses are outside the sources: [decode_proxy] is what
    marshalling a filter's configuration and unmarshalling it into a [Proxy] leaves
    there, [resolve] is [net.ResolveTCPAddr]. *)

From Stdlib Require Import SpecFloat.
From S2P Require Import Prelude Strconv GoStrings GoTime GoNet ConfigTypes.

Local Open Scope Z_scope.

(** [log.StartLogger.Fatal] and [Fatalln]. *)
Definition fatal {A} : Go A := Panic Exit.

(** The names of pkg/protocol/types.go. *)
Definition protocolsSupported : gset string := {["SofaRpc"; "Http2"; "Http1"; "X"]}%string.

(** ** Durations in JSON (config.go) *)

Definition quote : byte := byte_of_Z 34.
Fixpoint trim_front (s : bytes) : bytes := match s with c :: r => if bool_decide (c = quote) then trim_front r else s | [] => [] end.
(** [strings.Trim] of quotation marks. *)
Definition trim_quotes (s : bytes) : bytes := reverse (trim_front (reverse (trim_front s))).

(** An error leaves the duration 0. *)
Definition UnmarshalJSON (b : bytes) : option Z := ParseDuration (bytes_str (trim_quotes b)).
Definition MarshalJSON (d : Z) : bytes := [quote] ++ str_bytes (duration_String d) ++ [quote].

(** ** How the program is started (config.go) *)

Inductive Mode := FileMode | XdsMode | MixMode.
Definition config_Mode (c : MOSNConfig) : Mode :=
  if bool_decide (0 < length (mc_Servers c))%nat then
    if bool_decide (mc_RawStaticResources c = []) || bool_decide (mc_RawDynamicResources c = []) then FileMode else MixMode
  else if bool_decide (mc_RawStaticResources c ≠ []) && bool_decide (mc_RawDynamicResources c ≠ []) then XdsMode
  else FileMode.

(** ** Callbacks of the parser, by the key of what they want to see *)

Inductive ContentKey := ParseCallbackKeyCluster | ParseCallbackKeyServiceRgtInfo.
#[export] Instance ContentKey_eq_dec : EqDecision ContentKey.
Proof. solve_decision. Defined.
#[export] Instance ContentKey_countable : Countable ContentKey.
Proof.
  refine (inj_countable' (λ k, match k with ParseCallbackKeyCluster => true | _ => false end)
    (λ b : bool, if b then ParseCallbackKeyCluster else ParseCallbackKeyServiceRgtInfo) _). by intros [].
Defined.
Abbreviation callbacks := (gmap ContentKey (list nat)).

(** A callback for a key that has one is appended to a copy of the slice's header. *)
Definition RegisterConfigParsedListener (key : ContentKey) (cb : nat) (m : callbacks) : callbacks :=
  match m !! key with Some cbs => m | None => <[key := [cb]]> m end.

(** A call of a callback, with its arguments. *)
Inductive cb_call :=
  | CallClusters (cb : nat) (data : list api_Cluster) (endParsing : bool)
  | CallRegistry (cb : nat) (data : api_ServiceRegistryInfo) (endParsing : bool).

(** ** Levels of logs *)

Inductive Level := FATAL | ERROR | WARN | INFO | DEBUG | TRACE.
Definition level_code (l : Level) : Z := match l with FATAL => 0 | ERROR => 1 | WARN => 2 | INFO => 3 | DEBUG => 4 | TRACE => 5 end.
Definition logLevelMap (s : string) : option Level :=
  if bool_decide (s = "TRACE"%string) then Some TRACE else if bool_decide (s = "DEBUG"%string) then Some DEBUG
  else if bool_decide (s = "FATAL"%string) then Some FATAL else if bool_decide (s = "ERROR"%string) then Some ERROR
  else if bool_decide (s = "WARN"%string) then Some WARN else if bool_decide (s = "INFO"%string) then Some INFO else None.
Definition parseLogLevel (level : string) : Go Level :=
  if bool_decide (level = ""%string) then Ret INFO
  else match logLevelMap level with Some l => Ret l | None => fatal end.

(** [server.Config]. *)
Record server_Config := mk_sc { sc_LogPath : string; sc_LogLevel : Level; sc_GracefulTimeout : Z; sc_Processor : Z }.
Definition ParseServerConfig (c : cf_ServerConfig) : Go server_Config :=
  level ← parseLogLevel (cs_DefaultLogLevel c);
  Ret (mk_sc (cs_DefaultLogPath c) level (cs_GracefulTimeout c) (cs_Processor c)).

(** ** Routes *)

Definition parseRouterMetadata (metadata : Metadata) : Metadata := map_fold (λ k v r, <[k := v]> r) ∅ metadata.
Definition parseMatchHeaders (l : list cf_HeaderMatcher) : list api_HeaderMatcher :=
  (λ hm, mk_api_hm (chm_Name hm) (chm_Value hm) (chm_Regex hm)) <$> l.
Definition parseWeightClusters (l : list cf_WeightedCluster) : list api_WeightedCluster :=
  (λ wc, let c := cwc_Clusters wc in
    mk_api_wc (mk_api_cw (ccw_Name c) (ccw_Weight c) (parseRouterMetadata (ccw_MetadataMatch c))) (cwc_RuntimeKeyPrefix wc)) <$> l.
Definition parseVirtualClusters (l : list cf_VirtualCluster) : list api_VirtualCluster :=
  (λ vc, mk_api_vc (cvc_Pattern vc) (cvc_Name vc) (cvc_Method vc)) <$> l.
Definition parseRouters (l : list cf_Router) : list api_Router :=
  (λ r, let m := cr_Match r in let a := cr_Route r in let rd := cr_Redirect r in let rp := cra_RetryPolicy a in
    mk_api_router
      (mk_api_match (cm_Prefix m) (cm_Path m) (cm_Regex m) (cm_CaseSensitive m)
        (mk_api_rt (crt_DefaultValue (cm_Runtime m)) (crt_RuntimeKey (cm_Runtime m))) (parseMatchHeaders (cm_Headers m)))
      (mk_api_ra (cra_ClusterName a) (cra_ClusterHeader a) (parseWeightClusters (cra_WeightedClusters a))
        (parseRouterMetadata (cra_MetadataMatch a)) (cra_Timeout a)
        (Some (mk_api_rp (crp_RetryOn rp) (crp_RetryTimeout rp) (crp_NumRetries rp))))
      (mk_api_rd (crd_HostRedirect rd) (crd_PathRedirect rd) (crd_ResponseCode rd))
      (parseRouterMetadata (cr_Metadata r)) (cr_Decorator r)) <$> l.
Definition parseVirtualHost (l : list (option cf_VirtualHost)) : Go (list api_VirtualHost) :=
  mapM (λ o, match o with
    | None => Panic NilDeref
    | Some h => Ret (mk_api_vh (cvh_Name h) (cvh_Domains h) (parseRouters (cvh_Routers h)) (cvh_RequireTLS h) (parseVirtualClusters (cvh_VirtualClusters h)))
    end) l.

Section proxy_filter.
  Context (decode_proxy : option (gmap string value) → option (option cf_Proxy)).

(** Every virtual host needs a route. *)
Fixpoint check_virtual_hosts (l : list (option cf_VirtualHost)) : Go unit :=
  match l with
  | [] => Ret tt
  | None :: _ => Panic NilDeref
  | Some vh :: l => if bool_decide (cvh_Routers vh = []) then fatal else check_virtual_hosts l
  end.

(** The outer [None] of [decode_proxy] is an error of Marshal; the inner one is a
    nil pointer, which the text null decodes to. *)
Definition ParseProxyFilterJSON (c : api_Filter) : Go api_Proxy :=
  match decode_proxy (af_Config c) with
  | None => fatal
  | Some None => Panic NilDeref
  | Some (Some p) =>
    if bool_decide (cp_DownstreamProtocol p = ""%string) || bool_decide (cp_UpstreamProtocol p = ""%string) then fatal
    else if negb (bool_decide (cp_DownstreamProtocol p ∈ protocolsSupported)) then fatal
    else if negb (bool_decide (cp_UpstreamProtocol p ∈ protocolsSupported)) then fatal
    else
    _ ← check_virtual_hosts (cp_VirtualHosts p);
    vhs ← parseVirtualHost (cp_VirtualHosts p);
    Ret (mk_api_proxy (cp_Name p) (cp_DownstreamProtocol p) (cp_UpstreamProtocol p) (cp_SupportDynamicRoute p) [] vhs (cp_ValidateClusters p))
  end.
End proxy_filter.

(** The service of a route: the value of its last header of that name. *)
Definition getServiceFromHeader (router : option api_Router) : option api_BasicServiceRoute :=
  match router with
  | None => None
  | Some r =>
    let service := fold_left (λ s h, if bool_decide (ahm_Name h = "service"%string) || bool_decide (ahm_Name h = "Service"%string) then ahm_Value h else s)
      (am_Headers (ar_Match r)) ""%string in
    let cluster := ara_ClusterName (ar_Route r) in
    if bool_decide (service = ""%string) || bool_decide (cluster = ""%string) then None
    else Some (mk_api_bsr "" service cluster)
  end.
Definition parseBasicFilter (p : api_Proxy) : list (option api_BasicServiceRoute) :=
  ap_VirtualHosts p ≫= λ vh, (λ r, getServiceFromHeader (Some r)) <$> avh_Routers vh.

(** ** Configurations of filters, given as maps *)

(** A required entry of a given type. *)
Definition get_string (m : gmap string value) (key : string) : Go string :=
  match m !! key with Some (VStr s) => Ret s | _ => fatal end.
Definition get_bool (m : gmap string value) (key : string) : Go bool :=
  match m !! key with Some (VBool b) => Ret b | _ => fatal end.

Definition parseRouteConfig (config : gmap string value) : Go api_BasicServiceRoute :=
  name ← get_string config "name";
  service ← get_string config "service";
  cluster ← get_string config "cluster";
  Ret (mk_api_bsr name service cluster).
Definition parseProxyFilter (c : api_Filter) : Go api_Proxy :=
  let m := default ∅ (af_Config c) in
  down ← get_string m "downstream_protocol";
  up ← get_string m "upstream_protocol";
  dyn ← match m !! "support_dynamic_route"%string with None => Ret false | Some (VBool b) => Ret b | Some _ => fatal end;
  routes ← match m !! "routes"%string with
    | Some (VList l) => mapM (λ r, match r with VMap m => r ← parseRouteConfig m; Ret (Some r) | _ => Panic TypeAssertion end) l
    | _ => fatal
    end;
  Ret (mk_api_proxy "" down up dyn routes [] false).

(** [uint32(f)] of a float64, as it is on amd64: through int64, whose conversion
    gives the smallest number when the value is out of range. *)
Definition sf_trunc (f : spec_float) : Z :=
  match f with
  | S754_finite s m e =>
    let a := if bool_decide (0 ≤ e) then Zpos m * 2 ^ e else Zpos m / 2 ^ (- e) in
    let z := if s then - a else a in
    if bool_decide (- 2 ^ 63 ≤ z < 2 ^ 63) then z else - 2 ^ 63
  | S754_zero _ => 0
  | _ => - 2 ^ 63
  end.
(** [float32(f)]. *)
Definition to_float32 (f : spec_float) : spec_float :=
  match f with S754_finite s m e => binary_normalize 24 128 (if s then Zneg m else Zpos m) e s | f => f end.

Definition get_duration (m : gmap string value) (key : string) : Go Z :=
  s ← get_string m key;
  match ParseDuration (bytes_str (trim_quotes (str_bytes s))) with Some d => Ret d | None => fatal end.

Definition ParseFaultInjectFilter (config : gmap string value) : Go api_FaultInject :=
  percent ← match config !! "delay_percent"%string with Some (VNum f) => Ret (to_uint32 (sf_trunc f)) | _ => fatal end;
  d ← get_duration config "delay_duration";
  Ret (mk_api_fi percent (to_uint64 d)).

Definition is_number (v : value) : bool := match v with VNum _ => true | _ => false end.
Definition ParseHealthcheckFilter (config : gmap string value) : Go api_HealthCheckFilter :=
  passthrough ← get_bool config "passthrough";
  cacheTime ← get_duration config "cache_time";
  percentages ← match config !! "cluster_min_healthy_percentages"%string with
    | Some (VMap m) => if bool_decide (map_Forall (λ _ v, is_number v = true) m)
        then Ret (omap (λ v, match v with VNum f => Some (to_float32 f) | _ => None end) m) else Panic TypeAssertion
    | _ => fatal
    end;
  Ret (mk_api_hcf passthrough cacheTime "" percentages).

(** ** Listeners *)

Definition parseAccessConfig (l : list cf_AccessLogConfig) : list api_AccessLog :=
  (λ c, mk_api_al (cal_LogPath c) (cal_LogFormat c)) <$> l.

Definition parseTLSConfig (t : cf_TLSConfig) : Go api_TLSConfig :=
  if negb (ct_Status t) then Ret no_tls
  else if (ct_VerifyClient t || ct_VerifyServer t) && bool_decide (ct_CACert t = ""%string) then fatal
  else Ret (mk_api_tls (ct_Status t) (ct_Inspector t) (ct_ServerName t) (ct_CACert t) (ct_CertChain t) (ct_PrivateKey t)
    (ct_VerifyClient t) (ct_VerifyServer t) (ct_CipherSuites t) (ct_EcdhCurves t) (ct_MinVersion t) (ct_MaxVersion t)
    (ct_ALPN t) (ct_Ticket t)).

Definition parseFilterChains (l : list cf_FilterChain) : Go (list api_FilterChain) :=
  mapM (λ fc,
    let filters := (λ f, mk_api_filter (cfc_Type f) (Some (cfc_Config f))) <$> cfch_Filters fc in
    tls ← parseTLSConfig (cfch_TLS fc);
    Ret (mk_api_chain (cfch_Match fc) tls filters)) l.

(** A socket is known by a number.  The listeners of the process before this one
    are [v2.ListenerConfig]s with an address and a socket; an entry is nil when its
    descriptor was none. *)
Record inherited := mk_inh { inh_Addr : TCPAddr; inh_Listener : nat; inh_Remain : bool }.
Record api_ListenerConfig := mk_api_listener {
  al_Name : string; al_Addr : option TCPAddr; al_BindToPort : bool; al_InheritListener : option nat;
  al_PerConnBufferLimitBytes : Z; al_LogPath : string; al_LogLevel : Z; al_AccessLogs : list api_AccessLog;
  al_HandOffRestoredDestinationConnections : bool; al_DisableConnIo : bool; al_FilterChains : list api_FilterChain;
}.

(** The loop over inherited listeners: the socket that is taken over, and the
    listeners after it was marked. *)
Fixpoint find_inherited (currentIP : option IP) (l : list (option inherited)) : Go (option nat * list (option inherited)) :=
  match l with
  | [] => Ret (None, [])
  | None :: _ => Panic NilDeref
  | Some il :: l =>
    if IP_Equal (ParseIP (TCPAddr_bytes (inh_Addr il))) currentIP
    then Ret (Some (inh_Listener il), Some (mk_inh (inh_Addr il) (inh_Listener il) true) :: l)
    else '(old, l) ← find_inherited currentIP l; Ret (old, Some il :: l)
  end.

Section listener.
  Context (resolve : string → option TCPAddr).

Definition ParseListenerConfig (c : cf_ListenerConfig) (inheritListeners : list (option inherited)) :
    Go (api_ListenerConfig * list (option inherited)) :=
  if bool_decide (cln_Name c = ""%string) then fatal
  else if bool_decide (cln_Address c = ""%string) then fatal
  else
  match resolve (cln_Address c) with
  | None => fatal
  | Some addr =>
    '(old, inheritListeners) ← find_inherited (ParseIP (TCPAddr_bytes addr)) inheritListeners;
    level ← parseLogLevel (cln_LogLevel c);
    chains ← parseFilterChains (cln_FilterChains c);
    Ret (mk_api_listener (cln_Name c) (Some addr) (cln_BindToPort c) old 32768 (cln_LogPath c) (to_uint8 (level_code level))
      (parseAccessConfig (cln_AccessLogs c)) (cln_HandOffRestoredDestinationConnections c) false chains, inheritListeners)
  end.
End listener.

(** ** Clusters *)

Definition clusterTypeMap (s : string) : option string :=
  if bool_decide (s = "SIMPLE"%string) then Some "SIMPLE"%string else if bool_decide (s = "DYNAMIC"%string) then Some "DYNAMIC"%string else None.
Definition lbTypeMap (s : string) : option string :=
  if bool_decide (s = "LB_RANDOM"%string) then Some "LB_RANDOM"%string else if bool_decide (s = "LB_ROUNDROBIN"%string) then Some "LB_ROUNDROBIN"%string else None.

Definition parseClusterHealthCheckConf (c : cf_HealthCheckConfig) : Go api_HealthCheck :=
  if bool_decide (chc_Protocol c = ""%string) then Ret no_health_check
  else if bool_decide (chc_Protocol c ∈ protocolsSupported) then
    Ret (mk_api_hc (chc_Protocol c) (chc_Timeout c) (chc_Interval c) (chc_IntervalJitter c) (chc_HealthyThreshold c)
      (chc_UnhealthyThreshold c) (chc_CheckPath c) (chc_ServiceName c))
  else fatal.

Definition parseCircuitBreakers (l : list (option cf_CircuitBreakerConfig)) : Go (list api_Thresholds) :=
  mapM (λ o, match o with
    | None => Panic NilDeref
    | Some c =>
      let rp := (if bool_decide (ToLower (ccb_Priority c) = "default") then "DEFAULT" else "HIGH")%string in
      Ret (mk_api_thr rp (ccb_MaxConnections c) (ccb_MaxPendingRequests c) (ccb_MaxRequests c) (ccb_MaxRetries c))
    end) l.

Definition parseConfigSpecConfig (subscribes : list string) : list string := subscribes.

Definition parseHostConfig (l : list cf_HostConfig) : Go (list api_Host) :=
  mapM (λ h, if bool_decide (ch_Address h = ""%string) then fatal
    else Ret (mk_api_host (ch_Address h) (ch_Hostname h) (ch_Weight h) (parseRouterMetadata (ch_MetaData h)))) l.

Definition parse_cluster (c : cf_ClusterConfig) : Go (api_Cluster * list api_Host) :=
  if bool_decide (cc_Name c = ""%string) then fatal
  else
  clusterType ← match clusterTypeMap (cc_Type c) with Some t => Ret t | None => fatal end;
  lbType ← match lbTypeMap (cc_LbType c) with Some t => Ret t | None => fatal end;
  let maxRequest := if bool_decide (cc_MaxRequestPerConn c = 0) then 1024 else cc_MaxRequestPerConn c in
  let bufferLimit := if bool_decide (cc_ConnBufferLimitBytes c = 0) then 16 * 1026 else cc_ConnBufferLimitBytes c in
  let lbs := cc_LBSubsetConfig c in
  if bool_decide (2 < cls_FallBackPolicy lbs) then Panic (UserPanic "lb subset config 's fall back policy set error.")
  else
  hc ← parseClusterHealthCheckConf (cc_HealthCheck c);
  cb ← parseCircuitBreakers (cc_CircuitBreakers c);
  tls ← parseTLSConfig (cc_TLS c);
  hosts ← parseHostConfig (cc_Hosts c);
  Ret (mk_api_cluster (cc_Name c) clusterType lbType maxRequest bufferLimit cb no_outlier_detection hc
         (parseConfigSpecConfig (cc_ClusterSpecConfig c))
         (mk_api_lbs (cls_FallBackPolicy lbs) (cls_DefaultSubset lbs) (cls_SubsetSelectors lbs)) tls [], hosts).

Fixpoint parse_clusters (l : list cf_ClusterConfig) (clustersV2 : list api_Cluster) (clusterV2Map : gmap string (list api_Host)) :
    Go (list api_Cluster * gmap string (list api_Host)) :=
  match l with
  | [] => Ret (clustersV2, clusterV2Map)
  | c :: l => '(c2, hosts) ← parse_cluster c; parse_clusters l (clustersV2 ++ [c2]) (<[cc_Name c := hosts]> clusterV2Map)
  end.

(** With the calls of callbacks. *)
Definition ParseClusterConfig (cbs : callbacks) (clusters : list cf_ClusterConfig) :
    Go (list api_Cluster * gmap string (list api_Host) * list cb_call) :=
  '(clustersV2, clusterV2Map) ← parse_clusters clusters [] ∅;
  Ret (clustersV2, clusterV2Map, (λ cb, CallClusters cb clustersV2 false) <$> default [] (cbs !! ParseCallbackKeyCluster)).

(** ** The registry of services *)

Definition ParseServiceRegistry (cbs : callbacks) (src : cf_ServiceRegistry) : list cb_call :=
  let app := csr_ServiceAppInfo src in
  let info := mk_api_sri (mk_api_app (cap_AntShareCloud app) (cap_DataCenter app) (cap_AppName app) "")
    ((λ p, mk_api_pub (cpb_ServiceName p) (cpb_PubData p)) <$> csr_ServicePubInfo src) in
  (λ cb, CallRegistry cb info true) <$> default [] (cbs !! ParseCallbackKeyServiceRgtInfo).
