(* ===== verification/ConfigStore.v ===== *)
(** * Changing the stored configuration: pkg/config/configmanager.go

    The configuration of the process, which is written back to its file after a
    change.  A state is the configuration and the calls of [dump]: whether each was
    told that there is something to write. *)

From S2P Require Import Prelude GoStrings ConfigTypes StateGo.

Local Open Scope Z_scope.

Record store := mk_store { st_config : MOSNConfig; st_dumps : list bool }.
Abbreviation M := (SG store).
Definition conf {A} (f : MOSNConfig → A) : M A := λ s, Ret (f (st_config s), s).
Definition mod_conf (f : MOSNConfig → MOSNConfig) : M unit := sg_modify (λ s, mk_store (f (st_config s)) (st_dumps s)).
Definition dump (dirty : bool) : M unit := sg_modify (λ s, mk_store (st_config s) (st_dumps s ++ [dirty])).

Definition set_cluster_list (l : list cf_ClusterConfig) (c : MOSNConfig) : MOSNConfig :=
  let m := mc_ClusterManager c in
  mk_mosn (mc_Servers c) (mk_cf_cm (ccm_AutoDiscovery m) (ccm_RegistryUseHealthCheck m) l) (mc_ServiceRegistry c)
    (mc_RawDynamicResources c) (mc_RawStaticResources c).
Definition set_registry (r : cf_ServiceRegistry) (c : MOSNConfig) : MOSNConfig :=
  mk_mosn (mc_Servers c) (mc_ClusterManager c) r (mc_RawDynamicResources c) (mc_RawStaticResources c).
Definition set_pubs (l : list cf_ServicePubInfo) (c : MOSNConfig) : MOSNConfig :=
  set_registry (mk_cf_sr (csr_ServiceAppInfo (mc_ServiceRegistry c)) l) c.
Definition cluster_list (c : MOSNConfig) : list cf_ClusterConfig := ccm_Clusters (mc_ClusterManager c).
Definition pubs (c : MOSNConfig) : list cf_ServicePubInfo := csr_ServicePubInfo (mc_ServiceRegistry c).

(** ** From pkg/api/v2 back to the file's structs *)

Definition convertClusterSpec (subscribes : list string) : list string := subscribes.

Definition convertClusterHealthCheck (c : api_HealthCheck) : cf_HealthCheckConfig :=
  mk_cf_hc (ahc_Protocol c) (ahc_Timeout c) (ahc_Interval c) (ahc_IntervalJitter c) (ahc_HealthyThreshold c)
    (ahc_HealthyThreshold c) (ahc_CheckPath c) (ahc_ServiceName c).

Definition no_cf_tls : cf_TLSConfig := mk_cf_tls false false "" "" "" "" false false "" "" "" "" "" "".
Definition no_cf_subset : cf_LBSubsetConfig := mk_cf_lbs 0 ∅ [].

(** The fields that are not named keep their zero values. *)
Definition convertClusterConfig (c : api_Cluster) : cf_ClusterConfig :=
  mk_cf_cluster (ac_Name c) (ac_ClusterType c) (ac_LbType c) (ac_MaxRequestPerConn c) (ac_ConnBufferLimitBytes c) []
    (convertClusterHealthCheck (ac_HealthCheck c)) (convertClusterSpec (ac_Spec c)) [] no_cf_subset no_cf_tls.

(** ** Clusters *)

(** The loop with its break: the first entry of the key is replaced, or the new one
    is appended. *)
Section entries.
  Context {A : Type} (key : A → string).
Fixpoint replace_first (x : A) (l : list A) : list A * bool :=
  match l with
  | [] => ([], false)
  | y :: l => if bool_decide (key y = key x) then (x :: l, true) else let '(l, e) := replace_first x l in (y :: l, e)
  end.
Definition put_entry (x : A) (l : list A) : list A :=
  let '(l, exist_) := replace_first x l in if exist_ then l else l ++ [x].
(** The first entry of the key is removed; whether there was one. *)
Fixpoint remove_entry (k : string) (l : list A) : list A * bool :=
  match l with
  | [] => ([], false)
  | y :: l => if bool_decide (key y = k) then (l, true) else let '(l, e) := remove_entry k l in (y :: l, e)
  end.
End entries.

Definition AddClusterConfig (clusters : list api_Cluster) : M unit :=
  _ ← mod_conf (λ c, set_cluster_list (fold_left (λ l cluster, put_entry cc_Name (convertClusterConfig cluster) l) clusters (cluster_list c)) c);
  dump true.

Fixpoint remove_names (names : list string) (l : list cf_ClusterConfig) (dirty : bool) : list cf_ClusterConfig * bool :=
  match names with
  | [] => (l, dirty)
  | n :: names => let '(l, removed) := remove_entry cc_Name n l in remove_names names l (dirty || removed)
  end.
Definition removeClusterConfig (clusterNames : list string) : M unit :=
  l ← conf cluster_list;
  let '(l, dirty) := remove_names clusterNames l false in
  _ ← mod_conf (set_cluster_list l);
  dump dirty.

(** ** Services *)

Definition ResetServiceRegistryInfo (appInfo : api_ApplicationInfo) (subServiceList : list string) : M unit :=
  _ ← mod_conf (set_registry (mk_cf_sr (mk_cf_app (aap_AntShareCloud appInfo) (aap_DataCenter appInfo) (aap_AppName appInfo)) []));
  removeClusterConfig subServiceList.

(** The map is ranged over in some order. *)
Definition AddPubInfo (pubInfoAdded : list (string * string)) : M unit :=
  _ ← mod_conf (λ c, set_pubs (fold_left (λ l '(name, data), put_entry cpb_ServiceName (mk_cf_pub name data) l) pubInfoAdded (pubs c)) c);
  dump true.

Definition DelPubInfo (serviceName : string) : M unit :=
  l ← conf pubs;
  let '(l, dirty) := remove_entry cpb_ServiceName serviceName l in
  _ ← mod_conf (set_pubs l);
  dump dirty.

(** ** Routes *)

(** Whether the list of routes has one of this name. *)
Definition route_named (name : string) (v : value) : bool :=
  match v with VMap m => match m !! "name"%string with Some (VStr n) => bool_decide (n = name) | _ => false end | _ => false end.

(** The loop over the listeners of the first server; a route of that name in one of
    them ends it. *)
Fixpoint add_route (routerName clusterName : string) (ls : list cf_ListenerConfig) : Go (list cf_ListenerConfig) :=
  match ls with
  | [] => Ret []
  | l :: ls =>
    match cln_FilterChains l with
    | fc :: fcs =>
      match cfch_Filters fc with
      | f :: fs =>
        match cfc_Config f !! "routes"%string with
        | Some (VList routers) =>
          if existsb (route_named routerName) routers then Ret (l :: ls)
          else
          let s := VMap (<["name"%string := VStr routerName]> (<["service"%string := VStr routerName]> {["cluster"%string := VStr clusterName]})) in
          let f := mk_cf_filter (cfc_Type f) (<["routes"%string := VList (routers ++ [s])]> (cfc_Config f)) in
          ls ← add_route routerName clusterName ls;
          Ret (mk_cf_listener (cln_Name l) (cln_Address l) (cln_BindToPort l) (mk_cf_chain (cfch_Match fc) (cfch_TLS fc) (f :: fs) :: fcs)
            (cln_StreamFilters l) (cln_LogPath l) (cln_LogLevel l) (cln_HandOffRestoredDestinationConnections l) (cln_AccessLogs l) :: ls)
        | _ => ls ← add_route routerName clusterName ls; Ret (l :: ls)
        end
      | [] => Panic SliceBounds
      end
    | [] => Panic SliceBounds
    end
  end.

(** The last eight characters of the cluster's name are cut off. *)
Definition AddRouterConfig (clusterName : string) : M unit :=
  if bool_decide (slen clusterName < 8)%nat then sg_panic SliceBounds
  else
  servers ← conf mc_Servers;
  match servers with
  | [] => sg_panic SliceBounds
  | srv :: servers =>
    ls ← sg_lift (add_route (str_take (slen clusterName - 8) clusterName) clusterName (cs_Listeners srv));
    mod_conf (λ c, mk_mosn (mk_cf_server (cs_DefaultLogPath srv) (cs_DefaultLogLevel srv) (cs_GracefulTimeout srv) (cs_Processor srv) ls :: servers)
      (mc_ClusterManager c) (mc_ServiceRegistry c) (mc_RawDynamicResources c) (mc_RawStaticResources c))
  end.
