(* ===== verification/ConfigProps.v ===== *)
(** * Theorems about the configuration

    What is accepted and what becomes of it ([Config]), and the stored configuration
    as a map ([ConfigStore]). *)

From Stdlib Require Import SpecFloat.
From S2P Require Import Prelude Strconv GoStrings GoTime GoNet StateGo ConfigTypes Config ConfigStore.

Local Open Scope Z_scope.

(** ** Durations in JSON *)

Lemma trim_front_keep s : (∀ c, head s = Some c → c ≠ quote) → trim_front s = s.
Proof. destruct s as [|c s]; [done|]. intros H. cbn. by rewrite bool_decide_false by (by apply H). Qed.
Lemma trim_quotes_wrapped s : (∀ c, head s = Some c → c ≠ quote) → (∀ c, last s = Some c → c ≠ quote) → s ≠ [] → trim_quotes ([quote] ++ s ++ [quote]) = s.
Proof.
  intros Hh Hl Hs. unfold trim_quotes. change ([quote] ++ s ++ [quote]) with (quote :: (s ++ [quote])). cbn [trim_front]. rewrite bool_decide_true by done.
  rewrite (trim_front_keep (s ++ [quote])) by (intros c; destruct s; [done|]; apply Hh). rewrite reverse_app. cbn. rewrite bool_decide_true by done.
  rewrite trim_front_keep; [apply reverse_involutive|]. intros c Hc. apply Hl. rewrite <- Hc. by rewrite head_reverse.
Qed.
Lemma last_app_s l : last (l ++ str_bytes "s") = Some (byte_of_Z 115).
Proof. apply (last_snoc (byte_of_Z 115)). Qed.
(** A duration is printed without quotation marks at its ends. *)
Lemma duration_ends d : ∃ l, str_bytes (duration_String d) = l ++ str_bytes "s".
Proof.
  unfold duration_String. set (u := Z.abs d). match goal with |- context [if bool_decide (d < 0) then (_ +:+ ?b)%string else _] => set (body := b) end.
  assert (∃ l, str_bytes body = l ++ str_bytes "s") as [l Hl].
  { subst body. case_bool_decide.
    - case_bool_decide; [by exists (str_bytes "0")|]. destruct (if bool_decide (u < 1000) then _ else _) as [prec t]. destruct (fmtFrac prec u) as [frac v].
      rewrite !str_bytes_app. eexists. by rewrite !app_assoc.
    - destruct (fmtFrac 9 u) as [frac v]. do 2 try case_bool_decide; rewrite !str_bytes_app; eexists; by rewrite !app_assoc. }
  case_bool_decide; [|eauto]. rewrite str_bytes_app, Hl. eexists. by rewrite app_assoc.
Qed.
Lemma ParseDuration_quote l : ParseDuration (bytes_str (quote :: l)) = None.
Proof. unfold ParseDuration. rewrite bytes_str_bytes. cbn [split_sign]. rewrite !(bool_decide_false (byte_to_Z quote = _)) by done. by rewrite !bool_decide_false. Qed.

(** C35. A duration written to a configuration file is read back from it: the text of
    every duration but the smallest of 64 bits unmarshals to that duration. *)
Theorem duration_json_roundtrip d : Z.abs d ≤ max_int64 → UnmarshalJSON (MarshalJSON d) = Some d.
Proof.
  intros Hd. pose proof (duration_round_trip d Hd) as Hrt. unfold UnmarshalJSON, MarshalJSON. destruct (duration_ends d) as [l Hl].
  rewrite trim_quotes_wrapped; [by rewrite str_bytes_str|..].
  - intros c Hc ->. rewrite <- (str_bytes_str (duration_String d)) in Hrt. destruct (str_bytes (duration_String d)) as [|c r]; [done|].
    injection Hc as ->. by rewrite ParseDuration_quote in Hrt.
  - intros c. rewrite Hl, last_app_s. by intros [= <-].
  - rewrite Hl. by destruct l.
Qed.

(** ** Accepting a configuration *)

Lemma mapM_Ret {A B} (f : A → Go B) (g : A → B) l : Forall (λ x, f x = Ret (g x)) l → mapM f l = Ret (g <$> l).
Proof. induction 1 as [|x l Hx _ IH]; [done|]. cbn. by rewrite Hx, IH. Qed.
Lemma mapM_Ret_inv {A B} (f : A → Go B) l k : mapM f l = Ret k → Forall (λ x, ∃ y, f x = Ret y) l.
Proof.
  revert k. induction l as [|x l IH]; intros k; [constructor|]. cbn. intros (y & Hy & (ys & Hys & _)%bind_Ret_inv)%bind_Ret_inv. constructor; eauto.
Qed.
Lemma parseRouterMetadata_id m : parseRouterMetadata m = m.
Proof.
  unfold parseRouterMetadata. apply (map_fold_weak_ind (λ r m, r = m)); [done|]. intros k v m' r Hk ->. done.
Qed.

Definition valid_tls (t : cf_TLSConfig) : Prop := ct_Status t = true → ct_VerifyClient t = true ∨ ct_VerifyServer t = true → ct_CACert t ≠ ""%string.
Definition tls_result (t : cf_TLSConfig) : api_TLSConfig :=
  if negb (ct_Status t) then no_tls
  else mk_api_tls (ct_Status t) (ct_Inspector t) (ct_ServerName t) (ct_CACert t) (ct_CertChain t) (ct_PrivateKey t)
    (ct_VerifyClient t) (ct_VerifyServer t) (ct_CipherSuites t) (ct_EcdhCurves t) (ct_MinVersion t) (ct_MaxVersion t) (ct_ALPN t) (ct_Ticket t).
Lemma parseTLSConfig_ok t : valid_tls t → parseTLSConfig t = Ret (tls_result t).
Proof.
  unfold valid_tls, parseTLSConfig, tls_result. destruct (ct_Status t); [|done]. cbn. intros H. case_bool_decide as Hc; [|by rewrite andb_false_r].
  rewrite andb_true_r. destruct (ct_VerifyClient t || ct_VerifyServer t) eqn:E; [|done]. apply orb_true_iff in E. by destruct H.
Qed.
Lemma parseTLSConfig_inv t r : parseTLSConfig t = Ret r → valid_tls t.
Proof.
  unfold parseTLSConfig. intros E Hs Hv Hc. rewrite Hs, Hc, bool_decide_true, andb_true_r in E by done. cbn in E.
  apply orb_true_iff in Hv. by rewrite Hv in E.
Qed.

(** What the parser asks of a cluster, and what it makes of it. *)
Record valid_cluster (c : cf_ClusterConfig) : Prop := mk_valid_cluster {
  vc_name : cc_Name c ≠ ""%string;
  vc_type : cc_Type c = "SIMPLE"%string ∨ cc_Type c = "DYNAMIC"%string;
  vc_lb : cc_LbType c = "LB_RANDOM"%string ∨ cc_LbType c = "LB_ROUNDROBIN"%string;
  vc_policy : cls_FallBackPolicy (cc_LBSubsetConfig c) ≤ 2;
  vc_check : chc_Protocol (cc_HealthCheck c) = ""%string ∨ chc_Protocol (cc_HealthCheck c) ∈ protocolsSupported;
  vc_breakers : Forall is_Some (cc_CircuitBreakers c);
  vc_tls : valid_tls (cc_TLS c);
  vc_hosts : Forall (λ h, ch_Address h ≠ ""%string) (cc_Hosts c);
}.
Definition check_result (c : cf_HealthCheckConfig) : api_HealthCheck :=
  if bool_decide (chc_Protocol c = ""%string) then no_health_check
  else mk_api_hc (chc_Protocol c) (chc_Timeout c) (chc_Interval c) (chc_IntervalJitter c) (chc_HealthyThreshold c) (chc_UnhealthyThreshold c) (chc_CheckPath c) (chc_ServiceName c).
Definition breaker_result (c : cf_CircuitBreakerConfig) : api_Thresholds :=
  mk_api_thr (if bool_decide (ToLower (ccb_Priority c) = "default") then "DEFAULT" else "HIGH")%string
    (ccb_MaxConnections c) (ccb_MaxPendingRequests c) (ccb_MaxRequests c) (ccb_MaxRetries c).
Definition host_result (h : cf_HostConfig) : api_Host := mk_api_host (ch_Address h) (ch_Hostname h) (ch_Weight h) (ch_MetaData h).
Definition cluster_result (c : cf_ClusterConfig) : api_Cluster :=
  let lbs := cc_LBSubsetConfig c in
  mk_api_cluster (cc_Name c) (cc_Type c) (cc_LbType c)
    (if bool_decide (cc_MaxRequestPerConn c = 0) then 1024 else cc_MaxRequestPerConn c)
    (if bool_decide (cc_ConnBufferLimitBytes c = 0) then 16416 else cc_ConnBufferLimitBytes c)
    (breaker_result <$> omap id (cc_CircuitBreakers c)) no_outlier_detection (check_result (cc_HealthCheck c)) (cc_ClusterSpecConfig c)
    (mk_api_lbs (cls_FallBackPolicy lbs) (cls_DefaultSubset lbs) (cls_SubsetSelectors lbs)) (tls_result (cc_TLS c)) [].

Lemma parseHostConfig_ok l : Forall (λ h, ch_Address h ≠ ""%string) l → parseHostConfig l = Ret (host_result <$> l).
Proof.
  intros H. apply mapM_Ret. eapply Forall_impl; [exact H|]. intros h Hh. cbn. rewrite bool_decide_false by done. unfold host_result. by rewrite parseRouterMetadata_id.
Qed.
Lemma parseCircuitBreakers_ok l : Forall is_Some l → parseCircuitBreakers l = Ret (breaker_result <$> omap id l).
Proof. unfold parseCircuitBreakers. induction 1 as [|o l [c ->] _ IH]; [done|]. cbn. by rewrite IH. Qed.
Lemma parse_cluster_ok c : valid_cluster c → parse_cluster c = Ret (cluster_result c, host_result <$> cc_Hosts c).
Proof.
  intros [Hn Ht Hlb Hp Hc Hb Htls Hh]. unfold parse_cluster, cluster_result. rewrite bool_decide_false by done.
  assert (clusterTypeMap (cc_Type c) = Some (cc_Type c)) as -> by (by destruct Ht as [-> | ->]).
  assert (lbTypeMap (cc_LbType c) = Some (cc_LbType c)) as -> by (by destruct Hlb as [-> | ->]). cbn [mbind Go_bind].
  rewrite (bool_decide_false (2 < _)) by lia.
  assert (parseClusterHealthCheckConf (cc_HealthCheck c) = Ret (check_result (cc_HealthCheck c))) as ->.
  { unfold parseClusterHealthCheckConf, check_result. case_bool_decide; [done|]. rewrite bool_decide_true by (by destruct Hc). done. }
  cbn [mbind Go_bind]. rewrite parseCircuitBreakers_ok, parseTLSConfig_ok, parseHostConfig_ok by done. done.
Qed.
Lemma parse_cluster_inv c r : parse_cluster c = Ret r → valid_cluster c.
Proof.
  unfold parse_cluster. case_bool_decide as Hn; [done|]. intros (t & Et & (lb & Elb & E)%bind_Ret_inv)%bind_Ret_inv. cbv zeta in E.
  case_bool_decide as Hp; [done|]. apply bind_Ret_inv in E as (hc & Ehc & (cb & Ecb & (tls & Etls & (hs & Ehs & _)%bind_Ret_inv)%bind_Ret_inv)%bind_Ret_inv).
  split; [done|..|lia| | | |].
  - unfold clusterTypeMap in Et. repeat case_bool_decide; naive_solver.
  - unfold lbTypeMap in Elb. repeat case_bool_decide; naive_solver.
  - unfold parseClusterHealthCheckConf in Ehc. repeat case_bool_decide; naive_solver.
  - apply mapM_Ret_inv in Ecb. eapply Forall_impl; [exact Ecb|]. intros [b|] [y Hy]; [eauto|done].
  - by eapply parseTLSConfig_inv.
  - apply mapM_Ret_inv in Ehs. eapply Forall_impl; [exact Ehs|]. intros h [y Hy]. by case_bool_decide.
Qed.

(** The hosts of a name are those of the last cluster of that name. *)
Definition host_map (l : list cf_ClusterConfig) (m : gmap string (list api_Host)) : gmap string (list api_Host) :=
  fold_left (λ m c, <[cc_Name c := host_result <$> cc_Hosts c]> m) l m.
Lemma parse_clusters_ok l cs m : Forall valid_cluster l → parse_clusters l cs m = Ret (cs ++ (cluster_result <$> l), host_map l m).
Proof.
  intros H. revert cs m. induction H as [|c l Hc _ IH]; intros cs m; [by rewrite app_nil_r|]. cbn [parse_clusters]. rewrite parse_cluster_ok by done. cbn.
  rewrite IH. by rewrite <- app_assoc.
Qed.
Lemma parse_clusters_inv l cs m r : parse_clusters l cs m = Ret r → Forall valid_cluster l.
Proof.
  revert cs m. induction l as [|c l IH]; intros cs m; [constructor|]. cbn [parse_clusters]. intros ([c2 hs] & Ec & E)%bind_Ret_inv.
  constructor; [by eapply parse_cluster_inv|by eapply IH].
Qed.

(** C39. The parser accepts a list of clusters exactly when each of them has a name, a
    known type and balancer, a fall-back policy, a health check of a known protocol or
    none, a certificate authority where peers are verified, and addresses for its
    hosts.  It then gives the clusters in order, with the defaults filled in, and for
    every name the hosts of the last cluster of that name; and it calls the
    registered callbacks with the clusters. *)
Theorem clusters_accepted cbs l :
  (∀ r, ParseClusterConfig cbs l = Ret r → Forall valid_cluster l) ∧
  (Forall valid_cluster l → ParseClusterConfig cbs l =
    Ret (cluster_result <$> l, host_map l ∅, (λ cb, CallClusters cb (cluster_result <$> l) false) <$> default [] (cbs !! ParseCallbackKeyCluster))).
Proof.
  unfold ParseClusterConfig. split.
  - intros r ([cs m] & E & _)%bind_Ret_inv. by eapply parse_clusters_inv.
  - intros H. by rewrite parse_clusters_ok.
Qed.

(** ** Listeners *)

Definition valid_level (s : string) : Prop := s = ""%string ∨ is_Some (logLevelMap s).
Definition level_result (s : string) : Level := default INFO (logLevelMap s).
Lemma parseLogLevel_ok s : valid_level s → parseLogLevel s = Ret (level_result s).
Proof.
  unfold parseLogLevel, level_result. intros [->|[l Hl]]; [done|]. case_bool_decide as E; [by subst|]. by rewrite Hl.
Qed.
Definition chain_result (fc : cf_FilterChain) : api_FilterChain :=
  mk_api_chain (cfch_Match fc) (tls_result (cfch_TLS fc)) ((λ f, mk_api_filter (cfc_Type f) (Some (cfc_Config f))) <$> cfch_Filters fc).
Lemma parseFilterChains_ok l : Forall (λ fc, valid_tls (cfch_TLS fc)) l → parseFilterChains l = Ret (chain_result <$> l).
Proof. intros H. apply mapM_Ret. eapply Forall_impl; [exact H|]. intros fc Hfc. cbn. by rewrite parseTLSConfig_ok. Qed.

Record valid_listener (resolve : string → option TCPAddr) (c : cf_ListenerConfig) (addr : TCPAddr) : Prop := mk_valid_listener {
  vl_name : cln_Name c ≠ ""%string; vl_address : cln_Address c ≠ ""%string; vl_resolves : resolve (cln_Address c) = Some addr;
  vl_level : valid_level (cln_LogLevel c); vl_tls : Forall (λ fc, valid_tls (cfch_TLS fc)) (cln_FilterChains c);
}.
Definition listener_result (c : cf_ListenerConfig) (addr : TCPAddr) (old : option nat) : api_ListenerConfig :=
  mk_api_listener (cln_Name c) (Some addr) (cln_BindToPort c) old 32768 (cln_LogPath c) (level_code (level_result (cln_LogLevel c)))
    (parseAccessConfig (cln_AccessLogs c)) (cln_HandOffRestoredDestinationConnections c) false (chain_result <$> cln_FilterChains c).

(** The addresses have ports, so they are no IP addresses, and two nil IP addresses
    are equal: the first socket is taken. *)
Definition taken (l : list (option inherited)) : option (option nat * list (option inherited)) :=
  match l with
  | [] => Some (None, [])
  | Some il :: l => Some (Some (inh_Listener il), Some (mk_inh (inh_Addr il) (inh_Listener il) true) :: l)
  | None :: _ => None
  end.
Lemma find_inherited_first addr l : find_inherited (ParseIP (TCPAddr_bytes addr)) l = match taken l with Some r => Ret r | None => Panic NilDeref end.
Proof.
  rewrite TCPAddr_not_IP. destruct l as [|[il|] l]; [done| |done]. cbn [find_inherited taken]. rewrite TCPAddr_not_IP. done.
Qed.

(** A listener's configuration with a name, an address that resolves, a level of
    logs and consistent TLS settings is accepted.  Whatever its address is, the
    listener takes over the first socket of the process before, if there is one. *)
Theorem listener_accepted resolve c addr l : valid_listener resolve c addr → ParseListenerConfig resolve c l =
  match taken l with Some (old, l') => Ret (listener_result c addr old, l') | None => Panic NilDeref end.
Proof.
  intros [Hn Ha Hr Hl Ht]. unfold ParseListenerConfig. rewrite !bool_decide_false by done. rewrite Hr, find_inherited_first.
  destruct (taken l) as [[old l']|]; [|done]. cbn. rewrite parseLogLevel_ok, parseFilterChains_ok by done. cbn. unfold listener_result. do 3 f_equal.
  unfold level_result. by destruct (default INFO (logLevelMap (cln_LogLevel c))).
Qed.

(** ** Callbacks *)


(** The first callback that was registered for a key, and no other. *)
Fixpoint first_of (key : ContentKey) (regs : list (ContentKey * nat)) : option nat :=
  match regs with [] => None | (k, cb) :: regs => if decide (k = key) then Some cb else first_of key regs end.
Lemma first_callback_only regs key m : m !! key = None →
  fold_left (λ m e, RegisterConfigParsedListener e.1 e.2 m) regs m !! key = (λ cb, [cb]) <$> first_of key regs.
Proof.
  assert (∀ regs m l, m !! key = Some l → fold_left (λ m e, RegisterConfigParsedListener e.1 e.2 m) regs m !! key = Some l) as Hkeep.
  { clear. induction regs as [|[k cb] regs IH]; intros m l Hm; [done|]. cbn [fold_left]. apply IH. unfold RegisterConfigParsedListener. cbn.
    destruct (m !! k) eqn:Hk; [done|]. rewrite lookup_insert_ne; [done|]. congruence. }
  revert m. induction regs as [|[k cb] regs IH]; intros m Hm; [done|]. cbn [fold_left first_of]. destruct (decide (k = key)) as [->|Hne].
  - apply Hkeep. unfold RegisterConfigParsedListener. cbn. rewrite Hm. apply lookup_insert_eq.
  - apply IH. unfold RegisterConfigParsedListener. cbn. destruct (m !! k); [done|]. by rewrite lookup_insert_ne.
Qed.

(** ** The stored configuration *)

Section entries.
  Context {A : Type} (key : A → string).
Definition as_map (l : list A) : gmap string A := list_to_map ((λ x, (key x, x)) <$> l).
Lemma as_map_cons x l : as_map (x :: l) = <[key x := x]> (as_map l).
Proof. done. Qed.
Lemma as_map_None k l : k ∉ key <$> l → as_map l !! k = None.
Proof. intros H. apply not_elem_of_list_to_map_1. by rewrite <- list_fmap_compose. Qed.
Lemma as_map_snoc x l : key x ∉ key <$> l → as_map (l ++ [x]) = <[key x := x]> (as_map l).
Proof.
  induction l as [|y l IH]; intros H; [done|]. cbn [app]. rewrite !as_map_cons, IH by set_solver.
  apply insert_insert_ne. set_solver.
Qed.

Lemma replace_first_spec x l : NoDup (key <$> l) → let '(l', e) := replace_first key x l in
  key <$> l' = key <$> l ∧ e = bool_decide (key x ∈ key <$> l) ∧ as_map l' = (if e then <[key x := x]> (as_map l) else as_map l).
Proof.
  induction l as [|y l IH]; [done|]. cbn [fmap list_fmap replace_first]. intros [Hy Hnd]%NoDup_cons. destruct (decide (key y = key x)) as [E|E].
  - rewrite (bool_decide_true (key y = key x)) by done. split_and!; [by rewrite E|by rewrite bool_decide_true by (rewrite E; left)|]. rewrite !as_map_cons, E, insert_insert_eq. done.
  - rewrite (bool_decide_false (key y = key x)) by done. destruct (replace_first key x l) as [l' e] eqn:El. destruct (IH Hnd) as (H1 & H2 & H3). split_and!; [cbn; by rewrite H1| |].
    + rewrite H2. apply bool_decide_ext. set_solver.
    + rewrite !as_map_cons, H3. destruct e; [|done]. apply insert_insert_ne. congruence.
Qed.
Lemma put_entry_spec x l : NoDup (key <$> l) → NoDup (key <$> put_entry key x l) ∧ as_map (put_entry key x l) = <[key x := x]> (as_map l).
Proof.
  intros Hnd. unfold put_entry. pose proof (replace_first_spec x l Hnd) as H. destruct (replace_first key x l) as [l' e]. destruct H as (H1 & H2 & H3).
  destruct e; [by rewrite H1|]. symmetry in H2. apply bool_decide_eq_false in H2. rewrite <- H1 in H2. split.
  - rewrite fmap_app. apply NoDup_app. split_and!; [by rewrite H1|set_solver|]. apply NoDup_singleton.
  - by rewrite as_map_snoc, H3.
Qed.
Lemma remove_entry_spec k l : NoDup (key <$> l) → let '(l', e) := remove_entry key k l in
  NoDup (key <$> l') ∧ (∀ z, z ∈ key <$> l' → z ∈ key <$> l) ∧ e = bool_decide (is_Some (as_map l !! k)) ∧ as_map l' = delete k (as_map l).
Proof.
  induction l as [|y l IH]; [intros _; cbn; split_and!; [constructor|done|by rewrite bool_decide_false by (by intros [? ?])|by rewrite delete_empty]|].
  cbn [fmap list_fmap remove_entry]. intros [Hy Hnd]%NoDup_cons. rewrite as_map_cons. destruct (decide (key y = k)) as [E|E].
  - rewrite (bool_decide_true (key y = k)) by done. subst k. split_and!; [done|intros z; rewrite elem_of_cons; auto|by rewrite lookup_insert_eq, bool_decide_true by eauto|]. rewrite delete_insert_id; [done|by apply as_map_None].
  - rewrite (bool_decide_false (key y = k)) by done. destruct (remove_entry key k l) as [l' e] eqn:El. destruct (IH Hnd) as (H1 & H2 & H3 & H4). split_and!.
    + cbn. constructor; [by intros ?%H2|done].
    + cbn. intros z. rewrite !elem_of_cons. naive_solver.
    + by rewrite lookup_insert_ne.
    + rewrite as_map_cons, H4. by rewrite delete_insert_ne.
Qed.
End entries.

(** The store as maps from names: to clusters and to published data; with the information
    about the application, and whether each change asked for the file to be written. *)
Record maps := mk_maps { mp_clusters : gmap string cf_ClusterConfig; mp_pubs : gmap string cf_ServicePubInfo; mp_app : cf_ServiceAppInfo; mp_dumps : list bool }.
Inductive sop :=
  | SAddClusters (l : list api_Cluster) | SReset (app : api_ApplicationInfo) (names : list string)
  | SAddPubs (l : list (string * string)) | SDelPub (name : string).
Definition run_sop (o : sop) : SG store unit :=
  match o with
  | SAddClusters l => AddClusterConfig l | SReset app names => ResetServiceRegistryInfo app names
  | SAddPubs l => AddPubInfo l | SDelPub n => DelPubInfo n
  end.
Fixpoint run_sops (l : list sop) : SG store unit := match l with [] => mret tt | o :: l => _ ← run_sop o; run_sops l end.

Definition spec_sop (o : sop) (m : maps) : maps :=
  match o with
  | SAddClusters l => mk_maps (fold_left (λ m c, <[ac_Name c := convertClusterConfig c]> m) l (mp_clusters m)) (mp_pubs m) (mp_app m) (mp_dumps m ++ [true])
  | SReset app names =>
    mk_maps (fold_left (λ m n, delete n m) names (mp_clusters m)) ∅ (mk_cf_app (aap_AntShareCloud app) (aap_DataCenter app) (aap_AppName app))
      (mp_dumps m ++ [bool_decide (Exists (λ n, is_Some (mp_clusters m !! n)) names)])
  | SAddPubs l => mk_maps (mp_clusters m) (fold_left (λ m e, <[e.1 := mk_cf_pub e.1 e.2]> m) l (mp_pubs m)) (mp_app m) (mp_dumps m ++ [true])
  | SDelPub n => mk_maps (mp_clusters m) (delete n (mp_pubs m)) (mp_app m) (mp_dumps m ++ [bool_decide (is_Some (mp_pubs m !! n))])
  end.
Definition store_ok (s : store) : Prop := NoDup (cc_Name <$> cluster_list (st_config s)) ∧ NoDup (cpb_ServiceName <$> pubs (st_config s)).
Definition maps_of (s : store) : maps := mk_maps (as_map cc_Name (cluster_list (st_config s))) (as_map cpb_ServiceName (pubs (st_config s)))
  (csr_ServiceAppInfo (mc_ServiceRegistry (st_config s))) (st_dumps s).

Lemma put_all_spec {A B} (key : A → string) (f : B → A) l l0 : NoDup (key <$> l0) →
  NoDup (key <$> fold_left (λ l x, put_entry key (f x) l) l l0) ∧
  as_map key (fold_left (λ l x, put_entry key (f x) l) l l0) = fold_left (λ m x, <[key (f x) := f x]> m) l (as_map key l0).
Proof.
  revert l0. induction l as [|x l IH]; intros l0 Hnd; [done|]. cbn [fold_left]. destruct (put_entry_spec key (f x) l0 Hnd) as [H1 H2].
  destruct (IH _ H1) as [H3 H4]. by rewrite H4, H2.
Qed.
Lemma remove_names_spec names l d : NoDup (cc_Name <$> l) → let '(l', e) := remove_names names l d in
  NoDup (cc_Name <$> l') ∧ as_map cc_Name l' = fold_left (λ m n, delete n m) names (as_map cc_Name l) ∧
  e = d || bool_decide (Exists (λ n, is_Some (as_map cc_Name l !! n)) names).
Proof.
  revert l d. induction names as [|n names IH]; intros l d Hnd.
  { cbn. split_and!; [done..|by rewrite orb_false_r]. }
  cbn [remove_names fold_left]. pose proof (remove_entry_spec cc_Name n l Hnd) as H. destruct (remove_entry cc_Name n l) as [l1 r]. destruct H as (H1 & _ & H3 & H4).
  specialize (IH l1 (d || r) H1). destruct (remove_names names l1 (d || r)) as [l' e]. destruct IH as (I1 & I2 & I3). split_and!; [done|by rewrite I2, H4|].
  rewrite I3, H3, H4, <- orb_assoc. f_equal. apply eq_bool_prop_intro. rewrite orb_True, !bool_decide_spec, Exists_cons.
  destruct (decide (is_Some (as_map cc_Name l !! n))) as [Hs|Hs]; [naive_solver|].
  rewrite delete_id by (by apply eq_None_not_Some). done.
Qed.

Lemma run_sop_refines o s : store_ok s → ∃ s', run_sop o s = Ret (tt, s') ∧ store_ok s' ∧ maps_of s' = spec_sop o (maps_of s).
Proof.
  destruct s as [c d]. intros [Hc Hp]. destruct o as [l|app names|l|n]; cbn [run_sop].
  - destruct (put_all_spec cc_Name convertClusterConfig l _ Hc) as [H1 H2]. eexists. split; [reflexivity|]. split; [by split|]. unfold maps_of, spec_sop. f_equal. exact H2.
  - pose proof (remove_names_spec names (cluster_list c) false Hc) as H. destruct (remove_names names (cluster_list c) false) as [l' e] eqn:E. destruct H as (H1 & H2 & H3).
    eexists. split.
    + unfold ResetServiceRegistryInfo, removeClusterConfig. eapply sg_run; [reflexivity|]. eapply sg_run; [reflexivity|]. cbn [st_config]. change (cluster_list (set_registry _ c)) with (cluster_list c).
      rewrite E. reflexivity.
    + split; [split; [exact H1|constructor]|]. unfold maps_of, spec_sop. f_equal; [exact H2|]. cbn. by rewrite H3.
  - destruct (put_all_spec cpb_ServiceName (λ e : string * string, mk_cf_pub e.1 e.2) l _ Hp) as [H1 H2].
    assert (∀ p, fold_left (λ l '(name, data), put_entry cpb_ServiceName (mk_cf_pub name data) l) l p = fold_left (λ l e, put_entry cpb_ServiceName (mk_cf_pub e.1 e.2) l) l p) as Hl.
    { clear. induction l as [|[n v] l IH]; [done|]. intros p. cbn. apply IH. }
    cbn [st_config] in *. rewrite <- Hl in H1, H2. eexists. split.
    + unfold AddPubInfo. eapply sg_run; [reflexivity|]. reflexivity.
    + split; [split; [exact Hc|exact H1]|]. unfold maps_of, spec_sop. f_equal. exact H2.
  - pose proof (remove_entry_spec cpb_ServiceName n (pubs c) Hp) as H. destruct (remove_entry cpb_ServiceName n (pubs c)) as [l' e] eqn:E. destruct H as (H1 & _ & H3 & H4).
    eexists. split.
    + unfold DelPubInfo. eapply sg_run; [reflexivity|]. cbn [st_config]. rewrite E. reflexivity.
    + split; [split; [exact Hc|exact H1]|]. unfold maps_of, spec_sop. f_equal; [exact H4|]. cbn. by rewrite H3.
Qed.

(** C26. The stored configuration is a map of clusters and a map of published services,
    by name, and the information about the application: from a configuration in which no
    two clusters and no two services have the same name, any sequence of additions, resets
    and deletions keeps it so and leaves what the maps say.  The file is asked to be
    written after an addition and after the deletion of a published service that there
    was, but after a reset, which forgets all published services and changes the
    information about the application, only when one of its clusters was removed
    ([reset_not_written]). *)
Theorem store_refines_maps l s : store_ok s →
  ∃ s', run_sops l s = Ret (tt, s') ∧ store_ok s' ∧ maps_of s' = fold_left (λ m o, spec_sop o m) l (maps_of s).
Proof.
  revert s. induction l as [|o l IH]; intros s Hs; [by exists s|]. destruct (run_sop_refines o s Hs) as (s1 & E1 & H1 & M1). destruct (IH s1 H1) as (s2 & E2 & H2 & M2).
  exists s2. split_and!; [|done|by rewrite M2, M1]. cbn [run_sops]. by eapply sg_run; [exact E1|].
Qed.

(** What is left of a cluster that was stored and is read again, when its type is one
    the parser knows: its name, types, limits and subscriptions, and a health check whose
    unhealthy threshold is the healthy one; no hosts, subsets, circuit breakers or TLS.
    The parser refuses clusters of other types, so a stored EDS cluster ends the next
    start. *)
Theorem stored_cluster_reloads c hs : ac_Name c ≠ ""%string →
  ahc_Protocol (ac_HealthCheck c) ∈ protocolsSupported → ac_LbType c = "LB_RANDOM"%string ∨ ac_LbType c = "LB_ROUNDROBIN"%string →
  (parse_cluster (convertClusterConfig c) = Ret hs → ac_ClusterType c = "SIMPLE"%string ∨ ac_ClusterType c = "DYNAMIC"%string) ∧
  (ac_ClusterType c = "SIMPLE"%string ∨ ac_ClusterType c = "DYNAMIC"%string → parse_cluster (convertClusterConfig c) =
    Ret (mk_api_cluster (ac_Name c) (ac_ClusterType c) (ac_LbType c)
      (if bool_decide (ac_MaxRequestPerConn c = 0) then 1024 else ac_MaxRequestPerConn c)
      (if bool_decide (ac_ConnBufferLimitBytes c = 0) then 16416 else ac_ConnBufferLimitBytes c) [] no_outlier_detection
      (let h := ac_HealthCheck c in mk_api_hc (ahc_Protocol h) (ahc_Timeout h) (ahc_Interval h) (ahc_IntervalJitter h)
        (ahc_HealthyThreshold h) (ahc_HealthyThreshold h) (ahc_CheckPath h) (ahc_ServiceName h))
      (ac_Spec c) (mk_api_lbs 0 ∅ []) no_tls [], [])).
Proof.
  intros Hn Hp Hlb. split; [by intros [_ Ht _ _ _ _ _ _]%parse_cluster_inv|]. intros Ht. rewrite parse_cluster_ok.
  - unfold cluster_result, check_result. cbn. rewrite (bool_decide_false (ahc_Protocol _ = _)); [done|]. intros E. rewrite E in Hp. by vm_compute in Hp.
  - split; cbn; try done. by right.
Qed.

(** ** Witnesses and examples *)

Lemma duration_json_roundtrip_witness : Z.abs 1500000000 ≤ max_int64 ∧ UnmarshalJSON (MarshalJSON 1500000000) = Some 1500000000.
Proof. split; [vm_compute; discriminate|]. apply (duration_json_roundtrip 1500000000). vm_compute. discriminate. Defined.
(** The smallest duration is printed and not read. *)
Example smallest_duration_lost : UnmarshalJSON (MarshalJSON (- 2 ^ 63)) = None.
Proof. vm_compute. reflexivity. Qed.

Definition empty_config : MOSNConfig := mk_mosn [] (mk_cf_cm false false []) (mk_cf_sr (mk_cf_app false "" "") []) [] [].
Definition simple_cluster (name : string) : api_Cluster :=
  mk_api_cluster name "SIMPLE" "LB_RANDOM" 100 100 [] no_outlier_detection (mk_api_hc "SofaRpc" 1 1 1 3 5 "" "") [] (mk_api_lbs 0 ∅ []) no_tls [mk_api_host "10.0.0.1:80" "" 1 ∅].
Lemma store_refines_maps_witness : ∃ s, run_sops [SAddClusters [simple_cluster "a"; simple_cluster "b"; simple_cluster "a"]; SDelPub "x"; SReset (mk_api_app false "" "" "") ["a"%string]]
    (mk_store empty_config []) = Ret (tt, s) ∧ dom (mp_clusters (maps_of s)) = {["b"%string]} ∧ st_dumps s = [true; false; true].
Proof.
  destruct (store_refines_maps [SAddClusters [simple_cluster "a"; simple_cluster "b"; simple_cluster "a"]; SDelPub "x"; SReset (mk_api_app false "" "" "") ["a"%string]]
    (mk_store empty_config [])) as (s & E & _ & Hm); [split; constructor|]. exists s. split; [exact E|]. split; [rewrite Hm; vm_compute; reflexivity|].
  change (st_dumps s) with (mp_dumps (maps_of s)). rewrite Hm. vm_compute. reflexivity.
Defined.
(** A reset that forgets a service and changes the application is not written. *)
Example reset_not_written :
  match run_sops [SAddPubs [("a", "1")]; SReset (mk_api_app false "dc" "app" "") []]%string (mk_store empty_config []) with
  | Ret (_, s) => pubs (st_config s) = [] ∧ csr_ServiceAppInfo (mc_ServiceRegistry (st_config s)) = mk_cf_app false "dc" "app" ∧ st_dumps s = [true; false]
  | Panic _ => False
  end.
Proof. vm_compute. done. Qed.
(** The stored health check has lost its unhealthy threshold. *)
Example threshold_lost : chc_UnhealthyThreshold (cc_HealthCheck (convertClusterConfig (simple_cluster "a"))) = 3.
Proof. reflexivity. Qed.
(** A second callback for a key is never called. *)
Example second_callback_lost :
  ParseServiceRegistry (RegisterConfigParsedListener ParseCallbackKeyServiceRgtInfo 2 (RegisterConfigParsedListener ParseCallbackKeyServiceRgtInfo 1 ∅)) (mk_cf_sr (mk_cf_app false "dc" "app") []) =
  [CallRegistry 1 (mk_api_sri (mk_api_app false "dc" "app" "") []) true].
Proof. reflexivity. Qed.
(** Adding a route for a cluster whose name has less than eight characters panics. *)
Example short_name_panics : AddRouterConfig "orders" (mk_store empty_config []) = Panic SliceBounds.
Proof. reflexivity. Qed.
