(* ===== verification/Startup.v ===== *)
(** * Starting from a configuration: src/cmd/mosn/starter.go

    [NewMosn]: the clusters of the configuration go into a cluster manager per
    server, the listeners into the server's handler, with the proxy that the
    listener's filter chain configures.  What comes from outside are the parameters of
    [Config], the balancer of [ClusterManager], the order [range_hosts] in which a
    map is ranged over, and the files of [Logger].

    A listener's filter factory is known by its place among the proxies that were
    configured. *)

From S2P Require Import Prelude Strconv GoStrings GoTime GoNet Cluster StateGo ClusterHosts ClusterManager ConfigTypes Config Logger Handler.

Local Open Scope Z_scope.

(** ** What the other components see of the configuration's structs *)

Definition cluster_type (s : string) : ClusterType :=
  if bool_decide (s = "STATIC"%string) then STATIC_CLUSTER else if bool_decide (s = "SIMPLE"%string) then SIMPLE_CLUSTER
  else if bool_decide (s = "DYNAMIC"%string) then DYNAMIC_CLUSTER else if bool_decide (s = "EDS"%string) then EDS_CLUSTER else OtherClusterType.
Definition balancer_type (s : string) : LbType :=
  if bool_decide (s = "LB_RANDOM"%string) then LB_RANDOM else if bool_decide (s = "LB_ROUNDROBIN"%string) then LB_ROUNDROBIN else OtherLbType.
(** [CreateHealthCheck] of healthcheck/factory.go; a cluster without protocol has
    no check. *)
Definition check_protocol (s : string) : hc_protocol :=
  if bool_decide (s = ""%string) then HcNone else if bool_decide (s = "SofaRpc"%string) then HcSofaRPC
  else if bool_decide (s = "Http2"%string) then HcHTTP2 else HcUnknown.
Definition cluster_of (c : api_Cluster) : v2_Cluster :=
  mk_v2 (ac_Name c) (cluster_type (ac_ClusterType c)) (balancer_type (ac_LbType c)) (check_protocol (ahc_Protocol (ac_HealthCheck c))).

(** Only strings are kept. *)
Definition GenerateHostMetadata (metadata : Metadata) : gmap string string :=
  omap (λ v, match v with VStr s => Some s | _ => None end) metadata.
Definition host_config_of (h : api_Host) : Host_config :=
  mk_hc (ah_Address h) (ah_Hostname h) (ah_Weight h) (GenerateHostMetadata (ah_MetaData h)).
Definition host_configs_of (e : string * list api_Host) : string * list Host_config := (e.1, host_config_of <$> e.2).

Definition access_log_config (c : api_AccessLog) : AccessLogConfig := mk_alc (aal_Path c) (aal_Format c).
(** [Addr] is an interface; a nil one panics when its text is asked for. *)
Definition listener_of (lc : api_ListenerConfig) : Go ListenerConfig :=
  match al_Addr lc with
  | Some a => Ret (mk_lc (al_Name lc) "tcp" (TCPAddr_String a) (al_BindToPort lc) 0 (al_PerConnBufferLimitBytes lc)
      (al_HandOffRestoredDestinationConnections lc) (bool_decide (is_Some (al_InheritListener lc))) (al_DisableConnIo lc)
      (al_LogPath lc) (al_LogLevel lc) (access_log_config <$> al_AccessLogs lc))
  | None => Panic NilDeref
  end.

(** ** Filters *)

Definition DEFAULT_NETWORK_FILTER : string := "proxy".

Inductive stream_factory := FaultInjectFactory (c : api_FaultInject) | HealthCheckFactory (c : api_HealthCheckFilter).
(** The creators that are registered; a parser ends the process where it refuses. *)
Definition CreateStreamFilterChainFactory (filterType : string) (config : gmap string value) : Go stream_factory :=
  if bool_decide (filterType = "fault_inject"%string) then c ← ParseFaultInjectFilter config; Ret (FaultInjectFactory c)
  else if bool_decide (filterType = "healthcheck"%string) then c ← ParseHealthcheckFilter config; Ret (HealthCheckFactory c)
  else fatal.
Definition getStreamFilters (configs : list cf_FilterConfig) : Go (list stream_factory) :=
  mapM (λ c, CreateStreamFilterChainFactory (cfc_Type c) (cfc_Config c)) configs.

Section startup.
  Context {L Ctx : Type} `{!Balancer L Ctx} (grow : nat → nat).
  Context (decode_proxy : option (gmap string value) → option (option cf_Proxy)) (resolve : string → option TCPAddr).
  Context (range_hosts : gmap string (list api_Host) → list (string * list api_Host)) (e : log_env).

Definition getNetworkFilter (c : api_FilterChain) : Go api_Proxy :=
  match afc_Filters c with
  | [f] => if bool_decide (af_Name f = DEFAULT_NETWORK_FILTER) then ParseProxyFilterJSON decode_proxy f else fatal
  | _ => fatal
  end.

(** ** The state while servers are made *)

Definition MosnLogDefaultPath : string := MosnLogBasePath +:+ "/mosn.log".
Definition server_log_path (sc : server_Config) : string :=
  if bool_decide (sc_LogPath sc = ""%string) then MosnLogDefaultPath else sc_LogPath sc.
Definition InitDefaultLogger (sc : server_Config) : SG logs unit :=
  err ← Logger.InitDefaultLogger e (server_log_path sc) (level_code (sc_LogLevel sc));
  match err with Some _ => sg_lift fatal | None => mret tt end.

(** A server with its cluster manager, and for each of its listeners' factories the
    proxy and the stream filters; a listener that only hands connections off has none. *)
Record mosn_server := mk_ms { ms_server : server; ms_manager : clusterManager L; ms_factories : list (option (api_Proxy * list stream_factory)) }.
Record Mosn := mk_mosn_proc { servers : list mosn_server; closed_sockets : list nat; transfer_timeout : Z; parsed_calls : list cb_call;
  streamFilter : option (list stream_factory); mosn_logs : logs }.

Definition set_DisableConnIo (b : bool) (lc : api_ListenerConfig) : api_ListenerConfig :=
  mk_api_listener (al_Name lc) (al_Addr lc) (al_BindToPort lc) (al_InheritListener lc) (al_PerConnBufferLimitBytes lc) (al_LogPath lc)
    (al_LogLevel lc) (al_AccessLogs lc) (al_HandOffRestoredDestinationConnections lc) b (al_FilterChains lc).

(** One listener of a server. *)
Definition add_listener (c : cf_ListenerConfig) (s : mosn_server) (inherit : list (option inherited))
    : SG logs (mosn_server * list (option inherited)) := λ lg,
  '(lc, inherit) ← ParseListenerConfig resolve c inherit;
  chain ← match al_FilterChains lc with fc :: _ => Ret fc | [] => Panic SliceBounds end;
  proxy ← getNetworkFilter chain;
  let is_http := bool_decide (ap_DownstreamProtocol proxy = "Http2"%string) || bool_decide (ap_DownstreamProtocol proxy = "Http1"%string) in
  let lc := if is_http then set_DisableConnIo true lc else lc in
  l ← listener_of lc;
  factory ← (if al_HandOffRestoredDestinationConnections lc then Ret None else sfcf ← getStreamFilters (cln_StreamFilters c); Ret (Some (proxy, sfcf)));
  '(_, (lg, srv)) ← srv_AddListener e l (length (ms_factories s)) (lg, ms_server s);
  Ret ((mk_ms srv (ms_manager s) (ms_factories s ++ [factory]), inherit), lg).
Fixpoint add_listeners (l : list cf_ListenerConfig) (s : mosn_server) (inherit : list (option inherited))
    : SG logs (mosn_server * list (option inherited)) :=
  match l with
  | [] => mret (s, inherit)
  | c :: l => '(s, inherit) ← add_listener c s inherit; add_listeners l s inherit
  end.

(** [NewServer] sets the time a shutdown may take, when one is configured. *)
Definition set_graceful (sc : server_Config) (timeout : Z) : Z :=
  if bool_decide (sc_GracefulTimeout sc = 0) then timeout else sc_GracefulTimeout sc.
Definition new_server (logger : option nat) : server := mk_srv false ∅ (NewHandler logger).

Definition make_server (clusters : list api_Cluster) (clusterMap : gmap string (list api_Host)) (c : cf_ServerConfig)
    (timeout : Z) (inherit : list (option inherited)) : SG logs (mosn_server * Z * list (option inherited)) :=
  sc ← sg_lift (ParseServerConfig c);
  _ ← InitDefaultLogger sc;
  cm ← sg_lift (NewClusterManager (Ctx := Ctx) grow (cluster_of <$> clusters) (host_configs_of <$> range_hosts clusterMap));
  lg ← sg_get;
  if bool_decide (cs_Listeners c = []) then sg_lift fatal
  else
  '(s, inherit) ← add_listeners (cs_Listeners c) (mk_ms (new_server (lg_Default lg)) cm []) inherit;
  mret (s, set_graceful sc timeout, inherit).
Fixpoint make_servers (clusters : list api_Cluster) (clusterMap : gmap string (list api_Host)) (l : list cf_ServerConfig)
    (timeout : Z) (inherit : list (option inherited)) : SG logs (list mosn_server * Z * list (option inherited)) :=
  match l with
  | [] => mret ([], timeout, inherit)
  | c :: l =>
    '(s, timeout, inherit) ← make_server clusters clusterMap c timeout inherit;
    '(ss, timeout, inherit) ← make_servers clusters clusterMap l timeout inherit;
    mret (s :: ss, timeout, inherit)
  end.

(** The sockets that no listener took over are closed. *)
Fixpoint close_legacy (l : list (option inherited)) : Go (list nat) :=
  match l with
  | [] => Ret []
  | None :: _ => Panic NilDeref
  | Some ln :: l => c ← close_legacy l; Ret (if inh_Remain ln then c else inh_Listener ln :: c)
  end.

(** [SetGlobalStreamFilter] is called for every listener with a proxy, and keeps the
    first stream filters there are. *)
Definition global_filters (l : list (option (api_Proxy * list stream_factory))) : option (list stream_factory) :=
  fold_left (λ g f, match g, f with None, Some (_, _ :: _ as fs) => Some fs | _, _ => g end) l None.

Definition default_graceful : Z := 30 * 1000000000.

Definition NewMosn (cbs : callbacks) (c : MOSNConfig) (inheritListeners : list (option inherited)) (lg : logs) : Go Mosn :=
  match config_Mode c with
  | XdsMode => fatal
  | _ =>
    if bool_decide (ccm_Clusters (mc_ClusterManager c) = []) then fatal
    else
    '(clusters, clusterMap, calls) ← ParseClusterConfig cbs (ccm_Clusters (mc_ClusterManager c));
    '((ss, timeout, inherit), lg) ← make_servers clusters clusterMap (mc_Servers c) default_graceful inheritListeners lg;
    let calls2 := ParseServiceRegistry cbs (mc_ServiceRegistry c) in
    closed ← close_legacy inherit;
    (* the transfer server gets the first server's handler *)
    if bool_decide (ss = []) then Panic SliceBounds
    else Ret (mk_mosn_proc ss closed timeout (calls ++ calls2) (global_filters (ss ≫= ms_factories)) lg)
  end.

Fixpoint Mosn_Close (l : list mosn_server) : Go (list mosn_server) :=
  match l with
  | [] => Ret []
  | s :: l => '(_, srv) ← srv_Close (ms_server s); l ← Mosn_Close l; Ret (mk_ms srv (ms_manager s) (ms_factories s) :: l)
  end.
End startup.

(** ** Sockets of the process before *)

(** [file_listener fd] is the address of the TCP listener with that descriptor, if there
    is one; the descriptors that are passed on begin at 3.  A slice of more than 2^45
    pointers cannot be made. *)
Definition getInheritListeners (getenv : string → string) (file_listener : nat → option TCPAddr) : Go (list (option inherited)) :=
  if bool_decide (getenv "_MOSN_GRACEFUL_RESTART" = "true"%string) then
    let count := Atoi (getenv "_MOSN_INHERIT_FD") in
    if bool_decide (0 ≤ count ≤ 2 ^ 45)
    then Ret ((λ idx, (λ a, mk_inh a (3 + idx)%nat false) <$> file_listener (3 + idx)%nat) <$> seq 0 (Z.to_nat count))
    else Panic SliceBounds
  else Ret [].
Arguments mosn_server L : clear implicits.
Arguments Mosn L : clear implicits.
