(* ===== verification/StartupProps.v ===== *)
(** * Theorems about starting from a configuration *)

From S2P Require Import Prelude Strconv GoStrings GoTime GoNet Cluster StateGo ClusterHosts ClusterHostsProps ClusterManager ClusterManagerProps ConfigTypes Config ConfigStore ConfigProps AccessLog Logger LoggerProps Handler Startup.

Local Open Scope Z_scope.

(** ** A new cluster manager *)

Section manager.
  Context {L Ctx : Type} `{!Balancer L Ctx} `{!BalancerLaws L Ctx} (grow : nat → nat).

Lemma add_clusters_ok l (m : clusterManager L) : Forall (λ c, known_check c = true ∧ supported c = true) l → manager_ok m →
  ∃ m', add_clusters l m = Ret (tt, m') ∧ manager_ok m' ∧ abstraction m' = fold_left (λ r c, <[cl_Name c := ∅]> r) l (abstraction m).
Proof.
  intros Hl. revert m. induction Hl as [|c l [Hk Hs] _ IH]; intros m Hm; [by exists m|]. destruct (run_add c m (known_creatable c Hk) Hm) as (m1 & E1 & H1 & A1).
  destruct (IH m1 H1) as (m2 & E2 & H2 & A2). exists m2. split_and!; [|done|].
  - cbn [add_clusters]. by eapply sg_run; [exact E1|].
  - rewrite A2, A1. unfold spec_add. by rewrite Hs.
Qed.
Lemma add_cluster_hosts_ok l (m : clusterManager L) : Forall (λ e, is_Some (abstraction m !! e.1)) l → manager_ok m →
  ∃ m', add_cluster_hosts grow l m = Ret (tt, m') ∧ manager_ok m' ∧ abstraction m' = fold_left (λ r e, <[e.1 := list_to_set (hc_Address <$> e.2)]> r) l (abstraction m).
Proof.
  revert m. induction l as [|[n hs] l IH]; intros m Hl Hm; [by exists m|]. apply Forall_cons in Hl as [[x Hx] Hl].
  destruct (run_hosts grow n hs m Hm) as (m1 & E1 & H1 & A1). unfold spec_hosts in A1. cbn in Hx. rewrite Hx in A1. cbn in A1.
  destruct (IH m1) as (m2 & E2 & H2 & A2); [|done|].
  { rewrite A1. eapply Forall_impl; [exact Hl|]. intros [n' hs'] Hn'. cbn. apply lookup_insert_is_Some. destruct (decide (n = n')); auto. }
  exists m2. split_and!; [|done|by rewrite A2, A1]. cbn [add_cluster_hosts]. by eapply sg_run; [exact E1|].
Qed.

Lemma fold_left_fmap {A B C} (f : A → B) (g : C → B → C) l r : fold_left g (f <$> l) r = fold_left (λ r x, g r (f x)) l r.
Proof. revert r. induction l as [|x l IH]; intros r; [done|]. apply IH. Qed.
Lemma fold_left_ext {B C} (g h : C → B → C) l r : (∀ r x, g r x = h r x) → fold_left g l r = fold_left h l r.
Proof. intros H. revert r. induction l as [|x l IH]; intros r; [done|]. cbn. rewrite H. apply IH. Qed.
Lemma fold_insert_list {A B} (f : A → B) (l : list (string * A)) (r : gmap string B) : NoDup l.*1 →
  fold_left (λ r e, <[e.1 := f e.2]> r) l r = (f <$> (list_to_map l : gmap string A)) ∪ r.
Proof.
  revert r. induction l as [|[k a] l IH]; intros r Hnd; [cbn; by rewrite fmap_empty, map_empty_union|]. apply NoDup_cons in Hnd as [Hk Hnd].
  cbn [fold_left list_to_map foldr uncurry]. rewrite IH by done. cbn. rewrite fmap_insert, <- insert_union_l. rewrite insert_union_r; [done|].
  rewrite lookup_fmap, not_elem_of_list_to_map_1 by done. done.
Qed.
Lemma fold_names_dom {A B} (name : A → string) (v : B) (l : list A) r k : is_Some (fold_left (λ r c, <[name c := v]> r) l r !! k : option B) ↔ (k ∈ name <$> l) ∨ is_Some ((r : gmap string B) !! k).
Proof.
  revert r. induction l as [|c l IH]; intros r; cbn [fold_left fmap list_fmap]; [set_solver|]. rewrite IH, elem_of_cons, lookup_insert_is_Some.
  destruct (decide (k = name c)); naive_solver.
Qed.

(** The registry that a list of clusters configures. *)
Definition addresses (hs : list api_Host) : gset string := list_to_set (ah_Address <$> hs).
Definition registry_of (l : list cf_ClusterConfig) : registry := addresses <$> host_map l ∅.
Lemma host_map_dom l m k : is_Some (host_map l m !! k) ↔ (k ∈ cc_Name <$> l) ∨ is_Some (m !! k).
Proof.
  revert m. induction l as [|c l IH]; intros m; cbn [host_map fold_left fmap list_fmap]; [set_solver|].
  change (fold_left _ l ?m) with (host_map l m). rewrite IH, elem_of_cons, lookup_insert_is_Some. destruct (decide (k = cc_Name c)); naive_solver.
Qed.

(** A cluster has no health check, or one by SofaRpc.  The parser accepts three more
    protocols: for two no checker is made, and the third's checker panics at its first
    check, once the process has started. *)
Definition checkable (c : cf_ClusterConfig) : Prop := chc_Protocol (cc_HealthCheck c) ∈ [""; "SofaRpc"]%string.

Lemma NewClusterManager_ok (es : list (string * list api_Host)) l : Forall valid_cluster l → Forall checkable l → es ≡ₚ map_to_list (host_map l ∅) →
  ∃ m, NewClusterManager (L := L) (Ctx := Ctx) grow (cluster_of <$> (cluster_result <$> l)) (host_configs_of <$> es) = Ret m ∧ manager_ok m ∧ abstraction m = registry_of l.
Proof.
  intros Hv Hc Hes. destruct (add_clusters_ok (cluster_of <$> (cluster_result <$> l)) empty_manager) as (m1 & E1 & H1 & A1); [|apply map_Forall_empty|].
  { apply Forall_fmap, Forall_fmap. rewrite Forall_forall in Hv, Hc |- *. intros c Hin. destruct (Hv c Hin) as [_ Ht _ _ _ _ _ _]. specialize (Hc c Hin). unfold checkable in Hc.
    cbn. unfold known_check, supported. cbn. split.
    - unfold check_result. case_bool_decide; [done|]. cbn. rewrite !elem_of_cons, elem_of_nil in Hc. destruct Hc as [?|[->|[]]]; done.
    - by destruct Ht as [-> | ->]. }
  assert (NoDup es.*1) as Hnd by (rewrite Hes; apply NoDup_fst_map_to_list).
  assert (∀ k, is_Some (abstraction m1 !! k) ↔ k ∈ cc_Name <$> l) as Hdom.
  { intros k. rewrite A1. rewrite fold_names_dom, <- !list_fmap_compose. unfold compose. cbn. unfold abstraction. cbn. rewrite fmap_empty, lookup_empty, is_Some_alt. cbn. tauto. }
  destruct (add_cluster_hosts_ok (host_configs_of <$> es) m1) as (m2 & E2 & H2 & A2); [|done|].
  { apply Forall_fmap, Forall_forall. intros [n hs] Hin. cbn. apply Hdom. rewrite Hes in Hin. apply elem_of_map_to_list in Hin.
    assert (is_Some (host_map l ∅ !! n)) as Hn by eauto. apply host_map_dom in Hn as [?|[? Hn]]; [done|]. by rewrite lookup_empty in Hn. }
  exists m2. split_and!; [|done|].
  - unfold NewClusterManager. unfold mbind at 2, SG_bind. rewrite E1. by rewrite E2.
  - rewrite A2. rewrite fold_left_fmap.
    trans (fold_left (λ (r : registry) (e : string * list api_Host), <[e.1 := addresses e.2]> r) es (abstraction m1)).
    { apply fold_left_ext. intros r [n hs]. unfold addresses. cbn. by rewrite <- list_fmap_compose. }
    rewrite (fold_insert_list addresses) by done. unfold registry_of. rewrite (list_to_map_proper es (map_to_list (host_map l ∅))), list_to_map_to_list by done.
    apply map_eq. intros k. rewrite lookup_union, lookup_fmap. destruct (host_map l ∅ !! k) as [hs|] eqn:Hk; cbn; [match goal with |- context [_ ∪ ?o] => by destruct o end|].
    assert (abstraction m1 !! k = None) as Hn.
    { apply eq_None_not_Some. rewrite Hdom. intros Hin. assert (is_Some (host_map l ∅ !! k)) as [? ?] by (apply host_map_dom; auto). congruence. }
    exact (f_equal (λ o, None ∪ o) Hn).
Qed.
End manager.

(** ** Proxies and listeners *)

Definition valid_proxy (p : cf_Proxy) : Prop :=
  cp_DownstreamProtocol p ∈ protocolsSupported ∧ cp_UpstreamProtocol p ∈ protocolsSupported ∧
  Forall (λ o, ∃ vh, o = Some vh ∧ cvh_Routers vh ≠ []) (cp_VirtualHosts p).
Definition vhost_result (h : cf_VirtualHost) : api_VirtualHost :=
  mk_api_vh (cvh_Name h) (cvh_Domains h) (parseRouters (cvh_Routers h)) (cvh_RequireTLS h) (parseVirtualClusters (cvh_VirtualClusters h)).
Definition proxy_result (p : cf_Proxy) : api_Proxy :=
  mk_api_proxy (cp_Name p) (cp_DownstreamProtocol p) (cp_UpstreamProtocol p) (cp_SupportDynamicRoute p) []
    (vhost_result <$> omap id (cp_VirtualHosts p)) (cp_ValidateClusters p).

Lemma supported_nonempty s : s ∈ protocolsSupported → s ≠ ""%string.
Proof. intros H ->. by vm_compute in H. Qed.
Lemma proxy_accepted decode f p : decode (af_Config f) = Some (Some p) → valid_proxy p → ParseProxyFilterJSON decode f = Ret (proxy_result p).
Proof.
  intros E (Hd & Hu & Hv). unfold ParseProxyFilterJSON. rewrite E. rewrite !(bool_decide_false (_ = ""%string)) by (by apply supported_nonempty).
  rewrite !(bool_decide_true (_ ∈ _)) by done. cbn [negb orb].
  assert (check_virtual_hosts (cp_VirtualHosts p) = Ret tt ∧ parseVirtualHost (cp_VirtualHosts p) = Ret (vhost_result <$> omap id (cp_VirtualHosts p))) as [-> ->]; [|done].
  unfold parseVirtualHost. induction Hv as [|o l (vh & -> & Hr) _ [IH1 IH2]]; [done|]. cbn [check_virtual_hosts]. rewrite bool_decide_false by done. split; [done|]. cbn. by rewrite IH2.
Qed.

Section startup.
  Context {L Ctx : Type} `{!Balancer L Ctx} `{!BalancerLaws L Ctx} (grow : nat → nat).
  Context (decode_proxy : option (gmap string value) → option (option cf_Proxy)) (resolve : string → option TCPAddr).
  Context (range_hosts : gmap string (list api_Host) → list (string * list api_Host)) (e : log_env).

(** The files of a listener's logs, and the access logs with their formats. *)
Definition listener_log (c : cf_ListenerConfig) : string :=
  if bool_decide (cln_LogPath c = ""%string) then (MosnLogBasePath +:+ "/" +:+ cln_Name c +:+ ".log")%string else cln_LogPath c.
Definition access_of (c : cf_ListenerConfig) : list (string * string) :=
  (λ a, (if bool_decide (cal_LogPath a = ""%string) then (MosnLogBasePath +:+ "/" +:+ cln_Name c +:+ "_access.log")%string else cal_LogPath a, cal_LogFormat a))
    <$> cln_AccessLogs c.
Definition access_ok (a : string * string) : Prop := openable e a.1 = true ∧ ∃ fs, NewAccessLogFormatter a.2 = Ret fs.

(** A listener with one filter, a proxy, in its first chain, and with logs that can be
    opened and formats of access logs that can be read. *)
Record startable (c : cf_ListenerConfig) : Prop := mk_startable {
  sl_valid : ∃ addr, valid_listener resolve c addr;
  sl_proxy : ∃ fc fcs f p, cln_FilterChains c = fc :: fcs ∧ cfch_Filters fc = [f] ∧ cfc_Type f = DEFAULT_NETWORK_FILTER ∧
    decode_proxy (Some (cfc_Config f)) = Some (Some p) ∧ valid_proxy p;
  sl_filters : ∃ l, getStreamFilters (cln_StreamFilters c) = Ret l;
  sl_log : openable e (listener_log c) = true;
  sl_access : Forall access_ok (access_of c);
}.
Definition names_of (s : mosn_server L) : list string := (λ l, l_name (al_listener l)) <$> als (srv_handler (ms_server s)).
(** Of listeners with the same name the first one counts. *)
Fixpoint firsts (seen : gset string) (l : list string) : list string :=
  match l with [] => [] | n :: l => if bool_decide (n ∈ seen) then firsts seen l else n :: firsts ({[n]} ∪ seen) l end.
Definition mark (l : list (option inherited)) : list (option inherited) :=
  match l with Some il :: l => Some (mk_inh (inh_Addr il) (inh_Listener il) true) :: l | l => l end.

Lemma mark_some l : Forall is_Some l → Forall is_Some (mark l).
Proof. destruct l as [|[il|] l]; [done| |done]. intros [_ H]%Forall_cons. constructor; [eauto|done]. Qed.
Lemma mark_twice l : mark (mark l) = mark l.
Proof. by destruct l as [|[il|] l]. Qed.

(** Opening the logs of a listener. *)
Definition logs_open (lc : ListenerConfig) : Prop :=
  openable e (log_path lc) = true ∧ Forall (λ c, access_ok (access_log_path lc c, alc_format c)) (lc_accessLogs lc).
Lemma open_access_logs_ok lc l lg : Forall (λ c, access_ok (access_log_path lc c, alc_format c)) l →
  ∃ acls lg', open_access_logs e lc l lg = Ret (acls, lg').
Proof.
  intros Hl. revert lg. induction Hl as [|c l [Ho [fs Hf]] _ IH]; intros lg; [by eexists [], lg|]. cbn in Ho, Hf.
  destruct (GetLoggerInstance_returns e (access_log_path lc c) Logger.FATAL lg) as (i & err & lg1 & E & He). rewrite He in E by done.
  destruct (IH lg1) as (acls & lg2 & E2). eexists (_ :: acls), lg2. cbn [open_access_logs].
  unfold OpenAccessLog, NewAccessLog, mbind, SG_bind, sg_lift. rewrite E, Hf. cbn. by rewrite E2.
Qed.
Lemma open_logs_ok dl lc lg : logs_open lc → ∃ r lg', open_logs e dl lc lg = Ret (r, lg').
Proof.
  intros [Ho Hl]. destruct (NewLogger_returns e (log_path lc) (lc_logLevel lc) lg) as (i & err & lg1 & E & He). apply He in Ho as ->.
  destruct (open_access_logs_ok lc _ lg1 Hl) as (acls & lg2 & E2). exists (i, acls), lg2.
  unfold open_logs, mbind, SG_bind. rewrite E. cbn. by rewrite E2.
Qed.

Lemma srv_AddListener_run l n lg srv : logs_open l → ∃ o lg' srv', srv_AddListener e l n (lg, srv) = Ret (o, (lg', srv')) ∧
  ListenerInMap srv' = {[lc_name l]} ∪ ListenerInMap srv ∧
  ((λ l, l_name (al_listener l)) <$> als (srv_handler srv')) =
  ((λ l, l_name (al_listener l)) <$> als (srv_handler srv)) ++ (if bool_decide (lc_name l ∈ ListenerInMap srv) then [] else [lc_name l]).
Proof.
  intros Ho. unfold srv_AddListener. destruct (bool_decide (lc_name l ∈ ListenerInMap srv)) eqn:E.
  - exists None, lg, srv. split_and!; [done|apply bool_decide_eq_true in E; set_solver|by rewrite app_nil_r].
  - destruct (open_logs_ok (ch_logger (srv_handler srv)) l lg Ho) as ([logger acls] & lg' & El).
    eexists _, lg', _. unfold AddListener. rewrite El. split; [reflexivity|]. split; [done|]. cbn. by rewrite fmap_app.
Qed.
Lemma add_listener_ok c (s : mosn_server L) inh lg : startable c → Forall is_Some inh →
  ∃ s' lg', add_listener decode_proxy resolve e c s inh lg = Ret ((s', mark inh), lg') ∧
  ms_manager s' = ms_manager s ∧ ListenerInMap (ms_server s') = {[cln_Name c]} ∪ ListenerInMap (ms_server s) ∧
  names_of s' = names_of s ++ (if bool_decide (cln_Name c ∈ ListenerInMap (ms_server s)) then [] else [cln_Name c]).
Proof.
  intros [[addr Hv] (fc & fcs & f & p & Hch & Hfs & Hty & Hdec & Hp) [sf Hsf] Hlog Hacc] Hinh. unfold add_listener. rewrite (listener_accepted _ _ _ _ Hv).
  assert (∃ old, taken inh = Some (old, mark inh)) as [old ->]. { destruct Hinh as [|o inh [il ->] _]; [by exists None|by eexists]. }
  cbn [mbind Go_bind]. cbn [al_FilterChains listener_result]. rewrite Hch. cbn [fmap list_fmap mbind Go_bind]. unfold getNetworkFilter. cbn [afc_Filters chain_result]. rewrite Hfs. cbn [fmap list_fmap af_Name].
  rewrite Hty, bool_decide_true by done. rewrite (proxy_accepted _ _ p) by done. cbn [mbind Go_bind]. cbv zeta.
  set (lc := if _ || _ then _ else _).
  assert (∃ l, listener_of lc = Ret l ∧ lc_name l = cln_Name c ∧ logs_open l) as (l & -> & Hl & Ho).
  { unfold lc. destruct (_ || _); cbn; eexists; (split; [reflexivity|]); (split; [done|]); (split; [exact Hlog|]); cbn;
      unfold access_of in Hacc; rewrite Forall_fmap in Hacc; unfold parseAccessConfig; rewrite !Forall_fmap; exact Hacc. }
  cbn [mbind Go_bind]. rewrite Hsf. 
  assert (∃ fac, (if al_HandOffRestoredDestinationConnections lc then Ret None else Ret sf ≫= λ sfcf, Ret (Some (proxy_result p, sfcf))) = Ret fac) as [fac ->] by (destruct (al_HandOffRestoredDestinationConnections lc); eauto).
  cbn [mbind Go_bind]. destruct (srv_AddListener_run l (length (ms_factories s)) lg (ms_server s) Ho) as (o & lg' & srv' & -> & Hmap & Hnames). rewrite Hl in Hmap, Hnames.
  exists (mk_ms srv' (ms_manager s) (ms_factories s ++ [fac])), lg'. by split_and!.
Qed.
Lemma add_listeners_ok l (s : mosn_server L) inh lg : Forall startable l → Forall is_Some inh →
  ∃ s' lg', add_listeners decode_proxy resolve e l s inh lg = Ret ((s', if l then inh else mark inh), lg') ∧
  ms_manager s' = ms_manager s ∧ names_of s' = names_of s ++ firsts (ListenerInMap (ms_server s)) (cln_Name <$> l).
Proof.
  intros Hl. revert s inh lg. induction Hl as [|c l Hc _ IH]; intros s inh lg Hinh; [exists s, lg; by rewrite app_nil_r|].
  destruct (add_listener_ok c s inh lg Hc Hinh) as (s1 & lg1 & E1 & M1 & Map1 & N1).
  destruct (IH s1 (mark inh) lg1 (mark_some _ Hinh)) as (s2 & lg2 & E2 & M2 & N2).
  exists s2, lg2. cbn [add_listeners]. unfold mbind, SG_bind. rewrite E1. rewrite E2. split_and!; [|by rewrite M2|].
  - destruct l; [done|]. by rewrite mark_twice.
  - rewrite N2, N1, Map1. cbn [fmap list_fmap firsts]. case_bool_decide as Hin; [|by rewrite <- app_assoc].
    rewrite app_nil_r. do 2 f_equal. set_solver.
Qed.

(** A server: its level of logs is known, its log can be opened, it has listeners, and
    they can be started. *)
Record startable_server (c : cf_ServerConfig) : Prop := mk_startable_server {
  ss_level : valid_level (cs_DefaultLogLevel c);
  ss_log : openable e (if bool_decide (cs_DefaultLogPath c = ""%string) then MosnLogDefaultPath else cs_DefaultLogPath c) = true;
  ss_some : cs_Listeners c ≠ []; ss_listeners : Forall startable (cs_Listeners c);
}.
Definition server_matches (l : list cf_ClusterConfig) (c : cf_ServerConfig) (s : mosn_server L) : Prop :=
  abstraction (ms_manager s) = registry_of l ∧ names_of s = firsts ∅ (cln_Name <$> cs_Listeners c).

Hypothesis range_lists : ∀ m, range_hosts m ≡ₚ map_to_list m.

Lemma make_server_ok l c t inh lg : Forall valid_cluster l → Forall checkable l → startable_server c → Forall is_Some inh →
  ∃ s t' lg', make_server (Ctx := Ctx) grow decode_proxy resolve range_hosts e (cluster_result <$> l) (host_map l ∅) c t inh lg =
    Ret ((s, t', mark inh), lg') ∧ server_matches l c s.
Proof.
  intros Hv Hc [Hlev Hlog Hsome Hls] Hinh. unfold make_server, ParseServerConfig. rewrite parseLogLevel_ok by done.
  unfold mbind, SG_bind, sg_lift at 1. cbn [Go_bind].
  unfold InitDefaultLogger, server_log_path. cbn [sc_LogPath sc_LogLevel]. unfold mbind, SG_bind.
  match goal with |- context [Logger.InitDefaultLogger e ?o ?v lg] => destruct (InitDefaultLogger_returns e o v lg) as (err & lg1 & -> & He) end.
  apply He in Hlog as ->. cbn [mret SG_ret].
  destruct (NewClusterManager_ok (L := L) (Ctx := Ctx) grow (range_hosts (host_map l ∅)) l Hv Hc (range_lists _)) as (m & -> & _ & Hm).
  cbn [sg_lift sg_get]. rewrite bool_decide_false by done.
  destruct (add_listeners_ok (cs_Listeners c) (mk_ms (new_server (lg_Default lg1)) m []) inh lg1 Hls Hinh) as (s & lg2 & -> & Hman & Hnames).
  destruct (cs_Listeners c) as [|l0 ls] eqn:El; [done|]. eexists s, _, lg2. split; [reflexivity|]. split; [by rewrite Hman|]. rewrite El. exact Hnames.
Qed.
Lemma make_servers_ok l cs t inh lg : Forall valid_cluster l → Forall checkable l → Forall startable_server cs → Forall is_Some inh →
  ∃ ss t' lg', make_servers (Ctx := Ctx) grow decode_proxy resolve range_hosts e (cluster_result <$> l) (host_map l ∅) cs t inh lg =
    Ret ((ss, t', if cs then inh else mark inh), lg') ∧ Forall2 (server_matches l) cs ss.
Proof.
  intros Hv Hc Hcs. revert t inh lg. induction Hcs as [|c cs Hs _ IH]; intros t inh lg Hinh; [by eexists [], t, lg|].
  destruct (make_server_ok l c t inh lg Hv Hc Hs Hinh) as (s & t1 & lg1 & E1 & H1).
  destruct (IH t1 (mark inh) lg1 (mark_some _ Hinh)) as (ss & t2 & lg2 & E2 & H2).
  exists (s :: ss), t2, lg2. cbn [make_servers]. unfold mbind, SG_bind. rewrite E1. rewrite E2. split; [|by constructor].
  destruct cs; [done|]. by rewrite mark_twice.
Qed.
Lemma close_legacy_ok l : Forall is_Some l → close_legacy l = Ret (omap (λ o, il ← o; if inh_Remain il then None else Some (inh_Listener il)) l).
Proof. induction 1 as [|o l [il ->] _ IH]; [done|]. cbn. rewrite IH. cbn. by destruct (inh_Remain il). Qed.

(** C11. A configuration whose clusters, servers and listeners are valid starts, whatever
    loggers there are before: the logs of its servers and listeners can be opened, the
    formats of their access logs can be read ([startable]), and its clusters are checked by
    SofaRpc or not at all ([checkable]).  Then there is a server for every configured one, its cluster manager has exactly the configured
    clusters with the addresses of their hosts, and its handler has the configured
    listeners, the first of every name.  Of the sockets of the process before, the first
    is taken over and all others are closed. *)
Theorem configuration_starts cbs c inh lg : Forall valid_cluster (ccm_Clusters (mc_ClusterManager c)) → Forall checkable (ccm_Clusters (mc_ClusterManager c)) →
  ccm_Clusters (mc_ClusterManager c) ≠ [] → Forall startable_server (mc_Servers c) → mc_Servers c ≠ [] → Forall is_Some inh →
  ∃ m, NewMosn (Ctx := Ctx) grow decode_proxy resolve range_hosts e cbs c inh lg = Ret m ∧
    Forall2 (server_matches (ccm_Clusters (mc_ClusterManager c))) (mc_Servers c) (servers m) ∧
    closed_sockets m = omap (λ o, il ← o; if inh_Remain il then None else Some (inh_Listener il)) (tail inh).
Proof.
  intros Hv Hch Hne Hs Hsne Hinh. unfold NewMosn. assert (config_Mode c ≠ XdsMode) as Hmode.
  { unfold config_Mode. rewrite bool_decide_true by (destruct (mc_Servers c); [done|cbn; lia]). by destruct (_ || _). }
  rewrite bool_decide_false by done. unfold ParseClusterConfig. rewrite parse_clusters_ok by done. cbn [mbind Go_bind app].
  destruct (make_servers_ok _ _ default_graceful inh lg Hv Hch Hs Hinh) as (ss & t' & lg' & -> & H2). cbn [mbind Go_bind].
  assert ((if mc_Servers c then inh else mark inh) = mark inh) as -> by (by destruct (mc_Servers c)). rewrite close_legacy_ok by (by apply mark_some). cbn [mbind Go_bind].
  assert (ss ≠ []) as Hss by (intros ->; by apply Forall2_nil_inv_r in H2). rewrite bool_decide_false by done.
  eexists. split; [by destruct (config_Mode c)|]. split; [done|]. cbn. by destruct inh as [|[il|] inh].
Qed.
End startup.

(** ** A configuration *)

Definition demo_route : cf_Router :=
  mk_cf_router (mk_cf_match "/" "" "" false (mk_cf_rt 0 "") []) (mk_cf_ra "orders" "" [] ∅ 0 (mk_cf_rp false 0 0)) (mk_cf_rd "" "" 0) ∅ "".
Definition demo_proxy : cf_Proxy := mk_cf_proxy "p" "SofaRpc" "Http2" true [Some (mk_cf_vh "vh" ["*"%string] [demo_route] "" [])] false.
Definition demo_decode (m : option (gmap string value)) : option (option cf_Proxy) := Some (Some demo_proxy).
Definition demo_resolve (s : string) : option TCPAddr := Some (mk_tcp (IPv4 127 0 0 1) 2045 "").
(** Only files below the path of logs can be opened. *)
Definition demo_files : log_env :=
  mk_log_env (λ n, if HasPrefix n MosnLogBasePath then None else Some "permission denied"%string) (λ _, None) None (λ _ _, None) (λ _, None) Some.
Definition demo_logs : logs := mk_logs [mk_logger "" 4 (Some DefaultRoller) (Some WStderr) (Some WStderr) false] [] None ∅ [].
Definition demo_listener (name : string) : cf_ListenerConfig :=
  mk_cf_listener name "127.0.0.1:2045" true [mk_cf_chain "" no_cf_tls [mk_cf_filter "proxy" ∅]] [] "" "DEBUG" false [mk_cf_al "" "%StartTime% %REQ.service%"].
Definition demo_cluster (name protocol : string) (hosts : list string) : cf_ClusterConfig :=
  mk_cf_cluster name "SIMPLE" "LB_RANDOM" 0 0 [] (mk_cf_hc protocol 0 0 0 0 0 "" "") [] ((λ a, mk_cf_host a "" 1 ∅) <$> hosts) no_cf_subset no_cf_tls.
Definition demo_conf (clusters : list cf_ClusterConfig) : MOSNConfig :=
  mk_mosn [mk_cf_server "" "" 0 0 [demo_listener "a"; demo_listener "b"; demo_listener "a"]] (mk_cf_cm false false clusters) (mk_cf_sr (mk_cf_app false "" "") []) [] [].
Definition demo_clusters : list cf_ClusterConfig := [demo_cluster "orders" "SofaRpc" ["10.0.0.1:80"; "10.0.0.2:80"]; demo_cluster "users" "" ["10.0.0.3:80"]]%string.
Definition demo_sockets : list (option inherited) := [Some (mk_inh (mk_tcp (IPv4 127 0 0 1) 9000 "") 3 false); Some (mk_inh (mk_tcp (IPv4 127 0 0 1) 2045 "") 4 false)].
Abbreviation demo_start c inh := (NewMosn (L := LoadBalancer) (Ctx := unit) (λ n, n) demo_decode demo_resolve map_to_list demo_files ∅ c inh demo_logs).

(** The listener of 127.0.0.1:2045 takes over the socket of port 9000, and its own is
    closed. *)
Lemma configuration_starts_witness : ∃ m, demo_start (demo_conf demo_clusters) demo_sockets = Ret m ∧
  length (servers m) = 1%nat ∧ (names_of <$> servers m) = [["a"; "b"]%string] ∧ closed_sockets m = [4%nat].
Proof.
  destruct (configuration_starts (L := LoadBalancer) (Ctx := unit) (λ n, n) demo_decode demo_resolve map_to_list demo_files (λ m, Permutation_refl _)
    ∅ (demo_conf demo_clusters) demo_sockets demo_logs) as (m & E & Hs & Hc).
  - assert (∀ n p hs, n ≠ ""%string → p = ""%string ∨ p ∈ protocolsSupported → Forall (λ a, a ≠ ""%string) hs → valid_cluster (demo_cluster n p hs)) as Hv.
    { intros n p hs Hn Hp Hhs. split; cbn; try done; [by left|by left|]. apply Forall_fmap. done. }
    constructor; [apply Hv; [done|right; vm_compute; done|by repeat constructor]|]. constructor; [apply Hv; [done|by left|by repeat constructor]|constructor].
  - repeat constructor; unfold checkable; cbn; set_solver.
  - done.
  - assert (∀ n, n ≠ ""%string → startable demo_decode demo_resolve demo_files (demo_listener n)) as Hl.
    { intros n Hn. split.
      - exists (mk_tcp (IPv4 127 0 0 1) 2045 ""). split; [done|done|done|right; by eexists|repeat constructor].
        intros ?. done.
      - eexists _, _, _, demo_proxy. split_and!; [done..|]. split_and!; [vm_compute; done|vm_compute; done|]. repeat constructor. by eexists.
      - by eexists.
      - vm_compute. done.
      - apply Forall_singleton. split; [vm_compute; done|by eexists]. }
    constructor; [|constructor]. split; [by left|done|done|]. repeat (constructor; [by apply Hl|]). constructor.
  - done.
  - repeat constructor; by eexists.
  - exists m. split; [done|]. cbn [demo_conf mc_Servers] in Hs. apply Forall2_cons_inv_l in Hs as (s & ss & [_ Hn] & Hnil & Hss). apply Forall2_nil_inv_l in Hnil as ->.
    rewrite Hss. cbn. rewrite Hn. by split_and!.
Defined.

(** The parser accepts health checks by HTTP/1, for which there is no checker: the
    process panics at its start. *)
Example http1_check_panics : demo_start (demo_conf [demo_cluster "orders" "Http1" []]) [] = Panic NilDeref.
Proof. vm_compute. reflexivity. Qed.
(** A configuration without servers passes, up to the end. *)
Example no_server_panics : demo_start (mk_mosn [] (mk_cf_cm false false demo_clusters) (mk_cf_sr (mk_cf_app false "" "") []) [] []) [] = Panic SliceBounds.
Proof. vm_compute. reflexivity. Qed.
(** A socket that was not inherited well is nil in the list. *)
Example broken_descriptor_panics : demo_start (demo_conf demo_clusters) [None] = Panic NilDeref.
Proof. vm_compute. reflexivity. Qed.
(** An access log outside the path of logs, and a format with a field of one character. *)
Definition conf_with_access (path format : string) : MOSNConfig :=
  mk_mosn [mk_cf_server "" "" 0 0 [mk_cf_listener "a" "127.0.0.1:2045" true [mk_cf_chain "" no_cf_tls [mk_cf_filter "proxy" ∅]] [] "" "DEBUG" false [mk_cf_al path format]]]
    (mk_cf_cm false false demo_clusters) (mk_cf_sr (mk_cf_app false "" "") []) [] [].
Example access_log_exits : demo_start (conf_with_access "/root/access.log" "") [] = Panic Exit.
Proof. vm_compute. reflexivity. Qed.
Example access_format_panics : demo_start (conf_with_access "" "%StartTime% -") [] = Panic SliceBounds.
Proof. vm_compute. reflexivity. Qed.
