(* ===== verification/Tls.v ===== *)
(** * TLS contexts: pkg/tls/tls.go

    The settings of a filter chain or a cluster become a context, the contexts of a
    listener a manager that selects one for a client.  What crypto/tls and crypto/x509
    make of certificates is a parameter: [Cert] is a certificate with its key,
    [X509KeyPair] and [LoadX509KeyPair] make one from texts and from files,
    [ParseCertificate] gives the names in one, [ReadFile] and [AppendCertsFromPEM] read
    certificates of authorities.

    A context does not change once it is in a manager, so it is a value. *)

From Stdlib Require Import Ascii.
From S2P Require Import Prelude GoStrings ConfigTypes.

Local Open Scope Z_scope.

(** ** Names of versions, protocols, curves and ciphers *)

Definition minProtocols : Z := 769.
Definition maxProtocols : Z := 771.
Definition version : gmap string Z := list_to_map [("tls_auto", 0); ("tlsv1_0", 769); ("tlsv1_1", 770); ("tlsv1_2", 771)]%string.
Definition alpn_names : gset string := {["h2"; "http/1.1"; "sofa"]}%string.
Definition defaultCurves : list Z := [29; 23].
Definition allCurves : gmap string Z := list_to_map [("x25519", 29); ("p256", 23); ("p384", 24); ("p521", 25)]%string.
Definition defaultCiphers : list Z := [49196; 49200; 49195; 49199; 52393; 52392; 49172; 49171; 49162; 49161; 53; 47].
Definition ciphersMap : gmap string Z := list_to_map [
  ("ECDHE-ECDSA-AES256-GCM-SHA384", 49196); ("ECDHE-RSA-AES256-GCM-SHA384", 49200);
  ("ECDHE-ECDSA-AES128-GCM-SHA256", 49195); ("ECDHE-RSA-AES128-GCM-SHA256", 49199);
  ("ECDHE-ECDSA-WITH-CHACHA20-POLY1305", 52393); ("ECDHE-RSA-WITH-CHACHA20-POLY1305", 52392);
  ("ECDHE-RSA-AES256-CBC-SHA", 49172); ("ECDHE-RSA-AES128-CBC-SHA", 49171);
  ("ECDHE-ECDSA-AES256-CBC-SHA", 49162); ("ECDHE-ECDSA-AES128-CBC-SHA", 49161);
  ("RSA-AES256-CBC-SHA", 53); ("RSA-AES128-CBC-SHA", 47);
  ("ECDHE-RSA-3DES-EDE-CBC-SHA", 49170); ("RSA-3DES-EDE-CBC-SHA", 10)]%string.

(** ** strings *)

(** [strings.Contains]. *)
Fixpoint str_contains (s sub : string) : bool :=
  HasPrefix s sub || match s with EmptyString => false | String.String _ s => str_contains s sub end.
(** [strings.Join] with a separator of one character. *)
Fixpoint join_with (sep : ascii) (l : list string) : string :=
  match l with [] => EmptyString | [s] => s | s :: l => s +:+ String.String sep (join_with sep l) end.
(** A name without the dots at its end. *)
Fixpoint strip_dots (s : string) : string :=
  match s with
  | EmptyString => EmptyString
  | String.String c s =>
    let r := strip_dots s in
    if bool_decide (c = "."%char ∧ r = EmptyString) then EmptyString else String.String c r
  end.

Section tls.
  Context {Cert : Type} (X509KeyPair LoadX509KeyPair : string → string → option Cert)
          (ParseCertificate : Cert → option (string * list string))
          (ReadFile : string → option bytes) (AppendCertsFromPEM : bytes → bool).

(** [tls.Config], as far as it is set here. *)
Record tls_Config := mk_tlsconfig {
  tc_Certificates : list Cert; tc_MaxVersion : Z; tc_MinVersion : Z; tc_CipherSuites : list Z; tc_CurvePreferences : list Z;
  tc_NextProtos : list string; tc_InsecureSkipVerify : bool; tc_ClientCAs : option bytes; tc_RequireClientCert : bool;
  tc_RootCAs : option bytes; tc_ServerName : string;
}.
Record context := mk_ctx {
  x_serverName : string; x_minVersion : Z; x_maxVersion : Z; x_alpn : list string; x_caCert : option bytes;
  x_cipherSuites : list Z; x_ecdhCurves : list Z; x_certificates : list Cert; x_verifyClient : bool; x_verifyServer : bool;
  x_tlsConfig : tls_Config;
}.
Record contextManager := mk_cmgr {
  cg_contextMap : list (option (gmap string context)); cg_isClient : bool; cg_inspector : bool; cg_tlscontext : option context;
}.
Definition set_contextMap v (cm : contextManager) := mk_cmgr v (cg_isClient cm) (cg_inspector cm) (cg_tlscontext cm).
Definition set_inspector v (cm : contextManager) := mk_cmgr (cg_contextMap cm) (cg_isClient cm) v (cg_tlscontext cm).
Definition set_tlscontext v (cm : contextManager) := mk_cmgr (cg_contextMap cm) (cg_isClient cm) (cg_inspector cm) v.

(** ** Making a context *)

Definition newTLSConfig (isClient : bool) (serverName : string) (minVersion maxVersion : Z) (alpn : list string) (caCert : option bytes)
    (cipherSuites ecdhCurves : list Z) (certificates : list Cert) (verifyClient verifyServer : bool) : tls_Config :=
  mk_tlsconfig certificates maxVersion minVersion cipherSuites ecdhCurves alpn (negb verifyServer)
    (if verifyClient then caCert else None) verifyClient (if verifyServer then caCert else None)
    (if isClient then serverName else EmptyString).

(** The values of the names, or [None] when one is not known. *)
Definition lookup_all (m : gmap string Z) (l : list string) : option (list Z) := mapM (λ s, m !! s) l.

(** An error is its message. *)
Abbreviation result A := (string + A)%type.
Definition parse_list (m : gmap string Z) (fold : string → string) (sep : ascii) (defaults : list Z) (err s : string) : result (list Z) :=
  if bool_decide (s = ""%string) then inr []
  else match lookup_all m (fold <$> Split s sep) with
       | None => inl err
       | Some l => inr (if bool_decide (l = []) then defaults else l)
       end.
Definition parse_version (default_ : Z) (s : string) : result Z :=
  if bool_decide (s = ""%string) then inr default_
  else match version !! ToLower s with
       | None => inl "error tls protocols name or protocol not supported"%string
       | Some p => inr (if bool_decide (p = 0) then default_ else p)
       end.
Definition parse_alpn (s : string) : result (list string) :=
  if bool_decide (s = ""%string) then inr []
  else if forallb (λ p, bool_decide (ToLower p ∈ alpn_names)) (Split s ","%char) then inr (Split s ","%char)
  else inl "error ALPN or ALPN not supported"%string.
Definition begin_pem : string := "-----BEGIN".
Definition load_certificates (chain key : string) : result (list Cert) :=
  if bool_decide (chain = ""%string) || bool_decide (key = ""%string) then inr []
  else
  match (if str_contains chain begin_pem && str_contains key begin_pem then X509KeyPair chain key else LoadX509KeyPair chain key) with
  | Some c => inr [c]
  | None => inl "load [certchain] or [privatekey] error"%string
  end.
Definition load_ca (s : string) : result (option bytes) :=
  if bool_decide (s = ""%string) then inr None
  else
  match (if str_contains s begin_pem then Some (str_bytes s) else ReadFile s) with
  | None => inl "load [cacert] error"%string
  | Some ca => if AppendCertsFromPEM ca then inr (Some ca) else inl "parse [cacert] error"%string
  end.

Definition rbind {A B} (r : result A) (f : A → result B) : result B := match r with inl e => inl e | inr a => f a end.

(** The context of settings that are on; the manager's inspector is turned on by
    settings that ask for it. *)
Definition newTLSContext (c : api_TLSConfig) (cm : contextManager) : result (option context) * contextManager :=
  if negb (at_Status c) then (inr None, cm)
  else
  let r :=
    rbind (parse_list ciphersMap (λ s, s) ":"%char defaultCiphers "error cipher name or cipher not supported" (at_CipherSuites c)) (λ ciphers,
    rbind (parse_list allCurves ToLower ","%char defaultCurves "error curve name or curve not supported" (at_EcdhCurves c)) (λ curves,
    rbind (parse_version maxProtocols (at_MaxVersion c)) (λ maxV,
    rbind (parse_version minProtocols (at_MinVersion c)) (λ minV,
    rbind (parse_alpn (at_ALPN c)) (λ protos,
    rbind (load_certificates (at_CertChain c) (at_PrivateKey c)) (λ certs,
    if negb (cg_isClient cm) && bool_decide (length certs = 0%nat) then inl "[certchain] and [privatekey] are required in TLS config"%string
    else
    rbind (load_ca (at_CACert c)) (λ ca,
    inr (mk_ctx (at_ServerName c) minV maxV protos ca ciphers curves certs (at_VerifyClient c) (at_VerifyServer c)
      (newTLSConfig (cg_isClient cm) (at_ServerName c) minV maxV protos ca ciphers curves certs (at_VerifyClient c) (at_VerifyServer c)))))))))) in
  match r with
  | inl e => (inl e, cm)
  | inr x => (inr (Some x), if at_Inspector c then set_inspector true cm else cm)
  end.

(** ** The contexts of a listener *)

(** The names a context is found by: of its certificates, its protocols, its own. *)
Definition certificate_names (c : Cert) : list string :=
  match ParseCertificate c with
  | None => []
  | Some (cn, dns) => (if bool_decide (cn = ""%string) then [] else [cn]) ++ dns
  end.
Definition context_names (x : context) : list string :=
  (tc_Certificates (x_tlsConfig x) ≫= certificate_names) ++ x_alpn x ++ [x_serverName x].

(** The entry at [index] is replaced, or appended. *)
Definition put_at (index : nat) (m : option (gmap string context)) (l : list (option (gmap string context))) : list (option (gmap string context)) :=
  if bool_decide (length l ≤ index)%nat then l ++ [m] else <[index := m]> l.
Definition buildContextMap (cm : contextManager) (x : option context) (index : nat) : contextManager :=
  match x with
  | None => set_contextMap (put_at index None (cg_contextMap cm)) cm
  | Some x => set_contextMap (put_at index (Some (fold_left (λ m n, <[n := x]> m) (context_names x) ∅)) (cg_contextMap cm)) cm
  end.

Definition new_manager (isClient : bool) : contextManager := mk_cmgr [] isClient false None.

(** The loop over the filter chains; an error leaves no manager. *)
Fixpoint add_chains (l : list api_FilterChain) (i : nat) (first : bool) (cm : contextManager) : option contextManager :=
  match l with
  | [] => Some cm
  | c :: l =>
    match newTLSContext (afc_TLS c) cm with
    | (inl _, _) => None
    | (inr x, cm) =>
      let cm := buildContextMap cm x i in
      match x with
      | Some x' => if first then add_chains l (S i) false (set_tlscontext (Some x') cm) else add_chains l (S i) first cm
      | None => add_chains l (S i) first cm
      end
    end
  end.
Definition NewTLSServerContextManager (config : list api_FilterChain) : option contextManager := add_chains config 0 true (new_manager false).

(** A context that settings are added or removed for later; [None] is success. *)
Definition AddTLSServerContext (c : api_TLSConfig) (cm : option contextManager) (index : Z) : Go (option string * option contextManager) :=
  match cm with
  | None => Ret (Some "Add Server TLS Context failed: tlsMng is nil"%string, None)
  | Some cm =>
    if bool_decide (index < 0) || bool_decide (Z.of_nat (length (cg_contextMap cm)) < index) then Ret (Some "Add Server TLS Context failed: index is out of bounds"%string, Some cm)
    else
    match newTLSContext c cm with
    | (inl e, cm) => Ret (Some e, Some cm)
    | (inr None, cm) => Panic NilDeref
    | (inr (Some x), cm) =>
      let cm := buildContextMap cm (Some x) (Z.to_nat index) in
      Ret (None, Some (match cg_tlscontext cm with None => set_tlscontext (Some x) cm | Some _ => cm end))
    end
  end.
Definition DelTLSServerContext (cm : option contextManager) (index : Z) : option string * option contextManager :=
  match cm with
  | None => (Some "Del Server TLS Context failed: tlsMng is nil"%string, None)
  | Some cm =>
    if bool_decide (index < 0) || bool_decide (Z.of_nat (length (cg_contextMap cm)) ≤ index) then (Some "Del Server TLS Context failed: index is out of bounds"%string, Some cm)
    else (None, Some (set_contextMap (take (Z.to_nat index) (cg_contextMap cm) ++ drop (S (Z.to_nat index)) (cg_contextMap cm)) cm))
  end.

Definition NewTLSClientContextManager (config : api_TLSConfig) : option contextManager :=
  match newTLSContext config (new_manager true) with
  | (inl _, _) => None
  | (inr x, cm) => Some (match x with None => cm | Some x => set_tlscontext (Some x) cm end)
  end.

(** ** The context for a client *)

(** [tls.ClientHelloInfo]. *)
Record ClientHelloInfo := mk_hello { hi_ServerName : string; hi_SupportedProtos : list string }.

(** The wildcards that cover a name: the first label replaced, then the first two, and so
    on. *)
Fixpoint wildcards (labels : list string) : list string :=
  match labels with
  | _ :: ((_ :: _) as rest) => join_with "."%char ("*"%string :: rest) :: wildcards rest
  | _ => []
  end.
Fixpoint first_found (m : gmap string context) (keys : list string) : option context :=
  match keys with [] => None | k :: keys => match m !! k with Some x => Some x | None => first_found m keys end end.

(** What one map has for the client: by the name, by a wildcard, by a protocol. *)
Definition match_map (info : ClientHelloInfo) (m : gmap string context) : option context :=
  let by_name :=
    if bool_decide (hi_ServerName info = ""%string) then None
    else
    let name := strip_dots (ToLower (hi_ServerName info)) in
    match m !! name with
    | Some x => Some x
    | None => first_found m (wildcards (Split name "."%char))
    end in
  match by_name with
  | Some x => Some x
  | None => first_found m (ToLower <$> hi_SupportedProtos info)
  end.
Fixpoint match_maps (info : ClientHelloInfo) (l : list (option (gmap string context))) : option context :=
  match l with
  | [] => None
  | None :: l => match_maps info l
  | Some m :: l => match match_map info m with Some x => Some x | None => match_maps info l end
  end.

Definition deref (x : option context) : Go context := match x with Some x => Ret x | None => Panic NilDeref end.
Definition GetConfigForClient (cm : contextManager) (info : ClientHelloInfo) : Go tls_Config :=
  if bool_decide (length (cg_contextMap cm) = 1%nat) then x ← deref (cg_tlscontext cm); Ret (x_tlsConfig x)
  else
  x ← deref (match match_maps info (cg_contextMap cm) with Some x => Some x | None => cg_tlscontext cm end);
  Ret (x_tlsConfig x).

Definition defaultContext (cm : contextManager) : option context := cg_tlscontext cm.
Definition Enabled (cm : contextManager) : bool := bool_decide (is_Some (defaultContext cm)).
Definition tls_config (cm : contextManager) : Go (option tls_Config) :=
  if cg_isClient cm then x ← deref (defaultContext cm); Ret (Some (x_tlsConfig x)) else Ret None.
End tls.

(** ** A connection whose first byte was looked at *)

Section peeking.
(** The connection below: a read of at most so many bytes gives bytes and perhaps an
    error. *)
  Context {S E : Type} (raw_read : nat → S → bytes * option E * S).

Record peekConn := mk_peek { pk_conn : S; pk_byte : byte; pk_has : bool }.

(** Nothing when there was no byte. *)
Definition conn_Peek (c : peekConn) : option byte * peekConn :=
  let '(b, _, s) := raw_read 1 (pk_conn c) in
  match b with
  | [] => (None, mk_peek s (pk_byte c) (pk_has c))
  | x :: _ => (Some x, mk_peek s x true)
  end.

(** A read into [n] bytes. *)
Definition peek_Read (n : nat) (c : peekConn) : Go (bytes * option E * peekConn) :=
  if pk_has c then
    match n with
    | O => Panic SliceBounds
    | 1%nat => Ret ([pk_byte c], None, mk_peek (pk_conn c) (pk_byte c) false)
    | Datatypes.S n => let '(b, e, s) := raw_read n (pk_conn c) in Ret (pk_byte c :: b, e, mk_peek s (pk_byte c) false)
    end
  else let '(b, e, s) := raw_read n (pk_conn c) in Ret (b, e, mk_peek s (pk_byte c) false).

(** What a connection of a listener or a cluster becomes. *)
Inductive wrapped {Cert : Type} :=
  | TLSClient (c : tls_Config (Cert := Cert)) (raw : S)
  | TLSServer (c : tls_Config (Cert := Cert)) (raw : S)
  | TLSServerPeeked (c : tls_Config (Cert := Cert)) (p : peekConn)
  | PlainPeeked (p : peekConn).
Arguments wrapped Cert : clear implicits.

Definition Conn {Cert} (cm : contextManager (Cert := Cert)) (raw : S) : Go (wrapped Cert) :=
  if cg_isClient cm then x ← deref (defaultContext cm); Ret (TLSClient (x_tlsConfig x) raw)
  else if negb (cg_inspector cm) then x ← deref (defaultContext cm); Ret (TLSServer (x_tlsConfig x) raw)
  else
  let '(buf, c) := conn_Peek (mk_peek raw Init.Byte.x00 false) in
  match buf with
  | None => x ← deref (defaultContext cm); Ret (TLSServerPeeked (x_tlsConfig x) c)
  | Some b => if bool_decide (byte_to_Z b = 22) then x ← deref (defaultContext cm); Ret (TLSServerPeeked (x_tlsConfig x) c) else Ret (PlainPeeked c)
  end.
End peeking.
