(* ===== verification/TlsProps.v ===== *)
(** * Theorems about TLS contexts *)

From Stdlib Require Import Ascii.
From S2P Require Import Prelude GoStrings ConfigTypes Tls.

Local Open Scope Z_scope.

(** ** Labels *)

Lemma Split_cons s sep : ∃ p ps, Split s sep = p :: ps.
Proof. induction s as [|c s (p & ps & E)]; cbn; [eauto|]. rewrite E. case_bool_decide; eauto. Qed.
Lemma join_Split s sep : join_with sep (Split s sep) = s.
Proof.
  induction s as [|c s IH]; [done|]. cbn [Split]. destruct (Split_cons s sep) as (p & ps & E). rewrite E in *. case_bool_decide as Hc.
  - subst c. cbn [join_with]. cbn [join_with] in IH. by rewrite <- IH.
  - by destruct ps; cbn [join_with] in *; rewrite <- IH.
Qed.

(** The parts of a text at a separator: each way to cut it there is a proper suffix of
    its parts. *)
Lemma Split_app p q sep : ∃ l, Split (p +:+ String.String sep q) sep = l ++ Split q sep ∧ l ≠ [].
Proof.
  induction p as [|c p (l & E & Hl)].
  - change (EmptyString +:+ ?s) with s. cbn [Split]. rewrite bool_decide_true by done. by exists [EmptyString].
  - change (String.String c p +:+ ?s) with (String.String c (p +:+ s)). cbn [Split]. rewrite E. destruct l as [|x l]; [done|]. cbn [app]. case_bool_decide; [by exists (EmptyString :: x :: l)|by exists (String.String c x :: l)].
Qed.
Lemma wildcards_in w labels : w ∈ wildcards labels ↔ ∃ l rest, labels = l ++ rest ∧ l ≠ [] ∧ rest ≠ [] ∧ w = join_with "."%char ("*"%string :: rest).
Proof.
  induction labels as [|a labels IH]; cbn; [split; [by intros ?%elem_of_nil|intros (l & rest & E & Hl & _); by destruct l]|].
  destruct labels as [|b labels].
  - split; [by intros ?%elem_of_nil|]. intros (l & rest & E & Hl & Hr & _). destruct l as [|x [|y l]]; [done| |done]. injection E as _ E. by destruct rest.
  - rewrite elem_of_cons, IH. split.
    + intros [->|(l & rest & -> & Hl & Hr & ->)]; [by exists [a], (b :: labels)|by exists (a :: l), rest].
    + intros (l & rest & E & Hl & Hr & ->). destruct l as [|x l]; [done|]. injection E as <- E. destruct l as [|y l]; [left; cbn in E; by subst rest|right]. by exists (y :: l), rest.
Qed.
Lemma join_cons2 x l : l ≠ [] → join_with "."%char (x :: l) = x +:+ String.String "."%char (join_with "."%char l).
Proof. by destruct l. Qed.
Lemma join_app l rest : l ≠ [] → rest ≠ [] → join_with "."%char (l ++ rest) = join_with "."%char l +:+ String.String "."%char (join_with "."%char rest).
Proof.
  intros Hl Hr. induction l as [|x l IH]; [done|]. destruct l as [|y l]; [by apply join_cons2|]. change ((x :: y :: l) ++ rest) with (x :: ((y :: l) ++ rest)).
  rewrite join_cons2 by done. rewrite IH by done. rewrite (join_cons2 x (y :: l)) by done. by rewrite str_app_assoc.
Qed.
(** The wildcards of a name are its suffixes behind a dot, with a star in front. *)
Lemma wildcards_cover w name : w ∈ wildcards (Split name "."%char) ↔ ∃ p q, name = p +:+ String.String "."%char q ∧ w = String.String "*"%char (String.String "."%char q).
Proof.
  rewrite wildcards_in. split.
  - intros (l & rest & E & Hl & Hr & ->). exists (join_with "."%char l), (join_with "."%char rest). rewrite (join_cons2 "*"%string) by done. split; [|done].
    by rewrite <- join_app, <- E, join_Split.
  - intros (p & q & -> & ->). destruct (Split_app p q "."%char) as (l & E & Hl). exists l, (Split q "."%char). destruct (Split_cons q "."%char) as (x & xs & Eq).
    split_and!; [done|done|by rewrite Eq|]. rewrite join_cons2 by (by rewrite Eq). by rewrite join_Split.
Qed.

(** ** The contexts of a manager *)

Section tls.
  Context {Cert : Type} (X509KeyPair LoadX509KeyPair : string → string → option Cert)
          (ParseCertificate : Cert → option (string * list string))
          (ReadFile : string → option bytes) (AppendCertsFromPEM : bytes → bool).
  Abbreviation newTLSContext := (newTLSContext X509KeyPair LoadX509KeyPair ReadFile AppendCertsFromPEM).
  Abbreviation context := (context (Cert := Cert)).
  Abbreviation context_names := (context_names ParseCertificate).

(** The context of a server's settings. *)
Definition server_context (c : api_TLSConfig) : string + option context := (newTLSContext c (new_manager false)).1.
Lemma newTLSContext_server c cm : cg_isClient cm = false →
  newTLSContext c cm = (server_context c, match server_context c with inr (Some _) => if at_Inspector c then set_inspector true cm else cm | _ => cm end).
Proof.
  intros Hc. unfold server_context, Tls.newTLSContext. rewrite Hc. destruct (at_Status c); [|done]. cbn [negb new_manager cg_isClient fst].
  match goal with |- context [match ?r with inl e => _ | inr x => _ end] => destruct r end; done.
Qed.

Definition names_map (x : context) : gmap string context := fold_left (λ m n, <[n := x]> m) (context_names x) ∅.
Lemma names_map_lookup x k : names_map x !! k = if bool_decide (k ∈ context_names x) then Some x else None.
Proof.
  assert (∀ l (m : gmap string context), fold_left (λ m n, <[n := x]> m) l m !! k = if bool_decide (k ∈ l) then Some x else m !! k) as H.
  { induction l as [|n l IH]; intros m; [done|]. cbn [fold_left]. rewrite IH. destruct (decide (k ∈ l)) as [Hin|Hin].
    - by rewrite !bool_decide_true by set_solver.
    - rewrite (bool_decide_false (k ∈ l)) by done. destruct (decide (k = n)) as [->|Hne]; [by rewrite lookup_insert_eq, bool_decide_true by set_solver|].
      by rewrite lookup_insert_ne, bool_decide_false by set_solver. }
  unfold names_map. rewrite H. by rewrite lookup_empty.
Qed.

(** The names a client can be found by. *)
Definition client_keys (info : ClientHelloInfo) : list string :=
  (if bool_decide (hi_ServerName info = ""%string) then []
   else let name := strip_dots (ToLower (hi_ServerName info)) in name :: wildcards (Split name "."%char)) ++ (ToLower <$> hi_SupportedProtos info).
Lemma first_found_app m k1 k2 : first_found (Cert := Cert) m (k1 ++ k2) = match first_found m k1 with Some x => Some x | None => first_found m k2 end.
Proof. induction k1 as [|k k1 IH]; [done|]. cbn. destruct (m !! k); [done|]. apply IH. Qed.
Lemma match_map_keys info m : match_map (Cert := Cert) info m = first_found m (client_keys info).
Proof.
  unfold match_map, client_keys. case_bool_decide; [done|]. cbv zeta. rewrite first_found_app. cbn [first_found]. by destruct (m !! _).
Qed.
Lemma first_found_names x keys : first_found (names_map x) keys = if bool_decide (Exists (λ k, k ∈ context_names x) keys) then Some x else None.
Proof.
  induction keys as [|k keys IH]; [done|]. cbn [first_found]. rewrite names_map_lookup. destruct (decide (k ∈ context_names x)) as [H|H].
  - rewrite bool_decide_true by done. by rewrite bool_decide_true by (by left).
  - rewrite bool_decide_false by done. rewrite IH. erewrite bool_decide_ext; [reflexivity|]. rewrite Exists_cons. tauto.
Qed.
(** What covers a client: the name it asks for, a wildcard of that name, or one of its
    protocols is among the names of the context. *)
Definition covers (info : ClientHelloInfo) (x : context) : Prop :=
  (hi_ServerName info ≠ ""%string ∧ let name := strip_dots (ToLower (hi_ServerName info)) in
    name ∈ context_names x ∨ ∃ p q, name = p +:+ String.String "."%char q ∧ String.String "*"%char (String.String "."%char q) ∈ context_names x) ∨
  ∃ proto, proto ∈ hi_SupportedProtos info ∧ ToLower proto ∈ context_names x.
Lemma covers_keys info x : covers info x ↔ Exists (λ k, k ∈ context_names x) (client_keys info).
Proof.
  unfold covers, client_keys. rewrite Exists_app. rewrite (Exists_exists _ (ToLower <$> _)). f_equiv.
  - case_bool_decide as E; [split; [naive_solver|by intros ?%Exists_nil]|]. cbv zeta. rewrite Exists_cons, Exists_exists. split.
    + intros [_ [H|(p & q & Hn & H)]]; [by left|right]. eexists. split; [|exact H]. apply wildcards_cover. eauto.
    + intros [H|(w & (p & q & Hn & ->)%wildcards_cover & H)]; (split; [done|]); [by left|right; eauto].
  - setoid_rewrite list_elem_of_fmap. naive_solver.
Qed.
#[local] Instance covers_dec info x : Decision (covers info x).
Proof. destruct (decide (Exists (λ k, k ∈ context_names x) (client_keys info))) as [H|H]; [left|right]; by rewrite covers_keys. Defined.
Lemma match_map_covers info x : match_map info (names_map x) = if decide (covers info x) then Some x else None.
Proof.
  rewrite match_map_keys, first_found_names. destruct (decide (covers info x)) as [H|H]; rewrite covers_keys in H; [by rewrite bool_decide_true|by rewrite bool_decide_false].
Qed.

(** The contexts, chain by chain. *)
Definition map_of (o : option context) : option (gmap string context) := match o with Some x => Some (names_map x) | None => None end.
Definition maps_of (xs : list (option context)) : list (option (gmap string context)) := map map_of xs.
Fixpoint enabled (xs : list (option context)) : list context := match xs with [] => [] | Some x :: xs => x :: enabled xs | None :: xs => enabled xs end.
Definition chain_contexts (l : list api_FilterChain) (xs : list (option context)) : Prop := Forall2 (λ c o, server_context (afc_TLS c) = inr o) l xs.
Lemma put_at_end (m : option (gmap string context)) l : put_at (length l) m l = l ++ [m].
Proof. unfold put_at. by rewrite bool_decide_true by lia. Qed.
Lemma add_chains_spec l i first cm cm' : add_chains X509KeyPair LoadX509KeyPair ParseCertificate ReadFile AppendCertsFromPEM l i first cm = Some cm' →
  cg_isClient cm = false → i = length (cg_contextMap cm) → ∃ xs, chain_contexts l xs ∧
  cg_contextMap cm' = cg_contextMap cm ++ maps_of xs ∧
  cg_tlscontext cm' = (if first then match head (enabled xs) with Some x => Some x | None => cg_tlscontext cm end else cg_tlscontext cm).
Proof.
  revert i first cm. induction l as [|c l IH]; intros i first cm; cbn [add_chains].
  { intros [= <-] _ _. exists []. rewrite app_nil_r. split_and!; [constructor|done|by destruct first]. }
  intros E Hc ->. rewrite newTLSContext_server in E by done. destruct (server_context (afc_TLS c)) as [e|o] eqn:Eo; [done|].
  set (cm1 := match o with Some _ => if at_Inspector (afc_TLS c) then set_inspector true cm else cm | None => cm end) in *.
  assert (cg_isClient cm1 = false ∧ cg_contextMap cm1 = cg_contextMap cm ∧ cg_tlscontext cm1 = cg_tlscontext cm) as (H1 & H2 & H3) by (unfold cm1; destruct o, (at_Inspector (afc_TLS c)); done).
  destruct o as [x|]; fold cm1 in E.
  - destruct first; (apply IH in E as (xs & Hxs & Hm & Ht); [|done|cbn; rewrite H2, put_at_end, length_app; cbn; lia]);
      (exists (Some x :: xs); split_and!; [by constructor|rewrite Hm; cbn; rewrite H2, put_at_end, <- app_assoc; done|rewrite Ht; cbn; try rewrite H3; done]).
  - apply IH in E as (xs & Hxs & Hm & Ht); [|done|cbn; rewrite H2, put_at_end, length_app; cbn; lia].
    exists (None :: xs). split_and!; [by constructor|rewrite Hm; cbn; rewrite H2, put_at_end, <- app_assoc; done|]. rewrite Ht. cbn. by rewrite H3.
Qed.
Lemma match_maps_first info xs : match_maps info (maps_of xs) = head (filter (covers info) (enabled xs)).
Proof.
  induction xs as [|[x|] xs IH]; [done| |done]. cbn [maps_of map map_of match_maps enabled]. rewrite match_map_covers. rewrite filter_cons.
  by destruct (decide (covers info x)).
Qed.

(** C17. A client of a listener gets the settings of the first filter chain that covers it:
    one whose certificates, protocols or server name have the name the client asks for,
    a wildcard of it, or a protocol the client offers.  When no chain covers it, or there
    is only one chain, it gets the first chain with TLS. *)
Theorem certificate_for_client config cm info x0 xs : NewTLSServerContextManager X509KeyPair LoadX509KeyPair ParseCertificate ReadFile AppendCertsFromPEM config = Some cm →
  chain_contexts config xs → head (enabled xs) = Some x0 →
  GetConfigForClient cm info = Ret (x_tlsConfig (if bool_decide (length config = 1%nat) then x0 else default x0 (head (filter (covers info) (enabled xs))))).
Proof.
  intros E Hxs Hh. apply add_chains_spec in E as (xs' & Hxs' & Hm & Ht); [|done|done].
  assert (xs' = xs) as ->.
  { clear -Hxs Hxs'. revert xs' Hxs'. induction Hxs as [|c o l xs Ho _ IH]; intros xs' H; [by apply Forall2_nil_inv_l in H|].
    apply Forall2_cons_inv_l in H as (o' & xs'' & Ho' & H & ->). f_equal; [congruence|by apply IH]. }
  cbn in Hm, Ht. rewrite Hh in Ht. unfold GetConfigForClient. rewrite Hm.
  assert (length (maps_of xs) = length config) as -> by (unfold maps_of; rewrite length_map; symmetry; by eapply Forall2_length). rewrite Ht. case_bool_decide; [done|].
  rewrite match_maps_first. by destruct (head (filter (covers info) (enabled xs))).
Qed.

(** The default ciphers and curves are never used: a list that is given has an entry, and
    without one the list stays empty. *)
Lemma defaults_unused m f sep d err s : parse_list m f sep d err s = parse_list m f sep [] err s.
Proof.
  unfold parse_list. case_bool_decide; [done|]. unfold lookup_all. destruct (Split_cons s sep) as (p & ps & ->). cbn.
  destruct (m !! f p); [|done]. cbn. by destruct (mapM _ _).
Qed.
End tls.

(** ** Looking at the first byte *)

Section peeking.
  Context {S E : Type} (raw_read : nat → S → bytes * option E * S).

(** Reads of the connection below, and through the one that was peeked at: the bytes,
    and the state after them. *)
Fixpoint raw_reads (ns : list nat) (s : S) : bytes * S :=
  match ns with [] => ([], s) | n :: ns => let '(b, _, s) := raw_read n s in let '(bs, s) := raw_reads ns s in (b ++ bs, s) end.
Fixpoint peek_reads (ns : list nat) (c : peekConn) : Go (bytes * peekConn) :=
  match ns with
  | [] => Ret ([], c)
  | n :: ns => '(b, _, c) ← peek_Read raw_read n c; '(bs, c) ← peek_reads ns c; Ret (b ++ bs, c)
  end.
(** The sizes the connection below is read with. *)
Definition below (ns : list nat) : list nat := match ns with [] => [] | 1%nat :: ns => ns | n :: ns => (n - 1)%nat :: ns end.

Lemma peek_reads_plain ns c : pk_has c = false → let '(bs, s) := raw_reads ns (pk_conn c) in ∃ c', peek_reads ns c = Ret (bs, c') ∧ pk_conn c' = s ∧ pk_has c' = false.
Proof.
  revert c. induction ns as [|n ns IH]; intros [s b has] Hc; cbn in Hc; subst has; [by eexists|]. cbn [raw_reads peek_reads pk_conn]. unfold peek_Read. cbn [pk_has pk_conn].
  destruct (raw_read n s) as [[b1 e] s1]. cbn [mbind Go_bind]. specialize (IH (mk_peek s1 b false) eq_refl). cbn [pk_conn pk_byte] in *. destruct (raw_reads ns s1) as [bs s2].
  destruct IH as (c' & -> & Hc' & Hh). by exists c'.
Qed.

(** Looking at the first byte of a connection loses nothing: reads of at least one byte
    deliver that byte and then what the connection below delivers, in order, whatever
    their sizes are. *)
Theorem peek_loses_nothing s ns b c : conn_Peek raw_read (mk_peek s Init.Byte.x00 false) = (Some b, c) → Forall (λ n, 0 < n)%nat ns → ns ≠ [] →
  ∃ c', peek_reads ns c = Ret (b :: (raw_reads (below ns) (pk_conn c)).1, c') ∧ pk_conn c' = (raw_reads (below ns) (pk_conn c)).2 ∧ pk_has c' = false.
Proof.
  unfold conn_Peek. cbn [pk_conn]. destruct (raw_read 1 s) as [[[|x l] e] s1]; [done|]. intros [= -> <-] Hns Hne. destruct Hns as [|n ns Hn _]; [done|].
  cbn [pk_conn peek_reads]. unfold peek_Read. cbn [pk_has pk_conn pk_byte]. destruct n as [|[|n]]; [lia| |].
  - cbn [mbind Go_bind below]. pose proof (peek_reads_plain ns (mk_peek s1 b false) eq_refl) as H. cbn [pk_conn] in H. destruct (raw_reads ns s1) as [bs s2].
    destruct H as (c' & -> & Hc' & Hh). by exists c'.
  - cbn [below raw_reads]. replace (Datatypes.S (Datatypes.S n) - 1)%nat with (Datatypes.S n) by lia. destruct (raw_read (Datatypes.S n) s1) as [[b1 e1] s2]. cbn [mbind Go_bind].
    pose proof (peek_reads_plain ns (mk_peek s2 b false) eq_refl) as H. cbn [pk_conn] in H. destruct (raw_reads ns s2) as [bs s3]. destruct H as (c' & -> & Hc' & Hh). by exists c'.
Qed.
End peeking.

(** ** Examples: a certificate is its names, and every key pair is one *)

Definition demo_pair (chain key : string) : option (list string) := Some (Split chain ","%char).
Definition demo_names (c : list string) : option (string * list string) := Some (""%string, c).
Definition demo_tls (names alpn : string) : api_TLSConfig := mk_api_tls true false "" "" names "key" false false "" "" "" "" alpn "".
Definition demo_chain (names alpn : string) : api_FilterChain := mk_api_chain "" (demo_tls names alpn) [].
Abbreviation demo_manager l := (NewTLSServerContextManager demo_pair demo_pair demo_names (λ _, None) (λ _, false) l).
Abbreviation demo_context names alpn := (server_context demo_pair demo_pair (λ _, None) (λ _, false) (demo_tls names alpn)).
Definition names_given (r : Go (tls_Config (Cert := list string))) : option (list (list string)) := match r with Ret c => Some (tc_Certificates c) | Panic _ => None end.
Definition demo_get (cm : option (contextManager (Cert := list string))) (name : string) (protos : list string) : option (list (list string)) :=
  match cm with Some cm => names_given (GetConfigForClient cm (mk_hello name protos)) | None => None end.

Lemma certificate_for_client_witness : ∃ cm, demo_manager [demo_chain "a.com,*.b.com" ""; demo_chain "c.com" "h2"] = Some cm ∧
  names_given (GetConfigForClient cm (mk_hello "X.c.com" ["h2"%string])) = Some [["c.com"%string]] ∧
  names_given (GetConfigForClient cm (mk_hello "www.B.com." [])) = Some [["a.com"; "*.b.com"]%string].
Proof.
  destruct (demo_manager [demo_chain "a.com,*.b.com" ""; demo_chain "c.com" "h2"]) as [cm|] eqn:E; [|by vm_compute in E]. exists cm. split; [done|].
  destruct (demo_context "a.com,*.b.com" "") as [e|[x|]] eqn:Ex; [by vm_compute in Ex| |by vm_compute in Ex].
  destruct (demo_context "c.com" "h2") as [e|[y|]] eqn:Ey; [by vm_compute in Ey| |by vm_compute in Ey].
  assert (chain_contexts demo_pair demo_pair (λ _, None) (λ _, false) [demo_chain "a.com,*.b.com" ""; demo_chain "c.com" "h2"] [Some x; Some y]) as Hxs by (by repeat constructor).
  rewrite !(certificate_for_client demo_pair demo_pair demo_names (λ _, None) (λ _, false) _ cm _ x _ E Hxs eq_refl).
  vm_compute in Ex. vm_compute in Ey. injection Ex as <-. injection Ey as <-. split; vm_compute; reflexivity.
Defined.

(** The order of the chains comes before the kind of match: a chain that has the
    client's protocol is taken before one that has its server name. *)
Example protocol_before_name : demo_get (demo_manager [demo_chain "a.com" "h2"; demo_chain "c.com" ""]) "c.com" ["h2"%string] = Some [["a.com"%string]].
Proof. vm_compute. reflexivity. Qed.
(** The names of a certificate and the protocols of a chain are not folded: one in upper
    case is found by no client. *)
Example upper_case_not_found : demo_get (demo_manager [demo_chain "a.com" ""; demo_chain "C.com" "H2"]) "C.com" ["H2"%string] = Some [["a.com"%string]].
Proof. vm_compute. reflexivity. Qed.
(** A context that was deleted stays the default. *)
Example deleted_stays_default :
  demo_get (DelTLSServerContext (demo_manager [demo_chain "a.com" ""; demo_chain "c.com" ""]) 0).2 "c.com" [] = Some [["a.com"%string]].
Proof. vm_compute. reflexivity. Qed.
(** Adding settings that are off panics. *)
Example adding_disabled_panics :
  AddTLSServerContext demo_pair demo_pair demo_names (λ _, None) (λ _, false) no_tls (demo_manager [demo_chain "a.com" ""]) 1 = Panic NilDeref.
Proof. vm_compute. reflexivity. Qed.

(** A connection that holds these bytes. *)
Definition demo_read (n : nat) (s : bytes) : bytes * option unit * bytes := (take n s, None, drop n s).
Lemma peek_loses_nothing_witness : ∃ c', peek_reads demo_read [1; 2; 3]%nat (mk_peek (str_bytes "ello!") (byte_of_Z 104) true) = Ret (str_bytes "hello!", c').
Proof.
  destruct (peek_loses_nothing demo_read (str_bytes "hello!") [1; 2; 3]%nat (byte_of_Z 104) (mk_peek (str_bytes "ello!") (byte_of_Z 104) true)) as (c' & E & _);
    [reflexivity|repeat constructor|done|]. exists c'. exact E.
Defined.
(** A read of no bytes after the peek panics. *)
Example empty_read_panics : peek_Read demo_read 0 (mk_peek [] (byte_of_Z 104) true) = Panic SliceBounds.
Proof. reflexivity. Qed.
