(* ===== verification/Xds.v ===== *)
(** * Configuration from a control plane: pkg/config/convertxds.go and callback.go

    The messages of the control plane are generated code; the records [x_...] have the
    fields of theirs that are read.  A getter of a missing message gives the zero value, so
    a missing wrapper reads as 0 or false.  Parameters are what packages outside the
    sources make of messages: the text of a message ([struct_text], [source_text]), the
    message in a structure ([to_hcm], [to_xproxy], [to_tcp], [to_file_log]), the map of a
    struct's fields ([structs_Map]); and those of [Config]. *)

From Stdlib Require Import Ascii.
From S2P Require Import Prelude Strconv GoStrings GoTime GoNet Cluster StateGo ClusterHosts ClusterManager ConfigTypes Config Tls Logger Handler Startup.

Local Open Scope Z_scope.

Section xds.
  Context {Struct DataSource : Type}.

(** ** Messages *)

Inductive x_port := PortValue (p : Z) | NamedPort (s : string) | NoPort.
Inductive x_Address := SocketAddress (addr : string) (port : x_port) | Pipe (path : string) | NoAddress.

Record x_TlsCertificate := mk_x_cert { xtc_chain : option DataSource; xtc_key : option DataSource }.
Record x_TlsParameters := mk_x_params { xtp_min : string; xtp_max : string; xtp_ciphers : list string; xtp_curves : list string }.
Record x_CommonTlsContext := mk_x_common {
  xcc_certs : list x_TlsCertificate; xcc_trusted_ca : option DataSource; xcc_alpn : list string; xcc_params : option x_TlsParameters;
}.
Inductive x_TlsContext :=
  | DownstreamTls (require_client_cert : option bool) (common : option x_CommonTlsContext)
  | UpstreamTls (sni : string) (common : option x_CommonTlsContext).

Record x_HeaderMatcher := mk_x_hm { xhm_name : string; xhm_value : string; xhm_regex : option bool }.
Inductive x_path := XPrefix (s : string) | XPath (s : string) | XRegex (s : string) | XNoPath.
Record x_RouteMatch := mk_x_match {
  xm_path : x_path; xm_case_sensitive : option bool; xm_runtime : option (Z * string); xm_headers : list x_HeaderMatcher;
}.
Abbreviation x_Metadata := (option (gmap string Struct)).
Record x_ClusterWeight := mk_x_cw { xcw_name : string; xcw_weight : option Z; xcw_metadata : x_Metadata }.
Inductive x_cluster_specifier := XCluster (s : string) | XClusterHeader (s : string) | XWeighted (l : list (option x_ClusterWeight)) (prefix : string) | XNoCluster.
Record x_RetryPolicy := mk_x_rp { xrp_retry_on : string; xrp_per_try_timeout : option Z; xrp_num_retries : option Z }.
Record x_RouteAction := mk_x_ra { xra_cluster : x_cluster_specifier; xra_metadata : x_Metadata; xra_timeout : option Z; xra_retry : option x_RetryPolicy }.
Record x_RedirectAction := mk_x_rd { xrd_host : string; xrd_path : string; xrd_code : Z }.
Inductive x_action := XRoute (a : x_RouteAction) | XRedirect (a : x_RedirectAction) | XNoAction.
Record x_Route := mk_x_route { xr_match : x_RouteMatch; xr_action : x_action; xr_metadata : x_Metadata; xr_decorator : string }.
Record x_VirtualCluster := mk_x_vc { xvc_pattern : string; xvc_name : string; xvc_method : string }.
Record x_VirtualHost := mk_x_vh {
  xvh_name : string; xvh_domains : list string; xvh_routes : list x_Route; xvh_require_tls : string; xvh_virtual_clusters : list x_VirtualCluster;
}.
Abbreviation x_RouteConfiguration := (list x_VirtualHost).

Record x_AccessLog := mk_x_al { xal_name : string; xal_config : Struct }.
Record x_HttpConnectionManager := mk_x_hcm { xh_access_log : list x_AccessLog; xh_route_config : option x_RouteConfiguration }.
Record x_XProxy := mk_x_xp { xx_access_log : list x_AccessLog; xx_downstream : string; xx_upstream : string; xx_route_config : option x_RouteConfiguration }.
Record x_Filter := mk_x_filter { xf_name : string; xf_config : option Struct }.
Record x_FilterChain := mk_x_chain { xfc_match : string; xfc_tls : option x_TlsContext; xfc_filters : list x_Filter }.
Record x_Listener := mk_x_listener {
  xl_name : string; xl_address : x_Address; xl_chains : list x_FilterChain; xl_use_original_dst : option bool;
  xl_buffer_limit : option Z; xl_bind_to_port : option (option bool);
}.

Inductive x_discovery := XStatic | XStrictDns | XLogicalDns | XEds | XOriginalDst.
Inductive x_lb_policy := XRoundRobin | XLeastRequest | XRingHash | XRandom | XOriginalDstLb | XMaglev.
Record x_LbSubsetConfig := mk_x_lbs { xls_policy : Z; xls_default : option (gmap string string); xls_selectors : list (list string) }.
(** A duration of a message has seconds and nanoseconds. *)
Abbreviation x_Duration := (Z * Z)%type.
Record x_HealthCheck := mk_x_hc {
  xhc_timeout : option Z; xhc_interval : option Z; xhc_jitter : option x_Duration; xhc_healthy : option Z; xhc_unhealthy : option Z;
}.
Record x_Thresholds := mk_x_thr { xth_priority : string; xth_connections : option Z; xth_pending : option Z; xth_requests : option Z; xth_retries : option Z }.
Record x_OutlierDetection := mk_x_od {
  xod_consecutive_5xx : option Z; xod_interval : option x_Duration; xod_base_ejection : option x_Duration; xod_max_ejection : option Z;
  xod_enforcing_5xx : option Z; xod_enforcing_gateway : option Z; xod_enforcing_success : option Z; xod_min_hosts : option Z;
  xod_volume : option Z; xod_stdev : option Z;
}.
Record x_Cluster := mk_x_cluster {
  xc_name : string; xc_type : x_discovery; xc_lb : x_lb_policy; xc_subset : option x_LbSubsetConfig; xc_max_requests : option Z;
  xc_buffer_limit : option Z; xc_health_checks : list (option x_HealthCheck); xc_breakers : option (list x_Thresholds);
  xc_outlier : option x_OutlierDetection; xc_hosts : list x_Address; xc_eds_service : option string; xc_tls : option x_TlsContext;
}.
Record x_LbEndpoint := mk_x_ep { xe_address : x_Address; xe_weight : option Z; xe_metadata : x_Metadata }.
Record x_ClusterLoadAssignment := mk_x_cla { xla_cluster : string; xla_endpoints : list (list x_LbEndpoint) }.

(** ** Conversions *)

  Context (struct_text : Struct → string) (source_text : DataSource → string)
          (to_hcm : Struct → x_HttpConnectionManager) (to_xproxy : Struct → x_XProxy) (to_tcp : Struct → list x_AccessLog)
          (to_file_log : Struct → string * string) (structs_Map : api_Proxy → gmap string value) (resolve : string → option TCPAddr).

Definition HTTPConnectionManager : string := "envoy.http_connection_manager".
Definition TCPProxy : string := "envoy.tcp_proxy".
Definition FileAccessLog : string := "envoy.file_access_log".
Definition RPC_PROXY : string := "rpc_proxy".
Definition X_PROXY : string := "x_proxy".
Definition supportFilter : gset string := {[HTTPConnectionManager; RPC_PROXY; X_PROXY]}.
Definition httpBaseConfig : gset string := {[HTTPConnectionManager; RPC_PROXY]}.

Definition isSupport (l : option x_Listener) : bool :=
  match l with
  | None => false
  | Some l =>
    bool_decide (xl_name l = "virtual"%string) ||
    forallb (λ c, forallb (λ f, bool_decide (xf_name f ∈ supportFilter)) (xfc_filters c)) (xl_chains l)
  end.
Definition convertBindToPort (o : option (option bool)) : bool := match o with Some (Some b) => b | _ => true end.

Definition convertDuration (p : option x_Duration) : Z := match p with None => 0 | Some (seconds, nanos) => to_int64 (seconds * 1000000000) end.
Definition convertTimeDurPoint2TimeDur (d : option Z) : Z := default 0 d.
Definition convertMeta (m : x_Metadata) : Metadata := match m with None => ∅ | Some m => (λ s, VStr (struct_text s)) <$> m end.
Definition convertRuntime (r : option (Z * string)) : api_RuntimeUInt32 := match r with None => mk_api_rt 0 "" | Some (v, k) => mk_api_rt v k end.
Definition convertHeaders (l : list x_HeaderMatcher) : list api_HeaderMatcher :=
  (λ h, mk_api_hm (xhm_name h) (xhm_value h) (default false (xhm_regex h))) <$> l.
Definition convertRouteMatch (m : x_RouteMatch) : api_RouterMatch :=
  mk_api_match (match xm_path m with XPrefix s => s | _ => "" end) (match xm_path m with XPath s => s | _ => "" end)
    (match xm_path m with XRegex s => s | _ => "" end) (default false (xm_case_sensitive m)) (convertRuntime (xm_runtime m)) (convertHeaders (xm_headers m)).
Definition convertWeightedCluster (c : option x_ClusterWeight) : api_ClusterWeight :=
  match c with None => mk_api_cw "" 0 ∅ | Some c => mk_api_cw (xcw_name c) (default 0 (xcw_weight c)) (convertMeta (xcw_metadata c)) end.
Definition convertWeightedClusters (s : x_cluster_specifier) : list api_WeightedCluster :=
  match s with XWeighted l prefix => (λ c, mk_api_wc (convertWeightedCluster c) prefix) <$> l | _ => [] end.
Definition convertRetryPolicy (r : option x_RetryPolicy) : api_RetryPolicy :=
  match r with
  | None => mk_api_rp false 0 0
  | Some r => mk_api_rp (bool_decide (0 < slen (xrp_retry_on r))%nat) (convertTimeDurPoint2TimeDur (xrp_per_try_timeout r)) (default 0 (xrp_num_retries r))
  end.
Definition convertRouteAction (a : x_RouteAction) : api_RouteAction :=
  mk_api_ra (match xra_cluster a with XCluster s => s | _ => "" end) (match xra_cluster a with XClusterHeader s => s | _ => "" end)
    (convertWeightedClusters (xra_cluster a)) (convertMeta (xra_metadata a)) (convertTimeDurPoint2TimeDur (xra_timeout a))
    (Some (convertRetryPolicy (xra_retry a))).
Definition convertRedirectAction (a : x_RedirectAction) : api_RedirectAction := mk_api_rd (xrd_host a) (xrd_path a) (to_uint32 (xrd_code a)).
(** The parts of a router that are not set are zero. *)
Definition no_action : api_RouteAction := mk_api_ra "" "" [] ∅ 0 None.
Definition no_redirect : api_RedirectAction := mk_api_rd "" "" 0.
Definition convertRoutes (l : list x_Route) : list api_Router :=
  omap (λ r, match xr_action r with
    | XRoute a => Some (mk_api_router (convertRouteMatch (xr_match r)) (convertRouteAction a) no_redirect (convertMeta (xr_metadata r)) (xr_decorator r))
    | XRedirect a => Some (mk_api_router (convertRouteMatch (xr_match r)) no_action (convertRedirectAction a) (convertMeta (xr_metadata r)) (xr_decorator r))
    | XNoAction => None
    end) l.
Definition convertVirtualClusters (l : list x_VirtualCluster) : list api_VirtualCluster :=
  (λ v, mk_api_vc (xvc_pattern v) (xvc_name v) (xvc_method v)) <$> l.
Definition convertVirtualHosts (c : option x_RouteConfiguration) : list api_VirtualHost :=
  match c with
  | None => []
  | Some l => (λ v, mk_api_vh (xvh_name v) (xvh_domains v) (convertRoutes (xvh_routes v)) (xvh_require_tls v) (convertVirtualClusters (xvh_virtual_clusters v))) <$> l
  end.

(** The configuration of a filter: the fields of a proxy by their names. *)
Definition convertFilterConfig (name : string) (s : option Struct) : option (gmap string value) :=
  match s with
  | None => None
  | Some s =>
    let proxy down up routes := Some (structs_Map (mk_api_proxy "" down up true [] (convertVirtualHosts routes) false)) in
    if bool_decide (name = HTTPConnectionManager) then proxy "Http2"%string "Http2"%string (xh_route_config (to_hcm s))
    else if bool_decide (name = RPC_PROXY) then proxy "SofaRpc"%string "SofaRpc"%string (xh_route_config (to_hcm s))
    else if bool_decide (name = X_PROXY) then proxy (xx_downstream (to_xproxy s)) (xx_upstream (to_xproxy s)) (xx_route_config (to_xproxy s))
    else None
  end.
Definition convertFilters (l : list x_Filter) : list api_Filter :=
  (λ f, mk_api_filter DEFAULT_NETWORK_FILTER (convertFilterConfig (xf_name f) (xf_config f))) <$> l.

Definition file_logs (l : list x_AccessLog) : list api_AccessLog :=
  (λ a, let '(path, format) := to_file_log (xal_config a) in mk_api_al path format) <$> filter (λ a, xal_name a = FileAccessLog) l.
(** A filter without configuration decodes to an empty message. *)
Definition filter_logs (f : x_Filter) : list api_AccessLog :=
  match xf_config f with
  | None => []
  | Some s =>
    if bool_decide (xf_name f ∈ httpBaseConfig) then file_logs (xh_access_log (to_hcm s))
    else if bool_decide (xf_name f = TCPProxy) then file_logs (to_tcp s)
    else if bool_decide (xf_name f = X_PROXY) then file_logs (xx_access_log (to_xproxy s))
    else []
  end.
Definition convertAccessLogs (l : option x_Listener) : list api_AccessLog :=
  match l with None => [] | Some l => xl_chains l ≫= λ c, xfc_filters c ≫= filter_logs end.

Definition last_certificate (l : list x_TlsCertificate) : string * string :=
  fold_left (λ acc c, match xtc_chain c, xtc_key c with
    | Some chain, Some key => (source_text chain, source_text key)
    | _, _ => acc
    end) l (""%string, ""%string).
(** [Fatalf] only writes to the log. *)
Definition convert_common (downstream verify_client : bool) (sni : string) (common : option x_CommonTlsContext) : api_TLSConfig :=
  match common with
  | None => mk_api_tls false false sni "" "" "" verify_client false "" "" "" "" "" ""
  | Some common =>
    let '(chain, key) := last_certificate (xcc_certs common) in
    let ca := from_option source_text ""%string (xcc_trusted_ca common) in
    let param {A} (f : x_TlsParameters → A) (zero : A) := from_option f zero (xcc_params common) in
    let on := negb (downstream && (bool_decide (chain = ""%string) || bool_decide (key = ""%string))) in
    mk_api_tls on on sni ca chain key verify_client false
      (param (λ p, join_with ":"%char (xtp_ciphers p)) ""%string) (param (λ p, join_with ","%char (xtp_curves p)) ""%string)
      (param xtp_min ""%string) (param xtp_max ""%string) (join_with ","%char (xcc_alpn common)) ""
  end.
(** The context is an interface that holds a pointer, perhaps a nil one. *)
Definition convertTLS (c : option x_TlsContext) : api_TLSConfig :=
  match c with
  | None => no_tls
  | Some (DownstreamTls verify common) => convert_common true (default false verify) "" common
  | Some (UpstreamTls sni common) => convert_common false false sni common
  end.

Definition convertFilterChains (l : list x_FilterChain) : list api_FilterChain :=
  (λ c, mk_api_chain (xfc_match c) (convertTLS (xfc_tls c)) (convertFilters (xfc_filters c))) <$> l.

Definition convertAddress (a : x_Address) : option TCPAddr :=
  match a with
  | SocketAddress addr (PortValue p) => resolve (addr +:+ ":" +:+ FormatUint p)
  | _ => None
  end.

Definition LogLevel_INFO : Z := 3.
(** Whether the only filter of the only chain is for a protocol with I/O of its own. *)
Definition only_http (l : list api_FilterChain) : bool :=
  match l with
  | [c] => match afc_Filters c with
           | [f] => match af_Config f with
                    | Some m => match m !! "DownstreamProtocol"%string with
                                | Some (VStr v) => bool_decide (v = "Http2"%string) || bool_decide (v = "Http1"%string)
                                | _ => false
                                end
                    | None => false
                    end
           | _ => false
           end
  | _ => false
  end.
Definition convertListenerConfig (l : option x_Listener) : option api_ListenerConfig :=
  match l with
  | None => None
  | Some l' =>
    if negb (isSupport l) then None
    else
    let chains := if bool_decide (xl_name l' = "virtual"%string) then [] else convertFilterChains (xl_chains l') in
    Some (mk_api_listener (xl_name l') (convertAddress (xl_address l')) (convertBindToPort (xl_bind_to_port l')) None
            (default 0 (xl_buffer_limit l')) "stdout" LogLevel_INFO (convertAccessLogs l) (default false (xl_use_original_dst l'))
            (only_http chains) chains)
  end.

(** *** Clusters *)

Definition convertClusterType (t : x_discovery) : string := match t with XEds => "EDS" | _ => "SIMPLE" end.
Definition convertLbPolicy (p : x_lb_policy) : string := match p with XRoundRobin => "LB_ROUNDROBIN" | _ => "LB_RANDOM" end.
(** The values of the default subset are the texts of the message's. *)
Definition convertTypesStruct (s : option (gmap string string)) : gmap string string := default ∅ s.
Definition convertSubsetSelectors (l : list (list string)) : list (list string) := l.
Definition convertLbSubSetConfig (c : option x_LbSubsetConfig) : api_LBSubsetConfig :=
  match c with
  | None => mk_api_lbs 0 ∅ []
  | Some c => mk_api_lbs (to_uint8 (xls_policy c)) (convertTypesStruct (xls_default c)) (convertSubsetSelectors (xls_selectors c))
  end.
(** A timeout or an interval that is missing is a nil pointer that is read. *)
Definition convertHealthChecks (l : list (option x_HealthCheck)) : Go api_HealthCheck :=
  match l with
  | Some h :: _ =>
    match xhc_timeout h, xhc_interval h with
    | Some timeout, Some interval =>
      Ret (mk_api_hc "" timeout interval (convertDuration (xhc_jitter h)) (default 0 (xhc_healthy h)) (default 0 (xhc_unhealthy h)) "" "")
    | _, _ => Panic NilDeref
    end
  | _ => Ret no_health_check
  end.
Definition convertCircuitBreakers (c : option (list x_Thresholds)) : list api_Thresholds :=
  match c with
  | None => []
  | Some l => (λ t, mk_api_thr (xth_priority t) (default 0 (xth_connections t)) (default 0 (xth_pending t)) (default 0 (xth_requests t)) (default 0 (xth_retries t))) <$> l
  end.
(** The fifth and the sixth field are filled from others' settings. *)
Definition convertOutlierDetection (o : option x_OutlierDetection) : api_OutlierDetection :=
  match o with
  | None => no_outlier_detection
  | Some o => mk_api_od (default 0 (xod_consecutive_5xx o)) (convertDuration (xod_interval o)) (convertDuration (xod_base_ejection o))
      (default 0 (xod_max_ejection o)) (default 0 (xod_enforcing_5xx o)) (default 0 (xod_consecutive_5xx o)) (default 0 (xod_enforcing_gateway o))
      (default 0 (xod_enforcing_success o)) (default 0 (xod_min_hosts o)) (default 0 (xod_volume o)) (default 0 (xod_stdev o))
  end.
Definition convertSpec (c : x_Cluster) : list string := match xc_eds_service c with None => [] | Some s => [s] end.
(** An address that is not one is nil, and its text is asked for. *)
Definition convertClusterHosts (l : list x_Address) : Go (list api_Host) :=
  mapM (λ a, match convertAddress a with Some t => Ret (mk_api_host (TCPAddr_String t) "" 0 ∅) | None => Panic NilDeref end) l.
Definition convert_cluster (c : x_Cluster) : Go api_Cluster :=
  hc ← convertHealthChecks (xc_health_checks c);
  hosts ← convertClusterHosts (xc_hosts c);
  Ret (mk_api_cluster (xc_name c) (convertClusterType (xc_type c)) (convertLbPolicy (xc_lb c)) (default 0 (xc_max_requests c))
         (default 0 (xc_buffer_limit c)) (convertCircuitBreakers (xc_breakers c)) (convertOutlierDetection (xc_outlier c)) hc (convertSpec c)
         (convertLbSubSetConfig (xc_subset c)) (convertTLS (xc_tls c)) hosts).
Definition convertClustersConfig (l : list x_Cluster) : Go (list api_Cluster) := mapM convert_cluster l.

Definition endpoint_address (a : x_Address) : option string :=
  match a with
  | SocketAddress addr (PortValue p) => Some (addr +:+ ":" +:+ FormatUint p)
  | SocketAddress addr (NamedPort p) => Some (addr +:+ ":" +:+ p)
  | SocketAddress _ NoPort => None
  | Pipe path => Some path
  | NoAddress => None
  end.
(** An endpoint without an address is left out. *)
Definition convertEndpointsConfig (l : list x_LbEndpoint) : list api_Host :=
  omap (λ e, match endpoint_address (xe_address e) with
             | Some address => Some (mk_api_host address "" (default 0 (xe_weight e)) (convertMeta (xe_metadata e)))
             | None => None
             end) l.

(** ** Updates: callback.go *)

  Context {L Ctx : Type} `{!Balancer L Ctx} (grow : nat → nat).
  Context (decode_proxy : option (gmap string value) → option (option cf_Proxy)) (files : log_env).

(** Clusters: all are converted before the first is registered. *)
Fixpoint register_clusters (l : list api_Cluster) : SG (clusterManager L) (option string) :=
  match l with
  | [] => mret None
  | c :: l =>
    err ← (if bool_decide (ac_ClusterType c = "EDS"%string) then TriggerClusterAddedOrUpdate (Ctx := Ctx) (cluster_of c)
           else TriggerClusterAndHostsAddedOrUpdate (Ctx := Ctx) grow (cluster_of c) (host_config_of <$> ac_Hosts c));
    match err with Some e => mret (Some e) | None => register_clusters l end
  end.
Definition OnUpdateClusters (l : list x_Cluster) : SG (clusterManager L) (option string) :=
  cs ← sg_lift (convertClustersConfig l);
  register_clusters cs.

Fixpoint update_localities (name : string) (l : list (list x_LbEndpoint)) : SG (clusterManager L) (option string) :=
  match l with
  | [] => mret None
  | endpoints :: l =>
    err ← TriggerClusterHostUpdate (Ctx := Ctx) grow name (host_config_of <$> convertEndpointsConfig endpoints);
    match err with Some e => mret (Some e) | None => update_localities name l end
  end.
Fixpoint OnUpdateEndpoints (l : list x_ClusterLoadAssignment) : SG (clusterManager L) (option string) :=
  match l with
  | [] => mret None
  | a :: l =>
    err ← update_localities (xla_cluster a) (xla_endpoints a);
    match err with Some e => mret (Some e) | None => OnUpdateEndpoints l end
  end.

(** Listeners: the first server, if there is one, the factories of its listeners, the
    listeners that were started, the stream filters all of them get, and the loggers. *)
Record xds_state := mk_xs {
  xs_server : option server; xs_factories : list (option (api_Proxy * list stream_factory)); xs_started : list nat;
  xs_streamFilter : option (list stream_factory); xs_logs : logs;
}.
Definition SetGlobalStreamFilter (l : option (list stream_factory)) : SG xds_state unit :=
  sg_modify (λ s, match xs_streamFilter s with
    | None => mk_xs (xs_server s) (xs_factories s) (xs_started s) l (xs_logs s)
    | Some _ => s
    end).

(** The proxy of the last filter that is one. *)
Fixpoint proxy_of_filters (acc : option api_Proxy) (l : list api_Filter) : Go (option api_Proxy) :=
  match l with
  | [] => Ret acc
  | f :: l =>
    if bool_decide (af_Name f = DEFAULT_NETWORK_FILTER) then p ← ParseProxyFilterJSON decode_proxy f; proxy_of_filters (Some p) l
    else proxy_of_filters acc l
  end.

Definition update_listener (lc : api_ListenerConfig) : SG xds_state (option string) :=
  proxy ← (if al_HandOffRestoredDestinationConnections lc then mret None
           else sg_lift (proxy_of_filters None (al_FilterChains lc ≫= afc_Filters)));
  if negb (al_HandOffRestoredDestinationConnections lc) && bool_decide (¬ is_Some proxy)
  then mret (Some "xds client update listener error: proxy needed in network filters"%string)
  else
  s ← sg_get;
  match xs_server s with
  | None => sg_lift fatal
  | Some srv =>
    if bool_decide (al_Name lc ∈ ListenerInMap srv) then mret None
    else
    l ← sg_lift (listener_of lc);
    '(o, (lg, srv)) ← sg_lift (srv_AddListener files l (length (xs_factories s)) (xs_logs s, srv));
    _ ← sg_modify (λ s, mk_xs (Some srv) (xs_factories s ++ [(λ p, (p, default [] (xs_streamFilter s))) <$> proxy])
                         (xs_started s ++ match o with Some i => [i] | None => [] end) (xs_streamFilter s) lg);
    mret None
  end.
Fixpoint OnUpdateListeners (l : list (option x_Listener)) : SG xds_state (option string) :=
  match l with
  | [] => mret None
  | x :: l =>
    match convertListenerConfig x with
    | None => OnUpdateListeners l
    | Some lc =>
      err ← update_listener lc;
      match err with Some e => mret (Some e) | None => OnUpdateListeners l end
    end
  end.
End xds.
