(* ===== verification/XdsProps.v ===== *)
(** * Theorems about configuration from a control plane *)

From Stdlib Require Import Ascii.
From S2P Require Import Prelude Strconv GoStrings GoTime GoNet Cluster StateGo ClusterHosts ClusterManager ClusterManagerProps ConfigTypes Config ConfigProps Tls Logger Handler Startup Xds.

Local Open Scope Z_scope.

(** ** Clusters and endpoints *)

Section registry.
  Context {Struct DataSource : Type} (struct_text : Struct → string) (source_text : DataSource → string) (resolve : string → option TCPAddr).
  Context {L Ctx : Type} `{!Balancer L Ctx} `{!BalancerLaws L Ctx} (grow : nat → nat).
  Abbreviation x_Cluster := (x_Cluster (DataSource := DataSource)).
  Abbreviation x_LbEndpoint := (x_LbEndpoint (Struct := Struct)).
  Abbreviation x_ClusterLoadAssignment := (x_ClusterLoadAssignment (Struct := Struct)).
  Abbreviation x_convert := (convert_cluster source_text resolve).

(** A health check, if there is one, has a timeout and an interval, and the addresses
    are socket addresses that resolve. *)
Definition convertible_check (l : list (option x_HealthCheck)) : bool :=
  match l with
  | Some h :: _ => bool_decide (is_Some (xhc_timeout h)) && bool_decide (is_Some (xhc_interval h))
  | _ => true
  end.
Definition convertible (c : x_Cluster) : bool :=
  convertible_check (xc_health_checks c) && forallb (λ a, bool_decide (is_Some (convertAddress resolve a))) (xc_hosts c).

Definition cluster_hosts (c : x_Cluster) : list string := omap (λ a, TCPAddr_String <$> convertAddress resolve a) (xc_hosts c).
(** A cluster whose endpoints come separately is registered once, with none; of the
    others the hosts are those of the update. *)
Definition spec_cluster (c : x_Cluster) (r : registry) : registry :=
  match xc_type c with
  | XEds => match r !! xc_name c with Some _ => r | None => <[xc_name c := ∅]> r end
  | _ => <[xc_name c := list_to_set (cluster_hosts c)]> r
  end.
Definition spec_clusters (l : list x_Cluster) (r : registry) : registry := fold_left (λ r c, spec_cluster c r) l r.

(** The endpoints of a cluster are those of the last locality. *)
Fixpoint spec_endpoints (l : list x_ClusterLoadAssignment) (r : registry) : option string * registry :=
  match l with
  | [] => (None, r)
  | a :: l =>
    match last (xla_endpoints a) with
    | None => spec_endpoints l r
    | Some es =>
      match r !! xla_cluster a with
      | Some _ => spec_endpoints l (<[xla_cluster a := list_to_set (omap (λ e, endpoint_address (xe_address e)) es)]> r)
      | None => (Some ("cluster " ++ xla_cluster a ++ " not found")%string, r)
      end
    end
  end.

Inductive xds_update := UClusters (l : list x_Cluster) | UEndpoints (l : list x_ClusterLoadAssignment).
Definition run_update (u : xds_update) : SG (clusterManager L) (option string) :=
  match u with
  | UClusters l => OnUpdateClusters (Ctx := Ctx) source_text resolve grow l
  | UEndpoints l => OnUpdateEndpoints (Ctx := Ctx) struct_text grow l
  end.
Fixpoint run_updates (l : list xds_update) : SG (clusterManager L) (list (option string)) :=
  match l with [] => mret [] | u :: l => e ← run_update u; es ← run_updates l; mret (e :: es) end.
Definition spec_update (u : xds_update) (r : registry) : option (option string * registry) :=
  match u with
  | UClusters l => if forallb convertible l then Some (None, spec_clusters l r) else None
  | UEndpoints l => Some (spec_endpoints l r)
  end.
Fixpoint spec_updates (l : list xds_update) (r : registry) : option (list (option string) * registry) :=
  match l with
  | [] => Some ([], r)
  | u :: l =>
    match spec_update u r with
    | None => None
    | Some (e, r) => match spec_updates l r with None => None | Some (es, r) => Some (e :: es, r) end
    end
  end.

Lemma convertClusterHosts_spec l : convertClusterHosts resolve l =
  if forallb (λ a, bool_decide (is_Some (convertAddress resolve a))) l
  then Ret ((λ s, mk_api_host s "" 0 ∅) <$> omap (λ a, TCPAddr_String <$> convertAddress resolve a) l) else Panic NilDeref.
Proof.
  unfold convertClusterHosts. induction l as [|a l IH]; [done|]. cbn. destruct (convertAddress resolve a) as [t|]; [|done].
  rewrite bool_decide_true by eauto. cbn. rewrite IH. by destruct (forallb _ l).
Qed.
Lemma convertHealthChecks_spec l :
  (convertible_check l = true → ∃ h, convertHealthChecks l = Ret h ∧ ahc_Protocol h = ""%string) ∧
  (convertible_check l = false → convertHealthChecks l = Panic NilDeref).
Proof.
  destruct l as [|[h|] l]; [split; [by eexists|done]| |split; [by eexists|done]]. cbn.
  destruct (xhc_timeout h) as [t|], (xhc_interval h) as [i|]; cbn; (split; intros H; [try done; by eexists|done]).
Qed.

(** What the registry gets to see of a cluster that was converted. *)
Definition converted (c : x_Cluster) (a : api_Cluster) : Prop :=
  ac_Name a = xc_name c ∧ ac_ClusterType a = convertClusterType (xc_type c) ∧ ahc_Protocol (ac_HealthCheck a) = ""%string ∧
  ah_Address <$> ac_Hosts a = cluster_hosts c.
Lemma convert_cluster_spec c :
  (convertible c = true → ∃ a, x_convert c = Ret a ∧ converted c a) ∧
  (convertible c = false → x_convert c = Panic NilDeref).
Proof.
  unfold convertible, convert_cluster. rewrite convertClusterHosts_spec. destruct (convertHealthChecks_spec (xc_health_checks c)) as [H1 H2].
  destruct (convertible_check _); cbn; [|split; [done|]; intros _; by rewrite (H2 eq_refl)].
  destruct (H1 eq_refl) as (h & -> & Hp). destruct (forallb _ _); cbn; (split; [|done]); [|done]. intros _. eexists. split; [reflexivity|].
  split_and!; [done|done|done|]. cbn. rewrite <- list_fmap_compose. apply list_fmap_id.
Qed.
Lemma convertClustersConfig_spec l :
  (forallb convertible l = true → ∃ k, convertClustersConfig source_text resolve l = Ret k ∧ Forall2 converted l k) ∧
  (forallb convertible l = false → convertClustersConfig source_text resolve l = Panic NilDeref).
Proof.
  unfold convertClustersConfig. induction l as [|c l [IH1 IH2]]; [split; [exists []; by split|done]|]. cbn.
  destruct (convert_cluster_spec c) as [H1 H2]. destruct (convertible c); cbn.
  - destruct (H1 eq_refl) as (a & -> & Ha). cbn. split.
    + intros Hl. destruct (IH1 Hl) as (k & Ek & Hk). exists (a :: k). split; [|by constructor]. by rewrite Ek.
    + intros Hl. by rewrite (IH2 Hl).
  - split; [done|]. intros _. by rewrite (H2 eq_refl).
Qed.

Lemma host_addresses (l : list api_Host) : hc_Address <$> (host_config_of <$> l) = ah_Address <$> l.
Proof. by rewrite <- list_fmap_compose. Qed.

Lemma register_cluster_ok c a l (m : clusterManager L) : converted c a → manager_ok m →
  ∃ m1, register_clusters (Ctx := Ctx) grow (a :: l) m = register_clusters (Ctx := Ctx) grow l m1 ∧ manager_ok m1 ∧
    abstraction m1 = spec_cluster c (abstraction m).
Proof.
  intros (Hn & Ht & Hp & Hh) Hm. cbn [register_clusters]. rewrite Ht.
  assert (known_check (cluster_of a) = true) as Hk by (unfold known_check, cluster_of; cbn; by rewrite Hp).
  assert (supported (cluster_of a) = true) as Hs by (unfold supported, cluster_of; cbn; rewrite Ht; by destruct (xc_type c)).
  destruct (run_trigger (cluster_of a) m (or_intror (known_creatable _ Hk)) Hm) as (m1 & E1 & H1 & A1). unfold spec_trigger, spec_add in E1, A1. rewrite Hs in E1, A1.
  cbn [cl_Name cluster_of] in E1, A1. rewrite Hn in E1, A1.
  assert ((match abstraction m !! xc_name c with Some _ => (None, abstraction m)
           | None => (None, <[xc_name c := ∅]> (abstraction m)) end).1 = @None string) as He by (by destruct (abstraction m !! xc_name c)).
  rewrite He in E1. assert (xc_type c = XEds ∨ xc_type c ≠ XEds) as [Hty|Hty] by (destruct (xc_type c); auto).
  { rewrite Hty in *. rewrite bool_decide_true by done. exists m1. split_and!; [by eapply sg_run; [exact E1|]|done|].
    rewrite A1. unfold spec_cluster. rewrite Hty. by destruct (abstraction m !! xc_name c). }
  rewrite bool_decide_false by (by destruct (xc_type c)).
  destruct (run_hosts grow (xc_name c) (host_config_of <$> ac_Hosts a) m1 H1) as (m2 & E2 & H2 & A2).
  unfold spec_hosts in E2, A2. rewrite A1 in E2, A2. rewrite host_addresses, Hh in A2.
  assert (∃ x, (match abstraction m !! xc_name c with Some _ => (@None string, abstraction m)
           | None => (None, <[xc_name c := ∅]> (abstraction m)) end).2 !! xc_name c = Some x) as [x Hx].
  { destruct (abstraction m !! xc_name c) eqn:E; [by eexists|]. exists ∅. apply (lookup_insert_eq (M := gmap string)). }
  rewrite Hx in E2, A2. exists m2. split_and!; [|done|].
  - assert (TriggerClusterAndHostsAddedOrUpdate (Ctx := Ctx) grow (cluster_of a) (host_config_of <$> ac_Hosts a) m = Ret (None, m2)) as E.
    { unfold TriggerClusterAndHostsAddedOrUpdate. eapply sg_run; [exact E1|]. cbn. rewrite Hn. exact E2. }
    by eapply sg_run; [exact E|].
  - rewrite A2. unfold spec_cluster. cbn. destruct (abstraction m !! xc_name c); cbn; unfold registry; rewrite ?insert_insert_eq; by destruct (xc_type c).
Qed.
Lemma register_clusters_ok l k (m : clusterManager L) : Forall2 converted l k → manager_ok m →
  ∃ m', register_clusters (Ctx := Ctx) grow k m = Ret (None, m') ∧ manager_ok m' ∧ abstraction m' = spec_clusters l (abstraction m).
Proof.
  intros Hl. revert m. induction Hl as [|c a l k Hc _ IH]; intros m Hm; [by exists m|].
  destruct (register_cluster_ok c a k m Hc Hm) as (m1 & E1 & H1 & A1). destruct (IH m1 H1) as (m2 & E2 & H2 & A2).
  exists m2. split_and!; [by rewrite E1|done|]. by rewrite A2, A1.
Qed.

Lemma endpoint_addresses (es : list x_LbEndpoint) :
  hc_Address <$> (host_config_of <$> convertEndpointsConfig struct_text es) = omap (λ e, endpoint_address (xe_address e)) es.
Proof.
  rewrite host_addresses. unfold convertEndpointsConfig. induction es as [|e es IH]; [done|]. cbn.
  destruct (endpoint_address (xe_address e)); cbn; by rewrite IH.
Qed.
Lemma update_localities_ok n es (m : clusterManager L) : manager_ok m →
  ∃ m' e, update_localities (Ctx := Ctx) struct_text grow n es m = Ret (e, m') ∧ manager_ok m' ∧
    match last es with
    | None => e = None ∧ abstraction m' = abstraction m
    | Some x => match abstraction m !! n with
                | Some _ => e = None ∧ abstraction m' = <[n := list_to_set (omap (λ e, endpoint_address (xe_address e)) x)]> (abstraction m)
                | None => e = Some ("cluster " ++ n ++ " not found")%string ∧ abstraction m' = abstraction m
                end
    end.
Proof.
  revert m. induction es as [|x es IH]; intros m Hm; [by exists m, None|]. cbn [update_localities].
  destruct (run_hosts grow n (host_config_of <$> convertEndpointsConfig struct_text x) m Hm) as (m1 & E1 & H1 & A1).
  unfold spec_hosts in E1, A1. rewrite endpoint_addresses in A1. rewrite last_cons. destruct (abstraction m !! n) as [old|] eqn:Hn; cbn in E1, A1.
  - destruct (IH m1 H1) as (m2 & e & E2 & H2 & A2). exists m2, e. split_and!; [by eapply sg_run; [exact E1|]|done|].
    rewrite A1 in A2. destruct (last es) as [y|]; [|done]. unfold registry in A2. rewrite lookup_insert_eq, insert_insert_eq in A2. done.
  - exists m1. eexists. split_and!; [by eapply sg_run; [exact E1|]|done|]. by destruct (last es).
Qed.
Lemma OnUpdateEndpoints_ok l (m : clusterManager L) : manager_ok m →
  ∃ m', OnUpdateEndpoints (Ctx := Ctx) struct_text grow l m = Ret ((spec_endpoints l (abstraction m)).1, m') ∧ manager_ok m' ∧
    abstraction m' = (spec_endpoints l (abstraction m)).2.
Proof.
  revert m. induction l as [|a l IH]; intros m Hm; [by exists m|]. cbn [OnUpdateEndpoints spec_endpoints].
  destruct (update_localities_ok (xla_cluster a) (xla_endpoints a) m Hm) as (m1 & e & E1 & H1 & A1).
  destruct (last (xla_endpoints a)) as [es|]; [destruct (abstraction m !! xla_cluster a)|]; destruct A1 as [-> A1].
  2: { exists m1. split_and!; [by eapply sg_run; [exact E1|]|done..]. }
  all: destruct (IH m1 H1) as (m2 & E2 & H2 & A2); rewrite A1 in E2, A2; exists m2; split_and!; [by eapply sg_run; [exact E1|]|done..].
Qed.

(** C12. Whatever updates of clusters and of endpoints a control plane sends, the
    cluster manager follows the registry they describe: a cluster of discovered
    endpoints is registered once and keeps its hosts, any other one gets exactly the
    hosts of its update, an update of endpoints replaces the hosts by those of the
    last locality, and its only error is a cluster that is not registered.  An update
    of clusters panics, before anything was registered, exactly when an address in it
    does not resolve or a health check lacks a time. *)
Theorem xds_refines_registry (us : list xds_update) (m : clusterManager L) : manager_ok m →
  match spec_updates us (abstraction m) with
  | None => run_updates us m = Panic NilDeref
  | Some (errs, r) => ∃ m', run_updates us m = Ret (errs, m') ∧ manager_ok m' ∧ abstraction m' = r
  end.
Proof.
  revert m. induction us as [|u us IH]; intros m Hm; [by exists m|]. cbn [spec_updates run_updates].
  assert (match spec_update u (abstraction m) with
          | None => run_update u m = Panic NilDeref
          | Some (e, r) => ∃ m1, run_update u m = Ret (e, m1) ∧ manager_ok m1 ∧ abstraction m1 = r
          end) as Hu.
  { destruct u as [l|l]; cbn [spec_update run_update].
    - destruct (convertClustersConfig_spec l) as [H1 H2]. unfold OnUpdateClusters, sg_lift. destruct (forallb convertible l).
      + destruct (H1 eq_refl) as (k & Ek & Hk). destruct (register_clusters_ok l k m Hk Hm) as (m1 & E1 & Hm1 & A1).
        exists m1. split_and!; [|done..]. cbn. by rewrite Ek.
      + cbn. by rewrite (H2 eq_refl).
    - destruct (spec_endpoints l (abstraction m)) as [e r] eqn:Es. destruct (OnUpdateEndpoints_ok l m Hm) as (m1 & E1 & H1 & A1).
      rewrite Es in E1, A1. by exists m1. }
  destruct (spec_update u (abstraction m)) as [[e r]|]; [|by unfold mbind, SG_bind; rewrite Hu].
  destruct Hu as (m1 & E1 & H1 & <-). specialize (IH m1 H1). destruct (spec_updates us (abstraction m1)) as [[es r]|].
  - destruct IH as (m2 & E2 & H2 & A2). exists m2. split_and!; [|done..]. eapply sg_run; [exact E1|]. by eapply sg_run; [exact E2|].
  - unfold mbind, SG_bind. by rewrite E1, IH.
Qed.
End registry.

(** ** Listeners *)

Section listeners.
  Context {Struct DataSource : Type} (struct_text : Struct → string) (source_text : DataSource → string)
          (to_hcm : Struct → x_HttpConnectionManager (Struct := Struct)) (to_xproxy : Struct → x_XProxy (Struct := Struct)) (to_tcp : Struct → list (x_AccessLog (Struct := Struct)))
          (to_file_log : Struct → string * string) (structs_Map : api_Proxy → gmap string value) (resolve : string → option TCPAddr)
          (decode_proxy : option (gmap string value) → option (option cf_Proxy)) (files : log_env).
  Abbreviation x_Listener := (x_Listener (Struct := Struct) (DataSource := DataSource)).
  Abbreviation on_listeners := (OnUpdateListeners struct_text source_text to_hcm to_xproxy to_tcp to_file_log structs_Map resolve decode_proxy files).

(** The names of the fields of a proxy, under which its settings are passed on. *)
Definition proxy_fields : gset string :=
  {["Name"; "DownstreamProtocol"; "UpstreamProtocol"; "SupportDynamicRoute"; "BasicRoutes"; "VirtualHosts"; "ValidateClusters"]}%string.

(** Settings are found by the field's name; a decoder of JSON leaves a field at zero
    when no key is its tag, in whatever case. *)
  Context (Map_fields : ∀ p, dom (structs_Map p) = proxy_fields)
          (decode_zero : ∀ m r, decode_proxy (Some m) = Some r → ∃ p, r = Some p ∧
             ((∀ k, k ∈ dom m → ToLower k ≠ "downstream_protocol"%string) → cp_DownstreamProtocol p = ""%string)).

Lemma converted_proxy_refused p f : af_Config f = Some (structs_Map p) → ParseProxyFilterJSON decode_proxy f = Panic Exit.
Proof.
  intros Hf. unfold ParseProxyFilterJSON. rewrite Hf. destruct (decode_proxy (Some (structs_Map p))) as [r|] eqn:E; [|done].
  destruct (decode_zero _ _ E) as (q & -> & Hq). rewrite bool_decide_true; [done|]. apply Hq. intros k Hk. rewrite Map_fields in Hk.
  unfold proxy_fields in Hk. rewrite !elem_of_union, !elem_of_singleton in Hk. clear -Hk. by destruct_or! Hk; subst k.
Qed.
Lemma supported_filter_refused f s fs rest acc : xf_name f ∈ supportFilter → xf_config f = Some s →
  proxy_of_filters decode_proxy acc (convertFilters struct_text to_hcm to_xproxy structs_Map (f :: fs) ++ rest) = Panic Exit.
Proof.
  intros Hn Hs. unfold convertFilters. rewrite fmap_cons. cbn [app proxy_of_filters]. rewrite bool_decide_true by done.
  assert (∃ p, convertFilterConfig struct_text to_hcm to_xproxy structs_Map (xf_name f) (xf_config f) = Some (structs_Map p)) as [p Hp].
  { rewrite Hs. cbn. unfold supportFilter in Hn. rewrite !elem_of_union, !elem_of_singleton in Hn.
    destruct Hn as [[->| ->]| ->]; eexists; reflexivity. }
  by erewrite converted_proxy_refused by exact Hp.
Qed.

(** A listener with a filter of a supported kind ends the process: its settings are
    passed on under the names of the fields, and read under the tags of another struct. *)
Theorem xds_listener_exits (l : x_Listener) rest s c f fs cs cfg :
  isSupport (Some l) = true → xl_name l ≠ "virtual"%string → default false (xl_use_original_dst l) = false →
  xl_chains l = c :: cs → xfc_filters c = f :: fs → xf_config f = Some cfg →
  on_listeners (Some l :: rest) s = Panic Exit.
Proof.
  intros Hsup Hv Hd Hc Hf Hcfg. cbn [OnUpdateListeners]. unfold convertListenerConfig. rewrite Hsup. cbn [negb].
  assert (xf_name f ∈ supportFilter) as Hn.
  { cbn in Hsup. rewrite bool_decide_false, Hc in Hsup by done. cbn in Hsup. rewrite Hf in Hsup. cbn in Hsup.
    by destruct (bool_decide (xf_name f ∈ supportFilter)) eqn:E; [apply bool_decide_eq_true in E|]. }
  rewrite bool_decide_false by done. unfold mbind, SG_bind, update_listener. cbn [al_HandOffRestoredDestinationConnections al_FilterChains].
  rewrite Hd, Hc. unfold convertFilterChains. rewrite fmap_cons, bind_cons. cbn [afc_Filters]. rewrite Hf.
  unfold sg_lift. by erewrite supported_filter_refused.
Qed.
End listeners.

(** ** TLS settings *)

Fixpoint lacks (c : ascii) (s : string) : bool :=
  match s with EmptyString => true | String.String d s => negb (bool_decide (d = c)) && lacks c s end.

Lemma Split_lacks sep s : lacks sep s = true → Split s sep = [s].
Proof.
  induction s as [|d s IH]; [done|]. cbn. case_bool_decide; [done|]. cbn. intros Hs. by rewrite IH.
Qed.
Lemma Split_sep sep s t : lacks sep s = true → Split (s +:+ String.String sep t) sep = s :: Split t sep.
Proof.
  induction s as [|d s IH].
  - intros _. change (EmptyString +:+ String.String sep t) with (String.String sep t). cbn. by rewrite bool_decide_true.
  - cbn [lacks]. destruct (decide (d = sep)) as [|Hd]; [by rewrite bool_decide_true|]. rewrite bool_decide_false by done. cbn [negb andb]. intros H.
    change (String.String d s +:+ String.String sep t) with (String.String d (s +:+ String.String sep t)). cbn [Split].
    by rewrite IH, bool_decide_false by done.
Qed.
Lemma Split_join sep l : l ≠ [] → Forall (λ s, lacks sep s = true) l → Split (join_with sep l) sep = l.
Proof.
  intros Hne Hl. induction Hl as [|s l Hs Hl IH]; [done|]. destruct l as [|t l]; [by apply Split_lacks|].
  change (join_with sep (s :: t :: l)) with (s +:+ String.String sep (join_with sep (t :: l))). rewrite Split_sep by done. by rewrite IH.
Qed.
Lemma join_nonempty sep s l : s ≠ ""%string → join_with sep (s :: l) ≠ ""%string.
Proof. intros Hs. destruct s; [done|]. by destruct l. Qed.

Lemma parse_joined m fold sep defaults err s l : s ≠ ""%string → Forall (λ s, lacks sep s = true) (s :: l) →
  parse_list m fold sep defaults err (join_with sep (s :: l)) =
  match lookup_all m (fold <$> s :: l) with Some v => inr v | None => inl err end.
Proof.
  intros Hs Hl. unfold parse_list. rewrite bool_decide_false by (by apply join_nonempty). rewrite Split_join by done.
  destruct (lookup_all m (fold <$> s :: l)) as [v|] eqn:E; [|done]. rewrite bool_decide_false; [done|]. intros ->.
  apply mapM_Some in E. by inversion E.
Qed.

(** The names of ciphers, curves and protocols that a control plane sends are the ones
    that the context is made from. *)
Theorem xds_tls_names {DataSource} (source_text : DataSource → string) sni (common : x_CommonTlsContext (DataSource := DataSource)) p c cs v vs a al d1 d2 e1 e2 :
  xcc_params common = Some p → xtp_ciphers p = c :: cs → xtp_curves p = v :: vs → xcc_alpn common = a :: al →
  c ≠ ""%string → v ≠ ""%string → a ≠ ""%string →
  Forall (λ s, lacks ":" s = true) (c :: cs) → Forall (λ s, lacks "," s = true) (v :: vs) → Forall (λ s, lacks "," s = true) (a :: al) →
  let t := convertTLS source_text (Some (UpstreamTls sni (Some common))) in
  parse_list ciphersMap (λ s, s) ":"%char d1 e1 (at_CipherSuites t) = match lookup_all ciphersMap (c :: cs) with Some k => inr k | None => inl e1 end ∧
  parse_list allCurves ToLower ","%char d2 e2 (at_EcdhCurves t) = match lookup_all allCurves (ToLower <$> v :: vs) with Some k => inr k | None => inl e2 end ∧
  parse_alpn (at_ALPN t) = if forallb (λ s, bool_decide (ToLower s ∈ alpn_names)) (a :: al) then inr (a :: al)
                           else inl "error ALPN or ALPN not supported"%string.
Proof.
  intros Hp Hc Hv Ha Hc0 Hv0 Ha0 Hcs Hvs Hal. cbn [convertTLS convert_common]. destruct (last_certificate _ _) as [chain key].
  cbn [at_CipherSuites at_EcdhCurves at_ALPN]. rewrite Hp, Ha. cbn [from_option]. rewrite Hc, Hv, !parse_joined by done.
  rewrite list_fmap_id. split_and!; [done..|]. unfold parse_alpn. rewrite bool_decide_false by (by apply join_nonempty).
  by rewrite Split_join by done.
Qed.

(** ** Examples *)

Definition xds_resolve (s : string) : option TCPAddr :=
  if bool_decide (s = "10.0.0.1:80"%string) then Some (mk_tcp (IPv4 10 0 0 1) 80 "") else None.
Definition xds_cluster (name : string) (ty : x_discovery) (hosts : list x_Address) : x_Cluster (DataSource := string) :=
  mk_x_cluster name ty XRoundRobin None None None [] None None hosts None None.
Definition xds_endpoint (addr : string) : x_LbEndpoint (Struct := string) := mk_x_ep (SocketAddress addr (PortValue 80)) None None.
Definition xds_demo : list (xds_update (Struct := string) (DataSource := string)) := [
  UClusters [xds_cluster "static" XStatic [SocketAddress "10.0.0.1" (PortValue 80)]; xds_cluster "found" XEds []];
  UEndpoints [mk_x_cla "found" [[xds_endpoint "10.0.0.2"]; [xds_endpoint "10.0.0.3"; xds_endpoint "10.0.0.4"]]];
  UClusters [xds_cluster "found" XEds []];
  UEndpoints [mk_x_cla "other" [[xds_endpoint "10.0.0.5"]]]]%string.

Lemma xds_refines_registry_witness : ∃ m',
  run_updates (L := LoadBalancer) (Ctx := unit) (λ s, s) (λ s, s) xds_resolve (λ n, n) xds_demo empty_manager =
    Ret ([None; None; None; Some "cluster other not found"%string], m') ∧ manager_ok m' ∧
  abstraction m' = list_to_map [("static", {["10.0.0.1:80"]}); ("found", {["10.0.0.3:80"; "10.0.0.4:80"]})]%string.
Proof.
  exact (xds_refines_registry (L := LoadBalancer) (Ctx := unit) (λ s, s) (λ s, s) xds_resolve (λ n, n) xds_demo empty_manager (λ n pc H, ltac:(done))).
Defined.

(** A host that is not a socket address panics. *)
Example pipe_host_panics : OnUpdateClusters (L := LoadBalancer) (Ctx := unit) (λ s : string, s) xds_resolve (λ n, n)
  [xds_cluster "local" XStatic [Pipe "/run/local.sock"]] empty_manager = Panic NilDeref.
Proof. reflexivity. Qed.
(** Parts of a second are dropped. *)
Example half_second_lost : convertDuration (Some (0, 500000000)) = 0.
Proof. reflexivity. Qed.
(** The settings for gateway failures are those for errors of any kind. *)
Example outlier_fields_swapped : ∃ o, xod_consecutive_5xx o = Some 5 ∧ xod_enforcing_5xx o = Some 100 ∧
  aod_ConsecutiveGatewayFailure (convertOutlierDetection (Some o)) = 100 ∧ aod_EnforcingConsecutive5xx (convertOutlierDetection (Some o)) = 5.
Proof. by exists (mk_x_od (Some 5) None None None (Some 100) None None None None None). Qed.

(** The fields by their names, and a decoder that reads none of them. *)
Definition xds_fields (p : api_Proxy) : gmap string value := gset_to_gmap (VStr "") proxy_fields.
Definition xds_decode (m : option (gmap string value)) : option (option cf_Proxy) :=
  match m with
  | None => Some None
  | Some m => Some (Some (mk_cf_proxy "" (match m !! "downstream_protocol"%string with Some (VStr s) => s | _ => "" end)
                      (match m !! "upstream_protocol"%string with Some (VStr s) => s | _ => "" end) false [] false))
  end.
Definition xds_listener : x_Listener (Struct := string) (DataSource := string) :=
  mk_x_listener "http" (SocketAddress "10.0.0.1" (PortValue 80)) [mk_x_chain "" None [mk_x_filter HTTPConnectionManager (Some "{}"%string)]] None None None.
Definition xds_files : log_env := mk_log_env (λ _, None) (λ _, None) None (λ _ _, None) (λ _, None) Some.
Definition xds_logs : logs := mk_logs [mk_logger "" 4 (Some DefaultRoller) (Some WStderr) (Some WStderr) false] [] None ∅ [].
Lemma xds_listener_exits_witness :
  OnUpdateListeners (λ s : string, s) (λ s : string, s) (λ _, mk_x_hcm [] None) (λ _, mk_x_xp [] "" "" None) (λ _, []) (λ s, (s, s)) xds_fields xds_resolve xds_decode xds_files
    [Some xds_listener] (mk_xs (Some (new_server None)) [] [] None xds_logs) = Panic Exit.
Proof.
  eapply xds_listener_exits; [..|reflexivity|reflexivity|reflexivity]; try reflexivity; [|done].
  intros m r [= <-]. eexists. split; [reflexivity|]. intros Hk. cbn. destruct (m !! "downstream_protocol"%string) eqn:E; [|done].
  exfalso. apply (Hk "downstream_protocol"%string); [by apply elem_of_dom_2 in E|done].
Defined.
