(* ===== verification/XdsClient.v ===== *)
(** * The client of a control plane: pkg/xds

    The configuration of the client (v2/xdsconfig.go), and its two threads
    (v2/adssubscriber.go and the subscribers) as a relation of steps, with the caller
    of [Stop] as a third.  Channels have no room: a send and its receive are one step.

    The gRPC stream is outside of the sources: a connection succeeds or not, and a
    receive gives a response or an error.  [valid_static] and [valid_source] are the
    generated checks of messages. *)

From S2P Require Import Prelude Strconv GoStrings GoTime GoNet Cluster StateGo ClusterHosts ClusterManager ConfigTypes Config Tls Handler Startup Xds.

Local Open Scope Z_scope.

Definition ten_seconds : Z := 10 * 1000000000.
Definition one_second : Z := 1000000000.

(** ** The configuration *)

Record x_static_cluster := mk_x_static { xsc_name : string; xsc_timeout : Z; xsc_hosts : list x_Address }.
Inductive x_grpc_target := EnvoyGrpc (cluster : string) | GoogleGrpc | NoTarget.
Record x_grpc_service := mk_x_grpc { xg_timeout : option (Z * Z); xg_target : x_grpc_target }.
Record x_ApiConfigSource := mk_x_source { xas_grpc : bool; xas_refresh : option Z; xas_services : list x_grpc_service }.

Record ads_ClusterConfig := mk_ads_cluster { adc_Address : list string; adc_ConnectTimeout : Z }.
Record ads_ServiceConfig := mk_ads_service { ads_Timeout : Z; ads_Cluster : ads_ClusterConfig }.
(** [ada_Stream]: whether there is a stream client. *)
Record ADSConfig := mk_ads { ada_RefreshDelay : Z; ada_Services : list ads_ServiceConfig; ada_Stream : bool }.
Record XDSConfig := mk_xds_config { xdc_ADS : option ADSConfig; xdc_Clusters : gmap string ads_ClusterConfig }.

Section config.
  Context (valid_static : list x_static_cluster → bool) (valid_source : x_ApiConfigSource → bool).

Definition socket_text (a : x_Address) : option string :=
  match a with SocketAddress addr (PortValue p) => Some (addr +:+ ":" +:+ FormatUint p)%string | _ => None end.
(** A positive timeout is kept as a pointer into the variable of the loop, which all
    rounds share: [shared] is what it holds after the last one. *)
Definition load_cluster (shared : Z) (c : x_static_cluster) : ads_ClusterConfig :=
  mk_ads_cluster (omap socket_text (xsc_hosts c)) (if bool_decide (xsc_timeout c ≤ 0) then ten_seconds else shared).
(** An error is its message; a later cluster replaces an earlier one of its name. *)
Definition loadClusters (staticResources : option (list x_static_cluster)) : string + gmap string ads_ClusterConfig :=
  match staticResources with
  | None => inl "null point exception"%string
  | Some l =>
    if valid_static l then
      let shared := from_option xsc_timeout 0 (last l) in
      inr (fold_left (λ m c, <[xsc_name c := load_cluster shared c]> m) l ∅)
    else inl "invalid"%string
  end.

(** A timeout of a service is checked on the empty configuration of it, whose timeout is
    a nil pointer. *)
Definition service_timeout (s : x_grpc_service) : Go Z :=
  match xg_timeout s with None => Ret one_second | Some _ => Panic NilDeref end.
Fixpoint load_services (clusters : gmap string ads_ClusterConfig) (l : list x_grpc_service) : Go (string + list ads_ServiceConfig) :=
  match l with
  | [] => Ret (inr [])
  | s :: l =>
    match xg_target s with
    | EnvoyGrpc name =>
      t ← service_timeout s;
      match clusters !! name with
      | None => Ret (inl ("cluster not found: " +:+ name)%string)
      | Some c => r ← load_services clusters l; Ret (match r with inl e => inl e | inr l => inr (mk_ads_service t c :: l) end)
      end
    | _ => load_services clusters l
    end
  end.
Definition getAPISourceEndpoint (clusters : gmap string ads_ClusterConfig) (source : x_ApiConfigSource) : Go (string + ADSConfig) :=
  if negb (xas_grpc source) then Ret (inl "only support GRPC api type yet"%string)
  else
  let delay := match xas_refresh source with Some d => if bool_decide (d ≤ 0) then ten_seconds else d | None => ten_seconds end in
  r ← load_services clusters (xas_services source);
  Ret (match r with inl e => inl e | inr l => inr (mk_ads delay l false) end).
Definition loadADSConfig (dynamicResources : option (option x_ApiConfigSource)) (clusters : gmap string ads_ClusterConfig) : Go (string + ADSConfig) :=
  match dynamicResources with
  | Some (Some source) => if valid_source source then getAPISourceEndpoint clusters source else Ret (inl "invalid"%string)
  | _ => Ret (inl "null point exception"%string)
  end.
Definition xds_Init (dynamicResources : option (option x_ApiConfigSource)) (staticResources : option (list x_static_cluster)) : Go (string + XDSConfig) :=
  match loadClusters staticResources with
  | inl e => Ret (inl e)
  | inr clusters => r ← loadADSConfig dynamicResources clusters; Ret (match r with inl e => inl e | inr a => inr (mk_xds_config (Some a) clusters) end)
  end.
End config.

(** [r] is the random number drawn. *)
Definition GetEndpoint (c : ads_ClusterConfig) (r : nat) : string * option Z :=
  match adc_Address c with [] => (""%string, None) | l => (default ""%string (l !! (r `mod` length l)%nat), Some (adc_ConnectTimeout c)) end.
Fixpoint first_endpoint (l : list ads_ServiceConfig) (rand : list nat) : string :=
  match l with
  | [] => ""%string
  | s :: l => let e := (GetEndpoint (ads_Cluster s) (default O (head rand))).1 in
              if bool_decide (e = ""%string) then first_endpoint l (tail rand) else e
  end.
(** Whether there is a client; [dial] and [open] are what gRPC makes of an address. *)
Definition GetStreamClient (dial : string → bool) (open : bool) (rand : list nat) (c : ADSConfig) : bool * ADSConfig :=
  if ada_Stream c then (true, c)
  else
  let e := first_endpoint (ada_Services c) rand in
  if bool_decide (e = ""%string) || negb (dial e) || negb open then (false, c)
  else (true, mk_ads (ada_RefreshDelay c) (ada_Services c) true).
Definition closeADSStreamClient (c : ADSConfig) : ADSConfig := mk_ads (ada_RefreshDelay c) (ada_Services c) false.

(** ** The threads *)

Section threads.
  Context {Struct DataSource : Type}.
  Abbreviation x_Cluster := (x_Cluster (DataSource := DataSource)).
  Abbreviation x_ClusterLoadAssignment := (x_ClusterLoadAssignment (Struct := Struct)).
  Abbreviation x_Listener := (x_Listener (Struct := Struct) (DataSource := DataSource)).
  Context {L : Type}.
  (** The three updates of [Xds]. *)
  Context (update_listeners : list (option x_Listener) → SG xds_state (option string))
          (update_clusters : list x_Cluster → SG (clusterManager L) (option string))
          (update_endpoints : list x_ClusterLoadAssignment → SG (clusterManager L) (option string)).

Inductive DiscoveryResponse :=
  | LdsResponse (l : list x_Listener) | CdsResponse (l : list x_Cluster) | EdsResponse (l : list x_ClusterLoadAssignment) | OtherResponse.
Inductive DiscoveryRequest := CdsRequest | EdsRequest (names : list string) | LdsRequest.

(** The cluster manager, the servers, the requests tried on the stream, in order; a
    send that fails is logged and nothing else. *)
Record xds_world := mk_xw { xw_manager : clusterManager L; xw_servers : xds_state; xw_requests : list DiscoveryRequest }.
Definition ask (r : DiscoveryRequest) (w : xds_world) : xds_world := mk_xw (xw_manager w) (xw_servers w) (xw_requests w ++ [r]).
Definition is_eds (c : x_Cluster) : bool := match xc_type c with XEds => true | _ => false end.

(** One response; whether the thread goes on. *)
Definition handle_response (r : DiscoveryResponse) (w : xds_world) : Go (bool * xds_world) :=
  match r with
  | LdsResponse l =>
    '(err, s) ← update_listeners (Some <$> l) (xw_servers w);
    Ret (bool_decide (err = None), mk_xw (xw_manager w) s (xw_requests w))
  | CdsResponse l =>
    '(err, m) ← update_clusters l (xw_manager w);
    let w := mk_xw m (xw_servers w) (xw_requests w) in
    Ret (match err with Some _ => (false, w) | None => (true, ask (EdsRequest (xc_name <$> filter (λ c, is_eds c = true) l)) w) end)
  | EdsResponse l =>
    '(err, m) ← update_endpoints l (xw_manager w);
    let w := mk_xw m (xw_servers w) (xw_requests w) in
    Ret (match err with Some _ => (false, w) | None => (true, ask LdsRequest w) end)
  | OtherResponse => Ret (true, w)
  end.

(** Where the threads are: the sending thread before its first request, at its
    [select], at the send to [StopChan], gone; the receiving thread at its [select], in
    [Recv], handling a response, at the send to [StopChan], gone as asked, gone after an
    update that failed, or gone with the process; the caller of [Stop] before it, at the
    sending thread's channel, past it, at the receiving thread's channel, waiting for so
    many signals, back. *)
Inductive send_at := SendFirst | SendSelect | SendStop | SendGone.
Inductive recv_at := RecvSelect | RecvRecv | RecvHandle (r : DiscoveryResponse) | RecvStop | RecvGone | RecvLeft | RecvCrashed.
Inductive stop_at := StopIdle | StopSend | StopSent | StopRecv | StopWait (n : nat) | StopDone.

(** [th_client]: whether the threads have a stream client. *)
Record threads := mk_threads { th_send : send_at; th_recv : recv_at; th_stop : stop_at; th_client : bool; th_ads : ADSConfig; th_world : xds_world }.
Definition threads_Start (client : bool) (c : ADSConfig) (w : xds_world) : threads := mk_threads SendFirst RecvSelect StopIdle client c w.
(** A request on a missing client is an error that is logged. *)
Definition reqClusters (client : bool) (w : xds_world) : xds_world := if client then ask CdsRequest w else w.

Inductive thread_step : threads → threads → Prop :=
  | step_first r p cl c w : thread_step (mk_threads SendFirst r p cl c w) (mk_threads SendSelect r p cl c (reqClusters cl w))
  | step_tick r p cl c w : thread_step (mk_threads SendSelect r p cl c w) (mk_threads SendSelect r p cl c (reqClusters cl w))
  | step_stop_called s r cl c w : thread_step (mk_threads s r StopIdle cl c w) (mk_threads s r StopSend cl c w)
  | step_send_told r cl c w : thread_step (mk_threads SendSelect r StopSend cl c w) (mk_threads SendStop r StopSent cl (closeADSStreamClient c) w)
  | step_stop_recv s r cl c w : thread_step (mk_threads s r StopSent cl c w) (mk_threads s r StopRecv cl c w)
  | step_recv_told s cl c w : thread_step (mk_threads s RecvSelect StopRecv cl c w) (mk_threads s RecvStop (StopWait 2) cl c w)
  | step_receive s p cl c w : p ≠ StopRecv → thread_step (mk_threads s RecvSelect p cl c w) (mk_threads s RecvRecv p cl c w)
  | step_error s p c w : thread_step (mk_threads s RecvRecv p true c w) (mk_threads s RecvSelect p true c w)
  | step_no_client s p c w : thread_step (mk_threads s RecvRecv p false c w) (mk_threads s RecvCrashed p false c w)
  | step_response s p c w r : thread_step (mk_threads s RecvRecv p true c w) (mk_threads s (RecvHandle r) p true c w)
  | step_handled s p cl c w r w' : handle_response r w = Ret (true, w') →
      thread_step (mk_threads s (RecvHandle r) p cl c w) (mk_threads s RecvSelect p cl c w')
  | step_left s p cl c w r w' : handle_response r w = Ret (false, w') →
      thread_step (mk_threads s (RecvHandle r) p cl c w) (mk_threads s RecvLeft p cl c w')
  | step_crashed s p cl c w r k : handle_response r w = Panic k →
      thread_step (mk_threads s (RecvHandle r) p cl c w) (mk_threads s RecvCrashed p cl c w)
  | step_send_gone r n cl c w : thread_step (mk_threads SendStop r (StopWait (S n)) cl c w) (mk_threads SendGone r (StopWait n) cl c w)
  | step_recv_gone s n cl c w : thread_step (mk_threads s RecvStop (StopWait (S n)) cl c w) (mk_threads s RecvGone (StopWait n) cl c w)
  | step_stopped s r cl c w : thread_step (mk_threads s r (StopWait 0) cl c w) (mk_threads s r StopDone cl c w).
End threads.

(** ** The client *)

Section client.
  Context {Struct DataSource : Type} {L : Type}.
  Abbreviation threads := (threads (Struct := Struct) (DataSource := DataSource) (L := L)).
  Context (valid_static : list x_static_cluster → bool) (valid_source : x_ApiConfigSource → bool).
  Context (dial : string → bool) (open : bool) (rand : list nat).

Record xds_Client := mk_xclient { cl_v2 : option XDSConfig; cl_threads : option threads }.
(** The threads of a client whose streams are tried once, for them. *)
Definition ads_Start (a : ADSConfig) (w : xds_world) : threads :=
  let '(client, a) := GetStreamClient dial open rand a in threads_Start client a w.
Definition start_threads (v2 : XDSConfig) (ads : option ADSConfig) (w : xds_world) : Go (option string * xds_Client) :=
  match ads with
  | Some a => Ret (None, mk_xclient (Some v2) (Some (ads_Start a w)))
  | None => Panic NilDeref
  end.
(** A client that was started before shares its configuration with its threads.
    [resources]: what [UnmarshalResources] makes of the configuration, or its error. *)
Definition xds_Start (resources : option (option (option x_ApiConfigSource) * option (list x_static_cluster))) (w : xds_world) (c : xds_Client) : Go (option string * xds_Client) :=
  match cl_v2 c with
  | Some v2 => start_threads v2 (match cl_threads c with Some t => Some (th_ads t) | None => xdc_ADS v2 end) w
  | None =>
    match resources with
    | None => Ret (Some "fail to unmarshal xds resources"%string, c)
    | Some (dynamicResources, staticResources) =>
      r ← xds_Init valid_static valid_source dynamicResources staticResources;
      match r with
      | inl _ => Ret (Some "fail to init xds config"%string, c)
      | inr v2 => start_threads v2 (xdc_ADS v2) w
      end
    end
  end.
(** The call of [Stop]: the caller goes to the channels of the threads. *)
Definition xds_Stop (c : xds_Client) : Go xds_Client :=
  match cl_threads c with
  | Some t => Ret (mk_xclient (cl_v2 c) (Some (mk_threads (th_send t) (th_recv t) StopSend (th_client t) (th_ads t) (th_world t))))
  | None => Panic NilDeref
  end.
End client.
