(* ===== verification/XdsClientProps.v ===== *)
(** * Theorems about the client of a control plane *)

From stdpp Require Import relations.
From S2P Require Import Prelude Strconv GoStrings GoTime GoNet Cluster StateGo ClusterHosts ClusterManager ClusterManagerProps ConfigTypes Config Handler Startup Xds XdsProps XdsClient.

Local Open Scope Z_scope.

(** ** Stopping *)

Section stopping.
  Context {Struct DataSource : Type} {L : Type}.
  Context (update_listeners : list (option (x_Listener (Struct := Struct) (DataSource := DataSource))) → SG xds_state (option string))
          (update_clusters : list (x_Cluster (DataSource := DataSource)) → SG (clusterManager L) (option string))
          (update_endpoints : list (x_ClusterLoadAssignment (Struct := Struct)) → SG (clusterManager L) (option string)).
  Abbreviation threads := (threads (Struct := Struct) (DataSource := DataSource) (L := L)).
  Abbreviation step := (thread_step update_listeners update_clusters update_endpoints).

(** What holds of the threads in every reachable state. *)
Definition recv_signals (r : recv_at (Struct := Struct) (DataSource := DataSource)) : nat := match r with RecvStop => 1 | _ => 0 end.
Definition recv_over (r : recv_at (Struct := Struct) (DataSource := DataSource)) : Prop := r = RecvStop ∨ r = RecvGone.
Definition recv_ended (r : recv_at (Struct := Struct) (DataSource := DataSource)) : Prop := r = RecvLeft ∨ r = RecvCrashed.
Definition threads_ok (s : threads) : Prop :=
  match th_stop s with
  | StopIdle | StopSend => (th_send s = SendFirst ∨ th_send s = SendSelect) ∧ ¬ recv_over (th_recv s)
  | StopSent | StopRecv => th_send s = SendStop ∧ ¬ recv_over (th_recv s)
  | StopWait n => (th_send s = SendStop ∨ th_send s = SendGone) ∧ recv_over (th_recv s) ∧
                  n = ((match th_send s with SendStop => 1 | _ => 0 end) + recv_signals (th_recv s))%nat
  | StopDone => th_send s = SendGone ∧ th_recv s = RecvGone
  end.

Lemma threads_ok_step s s' : threads_ok s → step s s' → threads_ok s'.
Proof.
  unfold threads_ok, recv_over. intros H Hs. destruct Hs; cbn in *;
    repeat match goal with H : context [match ?p with StopIdle => _ | _ => _ end] |- _ => destruct p; cbn in * end; try naive_solver.
Qed.
Lemma threads_ok_reachable cl c w s : rtc step (threads_Start cl c w) s → threads_ok s.
Proof.
  intros H. assert (threads_ok (threads_Start cl c w)) as H0 by (split; [by left|by intros []]).
  induction H; [done|]. eauto using threads_ok_step.
Qed.

(** Once the caller is at the receiving thread's channel, every step brings the end
    nearer. *)
Definition stopping (s : threads) : Prop := match th_stop s with StopRecv | StopWait _ | StopDone => True | _ => False end.
Definition to_go (s : threads) : nat :=
  (match th_stop s with StopRecv => 10 | StopWait n => S n | _ => 0 end +
   match th_recv s with RecvRecv => 3 | RecvHandle _ => 2 | RecvSelect => 1 | _ => 0 end)%nat.
Lemma to_go_step s s' : threads_ok s → stopping s → step s s' → stopping s' ∧ (to_go s' < to_go s)%nat.
Proof.
  unfold threads_ok, recv_over, stopping, to_go. intros H Hg Hs. destruct Hs; cbn in *;
    repeat match goal with H : context [match ?p with StopIdle => _ | _ => _ end] |- _ => destruct p; cbn in * end;
    try naive_solver lia; destruct H as ([->| ->] & [->| ->] & ?); cbn in *; naive_solver lia.
Qed.
Lemma no_step_ends s : threads_ok s → stopping s → (∀ s', ¬ step s s') →
  (th_stop s = StopDone ∧ th_send s = SendGone ∧ th_recv s = RecvGone) ∨ (th_stop s = StopRecv ∧ recv_ended (th_recv s)).
Proof.
  unfold threads_ok, recv_over, stopping, recv_ended. destruct s as [snd rcv stp cl c w]. cbn. intros H Hg Hn. destruct stp as [| | | |[|n]|]; try done; cbn in *.
  - destruct H as [-> Hr]. destruct rcv as [| |r| | | |]; try naive_solver.
    + exfalso. eapply Hn. constructor.
    + exfalso. destruct cl; eapply Hn; constructor.
    + exfalso. destruct (handle_response update_listeners update_clusters update_endpoints r w) as [[[] w']|k] eqn:E;
        eapply Hn; [by eapply step_handled|by eapply step_left|by eapply step_crashed].
  - exfalso. eapply Hn. constructor.
  - exfalso. destruct H as ([->| ->] & [->| ->] & H); cbn in H; try lia; eapply Hn; constructor.
  - left. tauto.
Qed.

(** C37. Once [Stop] of the client waits for the receiving thread, nothing can go on for
    more than thirteen steps, and it ends either with [Stop] back and both threads gone,
    or with the receiving thread gone before: after an update that failed, or with the
    process; and then [Stop] never returns. *)
Theorem xds_stop_ends cl c w s : rtc step (threads_Start cl c w) s → th_stop s = StopRecv →
  (∀ n s', nsteps step n s s' → (n ≤ 13)%nat) ∧
  (∀ s', rtc step s s' → (∀ s'', ¬ step s' s'') →
     (th_stop s' = StopDone ∧ th_send s' = SendGone ∧ th_recv s' = RecvGone) ∨ (th_stop s' = StopRecv ∧ recv_ended (th_recv s'))) ∧
  (recv_ended (th_recv s) → ∀ s', rtc step s s' → th_stop s' = StopRecv).
Proof.
  intros H%threads_ok_reachable Hp. assert (stopping s) as Hg by (unfold stopping; by rewrite Hp). split_and!.
  - assert (to_go s ≤ 13)%nat as Hle by (unfold to_go; rewrite Hp; destruct (th_recv s); lia).
    assert (∀ n s s', threads_ok s → stopping s → nsteps step n s s' → (n ≤ to_go s)%nat) as Hn; [|intros n s' Hs; specialize (Hn n s s' H Hg Hs); lia].
    clear. intros n. induction n as [|n IH]; intros s s' H Hg Hs; [lia|]. inversion Hs as [|? ? s1 ? H1 H2]; subst.
    destruct (to_go_step s s1 H Hg H1) as [Hg1 Hlt]. specialize (IH s1 s' (threads_ok_step _ _ H H1) Hg1 H2). lia.
  - intros s' Hs. clear Hp. induction Hs as [s|s s1 s' H1 _ IH]; intros Hn; [by apply no_step_ends|].
    destruct (to_go_step s s1 H Hg H1) as [Hg1 _]. apply IH; [by eapply threads_ok_step|done|done].
  - intros He s' Hs. clear H Hg. induction Hs as [|s s1 s' H1 _ IH]; [done|]. apply IH; destruct H1; cbn in *; unfold recv_ended in *; naive_solver.
Qed.
End stopping.

(** ** Updates *)

Section updates.
  Context {Struct DataSource : Type} (struct_text : Struct → string) (source_text : DataSource → string) (resolve : string → option TCPAddr).
  Context {L Ctx : Type} `{!Balancer L Ctx} `{!BalancerLaws L Ctx} (grow : nat → nat).
  Context (update_listeners : list (option (x_Listener (Struct := Struct) (DataSource := DataSource))) → SG xds_state (option string)).
  Abbreviation handle := (handle_response update_listeners (OnUpdateClusters (Ctx := Ctx) source_text resolve grow) (OnUpdateEndpoints (Ctx := Ctx) struct_text grow)).

(** A response of clusters never ends the thread: the registry follows it, and the
    endpoints of exactly its clusters of discovered endpoints are asked for next. *)
Theorem clusters_then_endpoints l w : manager_ok (xw_manager w) → forallb (convertible resolve) l = true →
  ∃ m, handle (CdsResponse l) w = Ret (true, mk_xw m (xw_servers w) (xw_requests w ++ [EdsRequest (xc_name <$> filter (λ c, is_eds c = true) l)])) ∧
    manager_ok m ∧ abstraction m = spec_clusters resolve l (abstraction (xw_manager w)).
Proof.
  intros Hm Hl. destruct (convertClustersConfig_spec source_text resolve l) as [(k & Ek & Hk) _]; [done|].
  destruct (register_clusters_ok resolve (Ctx := Ctx) grow l k (xw_manager w) Hk Hm) as (m & E & Hm' & A). exists m. split_and!; [|done..].
  cbn [handle_response]. unfold OnUpdateClusters. unfold mbind at 1, Go_bind. unfold mbind, SG_bind, sg_lift. by rewrite Ek, E.
Qed.

(** A response of endpoints ends the thread exactly when it has endpoints for a cluster
    that is not registered; otherwise the listeners are asked for next. *)
Theorem endpoints_then_listeners l w : manager_ok (xw_manager w) →
  ∃ m, manager_ok m ∧ abstraction m = (spec_endpoints l (abstraction (xw_manager w))).2 ∧
    handle (EdsResponse l) w = Ret (match (spec_endpoints l (abstraction (xw_manager w))).1 with
                                    | None => (true, mk_xw m (xw_servers w) (xw_requests w ++ [LdsRequest]))
                                    | Some _ => (false, mk_xw m (xw_servers w) (xw_requests w))
                                    end).
Proof.
  intros Hm. destruct (OnUpdateEndpoints_ok struct_text (Ctx := Ctx) grow l (xw_manager w) Hm) as (m & E & Hm' & A). exists m. split_and!; [done..|].
  cbn [handle_response]. rewrite E. cbn. by destruct (spec_endpoints l (abstraction (xw_manager w))).1.
Qed.
End updates.

(** ** The configuration *)

Lemma load_services_spec clusters l : (∀ s, s ∈ l → ∀ n, xg_target s = EnvoyGrpc n → xg_timeout s = None ∧ is_Some (clusters !! n)) →
  load_services clusters l = Ret (inr (omap (λ s, match xg_target s with EnvoyGrpc n => mk_ads_service one_second <$> clusters !! n | _ => None end) l)).
Proof.
  induction l as [|s l IH]; intros H; [done|]. cbn [load_services omap list_omap]. unfold service_timeout. destruct (xg_target s) as [n| |] eqn:E; [|apply IH; intros; apply H; [by right|done]..].
  destruct (H s) with n as [-> [c Hc]]; [by left|done|]. cbn [mbind Go_bind]. rewrite Hc, IH; [done|]. intros. apply H; [by right|done].
Qed.

Definition demo_source (timeout : option (Z * Z)) : x_ApiConfigSource := mk_x_source true None [mk_x_grpc timeout (EnvoyGrpc "pilot")].
Definition demo_static : list x_static_cluster := [mk_x_static "pilot" 0 [SocketAddress "10.0.0.9" (PortValue 15010)]]%string.
Example default_client : ∃ c, xds_Init (λ _, true) (λ _, true) (Some (Some (demo_source None))) (Some demo_static) = Ret (inr c) ∧
  (λ a, (ada_RefreshDelay a, first_endpoint (ada_Services a) [3%nat])) <$> xdc_ADS c = Some (ten_seconds, "10.0.0.9:15010"%string).
Proof. eexists. split; [vm_compute; reflexivity|]. by vm_compute. Qed.
(** A later cluster decides the timeouts of the others. *)
Example shared_timeout : match loadClusters (λ _, true) (Some [mk_x_static "a" 5 []; mk_x_static "b" 7 []]%string) with
                         | inr m => adc_ConnectTimeout <$> m !! "a"%string | inl _ => None end = Some 7.
Proof. by vm_compute. Qed.
(** Any timeout of the service panics. *)
Example timeout_panics : xds_Init (λ _, true) (λ _, true) (Some (Some (demo_source (Some (1, 0))))) (Some demo_static) = Panic NilDeref.
Proof. reflexivity. Qed.

(** *** Runs of the threads *)

Definition no_listeners : list (option (x_Listener (Struct := string) (DataSource := string))) → SG xds_state (option string) := λ _, mret None.
Definition demo_clusters_update : list (x_Cluster (DataSource := string)) → SG (clusterManager LoadBalancer) (option string) :=
  OnUpdateClusters (Ctx := unit) (λ s, s) xds_resolve (λ n, n).
Definition demo_endpoints_update : list (x_ClusterLoadAssignment (Struct := string)) → SG (clusterManager LoadBalancer) (option string) :=
  OnUpdateEndpoints (Ctx := unit) (λ s, s) (λ n, n).
Definition demo_world : xds_world (L := LoadBalancer) := mk_xw empty_manager (mk_xs None [] [] None xds_logs) [].
Definition demo_ads : ADSConfig := mk_ads ten_seconds [] true.
Definition demo_stopping (r : recv_at (Struct := string) (DataSource := string)) (w : xds_world (L := LoadBalancer)) : threads :=
  mk_threads SendStop r StopRecv true (closeADSStreamClient demo_ads) w.

Lemma xds_stop_ends_witness :
  let step := thread_step no_listeners demo_clusters_update demo_endpoints_update in
  let s := demo_stopping RecvRecv (ask CdsRequest demo_world) in
  rtc step (threads_Start true demo_ads demo_world) s ∧
  (∀ n s', nsteps step n s s' → (n ≤ 13)%nat).
Proof.
  cbv zeta. assert (rtc (thread_step no_listeners demo_clusters_update demo_endpoints_update) (threads_Start true demo_ads demo_world)
    (demo_stopping RecvRecv (ask CdsRequest demo_world))) as H.
  { eapply rtc_l; [apply step_first|]. eapply rtc_l; [apply step_receive; done|]. eapply rtc_l; [apply step_stop_called|]. eapply rtc_l; [apply step_send_told|]. apply rtc_once, step_stop_recv. }
  split; [exact H|]. exact (proj1 (xds_stop_ends no_listeners demo_clusters_update demo_endpoints_update true demo_ads demo_world _ H eq_refl)).
Defined.

(** Endpoints of a cluster that is not known end the thread, and [Stop] waits for ever. *)
Example unknown_cluster_hangs :
  let step := thread_step no_listeners demo_clusters_update demo_endpoints_update in
  rtc step (threads_Start true demo_ads demo_world) (demo_stopping RecvLeft (ask CdsRequest demo_world)) ∧
  ∀ s', ¬ step (demo_stopping RecvLeft (ask CdsRequest demo_world)) s'.
Proof.
  cbv zeta. split.
  - eapply rtc_l; [apply step_first|]. eapply rtc_l; [apply step_receive; done|].
    eapply rtc_l; [apply (step_response _ _ _ _ _ _ _ (EdsResponse [mk_x_cla "other" [[xds_endpoint "10.0.0.5"]]]%string))|].
    eapply rtc_l; [eapply step_left; vm_compute; reflexivity|]. eapply rtc_l; [apply step_stop_called|]. eapply rtc_l; [apply step_send_told|]. apply rtc_once, step_stop_recv.
  - intros s' H. inversion H.
Qed.

(** *** Starting *)

Notation demo_start dyn static := (xds_Start (Struct := string) (DataSource := string) (λ _, true) (λ _, true) (λ _, true) true []
  (Some (dyn, Some static)) demo_world (mk_xclient None None)).

(** A start that fails is an error, and a stop after it ends the process. *)
Example stop_without_start : ∃ c, demo_start None demo_static = Ret (Some "fail to init xds config"%string, c) ∧ xds_Stop c = Panic NilDeref.
Proof. eexists. split; [by vm_compute|]. done. Qed.
(** A control plane without an address: the start succeeds, and the receiving thread ends
    the process. *)
Example no_address_crashes : ∃ c t t', demo_start (Some (Some (demo_source None))) [mk_x_static "pilot" 0 []]%string = Ret (None, c) ∧
  cl_threads c = Some t ∧ rtc (thread_step no_listeners demo_clusters_update demo_endpoints_update) t t' ∧ th_recv t' = RecvCrashed.
Proof.
  eexists _, _, _. split_and!; [vm_compute; reflexivity|reflexivity| |].
  - eapply rtc_l; [apply step_receive; done|]. apply rtc_once, step_no_client.
  - done.
Qed.
