(* ===== verification/Keeper.v ===== *)
(** * Signals and restarts: pkg/server (serverkeeper.go, server.go)

    The process with its servers, its loggers, the callbacks of a shutdown and the
    environment of a child.  A handler of a signal runs to its end; the callbacks of an
    interrupt run in a goroutine of their own, and what they do is an event.  The program
    ends with an exit code.  [fd] gives descriptors: of the listener of a server. *)

From S2P Require Import Prelude Strconv GoStrings GoNet StateGo Connection Handler Logger.

Local Open Scope Z_scope.

(** [k_child]: the environment and the descriptors of the process that was started. *)
Record keeper := mk_keeper {
  k_servers : list server; shutdownCallbacks : list (SG logs (option string)); k_once : bool; k_logs : logs;
  k_pidFile : bool; k_env : gmap string string; k_interrupts : nat; k_child : option (gmap string string * list Z);
}.
Definition set_k_servers (v : list server) (k : keeper) : keeper :=
  mk_keeper v (shutdownCallbacks k) (k_once k) (k_logs k) (k_pidFile k) (k_env k) (k_interrupts k) (k_child k).
Definition set_k_callbacks (v : list (SG logs (option string))) (k : keeper) : keeper :=
  mk_keeper (k_servers k) v (k_once k) (k_logs k) (k_pidFile k) (k_env k) (k_interrupts k) (k_child k).
Definition set_k_once (v : bool) (k : keeper) : keeper :=
  mk_keeper (k_servers k) (shutdownCallbacks k) v (k_logs k) (k_pidFile k) (k_env k) (k_interrupts k) (k_child k).
Definition set_k_logs (v : logs) (k : keeper) : keeper :=
  mk_keeper (k_servers k) (shutdownCallbacks k) (k_once k) v (k_pidFile k) (k_env k) (k_interrupts k) (k_child k).
Definition set_k_pidFile (v : bool) (k : keeper) : keeper :=
  mk_keeper (k_servers k) (shutdownCallbacks k) (k_once k) (k_logs k) v (k_env k) (k_interrupts k) (k_child k).
Definition set_k_env (v : gmap string string) (k : keeper) : keeper :=
  mk_keeper (k_servers k) (shutdownCallbacks k) (k_once k) (k_logs k) (k_pidFile k) v (k_interrupts k) (k_child k).
Definition set_k_interrupts (v : nat) (k : keeper) : keeper :=
  mk_keeper (k_servers k) (shutdownCallbacks k) (k_once k) (k_logs k) (k_pidFile k) (k_env k) v (k_child k).
Definition set_k_child (v : option (gmap string string * list Z)) (k : keeper) : keeper :=
  mk_keeper (k_servers k) (shutdownCallbacks k) (k_once k) (k_logs k) (k_pidFile k) (k_env k) (k_interrupts k) v.

Definition with_logs {A} (m : SG logs A) : SG keeper A := λ k,
  match m (k_logs k) with Ret (a, l) => Ret (a, set_k_logs l k) | Panic p => Panic p end.

(** ** All servers *)

Fixpoint on_servers (f : SG server unit) (l : list server) : Go (list server) :=
  match l with
  | [] => Ret []
  | s :: l => '(_, s) ← f s; l ← on_servers f l; Ret (s :: l)
  end.
Definition each_server (f : SG server unit) : SG keeper unit := λ k,
  match on_servers f (k_servers k) with Ret l => Ret (tt, set_k_servers l k) | Panic p => Panic p end.
Definition Stop : SG keeper unit := each_server srv_Close.
Definition StopAccept : SG keeper unit := each_server (srv_run (StopListeners false)).
Definition StopConnections : SG keeper unit := each_server (srv_run StopConnection).
(** A server one of whose listeners has no descriptor gives none. *)
Definition ListListenerFD (fd : nat → nat → Z) (l : list server) : list Z :=
  concat (imap (λ n s, default [] (ListListenersFD (fd n) (srv_handler s))) l).

(** Both timers are set to the same moment; which of them wins is not looked at. *)
Definition WaitConnectionsDone : SG keeper unit := StopConnections.

(** ** Shutting down *)

Definition OnProcessShutDown (cb : SG logs (option string)) : SG keeper unit :=
  sg_modify (λ k, set_k_callbacks (shutdownCallbacks k ++ [cb]) k).
(** The one function that runs when the process exits removes the file of its number. *)
Definition run_onProcessExit : SG keeper unit := sg_modify (set_k_pidFile false).

Fixpoint run_callbacks (l : list (SG logs (option string))) : SG logs (list (option string)) :=
  match l with [] => mret [] | cb :: l => err ← cb; errs ← run_callbacks l; mret (err :: errs) end.
(** The result of a callback is kept whether or not it is an error. *)
Definition executeShutdownCallbacks : SG keeper Z :=
  k ← sg_get;
  if k_once k then mret 0
  else
  _ ← sg_modify (set_k_once true);
  errs ← with_logs (run_callbacks (shutdownCallbacks k));
  mret (if bool_decide (0 < length errs)%nat then 4 else 0).

(** ** Starting again *)

Section process.
  Context (fd : nat → nat → Z) (fork : gmap string string → list Z → option string) (e : log_env).

(** The exit code, when the process ends. *)
Definition reconfigure : SG keeper (option Z) :=
  k ← sg_get;
  let listenerFD := ListListenerFD fd (k_servers k) in
  if bool_decide (listenerFD = []) then mret None
  else
  let env := <["_MOSN_INHERIT_FD" := FormatUint (Z.of_nat (length listenerFD))]> (<["_MOSN_GRACEFUL_RESTART" := "true"]> (k_env k)) in
  _ ← sg_modify (set_k_env env);
  match fork env listenerFD with
  | Some _ => mret None
  | None =>
    _ ← sg_modify (set_k_child (Some (env, listenerFD)));
    _ ← StopAccept;
    _ ← WaitConnectionsDone;
    mret (Some 0)
  end.

(** ** Signals *)

Inductive signal := SIGQUIT | SIGTERM | SIGUSR1 | SIGHUP | SIGUSR2 | SIGINT.
Definition catchSignals (s : signal) : SG keeper (option Z) :=
  match s with
  | SIGQUIT => _ ← run_onProcessExit; mret (Some 0)
  | SIGTERM => exitCode ← executeShutdownCallbacks; _ ← run_onProcessExit; _ ← Stop; mret (Some exitCode)
  | SIGUSR1 => _ ← with_logs (Reopen e); mret None
  | SIGHUP => reconfigure
  | SIGUSR2 => mret None
  | SIGINT =>
    k ← sg_get;
    _ ← sg_modify (set_k_interrupts (S (k_interrupts k)));
    _ ← run_onProcessExit;
    mret (if bool_decide (0 < k_interrupts k)%nat then Some 2 else None)
  end.

(** [InterruptEnds]: the goroutine of an interrupt, when there is one. *)
Inductive keeper_event := Signalled (s : signal) | InterruptEnds.
Definition keeper_handle (ev : keeper_event) : SG keeper (option Z) :=
  match ev with
  | Signalled s => catchSignals s
  | InterruptEnds =>
    k ← sg_get;
    if bool_decide (0 < k_interrupts k)%nat then c ← executeShutdownCallbacks; mret (Some c) else mret None
  end.
Fixpoint keeper_run (l : list keeper_event) : SG keeper (option Z) :=
  match l with
  | [] => mret None
  | ev :: l => c ← keeper_handle ev; match c with Some c => mret (Some c) | None => keeper_run l end
  end.
End process.

(** What the child sees: the variables, and the sockets behind its descriptors, of which
    the first three are those of a terminal. *)
Definition child_getenv (env : gmap string string) (name : string) : string := default ""%string (env !! name).
Definition child_listener (socket_of : Z → option TCPAddr) (files : list Z) (n : nat) : option TCPAddr :=
  match n with S (S (S n)) => files !! n ≫= socket_of | _ => None end.
