(* ===== verification/KeeperProps.v ===== *)
(** * Theorems about signals and restarts *)

From S2P Require Import Prelude Strconv GoStrings GoNet StateGo Connection Handler Logger LoggerProps Cluster ClusterHosts ConfigTypes Config Startup Keeper.

Local Open Scope Z_scope.

(** ** All listeners of a handler *)

(** A function of one listener, that works on those that satisfy [P]. *)
Lemma each_listener_ok (f : nat → H unit) (g : activeListener → activeListener) (P : activeListener → Prop) l h :
  (∀ i h al, als h !! i = Some al → P al → f i h = Ret (tt, set_als (alter g i (als h)) h)) →
  NoDup l → (∀ i, i ∈ l → ∃ al, als h !! i = Some al ∧ P al) →
  ∃ h', each_listener l f h = Ret (tt, h') ∧ listeners h' = listeners h ∧
    ∀ i, als h' !! i = if decide (i ∈ l) then g <$> als h !! i else als h !! i.
Proof.
  intros Hf. revert h. induction l as [|i l IH]; intros h Hn Hl; [exists h; by split_and!|]. apply NoDup_cons in Hn as [Hi Hn].
  destruct (Hl i) as (al & Hal & HP); [by left|]. destruct (IH (set_als (alter g i (als h)) h)) as (h' & E & E' & Ha); [done| |].
  - intros j Hj. destruct (Hl j) as (al' & Hal' & HP'); [by right|]. exists al'. cbn. rewrite list_lookup_alter_ne by naive_solver. done.
  - exists h'. split_and!; [cbn [each_listener]; by eapply sg_run; [by eapply Hf|]|done|]. intros j. rewrite Ha. cbn. destruct (decide (j = i)) as [->|Hj].
    + rewrite decide_False, decide_True by (done || by left). apply list_lookup_alter_eq.
    + rewrite list_lookup_alter_ne by done. destruct (decide (j ∈ l)) as [Hin|Hin]; [by rewrite decide_True by (by right)|].
      rewrite decide_False; [done|]. rewrite elem_of_cons. naive_solver.
Qed.

(** A handler whose connections were not told to end. *)
Definition handler_live (h : connHandler) : Prop :=
  NoDup (listeners h) ∧ ∀ i, i ∈ listeners h → ∃ al, als h !! i = Some al ∧ al_stopped al = false.
(** A listener after a restart: no more accepts on its socket, if it has one, which is
    as open or closed as before, and its connections told to end. *)
Definition drained (al al' : activeListener) : Prop :=
  l_rawl (al_listener al') = (λ t, mk_tl true (tl_closed t)) <$> l_rawl (al_listener al) ∧ al_stopped al' = true.
Definition handler_drained (h h' : connHandler) : Prop :=
  listeners h' = listeners h ∧
  ∀ i, i ∈ listeners h → ∃ al al', als h !! i = Some al ∧ als h' !! i = Some al' ∧ drained al al'.

Lemma drain_handler h : handler_live h → ∃ h1 h2, StopListeners false h = Ret (tt, h1) ∧ StopConnection h1 = Ret (tt, h2) ∧ handler_drained h h2.
Proof.
  intros [Hn Hl].
  destruct (each_listener_ok (λ i, mod_lis i listen_Stop) (λ l, set_al_listener (listen_Stop (al_listener l)) l) (λ al, al_stopped al = false) (listeners h) h) as (h1 & E1 & L1 & A1); [done..|].
  destruct (each_listener_ok (λ i, l ← get_al i; _ ← sg_lift (go_assert (negb (al_stopped l)) (UserPanic "close of closed channel")); mod_al i (set_al_stopped true))
    (set_al_stopped true) (λ al, al_stopped al = false) (listeners h1) h1) as (h2 & E2 & L2 & A2); [..|by rewrite L1| |].
  - intros i h' al Ha Hs. unfold get_al, hd_get, mbind, SG_bind. cbn. rewrite Ha. cbn. by rewrite Hs.
  - rewrite L1. intros i Hi. rewrite A1, decide_True by done. destruct (Hl i Hi) as (al & -> & Hs). by eexists.
  - exists h1, h2. split_and!; [exact E1|exact E2|]. split; [by rewrite L2|]. intros i Hi. rewrite A2, L1, decide_True, A1, decide_True by done.
    destruct (Hl i Hi) as (al & -> & _). by eexists _, _.
Qed.

(** The socket of a listener is open, and the descriptors of a handler's listeners. *)
Definition open_socket (al : activeListener) : bool :=
  match l_rawl (al_listener al) with Some t => negb (tl_closed t) | None => false end.
Definition all_open (h : connHandler) : bool :=
  forallb (λ i, match als h !! i with Some al => open_socket al | None => false end) (listeners h).
Lemma listeners_fds fd h : ListListenersFD fd h = if all_open h then Some (fd <$> listeners h) else None.
Proof.
  unfold ListListenersFD, all_open. induction (listeners h) as [|i l IH]; [done|]. cbn.
  destruct (als h !! i) as [al|]; [|done]. cbn. unfold open_socket. destruct (l_rawl (al_listener al)) as [t|]; [|done]. cbn.
  destruct (tl_closed t); [done|]. cbn. rewrite IH. by destruct (forallb _ l).
Qed.

(** ** Restarts *)

Definition server_live (s : server) : Prop := handler_live (srv_handler s).
Definition server_drained (s s' : server) : Prop := handler_drained (srv_handler s) (srv_handler s').
(** The descriptors that are handed over, in order: of the servers whose listeners all
    have a socket. *)
Definition handed_over (fd : nat → nat → Z) (l : list server) : list Z :=
  concat (imap (λ n s, if all_open (srv_handler s) then fd n <$> listeners (srv_handler s) else []) l).

Lemma srv_run_at {A} (m : H A) s a h : m (srv_handler s) = Ret (a, h) → srv_run m s = Ret (a, mk_srv (srv_stopped s) (ListenerInMap s) h).
Proof. intros E. unfold srv_run. by rewrite E. Qed.
Lemma drain_servers l : Forall server_live l →
  ∃ l1 l2, on_servers (srv_run (StopListeners false)) l = Ret l1 ∧ on_servers (srv_run StopConnection) l1 = Ret l2 ∧ Forall2 server_drained l l2.
Proof.
  induction 1 as [|s l Hs _ (l1 & l2 & E1 & E2 & Hd)]; [by exists [], []|]. destruct (drain_handler _ Hs) as (h1 & h2 & H1 & H2 & Hdr).
  exists (mk_srv (srv_stopped s) (ListenerInMap s) h1 :: l1), (mk_srv (srv_stopped s) (ListenerInMap s) h2 :: l2).
  cbn [on_servers]. rewrite (srv_run_at _ _ _ _ H1). cbn [mbind Go_bind]. rewrite E1. split_and!; [done| |by constructor].
  rewrite (srv_run_at _ (mk_srv (srv_stopped s) (ListenerInMap s) h1) _ _ H2). cbn [mbind Go_bind]. by rewrite E2.
Qed.
Lemma ListListenerFD_all fd l : ListListenerFD fd l = handed_over fd l.
Proof.
  unfold ListListenerFD, handed_over. f_equal. apply imap_ext. intros n s Hs. cbn. rewrite listeners_fds. by destruct (all_open _).
Qed.
Lemma inherited_sockets env socket_of (files : list Z) : Z.of_nat (length files) ≤ 2 ^ 45 →
  env !! "_MOSN_GRACEFUL_RESTART"%string = Some "true"%string → env !! "_MOSN_INHERIT_FD"%string = Some (FormatUint (Z.of_nat (length files))) →
  ∃ inh, getInheritListeners (child_getenv env) (child_listener socket_of files) = Ret inh ∧ length inh = length files ∧
    ∀ j d, files !! j = Some d → inh !! j = Some ((λ a, mk_inh a (3 + j)%nat false) <$> socket_of d).
Proof.
  intros Hn Hg Hf. unfold getInheritListeners, child_getenv. rewrite Hg, Hf. cbn [default from_option]. rewrite bool_decide_true by done.
  unfold id, Atoi. rewrite !ParseInt_FormatUint by lia. rewrite bool_decide_true by lia. rewrite Nat2Z.id. eexists. split_and!; [done|by rewrite length_fmap, length_seq|].
  intros j d Hj. rewrite list_lookup_fmap, lookup_seq_lt by by eapply lookup_lt_Some. cbn. by rewrite Hj.
Qed.

(** The environment of the new process, beside what was there before. *)
Definition restart_env (n : nat) (k : keeper) : gmap string string :=
  <["_MOSN_INHERIT_FD" := FormatUint (Z.of_nat n)]> (<["_MOSN_GRACEFUL_RESTART" := "true"]> (k_env k)).

(** C20. A restart.  What is handed over are the sockets of the servers all of whose
    listeners have an open one; a server with a listener that does not bind, or whose
    socket is closed, hands nothing over (the restart goes on without it, against the
    comment at server.go:170).  When nothing is handed over, nothing happens, and when
    the new process cannot be started, the old one goes on as before.  Otherwise the new
    process sees one listener for each socket, in their order and with their addresses
    (nil for a descriptor that is none of a listener), while every listener of the old
    one, handed over or not, accepts nothing more, has its socket as it was, and has told
    its connections to end, and the old process ends with 0.  This is of a process that
    has not told connections to end before, and at most 2^45 sockets. *)
Theorem hot_restart fd fork e socket_of k : Forall server_live (k_servers k) →
  let fds := handed_over fd (k_servers k) in
  let env := restart_env (length fds) k in
  Z.of_nat (length fds) ≤ 2 ^ 45 →
  ∃ code k', catchSignals fd fork e SIGHUP k = Ret (code, k') ∧
  if bool_decide (fds = []) || bool_decide (is_Some (fork env fds))
  then code = None ∧ k_servers k' = k_servers k ∧ k_child k' = k_child k
  else code = Some 0 ∧ k_child k' = Some (env, fds) ∧ Forall2 server_drained (k_servers k) (k_servers k') ∧
    ∃ inh, getInheritListeners (child_getenv env) (child_listener socket_of fds) = Ret inh ∧ length inh = length fds ∧
      ∀ j d, fds !! j = Some d → inh !! j = Some ((λ a, mk_inh a (3 + j)%nat false) <$> socket_of d).
Proof.
  intros Hup fds env Hlen. cbn [catchSignals]. unfold reconfigure.
  destruct (decide (fds = [])) as [Hb|Hb].
  { exists None, k. rewrite (bool_decide_true (fds = [])) by done. split_and!; [|done..]. srun. by rewrite ListListenerFD_all, bool_decide_true. }
  rewrite (bool_decide_false (fds = [])) by done. cbn [orb].
  destruct (fork env fds) as [err|] eqn:F.
  { rewrite bool_decide_true by eauto. eexists None, _. split.
    - srun. rewrite ListListenerFD_all, bool_decide_false by done. srun. fold fds. unfold restart_env in env. fold env. rewrite F. reflexivity.
    - done. }
  rewrite (bool_decide_false (is_Some None)) by by intros [? ?].
  destruct (inherited_sockets env socket_of fds Hlen) as (inh & E & Hl & Hi).
  { unfold env, restart_env. rewrite lookup_insert_ne by done. apply lookup_insert_eq. }
  { apply lookup_insert_eq. }
  destruct (drain_servers _ Hup) as (l1 & l2 & E1 & E2 & Hd).
  eexists (Some 0), _. split_and!; [|done|shelve|shelve|by exists inh].
  - srun. rewrite ListListenerFD_all, bool_decide_false by done. srun. fold fds. unfold restart_env in env. fold env. rewrite F. srun.
    eapply sg_run; [unfold StopAccept, each_server; cbn; rewrite E1; reflexivity|].
    eapply sg_run; [unfold WaitConnectionsDone, StopConnections, each_server; cbn; rewrite E2; reflexivity|]. reflexivity.
  Unshelve. + done. + done.
Qed.

(** ** Exit codes *)

Section codes.
  Context (fd : nat → nat → Z) (fork : gmap string string → list Z → option string) (e : log_env).

Definition child_env (k : keeper) : gmap string string :=
  <["_MOSN_INHERIT_FD" := FormatUint (Z.of_nat (length (ListListenerFD fd (k_servers k))))]> (<["_MOSN_GRACEFUL_RESTART" := "true"]> (k_env k)).
Definition restarts (k : keeper) : bool :=
  negb (bool_decide (ListListenerFD fd (k_servers k) = [])) && bool_decide (fork (child_env k) (ListListenerFD fd (k_servers k)) = None).
(** The code that a sequence of events ends with, from the number of callbacks and
    whether a restart works. *)
Fixpoint exit_code (callbacks : nat) (restart : bool) (interrupts : nat) (l : list keeper_event) : option Z :=
  let shutdown := if bool_decide (0 < callbacks)%nat then 4 else 0 in
  match l with
  | [] => None
  | Signalled SIGQUIT :: _ => Some 0
  | Signalled SIGTERM :: _ => Some shutdown
  | Signalled SIGHUP :: l => if restart then Some 0 else exit_code callbacks restart interrupts l
  | Signalled SIGINT :: l => if bool_decide (0 < interrupts)%nat then Some 2 else exit_code callbacks restart (S interrupts) l
  | InterruptEnds :: l => if bool_decide (0 < interrupts)%nat then Some shutdown else exit_code callbacks restart interrupts l
  | Signalled (SIGUSR1 | SIGUSR2) :: l => exit_code callbacks restart interrupts l
  end.

Lemma run_callbacks_length l s errs s' : run_callbacks l s = Ret (errs, s') → length errs = length l.
Proof.
  revert s errs s'. induction l as [|cb l IH]; intros s errs s' H; [by injection H as <- _|].
  apply sg_bind_Ret_inv in H as (err & s1 & _ & H). apply sg_bind_Ret_inv in H as (errs' & s2 & E & [= <- _]). cbn. f_equal. exact (IH _ _ _ E).
Qed.
Lemma shutdown_code k c k' : k_once k = false → executeShutdownCallbacks k = Ret (c, k') →
  c = if bool_decide (0 < length (shutdownCallbacks k))%nat then 4 else 0.
Proof.
  intros Ho H. unfold executeShutdownCallbacks in H. apply sg_bind_Ret_inv in H as (? & ? & [= <- <-] & H). rewrite Ho in H.
  apply sg_bind_Ret_inv in H as (? & ? & [= _ <-] & H). apply sg_bind_Ret_inv in H as (errs & k1 & E & [= <- <-]).
  unfold with_logs in E. destruct (run_callbacks _ _) as [[errs' s1]|] eqn:R; [|done]. injection E as <- _. by rewrite (run_callbacks_length _ _ _ _ R).
Qed.

(** What of the process an event that does not end it leaves as it was. *)
Definition same_process (k k' : keeper) : Prop :=
  k_servers k' = k_servers k ∧ shutdownCallbacks k' = shutdownCallbacks k ∧ k_once k' = k_once k ∧ child_env k' = child_env k.
Lemma handle_code k ev c k' : k_once k = false → keeper_handle fd fork e ev k = Ret (c, k') →
  match c with
  | Some _ => ∀ l, exit_code (length (shutdownCallbacks k)) (restarts k) (k_interrupts k) (ev :: l) = c
  | None => same_process k k' ∧ ∀ l, exit_code (length (shutdownCallbacks k)) (restarts k) (k_interrupts k) (ev :: l) =
                                     exit_code (length (shutdownCallbacks k)) (restarts k) (k_interrupts k') l
  end.
Proof.
  intros Ho H. destruct ev as [[]|]; cbn [keeper_handle catchSignals] in H.
  - apply sg_bind_Ret_inv in H as (? & ? & _ & [= <- <-]). done.
  - apply sg_bind_Ret_inv in H as (c' & ? & E & H). apply shutdown_code in E as ->; [|done].
    apply sg_bind_Ret_inv in H as (? & ? & _ & H). apply sg_bind_Ret_inv in H as (? & ? & _ & [= <- <-]). done.
  - apply sg_bind_Ret_inv in H as (? & ? & E & [= <- <-]). unfold with_logs in E. destruct (Reopen e _) as [[? ?]|]; [|done]. by injection E as _ <-.
  - unfold reconfigure in H. apply sg_bind_Ret_inv in H as (? & ? & [= <- <-] & H).
    destruct (decide (ListListenerFD fd (k_servers k) = [])) as [Hn|Hn].
    + rewrite bool_decide_true in H by done. injection H as <- <-. split; [done|]. intros l. cbn. unfold restarts. by rewrite (bool_decide_true (_ = [])) by done.
    + rewrite bool_decide_false in H by done. apply sg_bind_Ret_inv in H as (? & ? & [= _ <-] & H). fold (child_env k) in H.
      unfold restarts. rewrite (bool_decide_false (_ = [])) by done. cbn [negb andb]. destruct (fork (child_env k) _) as [err|] eqn:F.
      * injection H as <- <-. split; [|done].
        split_and!; [done..|]. unfold child_env. cbn. rewrite (insert_insert_ne _ "_MOSN_GRACEFUL_RESTART") by done. rewrite !insert_insert_eq. done.
      * do 3 apply sg_bind_Ret_inv in H as (? & ? & _ & H). injection H as <- <-. done.
  - by injection H as <- <-.
  - apply sg_bind_Ret_inv in H as (? & ? & [= <- <-] & H). apply sg_bind_Ret_inv in H as (? & ? & [= _ <-] & H). apply sg_bind_Ret_inv in H as (? & ? & [= _ <-] & [= <- <-]).
    case_bool_decide as Hk; [intros l; cbn; by rewrite bool_decide_true by done|]. split; [done|]. intros l. cbn. by rewrite bool_decide_false by done.
  - apply sg_bind_Ret_inv in H as (? & ? & [= <- <-] & H). case_bool_decide as Hk.
    + apply sg_bind_Ret_inv in H as (c' & ? & E & [= <- <-]). apply shutdown_code in E as ->; [|done]. intros l. cbn. by rewrite bool_decide_true by done.
    + injection H as <- <-. split; [done|]. intros l. cbn. by rewrite bool_decide_false by done.
Qed.

(** The exit code depends on the events only, and a process that is told to stop ends
    with 4, not 0, as soon as there is a callback, whatever the callbacks return. *)
Theorem exit_codes l k c k' : k_once k = false → keeper_run fd fork e l k = Ret (c, k') →
  c = exit_code (length (shutdownCallbacks k)) (restarts k) (k_interrupts k) l.
Proof.
  revert k. induction l as [|ev l IH]; intros k Ho H; [by injection H as <- _|]. cbn [keeper_run] in H.
  apply sg_bind_Ret_inv in H as (c1 & k1 & E & H). pose proof (handle_code k ev c1 k1 Ho E) as Hc. destruct c1 as [c1|].
  - injection H as <- _. by rewrite Hc.
  - destruct Hc as [(S1 & S2 & S3 & S4) Hc]. rewrite (IH k1) by (rewrite ?S3; done). rewrite Hc, S2. f_equal. unfold restarts. by rewrite S1, S4.
Qed.
End codes.

(** ** Examples *)

Definition demo_listener (addr : string) : activeListener :=
  newActiveListener (NewListener (mk_lc "l" "tcp" addr true 1 0 false true false "" 3 [])) 0 [] 0 false.
Definition demo_server : server :=
  mk_srv false ∅ (mk_ch 0 [0; 1]%nat [demo_listener "127.0.0.1:80"; demo_listener "127.0.0.1:443"] [] [] (Some 0%nat)).
Definition demo_keeper : keeper := mk_keeper [demo_server] [mret None] false (mk_logs [] [] None ∅ []) true ∅ 0 None.
Definition demo_env : log_env := mk_log_env (λ _, None) (λ _, None) None (λ _ _, None) (λ _, None) (λ _, None).
Definition demo_fd (n i : nat) : Z := Z.of_nat (10 + i).
Definition demo_socket (d : Z) : option TCPAddr :=
  if bool_decide (d = 10) then Some (mk_tcp (IPv4 127 0 0 1) 80 "") else if bool_decide (d = 11) then Some (mk_tcp (IPv4 127 0 0 1) 443 "") else None.

(** A second server, one of whose listeners has no socket, hands nothing over; its
    listeners are drained all the same. *)
Definition unbound_listener : activeListener :=
  newActiveListener (NewListener (mk_lc "m" "tcp" "127.0.0.1:81" false 1 0 false false false "" 3 [])) 0 [] 0 false.
Definition second_server : server :=
  mk_srv false ∅ (mk_ch 0 [0; 1]%nat [demo_listener "127.0.0.1:8080"; unbound_listener] [] [] (Some 0%nat)).
Definition two_servers : keeper := mk_keeper [second_server; demo_server] [mret None] false (mk_logs [] [] None ∅ []) true ∅ 0 None.

Lemma hot_restart_witness :
  ∃ k' env inh, catchSignals demo_fd (λ _ _, None) demo_env SIGHUP two_servers = Ret (Some 0, k') ∧ k_child k' = Some (env, [10; 11]) ∧
    Forall2 server_drained [second_server; demo_server] (k_servers k') ∧
    getInheritListeners (child_getenv env) (child_listener demo_socket [10; 11]) = Ret inh ∧
    inh = [Some (mk_inh (mk_tcp (IPv4 127 0 0 1) 80 "") 3 false); Some (mk_inh (mk_tcp (IPv4 127 0 0 1) 443 "") 4 false)].
Proof.
  destruct (hot_restart demo_fd (λ _ _, None) demo_env demo_socket two_servers) as (code & k' & E & -> & Hch & Hd & inh & Ei & Hl & Hi).
  - assert (∀ s, s = second_server ∨ s = demo_server → server_live s) as Hlive.
    { intros s Hs. split; [by destruct Hs as [-> | ->]; apply (bool_decide_unpack (NoDup [0; 1]%nat))|].
      intros i Hi. assert (i = 0 ∨ i = 1)%nat as Hi' by (destruct Hs as [-> | ->]; cbn in Hi; set_solver).
      by destruct Hs as [-> | ->], Hi' as [-> | ->]; eexists. }
    constructor; [apply Hlive; by left|]. constructor; [apply Hlive; by right|constructor].
  - by vm_compute.
  - exists k', (restart_env 2 two_servers), inh. split_and!; [exact E|exact Hch|exact Hd|exact Ei|].
    destruct inh as [|i0 [|i1 [|]]]; try done. pose proof (Hi 0%nat 10 eq_refl) as H0. pose proof (Hi 1%nat 11 eq_refl) as H1.
    cbn in H0, H1. by injection H0 as ->; injection H1 as ->.
Defined.

(** A process that cannot be started changes nothing. *)
Example restart_refused :
  catchSignals demo_fd (λ _ _, Some "no memory"%string) demo_env SIGHUP two_servers = Ret (None, set_k_env (restart_env 2 two_servers) two_servers).
Proof. vm_compute. reflexivity. Qed.

(** A stop whose callbacks all succeed ends with 4. *)
Example stop_ends_with_4 : ∃ k', keeper_run demo_fd (λ _ _, None) demo_env [Signalled SIGTERM] demo_keeper = Ret (Some 4, k') ∧ k_pidFile k' = false.
Proof. eexists. split; [vm_compute; reflexivity|done]. Qed.
(** A second interrupt does not wait for the callbacks. *)
Example second_interrupt : ∃ k', keeper_run demo_fd (λ _ _, None) demo_env [Signalled SIGINT; Signalled SIGUSR2; Signalled SIGINT] demo_keeper = Ret (Some 2, k').
Proof. eexists. vm_compute. reflexivity. Qed.
